(* ===== verification/_CoqProject ===== *)
-Q . S2P
Prelude.v
Sdk.v
Geth.v
SdkModel.v
EvmTypes.v
ChainId.v
GasMeter.v
SigGas.v
TxTypes.v
EvmStore.v
Genesis.v
AccessList.v
StateDB.v
SnapshotStack.v
Programs.v
StateDBEffects.v
FeeMarket.v
Cpc.v
CpcContracts.v
Eip712.v
TypedTx.v
Keys.v
Staking.v
Contracts.v
StateTransition.v
TxExecution.v
VAuth.v
Ledger.v
Wallets.v
Query.v
Tracing.v
AnteTx.v
Indexer.v
IndexerCmd.v
IndexerService.v
NodeSetup.v
Profiler.v
RpcLogs.v
FilterSystem.v
FilterSafety.v
Ante.v
Blocks.v
RpcBlocks.v
Notifier.v
RpcFees.v
Websockets.v
WebsocketsSafety.v
RpcSend.v
RpcState.v
RpcApi.v
Models.v
Witnesses.v
BlockWitnesses.v
IndexerWitnesses.v
QueryWitnesses.v
RpcWitnesses.v
FilterWitnesses.v
TypedWitnesses.v
RpcBackendWitnesses.v
RpcStateWitnesses.v
RpcApiWitnesses.v
WebsocketsWitnesses.v
WalletWitnesses.v
