(* ===== verification/Prelude.v ===== *)
(** * A verification development for Evermint

    Evermint is a Cosmos SDK chain with an Ethereum virtual machine.  An Ethereum
    transaction comes wrapped in a Cosmos transaction.  The ante handler (app/antedl)
    separates the two kinds of transactions, checks them, deducts the fee and raises the
    nonce; the module x/evm executes the message with go-ethereum's EVM on a StateDB that
    keeps balances in the bank module and code and storage in a key-value store; the
    module x/feemarket sets the base fee; x/cpc adds contracts that are written in Go
    (ERC-20 views of bank coins, Bech32 conversion, staking); x/vauth stores proofs that
    an account is owned by a key.  Around the chain are an index of transactions
    (indexer, server), a JSON-RPC server with polled filters and websockets (rpc), typed
    data for signing Cosmos transactions (ethereum/eip712), keys (crypto) and hardware
    wallets (wallets).  This library models that code and proves what it does.

    ** How the code is modelled

    A Go function is a Rocq function.  Code that can fail returns [res], which keeps
    returned errors and panics apart; code that changes state is a function of the monad
    [M] over the state it changes.  Machine integers are [Z] with the wrap-around
    written out; byte slices are lists of bytes; addresses and hashes are lists with
    their length; stores are finite maps from bytes to bytes; floats are the [spec_float]
    of binary64.  The sdk.Context and its cached branches are an interface ([CacheCtx] in
    Sdk.v) with its laws, so that code that works on several branches at once is
    modelled with the sharing it has.  Goroutines that share state (the event system,
    filters, websockets, wallets) are atomic steps over that state, and the theorems range
    over all sequences of steps.

    Code outside the repository is a parameter: the SDK's auth and bank keepers
    ([SdkKeepers], laws [SdkLaws]), its staking and distribution modules
    ([StakingKeepers]), branching of stores ([CacheCtx]), protobuf and JSON codecs
    ([Codec], [Json], [SignCodecs]), Bech32 and hexadecimal text ([Bech32], [HexText]),
    gjson ([Gjson]), the EIP-712 hash ([Eip712Lib]), the types and functions of go-ethereum
    ([Geth], [BloomLib], [RpcGeth], [LatestSigner]), the EVM ([EvmEngine]: a program of
    StateDB calls; [EngineCalls]: it only calls the contracts it was given), its tracers
    ([TracerLib]), the SDK's ante decorators ([SdkAnte]), the curve and its recovery
    ([Curve], [RecoverLib]), the devices of hardware wallets, the node behind the
    JSON-RPC server ([Node], [FeeNode], [SendNode], [StateNode], [ApiNode]), its stores of
    blocks ([BlockStores]), its key ring ([Keyring]) and the websocket library.
    SdkModel.v and Models.v give concrete instances that satisfy the laws, and the files of
    witnesses apply every property that has hypotheses to concrete states of them.

    ** Files

    The base:
    - Prelude.v: errors, the monads, machine integers, byte encodings, tactics.
    - Sdk.v: stores, coins, accounts, keepers and contexts with their laws, and [World],
      the state of all stores.  Geth.v: transactions, messages, receipts and the
      functions of go-ethereum.  SdkModel.v: a concrete bank, accounts and branches.

    The chain:
    - EvmTypes.v: x/evm/types key.go, chain_config.go, params.go, utils.go.
    - ChainId.v: types/chain_id.go, x/evm/types/eip155.go.
    - GasMeter.v: types/gasmeter.go, int.go, block.go, x/evm/keeper/gas.go.
      SigGas.v: the gas of signatures, app/antedl/duallane/11_sig_verification.go.
    - TxTypes.v: x/evm/types msg.go, tx.go, tx_args.go, x/evm/utils/ethereum_tx.go.
    - EvmStore.v: x/evm/keeper statedb.go, keeper.go, params.go, abci.go,
      block_proposer.go.  Genesis.v: x/evm/genesis.go, x/evm/types genesis.go,
      storage.go.
    - AccessList.v: x/evm/vm/state_db_access_list.go and state_db_access_list_geth.go.
    - StateDB.v: the methods of x/evm/vm/state_db.go on one context, with the trackers,
      transient storage and logs beside it, and x/evm/utils/validation.go.
    - SnapshotStack.v: snapshots, reverts and the commit of state_db.go and
      state_db_snapshot.go over branched contexts, and the specification without them.
    - Programs.v: programs of StateDB calls and invariants of all of them.
    - StateDBEffects.v: what the operations and the commit do to accounts and coins.
    - FeeMarket.v: x/feemarket.
    - Cpc.v: x/cpc types, keeper parameters, registry, deployments and genesis.
      CpcContracts.v: precompiles.go, precompiles_erc20.go, precompiles_bech32.go, abi.
      Eip712.v: x/cpc/eip712 and the messages of x/cpc/abi that are signed.
      Staking.v: precompiles_staking.go, precompiles_util.go.  Contracts.v: the three
      kinds of contracts behind one address lookup.
    - StateTransition.v: x/evm/keeper/state_transition_core.go.
    - TxExecution.v: x/evm/keeper state_transition.go, config.go, msg_server.go.
    - VAuth.v: x/vauth.
    - Query.v: the gRPC queries of x/evm, x/cpc, x/vauth, x/feemarket, with eth_call and
      the estimation of gas.  Tracing.v: the traces of transactions and blocks.
    - AnteTx.v: app/antedl/utils, nested messages and the fee checkers.
      Ante.v: every decorator of app/antedl and their chain.
    - Blocks.v: the composition of ante handler, execution and end of block over the
      transactions of a block.

    Keys and wallets:
    - TypedTx.v: ethereum/eip712, with the recovery of sign documents from their bytes.
      Keys.v: crypto/ethsecp256k1 and crypto/hd.
    - Ledger.v: wallets/usbwallet/ledger.go.  Wallets.v: wallets/usbwallet wallet.go,
      hub.go and wallets/ledger, over any driver.

    The server:
    - Indexer.v: indexer/kv_indexer.go, rpc/types/events.go.  IndexerService.v:
      server/indexer_service.go as a step function.  IndexerCmd.v:
      server/indexer_cmd.go.
    - RpcLogs.v: receipts and logs: rpc/backend/utils.go, rpc/types/utils.go,
      rpc/namespaces/ethereum/eth/filters/filters.go, utils.go.
    - FilterSystem.v, FilterSafety.v: the event system (filter_system.go,
      subscription.go), its topics (rpc/ethereum/pubsub) and the polled filters
      (filters/api.go).  Notifier.v: the subscriptions of filters/api.go over a connection.
    - Websockets.v, WebsocketsSafety.v: rpc/websockets.go.
    - RpcBlocks.v: rpc/types/block.go, rpc/backend blocks.go, tx_info.go.  RpcFees.v:
      chain_info.go and the fee history.  RpcSend.v: nonces, defaults and submission
      (call_tx.go, sign_tx.go, account_info.go).  RpcState.v: state, proofs, calls,
      signatures and traces.  RpcApi.v: the namespaces eth, personal and debug, the
      accounts and settings of the node (node_info.go).
    - NodeSetup.v: server/config/config.go, rpc/apis.go and
      cmd/evmd/genesis/add_vesting_account.go.  Profiler.v: the profiles of the namespace
      debug.

    Models.v: the remaining concrete instances.  Witnesses.v, BlockWitnesses.v,
    IndexerWitnesses.v, QueryWitnesses.v, RpcWitnesses.v, FilterWitnesses.v,
    TypedWitnesses.v, RpcBackendWitnesses.v, RpcStateWitnesses.v, RpcApiWitnesses.v,
    WebsocketsWitnesses.v, WalletWitnesses.v: the properties on concrete states.

    ** What the theorems show

    - The StateDB.  A StateDB over branches of contexts behaves, on every program of
      calls, as a plain stack of states (C1), so that a revert gives back everything.
      Value transfers burn and mint exactly (C10), and the commit removes exactly the
      accounts it should (C11), never a protected one ([commit_keeps_protected]).
      Re-created accounts keep their coins ([CreateAccount_carries_balance]).
    - Execution.  Applying a message through contexts implements a specification
      without contexts (C2); gas is accounted for in the meter of the transaction and in
      the transition (C3, C7); a rejected message changes nothing (C8); the refund of gas
      is minted (C9).
    - The ante handler and the block.  The Ethereum lane checks and changes what it should
      (C4), the lanes are separate (C6), the fee checker charges the right price (C12).
      Over a whole block, every transaction that passed the ante handler has one receipt, in
      order, and the end of the block emits the bloom of exactly these (C5).
    - Queries.  An estimate of gas is enough and not too high (C13), found by a search
      that ends (C28).
    - Fees and contracts.  The base fee of the next block (C14); the ERC-20 contracts
      and their deployment (C15, C16, C17); the methods of all contracts (C18); the
      staking contract acts for nobody but the caller and logs exactly what happened
      (C19, C20).
    - Proofs of ownership (C21) and genesis (C22).
    - The index.  Indexed transactions are found again (C23), the service that feeds the
      index becomes ready and leaves no gap (C24, C25), and the command that indexes past
      blocks indexes exactly its range ([index_command_exact]).
    - Receipts and logs.  Receipts are read back from their events (C26); searches for logs
      are exact (C27); the logs of a transaction are those of its receipt
      ([transaction_logs_agree]).
    - Typed data and keys.  Two sign documents with the same typed data are the same (C30),
      whose types describe it (C31); a derived key signs what its public key accepts
      (C32); an exchange with a Ledger device is exact to the byte
      ([ledger_exchange_exact]), and a signature from a device is accepted on the chain
      (C40).
    - Concurrency of the server.  No channel is closed twice (C33); polls lose and repeat
      nothing (C34); over all interleavings of connections, the subscribers of the event
      bus are those of the websockets (C38), and every request is answered once, in
      order (C39); subscriptions over a connection send what polled filters hold
      ([notices_agree_with_polls]) or nothing ([heads_are_never_sent]).
    - The backend.  Raw transactions are checked before they are sent (C29); receipts asked
      for in different ways agree (C35), so do reads of the state with and without
      proofs (C36) and traces of transactions and blocks (C37).
    - The node.  Imported keys are listed and none is lost ([imports_are_listed]);
      setting the etherbase broadcasts one transaction or none ([etherbase_broadcasts]);
      valid configurations ([json_rpc_config_valid]) and the services they enable
      ([served_apis_exact]); a vesting account keeps the genesis sound
      ([vesting_account_keeps_genesis]); files of profiles ([profile_files_exact]).

    ** Bounds and fuel

    [BinSearch_loop] runs on fuel 64, which is enough because the range of 64-bit limits
    halves in every step; that it never runs out is part of C28.  [trim_left] of
    ChainId.v has the length of the text as fuel, one step for each character removed.
    [range_logs] counts the blocks that are left, which are at most the cap of blocks
    and 600 beyond the head.  [index_blocks] counts the blocks of the range.  The typed data
    of nested JSON recurses on a depth that is part of the statement ([message_ok]).  The
    loop that writes frames to a Ledger device has the length of the command as fuel,
    which every frame shortens; the loop that reads has no bound in the code, and fuel
    that runs out is not taken for a result.  The indexer service is a step function
    without fuel; C24 bounds the number of its steps by a rank that every step lowers.
    Every other recursion is structural.  Loops over transaction indices count with a
    [nat] made from the 64-bit bound of the loop.  Counters of 64 bits (the transactions of
    a block, the subscribers of the event bus) do not wrap around within the bounds
    that the theorems name.

    ** What is not modelled

    The EVM interpreter, the tracers and the SDK's modules (parameters); the paginated list
    of contracts, which is the SDK's pagination over one prefix; methods that only call
    another one, and constant answers; the construction of the application and of its
    servers (app, server/start.go, cmd), which is a sequence of calls of the SDK and of
    CometBFT with no state of its own; the export of the state at height zero, which is
    a sequence of calls of the SDK's keepers; the network itself: sockets, HTTP, the
    files of databases; generated code; metrics, log lines and most texts of errors;
    utilities of tests. *)

From Stdlib Require Import ZArith Lia Strings.Byte.
From stdpp Require Import base decidable countable gmap list strings numbers option sorting.

#[global] Open Scope Z_scope.

(** ** Errors and results

    Go code reports a failure in two ways: it returns an error value, which the
    caller handles or hands on, or it panics, which unwinds to the recovery
    point of the transaction runner.  [res] keeps the two apart.  [gerr] lists
    the sentinel errors of the packages under src/ and of the packages they
    call; [Errorf] stands for an error built from a message. *)

Inductive gerr : Type :=
  (* cosmos-sdk sentinel errors *)
  | ErrInvalidType | ErrUnknownExtensionOptions | ErrLogic | ErrInvalidRequest
  | ErrUnknownRequest | ErrNotSupported | ErrorInvalidSigner | ErrInvalidSigner
  | ErrInvalidSequence | ErrUnknownAddress | ErrInvalidPubKey | ErrInvalidCoins
  | ErrInsufficientFee | ErrTxDecode | ErrInvalidAddress | ErrUnauthorized
  | ErrConflict | ErrInsufficientFunds | ErrInvalidChainID | ErrNoSignatures
  | ErrInvalidHeight | ErrNoDelegation
  (* x/evm sentinel errors *)
  | ErrInvalidState | ErrInvalidChainConfig | ErrCreateDisabled | ErrCallDisabled
  | ErrInvalidAmount | ErrInvalidGasPrice | ErrInvalidGasFee | ErrInvalidGasCap
  | ErrGasOverflow | ErrInvalidGasLimit | ErrEngineFailure
  (* x/cpc sentinel errors *)
  | ErrExecFailure | ErrNotSupportedByCpc | ErrInvalidCpcInput
  (* go-ethereum core errors *)
  | ErrNonceTooHigh | ErrNonceTooLow | ErrNonceMax | ErrSenderNoEOA
  | ErrFeeCapVeryHigh | ErrTipVeryHigh | ErrTipAboveFeeCap | ErrFeeCapTooLow
  | ErrIntrinsicGas | ErrInsufficientFundsForTransfer | ErrGasLimitReached
  (* gas meter panics of types/gasmeter.go *)
  | ErrorNegativeGasConsumed | ErrorGasOverflow
  (* Go runtime panics *)
  | IndexOutOfRange | NilMapWrite | NilDereference | DivisionByZero
  (* errors and panics made from a message *)
  | Errorf (msg : string).

#[export] Instance gerr_eq_dec : EqDecision gerr.
Proof. solve_decision. Defined.

Inductive res (A : Type) : Type :=
  | Ok (a : A)
  | Err (e : gerr)
  | Panic (e : gerr).
Arguments Ok {A} a.
Arguments Err {A} e.
Arguments Panic {A} e.

#[export] Instance res_ret : MRet res := fun _ a => Ok a.
#[export] Instance res_bind : MBind res := fun _ _ f r =>
  match r with Ok a => f a | Err e => Err e | Panic e => Panic e end.
#[export] Instance res_fmap : FMap res := fun _ _ f r =>
  match r with Ok a => Ok (f a) | Err e => Err e | Panic e => Panic e end.

Definition is_ok {A} (r : res A) : bool :=
  match r with Ok _ => true | _ => false end.

(** A stateful computation.  The state is returned on every outcome: a Go
    function that returns an error after a write leaves the write in place. *)
Definition M (S A : Type) : Type := S -> res A * S.

#[export] Instance M_ret {S} : MRet (M S) := fun _ a s => (Ok a, s).
#[export] Instance M_bind {S} : MBind (M S) := fun _ _ f m s =>
  match m s with
  | (Ok a, s') => f a s'
  | (Err e, s') => (Err e, s')
  | (Panic e, s') => (Panic e, s')
  end.

Definition err {S A} (e : gerr) : M S A := fun s => (Err e, s).
Definition panic {S A} (e : gerr) : M S A := fun s => (Panic e, s).
Definition gets {S A} (f : S -> A) : M S A := fun s => (Ok (f s), s).
Definition modify {S} (f : S -> S) : M S unit := fun s => (Ok tt, f s).
Definition lift_res {S A} (r : res A) : M S A := fun s => (r, s).
(** A guard: [if !b { return e }]. *)
Definition require {S} (b : bool) (e : gerr) : M S unit :=
  if b then mret tt else err e.
(** A guard that panics: [if !b { panic(e) }]. *)
Definition must {S} (b : bool) (e : gerr) : M S unit :=
  if b then mret tt else panic e.
(** [x, err := f(); if err != nil { panic(err) }]. *)
Definition or_panic {S A} (e : gerr) (m : M S A) : M S A := fun s =>
  match m s with
  | (Err _, s') => (Panic e, s')
  | r => r
  end.
(** [if err := f(); err != nil { return Wrap(e, ...) }]: the error is replaced. *)
Definition wrap_err {S A} (e : gerr) (m : M S A) : M S A := fun s =>
  match m s with
  | (Err _, s') => (Err e, s')
  | r => r
  end.
(** [x, err := f(); if err != nil { h(err) }] *)
Definition catch_err {S A} (m : M S A) (h : gerr -> M S A) : M S A := fun s =>
  match m s with
  | (Err e, s') => h e s'
  | r => r
  end.
Definition wrap_res {A} (e : gerr) (r : res A) : res A :=
  match r with Err _ => Err e | r => r end.
(** [MustX]: an error becomes a panic. *)
Definition must_res {A} (r : res A) : res A :=
  match r with Err e => Panic e | r => r end.
(** Run a computation on a part of the state. *)
Definition zoom {S T A} (get : S -> T) (put : T -> S -> S) (m : M T A) : M S A :=
  fun s => let '(r, t) := m (get s) in (r, put t s).
(** The outcome of an operation whose new state is a value: on an error the
    state is unchanged. *)
Definition run_upd {S} (f : S -> res S) : M S unit := fun s =>
  match f s with
  | Ok s' => (Ok tt, s')
  | Err e => (Err e, s)
  | Panic e => (Panic e, s)
  end.
Fixpoint mapM_ {S A} (f : A -> M S unit) (l : list A) : M S unit :=
  match l with
  | [] => mret tt
  | x :: l' => f x ;; mapM_ f l'
  end.

(** ** Machine integers *)

Definition MaxUint64 : Z := 2 ^ 64 - 1.
Definition MaxInt64 : Z := 2 ^ 63 - 1.
(** [uint64] arithmetic wraps around. *)
Definition wrap64 (z : Z) : Z := z mod 2 ^ 64.
Definition add64 (a b : Z) : Z := wrap64 (a + b).
Definition sub64 (a b : Z) : Z := wrap64 (a - b).
(** [int64(x)] of a [uint64]. *)
Definition int64_of_uint64 (z : Z) : Z := if z <=? MaxInt64 then z else z - 2 ^ 64.
Definition is_u64 (z : Z) : Prop := 0 <= z <= MaxUint64.
#[export] Instance is_u64_dec z : Decision (is_u64 z).
Proof. unfold is_u64. apply _. Defined.
(** [big.Int.BitLen]: the length of the absolute value in bits, 0 for 0. *)
Definition BitLen (z : Z) : Z := if z =? 0 then 0 else Z.log2 (Z.abs z) + 1.

(** ** Bytes *)

Abbreviation byte := Byte.byte.
Abbreviation bytes := (list Byte.byte).

#[export] Instance byte_eq_dec : EqDecision byte := Byte.byte_eq_dec.
#[export] Instance byte_countable : Countable byte.
Proof.
  refine (inj_countable Byte.to_N Byte.of_N _).
  intros x. apply Byte.of_to_N.
Defined.

Definition byte_of_Z (z : Z) : byte :=
  match Byte.of_N (Z.to_N (z mod 256)) with Some b => b | None => x00 end.
Definition Z_of_byte (b : byte) : Z := Z.of_N (Byte.to_N b).

(** Little-endian digits, and the big-endian encodings the stores use
    ([encoding/binary]'s BigEndian, [sdk.Uint64ToBigEndian]). *)
Fixpoint le_encode (n : nat) (z : Z) : bytes :=
  match n with
  | O => []
  | S n' => byte_of_Z z :: le_encode n' (z / 256)
  end.
Fixpoint le_decode (bs : bytes) : Z :=
  match bs with
  | [] => 0
  | b :: bs' => Z_of_byte b + 256 * le_decode bs'
  end.
Definition be_encode (n : nat) (z : Z) : bytes := rev (le_encode n z).
Definition be_decode (bs : bytes) : Z := le_decode (rev bs).
Definition Uint64ToBigEndian (z : Z) : bytes := be_encode 8 z.
(** Zero for an empty slice. *)
Definition BigEndianToUint64 (bs : bytes) : Z := wrap64 (be_decode bs).

(** [big.Int.Bytes] (the absolute value, big-endian, no leading zero) and
    [big.Int.SetBytes]. *)
Definition big_Bytes (z : Z) : bytes := be_encode (Z.to_nat ((BitLen z + 7) / 8)) (Z.abs z).
Definition big_SetBytes (bs : bytes) : Z := be_decode bs.

(** ** Fixed-size arrays: [common.Address] is [[20]byte], [common.Hash] is [[32]byte] *)

Definition farr (n : nat) : Type := dsig (fun l : bytes => length l = n).
Definition farr_bytes {n} (a : farr n) : bytes := `a.
#[export] Instance farr_eq_dec n : EqDecision (farr n).
Proof. unfold farr. apply _. Defined.
#[export] Instance farr_countable n : Countable (farr n).
Proof. unfold farr. apply _. Defined.
#[global] Typeclasses Opaque farr.

(** [SetBytes]: a longer slice is cropped from the left, a shorter one is
    padded with zeros on the left. *)
Definition fit (n : nat) (l : bytes) : bytes :=
  replicate (n - length l) x00 ++ drop (length l - n) l.
Lemma length_fit n l : length (fit n l) = n.
Proof. unfold fit. rewrite length_app, length_replicate, length_drop. lia. Qed.
Definition farr_of (n : nat) (l : bytes) : farr n := dexist (fit n l) (length_fit n l).

Abbreviation Address := (farr 20).
Abbreviation Hash := (farr 32).
Definition BytesToAddress (l : bytes) : Address := farr_of 20 l.
Definition BytesToHash (l : bytes) : Hash := farr_of 32 l.
Definition zero_address : Address := BytesToAddress [].
Definition zero_hash : Hash := BytesToHash [].

(** ** Lemmas on bytes and integers *)

Lemma Z_of_byte_range b : 0 <= Z_of_byte b < 256.
Proof. unfold Z_of_byte. pose proof (Byte.to_N_bounded b). lia. Qed.

Lemma Z_of_byte_of_Z z : Z_of_byte (byte_of_Z z) = z mod 256.
Proof.
  unfold Z_of_byte, byte_of_Z.
  pose proof (Z.mod_pos_bound z 256 ltac:(lia)) as Hb.
  destruct (Byte.of_N _) as [b|] eqn:E.
  - apply Byte.to_of_N in E. rewrite E. lia.
  - apply Byte.of_N_None_iff in E. lia.
Qed.

Lemma byte_of_Z_of_byte b : byte_of_Z (Z_of_byte b) = b.
Proof.
  unfold byte_of_Z. rewrite Z.mod_small by apply Z_of_byte_range.
  unfold Z_of_byte. rewrite N2Z.id, Byte.of_to_N. done.
Qed.

Lemma length_le_encode n z : length (le_encode n z) = n.
Proof. revert z. induction n as [|n IH]; intros z; simpl; [done|]. by rewrite IH. Qed.

Lemma le_decode_encode n z : le_decode (le_encode n z) = z mod 256 ^ Z.of_nat n.
Proof.
  revert z. induction n as [|n IH]; intros z; simpl.
  - rewrite Z.mod_1_r. done.
  - rewrite IH, Z_of_byte_of_Z, Nat2Z.inj_succ, Z.pow_succ_r by lia.
    rewrite Z.rem_mul_r by (try lia; apply Z.pow_pos_nonneg; lia). done.
Qed.

Lemma le_decode_range bs : 0 <= le_decode bs < 256 ^ Z.of_nat (length bs).
Proof.
  induction bs as [|b bs IH]; simpl; [done|].
  rewrite Nat2Z.inj_succ, Z.pow_succ_r by lia.
  pose proof (Z_of_byte_range b). lia.
Qed.

Lemma le_encode_decode bs : le_encode (length bs) (le_decode bs) = bs.
Proof.
  induction bs as [|b bs IH]; simpl; [done|].
  pose proof (Z_of_byte_range b) as Hb.
  f_equal.
  - rewrite <- (byte_of_Z_of_byte b) at 2. unfold byte_of_Z.
    rewrite (Z.mul_comm 256), Z.mod_add by lia. done.
  - rewrite (Z.mul_comm 256), Z.div_add, Z.div_small, Z.add_0_l by lia. done.
Qed.

Lemma length_be_encode n z : length (be_encode n z) = n.
Proof. unfold be_encode. by rewrite length_rev, length_le_encode. Qed.

Lemma be_decode_encode n z : be_decode (be_encode n z) = z mod 256 ^ Z.of_nat n.
Proof. unfold be_decode, be_encode. by rewrite rev_involutive, le_decode_encode. Qed.

Lemma be_encode_decode bs : be_encode (length bs) (be_decode bs) = bs.
Proof.
  unfold be_decode, be_encode.
  rewrite <- (length_rev bs), le_encode_decode. apply rev_involutive.
Qed.

Lemma be_decode_cons x l : be_decode (x :: l) = Z_of_byte x * 256 ^ Z.of_nat (length l) + be_decode l.
Proof.
  unfold be_decode. simpl. generalize (rev l), (length_rev l). intros r <-.
  induction r as [|y r IH]; cbn [app le_decode length]; [lia|].
  rewrite IH, Nat2Z.inj_succ, Z.pow_succ_r by lia. lia.
Qed.
Lemma be_decode_range bs : 0 <= be_decode bs < 256 ^ Z.of_nat (length bs).
Proof. unfold be_decode. rewrite <- (length_rev bs). apply le_decode_range. Qed.

Lemma length_Uint64ToBigEndian z : length (Uint64ToBigEndian z) = 8%nat.
Proof. apply length_be_encode. Qed.

Lemma BigEndianToUint64_round z :
  is_u64 z -> BigEndianToUint64 (Uint64ToBigEndian z) = z.
Proof.
  unfold is_u64, MaxUint64, BigEndianToUint64, Uint64ToBigEndian, wrap64. intros Hz.
  rewrite be_decode_encode. change (256 ^ Z.of_nat 8) with (2 ^ 64).
  rewrite Z.mod_mod, Z.mod_small by lia. done.
Qed.

Lemma Uint64ToBigEndian_inj x y :
  is_u64 x -> is_u64 y -> Uint64ToBigEndian x = Uint64ToBigEndian y -> x = y.
Proof.
  intros Hx Hy E. rewrite <- (BigEndianToUint64_round x Hx), E.
  by apply BigEndianToUint64_round.
Qed.

Lemma BitLen_0 : BitLen 0 = 0.
Proof. done. Qed.

Lemma BitLen_nonneg z : 0 <= BitLen z.
Proof. unfold BitLen. pose proof (Z.log2_nonneg (Z.abs z)). case_match; lia. Qed.

Lemma BitLen_le_iff z n : 0 <= n -> BitLen z <= n <-> Z.abs z < 2 ^ n.
Proof.
  intros Hn. unfold BitLen. destruct (Z.eqb_spec z 0) as [->|Hz].
  - simpl. split; intros; [apply Z.pow_pos_nonneg; lia | done].
  - rewrite Z.log2_lt_pow2 by lia. lia.
Qed.

Lemma BitLen_pos_iff z : 0 < BitLen z <-> z <> 0.
Proof.
  unfold BitLen. pose proof (Z.log2_nonneg (Z.abs z)).
  destruct (Z.eqb_spec z 0); lia.
Qed.

Lemma big_SetBytes_Bytes z : 0 <= z -> big_SetBytes (big_Bytes z) = z.
Proof.
  intros Hz. unfold big_SetBytes, big_Bytes. rewrite be_decode_encode, Z.abs_eq by done.
  apply Z.mod_small. split; [done|].
  pose proof (BitLen_nonneg z) as Hb.
  assert (Z.abs z < 2 ^ BitLen z) as Hlt by (by apply BitLen_le_iff).
  rewrite Z.abs_eq in Hlt by done.
  eapply Z.lt_le_trans; [exact Hlt|].
  change 256 with (2 ^ 8). rewrite <- Z.pow_mul_r by lia.
  apply Z.pow_le_mono_r; [lia|].
  pose proof (Z.div_mod (BitLen z + 7) 8 ltac:(lia)).
  pose proof (Z.mod_pos_bound (BitLen z + 7) 8 ltac:(lia)). lia.
Qed.

Lemma big_Bytes_nil_iff z : big_Bytes z = [] <-> z = 0.
Proof.
  split; [|intros ->; done]. intros E.
  destruct (decide (z = 0)) as [|Hz]; [done|exfalso].
  apply BitLen_pos_iff in Hz.
  apply (f_equal length) in E. unfold big_Bytes in E. rewrite length_be_encode in E.
  simpl in E.
  assert (1 <= (BitLen z + 7) / 8) by (apply Z.div_le_lower_bound; lia). lia.
Qed.

Lemma is_u64_wrap64 z : is_u64 (wrap64 z).
Proof. unfold is_u64, wrap64, MaxUint64. pose proof (Z.mod_pos_bound z (2 ^ 64) ltac:(lia)). lia. Qed.
Lemma is_u64_add64 a b : is_u64 (add64 a b).
Proof. apply is_u64_wrap64. Qed.
Lemma is_u64_sub64 a b : is_u64 (sub64 a b).
Proof. apply is_u64_wrap64. Qed.
Lemma wrap64_id z : is_u64 z -> wrap64 z = z.
Proof. unfold is_u64, MaxUint64, wrap64. intros Hz. apply Z.mod_small. lia. Qed.
Lemma sub64_id a b : 0 <= b <= a -> a <= MaxUint64 -> sub64 a b = a - b.
Proof. intros Ha Hb. apply wrap64_id. unfold is_u64. lia. Qed.
Lemma add64_id a b : 0 <= a -> 0 <= b -> a + b <= MaxUint64 -> add64 a b = a + b.
Proof. intros Ha Hb Hs. apply wrap64_id. unfold is_u64. lia. Qed.

(** ** Lemmas on fixed-size arrays *)

Lemma farr_length {n} (a : farr n) : length (farr_bytes a) = n.
Proof. apply (proj2_dsig a). Qed.

Lemma farr_eq {n} (a b : farr n) : farr_bytes a = farr_bytes b -> a = b.
Proof. intros E. by apply dsig_eq. Qed.

Lemma fit_id n l : length l = n -> fit n l = l.
Proof.
  intros <-. unfold fit. rewrite Nat.sub_diag. simpl. by rewrite drop_0.
Qed.

Lemma farr_of_bytes {n} (a : farr n) : farr_of n (farr_bytes a) = a.
Proof. apply farr_eq. unfold farr_of, farr_bytes. simpl. apply fit_id, farr_length. Qed.

Lemma farr_bytes_of n l : length l = n -> farr_bytes (farr_of n l) = l.
Proof. intros H. unfold farr_of, farr_bytes. simpl. by apply fit_id. Qed.

(** A slice with a longer prefix is cropped to the array. *)
Lemma farr_of_app {n} p (a : farr n) : farr_of n (p ++ farr_bytes a) = a.
Proof.
  apply farr_eq. unfold farr_of, farr_bytes, fit. simpl.
  pose proof (farr_length a) as Hl. unfold farr_bytes in Hl.
  rewrite length_app, Hl.
  replace (n - (length p + n))%nat with 0%nat by lia.
  replace (length p + n - n)%nat with (length p) by lia.
  simpl. by rewrite drop_app_length.
Qed.

(** ** Lemmas on stateful computations *)

Lemma bind_ok_inv {S A B} (m : M S A) (f : A -> M S B) s b s' :
  (m ≫= f) s = (Ok b, s') -> exists a s1, m s = (Ok a, s1) /\ f a s1 = (Ok b, s').
Proof.
  unfold mbind, M_bind. destruct (m s) as [[a|e|e] s1]; intros E; simplify_eq. eauto.
Qed.
Lemma lift_inv {S A} (r : res A) (s s' : S) a : lift_res r s = (Ok a, s') -> r = Ok a /\ s' = s.
Proof. by intros [=]. Qed.

Lemma mapM_app {S A} (f : A -> M S unit) l1 l2 s :
  mapM_ f (l1 ++ l2) s = (mapM_ f l1 ;; mapM_ f l2) s.
Proof.
  revert s. induction l1 as [|x l1 IH]; intros s; [done|].
  simpl. unfold mbind, M_bind. destruct (f x s) as [[]]; [|done|done].
  rewrite IH. done.
Qed.

(** A property every element's step preserves holds after the loop. *)
Lemma mapM_inv {S A} (I : S -> Prop) (f : A -> M S unit) l s :
  (forall x s0, x ∈ l -> I s0 -> I (snd (f x s0))) -> I s -> I (snd (mapM_ f l s)).
Proof.
  revert s. induction l as [|x l IH]; intros s Hstep Hs; [done|].
  simpl. unfold mbind, M_bind.
  assert (I (snd (f x s))) as H1 by (apply Hstep; [left|done]).
  destruct (f x s) as [[u|e|e] s1]; simpl in *; [|done|done].
  apply IH; [|done]. intros y s0 Hy. apply Hstep. by right.
Qed.

(** *** Invariants of computations: whatever the outcome, the state keeps [I]. *)

Definition preserves {S A} (I : S -> Prop) (m : M S A) : Prop := forall s, I s -> I (snd (m s)).

Section Preserves.
Context {S : Type} (I : S -> Prop).

Lemma preserves_ret {A} (a : A) : preserves I (mret a).
Proof. intros s Hs. exact Hs. Qed.
Lemma preserves_bind {A B} (m : M S A) (f : A -> M S B) :
  preserves I m -> (forall a, preserves I (f a)) -> preserves I (m ≫= f).
Proof.
  intros Hm Hf s Hs. unfold mbind, M_bind. specialize (Hm s Hs).
  destruct (m s) as [[a|e|e] s']; simpl in *; [by apply Hf|done|done].
Qed.
Lemma preserves_gets {A} (f : S -> A) : preserves I (gets f).
Proof. intros s Hs. exact Hs. Qed.
Lemma preserves_lift {A} (r : res A) : preserves I (lift_res r).
Proof. intros s Hs. exact Hs. Qed.
Lemma preserves_modify (f : S -> S) : (forall s, I s -> I (f s)) -> preserves I (modify f).
Proof. intros Hf s Hs. by apply Hf. Qed.
Lemma preserves_require b e : preserves I (require b e).
Proof. intros s Hs. by destruct b. Qed.
Lemma preserves_must b e : preserves I (must b e).
Proof. intros s Hs. by destruct b. Qed.
Lemma preserves_panic {A} e : preserves I (panic e : M S A).
Proof. intros s Hs. exact Hs. Qed.
Lemma preserves_err {A} e : preserves I (err e : M S A).
Proof. intros s Hs. exact Hs. Qed.
Lemma preserves_or_panic {A} e (m : M S A) : preserves I m -> preserves I (or_panic e m).
Proof. intros Hm s Hs. specialize (Hm s Hs). unfold or_panic. by destruct (m s) as [[] s']. Qed.
Lemma preserves_wrap_err {A} e (m : M S A) : preserves I m -> preserves I (wrap_err e m).
Proof. intros Hm s Hs. specialize (Hm s Hs). unfold wrap_err. by destruct (m s) as [[] s']. Qed.
Lemma preserves_catch {A} (m : M S A) h :
  preserves I m -> (forall e, preserves I (h e)) -> preserves I (catch_err m h).
Proof.
  intros Hm Hh s Hs. specialize (Hm s Hs). unfold catch_err.
  destruct (m s) as [[a|e|e] s']; simpl in *; [done|by apply Hh|done].
Qed.
(** What follows a check may use it. *)
Lemma preserves_require_then {A} (Q : Prop) `{!Decision Q} e (m : M S A) :
  (Q -> preserves I m) -> preserves I (require (bool_decide Q) e ;; m).
Proof.
  intros Hm. destruct (bool_decide_reflect Q) as [HQ|]; [|intros s Hs; exact Hs].
  apply preserves_bind; [apply preserves_require|]. intros _. by apply Hm.
Qed.
Lemma preserves_run_upd (f : S -> res S) :
  (forall s s', f s = Ok s' -> I s -> I s') -> preserves I (run_upd f).
Proof. intros Hf s Hs. unfold run_upd. destruct (f s) eqn:E; simpl; eauto. Qed.
Lemma preserves_mapM {A} (f : A -> M S unit) l :
  (forall a, preserves I (f a)) -> preserves I (mapM_ f l).
Proof. intros Hf s Hs. apply mapM_inv; [|done]. intros x s0 _. apply Hf. Qed.
End Preserves.

Create HintDb evermint.
#[export] Hint Resolve Z_of_byte_range farr_length is_u64_wrap64 is_u64_add64 is_u64_sub64 : evermint.
#[export] Hint Resolve preserves_ret preserves_bind preserves_gets preserves_lift
  preserves_require preserves_must preserves_panic preserves_err preserves_or_panic
  preserves_wrap_err preserves_catch preserves_mapM : evermint.


(** Unfold the monad and split on the matches it leaves. *)
Ltac munfold :=
  unfold require, must, or_panic, wrap_err, wrap_res, must_res, err, panic, gets, modify, lift_res, zoom, run_upd,
    mret, mbind, M_ret, M_bind, res_ret, res_bind, fmap, res_fmap in *.
Ltac mstep :=
  match goal with
  | H : context [match ?x with _ => _ end] |- _ =>
      lazymatch x with context [match _ with _ => _ end] => fail | _ => idtac end;
      destruct x eqn:?
  | |- context [match ?x with _ => _ end] =>
      lazymatch x with context [match _ with _ => _ end] => fail | _ => idtac end;
      destruct x eqn:?
  end; simplify_eq/=.
Ltac mrun := munfold; simplify_eq/=; repeat mstep.

#[global] Arguments farr_bytes {n} a : simpl never.
#[global] Arguments farr_of n l : simpl never.
#[global] Arguments BytesToHash l : simpl never.
#[global] Arguments BytesToAddress l : simpl never.
