(* ===== verification/Sdk.v ===== *)
(** * The Cosmos SDK as the chain's code uses it

    The account and bank keepers, the key-value stores and the branching of the
    multi-store belong to the SDK, not to this repository.  The key-value store is
    a finite map with prefix iteration.  The account and bank keepers are the
    operations of the class [SdkKeepers], with what their documentation promises in
    [SdkLaws]; the contexts and their cache branches are the class [CacheCtx], with
    [CacheCtxLaws].  Every component that calls the SDK is defined and proved over
    these classes. *)

From stdpp Require Import base gmap list strings sorting.
From S2P Require Import Prelude.

(** ** Key-value stores *)

Abbreviation kv := (gmap (list Byte.byte) (list Byte.byte)).

(** [store.Get] gives nil for an absent key. *)
Definition kv_get (s : kv) (k : bytes) : bytes := default [] (s !! k).
Definition kv_has (s : kv) (k : bytes) : bool := bool_decide (is_Some (s !! k)).
Definition kv_set (s : kv) (k v : bytes) : kv := <[k := v]> s.
Definition kv_delete (s : kv) (k : bytes) : kv := delete k s.

(** The order of [bytes.Compare]. *)
Fixpoint bytes_le (a b : bytes) : bool :=
  match a, b with
  | [], _ => true
  | _ :: _, [] => false
  | x :: a', y :: b' =>
      match Z_of_byte x ?= Z_of_byte y with
      | Lt => true
      | Gt => false
      | Eq => bytes_le a' b'
      end
  end.

(** [KVStorePrefixIterator]: the entries under a prefix, in key order; keys are
    the full keys. *)
Definition entry_le (x y : bytes * bytes) : Prop := bytes_le x.1 y.1 = true.
#[export] Instance entry_le_dec : RelDecision entry_le.
Proof. intros x y. unfold entry_le. apply _. Defined.
Definition kv_prefix_iter (s : kv) (p : bytes) : list (bytes * bytes) :=
  merge_sort entry_le
    (filter (fun x => p `prefix_of` x.1) (map_to_list s)).

Lemma kv_prefix_iter_perm s p :
  kv_prefix_iter s p ≡ₚ filter (fun x => p `prefix_of` x.1) (map_to_list s).
Proof. apply merge_sort_Permutation. Qed.

Lemma elem_of_kv_prefix_iter s p k v :
  (k, v) ∈ kv_prefix_iter s p <-> p `prefix_of` k /\ s !! k = Some v.
Proof.
  rewrite kv_prefix_iter_perm, list_elem_of_filter, elem_of_map_to_list. done.
Qed.

Lemma kv_get_set m k v k' : kv_get (kv_set m k v) k' = if decide (k = k') then v else kv_get m k'.
Proof. unfold kv_get, kv_set. rewrite lookup_insert. by case_decide. Qed.
Lemma kv_get_delete m k k' : kv_get (kv_delete m k) k' = if decide (k = k') then [] else kv_get m k'.
Proof. unfold kv_get, kv_delete. rewrite lookup_delete. by case_decide. Qed.
Lemma kv_get_set_eq m k v : kv_get (kv_set m k v) k = v.
Proof. by rewrite kv_get_set, decide_True. Qed.
Lemma kv_get_set_ne m k v k' : k <> k' -> kv_get (kv_set m k v) k' = kv_get m k'.
Proof. intros Hk. by rewrite kv_get_set, decide_False. Qed.
Lemma kv_get_delete_eq m k : kv_get (kv_delete m k) k = [].
Proof. by rewrite kv_get_delete, decide_True. Qed.
Lemma kv_get_delete_ne m k k' : k <> k' -> kv_get (kv_delete m k) k' = kv_get m k'.
Proof. intros Hk. by rewrite kv_get_delete, decide_False. Qed.

(** ** Coins *)

Abbreviation Coins := (list (string * Z)).

Fixpoint AmountOf (c : Coins) (denom : string) : Z :=
  match c with
  | [] => 0
  | (d, a) :: c' => if decide (d = denom) then a else AmountOf c' denom
  end.
(** [Coins.IsZero]: no coin, or only zero amounts. *)
Definition Coins_IsZero (c : Coins) : bool := forallb (fun x => x.2 =? 0) c.

(** [sdkmath.NewIntFromBigInt] panics above 256 bits. *)
Definition NewIntFromBigInt (z : Z) : res Z :=
  if 256 <? BitLen z then Panic (Errorf "NewIntFromBigInt() out of bound") else Ok z.
(** [sdk.NewCoins(sdk.NewCoin(denom, amount))]: a negative amount panics, a zero
    coin is dropped. *)
Definition NewCoins1 (denom : string) (amount : Z) : res Coins :=
  if amount <? 0 then Panic (Errorf "negative coin amount")
  else Ok (if amount =? 0 then [] else [(denom, amount)]).

(** ** Accounts *)

Inductive AccountKind : Type :=
  | BaseAccount
  | ModuleAccount
  | BaseVestingAccount (endTime : Z)
  | OtherVestingAccount (endTime : Z).

Record Account : Type := mkAccount {
  acc_addr : bytes;
  acc_number : Z;
  acc_sequence : Z;
  acc_kind : AccountKind
}.

Definition with_sequence (n : Z) (acc : Account) : Account :=
  mkAccount (acc_addr acc) (acc_number acc) n (acc_kind acc).

(** ** The account and bank keepers *)

Class SdkKeepers (S : Type) : Type := {
  GetAccount : S -> bytes -> option Account;
  HasAccount : S -> bytes -> bool;
  SetAccount : S -> Account -> S;
  RemoveAccount : S -> Account -> S;
  NewAccountWithAddress : S -> bytes -> Account * S;
  (** The number the next account gets. *)
  AccountNumberSeq : S -> Z;
  (** The address of a module account is a function of the module's name. *)
  GetModuleAddress : string -> bytes;
  (** [GetModuleAccount] creates the account of a module that has none yet, and
      panics when the address holds an account of another kind. *)
  GetModuleAccount : S -> string -> res (Account * S);
  (** The permissions of the module accounts. *)
  HasMinter : string -> bool;
  HasBurner : string -> bool;
  (** Addresses that may not receive coins from a module. *)
  BlockedAddr : bytes -> bool;
  GetBalance : S -> bytes -> string -> Z;
  GetAllBalances : S -> bytes -> Coins;
  (** What a vesting schedule keeps from being spent. *)
  LockedCoins : S -> bytes -> string -> Z;
  GetSupply : S -> string -> Z;
  SendCoins : S -> bytes -> bytes -> Coins -> res S;
  SendCoinsFromAccountToModule : S -> bytes -> string -> Coins -> res S;
  SendCoinsFromModuleToAccount : S -> string -> bytes -> Coins -> res S;
  MintCoins : S -> string -> Coins -> res S;
  BurnCoins : S -> string -> Coins -> res S
}.

Section Effects.
Context {S : Type} {K : SdkKeepers S}.

(** Coins [c] moved from [f] to [t]. *)
Definition coins_moved (s s' : S) (f t : bytes) (c : Coins) : Prop :=
  forall a d, GetBalance s' a d =
    GetBalance s a d - (if decide (a = f) then AmountOf c d else 0)
                     + (if decide (a = t) then AmountOf c d else 0).

(** No account but [t] appears or changes, and [t] does not change if it exists: the
    bank creates a base account for a recipient that has none, and the account of a
    module the first time the module is used. *)
Record accounts_kept (k : AccountKind) (s s' : S) (t : bytes) : Prop := {
  kept_others a : a <> t \/ is_Some (GetAccount s a) -> GetAccount s' a = GetAccount s a;
  kept_new acc : GetAccount s t = None -> GetAccount s' t = Some acc ->
    acc_kind acc = k /\ acc_sequence acc = 0 /\
    AccountNumberSeq s <= acc_number acc < AccountNumberSeq s';
  kept_seq : AccountNumberSeq s <= AccountNumberSeq s'
}.

(** The account of a module exists, as a module account. *)
Definition module_exists (s : S) (m : string) : Prop :=
  exists acc, GetAccount s (GetModuleAddress m) = Some acc /\ acc_kind acc = ModuleAccount.
(** Nobody else took the address of the module. *)
Definition module_free (s : S) (m : string) : Prop :=
  forall acc, GetAccount s (GetModuleAddress m) = Some acc -> acc_kind acc = ModuleAccount.

Definition same_supply (s s' : S) : Prop := forall d, GetSupply s' d = GetSupply s d.

Definition same_balances (s s' : S) : Prop :=
  (forall a d, GetBalance s' a d = GetBalance s a d) /\ same_supply s s'.

(** [f] can spend the coins [c]. *)
Definition can_spend (s : S) (f : bytes) (c : Coins) : Prop :=
  forall d, AmountOf c d <= GetBalance s f d - LockedCoins s f d.
End Effects.

(** A valid list of coins has positive amounts and no denomination twice. *)
Definition coins_valid (c : Coins) : Prop := Forall (fun x => 0 < x.2) c /\ NoDup c.*1.
#[export] Instance coins_valid_dec c : Decision (coins_valid c).
Proof. unfold coins_valid. apply _. Defined.

(** What the keepers promise. *)
Class SdkLaws (S : Type) `{K : SdkKeepers S} : Prop := {
  has_account_spec (s : S) a : HasAccount s a = bool_decide (is_Some (GetAccount s a));
  get_account_addr (s : S) a acc : GetAccount s a = Some acc -> acc_addr acc = a;
  get_set_account (s : S) acc a : GetAccount (SetAccount s acc) a =
    if decide (acc_addr acc = a) then Some acc else GetAccount s a;
  get_remove_account (s : S) acc a : GetAccount (RemoveAccount s acc) a =
    if decide (acc_addr acc = a) then None else GetAccount s a;
  new_account_spec (s : S) a acc s' : NewAccountWithAddress s a = (acc, s') ->
    acc_addr acc = a /\ acc_sequence acc = 0 /\ acc_kind acc = BaseAccount /\
    acc_number acc = AccountNumberSeq s /\ AccountNumberSeq s' = AccountNumberSeq s + 1 /\
    forall b, GetAccount s' b = GetAccount s b;
  set_account_seq (s : S) acc : AccountNumberSeq (SetAccount s acc) = AccountNumberSeq s;
  remove_account_seq (s : S) acc : AccountNumberSeq (RemoveAccount s acc) = AccountNumberSeq s;
  set_account_bank (s : S) acc : same_balances s (SetAccount s acc);
  remove_account_bank (s : S) acc : same_balances s (RemoveAccount s acc);
  new_account_bank (s : S) a : same_balances s (snd (NewAccountWithAddress s a));
  get_module_account_ok (s s' : S) m acc : GetModuleAccount s m = Ok (acc, s') ->
    acc_addr acc = GetModuleAddress m /\ acc_kind acc = ModuleAccount /\
    GetAccount s' (GetModuleAddress m) = Some acc /\
    accounts_kept ModuleAccount s s' (GetModuleAddress m) /\ same_balances s s';
  balance_nonneg (s : S) a d : 0 <= GetBalance s a d;
  all_balances_spec (s : S) a d : AmountOf (GetAllBalances s a) d = GetBalance s a d;
  all_balances_valid (s : S) a : coins_valid (GetAllBalances s a);
  (** Only vesting accounts have locked coins. *)
  locked_unvesting (s : S) a d :
    (forall acc, GetAccount s a = Some acc -> acc_kind acc = BaseAccount \/ acc_kind acc = ModuleAccount) ->
    LockedCoins s a d = 0;
  send_ok (s s' : S) f t c : SendCoins s f t c = Ok s' ->
    coins_moved s s' f t c /\ accounts_kept BaseAccount s s' t /\ same_supply s s';
  send_to_module_ok (s s' : S) f m c : SendCoinsFromAccountToModule s f m c = Ok s' ->
    coins_moved s s' f (GetModuleAddress m) c /\
    accounts_kept ModuleAccount s s' (GetModuleAddress m) /\ module_exists s' m /\ same_supply s s';
  send_from_module_ok (s s' : S) m t c : SendCoinsFromModuleToAccount s m t c = Ok s' ->
    coins_moved s s' (GetModuleAddress m) t c /\ accounts_kept BaseAccount s s' t /\ same_supply s s';
  mint_ok (s s' : S) m c : MintCoins s m c = Ok s' ->
    (forall a d, GetBalance s' a d =
       GetBalance s a d + (if decide (a = GetModuleAddress m) then AmountOf c d else 0)) /\
    accounts_kept ModuleAccount s s' (GetModuleAddress m) /\ module_exists s' m /\
    (forall d, GetSupply s' d = GetSupply s d + AmountOf c d);
  burn_ok (s s' : S) m c : BurnCoins s m c = Ok s' ->
    (forall a d, GetBalance s' a d =
       GetBalance s a d - (if decide (a = GetModuleAddress m) then AmountOf c d else 0)) /\
    accounts_kept ModuleAccount s s' (GetModuleAddress m) /\ module_exists s' m /\
    (forall d, GetSupply s' d = GetSupply s d - AmountOf c d);
  (** When the operations succeed. *)
  send_progress (s : S) f t c : coins_valid c -> can_spend s f c ->
    exists s', SendCoins s f t c = Ok s';
  send_insufficient (s : S) f t c : coins_valid c -> ~ can_spend s f c ->
    SendCoins s f t c = Err ErrInsufficientFunds;
  send_to_module_progress (s : S) f m c : coins_valid c -> can_spend s f c ->
    HasMinter m = true \/ HasBurner m = true -> module_free s m ->
    exists s', SendCoinsFromAccountToModule s f m c = Ok s';
  send_to_module_insufficient (s : S) f m c : coins_valid c -> ~ can_spend s f c ->
    is_ok (SendCoinsFromAccountToModule s f m c) = false;
  send_from_module_progress (s : S) m t c : coins_valid c ->
    can_spend s (GetModuleAddress m) c -> BlockedAddr t = false ->
    exists s', SendCoinsFromModuleToAccount s m t c = Ok s';
  send_from_module_blocked (s : S) m t c : BlockedAddr t = true ->
    is_ok (SendCoinsFromModuleToAccount s m t c) = false;
  mint_progress (s : S) m c : coins_valid c -> HasMinter m = true -> module_free s m ->
    (forall d, GetSupply s d + AmountOf c d < 2 ^ 256) -> exists s', MintCoins s m c = Ok s';
  burn_progress (s : S) m c : coins_valid c -> HasBurner m = true -> module_free s m ->
    can_spend s (GetModuleAddress m) c -> exists s', BurnCoins s m c = Ok s'
}.

(** ** Contexts and their branches

    A context is a handle on a store; [CacheContext] branches it.  [H] holds the
    contents of all the stores, [C] are the handles, [W] is what is read through a
    context.  [branch_of h c p] says that [c] was branched from [p] and that [p] was
    not written since. *)

Class CacheCtx (H C W : Type) : Type := {
  view : H -> C -> W;
  update : H -> C -> W -> H;
  CacheContext : H -> C -> C * H;
  (** The write function that [CacheContext] returns with the branch. *)
  write_branch : H -> C -> H;
  ctx_valid : H -> C -> Prop;
  branch_of : H -> C -> C -> Prop
}.

Section Ancestors.
Context {H C W : Type} {X : CacheCtx H C W}.

(** [ancestor h p c]: [p] is reached from [c] by going to the branched context
    one or more times. *)
Inductive ancestor (h : H) : C -> C -> Prop :=
  | ancestor_one p c : branch_of h c p -> ancestor h p c
  | ancestor_step p q c : branch_of h c q -> ancestor h p q -> ancestor h p c.
End Ancestors.

Class CacheCtxLaws (H C W : Type) `{X : CacheCtx H C W} : Prop := {
  branch_valid h c p : branch_of h c p -> ctx_valid h c /\ ctx_valid h p;
  ancestor_ne h c p : ancestor h p c -> p <> c;
  (** A write through a context is read back, and its ancestors do not see it. *)
  view_update h c w : ctx_valid h c -> view (update h c w) c = w;
  view_update_ancestor h c p w : ancestor h p c -> view (update h c w) p = view h p;
  valid_update h c w d : ctx_valid h d -> ctx_valid (update h c w) d;
  branch_update h c w d p : branch_of h d p -> p <> c -> branch_of (update h c w) d p;
  (** A new branch reads as its parent; nothing else changes. *)
  view_branch h c c' h' : ctx_valid h c -> CacheContext h c = (c', h') -> view h' c' = view h c;
  view_branch_old h c c' h' d : ctx_valid h c -> ctx_valid h d -> CacheContext h c = (c', h') ->
    view h' d = view h d;
  branch_new h c c' h' : ctx_valid h c -> CacheContext h c = (c', h') -> branch_of h' c' c;
  valid_branch h c c' h' d : ctx_valid h d -> CacheContext h c = (c', h') -> ctx_valid h' d;
  branch_branch h c c' h' d p : branch_of h d p -> CacheContext h c = (c', h') -> branch_of h' d p;
  (** Writing a branch to a parent that was not written since the branching gives
      the parent what the branch reads; the ancestors of the parent are unchanged. *)
  view_write h c p : branch_of h c p -> view (write_branch h c) p = view h c;
  view_write_ancestor h c p q : branch_of h c p -> ancestor h q p ->
    view (write_branch h c) q = view h q;
  valid_write h c d : ctx_valid h d -> ctx_valid (write_branch h c) d;
  branch_write h c q d p : branch_of h c q -> branch_of h d p -> p <> q ->
    branch_of (write_branch h c) d p
}.

(** ** What the modules store

    The state of the account and bank keepers and the stores of the chain's own
    modules, persistent and transient. *)
Record World (S : Type) : Type := mkWorld {
  w_sdk : S;
  w_evm : kv;
  w_tevm : kv;
  w_feemarket : kv;
  w_cpc : kv;
  w_vauth : kv
}.
Arguments mkWorld {S}.
Arguments w_sdk {S}.
Arguments w_evm {S}.
Arguments w_tevm {S}.
Arguments w_feemarket {S}.
Arguments w_cpc {S}.
Arguments w_vauth {S}.

Definition set_sdk {S : Type} (s : S) (w : World S) : World S :=
  mkWorld s (w_evm w) (w_tevm w) (w_feemarket w) (w_cpc w) (w_vauth w).
Definition set_evm {S : Type} (m : kv) (w : World S) : World S :=
  mkWorld (w_sdk w) m (w_tevm w) (w_feemarket w) (w_cpc w) (w_vauth w).
Definition set_tevm {S : Type} (m : kv) (w : World S) : World S :=
  mkWorld (w_sdk w) (w_evm w) m (w_feemarket w) (w_cpc w) (w_vauth w).
Definition set_feemarket {S : Type} (m : kv) (w : World S) : World S :=
  mkWorld (w_sdk w) (w_evm w) (w_tevm w) m (w_cpc w) (w_vauth w).
Definition set_cpc {S : Type} (m : kv) (w : World S) : World S :=
  mkWorld (w_sdk w) (w_evm w) (w_tevm w) (w_feemarket w) m (w_vauth w).
Definition set_vauth {S : Type} (m : kv) (w : World S) : World S :=
  mkWorld (w_sdk w) (w_evm w) (w_tevm w) (w_feemarket w) (w_cpc w) m.

(** The immutable part of an [sdk.Context]: the header of the block and the mode
    of execution. *)
Record Ctx : Type := mkCtx {
  ctx_BlockHeight : Z;
  ctx_ChainID : string;
  ctx_HeaderHash : bytes;
  ctx_ProposerAddress : bytes;
  ctx_Time : Z;
  ctx_IsCheckTx : bool;
  ctx_IsReCheckTx : bool;
  (** Minimum gas prices of the node: decimals, scaled by 10^18. *)
  ctx_MinGasPrices : list (string * Z);
  (** The limit of the block gas meter, if there is one, and the maximum block gas
      of the consensus parameters, if they are set. *)
  ctx_BlockGasMeterLimit : option Z;
  ctx_ConsensusMaxGas : option Z
}.

(** The protobuf codec of a message type: generated code.  An empty slice decodes
    to the message with no field set. *)
Class Codec (P : Type) : Type := {
  Marshal : P -> res bytes;
  Unmarshal : bytes -> res P;
  zero_msg : P
}.
Class CodecLaws (P : Type) `{Codec P} : Prop := {
  codec_round (p : P) bz : Marshal p = Ok bz -> Unmarshal bz = Ok p;
  codec_zero : Unmarshal [] = Ok zero_msg
}.

(** ** Bech32 addresses

    The SDK's conversions and the prefixes of its global configuration. *)
Record Bech32Prefixes : Type := mkBech32Prefixes {
  Bech32AccountAddrPrefix : string;
  Bech32ValidatorAddrPrefix : string;
  Bech32ConsensusAddrPrefix : string;
  Bech32AccountPubPrefix : string;
  Bech32ValidatorPubPrefix : string;
  Bech32ConsensusPubPrefix : string
}.
Class Bech32 : Type := {
  AccAddressFromBech32 : string -> res bytes;
  AccAddressString : bytes -> string;
  ConvertAndEncode : string -> bytes -> res string;
  DecodeAndConvert : string -> res (string * bytes);
  sdk_config : Bech32Prefixes
}.
