(* ===== verification/Geth.v ===== *)
(** * go-ethereum as the chain's code uses it

    The data of go-ethereum that the code reads (transactions, messages, logs,
    receipts, chain rules) and, in the class [Geth], the functions of go-ethereum
    that it calls.  go-ethereum is not part of this repository: its functions stay
    parameters, and a theorem that relies on one names what it relies on as a
    hypothesis. *)

From stdpp Require Import base gmap list strings.
From S2P Require Import Prelude.

(** ** Data *)

Record Log : Type := mkLog {
  log_Address : Address;
  log_Topics : list Hash;
  log_Data : bytes
}.

(** [ethtypes.AccessList]: addresses with their storage keys. *)
Abbreviation EthAccessList := (list (farr 20 * list (farr 32))).

Inductive TxType : Type := LegacyTxType | AccessListTxType | DynamicFeeTxType.
#[export] Instance TxType_eq_dec : EqDecision TxType.
Proof. solve_decision. Defined.

(** What the methods of an [ethtypes.Transaction] return. *)
Record Transaction : Type := mkTransaction {
  tx_Type : TxType;
  tx_ChainId : Z;
  tx_Nonce : Z;
  tx_GasPrice : Z;
  tx_GasTipCap : Z;
  tx_GasFeeCap : Z;
  tx_Gas : Z;
  tx_To : option Address;
  tx_Value : Z;
  tx_Data : bytes;
  tx_AccessList : EthAccessList;
  tx_Protected : bool
}.

(** The data a new transaction is made from; nil is [None]. *)
Inductive TxData : Type :=
  | DynamicFeeTx (ChainID : option Z) (Nonce : Z) (GasTipCap GasFeeCap : option Z) (Gas : Z)
      (To : option Address) (Value : option Z) (Data : bytes) (AccessList : EthAccessList)
  | AccessListTx (ChainID : option Z) (Nonce : Z) (GasPrice : option Z) (Gas : Z)
      (To : option Address) (Value : option Z) (Data : bytes) (AccessList : EthAccessList)
  | LegacyTx (Nonce : Z) (GasPrice : option Z) (Gas : Z)
      (To : option Address) (Value : option Z) (Data : bytes).

(** A [core.Message]. *)
Record Message : Type := mkMessage {
  msg_From : Address;
  msg_To : option Address;
  msg_Nonce : Z;
  msg_Value : Z;
  msg_Gas : Z;
  msg_GasPrice : Z;
  msg_GasFeeCap : Z;
  msg_GasTipCap : Z;
  msg_Data : bytes;
  msg_AccessList : EthAccessList;
  msg_IsFake : bool
}.

Definition ReceiptStatusFailed : Z := 0.
Definition ReceiptStatusSuccessful : Z := 1.

(** The consensus fields of a receipt. *)
Record Receipt : Type := mkReceipt {
  rcpt_Type : TxType;
  rcpt_Status : Z;
  rcpt_CumulativeGasUsed : Z;
  rcpt_Bloom : bytes;
  rcpt_Logs : list Log
}.

(** [params.ChainConfig] with nil as [None]. *)
Record EthChainConfig : Type := mkEthChainConfig {
  eth_ChainID : option Z;
  eth_HomesteadBlock : option Z;
  eth_DAOForkBlock : option Z;
  eth_DAOForkSupport : bool;
  eth_EIP150Block : option Z;
  eth_EIP150Hash : Hash;
  eth_EIP155Block : option Z;
  eth_EIP158Block : option Z;
  eth_ByzantiumBlock : option Z;
  eth_ConstantinopleBlock : option Z;
  eth_PetersburgBlock : option Z;
  eth_IstanbulBlock : option Z;
  eth_MuirGlacierBlock : option Z;
  eth_BerlinBlock : option Z;
  eth_LondonBlock : option Z;
  eth_ArrowGlacierBlock : option Z;
  eth_GrayGlacierBlock : option Z;
  eth_MergeNetsplitBlock : option Z;
  eth_ShanghaiBlock : option Z;
  eth_CancunBlock : option Z
}.

Record Rules : Type := mkRules {
  IsHomestead : bool;
  IsIstanbul : bool;
  IsBerlin : bool;
  IsLondon : bool;
  IsShanghai : bool
}.

(** ** Functions *)

Class Geth : Type := {
  Keccak256Hash : bytes -> Hash;
  (** [vm.ValidEip]: the EIP can be activated. *)
  ValidEip : Z -> bool;
  CheckConfigForkOrder : EthChainConfig -> res unit;
  (** [ChainConfig.Rules(number, isMerge)] and [ChainConfig.IsLondon(number)]. *)
  chain_Rules : EthChainConfig -> Z -> bool -> Rules;
  chain_IsLondon : EthChainConfig -> Z -> bool;
  ActivePrecompiles : Rules -> list Address;
  (** [core.IntrinsicGas(data, accessList, isContractCreation, isHomestead, isEIP2028)] *)
  IntrinsicGas : bytes -> EthAccessList -> bool -> bool -> bool -> res Z;
  CreateBloom : list Receipt -> bytes;
  Receipt_MarshalBinary : Receipt -> res bytes;
  Receipt_UnmarshalBinary : bytes -> res Receipt;
  Transaction_MarshalBinary : Transaction -> res bytes;
  Transaction_UnmarshalBinary : bytes -> res Transaction;
  (** [ethtypes.NewTx]: an unsigned transaction *)
  ethtypes_NewTx : TxData -> Transaction;
  Transaction_Hash : Transaction -> Hash;
  (** The sender recovered from the signature by [MakeSigner(config, number)]. *)
  Signer_Sender : EthChainConfig -> Z -> Transaction -> res Address;
  (** [tx.AsMessage(MakeSigner(config, number), baseFee)] *)
  Transaction_AsMessage : EthChainConfig -> Z -> Transaction -> Z -> res Message;
  (** [crypto.CreateAddress(creator, nonce)] *)
  CreateAddress : Address -> Z -> Address;
  HexToHash : string -> Hash
}.

(** [core.GasPool]: the gas left in the block.  [SubGas] fails when there is not
    enough, [AddGas] panics on overflow. *)
Definition GasPool_SubGas (gp amount : Z) : res Z :=
  if gp <? amount then Err ErrGasLimitReached else Ok (gp - amount).
Definition GasPool_AddGas (gp amount : Z) : res Z :=
  if MaxUint64 - amount <? gp then Panic (Errorf "gas pool pushed above uint64") else Ok (gp + amount).
