(* ===== verification/SdkModel.v ===== *)
(** * A concrete model of the SDK interfaces

    Finite maps for accounts and balances and a heap of cells for the contexts.  It
    satisfies the laws of [SdkLaws] and [CacheCtxLaws], so they are consistent, and
    theorems over the interfaces are evaluated on it. *)

From Stdlib Require Import Strings.Byte.
From stdpp Require Import base gmap list strings fin_maps.
From S2P Require Import Prelude Sdk Geth.

(** ** Accounts and balances *)

(** What the staking module keeps: who delegated how much to which validator, and the
    events it emitted. *)
Record staking_state : Type := mkStakingState {
  sks_delegations : list (string * string * Z);
  sks_events : list (string * list (string * string))
}.

(** Positive amounts only: an empty balance has no entry. *)
Record sdk_state : Type := mkSdkState {
  ms_accounts : gmap bytes Account;
  ms_seq : Z;
  ms_balances : gmap bytes (gmap string positive);
  ms_supply : gmap string Z;
  ms_staking : staking_state
}.

Definition module_address (m : string) : bytes :=
  (fun a => Ascii.byte_of_ascii a) <$> String.list_ascii_of_string m.

(** Amounts as integers; zero and below are dropped. *)
Definition of_pos (o : option positive) : Z := match o with Some p => Zpos p | None => 0 end.
Definition to_pos (z : Z) : option positive := match z with Zpos p => Some p | _ => None end.

Definition ms_balance (b : gmap bytes (gmap string positive)) (a : bytes) (d : string) : Z :=
  of_pos (default ∅ (b !! a) !! d).
Definition ms_add (b : gmap bytes (gmap string positive)) (a : bytes) (d : string) (z : Z) :
    gmap bytes (gmap string positive) :=
  partial_alter (fun o => Some (partial_alter (fun p => to_pos (of_pos p + z)) d (default ∅ o))) a b.
Definition ms_add_coins (sign : Z) (a : bytes) (c : Coins) (b : gmap bytes (gmap string positive)) :
    gmap bytes (gmap string positive) :=
  foldr (fun x b => ms_add b a x.1 (sign * x.2)) b c.
Definition ms_add_supply (sign : Z) (c : Coins) (m : gmap string Z) : gmap string Z :=
  foldr (fun x m => <[x.1 := default 0 (m !! x.1) + sign * x.2]> m) m c.

(** [GetAccount] on a well-formed map; an entry under another address is ignored. *)
Definition ms_get_account (s : sdk_state) (a : bytes) : option Account :=
  acc ← ms_accounts s !! a; if decide (acc_addr acc = a) then Some acc else None.

(** Vested coins are not modelled: an account of a vesting kind has all its coins
    locked. *)
Definition ms_locked (s : sdk_state) (a : bytes) (d : string) : Z :=
  match ms_get_account s a with
  | Some acc =>
      match acc_kind acc with
      | BaseAccount | ModuleAccount => 0
      | _ => ms_balance (ms_balances s) a d
      end
  | None => 0
  end.

Definition ms_can_spend (s : sdk_state) (f : bytes) (c : Coins) : bool :=
  forallb (fun x => x.2 <=? ms_balance (ms_balances s) f x.1 - ms_locked s f x.1) c.

Definition ms_put (t : bytes) (k : AccountKind) (s : sdk_state) : sdk_state :=
  match ms_get_account s t with
  | Some _ => s
  | None => mkSdkState (<[t := mkAccount t (ms_seq s) 0 k]> (ms_accounts s)) (ms_seq s + 1)
              (ms_balances s) (ms_supply s) (ms_staking s)
  end.

(** A module account is used: it is created the first time. *)
Definition ms_module (s : sdk_state) (m : string) : res sdk_state :=
  match ms_get_account (ms_put (module_address m) ModuleAccount s) (module_address m) with
  | Some acc =>
      match acc_kind acc with
      | ModuleAccount => Ok (ms_put (module_address m) ModuleAccount s)
      | _ => Panic (Errorf "account is not a module account")
      end
  | None => Panic (Errorf "account is not a module account")
  end.

Definition ms_send (s : sdk_state) (f t : bytes) (c : Coins) : res sdk_state :=
  if bool_decide (coins_valid c) then
    if ms_can_spend s f c then
      Ok (ms_put t BaseAccount (mkSdkState (ms_accounts s) (ms_seq s)
            (ms_add_coins 1 t c (ms_add_coins (-1) f c (ms_balances s))) (ms_supply s) (ms_staking s)))
    else Err ErrInsufficientFunds
  else Err ErrInvalidCoins.

Definition ms_minter (m : string) : bool := bool_decide (m = "evm").
Definition ms_burner (m : string) : bool := bool_decide (m = "evm" \/ m = "cpc" \/ m = "vauth").
Definition ms_blocked (a : bytes) : bool := bool_decide (a = module_address "fee_collector").

Definition ms_send_to_module (s : sdk_state) (f : bytes) (m : string) (c : Coins) : res sdk_state :=
  s ← ms_module s m; ms_send s f (module_address m) c.
Definition ms_mint1 (s : sdk_state) (m : string) (c : Coins) : res sdk_state :=
  if ms_minter m && bool_decide (coins_valid c) &&
     forallb (fun x => default 0 (ms_supply s !! x.1) + x.2 <? 2 ^ 256) c then
    Ok (mkSdkState (ms_accounts s) (ms_seq s) (ms_add_coins 1 (module_address m) c (ms_balances s))
          (ms_add_supply 1 c (ms_supply s)) (ms_staking s))
  else Panic (Errorf "mint").
Definition ms_burn1 (s : sdk_state) (m : string) (c : Coins) : res sdk_state :=
  if ms_burner m && bool_decide (coins_valid c) then
    if ms_can_spend s (module_address m) c then
      Ok (mkSdkState (ms_accounts s) (ms_seq s)
            (ms_add_coins (-1) (module_address m) c (ms_balances s)) (ms_add_supply (-1) c (ms_supply s)) (ms_staking s))
    else Err ErrInsufficientFunds
  else Panic (Errorf "burn").

Definition ms_mint (s : sdk_state) (m : string) (c : Coins) : res sdk_state :=
  s ← ms_module s m; ms_mint1 s m c.
Definition ms_burn (s : sdk_state) (m : string) (c : Coins) : res sdk_state :=
  s ← ms_module s m; ms_burn1 s m c.

Definition ms_all_balances (s : sdk_state) (a : bytes) : Coins :=
  (fun x => (x.1, Zpos x.2)) <$> map_to_list (default ∅ (ms_balances s !! a)).

#[export] Instance sdk_model : SdkKeepers sdk_state := {|
  GetAccount := ms_get_account;
  HasAccount s a := bool_decide (is_Some (ms_get_account s a));
  SetAccount s acc := mkSdkState (<[acc_addr acc := acc]> (ms_accounts s)) (ms_seq s) (ms_balances s) (ms_supply s) (ms_staking s);
  RemoveAccount s acc := mkSdkState (delete (acc_addr acc) (ms_accounts s)) (ms_seq s) (ms_balances s) (ms_supply s) (ms_staking s);
  NewAccountWithAddress s a :=
    (mkAccount a (ms_seq s) 0 BaseAccount,
     mkSdkState (ms_accounts s) (ms_seq s + 1) (ms_balances s) (ms_supply s) (ms_staking s));
  AccountNumberSeq := ms_seq;
  GetModuleAddress := module_address;
  GetModuleAccount s m :=
    s' ← ms_module s m;
    match ms_get_account s' (module_address m) with
    | Some acc => Ok (acc, s')
    | None => Panic (Errorf "account is not a module account")
    end;
  HasMinter := ms_minter;
  HasBurner := ms_burner;
  BlockedAddr := ms_blocked;
  GetBalance s a d := ms_balance (ms_balances s) a d;
  GetAllBalances := ms_all_balances;
  LockedCoins := ms_locked;
  GetSupply s d := default 0 (ms_supply s !! d);
  SendCoins := ms_send;
  SendCoinsFromAccountToModule := ms_send_to_module;
  SendCoinsFromModuleToAccount s m t c :=
    if ms_blocked t then Err ErrUnauthorized else ms_send s (module_address m) t c;
  MintCoins := ms_mint;
  BurnCoins := ms_burn
|}.

(** ** The laws hold *)

Lemma of_to_pos z : of_pos (to_pos z) = Z.max 0 z.
Proof. destruct z; simpl; lia. Qed.

Lemma ms_balance_add b a d z a' d' :
  ms_balance (ms_add b a d z) a' d' =
  if decide (a' = a /\ d' = d) then Z.max 0 (ms_balance b a d + z) else ms_balance b a' d'.
Proof.
  unfold ms_balance, ms_add. rewrite lookup_partial_alter.
  destruct (decide (a = a')) as [<-|Hne].
  - simpl. rewrite lookup_partial_alter. destruct (decide (d = d')) as [<-|Hd].
    + rewrite decide_True by done. by rewrite of_to_pos.
    + rewrite decide_False by naive_solver. done.
  - rewrite decide_False by naive_solver. done.
Qed.

Lemma AmountOf_not_in c d : d ∉ c.*1 -> AmountOf c d = 0.
Proof.
  induction c as [|[d0 z] c IH]; simpl; [done|]. intros Hn.
  rewrite decide_False by set_solver. apply IH. set_solver.
Qed.

Lemma AmountOf_nonneg c d : coins_valid c -> 0 <= AmountOf c d.
Proof.
  intros [Hpos _]. induction Hpos as [|[d0 z] c Hz Hc IH]; simpl; [lia|].
  simpl in Hz. case_decide; lia.
Qed.

Lemma ms_add_coins_spec sign a c b a' d :
  NoDup c.*1 -> 0 <= ms_balance b a' d ->
  ms_balance (ms_add_coins sign a c b) a' d =
  if decide (a' = a) then Z.max 0 (ms_balance b a d + sign * AmountOf c d) else ms_balance b a' d.
Proof.
  intros Hnd Hb. induction c as [|[d0 z] c IH]; simpl in *.
  - case_decide; [subst; lia|done].
  - inversion Hnd as [|? ? Hn Hnd']; subst. specialize (IH Hnd').
    rewrite ms_balance_add. destruct (decide (a' = a)) as [->|Ha].
    + destruct (decide (d0 = d)) as [->|Hd].
      * rewrite decide_True by done. rewrite IH, AmountOf_not_in by done. simpl. lia.
      * rewrite decide_False by naive_solver. by rewrite IH.
    + rewrite decide_False by naive_solver. done.
Qed.

Lemma ms_add_supply_spec sign c m d :
  NoDup c.*1 ->
  default 0 (ms_add_supply sign c m !! d) = default 0 (m !! d) + sign * AmountOf c d.
Proof.
  induction c as [|[d0 z] c IH]; simpl; intros Hnd; [lia|].
  inversion Hnd as [|? ? Hn Hnd']; subst. specialize (IH Hnd').
  rewrite lookup_insert. destruct (decide (d0 = d)) as [->|Hd]; simpl.
  - rewrite IH, AmountOf_not_in by done. lia.
  - by rewrite IH.
Qed.

Lemma ms_balance_nonneg b a d : 0 <= ms_balance b a d.
Proof. unfold ms_balance, of_pos. case_match; lia. Qed.

Lemma ms_can_spend_spec s f c :
  coins_valid c -> ms_can_spend s f c = true <->
  forall d, AmountOf c d <= ms_balance (ms_balances s) f d - ms_locked s f d.
Proof.
  intros [Hpos Hnd]. unfold ms_can_spend.
  assert (forall d, 0 <= ms_balance (ms_balances s) f d - ms_locked s f d) as Hbase.
  { intros d. unfold ms_locked. pose proof (ms_balance_nonneg (ms_balances s) f d).
    repeat case_match; lia. }
  induction c as [|[d0 z] c IH]; simpl.
  - split; [intros _ d; apply Hbase|done].
  - inversion Hnd as [|? ? Hn Hnd']; subst. inversion Hpos as [|? ? Hz Hpos']; subst.
    specialize (IH Hpos' Hnd'). rewrite andb_true_iff, IH, Z.leb_le. split.
    + intros [H1 H2] d. case_decide; [by subst|apply H2].
    + intros H. split; [specialize (H d0); by rewrite decide_True in H|].
      intros d. specialize (H d). case_decide as Hd; [|done]. subst.
      rewrite AmountOf_not_in by done. apply Hbase.
Qed.

Lemma ms_put_get t k s a :
  ms_get_account (ms_put t k s) a =
  if decide (a = t /\ ms_get_account s t = None) then Some (mkAccount t (ms_seq s) 0 k)
  else ms_get_account s a.
Proof.
  unfold ms_put. destruct (ms_get_account s t) eqn:Et.
  - by rewrite decide_False by naive_solver.
  - unfold ms_get_account at 1. simpl. rewrite lookup_insert. destruct (decide (t = a)) as [->|Hne].
    + simpl. rewrite decide_True by done. by rewrite decide_True.
    + by rewrite decide_False by naive_solver.
Qed.

Lemma ms_put_balances t k s : ms_balances (ms_put t k s) = ms_balances s.
Proof. unfold ms_put. by case_match. Qed.
Lemma ms_put_supply t k s : ms_supply (ms_put t k s) = ms_supply s.
Proof. unfold ms_put. by case_match. Qed.
Lemma ms_put_seq t k s : ms_seq s <= ms_seq (ms_put t k s).
Proof. unfold ms_put. case_match; simpl; lia. Qed.

Lemma ms_send_ok s s' f t c :
  ms_send s f t c = Ok s' ->
  coins_moved s s' f t c /\ accounts_kept BaseAccount s s' t /\ same_supply s s'.
Proof.
  unfold ms_send. destruct (bool_decide_reflect (coins_valid c)) as [Hv|]; [|done].
  destruct (ms_can_spend s f c) eqn:Hc; [|done]. intros [= <-].
  pose proof (proj1 (ms_can_spend_spec s f c Hv) Hc) as Hsp.
  split_and!.
  - intros a d. simpl. rewrite ms_put_balances. simpl.
    pose proof (ms_balance_nonneg (ms_balances s)) as Hb.
    pose proof (AmountOf_nonneg c d Hv) as Ha. specialize (Hsp d).
    assert (0 <= ms_locked s f d) as Hl
      by (unfold ms_locked; pose proof (Hb f d); repeat case_match; lia).
    destruct Hv as [_ Hnd].
    rewrite ms_add_coins_spec by (done || apply ms_balance_nonneg).
    rewrite !ms_add_coins_spec by (done || apply Hb).
    pose proof (Hb a d). pose proof (Hb t d). pose proof (Hb f d).
    repeat case_decide; subst; try done; lia.
  - split.
    + intros a Ha. simpl. rewrite ms_put_get. simpl. case_decide as Hd; [|done].
      destruct Hd as [-> Hn]. destruct Ha as [|[acc Hacc]]; [done|].
      simpl in Hacc. change (ms_get_account s t = None) in Hn. congruence.
    + intros acc Hn. simpl. rewrite ms_put_get. case_decide as Hd.
      * intros [= <-]. simpl. unfold ms_put. destruct Hd as [_ ->]. simpl. split_and!; (done || lia).
      * unfold ms_get_account at 1. simpl. intros Hs. simpl in Hn.
        unfold ms_get_account in Hn. by rewrite Hs in Hn.
    + simpl. etrans; [|apply ms_put_seq]. done.
  - intros d. simpl. by rewrite ms_put_supply.
Qed.

Lemma accounts_kept_same k s s' t :
  ms_accounts s' = ms_accounts s -> ms_seq s' = ms_seq s -> accounts_kept k s s' t.
Proof.
  intros Ha Hs. split; simpl; unfold ms_get_account; rewrite ?Ha, ?Hs; [done| |lia].
  intros acc Hn Hs'. congruence.
Qed.

Lemma ms_module_ok s s' m :
  ms_module s m = Ok s' ->
  s' = ms_put (module_address m) ModuleAccount s /\ module_exists s' m /\
  accounts_kept ModuleAccount s s' (module_address m).
Proof.
  unfold ms_module. destruct (ms_get_account _ _) as [acc|] eqn:Ea; [|done].
  destruct (acc_kind acc) eqn:Ek; try done. intros [= <-].
  split_and!; [done|by exists acc|]. split; simpl.
  - intros a Ha. rewrite ms_put_get. case_decide as Hd; [|done]. destruct Hd as [-> Hn].
    destruct Ha as [|[acc0 Ha]]; [done|]. simpl in Ha. congruence.
  - intros acc0 Hn Hs. rewrite Ea in Hs. injection Hs as <-. rewrite ms_put_get in Ea.
    case_decide as Hd; [|congruence]. injection Ea as <-. simpl. unfold ms_put.
    destruct Hd as [_ ->]. simpl. split_and!; (done || lia).
  - apply ms_put_seq.
Qed.

Lemma ms_module_progress s m :
  module_free s m -> ms_module s m = Ok (ms_put (module_address m) ModuleAccount s).
Proof.
  intros Hf. unfold ms_module. rewrite ms_put_get. case_decide as Hd; [done|].
  destruct (ms_get_account s (module_address m)) as [acc|] eqn:Ea; [|by destruct Hd].
  by rewrite (Hf acc Ea).
Qed.

(** Balances, locked coins and the supply do not depend on the module account. *)
Lemma ms_put_locked m s a d : ms_locked (ms_put (module_address m) ModuleAccount s) a d = ms_locked s a d.
Proof.
  unfold ms_locked. rewrite ms_put_get, ms_put_balances. case_decide as Hd; [|done].
  destruct Hd as [-> ->]. done.
Qed.
Lemma ms_put_can_spend m s f c :
  ms_can_spend (ms_put (module_address m) ModuleAccount s) f c = ms_can_spend s f c.
Proof.
  unfold ms_can_spend. induction c as [|x c IH]; [done|]. simpl.
  by rewrite IH, ms_put_locked, ms_put_balances.
Qed.

Lemma ms_all_balances_amount (m : gmap string positive) d :
  AmountOf ((fun x => (x.1, Zpos x.2)) <$> map_to_list m) d = of_pos (m !! d).
Proof.
  induction m as [|k v m Hk IH] using map_ind.
  - by rewrite map_to_list_empty, lookup_empty.
  - assert (forall l1 l2 : list (string * positive), l1 ≡ₚ l2 -> NoDup l1.*1 ->
      AmountOf ((fun x => (x.1, Zpos x.2)) <$> l1) d = AmountOf ((fun x => (x.1, Zpos x.2)) <$> l2) d) as Hp.
    { clear. induction 1 as [|x l1 l2 H IH|x y l|l1 l2 l3 H1 IH1 H2 IH2]; simpl; intros Hnd.
      - done.
      - inversion Hnd; subst. case_decide; [done|by apply IH].
      - inversion Hnd as [|? ? Hn _]; subst. repeat case_decide; subst; try done. set_solver.
      - rewrite IH1 by done. apply IH2. by rewrite <- H1. }
    rewrite (Hp _ _ (map_to_list_insert m k v Hk)) by apply NoDup_fst_map_to_list. simpl.
    rewrite lookup_insert. case_decide as Hd; [done|]. exact IH.
Qed.

(** The bank operations once the module account exists. *)

Lemma module_kept s s1 s2 m :
  ms_module s m = Ok s1 -> ms_accounts s2 = ms_accounts s1 -> ms_seq s2 = ms_seq s1 ->
  accounts_kept ModuleAccount s s2 (module_address m) /\ module_exists s2 m.
Proof.
  intros E Ha Hs. apply ms_module_ok in E as (-> & (acc & Hacc & Hk) & [Ho Hn Hq]).
  assert (forall a, ms_get_account s2 a = ms_get_account (ms_put (module_address m) ModuleAccount s) a) as Hg
    by (intros a; unfold ms_get_account; by rewrite Ha).
  split; [split; simpl in *|exists acc; simpl; by rewrite Hg].
  - intros a. rewrite Hg. apply Ho.
  - intros acc0 H0. rewrite Hg, Hs. by apply Hn.
  - by rewrite Hs.
Qed.

Lemma ms_mint1_ok s s' m c :
  ms_mint1 s m c = Ok s' ->
  (forall a d, ms_balance (ms_balances s') a d =
     ms_balance (ms_balances s) a d + (if decide (a = module_address m) then AmountOf c d else 0)) /\
  ms_accounts s' = ms_accounts s /\ ms_seq s' = ms_seq s /\
  (forall d, default 0 (ms_supply s' !! d) = default 0 (ms_supply s !! d) + AmountOf c d).
Proof.
  unfold ms_mint1.
  destruct (ms_minter m); [|done]. destruct (bool_decide_reflect (coins_valid c)) as [Hv|]; [|done].
  simpl. case_match; [|done]. intros [= <-]. simpl. split_and!; [|done|done|].
  - intros a d. rewrite ms_add_coins_spec by (apply Hv || apply ms_balance_nonneg).
    pose proof (ms_balance_nonneg (ms_balances s) (module_address m) d).
    pose proof (AmountOf_nonneg c d Hv). case_decide; subst; lia.
  - intros d. rewrite ms_add_supply_spec by apply Hv. lia.
Qed.

Lemma ms_burn1_ok s s' m c :
  ms_burn1 s m c = Ok s' ->
  (forall a d, ms_balance (ms_balances s') a d =
     ms_balance (ms_balances s) a d - (if decide (a = module_address m) then AmountOf c d else 0)) /\
  ms_accounts s' = ms_accounts s /\ ms_seq s' = ms_seq s /\
  (forall d, default 0 (ms_supply s' !! d) = default 0 (ms_supply s !! d) - AmountOf c d).
Proof.
  unfold ms_burn1.
  destruct (ms_burner m); [|done]. destruct (bool_decide_reflect (coins_valid c)) as [Hv|]; [|done].
  simpl. destruct (ms_can_spend s (module_address m) c) eqn:Hc; [|done]. intros [= <-].
  simpl. split_and!; [|done|done|].
  - intros a d. rewrite ms_add_coins_spec by (apply Hv || apply ms_balance_nonneg).
    pose proof (proj1 (ms_can_spend_spec _ _ _ Hv) Hc d) as Hsp.
    assert (0 <= ms_locked s (module_address m) d)
      by (unfold ms_locked; pose proof (ms_balance_nonneg (ms_balances s) (module_address m) d);
          repeat case_match; lia).
    case_decide; subst; lia.
  - intros d. rewrite ms_add_supply_spec by apply Hv. lia.
Qed.

Lemma ms_send_progress s f t c :
  coins_valid c -> ms_can_spend s f c = true -> exists s', ms_send s f t c = Ok s'.
Proof. intros Hv Hc. unfold ms_send. rewrite bool_decide_eq_true_2, Hc by done. eauto. Qed.

Lemma ms_send_insufficient s f t c :
  coins_valid c -> ~ can_spend s f c -> ms_send s f t c = Err ErrInsufficientFunds.
Proof.
  intros Hv Hc. unfold ms_send. rewrite bool_decide_eq_true_2 by done.
  destruct (ms_can_spend s f c) eqn:E; [|done]. destruct Hc. exact (proj1 (ms_can_spend_spec s f c Hv) E).
Qed.

Lemma ms_send_to_module_ok s s' f m c :
  ms_send_to_module s f m c = Ok s' ->
  coins_moved s s' f (module_address m) c /\ accounts_kept ModuleAccount s s' (module_address m) /\
  module_exists s' m /\ same_supply s s'.
Proof.
  unfold ms_send_to_module. destruct (ms_module s m) as [s1|e|e] eqn:E1; simpl; [|done|done].
  intros E2. apply ms_send_ok in E2 as (Hm & [Ho _ Hq] & Hs).
  apply ms_module_ok in E1 as (-> & (acc & Hacc & Hk) & [Ho1 Hn1 Hq1]).
  assert (forall a, GetAccount s' a = GetAccount (ms_put (module_address m) ModuleAccount s) a) as Hg.
  { intros a. apply Ho. destruct (decide (a = module_address m)) as [->|]; [right; eauto|by left]. }
  split_and!.
  - intros a d. rewrite (Hm a d). simpl. by rewrite ms_put_balances.
  - split.
    + intros a Ha. rewrite Hg. by apply Ho1.
    + intros acc0 H0. rewrite Hg. intros H1. destruct (Hn1 acc0 H0 H1) as (? & ? & ?).
      split_and!; [done|done|lia|lia].
    + lia.
  - exists acc. by rewrite Hg.
  - intros d. rewrite (Hs d). simpl. by rewrite ms_put_supply.
Qed.

Lemma ms_mint1_progress s m c :
  coins_valid c -> ms_minter m = true ->
  (forall d, default 0 (ms_supply s !! d) + AmountOf c d < 2 ^ 256) -> exists s', ms_mint1 s m c = Ok s'.
Proof.
  intros Hv Hm Hs. unfold ms_mint1. rewrite Hm, bool_decide_eq_true_2 by done. simpl.
  assert (forallb (fun x => default 0 (ms_supply s !! x.1) + x.2 <? 2 ^ 256) c = true) as ->; [|eauto].
  apply forallb_forall. intros [d z] Hin. simpl. apply Z.ltb_lt.
  specialize (Hs d). rewrite <- list_elem_of_In in Hin.
  assert (AmountOf c d = z) as Ez; [|lia].
  destruct Hv as [_ Hnd]. clear Hs Hm. induction c as [|[d0 z0] c IH]; [by apply not_elem_of_nil in Hin|].
  simpl. inversion Hnd as [|? ? Hn Hnd']; subst.
  apply elem_of_cons in Hin as [[= -> ->]|Hin]; [by rewrite decide_True|].
  case_decide as Hd; [|by apply IH]. subst. destruct Hn.
  apply list_elem_of_fmap. by exists (d, z).
Qed.

#[export] Instance sdk_model_laws : SdkLaws sdk_state.
Proof.
  split; simpl.
  - done.
  - intros s a acc. unfold ms_get_account. destruct (ms_accounts s !! a); simpl; [|done].
    case_decide; intros; simplify_eq; done.
  - intros s acc a. unfold ms_get_account. simpl. rewrite lookup_insert.
    case_decide; simpl; [by rewrite decide_True|done].
  - intros s acc a. unfold ms_get_account. simpl. rewrite lookup_delete.
    case_decide; [done|done].
  - intros s a acc s' [= <- <-]. simpl. split_and!; done.
  - done.
  - done.
  - done.
  - done.
  - done.
  - intros s s' m acc. destruct (ms_module s m) as [s1|e|e] eqn:E1; simpl; [|done|done].
    destruct (ms_get_account s1 (module_address m)) as [acc1|] eqn:Ea; [|done]. intros [= -> ->].
    apply ms_module_ok in E1 as (-> & (acc0 & Ha0 & Hk) & Hkept). simpl in Ha0.
    assert (acc0 = acc) as -> by congruence. split_and!; try done.
    + revert Ea. unfold ms_get_account. destruct (ms_accounts _ !! _); simpl; [|done]. case_decide; congruence.
    + split; [intros a d; simpl; by rewrite ms_put_balances|].
      intros d. simpl. by rewrite ms_put_supply.
  - intros. apply ms_balance_nonneg.
  - intros s a d. apply ms_all_balances_amount.
  - intros s a. split.
    + unfold ms_all_balances. apply Forall_fmap, Forall_true. done.
    + unfold ms_all_balances. rewrite <- list_fmap_compose. apply NoDup_fst_map_to_list.
  - intros s a d Hk. unfold ms_locked. destruct (ms_get_account s a) as [acc|]; [|done].
    destruct (Hk acc eq_refl) as [-> | ->]; done.
  - intros *. apply ms_send_ok.
  - intros *. apply ms_send_to_module_ok.
  - intros *. case_match; [done|]. apply ms_send_ok.
  - intros s s' m c. unfold ms_mint. destruct (ms_module s m) as [s1|e|e] eqn:E1; simpl; [|done|done].
    intros E2. apply ms_mint1_ok in E2 as (Hb & Ha & Hq & Hs).
    destruct (module_kept _ _ _ _ E1 Ha Hq) as [Hk He]. apply ms_module_ok in E1 as (-> & _ & _).
    split_and!; try done; intros; rewrite ?Hb, ?Hs, ?ms_put_balances, ?ms_put_supply; done.
  - intros s s' m c. unfold ms_burn. destruct (ms_module s m) as [s1|e|e] eqn:E1; simpl; [|done|done].
    intros E2. apply ms_burn1_ok in E2 as (Hb & Ha & Hq & Hs).
    destruct (module_kept _ _ _ _ E1 Ha Hq) as [Hk He]. apply ms_module_ok in E1 as (-> & _ & _).
    split_and!; try done; intros; rewrite ?Hb, ?Hs, ?ms_put_balances, ?ms_put_supply; done.
  - intros s f t c Hv Hc. apply ms_send_progress; [done|]. by apply ms_can_spend_spec.
  - intros *. apply ms_send_insufficient.
  - intros s f m c Hv Hc _ Hf. unfold ms_send_to_module. rewrite ms_module_progress by done. simpl.
    apply ms_send_progress; [done|]. rewrite ms_put_can_spend. by apply ms_can_spend_spec.
  - intros s f m c Hv Hc. unfold ms_send_to_module.
    destruct (ms_module s m) as [s1|e|e] eqn:E1; simpl; [|done|done].
    apply ms_module_ok in E1 as (-> & _ & _). rewrite ms_send_insufficient; [done|done|].
    intros Hc2. apply Hc. intros d. apply (proj1 (ms_can_spend_spec s f c Hv)).
    rewrite <- (ms_put_can_spend m). by apply ms_can_spend_spec.
  - intros s m t c Hv Hc ->. apply ms_send_progress; [done|]. by apply ms_can_spend_spec.
  - intros s m t c ->. done.
  - intros s m c Hv Hm Hf Hs. unfold ms_mint. rewrite ms_module_progress by done. simpl.
    apply ms_mint1_progress; [done|done|]. intros d. by rewrite ms_put_supply.
  - intros s m c Hv Hm Hf Hc. unfold ms_burn. rewrite ms_module_progress by done. simpl.
    unfold ms_burn1. rewrite Hm, bool_decide_eq_true_2 by done. simpl.
    rewrite ms_put_can_spend, (proj2 (ms_can_spend_spec s _ c Hv) Hc). eauto.
Qed.

(** ** Contexts as cells of a heap *)

Section Heap.
Context {W : Type} `{Inhabited W}.

(** [hp_parent] holds the branches whose parent was not written since. *)
Record heap : Type := mkHeap {
  hp_next : nat;
  hp_cell : gmap nat W;
  hp_parent : gmap nat nat
}.

Definition hp_view (h : heap) (c : nat) : W := default inhabitant (hp_cell h !! c).
Definition hp_update (h : heap) (c : nat) (w : W) : heap :=
  mkHeap (hp_next h) (<[c := w]> (hp_cell h)) (filter (fun x => x.2 <> c) (hp_parent h)).
Definition hp_branch (h : heap) (c : nat) : nat * heap :=
  (hp_next h, mkHeap (S (hp_next h)) (<[hp_next h := hp_view h c]> (hp_cell h))
                     (<[hp_next h := c]> (hp_parent h))).
Definition hp_write (h : heap) (c : nat) : heap :=
  match hp_parent h !! c with Some p => hp_update h p (hp_view h c) | None => h end.

#[export] Instance heap_ctx : CacheCtx heap nat W := {|
  view := hp_view;
  update := hp_update;
  CacheContext := hp_branch;
  write_branch := hp_write;
  ctx_valid h c := (c < hp_next h)%nat;
  branch_of h c p := (p < c)%nat /\ (c < hp_next h)%nat /\ hp_parent h !! c = Some p
|}.

Lemma heap_ancestor_lt (h : heap) c p : ancestor h p c -> (p < c)%nat.
Proof. induction 1 as [p c Hb|p q c Hb _ IH]; simpl in Hb; lia. Qed.

Lemma hp_view_update_ne h c w d : d <> c -> hp_view (hp_update h c w) d = hp_view h d.
Proof. intros Hd. unfold hp_view, hp_update. simpl. by rewrite lookup_insert_ne. Qed.

Lemma hp_parent_update h c w d p :
  hp_parent h !! d = Some p -> p <> c -> hp_parent (hp_update h c w) !! d = Some p.
Proof. intros Hd Hp. unfold hp_update. simpl. by apply map_lookup_filter_Some. Qed.

#[export] Instance heap_ctx_laws : CacheCtxLaws heap nat W.
Proof.
  split; simpl.
  - intros h c p (? & ? & ?). lia.
  - intros h c p Ha. apply heap_ancestor_lt in Ha. lia.
  - intros h c w _. unfold hp_view, hp_update. simpl. by rewrite lookup_insert_eq.
  - intros h c p w Ha. apply heap_ancestor_lt in Ha. apply hp_view_update_ne. lia.
  - intros h c w d. done.
  - intros h c w d p (? & ? & ?) Hp. split_and!; [done|done|by apply (hp_parent_update h c w)].
  - intros h c c' h' _ [= <- <-]. unfold hp_view at 1. simpl. by rewrite lookup_insert_eq.
  - intros h c c' h' d Hc Hd [= <- <-]. unfold hp_view at 1. simpl. by rewrite lookup_insert_ne by lia.
  - intros h c c' h' Hc [= <- <-]. simpl. rewrite lookup_insert_eq. split_and!; (done || lia).
  - intros h c c' h' d Hd [= <- <-]. simpl. lia.
  - intros h c c' h' d p (? & ? & ?) [= <- <-]. simpl. rewrite lookup_insert_ne by lia.
    split_and!; (done || lia).
  - intros h c p (? & ? & Hp). unfold hp_write. rewrite Hp. unfold hp_view at 1, hp_update. simpl.
    by rewrite lookup_insert_eq.
  - intros h c p q (? & ? & Hp) Ha. apply heap_ancestor_lt in Ha. unfold hp_write. rewrite Hp.
    apply hp_view_update_ne. lia.
  - intros h c d Hd. unfold hp_write. by case_match.
  - intros h c q d p (? & ? & Hq) (? & ? & Hp) Hne. unfold hp_write. rewrite Hq.
    split_and!; [done|done|by apply (hp_parent_update h q (hp_view h c))].
Qed.
End Heap.
Arguments heap W : clear implicits.

(** ** An instance of the go-ethereum functions

    Every fork is active; the hash of short data is the data behind a marker byte; one
    encoding is that of a transaction: 7 coins sent to the address 0xbb, with nonce 5, a
    tip of 1 and a fee cap of 3; another that of the same with the next nonce. *)

Definition sample_tx : Transaction :=
  mkTransaction DynamicFeeTxType 9000 5 3 1 3 30000 (Some (farr_of 20 [xbb])) 7 [] [] true.

Definition next_tx : Transaction :=
  mkTransaction DynamicFeeTxType 9000 6 3 1 3 30000 (Some (farr_of 20 [xbb])) 7 [] [] true.

(** A receipt whose encoding is known, with one log of the address 0xaa. *)
Definition sample_receipt : Receipt :=
  mkReceipt DynamicFeeTxType 1 21000 [] [mkLog (farr_of 20 [xaa]) [farr_of 32 [x07]] [x05]].

(** Hexadecimal text: two lower-case digits for a byte, an optional 0x in front. *)
Definition hex_chars : list Ascii.ascii := String.list_ascii_of_string "0123456789abcdef".
Definition byte_text (b : byte) : list Ascii.ascii :=
  let digit n := default Ascii.zero (hex_chars !! Z.to_nat n) in
  [digit (Z_of_byte b / 16); digit (Z_of_byte b mod 16)].
Definition hex_val (c : Ascii.ascii) : Z :=
  match list_find (eq c) hex_chars with Some (i, _) => Z.of_nat i | None => 0 end.
Fixpoint parse_hex (l : list Ascii.ascii) : bytes :=
  match l with
  | a :: b :: r => byte_of_Z (16 * hex_val a + hex_val b) :: parse_hex r
  | _ => []
  end.
Definition hex_text (bs : bytes) : list Ascii.ascii := concat (byte_text <$> bs).
Definition strip_0x (l : list Ascii.ascii) : list Ascii.ascii :=
  match l with
  | a :: b :: r => if decide (String.string_of_list_ascii [a; b] = "0x"%string) then r else l
  | _ => l
  end.
Definition FromHex (s : string) : bytes := parse_hex (strip_0x (String.list_ascii_of_string s)).
Definition text_0x (bs : bytes) : string :=
  ("0x" ++ String.string_of_list_ascii (hex_text bs))%string.

Lemma parse_hex_text bs : parse_hex (hex_text bs) = bs.
Proof.
  induction bs as [|b bs IH]; [done|].
  change (parse_hex (hex_text (b :: bs))) with
    (byte_of_Z (16 * hex_val (default Ascii.zero (byte_text b !! 0%nat)) + hex_val (default Ascii.zero (byte_text b !! 1%nat)))
       :: parse_hex (hex_text bs)).
  rewrite IH. f_equal. destruct b; vm_compute; reflexivity.
Qed.
Lemma FromHex_text bs : FromHex (text_0x bs) = bs.
Proof.
  unfold FromHex, text_0x.
  change (strip_0x _) with (String.list_ascii_of_string (String.string_of_list_ascii (hex_text bs))). rewrite String.list_ascii_of_string_of_list_ascii. apply parse_hex_text.
Qed.

#[export] Instance Transaction_eq_dec : EqDecision Transaction.
Proof. solve_decision. Defined.
#[export] Instance geth_model : Geth := {|
  Keccak256Hash l := farr_of 32 (x01 :: l);
  ValidEip e := bool_decide (e ∈ [1344; 1884; 2200; 2929; 3198; 3529; 3855; 3860]);
  CheckConfigForkOrder _ := Ok tt;
  chain_Rules _ _ _ := mkRules true true true true true;
  chain_IsLondon _ _ := true;
  ActivePrecompiles _ := [farr_of 20 [x01]; farr_of 20 [x02]];
  IntrinsicGas data al create _ _ :=
    let gas := (if (create : bool) then 53000 else 21000) + 16 * Z.of_nat (length data) in
    if gas <=? MaxUint64 then Ok gas else Err (Errorf "gas uint64 overflow");
  CreateBloom rs := replicate 256 (if forallb (fun r => bool_decide (rcpt_Logs r = [])) rs then x00 else xff);
  Receipt_MarshalBinary r := Ok (byte_of_Z (rcpt_Status r) :: Uint64ToBigEndian (rcpt_CumulativeGasUsed r));
  Receipt_UnmarshalBinary bz := if decide (bz = x01 :: Uint64ToBigEndian 21000) then Ok sample_receipt
                                else if decide (bz = x01 :: Uint64ToBigEndian 42000)
                                then Ok (mkReceipt DynamicFeeTxType 1 42000 [] [])
                                else match bz with
                                     | status :: gas => Ok (mkReceipt LegacyTxType (Z_of_byte status) (BigEndianToUint64 gas) [] [])
                                     | [] => Err (Errorf "empty receipt")
                                     end;
  Transaction_MarshalBinary tx := if decide (tx = sample_tx) then Ok [x01] else if decide (tx = next_tx) then Ok [x02]
                                  else Err (Errorf "unknown transaction");
  Transaction_UnmarshalBinary bz := if decide (bz = [x01]) then Ok sample_tx
                                    else if decide (bz = [x02]) then Ok next_tx else Err (Errorf "unknown transaction");
  ethtypes_NewTx d :=
    match d with
    | DynamicFeeTx c n t f g to v data al =>
        mkTransaction DynamicFeeTxType (default 0 c) n (default 0 f) (default 0 t) (default 0 f) g to
          (default 0 v) data al true
    | AccessListTx c n p g to v data al =>
        mkTransaction AccessListTxType (default 0 c) n (default 0 p) (default 0 p) (default 0 p) g to
          (default 0 v) data al true
    | LegacyTx n p g to v data =>
        mkTransaction LegacyTxType 0 n (default 0 p) (default 0 p) (default 0 p) g to (default 0 v) data [] false
    end;
  Transaction_Hash tx := if tx_Nonce tx =? tx_Nonce next_tx then farr_of 32 [x66] else zero_hash;
  Signer_Sender _ _ _ := Ok zero_address;
  Transaction_AsMessage _ _ tx baseFee :=
    Ok (mkMessage (farr_of 20 [xaa]) (tx_To tx) (tx_Nonce tx) (tx_Value tx) (tx_Gas tx)
          (Z.min (tx_GasTipCap tx + baseFee) (tx_GasFeeCap tx)) (tx_GasFeeCap tx) (tx_GasTipCap tx)
          (tx_Data tx) (tx_AccessList tx) false);
  CreateAddress a n := farr_of 20 (x0c :: Uint64ToBigEndian n);
  HexToHash s := farr_of 32 (FromHex s)
|}.
