(* ===== verification/EvmTypes.v ===== *)
(** * The types of the EVM module

    Store keys (x/evm/types/key.go), chain configuration and parameters
    (chain_config.go, params.go), the EIP-155 chain id (eip155.go), storage entries
    (storage.go) and the helpers of utils.go. *)

From Stdlib Require Import Strings.Byte.
From stdpp Require Import base gmap list strings.
From S2P Require Import Prelude Sdk Geth.

(** ** Store keys *)

Definition prefixCode : byte := x01.
Definition prefixStorage : byte := x02.
Definition prefixParams : byte := x03.
Definition prefixCodeHash : byte := x04.
Definition prefixBlockHash : byte := x05.
Definition prefixEip155ChainId : byte := x06.

Definition KeyPrefixCode : bytes := [prefixCode].
Definition KeyPrefixStorage : bytes := [prefixStorage].
Definition KeyPrefixParams : bytes := [prefixParams].
Definition KeyPrefixCodeHash : bytes := [prefixCodeHash].
Definition KeyPrefixBlockHash : bytes := [prefixBlockHash].
Definition KeyEip155ChainId : bytes := [prefixEip155ChainId].

(** The transient store; 1 to 4 are deprecated. *)
Definition KeyTransientTxCount : bytes := [x05].
Definition KeyPrefixTransientTxGas : bytes := [x06].
Definition KeyPrefixTransientTxLogCount : bytes := [x07].
Definition KeyPrefixTransientTxReceipt : bytes := [x08].
Definition KeyTransientFlagIncreasedSenderNonce : bytes := [x09].
Definition KeyTransientFlagNoBaseFee : bytes := [x0a].
Definition KeyTransientSenderPaidFee : bytes := [x0b].

Definition AddressStoragePrefix (address : Address) : bytes :=
  KeyPrefixStorage ++ farr_bytes address.
Definition StateKey (address : Address) (key : bytes) : bytes :=
  AddressStoragePrefix address ++ key.
Definition BlockHashKey (height : Z) : bytes := KeyPrefixBlockHash ++ Uint64ToBigEndian height.
Definition TxGasTransientKey (txIdx : Z) : bytes :=
  KeyPrefixTransientTxGas ++ Uint64ToBigEndian txIdx.
Definition TxLogCountTransientKey (txIdx : Z) : bytes :=
  KeyPrefixTransientTxLogCount ++ Uint64ToBigEndian txIdx.
Definition TxReceiptTransientKey (txIdx : Z) : bytes :=
  KeyPrefixTransientTxReceipt ++ Uint64ToBigEndian txIdx.

Definition EvmModuleName : string := "evm".

(** Keys built from one prefix byte: the first byte tells the kinds apart, the
    rest is injective. *)
Lemma StateKey_inj a b (k1 k2 : Hash) :
  StateKey a (farr_bytes k1) = StateKey b (farr_bytes k2) -> a = b /\ k1 = k2.
Proof.
  unfold StateKey, AddressStoragePrefix. rewrite <- !app_assoc. intros E.
  apply app_inv_head, app_inj_1 in E; [|by rewrite !farr_length].
  destruct E. split; by apply farr_eq.
Qed.

Lemma BlockHashKey_inj x y : is_u64 x -> is_u64 y -> BlockHashKey x = BlockHashKey y -> x = y.
Proof. intros Hx Hy E. apply app_inv_head in E. by apply Uint64ToBigEndian_inj. Qed.

(** A storage key of [b] under the prefix of [a] belongs to [a]: all addresses
    have the same length, so no prefix is a prefix of another's keys. *)
Lemma AddressStoragePrefix_of_key a b k :
  AddressStoragePrefix a `prefix_of` StateKey b k -> a = b.
Proof.
  intros [r E]. unfold StateKey, AddressStoragePrefix in E.
  rewrite <- !app_assoc in E. apply app_inv_head, app_inj_1 in E; [|by rewrite !farr_length].
  destruct E as [E _]. by apply farr_eq.
Qed.

Lemma storage_prefix_of_self a k : AddressStoragePrefix a `prefix_of` StateKey a k.
Proof. by exists k. Qed.

(** ** Chain configuration *)

(** A fork block is a pointer to an integer. *)
Record ChainConfig : Type := mkChainConfig {
  HomesteadBlock : option Z;
  DAOForkBlock : option Z;
  DAOForkSupport : bool;
  EIP150Block : option Z;
  EIP150Hash : string;
  EIP155Block : option Z;
  EIP158Block : option Z;
  ByzantiumBlock : option Z;
  ConstantinopleBlock : option Z;
  PetersburgBlock : option Z;
  IstanbulBlock : option Z;
  MuirGlacierBlock : option Z;
  BerlinBlock : option Z;
  LondonBlock : option Z;
  ArrowGlacierBlock : option Z;
  GrayGlacierBlock : option Z;
  MergeNetsplitBlock : option Z;
  ShanghaiBlock : option Z;
  CancunBlock : option Z
}.

Definition emptyHash : string :=
  "0x0000000000000000000000000000000000000000000000000000000000000000".

(** [m.Block.BigInt()]: a nil pointer is dereferenced. *)
Definition block_BigInt (block : option Z) : res (option Z) :=
  match block with Some z => Ok (Some z) | None => Panic NilDereference end.

Section Config.
Context {G : Geth}.

(** [CheckConfigForkOrder] returns an error value, which is raised as a panic. *)
Definition ChainConfig_EthereumConfig (m : ChainConfig) (chainID : option Z) : res EthChainConfig :=
  homestead ← block_BigInt (HomesteadBlock m);
  dao ← block_BigInt (DAOForkBlock m);
  eip150 ← block_BigInt (EIP150Block m);
  eip155 ← block_BigInt (EIP155Block m);
  eip158 ← block_BigInt (EIP158Block m);
  byzantium ← block_BigInt (ByzantiumBlock m);
  constantinople ← block_BigInt (ConstantinopleBlock m);
  petersburg ← block_BigInt (PetersburgBlock m);
  istanbul ← block_BigInt (IstanbulBlock m);
  muirGlacier ← block_BigInt (MuirGlacierBlock m);
  berlin ← block_BigInt (BerlinBlock m);
  london ← block_BigInt (LondonBlock m);
  arrowGlacier ← block_BigInt (ArrowGlacierBlock m);
  grayGlacier ← block_BigInt (GrayGlacierBlock m);
  mergeNetsplit ← block_BigInt (MergeNetsplitBlock m);
  shanghai ← block_BigInt (ShanghaiBlock m);
  cancun ← block_BigInt (CancunBlock m);
  let cc := mkEthChainConfig chainID homestead dao (DAOForkSupport m) eip150
              (HexToHash (EIP150Hash m)) eip155 eip158 byzantium constantinople petersburg
              istanbul muirGlacier berlin london arrowGlacier grayGlacier mergeNetsplit
              shanghai cancun in
  match CheckConfigForkOrder cc with
  | Ok _ => Ok cc
  | Err e | Panic e => Panic e
  end.

Definition DefaultChainConfig : ChainConfig :=
  mkChainConfig (Some 0) (Some 0) true (Some 0) emptyHash (Some 0) (Some 0) (Some 0) (Some 0)
    (Some 0) (Some 0) (Some 0) (Some 0) (Some 0) (Some 0) (Some 0) (Some 0) (Some 0) (Some 0).

Definition validateBlock (block : option Z) : res unit :=
  match block with
  | Some z => if z =? 0 then Ok tt else Err ErrInvalidChainConfig
  | None => Err ErrInvalidChainConfig
  end.

Definition ChainConfig_Validate (m : ChainConfig) : res unit :=
  validateBlock (HomesteadBlock m) ;;
  validateBlock (DAOForkBlock m) ;;
  (if DAOForkSupport m then Ok tt else Err ErrInvalidChainConfig) ;;
  validateBlock (EIP150Block m) ;;
  (if decide (EIP150Hash m = emptyHash) then Ok tt else Err ErrInvalidChainConfig) ;;
  validateBlock (EIP155Block m) ;;
  validateBlock (EIP158Block m) ;;
  validateBlock (ByzantiumBlock m) ;;
  validateBlock (ConstantinopleBlock m) ;;
  validateBlock (PetersburgBlock m) ;;
  validateBlock (IstanbulBlock m) ;;
  validateBlock (MuirGlacierBlock m) ;;
  validateBlock (BerlinBlock m) ;;
  validateBlock (LondonBlock m) ;;
  validateBlock (ArrowGlacierBlock m) ;;
  validateBlock (GrayGlacierBlock m) ;;
  validateBlock (MergeNetsplitBlock m) ;;
  validateBlock (ShanghaiBlock m) ;;
  validateBlock (CancunBlock m) ;;
  cc ← ChainConfig_EthereumConfig m None;
  CheckConfigForkOrder cc.

(** ** Parameters *)

Record EvmParams : Type := mkEvmParams {
  EvmDenom : string;
  EnableCreate : bool;
  EnableCall : bool;
  ExtraEIPs : list Z;
  params_ChainConfig : ChainConfig
}.

Definition DefaultEVMDenom : string := "wei".
Definition DefaultExtraEIPs : list Z := [3855].

Definition DefaultParams : EvmParams :=
  mkEvmParams DefaultEVMDenom true true DefaultExtraEIPs DefaultChainConfig.

Fixpoint validateEIPs (eips : list Z) : res unit :=
  match eips with
  | [] => Ok tt
  | eip :: eips' =>
      if ValidEip eip then validateEIPs eips' else Err (Errorf "EIP is not activateable")
  end.

(** [ValidateDenom] is the SDK's check of a denomination. *)
Definition EvmParams_Validate (ValidateDenom : string -> res unit) (p : EvmParams) : res unit :=
  ValidateDenom (EvmDenom p) ;;
  validateEIPs (ExtraEIPs p) ;;
  ChainConfig_Validate (params_ChainConfig p).

(** ** Code hashes *)

(** [EmptyCodeHash = crypto.Keccak256(nil)] *)
Definition EmptyCodeHash : Hash := Keccak256Hash [].
Definition IsEmptyCodeHash (codeHash : Hash) : bool :=
  bool_decide (codeHash = zero_hash) || bool_decide (codeHash = EmptyCodeHash).
End Config.

(** ** Gas limit search *)

(** [BinSearch]'s loop; [executable] answers whether the gas limit fails, with its
    response, or an error that ends the search.  64 turns halve any range of [uint64]. *)
Fixpoint BinSearch_loop {St R} (fuel : nat) (lo hi : Z) (executable : Z -> M St (bool * R)) : M St Z :=
  if add64 lo 1 <? hi then
    match fuel with
    | O => panic (Errorf "out of fuel")
    | S fuel' =>
        let mid := add64 hi lo / 2 in
        '(failed, _) ← executable mid;
        if (failed : bool) then BinSearch_loop fuel' mid hi executable
        else BinSearch_loop fuel' lo mid executable
    end
  else mret hi.
Definition BinSearch {St R} (lo hi : Z) (executable : Z -> M St (bool * R)) : M St Z :=
  BinSearch_loop 64 lo hi executable.

Section BinSearch.
Context {St R : Type}.
Implicit Types (executable : Z -> M St (bool * R)) (s : St).

Lemma BinSearch_step lo hi :
  0 <= lo -> lo < hi -> lo + hi <= MaxUint64 -> (add64 lo 1 <? hi) = true ->
  add64 hi lo / 2 = (lo + hi) / 2 /\ lo < (lo + hi) / 2 < hi.
Proof.
  unfold add64, wrap64, MaxUint64. intros H0 Hlt Hs Hc. apply Z.ltb_lt in Hc.
  rewrite Z.mod_small in Hc by lia. rewrite (Z.mod_small (hi + lo)) by lia. split; [f_equal; lia|].
  split; [apply Z.le_succ_l, Z.div_le_lower_bound; lia | apply Z.div_lt_upper_bound; lia].
Qed.

(** An empty range is not searched. *)
Lemma BinSearch_empty lo hi executable s : 0 <= lo < MaxUint64 -> hi <= lo + 1 -> BinSearch lo hi executable s = (Ok hi, s).
Proof.
  intros H0 Hle. unfold BinSearch. generalize 64%nat. intros fuel.
  assert ((add64 lo 1 <? hi) = false) as E.
  { unfold add64, wrap64, MaxUint64 in *. rewrite Z.mod_small by lia. apply Z.ltb_ge. lia. }
  destruct fuel; cbn [BinSearch_loop]; by rewrite E.
Qed.

(** The search keeps what every execution keeps. *)
Lemma BinSearch_preserves (Inv : St -> Prop) executable lo hi :
  (forall g, preserves Inv (executable g)) -> preserves Inv (BinSearch lo hi executable).
Proof.
  intros He. unfold BinSearch. generalize 64%nat. intros fuel. revert lo hi.
  induction fuel as [|fuel IH]; intros lo hi; simpl; (case_match; [|apply preserves_ret]); [apply preserves_panic|].
  apply preserves_bind; [apply He|]. intros [[] x]; apply IH.
Qed.

(** A run of the search in which every state satisfies [Inv]: the result lies in the range,
    it is the upper bound or a limit that was tried and did not fail, and the limit below
    it is the lower bound or was tried and failed.  An error or panic is one of a limit that was
    tried; the search itself never runs out of fuel. *)
Definition tried (Inv : St -> Prop) executable (g : Z) (r : res bool) : Prop :=
  exists s s' x, Inv s /\ executable g s = (x, s') /\ fst <$> x = r.
Definition search_ok (Inv : St -> Prop) executable (lo hi : Z) (r : res Z) : Prop :=
  match r with
  | Ok g => lo < g <= hi /\ (g = hi \/ tried Inv executable g (Ok false)) /\
            (g - 1 = lo \/ tried Inv executable (g - 1) (Ok true))
  | Err e => exists g, lo < g < hi /\ tried Inv executable g (Err e)
  | Panic e => exists g, lo < g < hi /\ tried Inv executable g (Panic e)
  end.

Lemma search_ok_weaken Inv executable lo hi lo' hi' r :
  lo <= lo' -> hi' <= hi -> (lo' = lo \/ tried Inv executable lo' (Ok true)) ->
  (hi' = hi \/ tried Inv executable hi' (Ok false)) -> search_ok Inv executable lo' hi' r -> search_ok Inv executable lo hi r.
Proof.
  intros Hl Hh Hlo Hhi. destruct r as [g|e|e]; simpl; [|intros (g & ? & ?); exists g; split; [lia|done]..].
  intros (Hg & H1 & H2). split; [lia|]. split; [destruct H1 as [->|]; auto|].
  destruct H2 as [H2|]; [|auto]. rewrite H2. destruct Hlo; auto.
Qed.

Lemma BinSearch_loop_spec (Inv : St -> Prop) executable (Hinv : forall g s, Inv s -> Inv (snd (executable g s))) fuel lo hi s :
  Inv s -> 0 <= lo -> lo < hi -> 2 * hi <= MaxUint64 -> hi - lo <= 2 ^ Z.of_nat fuel ->
  Inv (snd (BinSearch_loop fuel lo hi executable s)) /\
  search_ok Inv executable lo hi (fst (BinSearch_loop fuel lo hi executable s)).
Proof.
  revert lo hi s. induction fuel as [|fuel IH]; intros lo hi s Hs H0 Hlt Hm Hf; simpl.
  - simpl in Hf. unfold add64, wrap64, MaxUint64 in *. rewrite Z.mod_small by lia.
    destruct (Z.ltb_spec (lo + 1) hi); [lia|]. simpl. split; [done|]. split; [lia|]. auto with lia.
  - rewrite Nat2Z.inj_succ, Z.pow_succ_r in Hf by lia.
    destruct (add64 lo 1 <? hi) eqn:Hc.
    + destruct (BinSearch_step lo hi) as [-> Hmid]; [lia|lia|lia|done|].
      pose proof (Z.div_mod (lo + hi) 2 ltac:(lia)) as Hd.
      pose proof (Z.mod_pos_bound (lo + hi) 2 ltac:(lia)) as Hd2. set (mid := (lo + hi) / 2) in *.
      unfold mbind, M_bind. pose proof (Hinv mid s Hs) as Hs1.
      destruct (executable mid s) as [[[[] x]|e|e] s1] eqn:Ee; simpl in Hs1 |- *.
      * destruct (IH mid hi s1) as [Hi Hr]; [done|lia..|]. split; [done|].
        eapply search_ok_weaken; [| | | |exact Hr]; [lia|lia|right; eexists s, s1, _; by rewrite Ee|by left].
      * destruct (IH lo mid s1) as [Hi Hr]; [done|lia..|]. split; [done|].
        eapply search_ok_weaken; [| | | |exact Hr]; [lia|lia|by left|right; eexists s, s1, _; by rewrite Ee].
      * split; [done|]. exists mid. split; [lia|]. eexists s, s1, _. by rewrite Ee.
      * split; [done|]. exists mid. split; [lia|]. eexists s, s1, _. by rewrite Ee.
    + apply Z.ltb_ge in Hc. unfold add64, wrap64, MaxUint64 in *. rewrite Z.mod_small in Hc by lia.
      simpl. split; [done|]. split; [lia|]. auto with lia.
Qed.

Lemma BinSearch_spec (Inv : St -> Prop) executable (Hinv : forall g s, Inv s -> Inv (snd (executable g s))) lo hi s :
  Inv s -> 0 <= lo -> lo < hi -> 2 * hi <= MaxUint64 ->
  Inv (snd (BinSearch lo hi executable s)) /\ search_ok Inv executable lo hi (fst (BinSearch lo hi executable s)).
Proof.
  intros Hs H0 Hlt Hm. apply BinSearch_loop_spec; try done.
  unfold MaxUint64 in Hm. change (Z.of_nat 64) with 64. lia.
Qed.

(** C28 [BinSearch] terminates on every range whose sum does not overflow and, when the
    lower limit fails and the upper one does not, returns a limit that does not
    fail while the limit below it does, whatever the executions do to the state: the gas
    estimate is tight. *)
Theorem BinSearch_tight (Inv : St -> Prop) (fails : Z -> bool) (lo hi : Z) (executable : Z -> M St (bool * R)) (s : St)
  (Hanswer : forall g s, Inv s -> exists x s', executable g s = (Ok (fails g, x), s') /\ Inv s')
  (Hs : Inv s) (Hrange : 0 <= lo < hi) (Hmax : 2 * hi <= MaxUint64)
  (Hlo : fails lo = true) (Hhi : fails hi = false) :
  exists g s', BinSearch lo hi executable s = (Ok g, s') /\ Inv s' /\ lo < g <= hi /\
    fails g = false /\ fails (g - 1) = true.
Proof.
  assert (forall g b, tried Inv executable g (Ok b) -> fails g = b) as Ht.
  { intros g b (s1 & s2 & y & Hs1 & E & Ey). destruct (Hanswer g s1 Hs1) as (x & s' & E' & _).
    rewrite E' in E. injection E as <- <-. by injection Ey. }
  destruct (BinSearch_spec Inv executable) with lo hi s as [Hi Hr]; [|done|lia|lia|lia|].
  { intros g s1 Hs1. by destruct (Hanswer g s1 Hs1) as (x & s' & -> & ?). }
  destruct (BinSearch lo hi executable s) as [[g|e|e] s'].
  - simpl in Hr. destruct Hr as (Hg & H1 & H2). exists g, s'. split_and!; [done|done|lia|lia| |].
    + destruct H1 as [->|H1]; [done|by apply Ht].
    + destruct H2 as [->|H2]; [done|by apply Ht].
  - destruct Hr as (g & _ & s1 & s2 & y & Hs1 & E & Ey). destruct (Hanswer g s1 Hs1) as (x & s3 & E' & _).
    rewrite E' in E. injection E as <- <-. done.
  - destruct Hr as (g & _ & s1 & s2 & y & Hs1 & E & Ey). destruct (Hanswer g s1 Hs1) as (x & s3 & E' & _).
    rewrite E' in E. injection E as <- <-. done.
Qed.
End BinSearch.

(** The state counts the executions. *)
Lemma BinSearch_tight_witness :
  exists g n, BinSearch 20999 100000 (fun g n => (Ok (g <? 53000, tt), S n)) 0%nat = (Ok g, n) /\ True /\ 20999 < g <= 100000 /\
    (g <? 53000) = false /\ (g - 1 <? 53000) = true.
Proof.
  apply (BinSearch_tight (fun _ => True) (fun g => g <? 53000) 20999 100000 (fun g n => (Ok (g <? 53000, tt), S n)) 0%nat);
    try done. intros g n _. by eexists _, _.
Defined.

Section ConfigProofs.
Context {G : Geth}.

Lemma validateBlock_ok b u : validateBlock b = Ok u -> b = Some 0.
Proof. destruct b as [z|]; simpl; [|done]. destruct (Z.eqb_spec z 0); [by intros; subst|done]. Qed.

Lemma res_bind_ok_inv {A B} (r : res A) (f : A -> res B) b :
  (r ≫= f) = Ok b -> exists a, r = Ok a /\ f a = Ok b.
Proof. destruct r; simpl; intros E; [by eauto|done|done]. Qed.

(** The only chain configuration that passes validation is the default one:
    every fork is active from block zero. *)
Theorem ChainConfig_Validate_default (m : ChainConfig) (u : unit)
  (H : ChainConfig_Validate m = Ok u) : m = DefaultChainConfig.
Proof.
  unfold ChainConfig_Validate in H.
  repeat match type of H with
  | (_ ≫= _) = Ok _ => let E := fresh "E" in apply res_bind_ok_inv in H as (? & E & H);
      first [apply validateBlock_ok in E | idtac]
  end.
  destruct m as [? ? d ? h]; simpl in *. subst. unfold DefaultChainConfig.
  destruct d; [|done]. case_decide; [by subst|done].
Qed.
End ConfigProofs.
