(* ===== verification/ChainId.v ===== *)
(** * Chain identifiers

    The Cosmos chain id carries the EIP-155 chain id between the underscore and the
    dash (types/chain_id.go); x/evm/types/eip155.go wraps the number.  The regular
    expression is a matcher by hand, shown equal to the language it stands for. *)

From Stdlib Require Import Ascii.
From stdpp Require Import base list strings pretty.
From S2P Require Import Prelude.

Abbreviation chars := (list Ascii.ascii).

Definition code_of (c : Ascii.ascii) : N := Ascii.N_of_ascii c.
Definition is_lower (c : Ascii.ascii) : bool := ((97 <=? code_of c) && (code_of c <=? 122))%N.
Definition is_digit (c : Ascii.ascii) : bool := ((48 <=? code_of c) && (code_of c <=? 57))%N.
Definition is_digit19 (c : Ascii.ascii) : bool := ((49 <=? code_of c) && (code_of c <=? 57))%N.

(** The longest prefix of characters of a class, and the rest. *)
Fixpoint span (p : Ascii.ascii -> bool) (l : chars) : chars * chars :=
  match l with
  | [] => ([], [])
  | c :: l' => if p c then let '(a, b) := span p l' in (c :: a, b) else ([], l)
  end.

(** A digit from 1 to 9 and any digits after it. *)
Definition match_number (l : chars) : option (chars * chars) :=
  match l with
  | c :: l' => if is_digit19 c then let '(a, b) := span is_digit l' in Some (c :: a, b) else None
  | [] => None
  end.

Definition underscore : Ascii.ascii := "_"%char.
Definition dash : Ascii.ascii := "-"%char.

(** The three submatches of the expression: letters, underscore, number, dash,
    number, anchored at both ends. *)
Definition evermintChainID (l : chars) : option (chars * chars * chars) :=
  let '(name, r) := span is_lower l in
  match name, r with
  | _ :: _, u :: r1 =>
      if bool_decide (u = underscore) then
        '(eip155, r2) ← match_number r1;
        match r2 with
        | d :: r3 =>
            if bool_decide (d = dash) then
              '(epoch, r4) ← match_number r3;
              match r4 with [] => Some (name, eip155, epoch) | _ => None end
            else None
        | [] => None
        end
      else None
  | _, _ => None
  end.

Definition IsValidChainID (chainID : chars) : bool :=
  if bool_decide (48 < length chainID)%nat then false
  else bool_decide (is_Some (evermintChainID chainID)).

(** The encodings of the characters [unicode.IsSpace] accepts. *)
Definition space_encodings : list (list N) :=
  ([[9]; [10]; [11]; [12]; [13]; [32]; [194; 133]; [194; 160]; [225; 154; 128];
   [226; 128; 128]; [226; 128; 129]; [226; 128; 130]; [226; 128; 131]; [226; 128; 132];
   [226; 128; 133]; [226; 128; 134]; [226; 128; 135]; [226; 128; 136]; [226; 128; 137];
   [226; 128; 138]; [226; 128; 168]; [226; 128; 169]; [226; 128; 175]; [226; 129; 159];
   [227; 128; 128]])%N.
Definition spaces : list chars := map (map Ascii.ascii_of_N) space_encodings.

(** Drop prefixes from a list of them for as long as one matches. *)
Fixpoint trim_left (fuel : nat) (ps : list chars) (l : chars) : chars :=
  match fuel with
  | O => l
  | S fuel' =>
      match list_find (fun p => p `prefix_of` l) ps with
      | Some (_, p) => trim_left fuel' ps (drop (length p) l)
      | None => l
      end
  end.
(** [strings.TrimSpace]: every space dropped shortens the text, so its length is
    fuel enough. *)
Definition TrimSpace (l : chars) : chars :=
  let l1 := trim_left (length l) spaces l in
  rev (trim_left (length l1) (map (@rev _) spaces) (rev l1)).

(** [big.Int.SetString(s, 10)] on digits. *)
Definition dec_value (l : chars) : Z :=
  foldl (fun z c => 10 * z + (Z.of_N (code_of c) - 48)) 0 l.

Definition ParseChainID (chainID : chars) : res Z :=
  let chainID := TrimSpace chainID in
  if bool_decide (48 < length chainID)%nat then Err ErrInvalidChainID
  else match evermintChainID chainID with
       | Some (_, eip155, _) => Ok (dec_value eip155)
       | None => Err ErrInvalidChainID
       end.

(** ** The EIP-155 chain id *)

Definition Eip155ChainId_Validate (m : Z) : res unit :=
  if Z.sgn m =? 1 then Ok tt else Err ErrInvalidChainID.

Definition Eip155ChainId_FromCosmosChainId (cosmosChainId : string) : res Z :=
  match ParseChainID (String.list_ascii_of_string cosmosChainId) with
  | Ok chainID => Eip155ChainId_Validate chainID ;; Ok chainID
  | Err _ => Err ErrInvalidChainID
  | Panic e => Panic e
  end.

Definition Eip155ChainId_FromUint64 (chainId : Z) : res Z :=
  Eip155ChainId_Validate chainId ;; Ok chainId.

(** ** The language of the regular expression *)

Record chain_id_shape (l name eip155 epoch : chars) : Prop := {
  shape_eq : l = name ++ underscore :: eip155 ++ dash :: epoch;
  shape_name : name <> [] /\ Forall (fun c => is_lower c = true) name;
  shape_eip155 : exists c ds, eip155 = c :: ds /\ is_digit19 c = true /\ Forall (fun c => is_digit c = true) ds;
  shape_epoch : exists c ds, epoch = c :: ds /\ is_digit19 c = true /\ Forall (fun c => is_digit c = true) ds
}.

Lemma span_spec p l a b :
  span p l = (a, b) ->
  l = a ++ b /\ Forall (fun c => p c = true) a /\ (forall c b', b = c :: b' -> p c = false).
Proof.
  revert a b. induction l as [|c l IH]; simpl; intros a b E; [by simplify_eq|].
  destruct (p c) eqn:Hc.
  - destruct (span p l) as [a' b'] eqn:E'. simplify_eq.
    destruct (IH _ _ eq_refl) as (-> & Ha & Hb). split_and!; [done|by constructor|done].
  - simplify_eq. split_and!; [done|done|]. by intros ? ? [= <- <-].
Qed.

Lemma span_app p a b :
  Forall (fun c => p c = true) a -> (forall c b', b = c :: b' -> p c = false) -> span p (a ++ b) = (a, b).
Proof.
  intros Ha Hb. induction Ha as [|c a Hc Ha IH]; simpl.
  - destruct b as [|c b]; simpl; [done|]. by rewrite (Hb c b eq_refl).
  - by rewrite Hc, IH.
Qed.

Lemma match_number_spec l n r :
  match_number l = Some (n, r) ->
  l = n ++ r /\ exists c ds, n = c :: ds /\ is_digit19 c = true /\ Forall (fun c => is_digit c = true) ds.
Proof.
  destruct l as [|c l]; simpl; [done|]. destruct (is_digit19 c) eqn:Hc; [|done].
  destruct (span is_digit l) as [a b] eqn:E. intros [= <- <-].
  destruct (span_spec _ _ _ _ E) as (-> & Ha & _). split; [done|]. by exists c, a.
Qed.

Lemma match_number_app c ds r :
  is_digit19 c = true -> Forall (fun c => is_digit c = true) ds ->
  (forall c b', r = c :: b' -> is_digit c = false) -> match_number ((c :: ds) ++ r) = Some (c :: ds, r).
Proof. intros Hc Hds Hr. simpl. by rewrite Hc, span_app. Qed.

Lemma evermintChainID_spec l name eip155 epoch :
  evermintChainID l = Some (name, eip155, epoch) <-> chain_id_shape l name eip155 epoch.
Proof.
  split.
  - unfold evermintChainID. destruct (span is_lower l) as [nm r] eqn:E.
    destruct nm as [|c nm]; [done|]. destruct r as [|u r1]; [done|].
    case_bool_decide; [|done]. subst. destruct (match_number r1) as [[id r2]|] eqn:E1; simpl; [|done].
    destruct r2 as [|d r3]; [done|]. case_bool_decide; [|done]. subst.
    destruct (match_number r3) as [[ep r4]|] eqn:E2; simpl; [|done].
    destruct r4; [|done]. intros [= <- <- <-].
    destruct (span_spec _ _ _ _ E) as (-> & Hn & _).
    apply match_number_spec in E1 as (-> & H1). apply match_number_spec in E2 as (-> & H2).
    rewrite app_nil_r. by split.
  - intros [-> [Hne Hn] (c1 & d1 & -> & Hc1 & Hd1) (c2 & d2 & -> & Hc2 & Hd2)].
    unfold evermintChainID.
    rewrite span_app by (done || by intros ? ? [= <- <-]).
    destruct name as [|c name]; [done|]. rewrite bool_decide_eq_true_2 by done.
    rewrite match_number_app by (done || by intros ? ? [= <- <-]). simpl.
    assert (span is_digit d2 = (d2, [])) as Hm
      by (rewrite <- (app_nil_r d2) at 1; by apply span_app).
    by rewrite Hc2, Hm.
Qed.

Lemma dec_fold_ge z ds :
  Forall (fun c => is_digit c = true) ds -> 0 < z ->
  0 < foldl (fun z c => 10 * z + (Z.of_N (code_of c) - 48)) z ds.
Proof.
  intros H. revert z. induction H as [|c ds Hc _ IH]; simpl; intros z Hz; [done|].
  apply IH. unfold is_digit in Hc. apply andb_true_iff in Hc as [Hc _]. apply N.leb_le in Hc. lia.
Qed.

Lemma dec_value_pos c ds :
  is_digit19 c = true -> Forall (fun c => is_digit c = true) ds -> 0 < dec_value (c :: ds).
Proof.
  intros Hc Hds. unfold dec_value. simpl. apply dec_fold_ge; [done|].
  unfold is_digit19 in Hc. apply andb_true_iff in Hc as [Hc _]. apply N.leb_le in Hc. lia.
Qed.

(** [FromCosmosChainId] accepts exactly the identifiers that, without the spaces
    around them, read [name_number-epoch] in at most 48 characters, with a name of
    lower-case letters and two positive decimal numbers without leading zeros; it
    returns the first number, and the check that follows never rejects it. *)
Theorem FromCosmosChainId_spec s z :
  Eip155ChainId_FromCosmosChainId s = Ok z <->
  exists name eip155 epoch,
    chain_id_shape (TrimSpace (String.list_ascii_of_string s)) name eip155 epoch /\
    (length (TrimSpace (String.list_ascii_of_string s)) <= 48)%nat /\ z = dec_value eip155.
Proof.
  unfold Eip155ChainId_FromCosmosChainId, ParseChainID.
  set (l := TrimSpace _). case_bool_decide as Hlen.
  { split; [done|]. intros (? & ? & ? & _ & ? & _). lia. }
  destruct (evermintChainID l) as [[[name eip155] epoch]|] eqn:E.
  - apply evermintChainID_spec in E as Hs.
    pose proof (shape_eip155 _ _ _ _ Hs) as (c & ds & -> & Hc & Hds).
    pose proof (dec_value_pos c ds Hc Hds) as Hpos.
    unfold Eip155ChainId_Validate. rewrite Z.sgn_pos by done. simpl. split.
    + intros [= <-]. exists name, (c :: ds), epoch. split_and!; [done|lia|done].
    + intros (n' & e' & ep' & Hs' & _ & ->). apply evermintChainID_spec in Hs'. congruence.
  - split; [done|]. intros (? & ? & ? & Hs & _). apply evermintChainID_spec in Hs. congruence.
Qed.

(** ** Decimal text *)

Lemma digit_char x : (x < 10)%N -> is_digit (pretty_N_char x) = true /\ code_of (pretty_N_char x) = (48 + x)%N.
Proof.
  intros Hx. assert (x ∈ [0; 1; 2; 3; 4; 5; 6; 7; 8; 9]%N) as Hin by (rewrite !elem_of_cons; lia).
  repeat (apply elem_of_cons in Hin as [->|Hin]; [by vm_compute|]). by apply not_elem_of_nil in Hin.
Qed.

Lemma dec_value_snoc ds c : dec_value (ds ++ [c]) = 10 * dec_value ds + (Z.of_N (code_of c) - 48).
Proof. unfold dec_value. by rewrite foldl_app. Qed.

Lemma pretty_go_digits x s : exists ds,
  String.list_ascii_of_string (pretty_N_go x s) = ds ++ String.list_ascii_of_string s /\
  forallb is_digit ds = true /\ dec_value ds = Z.of_N x /\ ((0 < x)%N -> ds <> []).
Proof.
  revert s. induction (N.lt_wf_0 x) as [x _ IH]. intros s. destruct (decide (0 < x)%N) as [Hx|Hx].
  - rewrite pretty_N_go_step by done.
    destruct (IH (x `div` 10)%N) with (String (pretty_N_char (x `mod` 10)) s) as (ds & E & Hd & Hv & _);
      [apply N.div_lt; lia|].
    assert (x `mod` 10 < 10)%N as Hm by (apply N.mod_lt; lia). destruct (digit_char _ Hm) as [Hc1 Hc2].
    exists (ds ++ [pretty_N_char (x `mod` 10)]). rewrite E, <- app_assoc. split_and!; [done| | |].
    + by rewrite forallb_app, Hd, andb_true_l; simpl; rewrite Hc1.
    + rewrite dec_value_snoc, Hv, Hc2. pose proof (N.div_mod' x 10). lia.
    + intros _. by destruct ds.
  - assert (x = 0%N) as -> by lia. rewrite pretty_N_go_0. exists []. split_and!; [done|done|done|lia].
Qed.

Lemma pretty_all_digits (x : nat) : Forall (fun c => is_digit c = true) (String.list_ascii_of_string (pretty x)).
Proof.
  unfold pretty, pretty_nat, pretty, pretty_N. case_decide; [by repeat constructor|].
  destruct (pretty_go_digits (N.of_nat x) "") as (ds & E & Hd & _ & _). simpl in E. rewrite app_nil_r in E. rewrite E.
  by apply Forall_forall; intros c Hc; apply forallb_forall with (x := c) in Hd; [|apply list_elem_of_In].
Qed.
