(* ===== verification/GasMeter.v ===== *)
(** * Gas meters and bounded integers

    The gas meter of an Ethereum transaction (types/gasmeter.go), the conversions of
    types/int.go, the block gas limit (types/block.go) and the reset of the meter at
    the end of a transaction (x/evm/keeper/gas.go). *)

From stdpp Require Import base list strings.
From S2P Require Import Prelude Sdk.

(** ** The meter *)

Record infiniteGasMeterWithLimit : Type := mkGasMeter {
  gm_consumed : Z;
  gm_limit : Z
}.

Definition NewInfiniteGasMeterWithLimit (limit : Z) : infiniteGasMeterWithLimit := mkGasMeter 0 limit.
Definition GasMeter_GasConsumed (g : infiniteGasMeterWithLimit) : Z := gm_consumed g.
Definition GasMeter_GasConsumedToLimit (g : infiniteGasMeterWithLimit) : Z := gm_consumed g.
Definition GasMeter_Limit (g : infiniteGasMeterWithLimit) : Z := gm_limit g.

Definition addUint64Overflow (a b : Z) : Z * bool :=
  if sub64 MaxUint64 a <? b then (0, true) else (add64 a b, false).

(** The field is assigned before the overflow is looked at: on overflow the meter
    is left at zero when the panic is raised. *)
Definition GasMeter_ConsumeGas (amount : Z) : M infiniteGasMeterWithLimit unit := fun g =>
  let '(consumed, overflow) := addUint64Overflow (gm_consumed g) amount in
  let g' := mkGasMeter consumed (gm_limit g) in
  if (overflow : bool) then (Panic ErrorGasOverflow, g') else (Ok tt, g').

Definition GasMeter_RefundGas (amount : Z) : M infiniteGasMeterWithLimit unit := fun g =>
  if gm_consumed g <? amount then (Panic ErrorNegativeGasConsumed, g)
  else (Ok tt, mkGasMeter (sub64 (gm_consumed g) amount) (gm_limit g)).

Definition GasMeter_IsPastLimit (g : infiniteGasMeterWithLimit) : bool := false.
Definition GasMeter_IsOutOfGas (g : infiniteGasMeterWithLimit) : bool := false.
Definition GasMeter_GasRemaining (g : infiniteGasMeterWithLimit) : Z := MaxUint64.

(** Keeper.ResetGasMeterAndConsumeGas *)
Definition ResetGasMeterAndConsumeGas (gasUsed : Z) : M infiniteGasMeterWithLimit unit :=
  consumed ← gets GasMeter_GasConsumed;
  GasMeter_RefundGas consumed ;;
  GasMeter_ConsumeGas gasUsed.

(** ** Bounded integers *)

Definition maxBitLen : Z := 256.

Definition SafeInt64 (value : Z) : res Z :=
  if MaxInt64 <? value then Err ErrInvalidHeight else Ok value.

(** nil is [None]. *)
Definition IsValidInt256 (i : option Z) : bool :=
  match i with None => true | Some z => BitLen z <=? maxBitLen end.

Definition SafeNewIntFromBigInt (i : Z) : res Z :=
  if IsValidInt256 (Some i) then NewIntFromBigInt i else Err (Errorf "big int out of bound").

(** ** The block gas limit *)

Definition BlockGasLimit (ctx : Ctx) : Z :=
  match ctx_BlockGasMeterLimit ctx with
  | Some limit => if limit =? 0 then
        match ctx_ConsensusMaxGas ctx with
        | None => 0
        | Some maxGas => if maxGas =? -1 then MaxUint64 else if 0 <? maxGas then maxGas else 0
        end
      else limit
  | None =>
      match ctx_ConsensusMaxGas ctx with
      | None => 0
      | Some maxGas => if maxGas =? -1 then MaxUint64 else if 0 <? maxGas then maxGas else 0
      end
  end.

(** ** Lemmas *)

Lemma addUint64Overflow_spec a b :
  is_u64 a -> is_u64 b ->
  addUint64Overflow a b = if MaxUint64 <? a + b then (0, true) else (a + b, false).
Proof.
  unfold is_u64, addUint64Overflow, sub64, add64, wrap64, MaxUint64. intros Ha Hb.
  rewrite Z.mod_small by lia.
  destruct (Z.ltb_spec (2 ^ 64 - 1 - a) b), (Z.ltb_spec (2 ^ 64 - 1) (a + b)); try lia; [done|].
  by rewrite Z.mod_small by lia.
Qed.

Lemma ConsumeGas_ok g amount :
  is_u64 (gm_consumed g) -> is_u64 amount -> gm_consumed g + amount <= MaxUint64 ->
  GasMeter_ConsumeGas amount g = (Ok tt, mkGasMeter (gm_consumed g + amount) (gm_limit g)).
Proof.
  intros H1 H2 H3. unfold GasMeter_ConsumeGas. rewrite addUint64Overflow_spec by done.
  destruct (Z.ltb_spec MaxUint64 (gm_consumed g + amount)); [lia|done].
Qed.

Lemma ResetGasMeter_ok g gasUsed :
  is_u64 (gm_consumed g) -> is_u64 gasUsed ->
  ResetGasMeterAndConsumeGas gasUsed g = (Ok tt, mkGasMeter gasUsed (gm_limit g)).
Proof.
  intros Hg Hu. unfold ResetGasMeterAndConsumeGas. munfold.
  unfold GasMeter_RefundGas, GasMeter_GasConsumed. rewrite Z.ltb_irrefl.
  unfold sub64, wrap64. rewrite Z.sub_diag, Z.mod_0_l by lia. simpl.
  rewrite ConsumeGas_ok by (simpl; unfold is_u64, MaxUint64 in *; lia). done.
Qed.

(** The gas meter of an Ethereum transaction: whatever was consumed before, the
    reset leaves exactly the gas the EVM used and the limit unchanged, without a
    panic; from there, consuming more panics exactly when the total exceeds 64 bits,
    and then the meter has been set to zero. *)
Theorem gas_meter_reset (g : infiniteGasMeterWithLimit) (gasUsed more : Z)
  (Hg : is_u64 (gm_consumed g)) (Hu : is_u64 gasUsed) (Hm : is_u64 more) :
  ResetGasMeterAndConsumeGas gasUsed g = (Ok tt, mkGasMeter gasUsed (gm_limit g)) /\
  (ResetGasMeterAndConsumeGas gasUsed ;; GasMeter_ConsumeGas more) g =
    if MaxUint64 <? gasUsed + more then (Panic ErrorGasOverflow, mkGasMeter 0 (gm_limit g))
    else (Ok tt, mkGasMeter (gasUsed + more) (gm_limit g)).
Proof.
  split; [by apply ResetGasMeter_ok|]. unfold mbind, M_bind. rewrite ResetGasMeter_ok by done.
  unfold GasMeter_ConsumeGas. simpl. rewrite addUint64Overflow_spec by done. by destruct (MaxUint64 <? gasUsed + more).
Qed.

Lemma gas_meter_reset_witness :
  ResetGasMeterAndConsumeGas 21000 (mkGasMeter 777 90000) = (Ok tt, mkGasMeter 21000 90000) /\
  (ResetGasMeterAndConsumeGas 21000 ;; GasMeter_ConsumeGas MaxUint64) (mkGasMeter 777 90000) =
    if MaxUint64 <? 21000 + MaxUint64 then (Panic ErrorGasOverflow, mkGasMeter 0 90000)
    else (Ok tt, mkGasMeter (21000 + MaxUint64) 90000).
Proof. apply (gas_meter_reset (mkGasMeter 777 90000) 21000 MaxUint64); split; vm_compute; congruence. Defined.

Lemma IsValidInt256_iff z : IsValidInt256 (Some z) = true <-> Z.abs z < 2 ^ 256.
Proof. simpl. rewrite Z.leb_le. apply BitLen_le_iff. unfold maxBitLen. lia. Qed.

(** [SafeNewIntFromBigInt] never panics: it returns an error exactly where
    [NewIntFromBigInt] would panic. *)
Lemma SafeNewIntFromBigInt_spec z :
  SafeNewIntFromBigInt z =
  if decide (Z.abs z < 2 ^ 256) then Ok z else Err (Errorf "big int out of bound").
Proof.
  unfold SafeNewIntFromBigInt. case_decide as H.
  - rewrite (proj2 (IsValidInt256_iff z) H). unfold NewIntFromBigInt.
    apply BitLen_le_iff in H; [|lia]. destruct (Z.ltb_spec 256 (BitLen z)); [lia|done].
  - destruct (IsValidInt256 (Some z)) eqn:E; [|done]. by apply IsValidInt256_iff in E.
Qed.
