(* ===== verification/SigGas.v ===== *)
(** * Gas for signatures

    The gas of the signatures of a Cosmos transaction
    (app/antedl/duallane/11_sig_verification.go) and the supported keys (utils/utils.go).
    The gas meter is the SDK's, a parameter. *)

From stdpp Require Import base list strings.
From S2P Require Import Prelude.

(** The types of public keys that are told apart; a multisig key has others inside. *)
Inductive PubKey : Type :=
  | EthSecp256k1PubKey
  | Ed25519PubKey
  | MultisigPubKey (keys : list PubKey)
  | OtherPubKey.

(** [SignatureData]: a multisignature has a bit for each key and the signatures of the
    keys whose bit is set. *)
Inductive SignatureData : Type :=
  | SingleSignatureData
  | MultiSignatureData (BitArray : list bool) (Signatures : list SignatureData).

Definition EthSecp256k1VerifyCost : Z := 21000.

Definition IsSupportedKey (pubkey : PubKey) : bool :=
  match pubkey with
  | EthSecp256k1PubKey | Ed25519PubKey => true
  | MultisigPubKey keys =>
      if decide (length keys = 0%nat) then false
      else forallb (fun pk => match pk with EthSecp256k1PubKey | Ed25519PubKey => true | _ => false end) keys
  | OtherPubKey => false
  end.

Section Gas.
Context {St : Type}.
Variable ConsumeGas : Z -> M St unit.
(** [params.SigVerifyCostED25519] *)
Variable SigVerifyCostED25519 : Z.

(** The loop of [ConsumeMultiSignatureVerificationGas]: bit [i] selects key [i], and the
    selected keys take the signatures in order.  A set bit without a key or without a
    signature is an index out of range. *)
Fixpoint SigVerificationGasConsumer (pubkey : PubKey) (data : SignatureData) : M St unit :=
  match pubkey with
  | EthSecp256k1PubKey => ConsumeGas EthSecp256k1VerifyCost
  | Ed25519PubKey => ConsumeGas SigVerifyCostED25519 ;; err ErrInvalidPubKey
  | MultisigPubKey keys =>
      match data with
      | SingleSignatureData => err (Errorf "expected a multisignature")
      | MultiSignatureData BitArray Signatures =>
          (fix ConsumeMultiSignatureVerificationGas keys bits sigs {struct keys} : M St unit :=
             match keys with
             | [] => if existsb id bits then panic IndexOutOfRange else mret tt
             | pk :: keys' =>
                 match bits with
                 | [] => mret tt
                 | false :: bits' => ConsumeMultiSignatureVerificationGas keys' bits' sigs
                 | true :: bits' =>
                     match sigs with
                     | [] => panic IndexOutOfRange
                     | sig :: sigs' =>
                         SigVerificationGasConsumer pk sig ;;
                         ConsumeMultiSignatureVerificationGas keys' bits' sigs'
                     end
                 end
             end) keys BitArray Signatures
      end
  | OtherPubKey => err ErrInvalidPubKey
  end.

(** ** What is paid *)

(** How many Ethereum signatures there are under a key; [None] when something else is
    selected or missing. *)
Fixpoint signatures (pubkey : PubKey) (data : SignatureData) : option nat :=
  match pubkey with
  | EthSecp256k1PubKey => Some 1%nat
  | MultisigPubKey keys =>
      match data with
      | SingleSignatureData => None
      | MultiSignatureData bits sigs =>
          (fix count keys bits sigs {struct keys} : option nat :=
             match keys with
             | [] => if existsb id bits then None else Some 0%nat
             | pk :: keys' =>
                 match bits with
                 | [] => Some 0%nat
                 | false :: bits' => count keys' bits' sigs
                 | true :: bits' =>
                     match sigs with
                     | [] => None
                     | sig :: sigs' => n ← signatures pk sig; m ← count keys' bits' sigs'; Some (n + m)%nat
                     end
                 end
             end) keys bits sigs
      end
  | _ => None
  end.

Lemma PubKey_nested_ind (P : PubKey -> Prop) :
  P EthSecp256k1PubKey -> P Ed25519PubKey -> P OtherPubKey ->
  (forall keys, Forall P keys -> P (MultisigPubKey keys)) -> forall pk, P pk.
Proof.
  intros H1 H2 H3 H4. fix IH 1. intros [| |keys|]; [done|done| |done]. apply H4.
  induction keys as [|k keys IHk]; constructor; [apply IH|exact IHk].
Qed.

Abbreviation pay n := (mapM_ (fun _ => ConsumeGas EthSecp256k1VerifyCost) (seq 0 n)).

Lemma mapM_const {A} (m : M St unit) (l k : list A) s : length l = length k -> mapM_ (fun _ => m) l s = mapM_ (fun _ => m) k s.
Proof.
  revert k s. induction l as [|x l IH]; intros [|y k] s Hl; try done. simpl. unfold mbind, M_bind.
  destruct (m s) as [[]]; [|done|done]. apply IH. by injection Hl.
Qed.
Lemma pay_app n m s : (pay n ;; pay m) s = pay (n + m)%nat s.
Proof.
  rewrite seq_app. generalize (seq (0 + n) m), (length_seq m (0 + n)). intros l Hl.
  assert (forall k s, (mapM_ (fun _ => ConsumeGas EthSecp256k1VerifyCost) k ;; pay m) s =
    mapM_ (fun _ => ConsumeGas EthSecp256k1VerifyCost) (k ++ l) s) as Hk; [|apply Hk].
  intros k. induction k as [|x k IH]; intros s0; simpl.
  - unfold mbind, M_bind, mret, M_ret. apply mapM_const. by rewrite length_seq.
  - unfold mbind, M_bind in *. destruct (ConsumeGas _ s0) as [[]]; [|done|done]. apply IH.
Qed.

(** Signatures are paid for exactly: when the keys and signatures of a Cosmos
    transaction are accepted, the meter is charged 21,000 for each Ethereum signature,
    nested ones included, and for nothing else; a key of another kind or a missing
    signature is never accepted. *)
Theorem signature_gas_exact (pubkey : PubKey) (data : SignatureData) (s : St) :
  match signatures pubkey data with
  | Some n => SigVerificationGasConsumer pubkey data s = pay n s
  | None => forall s', SigVerificationGasConsumer pubkey data s <> (Ok tt, s')
  end.
Proof.
  revert data s. induction pubkey as [| | |keys IH] using PubKey_nested_ind; intros data s; simpl.
  - unfold mbind, M_bind. by destruct (ConsumeGas _ s) as [[[]|e|e] s'].
  - unfold mbind, M_bind, err. by destruct (ConsumeGas SigVerifyCostED25519 s) as [[]].
  - done.
  - destruct data as [|bits sigs]; [done|]. revert bits sigs s.
    induction IH as [|pk keys Hpk _ IHk]; intros bits sigs s; [by destruct (existsb id bits)|].
    destruct bits as [|[] bits]; [done| |apply IHk]. destruct sigs as [|sig sigs]; [done|].
    specialize (Hpk sig). destruct (signatures pk sig) as [n|]; simpl.
    + specialize (IHk bits sigs). match goal with |- context [?f keys bits sigs ≫= _] => destruct (f keys bits sigs) as [m|] end; simpl.
      * rewrite <- pay_app. unfold mbind, M_bind. rewrite Hpk.
        destruct (pay n s) as [[[]|e|e] s']; [apply IHk|done|done].
      * intros s'. unfold mbind, M_bind. rewrite Hpk. destruct (pay n s) as [[[]|e|e] s1]; [apply IHk|done|done].
    + intros s'. unfold mbind, M_bind. specialize (Hpk s).
      destruct (SigVerificationGasConsumer pk sig s) as [[[]|e|e] s1]; [by destruct (Hpk s1)|done|done].
Qed.
End Gas.
