(* ===== verification/TxTypes.v ===== *)
(** * Ethereum transactions as messages

    The fees of a transaction (x/evm/utils/ethereum_tx.go), the message that carries a
    transaction and its checks (x/evm/types/msg.go, tx.go) and the arguments of a call
    (tx_args.go).  go-ethereum's accessors never return nil numbers, so the numbers of
    a [Transaction] are plain; in the arguments nil is [None]. *)

From stdpp Require Import base gmap list strings.
From S2P Require Import Prelude Sdk Geth EvmTypes GasMeter.

(** ** Fees *)

Definition EthTxGasPrice (tx : Transaction) : Z :=
  if decide (tx_Type tx = DynamicFeeTxType) then tx_GasFeeCap tx else tx_GasPrice tx.
Definition EthTxFee (tx : Transaction) : Z := EthTxGasPrice tx * tx_Gas tx.
Definition EthTxEffectiveGasPrice (tx : Transaction) (baseFee : Z) : Z :=
  if decide (tx_Type tx = DynamicFeeTxType) then Z.min (tx_GasTipCap tx + baseFee) (tx_GasFeeCap tx)
  else tx_GasPrice tx.
Definition EthTxEffectiveFee (tx : Transaction) (baseFee : Z) : Z :=
  EthTxEffectiveGasPrice tx baseFee * tx_Gas tx.

(** ** The message *)

Record MsgEthereumTx : Type := mkMsgEthereumTx {
  MarshalledTx : bytes;
  msgtx_From : string
}.

(** [VmError] is empty for [None]; [ErrExecutionReverted] is the text of that error. *)
Record MsgEthereumTxResponse : Type := mkMsgEthereumTxResponse {
  resp_GasUsed : Z;
  resp_VmError : option gerr;
  resp_Ret : bytes;
  resp_Hash : Hash;
  resp_MarshalledReceipt : bytes
}.

Definition Response_Failed (m : MsgEthereumTxResponse) : bool := bool_decide (is_Some (resp_VmError m)).
Definition Response_Return (m : MsgEthereumTxResponse) : bytes :=
  if Response_Failed m then [] else resp_Ret m.
Definition ErrExecutionReverted : gerr := Errorf "execution reverted".
Definition Response_Revert (m : MsgEthereumTxResponse) : bytes :=
  if decide (resp_VmError m = Some ErrExecutionReverted) then resp_Ret m else [].

(** [ethparams.TxGas] *)
Definition TxGas : Z := 21000.

Definition validateBasic (ethTx : Transaction) : res unit :=
  let gas := tx_Gas ethTx in
  if gas <? TxGas - 1 then Err ErrInvalidGasLimit
  else if MaxInt64 <? gas then Err ErrGasOverflow
  else
    (if decide (tx_Type ethTx = DynamicFeeTxType) then
       let gasTipCap := tx_GasTipCap ethTx in
       let gasFeeCap := tx_GasFeeCap ethTx in
       if Z.sgn gasTipCap =? -1 then Err ErrInvalidGasCap
       else if Z.sgn gasFeeCap =? -1 then Err ErrInvalidGasCap
       else if negb (IsValidInt256 (Some gasTipCap)) then Err ErrInvalidGasCap
       else if negb (IsValidInt256 (Some gasFeeCap)) then Err ErrInvalidGasCap
       else if gasFeeCap <? gasTipCap then Err ErrInvalidGasCap
       else Ok tt
     else
       let gasPrice := EthTxGasPrice ethTx in
       if negb (IsValidInt256 (Some gasPrice)) then Err ErrInvalidGasPrice
       else if Z.sgn gasPrice =? -1 then Err ErrInvalidGasPrice
       else Ok tt) ;;
    (if Z.sgn (tx_Value ethTx) =? -1 then Err ErrInvalidAmount
     else if negb (IsValidInt256 (Some (tx_Value ethTx))) then Err ErrInvalidAmount
     else Ok tt) ;;
    (if negb (IsValidInt256 (Some (EthTxFee ethTx))) then Err ErrInvalidGasFee else Ok tt) ;;
    (if tx_ChainId ethTx <? 0 then Err ErrInvalidChainID else Ok tt).

(** ** Arguments *)

Record TransactionArgs : Type := mkTransactionArgs {
  arg_From : option Address;
  arg_To : option Address;
  arg_Gas : option Z;
  arg_GasPrice : option Z;
  arg_MaxFeePerGas : option Z;
  arg_MaxPriorityFeePerGas : option Z;
  arg_Value : option Z;
  arg_Nonce : option Z;
  arg_Data : option bytes;
  arg_Input : option bytes;
  arg_AccessList : option EthAccessList;
  arg_ChainID : option Z
}.

Definition TransactionArgs_GetFrom (args : TransactionArgs) : Address := default zero_address (arg_From args).
Definition TransactionArgs_GetData (args : TransactionArgs) : bytes :=
  match arg_Input args with
  | Some input => input
  | None => default [] (arg_Data args)
  end.

(** The fee fields a message gets: gas price, fee cap and tip cap. *)
Definition message_fees (args : TransactionArgs) (baseFee : option Z) : Z * Z * Z :=
  match baseFee with
  | None => let gasPrice := default 0 (arg_GasPrice args) in (gasPrice, gasPrice, gasPrice)
  | Some baseFee =>
      match arg_GasPrice args with
      | Some gasPrice => (gasPrice, gasPrice, gasPrice)
      | None =>
          let gasFeeCap := default 0 (arg_MaxFeePerGas args) in
          let gasTipCap := default 0 (arg_MaxPriorityFeePerGas args) in
          let gasPrice :=
            if (0 <? BitLen gasFeeCap) || (0 <? BitLen gasTipCap)
            then Z.min (gasTipCap + baseFee) gasFeeCap else 0 in
          (gasPrice, gasFeeCap, gasTipCap)
      end
  end.

Definition TransactionArgs_ToMessage (args : TransactionArgs) (globalGasCap : Z) (baseFee : option Z) :
    res Message :=
  if bool_decide (is_Some (arg_GasPrice args)) &&
     (bool_decide (is_Some (arg_MaxFeePerGas args)) || bool_decide (is_Some (arg_MaxPriorityFeePerGas args)))
  then Err (Errorf "both gasPrice and (maxFeePerGas or maxPriorityFeePerGas) specified")
  else
    let addr := TransactionArgs_GetFrom args in
    let gas := if globalGasCap =? 0 then MaxUint64 / 2 else globalGasCap in
    let gas := default gas (arg_Gas args) in
    let gas := if negb (globalGasCap =? 0) && (globalGasCap <? gas) then globalGasCap else gas in
    let '(gasPrice, gasFeeCap, gasTipCap) := message_fees args baseFee in
    let value := default 0 (arg_Value args) in
    let data := TransactionArgs_GetData args in
    let accessList := default [] (arg_AccessList args) in
    let nonce := default 0 (arg_Nonce args) in
    Ok (mkMessage addr (arg_To args) nonce value gas gasPrice gasFeeCap gasTipCap data accessList true).

Section Messages.
Context {G : Geth} {B : Bech32}.

(** [UnmarshalBinary] fails on an error value. *)
Definition MsgEthereumTx_ValidateBasic (msg : MsgEthereumTx) : res unit :=
  AccAddressFromBech32 (msgtx_From msg) ;;
  ethTx ← Transaction_UnmarshalBinary (MarshalledTx msg);
  validateBasic ethTx.

Definition MsgEthereumTx_AsTransaction (msg : MsgEthereumTx) : res Transaction :=
  must_res (Transaction_UnmarshalBinary (MarshalledTx msg)).

Definition FromEthereumTx (tx : Transaction) (from : Address) : res MsgEthereumTx :=
  validateBasic tx ;;
  bz ← Transaction_MarshalBinary tx;
  Ok (mkMsgEthereumTx bz (AccAddressString (farr_bytes from))).

Definition MsgEthereumTx_GetGas (msg : MsgEthereumTx) : res Z :=
  tx ← MsgEthereumTx_AsTransaction msg; Ok (tx_Gas tx).
Definition MsgEthereumTx_GetFrom (msg : MsgEthereumTx) : res bytes :=
  must_res (AccAddressFromBech32 (msgtx_From msg)).

(** The fee and gas limit of the Cosmos transaction around the message. *)
Definition MsgEthereumTx_BuildTx (msg : MsgEthereumTx) (feeDenom : string) : res (Coins * Z) :=
  ethTx ← MsgEthereumTx_AsTransaction msg;
  feeAmt ← NewIntFromBigInt (EthTxFee ethTx);
  Ok (if 0 <? feeAmt then [(feeDenom, feeAmt)] else [], tx_Gas ethTx).

Definition TransactionArgs_ToTransaction (args : TransactionArgs) : res MsgEthereumTx :=
  let nonce := default 0 (arg_Nonce args) in
  let gas := default 0 (arg_Gas args) in
  let data := default [] (arg_Input args) in
  let ethTx := ethtypes_NewTx
    (if bool_decide (is_Some (arg_MaxFeePerGas args)) || bool_decide (is_Some (arg_MaxPriorityFeePerGas args))
     then DynamicFeeTx (arg_ChainID args) nonce (arg_MaxPriorityFeePerGas args) (arg_MaxFeePerGas args) gas
            (arg_To args) (arg_Value args) data (default [] (arg_AccessList args))
     else match arg_AccessList args with
          | Some accessList => AccessListTx (arg_ChainID args) nonce (arg_GasPrice args) gas (arg_To args)
                                 (arg_Value args) data accessList
          | None => LegacyTx nonce (arg_GasPrice args) gas (arg_To args) (arg_Value args) data
          end) in
  bz ← must_res (Transaction_MarshalBinary ethTx);
  Ok (mkMsgEthereumTx bz
        match arg_From args with Some from => AccAddressString (farr_bytes from) | None => "" end).

Record EvmTxArgs : Type := mkEvmTxArgs {
  eta_Nonce : Z;
  eta_GasLimit : Z;
  eta_Input : bytes;
  eta_GasFeeCap : option Z;
  eta_GasPrice : option Z;
  eta_ChainID : option Z;
  eta_Amount : option Z;
  eta_GasTipCap : option Z;
  eta_From : Address;
  eta_To : option Address;
  eta_Accesses : option EthAccessList
}.

Definition NewTx (tx : EvmTxArgs) : res MsgEthereumTx :=
  let ethTx := ethtypes_NewTx
    (if bool_decide (is_Some (eta_GasTipCap tx)) || bool_decide (is_Some (eta_GasFeeCap tx))
     then DynamicFeeTx (eta_ChainID tx) (eta_Nonce tx) (eta_GasTipCap tx) (eta_GasFeeCap tx) (eta_GasLimit tx)
            (eta_To tx) (eta_Amount tx) (eta_Input tx) (default [] (eta_Accesses tx))
     else match eta_Accesses tx with
          | Some accessList => AccessListTx (eta_ChainID tx) (eta_Nonce tx) (eta_GasPrice tx) (eta_GasLimit tx)
                                 (eta_To tx) (eta_Amount tx) (eta_Input tx) accessList
          | None => LegacyTx (eta_Nonce tx) (eta_GasPrice tx) (eta_GasLimit tx) (eta_To tx) (eta_Amount tx)
                      (eta_Input tx)
          end) in
  bz ← must_res (Transaction_MarshalBinary ethTx);
  Ok (mkMsgEthereumTx bz (AccAddressString (farr_bytes (eta_From tx)))).
End Messages.

(** ** Properties *)

Lemma IsValidInt256_neg z : negb (IsValidInt256 (Some z)) = true <-> 2 ^ 256 <= Z.abs z.
Proof. rewrite negb_true_iff, <- not_true_iff_false, IsValidInt256_iff. lia. Qed.

Lemma sgn_neg z : (Z.sgn z =? -1) = true <-> z < 0.
Proof. rewrite Z.eqb_eq. lia. Qed.

(** What the checks let through. *)
Record tx_sane (tx : Transaction) : Prop := {
  sane_gas : 20999 <= tx_Gas tx <= MaxInt64;
  sane_price : 0 <= EthTxGasPrice tx < 2 ^ 256;
  sane_tip : tx_Type tx = DynamicFeeTxType -> 0 <= tx_GasTipCap tx <= tx_GasFeeCap tx;
  sane_value : 0 <= tx_Value tx < 2 ^ 256;
  sane_fee : 0 <= EthTxFee tx < 2 ^ 256;
  sane_chain : 0 <= tx_ChainId tx
}.

Lemma guard_ok (b : bool) e : (if b then Err e else Ok tt) = Ok tt <-> b = false.
Proof. by destruct b. Qed.

Lemma validateBasic_iff tx : validateBasic tx = Ok tt <-> tx_sane tx.
Proof.
  assert (forall (a : res unit) (f : unit -> res unit), (a ≫= f) = Ok tt <-> a = Ok tt /\ f tt = Ok tt) as Hb.
  { intros [[]|e|e] f; simpl; naive_solver. }
  assert (forall z, negb (IsValidInt256 (Some z)) = false <-> Z.abs z < 2 ^ 256) as Hv
    by (intros z; rewrite negb_false_iff; apply IsValidInt256_iff).
  assert (forall z, (Z.sgn z =? -1) = false <-> 0 <= z) as Hs by (intros z; rewrite Z.eqb_neq; lia).
  assert (tx_sane tx <-> (20999 <= tx_Gas tx <= MaxInt64) /\
    ((tx_Type tx = DynamicFeeTxType -> 0 <= tx_GasTipCap tx <= tx_GasFeeCap tx) /\ 0 <= EthTxGasPrice tx < 2 ^ 256) /\
    0 <= tx_Value tx < 2 ^ 256 /\ 0 <= EthTxFee tx < 2 ^ 256 /\ 0 <= tx_ChainId tx) as ->
    by (split; [intros []; split_and!; (done || lia)|intros (? & [? ?] & ? & ? & ?); by split]).
  unfold validateBasic, TxGas.
  destruct (Z.ltb_spec (tx_Gas tx) (21000 - 1)); [split; [done|lia]|].
  destruct (Z.ltb_spec MaxInt64 (tx_Gas tx)); [split; [done|lia]|].
  rewrite !Hb, !guard_ok, Hv, Z.ltb_ge. unfold EthTxFee.
  destruct (decide (tx_Type tx = DynamicFeeTxType)) as [Hd|Hd].
  - assert (EthTxGasPrice tx = tx_GasFeeCap tx) as -> by (unfold EthTxGasPrice; by rewrite decide_True).
    destruct (Z.sgn (tx_GasTipCap tx) =? -1) eqn:E1; [apply sgn_neg in E1; naive_solver lia|apply Hs in E1].
    destruct (Z.sgn (tx_GasFeeCap tx) =? -1) eqn:E2; [apply sgn_neg in E2; naive_solver lia|apply Hs in E2].
    destruct (negb (IsValidInt256 (Some (tx_GasTipCap tx)))) eqn:E3; [apply IsValidInt256_neg in E3; naive_solver lia|].
    destruct (negb (IsValidInt256 (Some (tx_GasFeeCap tx)))) eqn:E4; [apply IsValidInt256_neg in E4; naive_solver lia|].
    apply Hv in E3, E4.
    destruct (Z.ltb_spec (tx_GasFeeCap tx) (tx_GasTipCap tx)); [naive_solver lia|].
    destruct (Z.sgn (tx_Value tx) =? -1) eqn:E5; [apply sgn_neg in E5; naive_solver lia|apply Hs in E5].
    rewrite guard_ok, Hv. split; [intros (_ & ? & ? & ?)|intros (_ & [_ ?] & ? & ? & ?)]; split_and!; try done; nia.
  - destruct (negb (IsValidInt256 (Some (EthTxGasPrice tx)))) eqn:E3; [apply IsValidInt256_neg in E3; naive_solver lia|].
    apply Hv in E3.
    destruct (Z.sgn (EthTxGasPrice tx) =? -1) eqn:E1; [apply sgn_neg in E1; naive_solver lia|apply Hs in E1].
    destruct (Z.sgn (tx_Value tx) =? -1) eqn:E5; [apply sgn_neg in E5; naive_solver lia|apply Hs in E5].
    rewrite guard_ok, Hv. split; [intros (_ & ? & ? & ?)|intros (_ & [_ ?] & ? & ? & ?)]; split_and!; try done; nia.
Qed.

(** A transaction passes the basic checks exactly when its gas limit is at least
    20,999 and fits in 63 bits, its price, value and maximum fee are non-negative
    256-bit numbers, its tip is not above its fee cap and its chain id is not negative;
    the effective fee it then pays at any base fee it covers is at least the base fee
    for all its gas and at most the maximum fee, so no fee computation overflows. *)
Theorem validateBasic_fees (tx : Transaction) :
  (validateBasic tx = Ok tt <-> tx_sane tx) /\
  (validateBasic tx = Ok tt -> forall baseFee, 0 <= baseFee <= EthTxGasPrice tx ->
     baseFee * tx_Gas tx <= EthTxEffectiveFee tx baseFee <= EthTxFee tx /\ EthTxFee tx < 2 ^ 256).
Proof.
  split; [apply validateBasic_iff|]. intros Hv baseFee Hb. apply validateBasic_iff in Hv as [Hg Hp Ht _ Hf _].
  unfold EthTxEffectiveFee, EthTxFee, EthTxEffectiveGasPrice, EthTxGasPrice in *.
  case_decide as Hd; [specialize (Ht Hd)|]; nia.
Qed.

(** A call's message: the gas never exceeds a non-zero cap, the two styles of fee
    fields are never mixed, the price paid is at most a non-negative fee cap, a legacy
    gas price fills all three fee fields, and the message is a simulated one from the
    given sender to the given recipient. *)
Theorem ToMessage_bounds (args : TransactionArgs) (cap : Z) (baseFee : option Z) (msg : Message)
  (Hok : TransactionArgs_ToMessage args cap baseFee = Ok msg) :
  (cap <> 0 -> msg_Gas msg <= cap) /\
  (arg_GasPrice args = None \/ arg_MaxFeePerGas args = None /\ arg_MaxPriorityFeePerGas args = None) /\
  (0 <= default 0 (arg_MaxFeePerGas args) -> msg_GasPrice msg <= msg_GasFeeCap msg) /\
  (forall p, arg_GasPrice args = Some p ->
     msg_GasPrice msg = p /\ msg_GasFeeCap msg = p /\ msg_GasTipCap msg = p) /\
  msg_IsFake msg = true /\ msg_From msg = TransactionArgs_GetFrom args /\ msg_To msg = arg_To args.
Proof.
  unfold TransactionArgs_ToMessage, message_fees in Hok.
  destruct (arg_GasPrice args) as [p|] eqn:Ep.
  - destruct (arg_MaxFeePerGas args) eqn:Ef; [done|]. destruct (arg_MaxPriorityFeePerGas args) eqn:Et; [done|].
    simpl in Hok. destruct baseFee as [b|]; injection Hok as <-; simpl;
      (split_and!; [|by right| |by intros ? [= <-]|done..]); try (intros; lia);
      intros Hc; destruct (Z.eqb_spec cap 0); simpl; try done; case_match; lia.
  - simpl in Hok. destruct baseFee as [b|]; injection Hok as <-; simpl;
      (split_and!; [|by left| |done..]).
    1, 3: intros Hc; destruct (Z.eqb_spec cap 0); simpl; try done; case_match; lia.
    + intros Hf. case_match; lia.
    + lia.
Qed.
