(* ===== verification/EvmStore.v ===== *)
(** * The stores of the EVM module

    Contract storage and code (x/evm/keeper/statedb.go), the block hashes, the
    per-transaction values of the transient store and the flags
    (x/evm/keeper/keeper.go), the parameters and the chain id
    (x/evm/keeper/params.go), the coinbase (block_proposer.go) and the block hooks
    (abci.go). *)

From Stdlib Require Import Strings.Byte.
From stdpp Require Import base gmap list strings.
From S2P Require Import Prelude Sdk Geth EvmTypes ChainId GasMeter.

Section Keeper.
Context {S : Type} {K : SdkKeepers S} {G : Geth}.
Implicit Types w : World S.

(** ** Contract storage *)

Definition Keeper_GetState w (addr : Address) (key : Hash) : Hash :=
  let value := kv_get (w_evm w) (AddressStoragePrefix addr ++ farr_bytes key) in
  if decide (length value = 0%nat) then zero_hash else BytesToHash value.

Definition Keeper_SetState w (addr : Address) (key : Hash) (value : bytes) : World S :=
  let k := AddressStoragePrefix addr ++ farr_bytes key in
  if decide (length value = 0%nat) then set_evm (kv_delete (w_evm w) k) w
  else set_evm (kv_set (w_evm w) k value) w.

(** The entries the iterator runs over; the keys it returns are the full keys of
    the store, cropped to their last 32 bytes. *)
Definition storage_entries w (addr : Address) : list (Hash * Hash) :=
  (fun kv => (BytesToHash kv.1, BytesToHash kv.2)) <$> kv_prefix_iter (w_evm w) (AddressStoragePrefix addr).

Fixpoint iterate {A T} (cb : A -> T -> bool * T) (l : list A) (t : T) : T :=
  match l with
  | [] => t
  | x :: l' => let '(go, t') := cb x t in if (go : bool) then iterate cb l' t' else t'
  end.

(** The callback carries a state of its own and answers whether to go on. *)
Definition Keeper_ForEachStorage {T} w (addr : Address) (cb : Hash * Hash -> T -> bool * T) (t : T) : T :=
  iterate cb (storage_entries w addr) t.

Definition Keeper_GetAccountStorage w (address : Address) : list (Hash * Hash) :=
  Keeper_ForEachStorage w address (fun kv storage => (true, storage ++ [kv])) [].

(** ** Code *)

Definition Keeper_GetCode w (codeHash : Hash) : bytes :=
  kv_get (w_evm w) (KeyPrefixCode ++ farr_bytes codeHash).

Definition Keeper_SetCode w (codeHash code : bytes) : World S :=
  if decide (length code = 0%nat) then set_evm (kv_delete (w_evm w) (KeyPrefixCode ++ codeHash)) w
  else set_evm (kv_set (w_evm w) (KeyPrefixCode ++ codeHash) code) w.

Definition Keeper_GetCodeHash w (addr : bytes) : Hash :=
  let bz := kv_get (w_evm w) (KeyPrefixCodeHash ++ addr) in
  if decide (length bz = 0%nat) then
    if HasAccount (w_sdk w) addr then EmptyCodeHash else zero_hash
  else BytesToHash bz.

Definition Keeper_SetCodeHash w (addr : Address) (codeHash : Hash) : World S :=
  let k := KeyPrefixCodeHash ++ farr_bytes addr in
  if IsEmptyCodeHash codeHash then set_evm (kv_delete (w_evm w) k) w
  else set_evm (kv_set (w_evm w) k (farr_bytes codeHash)) w.

Definition Keeper_DeleteCodeHash w (addr : bytes) : World S :=
  set_evm (kv_delete (w_evm w) (KeyPrefixCodeHash ++ addr)) w.

Definition Keeper_IterateContracts {T} w (callback : Address * Hash -> T -> bool * T) (t : T) : T :=
  iterate (fun kv t => let '(stop, t') := callback (BytesToAddress kv.1, BytesToHash kv.2) t in
                       (negb stop, t'))
    (kv_prefix_iter (w_evm w) KeyPrefixCodeHash) t.

(** ** Accounts *)

Definition Keeper_IsEmptyAccount w (addr : Address) : bool :=
  if negb (IsEmptyCodeHash (Keeper_GetCodeHash w (farr_bytes addr))) then false
  else if negb (Coins_IsZero (GetAllBalances (w_sdk w) (farr_bytes addr))) then false
  else if match GetAccount (w_sdk w) (farr_bytes addr) with
          | Some acc => 0 <? acc_sequence acc
          | None => false
          end then false
  else negb (Keeper_ForEachStorage w addr (fun _ _ => (false, true)) false).

Definition Keeper_GetNonce w (addr : Address) : Z :=
  match GetAccount (w_sdk w) (farr_bytes addr) with
  | None => 0
  | Some acct => acc_sequence acct
  end.

(** ** Block hashes *)

Definition SetBlockHashForCurrentBlockAndPruneOld (ctx : Ctx) w : World S :=
  let height := ctx_BlockHeight ctx in
  if height =? 0 then w
  else
    let key := BlockHashKey (wrap64 height) in
    if kv_has (w_evm w) key then w
    else
      let store := kv_set (w_evm w) key (ctx_HeaderHash ctx) in
      let heightToPrune := height - 256 in
      if 0 <? heightToPrune then set_evm (kv_delete store (BlockHashKey (wrap64 heightToPrune))) w
      else set_evm store w.

Definition GetBlockHashByBlockNumber (ctx : Ctx) w (height : Z) : res Hash :=
  if height <=? 0 then Ok zero_hash
  else
    let bz := kv_get (w_evm w) (BlockHashKey (wrap64 height)) in
    if decide (length bz = 0%nat) then
      if height =? ctx_BlockHeight ctx then Panic (Errorf "block hash not found for current block")
      else Ok zero_hash
    else Ok (BytesToHash bz).

(** The function the EVM is given for BLOCKHASH. *)
Definition GetHashFn (ctx : Ctx) w (height : Z) : res Hash :=
  match SafeInt64 height with
  | Ok h => GetBlockHashByBlockNumber ctx w h
  | Err _ => Ok zero_hash
  | Panic e => Panic e
  end.

(** ** The transactions of the current block *)

Definition GetRawTxCountTransient w : Z := BigEndianToUint64 (kv_get (w_tevm w) KeyTransientTxCount).

Definition IncreaseTxCountTransient w : World S :=
  let curCount := BigEndianToUint64 (kv_get (w_tevm w) KeyTransientTxCount) in
  set_tevm (kv_set (w_tevm w) KeyTransientTxCount (Uint64ToBigEndian (add64 curCount 1))) w.

Definition GetTxCountTransient w : Z :=
  let count := GetRawTxCountTransient w in
  if count <? 1 then 1 else count.

Definition SetGasUsedForCurrentTxTransient w (gas : Z) : World S :=
  let txIdx := sub64 (GetTxCountTransient w) 1 in
  set_tevm (kv_set (w_tevm w) (TxGasTransientKey txIdx) (Uint64ToBigEndian gas)) w.

Definition GetGasUsedForTdxIndexTransient w (txIdx : Z) : Z :=
  BigEndianToUint64 (kv_get (w_tevm w) (TxGasTransientKey txIdx)).

Definition SetLogCountForCurrentTxTransient w (count : Z) : World S :=
  let txIdx := sub64 (GetTxCountTransient w) 1 in
  set_tevm (kv_set (w_tevm w) (TxLogCountTransientKey txIdx) (Uint64ToBigEndian count)) w.

(** The loop over the transactions [i, i+1, ...] below [txCount]. *)
Fixpoint sum_log_counts w (exceptCurrent : bool) (txCount : Z) (n : nat) (i total : Z) : Z :=
  match n with
  | O => total
  | Datatypes.S n' =>
      sum_log_counts w exceptCurrent txCount n' (add64 i 1)
        (if exceptCurrent && (i =? sub64 txCount 1) then total
         else add64 total (BigEndianToUint64 (kv_get (w_tevm w) (TxLogCountTransientKey i))))
  end.
Definition GetCumulativeLogCountTransient w (exceptCurrent : bool) : Z :=
  let txCount := GetTxCountTransient w in
  sum_log_counts w exceptCurrent txCount (Z.to_nat txCount) 0 0.

Definition SetTxReceiptForCurrentTxTransient w (receiptBz : bytes) : World S :=
  let txIdx := sub64 (GetTxCountTransient w) 1 in
  set_tevm (kv_set (w_tevm w) (TxReceiptTransientKey txIdx) receiptBz) w.

Fixpoint collect_receipts w (n : nat) (txIdx : Z) (receipts : list Receipt) : res (list Receipt) :=
  match n with
  | O => Ok receipts
  | Datatypes.S n' =>
      let bzReceipt := kv_get (w_tevm w) (TxReceiptTransientKey txIdx) in
      if decide (length bzReceipt = 0%nat) then Panic (Errorf "receipt not found for tx")
      else match Receipt_UnmarshalBinary bzReceipt with
           | Ok receipt => collect_receipts w n' (add64 txIdx 1) (receipts ++ [receipt])
           | Err e | Panic e => Panic e
           end
  end.
Definition GetTxReceiptsTransient w : res (list Receipt) :=
  collect_receipts w (Z.to_nat (GetRawTxCountTransient w)) 0 [].

(** ** Flags *)

Definition genericSetBoolFlagTransient w (key : bytes) (value : bool) : World S :=
  if value then set_tevm (kv_set (w_tevm w) key [x01]) w
  else set_tevm (kv_delete (w_tevm w) key) w.
Definition genericGetBoolFlagTransient w (key : bytes) : bool :=
  match kv_get (w_tevm w) key with
  | b :: _ => bool_decide (b = x01)
  | [] => false
  end.

Definition SetFlagSenderNonceIncreasedByAnteHandle w (increased : bool) : World S :=
  genericSetBoolFlagTransient w KeyTransientFlagIncreasedSenderNonce increased.
Definition IsSenderNonceIncreasedByAnteHandle w : bool :=
  genericGetBoolFlagTransient w KeyTransientFlagIncreasedSenderNonce.
Definition SetFlagSenderPaidTxFeeInAnteHandle w (paid : bool) : World S :=
  genericSetBoolFlagTransient w KeyTransientSenderPaidFee paid.
Definition IsSenderPaidTxFeeInAnteHandle w : bool :=
  genericGetBoolFlagTransient w KeyTransientSenderPaidFee.
Definition SetFlagEnableNoBaseFee w (enable : bool) : World S :=
  genericSetBoolFlagTransient w KeyTransientFlagNoBaseFee enable.
Definition IsNoBaseFeeEnabled w : bool :=
  genericGetBoolFlagTransient w KeyTransientFlagNoBaseFee.

(** ** Parameters and chain id *)

Section Params.
Context {P : Codec EvmParams}.
Variable ValidateDenom : string -> res unit.

(** [MustUnmarshal] panics on a decoding error. *)
Definition Keeper_GetParams w : res EvmParams :=
  let bz := kv_get (w_evm w) KeyPrefixParams in
  if decide (length bz = 0%nat) then Ok zero_msg
  else match Unmarshal bz with Ok p => Ok p | Err e | Panic e => Panic e end.

Definition Keeper_SetParams (params : EvmParams) : M (World S) unit :=
  lift_res (EvmParams_Validate ValidateDenom params) ;;
  bz ← lift_res (Marshal params);
  modify (fun w => set_evm (kv_set (w_evm w) KeyPrefixParams bz) w).

(** [chainId.BigInt().Uint64()] keeps the low 64 bits. *)
Definition Keeper_SetEip155ChainId (chainId : Z) : M (World S) unit :=
  or_panic ErrInvalidChainID (lift_res (Eip155ChainId_Validate chainId)) ;;
  modify (fun w => set_evm (kv_set (w_evm w) KeyEip155ChainId (Uint64ToBigEndian (wrap64 chainId))) w).

Definition Keeper_GetEip155ChainId w : res Z :=
  let v := BigEndianToUint64 (kv_get (w_evm w) KeyEip155ChainId) in
  if v =? 0 then Panic (Errorf "chain ID not set")
  else match Eip155ChainId_FromUint64 v with
       | Ok chainId => Ok chainId
       | Err e | Panic e => Panic e
       end.

Definition Keeper_GetChainConfig w : res EthChainConfig :=
  params ← Keeper_GetParams w;
  chainId ← Keeper_GetEip155ChainId w;
  ChainConfig_EthereumConfig (params_ChainConfig params) (Some chainId).

(** [-1] when the parameters are gone from a pruned node. *)
Definition Keeper_GetBalance w (addr : Address) : res Z :=
  evmParams ← Keeper_GetParams w;
  if decide (EvmDenom evmParams = ""%string) then Ok (-1)
  else Ok (GetBalance (w_sdk w) (farr_bytes addr) (EvmDenom evmParams)).

Definition Keeper_WithChainID (ctx : Ctx) : M (World S) unit :=
  chainId ← or_panic ErrInvalidChainID (lift_res (Eip155ChainId_FromCosmosChainId (ctx_ChainID ctx)));
  Keeper_SetEip155ChainId chainId.

(** MsgUpdateParams *)
Definition Keeper_UpdateParams (authority : string) (req_Authority : string) (params : EvmParams) :
    M (World S) unit :=
  require (bool_decide (authority = req_Authority)) ErrInvalidSigner ;;
  Keeper_SetParams params.

(** ** Block hooks *)

Definition Keeper_BeginBlock (ctx : Ctx) : M (World S) unit :=
  Keeper_WithChainID ctx ;;
  modify (SetBlockHashForCurrentBlockAndPruneOld ctx).

(** The bloom that is emitted, empty when it has no bit. *)
Definition EmitBlockBloomEvent (bloom : bytes) : bytes :=
  if big_SetBytes bloom =? 0 then [] else bloom.

Definition Keeper_EndBlock : M (World S) bytes :=
  receipts ← (fun w => (GetTxReceiptsTransient w, w));
  mret (EmitBlockBloomEvent (CreateBloom receipts)).
End Params.

(** ** Coinbase *)

Section Proposer.
(** The staking keeper's lookup of a validator's operator address by consensus
    address, and the codec of operator addresses. *)
Variable GetValidatorByConsAddr : S -> bytes -> res string.
Variable ValidatorStringToBytes : string -> res bytes.

Definition isEmptyProposerAddress (a : bytes) : bool := forallb (fun b => bool_decide (b = x00)) a.

Definition GetCoinbaseAddress (ctx : Ctx) w (overrideProposerAddress : bytes) : res Address :=
  let proposerAddress := ctx_ProposerAddress ctx in
  let proposerAddress :=
    if decide (length overrideProposerAddress = 0%nat) then proposerAddress
    else ctx_ProposerAddress ctx in
  if isEmptyProposerAddress proposerAddress then Ok zero_address
  else
    operator ← GetValidatorByConsAddr (w_sdk w) proposerAddress;
    valAddr ← ValidatorStringToBytes operator;
    Ok (BytesToAddress valAddr).
End Proposer.

(** ** Before a transaction

    The receipt of a failed transaction is stored in advance; its cumulative gas is
    what the log counter returns. *)
Definition failedReceipt w (ethTx : Transaction) : Receipt :=
  let r := mkReceipt (tx_Type ethTx) ReceiptStatusFailed (GetCumulativeLogCountTransient w false) [] [] in
  mkReceipt (rcpt_Type r) (rcpt_Status r) (rcpt_CumulativeGasUsed r) (CreateBloom [r]) (rcpt_Logs r).

Definition SetupExecutionContext (ctx : Ctx) (ethTx : Transaction) :
    M (World S) infiniteGasMeterWithLimit :=
  modify (SetBlockHashForCurrentBlockAndPruneOld ctx) ;;
  modify IncreaseTxCountTransient ;;
  modify (fun w => SetGasUsedForCurrentTxTransient w (tx_Gas ethTx)) ;;
  receipt ← gets (fun w => failedReceipt w ethTx);
  bzReceipt ← or_panic (Errorf "failed to marshal receipt") (lift_res (Receipt_MarshalBinary receipt));
  modify (fun w => SetTxReceiptForCurrentTxTransient w bzReceipt) ;;
  mret (NewInfiniteGasMeterWithLimit (tx_Gas ethTx)).
End Keeper.

(** ** Contract storage: lemmas *)

(** Keys under the storage prefix hold an address and a slot. *)
Definition evm_store_wf (m : kv) : Prop :=
  forall k, KeyPrefixStorage `prefix_of` k -> is_Some (m !! k) ->
    exists a (key : Hash), k = StateKey a (farr_bytes key).

Section StorageLemmas.
Context {S : Type} {K : SdkKeepers S} {G : Geth}.
Implicit Types w : World S.

Lemma w_evm_SetState w a key v k :
  w_evm (Keeper_SetState w a key v) !! k =
  if decide (k = StateKey a (farr_bytes key)) then (if decide (length v = 0%nat) then None else Some v)
  else w_evm w !! k.
Proof.
  unfold Keeper_SetState, kv_delete, kv_set. fold (StateKey a (farr_bytes key)).
  case_decide as Hv; simpl; rewrite ?lookup_delete, ?lookup_insert; repeat case_decide; congruence.
Qed.

Lemma Keeper_SetState_rest w a key v : exists m, Keeper_SetState w a key v = set_evm m w.
Proof. unfold Keeper_SetState. case_decide; eauto. Qed.

Lemma GetState_SetState w a key v a' key' :
  Keeper_GetState (Keeper_SetState w a key v) a' key' =
  if decide (a' = a /\ key' = key) then (if decide (length v = 0%nat) then zero_hash else BytesToHash v)
  else Keeper_GetState w a' key'.
Proof.
  unfold Keeper_GetState, kv_get. fold (StateKey a' (farr_bytes key')). rewrite w_evm_SetState.
  destruct (decide (a' = a /\ key' = key)) as [[-> ->]|Hne].
  - destruct (decide (StateKey a _ = StateKey a _)) as [_|]; [|done].
    destruct (decide (length v = 0%nat)) as [|Hv]; [done|]. simpl. by rewrite decide_False.
  - destruct (decide (StateKey a' _ = StateKey a _)) as [E|_]; [|done].
    apply StateKey_inj in E as [-> ->]. by destruct Hne.
Qed.

Lemma evm_store_wf_SetState w a key v :
  evm_store_wf (w_evm w) -> evm_store_wf (w_evm (Keeper_SetState w a key v)).
Proof.
  intros Hwf k Hk. rewrite w_evm_SetState. case_decide as E; [by exists a, key|]. by apply Hwf.
Qed.

(** The last 32 bytes of a full key are the slot. *)
Lemma hash_of_StateKey a (key : Hash) : BytesToHash (StateKey a (farr_bytes key)) = key.
Proof. apply farr_of_app. Qed.

Lemma storage_entries_spec w a key v :
  evm_store_wf (w_evm w) ->
  (key, v) ∈ storage_entries w a <->
  exists bz, w_evm w !! StateKey a (farr_bytes key) = Some bz /\ v = BytesToHash bz.
Proof.
  intros Hwf. unfold storage_entries. rewrite list_elem_of_fmap. split.
  - intros ([k bz] & [= -> ->] & Hin). apply elem_of_kv_prefix_iter in Hin as [Hp Hk].
    destruct (Hwf k) as (a' & key' & ->); [|by eauto|].
    { destruct Hp as [r ->]. unfold AddressStoragePrefix. rewrite <- app_assoc. by exists (farr_bytes a ++ r). }
    apply AddressStoragePrefix_of_key in Hp as <-.
    exists bz. simpl. by rewrite hash_of_StateKey.
  - intros (bz & Hk & ->). exists (StateKey a (farr_bytes key), bz). split.
    + simpl. by rewrite hash_of_StateKey.
    + apply elem_of_kv_prefix_iter. split; [apply storage_prefix_of_self|done].
Qed.

Lemma storage_entries_nil w a :
  evm_store_wf (w_evm w) ->
  storage_entries w a = [] <-> forall key : Hash, w_evm w !! StateKey a (farr_bytes key) = None.
Proof.
  intros Hwf. split.
  - intros E key. destruct (w_evm w !! StateKey a (farr_bytes key)) as [bz|] eqn:Ek; [|done].
    assert ((key, BytesToHash bz) ∈ storage_entries w a) as Hin
      by (apply storage_entries_spec; eauto). rewrite E in Hin. by apply not_elem_of_nil in Hin.
  - intros Hn. destruct (storage_entries w a) as [|[key v] l] eqn:E; [done|].
    assert ((key, v) ∈ storage_entries w a) as Hin by (rewrite E; left).
    apply storage_entries_spec in Hin as (bz & Hk & _); [|done]. by rewrite Hn in Hk.
Qed.

(** The loop that deletes every slot of an account. *)
Definition clear_storage w (a : Address) : World S :=
  Keeper_ForEachStorage w a (fun kv w' => (true, Keeper_SetState w' a kv.1 [])) w.

Lemma iterate_delete a (l : list (Hash * Hash)) w k :
  w_evm (iterate (fun kv w' => (true, Keeper_SetState w' a kv.1 [])) l w) !! k =
  if decide (k ∈ (fun kv => StateKey a (farr_bytes kv.1)) <$> l) then None else w_evm w !! k.
Proof.
  revert w. induction l as [|[key v] l IH]; intros w; [done|].
  cbn [iterate]. rewrite IH, w_evm_SetState, fmap_cons. cbn [fst].
  destruct (decide (k ∈ _ <$> l)) as [Hin|Hin].
  - rewrite decide_True by (by right). done.
  - destruct (decide (k = StateKey a (farr_bytes key))) as [->|Hne].
    + trans (@None bytes); [done|]. by rewrite decide_True by (by left).
    + rewrite decide_False; [done|]. rewrite elem_of_cons. naive_solver.
Qed.

Lemma iterate_delete_rest a (l : list (Hash * Hash)) w :
  exists m, iterate (fun kv w' => (true, Keeper_SetState w' a kv.1 [])) l w = set_evm m w.
Proof.
  revert w. induction l as [|[key v] l IH]; intros w; simpl; [exists (w_evm w); by destruct w|].
  destruct (IH (Keeper_SetState w a key [])) as [m ->].
  destruct (Keeper_SetState_rest w a key []) as [m' ->]. by exists m.
Qed.

Lemma w_evm_clear_storage w a k :
  evm_store_wf (w_evm w) ->
  w_evm (clear_storage w a) !! k =
  if decide (AddressStoragePrefix a `prefix_of` k) then None else w_evm w !! k.
Proof.
  intros Hwf. unfold clear_storage, Keeper_ForEachStorage. rewrite iterate_delete.
  destruct (decide (AddressStoragePrefix a `prefix_of` k)) as [Hp|Hp].
  - destruct (w_evm w !! k) as [bz|] eqn:Ek; [|by case_decide].
    rewrite decide_True; [done|].
    destruct (Hwf k) as (a' & key & ->); [|by eauto|].
    { destruct Hp as [r ->]. unfold AddressStoragePrefix. rewrite <- app_assoc. by exists (farr_bytes a ++ r). }
    apply AddressStoragePrefix_of_key in Hp as <-.
    apply list_elem_of_fmap. exists (key, BytesToHash bz). split; [done|].
    apply storage_entries_spec; eauto.
  - rewrite decide_False; [done|]. rewrite list_elem_of_fmap. intros ([key v] & -> & _).
    destruct Hp. apply storage_prefix_of_self.
Qed.
End StorageLemmas.
