(* ===== verification/Genesis.v ===== *)
(** * Genesis of the EVM module

    Import and export of contracts (x/evm/genesis.go), the genesis types and their
    validation (x/evm/types/genesis.go, storage.go) and the checks of addresses given as
    text (types/validation.go).  go-ethereum's conversions to and from hexadecimal text
    are parameters. *)

From Stdlib Require Import Strings.Byte.
From stdpp Require Import base gmap list strings.
From S2P Require Import Prelude Sdk Geth EvmTypes ChainId GasMeter EvmStore.

(** ** Text *)

Class HexText : Type := {
  Address_String : Address -> string;
  HexToAddress : string -> Address;
  IsHexAddress : string -> bool;
  Hash_String : Hash -> string;
  Bytes2Hex : bytes -> string;
  Hex2Bytes : string -> bytes
}.
(** What is written is read back. *)
Class HexTextLaws `{X : HexText} `{G : Geth} : Prop := {
  address_text (a : Address) : HexToAddress (Address_String a) = a;
  hash_text (h : Hash) : HexToHash (Hash_String h) = h;
  bytes_text (b : bytes) : Hex2Bytes (Bytes2Hex b) = b;
  address_text_hex (a : Address) : IsHexAddress (Address_String a) = true;
  (** The text of an address is 0x and 40 digits. *)
  address_text_length (a : Address) : length (String.list_ascii_of_string (Address_String a)) = 42%nat;
  (** The text of a hash is 0x and 64 digits. *)
  hash_text_length (h : Hash) : length (String.list_ascii_of_string (Hash_String h)) = 66%nat;
  hash_text_trimmed (h : Hash) : TrimSpace (String.list_ascii_of_string (Hash_String h)) =
    String.list_ascii_of_string (Hash_String h)
}.

Record State : Type := mkState {
  state_Key : string;
  state_Value : string
}.
Abbreviation Storage := (list State).

Section Text.
Context {G : Geth} {X : HexText}.

Definition IsEmptyHash (hash : string) : bool :=
  bool_decide (farr_bytes (HexToHash hash) = farr_bytes zero_hash).
Definition IsZeroAddress (address : string) : bool :=
  bool_decide (farr_bytes (HexToAddress address) = farr_bytes zero_address).
Definition ValidateAddress (address : string) : res unit :=
  if negb (IsHexAddress address) then Err ErrInvalidAddress else Ok tt.
Definition ValidateNonZeroAddress (address : string) : res unit :=
  if IsZeroAddress address then Err ErrInvalidAddress else ValidateAddress address.

(** ** Types *)

Definition NewState (key value : Hash) : State := mkState (Hash_String key) (Hash_String value).

Definition State_Validate (m : State) : res unit :=
  if decide (TrimSpace (String.list_ascii_of_string (state_Key m)) = []) then Err ErrInvalidState else Ok tt.

Fixpoint Storage_Validate_from (seenStorage : gset string) (s : Storage) : res unit :=
  match s with
  | [] => Ok tt
  | state :: rest =>
      if decide (state_Key state ∈ seenStorage) then Err ErrInvalidState
      else State_Validate state ;; Storage_Validate_from ({[state_Key state]} ∪ seenStorage) rest
  end.
Definition Storage_Validate (s : Storage) : res unit := Storage_Validate_from ∅ s.

Record GenesisAccount : Type := mkGenesisAccount {
  ga_Address : string;
  ga_Code : string;
  ga_Storage : Storage
}.
Record GenesisState : Type := mkGenesisState {
  gs_Accounts : list GenesisAccount;
  gs_Params : EvmParams
}.

Definition GenesisAccount_Validate (ga : GenesisAccount) : res unit :=
  ValidateAddress (ga_Address ga) ;; Storage_Validate (ga_Storage ga).

Definition DefaultGenesisState : GenesisState := mkGenesisState [] DefaultParams.
Definition NewGenesisState (params : EvmParams) (accounts : list GenesisAccount) : GenesisState :=
  mkGenesisState accounts params.

Fixpoint validate_accounts (seenAccounts : gset string) (accounts : list GenesisAccount) : res unit :=
  match accounts with
  | [] => Ok tt
  | acc :: rest =>
      if decide (ga_Address acc ∈ seenAccounts) then Err (Errorf "duplicated genesis account")
      else GenesisAccount_Validate acc ;; validate_accounts ({[ga_Address acc]} ∪ seenAccounts) rest
  end.
Definition GenesisState_Validate (ValidateDenom : string -> res unit) (gs : GenesisState) : res unit :=
  validate_accounts ∅ (gs_Accounts gs) ;; EvmParams_Validate ValidateDenom (gs_Params gs).
End Text.

(** ** Import and export *)

Section Genesis.
Context {S : Type} {K : SdkKeepers S} {G : Geth} {X : HexText} {P : Codec EvmParams}.
Variable ValidateDenom : string -> res unit.
Implicit Types w : World S.

Definition init_storage (address : Address) (storage : Storage) : M (World S) unit :=
  mapM_ (fun st => modify (fun w => Keeper_SetState w address (HexToHash (state_Key st))
                                      (farr_bytes (HexToHash (state_Value st))))) storage.

Definition init_account (account : GenesisAccount) : M (World S) unit :=
  let address := HexToAddress (ga_Address account) in
  acc ← gets (fun w => GetAccount (w_sdk w) (farr_bytes address));
  match acc with
  | None => panic (Errorf "account not found for address")
  | Some acc =>
      match acc_kind acc with
      | BaseAccount =>
          let code := Hex2Bytes (ga_Code account) in
          let codeHash := Keccak256Hash code in
          (if negb (IsEmptyCodeHash codeHash) then modify (fun w => Keeper_SetCodeHash w address codeHash)
           else mret tt) ;;
          (if (0 <? length code)%nat then modify (fun w => Keeper_SetCode w (farr_bytes codeHash) code)
           else mret tt) ;;
          init_storage address (ga_Storage account)
      | _ => panic (Errorf "account must be a base account")
      end
  end.

(** No validator updates are returned. *)
Definition InitGenesis (ctx : Ctx) (data : GenesisState) : M (World S) unit :=
  Keeper_WithChainID ctx ;;
  or_panic (Errorf "error setting params") (Keeper_SetParams ValidateDenom (gs_Params data)) ;;
  must (negb (bool_decide (length (GetModuleAddress (S := S) EvmModuleName) = 0%nat)))
    (Errorf "the EVM module account has not been set") ;;
  mapM_ init_account (gs_Accounts data).

(** [GetAccountStorage] as the entries of a genesis. *)
Definition GetAccountStorage w (addr : Address) : Storage :=
  (fun kv => NewState kv.1 kv.2) <$> Keeper_GetAccountStorage w addr.

Definition ExportGenesis w : res GenesisState :=
  let ethGenAccounts :=
    Keeper_IterateContracts w (fun entry acc =>
      let '(addr, codeHash) := entry in
      if IsEmptyCodeHash codeHash then (false, acc)
      else (false, acc ++ [mkGenesisAccount (Address_String addr) (Bytes2Hex (Keeper_GetCode w codeHash))
                             (GetAccountStorage w addr)])) [] in
  params ← Keeper_GetParams w;
  Ok (mkGenesisState ethGenAccounts params).
End Genesis.

(** ** What is exported can be imported *)

Section RoundTrip.
Context {S : Type} {K : SdkKeepers S} {G : Geth} {X : HexText} {XL : HexTextLaws} {P : Codec EvmParams}.
Variable ValidateDenom : string -> res unit.
Implicit Types w : World S.

Definition CodeHashKey (a : Address) : bytes := KeyPrefixCodeHash ++ farr_bytes a.

(** The contracts of a store: under the prefix of code hashes a key holds an address and a
    value the hash of the code that is stored for it. *)
Record contracts_wf w : Prop := {
  cwf_storage : evm_store_wf (w_evm w);
  cwf_key k v : KeyPrefixCodeHash `prefix_of` k -> w_evm w !! k = Some v ->
    exists a (h : Hash), k = CodeHashKey a /\ v = farr_bytes h /\
      IsEmptyCodeHash h = false /\ Keccak256Hash (Keeper_GetCode w h) = h
}.

(** The contracts of [w], in the order of the store. *)
Definition contracts w : list (Address * Hash) :=
  (fun kv => (BytesToAddress kv.1, BytesToHash kv.2)) <$> kv_prefix_iter (w_evm w) KeyPrefixCodeHash.
Definition export_account w (c : Address * Hash) : GenesisAccount :=
  mkGenesisAccount (Address_String c.1) (Bytes2Hex (Keeper_GetCode w c.2)) (GetAccountStorage w c.1).

Lemma contracts_spec w a h :
  contracts_wf w -> (a, h) ∈ contracts w <-> w_evm w !! CodeHashKey a = Some (farr_bytes h).
Proof.
  intros [_ Hk]. unfold contracts. rewrite list_elem_of_fmap. split.
  - intros ([k v] & [= -> ->] & [Hp Hv]%elem_of_kv_prefix_iter).
    destruct (Hk k v Hp Hv) as (a & h & -> & -> & _). unfold BytesToAddress, BytesToHash, CodeHashKey.
    by rewrite farr_of_app, farr_of_bytes.
  - intros Hv. exists (CodeHashKey a, farr_bytes h). simpl. unfold BytesToAddress, BytesToHash.
    rewrite farr_of_bytes. unfold CodeHashKey at 1. rewrite farr_of_app. split; [done|].
    apply elem_of_kv_prefix_iter. split; [by eexists|done].
Qed.

Lemma contracts_nonempty w a h : contracts_wf w -> (a, h) ∈ contracts w ->
  IsEmptyCodeHash h = false /\ Keccak256Hash (Keeper_GetCode w h) = h.
Proof.
  intros Hwf Hin. pose proof (proj1 (contracts_spec w a h Hwf) Hin) as Hv.
  destruct (cwf_key w Hwf (CodeHashKey a) (farr_bytes h)) as (a' & h' & _ & E & H); [by eexists|done|].
  apply farr_eq in E as <-. done.
Qed.

Lemma contracts_NoDup w : contracts_wf w -> NoDup (contracts w).*1.
Proof.
  intros Hwf. unfold contracts. rewrite <- list_fmap_compose.
  assert (NoDup (kv_prefix_iter (w_evm w) KeyPrefixCodeHash)) as Hnd.
  { rewrite kv_prefix_iter_perm. apply NoDup_filter, NoDup_map_to_list. }
  apply NoDup_fmap_2_strong; [|done]. intros [k1 v1] [k2 v2] H1 H2 E. simpl in E.
  apply elem_of_kv_prefix_iter in H1 as [Hp1 Hv1], H2 as [Hp2 Hv2].
  destruct (cwf_key w Hwf k1 v1 Hp1 Hv1) as (a1 & h1 & -> & -> & _).
  destruct (cwf_key w Hwf k2 v2 Hp2 Hv2) as (a2 & h2 & -> & -> & _).
  unfold BytesToAddress, CodeHashKey in E. rewrite !farr_of_app in E. subst a2. congruence.
Qed.

(** [ExportGenesis] in closed form. *)
Lemma export_accounts w acc (l : list (bytes * bytes)) :
  (forall kv, kv ∈ l -> IsEmptyCodeHash (BytesToHash kv.2) = false) ->
  iterate (fun kv t =>
    let '(stop, t') :=
      (let '(addr, codeHash) := (BytesToAddress kv.1, BytesToHash kv.2) in
       if IsEmptyCodeHash codeHash then (false, t)
       else (false, t ++ [mkGenesisAccount (Address_String addr) (Bytes2Hex (Keeper_GetCode w codeHash))
                            (GetAccountStorage w addr)])) in (negb stop, t')) l acc =
  acc ++ (export_account w <$> ((fun kv => (BytesToAddress kv.1, BytesToHash kv.2)) <$> l)).
Proof.
  revert acc. induction l as [|kv l IH]; intros acc Hl; simpl; [by rewrite app_nil_r|].
  rewrite (Hl kv) by left. simpl. rewrite IH by (intros kv' H; apply Hl; by right). by rewrite <- app_assoc.
Qed.
Lemma ExportGenesis_eq w gs :
  contracts_wf w -> ExportGenesis w = Ok gs ->
  gs_Accounts gs = export_account w <$> contracts w /\ Keeper_GetParams w = Ok (gs_Params gs).
Proof.
  intros Hwf. unfold ExportGenesis. munfold. destruct (Keeper_GetParams w) as [p| |]; [|done|done].
  intros [= <-]. split; [|done]. simpl. unfold Keeper_IterateContracts.
  apply (export_accounts w []). intros [k v] Hin. apply elem_of_kv_prefix_iter in Hin as [Hp Hv].
  destruct (cwf_key w Hwf k v Hp Hv) as (a & h & _ & -> & Hh & _). simpl. unfold BytesToHash. by rewrite farr_of_bytes.
Qed.

(** *** Import *)

Lemma GetAccountStorage_eq w a :
  GetAccountStorage w a = (fun kv => NewState kv.1 kv.2) <$> storage_entries w a.
Proof.
  unfold GetAccountStorage, Keeper_GetAccountStorage, Keeper_ForEachStorage. f_equal.
  assert (forall l acc : list (Hash * Hash), iterate (fun kv storage => (true, storage ++ [kv])) l acc = acc ++ l) as Hi.
  { induction l as [|x l IH]; intros acc; simpl; [by rewrite app_nil_r|]. by rewrite IH, <- app_assoc. }
  apply Hi.
Qed.

Lemma GetState_entry w a key v : evm_store_wf (w_evm w) -> (key, v) ∈ storage_entries w a -> Keeper_GetState w a key = v.
Proof.
  intros Hwf (bz & Hk & ->)%storage_entries_spec; [|done]. unfold Keeper_GetState, kv_get.
  fold (StateKey a (farr_bytes key)). rewrite Hk. simpl. case_decide as Hl; [|done].
  by apply nil_length_inv in Hl as ->.
Qed.

(** Everything but contract storage. *)
Definition same_but_storage w w' : Prop :=
  w' = set_evm (w_evm w') w /\ forall k, ~ KeyPrefixStorage `prefix_of` k -> w_evm w' !! k = w_evm w !! k.

Lemma StateKey_prefix a key : KeyPrefixStorage `prefix_of` StateKey a key.
Proof. unfold StateKey, AddressStoragePrefix. rewrite <- app_assoc. by eexists. Qed.

Lemma init_storage_ok w0 a (l : list (Hash * Hash)) w :
  (forall key v, (key, v) ∈ l -> Keeper_GetState w0 a key = v) ->
  exists w', init_storage a ((fun kv => NewState kv.1 kv.2) <$> l) w = (Ok tt, w') /\ same_but_storage w w' /\
    forall a' key, Keeper_GetState w' a' key =
      if decide (a' = a /\ key ∈ l.*1) then Keeper_GetState w0 a key else Keeper_GetState w a' key.
Proof.
  revert w. induction l as [|[key v] l IH]; intros w Hl.
  - exists w. split_and!; [done|split; [by destruct w|done]|]. intros a' key. rewrite decide_False; [done|].
    intros [_ H]. by apply not_elem_of_nil in H.
  - unfold init_storage. simpl. munfold. rewrite !hash_text.
    destruct (IH (Keeper_SetState w a key (farr_bytes v))) as (w' & Hrun & [Hs Hk] & Hst).
    { intros key' v' H. apply Hl. by right. }
    exists w'. split_and!; [exact Hrun|split|].
    + destruct (Keeper_SetState_rest w a key (farr_bytes v)) as [m Em]. by rewrite Hs, Em at 1.
    + intros k Hp. rewrite Hk, w_evm_SetState by done. rewrite decide_False; [done|].
      intros ->. apply Hp, StateKey_prefix.
    + intros a' key'. rewrite Hst, GetState_SetState, farr_length. simpl.
      unfold BytesToHash. rewrite farr_of_bytes.
      rewrite <- (Hl key v) by left.
      repeat case_decide; rewrite ?elem_of_cons in *; naive_solver.
Qed.

(** What has been imported into [w0] from the contracts [vis] of [w]. *)
Record imported w w0 (vis : list (Address * Hash)) w' : Prop := {
  imp_hash a : w_evm w' !! CodeHashKey a =
    if decide (a ∈ vis.*1) then w_evm w !! CodeHashKey a else None;
  imp_code c : c ∈ vis -> Keeper_GetCode w' c.2 = Keeper_GetCode w c.2;
  imp_state a key : Keeper_GetState w' a key =
    if decide (a ∈ vis.*1) then Keeper_GetState w a key else zero_hash;
  imp_rest : w' = set_evm (w_evm w') w0;
  imp_keys k : ~ KeyPrefixCodeHash `prefix_of` k -> ~ KeyPrefixCode `prefix_of` k ->
    ~ KeyPrefixStorage `prefix_of` k -> w_evm w' !! k = w_evm w0 !! k
}.

Lemma GetState_evm w w' a key :
  w_evm w' !! StateKey a (farr_bytes key) = w_evm w !! StateKey a (farr_bytes key) ->
  Keeper_GetState w' a key = Keeper_GetState w a key.
Proof. unfold Keeper_GetState, kv_get, StateKey. by intros ->. Qed.

Lemma prefix_ne (p q : byte) (k l : bytes) : p <> q -> [p] ++ k <> [q] ++ l.
Proof. intros Hne [=]. done. Qed.
Lemma not_prefix (p q : byte) (k : bytes) : p <> q -> ~ [p] `prefix_of` [q] ++ k.
Proof. intros Hne [r [= E]]. done. Qed.

(** The code hash and the code of a contract are written. *)
Lemma init_code_ok w' (a : Address) (h : Hash) (code : bytes) :
  IsEmptyCodeHash h = false -> Keccak256Hash code = h ->
  let w1 := Keeper_SetCode (Keeper_SetCodeHash w' a h) (farr_bytes h) code in
  code <> [] /\ w1 = set_evm (w_evm w1) w' /\
  forall k, w_evm w1 !! k =
    if decide (k = KeyPrefixCode ++ farr_bytes h) then Some code
    else if decide (k = CodeHashKey a) then Some (farr_bytes h) else w_evm w' !! k.
Proof.
  intros He Hh w1. assert (code <> []) as Hc.
  { intros ->. unfold IsEmptyCodeHash, EmptyCodeHash in He. rewrite Hh in He.
    rewrite (bool_decide_eq_true_2 (h = h)) in He by done. by rewrite orb_true_r in He. }
  subst w1. unfold Keeper_SetCode, Keeper_SetCodeHash. rewrite He.
  rewrite decide_False by (by intros ?%nil_length_inv). split_and!; [done|done|].
  intros k. cbn [w_evm set_evm]. unfold kv_set. rewrite !lookup_insert. unfold CodeHashKey.
  repeat case_decide; congruence.
Qed.

Lemma init_account_ok w w0 vis w' a h acc :
  contracts_wf w -> (a, h) ∈ contracts w -> a ∉ vis.*1 ->
  GetAccount (w_sdk w0) (farr_bytes a) = Some acc -> acc_kind acc = BaseAccount ->
  imported w w0 vis w' ->
  exists w'', init_account (export_account w (a, h)) w' = (Ok tt, w'') /\ imported w w0 (vis ++ [(a, h)]) w''.
Proof.
  intros Hwf Hin Hnew Hacc Hkind [Ihash Icode Istate Irest Ikeys].
  destruct (contracts_nonempty w a h Hwf Hin) as [He Hh].
  pose proof (proj1 (contracts_spec w a h Hwf) Hin) as Hstored.
  destruct (init_code_ok w' a h (Keeper_GetCode w h) He Hh) as (Hc & Hr1 & Hk1).
  set (w1 := Keeper_SetCode (Keeper_SetCodeHash w' a h) (farr_bytes h) (Keeper_GetCode w h)) in *.
  destruct (init_storage_ok w a (storage_entries w a) w1) as (w2 & Hrun & [Hr2 Hk2] & Hst2).
  { intros key v. apply GetState_entry, Hwf. }
  assert (w_sdk w' = w_sdk w0) as Hsdk by (rewrite Irest; done).
  exists w2. split.
  - unfold init_account, export_account. simpl. munfold. rewrite address_text, bytes_text, Hh, He.
    rewrite Hsdk, Hacc, Hkind. cbn [negb].
    destruct (Nat.ltb_spec 0 (length (Keeper_GetCode w h))) as [_|Hlen]; cycle 1.
    { destruct (Keeper_GetCode w h); [done|simpl in Hlen; lia]. }
    fold w1. by rewrite GetAccountStorage_eq.
  - assert (forall b, ~ KeyPrefixStorage `prefix_of` CodeHashKey b) as Hn1 by (intros b; by apply not_prefix).
    assert (forall x : Hash, ~ KeyPrefixStorage `prefix_of` KeyPrefixCode ++ farr_bytes x) as Hn2
      by (intros x; by apply not_prefix).
    split.
    + intros b. rewrite Hk2, Hk1, Ihash by done. rewrite decide_False by (by apply prefix_ne).
      rewrite fmap_app. simpl. destruct (decide (CodeHashKey b = CodeHashKey a)) as [E|E].
      * apply app_inv_head, farr_eq in E as ->. by rewrite decide_True by set_solver.
      * assert (b <> a) by congruence. destruct (decide (b ∈ vis.*1)) as [Hb|Hb];
          [by rewrite decide_True by set_solver|by rewrite decide_False by set_solver].
    + intros c Hcin. unfold Keeper_GetCode, kv_get. rewrite Hk2, Hk1 by done.
      destruct (decide (KeyPrefixCode ++ farr_bytes c.2 = KeyPrefixCode ++ farr_bytes h)) as [E|E].
      * apply app_inv_head, farr_eq in E as ->. done.
      * rewrite decide_False by (by apply prefix_ne). apply elem_of_app in Hcin as [Hcin|Hcin%list_elem_of_singleton].
        { exact (Icode c Hcin). } { subst c. done. }
    + intros b key. rewrite Hst2, fmap_app. simpl.
      rewrite (GetState_evm w' w1) by (rewrite Hk1, !decide_False; [done|by apply prefix_ne|by apply prefix_ne]).
      rewrite Istate. destruct (decide (b = a)) as [->|Hne].
      * rewrite (decide_False (P := a ∈ vis.*1)), (decide_True (P := a ∈ vis.*1 ++ [a])) by set_solver.
        case_decide as Hd; [done|]. unfold Keeper_GetState, kv_get. fold (StateKey a (farr_bytes key)).
        destruct (w_evm w !! StateKey a (farr_bytes key)) as [bz|] eqn:Ek; [|done]. destruct Hd. split; [done|].
        apply list_elem_of_fmap. exists (key, BytesToHash bz). split; [done|].
        apply storage_entries_spec; [apply Hwf|]. by exists bz.
      * rewrite decide_False by naive_solver. destruct (decide (b ∈ vis.*1)) as [Hb|Hb];
          [by rewrite decide_True by set_solver|by rewrite decide_False by set_solver].
    + etransitivity; [exact Hr2|]. assert (forall m, set_evm m w1 = set_evm m w') as -> by (intros m; by rewrite Hr1).
      rewrite Irest at 1. done.
    + intros k H1 H2 H3. rewrite Hk2, Hk1 by done. rewrite !decide_False; [by apply Ikeys| |].
      * intros ->. apply H1. by eexists.
      * intros ->. apply H2. by eexists.
Qed.

Lemma init_accounts_ok w w0 cs vis w' :
  contracts_wf w -> (forall c, c ∈ cs -> c ∈ contracts w) -> NoDup (vis ++ cs).*1 ->
  (forall a h, (a, h) ∈ cs -> exists acc, GetAccount (w_sdk w0) (farr_bytes a) = Some acc /\ acc_kind acc = BaseAccount) ->
  imported w w0 vis w' ->
  exists w'', mapM_ init_account (export_account w <$> cs) w' = (Ok tt, w'') /\ imported w w0 (vis ++ cs) w''.
Proof.
  intros Hwf. revert vis w'. induction cs as [|[a h] cs IH]; intros vis w' Hcs Hnd Hacc Himp.
  - exists w'. by rewrite app_nil_r.
  - destruct (Hacc a h) as (acc & Ha & Hk); [left|].
    rewrite fmap_app, fmap_cons in Hnd. apply NoDup_app in Hnd as Hnd2. destruct Hnd2 as (_ & Hd & _).
    destruct (init_account_ok w w0 vis w' a h acc) as (w1 & Hrun & Himp1); try done.
    { apply Hcs. left. } { intros Hin. apply (Hd a Hin). left. }
    destruct (IH (vis ++ [(a, h)]) w1) as (w2 & Hrun2 & Himp2).
    { intros c Hc. apply Hcs. by right. }
    { rewrite <- app_assoc, fmap_app. exact Hnd. }
    { intros a' h' Hin. apply (Hacc a' h'). by right. }
    { done. }
    exists w2. split; [|by rewrite <- app_assoc in Himp2]. simpl. unfold mbind, M_bind. by rewrite Hrun.
Qed.

(** Before the accounts are imported: the chain id and the parameters are stored. *)
Lemma init_header_ok (ctx : Ctx) w0 data id bz :
  Eip155ChainId_FromCosmosChainId (ctx_ChainID ctx) = Ok id -> Eip155ChainId_Validate id = Ok tt ->
  EvmParams_Validate ValidateDenom (gs_Params data) = Ok tt -> Marshal (gs_Params data) = Ok bz ->
  GetModuleAddress (S := S) EvmModuleName <> [] ->
  InitGenesis ValidateDenom ctx data w0 =
    mapM_ init_account (gs_Accounts data)
      (set_evm (kv_set (kv_set (w_evm w0) KeyEip155ChainId (Uint64ToBigEndian (wrap64 id))) KeyPrefixParams bz) w0).
Proof.
  intros Hid Hval Hp Hm Hmod. unfold InitGenesis, Keeper_WithChainID, Keeper_SetEip155ChainId, Keeper_SetParams.
  munfold. rewrite Hid, Hval, Hp, Hm. rewrite bool_decide_eq_false_2 by (by intros ?%nil_length_inv). done.
Qed.

(** C22 Import inverts export: the genesis exported from a store can be imported into a new
    chain on which the contracts' accounts exist as base accounts, the import succeeds,
    and afterwards the parameters are the same and every contract has the same code
    hash, code and storage; no other address has a code hash or storage, and the other
    modules' states are untouched. *)
Theorem genesis_round_trip {PL : CodecLaws EvmParams} (ctx : Ctx) (w w0 : World S) (gs : GenesisState) (id : Z) (bz : bytes)
  (Hwf : contracts_wf w) (Hexport : ExportGenesis w = Ok gs) (Hnew : w_evm w0 = ∅)
  (Haccounts : forall a h, (a, h) ∈ contracts w ->
     exists acc, GetAccount (w_sdk w0) (farr_bytes a) = Some acc /\ acc_kind acc = BaseAccount)
  (Hchain : Eip155ChainId_FromCosmosChainId (ctx_ChainID ctx) = Ok id /\ Eip155ChainId_Validate id = Ok tt)
  (Hparams : EvmParams_Validate ValidateDenom (gs_Params gs) = Ok tt /\ Marshal (gs_Params gs) = Ok bz /\ bz <> [])
  (Hmodule : GetModuleAddress (S := S) EvmModuleName <> []) :
  exists w', InitGenesis ValidateDenom ctx gs w0 = (Ok tt, w') /\
    w' = set_evm (w_evm w') w0 /\ Keeper_GetParams w' = Keeper_GetParams w /\
    (forall a h, (a, h) ∈ contracts w ->
       Keeper_GetCodeHash w' (farr_bytes a) = h /\ Keeper_GetCodeHash w (farr_bytes a) = h /\
       Keeper_GetCode w' h = Keeper_GetCode w h /\
       (forall key, Keeper_GetState w' a key = Keeper_GetState w a key)) /\
    (forall a, a ∉ (contracts w).*1 ->
       w_evm w' !! CodeHashKey a = None /\ (forall key, Keeper_GetState w' a key = zero_hash)).
Proof.
  destruct (ExportGenesis_eq w gs Hwf Hexport) as [Hgs Hps]. destruct Hchain as [Hid Hval], Hparams as (Hpv & Hm & Hbz).
  rewrite (init_header_ok ctx w0 gs id bz) by done. rewrite Hgs, Hnew.
  set (w1 := set_evm _ w0).
  destruct (init_accounts_ok w w1 (contracts w) [] w1) as (w' & Hrun & Himp); try done.
  { by apply contracts_NoDup. }
  { assert (forall k, ~ [prefixParams] `prefix_of` k -> ~ [prefixEip155ChainId] `prefix_of` k -> w_evm w1 !! k = None) as Hk1.
    { intros k H1 H2. unfold w1. simpl. unfold kv_set. rewrite !lookup_insert_ne, lookup_empty; [done| |]; by intros <-. }
    split; try done.
    - intros a. rewrite decide_False by set_solver. apply Hk1; by apply not_prefix.
    - by intros c Hc%not_elem_of_nil.
    - intros a key. rewrite decide_False by set_solver. unfold Keeper_GetState, kv_get.
      fold (StateKey a (farr_bytes key)). rewrite Hk1; [done|by apply not_prefix|by apply not_prefix]. }
  simpl in Himp. destruct Himp as [Ihash Icode Istate Irest Ikeys]. exists w'. split_and!; [done|by rewrite Irest at 1| | |].
  - rewrite Hps. unfold Keeper_GetParams, kv_get. rewrite Ikeys by (by apply (not_prefix _ _ [])).
    unfold w1. simpl. unfold kv_set. rewrite lookup_insert_eq. simpl.
    rewrite decide_False by (by intros ?%nil_length_inv). by rewrite (codec_round _ bz Hm).
  - intros a h Hin. assert (a ∈ (contracts w).*1) as Ha by (apply list_elem_of_fmap; by exists (a, h)).
    pose proof (proj1 (contracts_spec w a h Hwf) Hin) as Hst.
    assert (forall w2 : World S, w_evm w2 !! CodeHashKey a = Some (farr_bytes h) -> Keeper_GetCodeHash w2 (farr_bytes a) = h) as Hget.
    { intros w2 E. unfold Keeper_GetCodeHash, kv_get. fold (CodeHashKey a). rewrite E. simpl.
      rewrite farr_length. unfold BytesToHash. by rewrite farr_of_bytes. }
    split_and!; [apply Hget; by rewrite Ihash, decide_True|by apply Hget|exact (Icode (a, h) Hin)|].
    intros key. by rewrite Istate, decide_True.
  - intros a Ha. split; [by rewrite Ihash, decide_False|]. intros key. by rewrite Istate, decide_False.
Qed.

(** *** What is exported is valid *)

Lemma Storage_Validate_ok seen (s : Storage) :
  NoDup (state_Key <$> s) -> (forall st, st ∈ s -> (state_Key st ∉ seen) /\ State_Validate st = Ok tt) ->
  Storage_Validate_from seen s = Ok tt.
Proof.
  revert seen. induction s as [|st s IH]; intros seen Hnd Hs; [done|].
  rewrite fmap_cons in Hnd. apply NoDup_cons in Hnd as [Hst Hnd].
  destruct (Hs st) as [H1 H2]; [left|]. simpl. rewrite decide_False by done. rewrite H2. simpl. apply IH; [done|].
  intros st' Hin. destruct (Hs st') as [H3 H4]; [by right|]. split; [|done].
  apply not_elem_of_union. split; [|done]. apply not_elem_of_singleton. intros E. apply Hst. rewrite <- E.
  apply list_elem_of_fmap. by exists st'.
Qed.

Lemma validate_accounts_ok seen (l : list GenesisAccount) :
  NoDup (ga_Address <$> l) ->
  (forall ga, ga ∈ l -> (ga_Address ga ∉ seen) /\ GenesisAccount_Validate ga = Ok tt) ->
  validate_accounts seen l = Ok tt.
Proof.
  revert seen. induction l as [|ga l IH]; intros seen Hnd Hs; [done|].
  rewrite fmap_cons in Hnd. apply NoDup_cons in Hnd as [Hga Hnd].
  destruct (Hs ga) as [H1 H2]; [left|]. simpl. rewrite decide_False by done. rewrite H2. simpl. apply IH; [done|].
  intros ga' Hin. destruct (Hs ga') as [H3 H4]; [by right|]. split; [|done].
  apply not_elem_of_union. split; [|done]. apply not_elem_of_singleton. intros E. apply Hga. rewrite <- E.
  apply list_elem_of_fmap. by exists ga'.
Qed.

Lemma storage_entries_NoDup w a : evm_store_wf (w_evm w) -> NoDup (storage_entries w a).*1.
Proof.
  intros Hwf. unfold storage_entries. rewrite <- list_fmap_compose.
  assert (NoDup (kv_prefix_iter (w_evm w) (AddressStoragePrefix a))) as Hnd.
  { rewrite kv_prefix_iter_perm. apply NoDup_filter, NoDup_map_to_list. }
  apply NoDup_fmap_2_strong; [|done]. intros [k1 v1] [k2 v2] H1 H2 E. simpl in E.
  apply elem_of_kv_prefix_iter in H1 as [Hp1 Hv1], H2 as [Hp2 Hv2].
  assert (forall k v, AddressStoragePrefix a `prefix_of` k -> w_evm w !! k = Some v ->
    exists key : Hash, k = StateKey a (farr_bytes key)) as Hkey.
  { intros k v Hp Hv. destruct (Hwf k) as (a' & key & ->); [|by eauto|].
    - destruct Hp as [r ->]. unfold AddressStoragePrefix. rewrite <- app_assoc. by exists (farr_bytes a ++ r).
    - apply AddressStoragePrefix_of_key in Hp as <-. by exists key. }
  destruct (Hkey k1 v1 Hp1 Hv1) as [key1 ->], (Hkey k2 v2 Hp2 Hv2) as [key2 ->].
  rewrite !hash_of_StateKey in E. subst key2. congruence.
Qed.

Lemma exported_account_ok w c : evm_store_wf (w_evm w) -> GenesisAccount_Validate (export_account w c) = Ok tt.
Proof.
  intros Hwf. unfold GenesisAccount_Validate, ValidateAddress, export_account. simpl.
  rewrite address_text_hex. simpl. apply Storage_Validate_ok.
  - rewrite GetAccountStorage_eq, <- list_fmap_compose.
    assert (NoDup (Hash_String <$> (storage_entries w c.1).*1)) as Hnd.
    { apply NoDup_fmap_2; [|by apply storage_entries_NoDup]. intros h1 h2 E.
      by rewrite <- (hash_text h1), E, hash_text. }
    by rewrite <- list_fmap_compose in Hnd.
  - intros st Hin. rewrite GetAccountStorage_eq in Hin. apply list_elem_of_fmap in Hin as ([key v] & -> & _).
    split; [apply not_elem_of_empty|]. unfold State_Validate. simpl. rewrite hash_text_trimmed.
    rewrite decide_False; [done|]. intros E%(f_equal length). by rewrite hash_text_length in E.
Qed.

(** An exported genesis passes the validation of genesis files: no address and no
    storage key of an account appears twice, every address is hexadecimal and no key is
    blank. *)
Theorem exported_genesis_valid (w : World S) (gs : GenesisState)
  (Hwf : contracts_wf w) (Hexport : ExportGenesis w = Ok gs)
  (Hparams : EvmParams_Validate ValidateDenom (gs_Params gs) = Ok tt) :
  GenesisState_Validate ValidateDenom gs = Ok tt.
Proof.
  destruct (ExportGenesis_eq w gs Hwf Hexport) as [Hgs _]. unfold GenesisState_Validate.
  rewrite validate_accounts_ok; [done| |].
  - rewrite Hgs, <- list_fmap_compose.
    assert (NoDup (Address_String <$> (contracts w).*1)) as Hnd.
    { apply NoDup_fmap_2; [|by apply contracts_NoDup]. intros a1 a2 E.
      by rewrite <- (address_text a1), E, address_text. }
    by rewrite <- list_fmap_compose in Hnd.
  - intros ga Hin. split; [apply not_elem_of_empty|]. rewrite Hgs in Hin.
    apply list_elem_of_fmap in Hin as (c & -> & _). apply exported_account_ok, Hwf.
Qed.
End RoundTrip.
