(* ===== verification/AccessList.v ===== *)
(** * The EIP-2929 access list

    [AccessList2] is the chain's own access list (x/evm/vm/state_db_access_list.go);
    [accessList] is the go-ethereum one kept beside it for comparison
    (x/evm/vm/state_db_access_list_geth.go).  Both are shown to implement the same
    abstract list [aspec], a map from the addresses to their sets of slots, so they
    give the same answers on every sequence of calls; the deletions the go-ethereum
    journal makes undo the insertions exactly. *)

From stdpp Require Import base gmap list strings fin_maps.
From S2P Require Import Prelude.

(** ** The chain's access list *)

(** [map[common.Address]map[common.Hash]bool]; an inner [None] is Go's nil map. *)
Record AccessList2 : Type := mkAccessList2 {
  al_elements : gmap Address (option (gmap Hash bool))
}.

(** Reading a nil map reads an empty one. *)
Definition slots_of (o : option (gmap Hash bool)) : gmap Hash bool := default ∅ o.

Definition newAccessList2 : AccessList2 := mkAccessList2 ∅.

Definition AccessList2_ContainsAddress (al : AccessList2) (address : Address) : bool :=
  bool_decide (is_Some (al_elements al !! address)).

Definition AccessList2_Contains (al : AccessList2) (address : Address) (slot : Hash) : bool * bool :=
  match al_elements al !! address with
  | None => (false, false)
  | Some slots =>
      if decide (size (slots_of slots) = 0%nat) then (true, false)
      else (true, bool_decide (is_Some (slots_of slots !! slot)))
  end.

(** The copy of one entry: every value is reset to [false], an empty inner map
    becomes nil. *)
Definition copy_slots (existingSlots : option (gmap Hash bool)) : option (gmap Hash bool) :=
  let slots := (fun _ => false) <$> slots_of existingSlots in
  if decide (size slots = 0%nat) then None else Some slots.

Definition AccessList2_Copy (al : AccessList2) : AccessList2 :=
  mkAccessList2 (copy_slots <$> al_elements al).

Definition AccessList2_CloneElements (al : AccessList2) : gmap Address (option (gmap Hash bool)) :=
  al_elements (AccessList2_Copy al).

Definition AccessList2_AddAddress (al : AccessList2) (address : Address) : bool * AccessList2 :=
  match al_elements al !! address with
  | Some _ => (false, al)
  | None => (true, mkAccessList2 (<[address := None]> (al_elements al)))
  end.

Definition AccessList2_AddSlot (al : AccessList2) (address : Address) (slot : Hash) :
    (bool * bool) * AccessList2 :=
  match al_elements al !! address with
  | None => ((true, true), mkAccessList2 (<[address := Some {[slot := false]}]> (al_elements al)))
  | Some existingSlots =>
      if decide (size (slots_of existingSlots) = 0%nat) then
        ((false, true), mkAccessList2 (<[address := Some {[slot := false]}]> (al_elements al)))
      else if decide (is_Some (slots_of existingSlots !! slot)) then ((false, false), al)
      else ((false, true),
            mkAccessList2 (<[address := Some (<[slot := false]> (slots_of existingSlots))]>
                             (al_elements al)))
  end.

Definition AccessList2_DeleteSlot (al : AccessList2) (address : Address) (slot : Hash) :
    res AccessList2 :=
  match al_elements al !! address with
  | None => Panic (Errorf "reverting slot change, address not present in list")
  | Some existingSlots =>
      let existingSlots' := delete slot <$> existingSlots in
      if decide (size (slots_of existingSlots') = 0%nat) then
        Ok (mkAccessList2 (<[address := None]> (al_elements al)))
      else Ok (mkAccessList2 (<[address := existingSlots']> (al_elements al)))
  end.

Definition AccessList2_DeleteAddress (al : AccessList2) (address : Address) : AccessList2 :=
  mkAccessList2 (delete address (al_elements al)).

(** ** The go-ethereum access list *)

(** The index of an address without slots is -1. *)
Record accessList : Type := mkaccessList {
  addresses : gmap Address Z;
  slots : list (gset Hash)
}.

(** [al.slots[idx]] panics out of range. *)
Definition slice_get {A} (l : list A) (idx : Z) : res A :=
  if idx <? 0 then Panic IndexOutOfRange
  else match l !! Z.to_nat idx with Some x => Ok x | None => Panic IndexOutOfRange end.

Definition newAccessList : accessList := mkaccessList ∅ [].

Definition accessList_ContainsAddress (al : accessList) (address : Address) : bool :=
  bool_decide (is_Some (addresses al !! address)).

Definition accessList_Contains (al : accessList) (address : Address) (slot : Hash) : res (bool * bool) :=
  match addresses al !! address with
  | None => Ok (false, false)
  | Some idx =>
      if idx =? -1 then Ok (true, false)
      else sm ← slice_get (slots al) idx; Ok (true, bool_decide (slot ∈ sm))
  end.

Definition accessList_Copy (al : accessList) : accessList := mkaccessList (addresses al) (slots al).

Definition accessList_AddAddress (al : accessList) (address : Address) : bool * accessList :=
  match addresses al !! address with
  | Some _ => (false, al)
  | None => (true, mkaccessList (<[address := -1]> (addresses al)) (slots al))
  end.

Definition accessList_AddSlot (al : accessList) (address : Address) (slot : Hash) :
    res ((bool * bool) * accessList) :=
  let fresh addrPresent :=
    Ok ((negb addrPresent, true),
        mkaccessList (<[address := Z.of_nat (length (slots al))]> (addresses al))
                     (slots al ++ [{[slot]}])) in
  match addresses al !! address with
  | None => fresh false
  | Some idx =>
      if idx =? -1 then fresh true
      else
        slotmap ← slice_get (slots al) idx;
        if decide (slot ∈ slotmap) then Ok ((false, false), al)
        else Ok ((false, true),
                 mkaccessList (addresses al)
                   (<[Z.to_nat idx := {[slot]} ∪ slotmap]> (slots al)))
  end.

Definition accessList_DeleteSlot (al : accessList) (address : Address) (slot : Hash) : res accessList :=
  match addresses al !! address with
  | None => Panic (Errorf "reverting slot change, address not present in list")
  | Some idx =>
      slotmap ← slice_get (slots al) idx;
      let slotmap' := slotmap ∖ {[slot]} in
      if decide (size slotmap' = 0%nat) then
        Ok (mkaccessList (<[address := -1]> (addresses al)) (take (Z.to_nat idx) (slots al)))
      else Ok (mkaccessList (addresses al) (<[Z.to_nat idx := slotmap']> (slots al)))
  end.

Definition accessList_DeleteAddress (al : accessList) (address : Address) : accessList :=
  mkaccessList (delete address (addresses al)) (slots al).

(** ** The abstract list

    The addresses in the list, each with the set of its slots. *)

Abbreviation aspec := (gmap Address (gset Hash)).

Definition spec_Contains (m : aspec) (a : Address) (s : Hash) : bool * bool :=
  match m !! a with
  | None => (false, false)
  | Some ss => (true, bool_decide (s ∈ ss))
  end.
Definition spec_AddAddress (m : aspec) (a : Address) : bool * aspec :=
  match m !! a with Some _ => (false, m) | None => (true, <[a := ∅]> m) end.
Definition spec_AddSlot (m : aspec) (a : Address) (s : Hash) : (bool * bool) * aspec :=
  match m !! a with
  | None => ((true, true), <[a := {[s]}]> m)
  | Some ss =>
      if decide (s ∈ ss) then ((false, false), m)
      else ((false, true), <[a := {[s]} ∪ ss]> m)
  end.

(** The calls of an access list during execution and what they answer. *)
Inductive alop : Type :=
  | OpAddAddress (a : Address)
  | OpAddSlot (a : Address) (s : Hash)
  | OpContainsAddress (a : Address)
  | OpContains (a : Address) (s : Hash).

Definition alans : Type := (bool * bool)%type.

Definition spec_step (o : alop) (m : aspec) : res alans * aspec :=
  match o with
  | OpAddAddress a => let '(b, m') := spec_AddAddress m a in (Ok (b, false), m')
  | OpAddSlot a s => let '(b, m') := spec_AddSlot m a s in (Ok b, m')
  | OpContainsAddress a => (Ok (bool_decide (is_Some (m !! a)), false), m)
  | OpContains a s => (Ok (spec_Contains m a s), m)
  end.

Definition al2_step (o : alop) (al : AccessList2) : res alans * AccessList2 :=
  match o with
  | OpAddAddress a => let '(b, al') := AccessList2_AddAddress al a in (Ok (b, false), al')
  | OpAddSlot a s => let '(b, al') := AccessList2_AddSlot al a s in (Ok b, al')
  | OpContainsAddress a => (Ok (AccessList2_ContainsAddress al a, false), al)
  | OpContains a s => (Ok (AccessList2_Contains al a s), al)
  end.

Definition geth_step (o : alop) (al : accessList) : res alans * accessList :=
  match o with
  | OpAddAddress a => let '(b, al') := accessList_AddAddress al a in (Ok (b, false), al')
  | OpAddSlot a s =>
      match accessList_AddSlot al a s with
      | Ok (b, al') => (Ok b, al')
      | Err e => (Err e, al)
      | Panic e => (Panic e, al)
      end
  | OpContainsAddress a => (Ok (accessList_ContainsAddress al a, false), al)
  | OpContains a s => (accessList_Contains al a s, al)
  end.

Fixpoint run_calls {S} (step : alop -> S -> res alans * S) (l : list alop) (s : S) :
    list (res alans) * S :=
  match l with
  | [] => ([], s)
  | o :: l' =>
      let '(r, s1) := step o s in
      let '(rs, s2) := run_calls step l' s1 in (r :: rs, s2)
  end.

(** ** [AccessList2] implements the abstract list *)

Definition slot_set (o : option (gmap Hash bool)) : gset Hash := dom (slots_of o).
Definition abs2 (al : AccessList2) : aspec := slot_set <$> al_elements al.

Lemma abs2_lookup al a : abs2 al !! a = slot_set <$> al_elements al !! a.
Proof. unfold abs2. apply lookup_fmap. Qed.

Lemma abs2_is_some al a : is_Some (abs2 al !! a) <-> is_Some (al_elements al !! a).
Proof. rewrite abs2_lookup. apply fmap_is_Some. Qed.

Lemma size0_dom (m : gmap Hash bool) : size m = 0%nat <-> dom m =@{gset Hash} ∅.
Proof. rewrite map_size_empty_iff, dom_empty_iff_L. done. Qed.

Lemma abs2_insert al a o :
  abs2 (mkAccessList2 (<[a := o]> (al_elements al))) = <[a := slot_set o]> (abs2 al).
Proof. unfold abs2. simpl. by rewrite fmap_insert. Qed.

Lemma al2_contains_refines al a s :
  AccessList2_Contains al a s = spec_Contains (abs2 al) a s.
Proof.
  unfold AccessList2_Contains, spec_Contains. rewrite abs2_lookup.
  destruct (al_elements al !! a) as [o|]; simpl; [|done]. unfold slot_set.
  case_decide as Hs.
  - apply size0_dom in Hs. by rewrite Hs, bool_decide_eq_false_2 by set_solver.
  - f_equal. apply bool_decide_ext. by rewrite elem_of_dom.
Qed.

Lemma al2_add_address_refines al a b al' :
  AccessList2_AddAddress al a = (b, al') -> spec_AddAddress (abs2 al) a = (b, abs2 al').
Proof.
  unfold AccessList2_AddAddress, spec_AddAddress. rewrite abs2_lookup.
  destruct (al_elements al !! a) as [o|]; simpl; intros; simplify_eq; [done|].
  by rewrite abs2_insert.
Qed.

Lemma al2_add_slot_refines al a s b al' :
  AccessList2_AddSlot al a s = (b, al') -> spec_AddSlot (abs2 al) a s = (b, abs2 al').
Proof.
  unfold AccessList2_AddSlot, spec_AddSlot. rewrite abs2_lookup.
  destruct (al_elements al !! a) as [o|]; simpl.
  - case_decide as Hs; [|case_decide as Hin]; intros; simplify_eq;
      rewrite ?abs2_insert; unfold slot_set; simpl.
    + apply size0_dom in Hs. rewrite Hs, decide_False by set_solver.
      by rewrite dom_singleton_L, (right_id_L ∅ (∪)).
    + by rewrite decide_True by (by apply elem_of_dom).
    + rewrite decide_False by (by rewrite elem_of_dom). by rewrite dom_insert_L.
  - intros; simplify_eq. rewrite abs2_insert. unfold slot_set. simpl. by rewrite dom_singleton_L.
Qed.

Lemma al2_step_refines o al r al' :
  al2_step o al = (r, al') -> spec_step o (abs2 al) = (r, abs2 al').
Proof.
  destruct o as [a|a s|a|a s]; simpl.
  - destruct (AccessList2_AddAddress al a) as [b al1] eqn:E. intros; simplify_eq.
    by rewrite (al2_add_address_refines _ _ _ _ E).
  - destruct (AccessList2_AddSlot al a s) as [b al1] eqn:E. intros; simplify_eq.
    by rewrite (al2_add_slot_refines _ _ _ _ _ E).
  - intros; simplify_eq. unfold AccessList2_ContainsAddress.
    do 3 f_equal. apply bool_decide_ext, abs2_is_some.
  - intros; simplify_eq. by rewrite al2_contains_refines.
Qed.

Lemma al2_run_refines l al :
  run_calls spec_step l (abs2 al) =
  (fst (run_calls al2_step l al), abs2 (snd (run_calls al2_step l al))).
Proof.
  revert al. induction l as [|o l IH]; intros al; simpl; [done|].
  destruct (al2_step o al) as [r al1] eqn:E.
  rewrite (al2_step_refines _ _ _ _ E), IH.
  by destruct (run_calls al2_step l al1).
Qed.

(** ** The go-ethereum list implements the abstract list *)

Definition geth_slots (al : accessList) (idx : Z) : gset Hash :=
  if idx =? -1 then ∅ else default ∅ (slots al !! Z.to_nat idx).

Definition abs_geth (al : accessList) : aspec := geth_slots al <$> addresses al.

(** Every index is -1 or in range, no two addresses share one, and no slot map is
    empty. *)
Record geth_wf (al : accessList) : Prop := {
  geth_range a idx : addresses al !! a = Some idx ->
    idx = -1 \/ 0 <= idx < Z.of_nat (length (slots al));
  geth_inj a b idx : addresses al !! a = Some idx -> addresses al !! b = Some idx ->
    idx <> -1 -> a = b;
  geth_ne i sm : slots al !! i = Some sm -> sm <> ∅
}.

Lemma slice_get_ok {A} (l : list A) idx :
  0 <= idx < Z.of_nat (length l) -> exists x, slice_get l idx = Ok x /\ l !! Z.to_nat idx = Some x.
Proof.
  intros H. unfold slice_get. destruct (Z.ltb_spec idx 0); [lia|].
  destruct (lookup_lt_is_Some_2 l (Z.to_nat idx)) as [x Hx]; [lia|].
  rewrite Hx. eauto.
Qed.

Lemma abs_geth_lookup al a : abs_geth al !! a = geth_slots al <$> addresses al !! a.
Proof. apply lookup_fmap. Qed.

Lemma geth_wf_new : geth_wf newAccessList.
Proof. split; simpl; intros *; rewrite ?lookup_empty, ?lookup_nil; done. Qed.

Lemma geth_contains_refines al a s :
  geth_wf al -> accessList_Contains al a s = Ok (spec_Contains (abs_geth al) a s).
Proof.
  intros [Hr _ _]. unfold accessList_Contains, spec_Contains.
  rewrite abs_geth_lookup. destruct (addresses al !! a) as [idx|] eqn:Ha; simpl; [|done].
  unfold geth_slots. destruct (Z.eqb_spec idx (-1)) as [->|Hne]; [done|].
  destruct (Hr _ _ Ha) as [|Hlt]; [done|].
  destruct (slice_get_ok _ _ Hlt) as (sm & Hg & Hs). rewrite Hg, Hs. done.
Qed.

(** Appending a slot map does not change what the other addresses see. *)
Lemma geth_slots_app al idx addrs sm :
  idx = -1 \/ 0 <= idx < Z.of_nat (length (slots al)) ->
  geth_slots (mkaccessList addrs (slots al ++ sm)) idx = geth_slots al idx.
Proof.
  intros [->|Hlt]; [done|]. unfold geth_slots; simpl.
  destruct (Z.eqb_spec idx (-1)); [done|]. by rewrite lookup_app_l by lia.
Qed.

Lemma abs_geth_fresh al a s :
  geth_wf al ->
  abs_geth (mkaccessList (<[a := Z.of_nat (length (slots al))]> (addresses al))
                         (slots al ++ [{[s]}])) = <[a := {[s]}]> (abs_geth al).
Proof.
  intros [Hr _ _]. apply map_eq. intros b. rewrite abs_geth_lookup. simpl.
  destruct (decide (a = b)) as [<-|Hne].
  - rewrite !lookup_insert_eq. simpl. f_equal. unfold geth_slots; simpl.
    destruct (Z.eqb_spec (Z.of_nat (length (slots al))) (-1)); [lia|].
    rewrite Nat2Z.id, lookup_app_r, Nat.sub_diag by lia. done.
  - rewrite !lookup_insert_ne, abs_geth_lookup by done.
    destruct (addresses al !! b) as [idx|] eqn:Hb; simpl; [|done].
    f_equal. apply geth_slots_app. eauto.
Qed.

Lemma abs_geth_grow al a idx s sm :
  geth_wf al -> addresses al !! a = Some idx -> idx <> -1 ->
  slots al !! Z.to_nat idx = Some sm ->
  abs_geth (mkaccessList (addresses al) (<[Z.to_nat idx := {[s]} ∪ sm]> (slots al))) =
  <[a := {[s]} ∪ sm]> (abs_geth al).
Proof.
  intros [Hr Hi _] Ha Hidx Hsm. apply map_eq. intros b. rewrite abs_geth_lookup. simpl.
  pose proof (lookup_lt_Some _ _ _ Hsm) as Hlt.
  destruct (decide (a = b)) as [<-|Hne].
  - rewrite lookup_insert_eq, Ha. simpl. f_equal. unfold geth_slots; simpl.
    destruct (Z.eqb_spec idx (-1)); [done|].
    by rewrite list_lookup_insert_eq.
  - rewrite lookup_insert_ne, abs_geth_lookup by done.
    destruct (addresses al !! b) as [i|] eqn:Hb; simpl; [|done]. f_equal.
    unfold geth_slots; simpl. destruct (Z.eqb_spec i (-1)); [done|].
    rewrite list_lookup_insert_ne; [done|].
    destruct (Hr _ _ Hb) as [|Hi1], (Hr _ _ Ha) as [|Hi2]; try done.
    intros E. assert (i = idx) as -> by lia. destruct Hne. by eapply Hi.
Qed.

Lemma geth_wf_fresh al a s :
  geth_wf al ->
  geth_wf (mkaccessList (<[a := Z.of_nat (length (slots al))]> (addresses al))
                        (slots al ++ [{[s]}])).
Proof.
  intros [Hr Hi Hn]. split; simpl.
  - intros b idx. rewrite length_app, lookup_insert. simpl.
    case_decide; intros Hb; simplify_eq; [lia|]. destruct (Hr _ _ Hb); lia.
  - intros b c idx. rewrite !lookup_insert. repeat case_decide; intros Hb Hc Hne; simplify_eq; try done.
    + destruct (Hr _ _ Hc); lia.
    + destruct (Hr _ _ Hb); lia.
    + by eapply Hi.
  - intros i sm [Hi'|[? Hsm]]%lookup_app_Some; [by eapply Hn|].
    apply list_lookup_singleton_Some in Hsm as [_ <-]. set_solver.
Qed.

Lemma geth_add_slot_refines al a s :
  geth_wf al -> exists b al', accessList_AddSlot al a s = Ok (b, al') /\ geth_wf al' /\
    spec_AddSlot (abs_geth al) a s = (b, abs_geth al').
Proof.
  intros Hwf. unfold accessList_AddSlot, spec_AddSlot. rewrite abs_geth_lookup.
  destruct (addresses al !! a) as [idx|] eqn:Ha; simpl.
  2:{ eexists _, _. split; [done|]. split; [by apply geth_wf_fresh|]. by rewrite abs_geth_fresh. }
  unfold geth_slots. destruct (Z.eqb_spec idx (-1)) as [->|Hne]; simpl.
  { eexists _, _. split; [done|]. split; [by apply geth_wf_fresh|].
    rewrite decide_False by set_solver.
    by rewrite abs_geth_fresh, (right_id_L ∅ (∪)). }
  destruct (geth_range _ Hwf _ _ Ha) as [|Hlt]; [done|].
  destruct (slice_get_ok _ _ Hlt) as (sm & Hg & Hs). rewrite Hg, Hs. simpl.
  case_decide; [by eauto|]. eexists _, _. split; [done|]. split.
  - destruct Hwf as [Hr Hi Hn]. split; simpl; [|done|].
    + intros b i Hb. rewrite length_insert. eauto.
    + intros i sm' [(<- & <- & _)|[_ Hsm]]%list_lookup_insert_Some; [set_solver|by eapply Hn].
  - by erewrite abs_geth_grow.
Qed.

Lemma geth_add_address_refines al a b al' :
  geth_wf al -> accessList_AddAddress al a = (b, al') ->
  geth_wf al' /\ spec_AddAddress (abs_geth al) a = (b, abs_geth al').
Proof.
  intros [Hr Hi Hn]. unfold accessList_AddAddress, spec_AddAddress. rewrite abs_geth_lookup.
  destruct (addresses al !! a) as [idx|] eqn:Ha; simpl; intros; simplify_eq; [done|].
  split; [split; simpl|].
  - intros b idx. rewrite lookup_insert. case_decide; intros; simplify_eq; eauto.
  - intros b c idx. rewrite !lookup_insert. repeat case_decide; intros; simplify_eq; eauto.
  - done.
  - f_equal. apply map_eq. intros b. rewrite abs_geth_lookup. simpl.
    rewrite !lookup_insert. case_decide; [done|]. by rewrite abs_geth_lookup.
Qed.

Lemma geth_step_refines o al r al' :
  geth_wf al -> geth_step o al = (r, al') ->
  geth_wf al' /\ spec_step o (abs_geth al) = (r, abs_geth al').
Proof.
  intros Hwf. destruct o as [a|a s|a|a s]; simpl.
  - destruct (accessList_AddAddress al a) as [b al1] eqn:E. intros; simplify_eq.
    destruct (geth_add_address_refines _ _ _ _ Hwf E) as [? ->]. done.
  - destruct (geth_add_slot_refines al a s Hwf) as (b & al1 & -> & Hwf' & ->).
    intros; simplify_eq. done.
  - intros; simplify_eq. split; [done|]. unfold accessList_ContainsAddress.
    do 3 f_equal. apply bool_decide_ext. rewrite abs_geth_lookup. apply fmap_is_Some.
  - intros; simplify_eq. by rewrite geth_contains_refines.
Qed.

Lemma geth_run_refines l al :
  geth_wf al ->
  run_calls spec_step l (abs_geth al) =
  (fst (run_calls geth_step l al), abs_geth (snd (run_calls geth_step l al))).
Proof.
  revert al. induction l as [|o l IH]; intros al Hwf; simpl; [done|].
  destruct (geth_step o al) as [r al1] eqn:E.
  destruct (geth_step_refines _ _ _ _ Hwf E) as [Hwf1 ->].
  rewrite (IH _ Hwf1). by destruct (run_calls geth_step l al1).
Qed.

(** The specification never fails, so neither do the implementations. *)
Lemma spec_run_ok l m : Forall (fun r => is_ok r = true) (fst (run_calls spec_step l m)).
Proof.
  revert m. induction l as [|o l IH]; intros m; simpl; [done|].
  destruct (spec_step o m) as [r m1] eqn:E.
  destruct (run_calls spec_step l m1) as [rs m2] eqn:E2. simpl. constructor.
  - destruct o; simpl in E; repeat case_match; simplify_eq; done.
  - specialize (IH m1). by rewrite E2 in IH.
Qed.

(** ** Undoing insertions

    go-ethereum's journal deletes what an insertion reported as changed, in the
    reverse order.  [al_undo] are the deletions for the flags an [AddSlot] returned. *)

Definition al2_wf (al : AccessList2) : Prop :=
  forall a o, al_elements al !! a = Some (Some o) -> o <> ∅ /\ (fun _ => false) <$> o = o.

Definition AccessList2_undo (al : AccessList2) (a : Address) (s : Hash) (change : bool * bool) :
    res AccessList2 :=
  al1 ← (if change.2 then AccessList2_DeleteSlot al a s else Ok al);
  Ok (if change.1 then AccessList2_DeleteAddress al1 a else al1).

Definition accessList_undo (al : accessList) (a : Address) (s : Hash) (change : bool * bool) :
    res accessList :=
  al1 ← (if change.2 then accessList_DeleteSlot al a s else Ok al);
  Ok (if change.1 then accessList_DeleteAddress al1 a else al1).

Lemma al2_wf_insert al a o :
  al2_wf al -> (forall m, o = Some m -> m <> ∅ /\ (fun _ => false) <$> m = m) ->
  al2_wf (mkAccessList2 (<[a := o]> (al_elements al))).
Proof.
  intros Hwf Ho b m. simpl. rewrite lookup_insert. case_decide; intros Hb; simplify_eq; eauto.
Qed.

Lemma al2_wf_step o al r al' : al2_wf al -> al2_step o al = (r, al') -> al2_wf al'.
Proof.
  intros Hwf. destruct o as [a|a s|a|a s]; simpl; [| |by intros; simplify_eq..].
  - unfold AccessList2_AddAddress.
    destruct (al_elements al !! a); intros; simplify_eq; [done|].
    apply al2_wf_insert; [done|]. by intros m [=].
  - unfold AccessList2_AddSlot.
    destruct (al_elements al !! a) as [o|] eqn:E; repeat case_decide; intros; simplify_eq; try done;
      (apply al2_wf_insert; [done|]; intros m [= <-]; split;
       [first [by apply insert_non_empty | by apply map_non_empty_singleton]|]).
    + by rewrite map_fmap_singleton.
    + rewrite fmap_insert. f_equal. destruct o as [o|]; simpl in *; [|done]. by apply (Hwf a).
    + by rewrite map_fmap_singleton.
Qed.

Lemma al2_wf_copy al : al2_wf al -> AccessList2_Copy al = al.
Proof.
  intros Hwf. destruct al as [m]. unfold AccessList2_Copy. simpl. f_equal.
  apply map_eq. intros a. rewrite lookup_fmap.
  destruct (m !! a) as [[o|]|] eqn:E; simpl; [|done|done].
  destruct (Hwf a o E) as [Hne Hf]. unfold copy_slots. simpl. rewrite Hf.
  case_decide as Hs; [|done]. by apply map_size_empty_iff in Hs.
Qed.

Lemma al2_undo_add_slot al a s b al' :
  al2_wf al -> AccessList2_AddSlot al a s = (b, al') -> AccessList2_undo al' a s b = Ok al.
Proof.
  intros Hwf. destruct al as [m]. unfold AccessList2_AddSlot, AccessList2_undo. simpl.
  destruct (m !! a) as [o|] eqn:E; repeat case_decide; intros; simplify_eq; simpl; try done;
    unfold AccessList2_DeleteSlot; simpl; rewrite lookup_insert_eq; simpl.
  - rewrite delete_singleton_eq, map_size_empty. simpl. do 2 f_equal.
    rewrite insert_insert_eq. apply insert_id. rewrite E. f_equal.
    destruct o as [o|]; [|done]. destruct (Hwf a o E) as [Hne _].
    by apply map_size_empty_iff in H.
  - destruct o as [o|]; simpl in *; [|done].
    rewrite delete_insert_id by (by apply eq_None_not_Some).
    case_decide; [done|]. simpl. do 2 f_equal. rewrite insert_insert_eq. by apply insert_id.
  - rewrite delete_singleton_eq, map_size_empty. simpl. do 2 f_equal.
    unfold AccessList2_DeleteAddress. simpl. rewrite insert_insert_eq, delete_insert_id by done. done.
Qed.

Lemma geth_undo_add_slot al a s b al' :
  geth_wf al -> accessList_AddSlot al a s = Ok (b, al') -> accessList_undo al' a s b = Ok al.
Proof.
  intros Hwf. destruct al as [ads sl]. unfold accessList_AddSlot, accessList_undo. simpl.
  assert (forall x, accessList_DeleteSlot
    (mkaccessList (<[a := Z.of_nat (length sl)]> x) (sl ++ [{[s]}])) a s =
    Ok (mkaccessList (<[a := -1]> x) sl)) as Hfresh.
  { intros x. unfold accessList_DeleteSlot. simpl. rewrite lookup_insert_eq.
    unfold slice_get. destruct (Z.ltb_spec (Z.of_nat (length sl)) 0); [lia|].
    rewrite Nat2Z.id, lookup_app_r, Nat.sub_diag by lia. unfold mbind, res_bind.
    cbn [lookup list_lookup]. case_decide as Hc; [|destruct Hc; apply size_empty_iff; set_solver].
    by rewrite insert_insert_eq, take_app_length. }
  destruct (ads !! a) as [idx|] eqn:Ha.
  2:{ intros; simplify_eq/=. rewrite Hfresh. simpl. unfold accessList_DeleteAddress. simpl.
      by rewrite delete_insert_id. }
  destruct (Z.eqb_spec idx (-1)) as [->|Hne].
  { intros; simplify_eq/=. rewrite Hfresh. simpl. by rewrite insert_id. }
  destruct (geth_range _ Hwf a idx Ha) as [|Hlt]; [done|]. simpl in Hlt.
  destruct (slice_get_ok _ _ Hlt) as (sm & Hg & Hs). rewrite Hg. simpl.
  case_decide; intros; simplify_eq/=; [done|].
  unfold accessList_DeleteSlot. simpl. rewrite Ha.
  unfold slice_get. destruct (Z.ltb_spec idx 0); [lia|].
  rewrite list_lookup_insert_eq by lia. unfold mbind, res_bind.
  replace (({[s]} ∪ sm) ∖ {[s]}) with sm by set_solver.
  case_decide as Hsz; [apply size_empty_iff, leibniz_equiv in Hsz; by eapply geth_ne in Hsz|].
  do 2 f_equal. rewrite list_insert_insert_eq. by apply list_insert_id.
Qed.

(** Lists built by calls from the empty list are well formed. *)
Lemma al2_run_wf l al : al2_wf al -> al2_wf (snd (run_calls al2_step l al)).
Proof.
  revert al. induction l as [|o l IH]; intros al Hwf; simpl; [done|].
  destruct (al2_step o al) as [r al1] eqn:E.
  specialize (IH al1 (al2_wf_step _ _ _ _ Hwf E)). by destruct (run_calls al2_step l al1).
Qed.

Lemma geth_run_wf l al : geth_wf al -> geth_wf (snd (run_calls geth_step l al)).
Proof.
  revert al. induction l as [|o l IH]; intros al Hwf; simpl; [done|].
  destruct (geth_step o al) as [r al1] eqn:E.
  specialize (IH al1 (proj1 (geth_step_refines _ _ _ _ Hwf E))). by destruct (run_calls geth_step l al1).
Qed.

Lemma al2_wf_new : al2_wf newAccessList2.
Proof. intros a o. simpl. by rewrite lookup_empty. Qed.

(** On every sequence of insertions and queries from the empty list,
    [AccessList2] and go-ethereum's [accessList] give the same answers, call by
    call, and neither panics. *)
Theorem access_lists_agree l :
  fst (run_calls al2_step l newAccessList2) = fst (run_calls geth_step l newAccessList) /\
  Forall (fun r => is_ok r = true) (fst (run_calls al2_step l newAccessList2)).
Proof.
  assert (abs2 newAccessList2 = abs_geth newAccessList) as E0
    by (unfold abs2, abs_geth; simpl; by rewrite !fmap_empty).
  pose proof (al2_run_refines l newAccessList2) as E2.
  pose proof (geth_run_refines l newAccessList geth_wf_new) as Eg.
  pose proof (spec_run_ok l (abs2 newAccessList2)) as Hok.
  rewrite E2 in Hok. rewrite <- E0, E2 in Eg. simplify_eq/=. done.
Qed.

(** For every list built by calls, both access lists report the same change
    flags for an [AddSlot], and making the deletions the flags ask for, in reverse
    order, gives back exactly the list before the call. *)
Theorem access_list_journal_undo l a s :
  let al := snd (run_calls al2_step l newAccessList2) in
  let gl := snd (run_calls geth_step l newAccessList) in
  exists change al' gl',
    AccessList2_AddSlot al a s = (change, al') /\
    accessList_AddSlot gl a s = Ok (change, gl') /\
    AccessList2_undo al' a s change = Ok al /\
    accessList_undo gl' a s change = Ok gl /\
    AccessList2_Copy al = al.
Proof.
  intros al gl.
  assert (al2_wf al) as Hwf2 by apply al2_run_wf, al2_wf_new.
  assert (geth_wf gl) as Hwfg by apply geth_run_wf, geth_wf_new.
  assert (abs2 al = abs_geth gl) as E.
  { pose proof (al2_run_refines l newAccessList2) as E2.
    pose proof (geth_run_refines l newAccessList geth_wf_new) as Eg.
    replace (abs_geth newAccessList) with (abs2 newAccessList2) in Eg
      by (unfold abs2, abs_geth; simpl; by rewrite !fmap_empty).
    rewrite E2 in Eg. by simplify_eq. }
  destruct (AccessList2_AddSlot al a s) as [b al'] eqn:E2.
  destruct (geth_add_slot_refines gl a s Hwfg) as (b' & gl' & Eg & _ & Hg).
  pose proof (al2_add_slot_refines _ _ _ _ _ E2) as H2. rewrite E, Hg in H2. simplify_eq.
  eexists _, al', gl'. split_and!; [done|exact Eg| | |].
  - by apply al2_undo_add_slot.
  - by apply geth_undo_add_slot.
  - by apply al2_wf_copy.
Qed.

(** The two lists differ on one deletion: for an address that is present
    without slots [AccessList2.DeleteSlot] succeeds and changes nothing, while
    go-ethereum's indexes its slot slice with -1 and panics. *)
Theorem delete_slot_without_slots_differs a s :
  AccessList2_DeleteSlot (snd (AccessList2_AddAddress newAccessList2 a)) a s =
    Ok (snd (AccessList2_AddAddress newAccessList2 a)) /\
  accessList_DeleteSlot (snd (accessList_AddAddress newAccessList a)) a s =
    Panic IndexOutOfRange.
Proof.
  unfold AccessList2_AddAddress, accessList_AddAddress. simpl. rewrite !lookup_empty. simpl.
  unfold AccessList2_DeleteSlot, accessList_DeleteSlot. simpl.
  rewrite !lookup_insert_eq. simpl. rewrite map_size_empty, insert_insert_eq. done.
Qed.
