(* ===== verification/StateDB.v ===== *)
(** * The context-based StateDB

    [cStateDb] (x/evm/vm/state_db.go) is the EVM's view of the chain: balances in the
    bank, nonces in the account store, code and storage in the EVM store.  It keeps
    the writes of a transaction in a stack of cache branches of the original context,
    one per snapshot (state_db_snapshot.go), beside the revertible in-memory fields.

    The operations on the current branch are computations over [Live], what the
    StateDB sees at one moment; [cStateDb] runs them through its current context. *)

From stdpp Require Import base gmap list strings.
From S2P Require Import Prelude Sdk Geth EvmTypes EvmStore AccessList.

(** ** Trackers, transient storage and logs *)

Abbreviation AccountTracker := (gmap (farr 20) bool).
Definition newAccountTracker : AccountTracker := ∅.
Definition AccountTracker_Add (t : AccountTracker) (addr : Address) : AccountTracker :=
  <[addr := false]> t.
Definition AccountTracker_Has (t : AccountTracker) (addr : Address) : bool :=
  bool_decide (is_Some (t !! addr)).
Definition AccountTracker_Delete (t : AccountTracker) (addr : Address) : AccountTracker :=
  delete addr t.
(** A new map filled entry by entry. *)
Definition AccountTracker_Copy (t : AccountTracker) : AccountTracker :=
  map_fold (fun k v tracker => <[k := v]> tracker) ∅ t.

Abbreviation TransientStorage := (gmap (farr 20) (gmap (farr 32) (farr 32))).
Definition newTransientStorage : TransientStorage := ∅.
Definition transientStorage_Set (t : TransientStorage) (addr : Address) (key value : Hash) :
    TransientStorage :=
  let t := match t !! addr with None => <[addr := ∅]> t | Some _ => t end in
  <[addr := <[key := value]> (default ∅ (t !! addr))]> t.
Definition transientStorage_Get (t : TransientStorage) (addr : Address) (key : Hash) : Hash :=
  match t !! addr with
  | None => zero_hash
  | Some val => default zero_hash (val !! key)
  end.
Definition transientStorage_Copy (t : TransientStorage) : TransientStorage :=
  map_fold (fun k v storage => <[k := map_fold (fun k v c => <[k := v]> c) ∅ v]> storage) ∅ t.
Definition transientStorage_Size (t : TransientStorage) : nat := size t.

(** A nil slice and an empty one are both []. *)
Definition Logs_Copy (l : list Log) : list Log := take (length l) l.

(** ** The revertible fields *)

Record Rev : Type := mkRev {
  touched : AccountTracker;
  refund : Z;
  selfDestructed : AccountTracker;
  rv_accessList : AccessList2;
  logs : list Log;
  transientStorage : TransientStorage
}.

Definition newRev : Rev :=
  mkRev newAccountTracker 0 newAccountTracker newAccessList2 [] newTransientStorage.

(** The copies a snapshot makes of them, and a revert again. *)
Definition copy_rev (r : Rev) : Rev :=
  mkRev (AccountTracker_Copy (touched r)) (refund r) (AccountTracker_Copy (selfDestructed r))
    (AccessList2_Copy (rv_accessList r)) (Logs_Copy (logs r)) (transientStorage_Copy (transientStorage r)).

(** What the StateDB was built with. *)
Record SdbEnv : Type := mkSdbEnv {
  coinbase : Address;
  evmDenom : string;
  chainConfig : EthChainConfig;
  env_BlockHeight : Z
}.

Section StateDb.
Context {S : Type} {K : SdkKeepers S} {G : Geth}.

Record Live : Type := mkLive {
  l_world : World S;
  l_rev : Rev
}.

Definition on_world (f : World S -> World S) (l : Live) : Live := mkLive (f (l_world l)) (l_rev l).
Definition on_rev (f : Rev -> Rev) (l : Live) : Live := mkLive (l_world l) (f (l_rev l)).
Definition on_sdk (f : S -> S) (l : Live) : Live := on_world (fun w => set_sdk (f (w_sdk w)) w) l.
(** A bank operation: its error comes back as a value. *)
Definition bank (f : S -> res S) : M Live unit :=
  run_upd (fun l => s ← f (w_sdk (l_world l)); Ok (on_world (set_sdk s) l)).

Definition touch (a : Address) : M Live unit :=
  modify (on_rev (fun r => mkRev (AccountTracker_Add (touched r) a) (refund r) (selfDestructed r)
                             (rv_accessList r) (logs r) (transientStorage r))).

(** CheckIfAccountIsSuitableForDestroying; [now] is the clock of the machine. *)
Definition CheckIfAccountIsSuitableForDestroying (now : Z) (account : Account) : bool :=
  match acc_kind account with
  | ModuleAccount => false
  | BaseVestingAccount endTime => negb (now <? endTime)
  | OtherVestingAccount endTime => negb (now <? endTime)
  | BaseAccount => true
  end.

Definition createAccountIfNotExists (address : Address) : M Live unit := fun l =>
  if HasAccount (w_sdk (l_world l)) (farr_bytes address) then (Ok tt, l)
  else
    let '(accountI, s) := NewAccountWithAddress (w_sdk (l_world l)) (farr_bytes address) in
    (Ok tt, on_world (set_sdk (SetAccount s accountI)) l).

Definition burnCoins (accAddr : bytes) (coins : Coins) : M Live unit :=
  if Coins_IsZero coins then mret tt
  else
    or_panic ErrEngineFailure (bank (fun s => SendCoinsFromAccountToModule s accAddr EvmModuleName coins)) ;;
    or_panic ErrEngineFailure (bank (fun s => BurnCoins s EvmModuleName coins)).

Definition mintCoins (accAddr : bytes) (coins : Coins) : M Live unit :=
  if Coins_IsZero coins then mret tt
  else
    or_panic ErrEngineFailure (bank (fun s => MintCoins s EvmModuleName coins)) ;;
    or_panic ErrEngineFailure (bank (fun s => SendCoinsFromModuleToAccount s EvmModuleName accAddr coins)).

Definition cStateDb_DestroyAccount (now : Z) (addr : Address) : M Live unit :=
  acc ← gets (fun l => GetAccount (w_sdk (l_world l)) (farr_bytes addr));
  match acc with
  | Some acc =>
      must (CheckIfAccountIsSuitableForDestroying now acc) ErrLogic ;;
      modify (on_sdk (fun s => RemoveAccount s acc))
  | None => mret tt
  end ;;
  existingBalances ← gets (fun l => GetAllBalances (w_sdk (l_world l)) (farr_bytes addr));
  (if Coins_IsZero existingBalances then mret tt else burnCoins (farr_bytes addr) existingBalances) ;;
  modify (on_world (fun w => Keeper_DeleteCodeHash w (farr_bytes addr))) ;;
  modify (on_world (fun w =>
    Keeper_ForEachStorage w addr (fun kv w' => (true, Keeper_SetState w' addr kv.1 [])) w)).

Definition cStateDb_CreateAccount (now : Z) (address : Address) : M Live unit :=
  touch address ;;
  existingBalance ← gets (fun l => GetAllBalances (w_sdk (l_world l)) (farr_bytes address));
  cStateDb_DestroyAccount now address ;;
  createAccountIfNotExists address ;;
  if Coins_IsZero existingBalance then mret tt else mintCoins (farr_bytes address) existingBalance.

Definition cStateDb_SubBalance (env : SdbEnv) (address : Address) (b : Z) : M Live unit :=
  touch address ;;
  if Z.sgn b =? 0 then mret tt
  else
    amount ← lift_res (NewIntFromBigInt b);
    coinsToBurn ← lift_res (NewCoins1 (evmDenom env) amount);
    burnCoins (farr_bytes address) coinsToBurn.

Definition cStateDb_AddBalance (env : SdbEnv) (address : Address) (b : Z) : M Live unit :=
  touch address ;;
  if Z.sgn b =? 0 then mret tt
  else
    amount ← lift_res (NewIntFromBigInt b);
    coinsToMint ← lift_res (NewCoins1 (evmDenom env) amount);
    mintCoins (farr_bytes address) coinsToMint.

Definition cStateDb_GetBalance (env : SdbEnv) (address : Address) (l : Live) : Z :=
  GetBalance (w_sdk (l_world l)) (farr_bytes address) (evmDenom env).

Definition cStateDb_GetNonce (address : Address) (l : Live) : Z :=
  match GetAccount (w_sdk (l_world l)) (farr_bytes address) with
  | None => 0
  | Some acc => acc_sequence acc
  end.

Definition cStateDb_SetNonce (address : Address) (n : Z) : M Live unit :=
  touch address ;;
  createAccountIfNotExists address ;;
  has ← gets (fun l => HasAccount (w_sdk (l_world l)) (farr_bytes address));
  must has ErrEngineFailure ;;
  acc ← gets (fun l => GetAccount (w_sdk (l_world l)) (farr_bytes address));
  match acc with
  | None => panic NilDereference
  | Some acc => modify (on_sdk (fun s => SetAccount s (with_sequence n acc)))
  end.

Definition cStateDb_GetCodeHash (address : Address) (l : Live) : Hash :=
  Keeper_GetCodeHash (l_world l) (farr_bytes address).
Definition cStateDb_GetCode (address : Address) (l : Live) : bytes :=
  Keeper_GetCode (l_world l) (cStateDb_GetCodeHash address l).
Definition cStateDb_GetCodeSize (address : Address) (l : Live) : Z :=
  Z.of_nat (length (cStateDb_GetCode address l)).

Definition computeCodeHash (code : bytes) : Hash :=
  if decide (length code = 0%nat) then EmptyCodeHash else Keccak256Hash code.

Definition cStateDb_SetCode (address : Address) (code : bytes) : M Live unit :=
  touch address ;;
  createAccountIfNotExists address ;;
  let codeHash := computeCodeHash code in
  modify (on_world (fun w => Keeper_SetCode w (farr_bytes codeHash) code)) ;;
  modify (on_world (fun w => Keeper_SetCodeHash w address codeHash)).

Definition set_refund (n : Z) (r : Rev) : Rev :=
  mkRev (touched r) n (selfDestructed r) (rv_accessList r) (logs r) (transientStorage r).

Definition cStateDb_AddRefund (gas : Z) : M Live unit :=
  old ← gets (fun l => refund (l_rev l));
  let newRefund := add64 old gas in
  must (negb (newRefund <? gas)) ErrEngineFailure ;;
  modify (on_rev (set_refund newRefund)).

Definition cStateDb_SubRefund (gas : Z) : M Live unit :=
  old ← gets (fun l => refund (l_rev l));
  must (negb (old <? gas)) ErrEngineFailure ;;
  modify (on_rev (set_refund (sub64 old gas))).

Definition cStateDb_GetRefund (l : Live) : Z := refund (l_rev l).

(** [orig] is what the original context reads. *)
Definition cStateDb_GetCommittedState (orig : World S) (address : Address) (hash : Hash) (l : Live) : Hash :=
  match GetAccount (w_sdk (l_world l)) (farr_bytes address) with
  | None => zero_hash
  | Some accountAtCurrentCtx =>
      match GetAccount (w_sdk orig) (farr_bytes address) with
      | None => zero_hash
      | Some accountAtOriginalCtx =>
          if acc_number accountAtCurrentCtx =? acc_number accountAtOriginalCtx
          then Keeper_GetState orig address hash else zero_hash
      end
  end.

Definition cStateDb_GetState (address : Address) (hash : Hash) (l : Live) : Hash :=
  Keeper_GetState (l_world l) address hash.

Definition cStateDb_SetState (address : Address) (key value : Hash) : M Live unit :=
  touch address ;;
  createAccountIfNotExists address ;;
  modify (on_world (fun w => Keeper_SetState w address key (farr_bytes value))).

Definition cStateDb_GetTransientState (addr : Address) (key : Hash) (l : Live) : Hash :=
  transientStorage_Get (transientStorage (l_rev l)) addr key.
Definition cStateDb_SetTransientState (addr : Address) (key value : Hash) : M Live unit :=
  modify (on_rev (fun r => mkRev (touched r) (refund r) (selfDestructed r) (rv_accessList r) (logs r)
                             (transientStorage_Set (transientStorage r) addr key value))).

Definition cStateDb_Suicide (env : SdbEnv) (address : Address) : M Live bool :=
  touch address ;;
  account ← gets (fun l => GetAccount (w_sdk (l_world l)) (farr_bytes address));
  match account with
  | None => mret false
  | Some _ =>
      modify (on_rev (fun r => mkRev (touched r) (refund r) (AccountTracker_Add (selfDestructed r) address)
                                 (rv_accessList r) (logs r) (transientStorage r))) ;;
      currentBalance ← gets (cStateDb_GetBalance env address);
      (if currentBalance =? 0 then mret tt else cStateDb_SubBalance env address currentBalance) ;;
      mret true
  end.

Definition cStateDb_HasSuicided (address : Address) (l : Live) : bool :=
  AccountTracker_Has (selfDestructed (l_rev l)) address.

Definition cStateDb_Selfdestruct6780 (env : SdbEnv) (orig : World S) (address : Address) : M Live unit :=
  accountAtCurrentCtx ← gets (fun l => GetAccount (w_sdk (l_world l)) (farr_bytes address));
  match accountAtCurrentCtx with
  | None => mret tt
  | Some acc =>
      let createdWithinSameTx :=
        match GetAccount (w_sdk orig) (farr_bytes address) with
        | None => true
        | Some acc0 => negb (acc_number acc =? acc_number acc0)
        end in
      if createdWithinSameTx then _ ← cStateDb_Suicide env address; mret tt else mret tt
  end.

Definition cStateDb_Exist (address : Address) (l : Live) : bool :=
  if AccountTracker_Has (selfDestructed (l_rev l)) address then true
  else HasAccount (w_sdk (l_world l)) (farr_bytes address).
Definition cStateDb_Empty (address : Address) (l : Live) : bool :=
  Keeper_IsEmptyAccount (l_world l) address.

(** ** Access list *)

Definition set_accessList (al : AccessList2) (r : Rev) : Rev :=
  mkRev (touched r) (refund r) (selfDestructed r) al (logs r) (transientStorage r).

Definition cStateDb_AddressInAccessList (addr : Address) (l : Live) : bool :=
  AccessList2_ContainsAddress (rv_accessList (l_rev l)) addr.
Definition cStateDb_SlotInAccessList (addr : Address) (slot : Hash) (l : Live) : bool * bool :=
  AccessList2_Contains (rv_accessList (l_rev l)) addr slot.
Definition cStateDb_AddAddressToAccessList (addr : Address) : M Live unit :=
  modify (on_rev (fun r => set_accessList (snd (AccessList2_AddAddress (rv_accessList r) addr)) r)).
Definition cStateDb_AddSlotToAccessList (addr : Address) (slot : Hash) : M Live unit :=
  modify (on_rev (fun r => set_accessList (snd (AccessList2_AddSlot (rv_accessList r) addr slot)) r)).

(** The list a transaction starts with. *)
Definition prepared_list (rules : Rules) (sender cb : Address) (dst : option Address)
    (precompiles : list Address) (list : EthAccessList) : AccessList2 :=
  let al := snd (AccessList2_AddAddress newAccessList2 sender) in
  let al := match dst with Some d => snd (AccessList2_AddAddress al d) | None => al end in
  let al := foldl (fun al addr => snd (AccessList2_AddAddress al addr)) al precompiles in
  let al := foldl (fun al el =>
      foldl (fun al key => snd (AccessList2_AddSlot al el.1 key))
            (snd (AccessList2_AddAddress al el.1)) el.2) al list in
  if IsShanghai rules then snd (AccessList2_AddAddress al cb) else al.

Definition prepareByGoEthereum (rules : Rules) (sender cb : Address) (dst : option Address)
    (precompiles : list Address) (list : EthAccessList) : M Live unit :=
  modify (on_rev (fun r =>
    mkRev (touched r) (refund r) (selfDestructed r)
      (if IsBerlin rules then prepared_list rules sender cb dst precompiles list else rv_accessList r)
      (logs r) newTransientStorage)).

Definition cStateDb_PrepareAccessList (env : SdbEnv) (sender : Address) (dest : option Address)
    (precompiles : list Address) (txAccesses : EthAccessList) : M Live unit :=
  let rules := chain_Rules (chainConfig env) (env_BlockHeight env) true in
  prepareByGoEthereum rules sender (coinbase env) dest precompiles txAccesses.

Definition cStateDb_AddLog (log : Log) : M Live unit :=
  modify (on_rev (fun r => mkRev (touched r) (refund r) (selfDestructed r) (rv_accessList r)
                             (logs r ++ [log]) (transientStorage r))).
Definition cStateDb_GetTransactionLogs (l : Live) : list Log := logs (l_rev l).

(** ** The end of a transaction

    The loop over the touched accounts; Go gives the keys of a map in any order. *)
Definition destroy_touched (now : Z) (deleteEmptyObjects : bool) (touchedAddress : Address) : M Live unit :=
  markedAsDestroy ← gets (fun l => bool_decide (is_Some (selfDestructed (l_rev l) !! touchedAddress)));
  empty ← gets (cStateDb_Empty touchedAddress);
  if markedAsDestroy || (deleteEmptyObjects && empty)
  then cStateDb_DestroyAccount now touchedAddress else mret tt.
Definition destroy_all (now : Z) (deleteEmptyObjects : bool) (order : list Address) : M Live unit :=
  mapM_ (destroy_touched now deleteEmptyObjects) order.
End StateDb.
Arguments Live S : clear implicits.

(** ** Copies

    A copy of a tracker, of transient storage or of logs equals the original; a copy
    of an access list does too, for the lists that calls build. *)

Lemma map_fold_insert_id `{Countable A} {B} (m : gmap A B) :
  map_fold (fun k v r => <[k := v]> r) ∅ m = m.
Proof.
  apply (map_fold_weak_ind (fun r m => r = m)); [done|]. by intros i x m' r _ ->.
Qed.

Lemma AccountTracker_Copy_id t : AccountTracker_Copy t = t.
Proof. apply map_fold_insert_id. Qed.

Lemma transientStorage_Copy_id t : transientStorage_Copy t = t.
Proof.
  apply (map_fold_weak_ind (fun r m => r = m)); [done|].
  intros i x m r _ ->. by rewrite map_fold_insert_id.
Qed.

Lemma Logs_Copy_id l : Logs_Copy l = l.
Proof. apply firstn_all. Qed.

Definition rev_ok (r : Rev) : Prop := al2_wf (rv_accessList r).

Lemma copy_rev_id r : rev_ok r -> copy_rev r = r.
Proof.
  intros Hr. destruct r. unfold copy_rev. simpl in *.
  by rewrite !AccountTracker_Copy_id, al2_wf_copy, Logs_Copy_id, transientStorage_Copy_id.
Qed.

Lemma al2_wf_add_address al a : al2_wf al -> al2_wf (snd (AccessList2_AddAddress al a)).
Proof.
  intros Hwf. destruct (AccessList2_AddAddress al a) as [b al'] eqn:E.
  apply (al2_wf_step (OpAddAddress a) al (Ok (b, false)) al' Hwf). simpl. by rewrite E.
Qed.

Lemma al2_wf_add_slot al a s : al2_wf al -> al2_wf (snd (AccessList2_AddSlot al a s)).
Proof.
  intros Hwf. destruct (AccessList2_AddSlot al a s) as [b al'] eqn:E.
  apply (al2_wf_step (OpAddSlot a s) al (Ok b) al' Hwf). simpl. by rewrite E.
Qed.

Lemma foldl_inv {A B} (I : A -> Prop) (f : A -> B -> A) l a :
  (forall a b, I a -> I (f a b)) -> I a -> I (foldl f a l).
Proof. intros Hf. revert a. induction l as [|b l IH]; simpl; intros a Ha; [done|]. by apply IH, Hf. Qed.

Lemma al2_wf_prepared rules sender cb dst precompiles l :
  al2_wf (prepared_list rules sender cb dst precompiles l).
Proof.
  unfold prepared_list.
  assert (forall al, al2_wf al -> al2_wf (foldl (fun al el =>
      foldl (fun al key => snd (AccessList2_AddSlot al el.1 key))
            (snd (AccessList2_AddAddress al el.1)) el.2) al l)) as Hl.
  { intros al Hal. apply foldl_inv; [|done]. intros al1 el Hal1.
    apply foldl_inv; [by auto using al2_wf_add_slot|by apply al2_wf_add_address]. }
  assert (al2_wf (snd (AccessList2_AddAddress newAccessList2 sender))) as H0
    by apply al2_wf_add_address, al2_wf_new.
  case_match; (try apply al2_wf_add_address); apply Hl;
    (apply foldl_inv; [by auto using al2_wf_add_address|]); destruct dst; auto using al2_wf_add_address.
Qed.

(** ** Invariants of the operations

    The operations that change a state are built from a few steps; an invariant on
    the revertible fields that those steps keep is kept by every operation. *)

Class RevClosed (I : Rev -> Prop) : Prop := {
  I_touch r a : I r ->
    I (mkRev (AccountTracker_Add (touched r) a) (refund r) (selfDestructed r) (rv_accessList r) (logs r)
         (transientStorage r));
  I_refund r n : I r -> is_u64 n -> I (set_refund n r);
  I_destruct r a : I r -> is_Some (touched r !! a) ->
    I (mkRev (touched r) (refund r) (AccountTracker_Add (selfDestructed r) a) (rv_accessList r) (logs r)
         (transientStorage r));
  I_list r al : I r -> al2_wf al -> I (set_accessList al r);
  I_wf r : I r -> al2_wf (rv_accessList r);
  I_logs r l : I r ->
    I (mkRev (touched r) (refund r) (selfDestructed r) (rv_accessList r) l (transientStorage r));
  I_transient r t : I r ->
    I (mkRev (touched r) (refund r) (selfDestructed r) (rv_accessList r) (logs r) t)
}.

#[export] Instance rev_ok_closed : RevClosed rev_ok.
Proof. split; try done. Qed.

(** Every self-destructed account is touched, so the commit visits it. *)
Definition destructed_touched (r : Rev) : Prop :=
  rev_ok r /\ dom (selfDestructed r) ⊆ dom (touched r).
#[export] Instance destructed_touched_closed : RevClosed destructed_touched.
Proof.
  unfold destructed_touched, AccountTracker_Add.
  split; intros *; simpl; try (by intros []); try (intros [? ?] *; split; simpl; set_solver).
  intros [? ?] Ha. split; [done|]. apply elem_of_dom in Ha. set_solver.
Qed.

(** The refund counter stays a 64-bit number. *)
Definition refund_ok (r : Rev) : Prop := rev_ok r /\ is_u64 (refund r).
#[export] Instance refund_ok_closed : RevClosed refund_ok.
Proof. unfold refund_ok. split; intros *; simpl; naive_solver. Qed.

Section Invariants.
Context {S : Type} {K : SdkKeepers S} {G : Geth}.
Context (I : Rev -> Prop) {HI : RevClosed I}.

Definition live_inv (l : Live S) : Prop := I (l_rev l).

Lemma inv_bank f : preserves live_inv (bank f).
Proof.
  apply preserves_run_upd. intros l l'. destruct (f (w_sdk (l_world l))); simpl; [|done|done].
  by intros [= <-].
Qed.
Lemma inv_world f : preserves live_inv (modify (on_world f)).
Proof. apply preserves_modify. done. Qed.
Lemma inv_sdk f : preserves live_inv (modify (on_sdk f)).
Proof. apply preserves_modify. done. Qed.
Lemma inv_touch a : preserves live_inv (touch a).
Proof. apply preserves_modify. intros l. apply (I_touch (I:=I)). Qed.
Lemma inv_create a : preserves live_inv (createAccountIfNotExists a).
Proof. intros l Hl. unfold createAccountIfNotExists. case_match; [done|]. by case_match. Qed.
Hint Resolve inv_bank inv_world inv_sdk inv_touch inv_create : evermint.

Ltac inv_auto :=
  repeat first
    [ progress cbv zeta
    | match goal with |- preserves _ (_ ≫= _) => apply preserves_bind; [|intros ?] end
    | case_match ];
  eauto with evermint.

Lemma inv_burn a c : preserves live_inv (burnCoins a c).
Proof. unfold burnCoins. inv_auto. Qed.
Lemma inv_mint a c : preserves live_inv (mintCoins a c).
Proof. unfold mintCoins. inv_auto. Qed.
Hint Resolve inv_burn inv_mint : evermint.
Lemma inv_destroy now a : preserves live_inv (cStateDb_DestroyAccount now a).
Proof. unfold cStateDb_DestroyAccount. inv_auto. Qed.
Hint Resolve inv_destroy : evermint.
Lemma inv_create_account now a : preserves live_inv (cStateDb_CreateAccount now a).
Proof. unfold cStateDb_CreateAccount. inv_auto. Qed.
Lemma inv_sub_balance env a b : preserves live_inv (cStateDb_SubBalance env a b).
Proof. unfold cStateDb_SubBalance. inv_auto. Qed.
Lemma inv_add_balance env a b : preserves live_inv (cStateDb_AddBalance env a b).
Proof. unfold cStateDb_AddBalance. inv_auto. Qed.
Hint Resolve inv_create_account inv_sub_balance inv_add_balance : evermint.
Lemma inv_set_nonce a n : preserves live_inv (cStateDb_SetNonce a n).
Proof. unfold cStateDb_SetNonce. inv_auto. Qed.
Lemma inv_set_code a c : preserves live_inv (cStateDb_SetCode a c).
Proof. unfold cStateDb_SetCode. inv_auto. Qed.
Lemma inv_set_state a k v : preserves live_inv (cStateDb_SetState a k v).
Proof. unfold cStateDb_SetState. inv_auto. Qed.
Lemma inv_set_refund n : is_u64 n -> preserves live_inv (modify (on_rev (set_refund n))).
Proof. intros Hn. apply preserves_modify. intros l Hl. by apply (I_refund (I:=I)). Qed.
Hint Resolve inv_set_refund : evermint.
Lemma inv_add_refund n : preserves live_inv (cStateDb_AddRefund n).
Proof. unfold cStateDb_AddRefund. inv_auto. Qed.
Lemma inv_sub_refund n : preserves live_inv (cStateDb_SubRefund n).
Proof. unfold cStateDb_SubRefund. inv_auto. Qed.
Lemma inv_set_transient a k v : preserves live_inv (cStateDb_SetTransientState a k v).
Proof. apply preserves_modify. intros l. apply (I_transient (I:=I)). Qed.
Lemma inv_add_log x : preserves live_inv (cStateDb_AddLog x).
Proof. apply preserves_modify. intros l. apply (I_logs (I:=I)). Qed.
Lemma inv_list_address a : preserves live_inv (cStateDb_AddAddressToAccessList a).
Proof. apply preserves_modify. intros l Hl. apply (I_list (I:=I)); [done|]. by apply al2_wf_add_address, (I_wf (I:=I)). Qed.
Lemma inv_list_slot a s : preserves live_inv (cStateDb_AddSlotToAccessList a s).
Proof. apply preserves_modify. intros l Hl. apply (I_list (I:=I)); [done|]. by apply al2_wf_add_slot, (I_wf (I:=I)). Qed.
Lemma inv_prepare env s d p l : preserves live_inv (cStateDb_PrepareAccessList env s d p l).
Proof.
  apply preserves_modify. intros lv Hl. unfold live_inv. simpl.
  apply (I_transient (I:=I) (set_accessList _ (l_rev lv))). apply (I_list (I:=I)); [done|].
  case_match; [apply al2_wf_prepared|by apply (I_wf (I:=I))].
Qed.

(** Self-destruction marks an account it has touched before. *)
Lemma inv_suicide env a : preserves live_inv (cStateDb_Suicide env a).
Proof.
  intros l Hl.
  set (l0 := on_rev (fun r => mkRev (AccountTracker_Add (touched r) a) (refund r) (selfDestructed r)
               (rv_accessList r) (logs r) (transientStorage r)) l).
  set (l1 := on_rev (fun r => mkRev (touched r) (refund r) (AccountTracker_Add (selfDestructed r) a)
               (rv_accessList r) (logs r) (transientStorage r)) l0).
  assert (cStateDb_Suicide env a l =
    match GetAccount (w_sdk (l_world l)) (farr_bytes a) with
    | None => (Ok false, l0)
    | Some _ => (b ← gets (cStateDb_GetBalance env a);
        (if b =? 0 then mret tt else cStateDb_SubBalance env a b) ;; mret true) l1
    end) as ->.
  { unfold cStateDb_Suicide, touch, modify, gets. unfold mbind, M_bind. simpl.
    by destruct (GetAccount (w_sdk (l_world l)) (farr_bytes a)). }
  assert (live_inv l0) as H0 by (by apply (I_touch (I:=I))).
  case_match; [|done]. apply (preserves_bind live_inv); [apply preserves_gets| |].
  - intros b. inv_auto.
  - apply (I_destruct (I:=I)); [done|]. simpl. unfold AccountTracker_Add. rewrite lookup_insert_eq. eauto.
Qed.
Hint Resolve inv_suicide : evermint.
Lemma inv_6780 env orig a : preserves live_inv (cStateDb_Selfdestruct6780 env orig a).
Proof. unfold cStateDb_Selfdestruct6780. inv_auto. Qed.
Lemma inv_destroy_all now de order : preserves live_inv (destroy_all now de order).
Proof. apply preserves_mapM. intros a. unfold destroy_touched. inv_auto. Qed.
End Invariants.
