(* ===== verification/SnapshotStack.v ===== *)
(** * Snapshots, reverts and the commit of the StateDB

    [cStateDb] keeps one cache branch per snapshot, each branched from the one
    before, and writes through the last (x/evm/vm/state_db.go, state_db_snapshot.go).
    The specification [AState] has no contexts: it is the state the transaction
    started from, the state now, and the states saved by the snapshots.  [sdb_run] and
    [astate_run] interpret the same programs of StateDB calls, whose next call may
    depend on the answers so far, on the two; they give the same answers, and a
    commit writes to the original context exactly the state of the specification. *)

From stdpp Require Import base gmap list strings.
From S2P Require Import Prelude Sdk Geth EvmTypes EvmStore AccessList StateDB.

(** ** The calls *)

Section Calls.
Context {S : Type} {K : SdkKeepers S} {G : Geth}.

Inductive sdbans : Type :=
  | AUnit
  | AZ (z : Z)
  | AHash (h : Hash)
  | ABytes (b : bytes)
  | ABool (b : bool)
  | ABool2 (b : bool * bool)
  | ALogs (l : list Log)
  | AEntries (l : list (Hash * Hash))
  | ARes (r : res bytes).

(** The methods of [CStateDB], without the commit.  [ONative] is what a custom
    precompiled contract does through [GetCurrentContext]. *)
Inductive sdbop : Type :=
  | OCreateAccount (now : Z) (a : Address)
  | ODestroyAccount (now : Z) (a : Address)
  | OSubBalance (a : Address) (b : Z)
  | OAddBalance (a : Address) (b : Z)
  | OGetBalance (a : Address)
  | OGetNonce (a : Address)
  | OSetNonce (a : Address) (n : Z)
  | OGetCodeHash (a : Address)
  | OGetCode (a : Address)
  | OSetCode (a : Address) (code : bytes)
  | OGetCodeSize (a : Address)
  | OAddRefund (gas : Z)
  | OSubRefund (gas : Z)
  | OGetRefund
  | OGetCommittedState (a : Address) (k : Hash)
  | OGetState (a : Address) (k : Hash)
  | OSetState (a : Address) (k v : Hash)
  | OGetTransientState (a : Address) (k : Hash)
  | OSetTransientState (a : Address) (k v : Hash)
  | OSuicide (a : Address)
  | OHasSuicided (a : Address)
  | OSelfdestruct6780 (a : Address)
  | OExist (a : Address)
  | OEmpty (a : Address)
  | OAddressInAccessList (a : Address)
  | OSlotInAccessList (a : Address) (s : Hash)
  | OAddAddressToAccessList (a : Address)
  | OAddSlotToAccessList (a : Address) (s : Hash)
  | OPrepareAccessList (sender : Address) (dest : option Address) (precompiles : list Address)
      (txAccesses : EthAccessList)
  | OAddLog (log : Log)
  | OGetTransactionLogs
  | OAddPreimage (h : Hash) (b : bytes)
  | OForEachStorage (a : Address)
  | ONative (f : World S -> res bytes * World S)
  | OSnapshot
  | ORevertToSnapshot (id : Z).

(** The calls that only act on the current state. *)
Definition live_step (env : SdbEnv) (orig : World S) (o : sdbop) : M (Live S) sdbans :=
  match o with
  | OCreateAccount now a => cStateDb_CreateAccount now a ;; mret AUnit
  | ODestroyAccount now a => cStateDb_DestroyAccount now a ;; mret AUnit
  | OSubBalance a b => cStateDb_SubBalance env a b ;; mret AUnit
  | OAddBalance a b => cStateDb_AddBalance env a b ;; mret AUnit
  | OGetBalance a => gets (fun l => AZ (cStateDb_GetBalance env a l))
  | OGetNonce a => gets (fun l => AZ (cStateDb_GetNonce a l))
  | OSetNonce a n => cStateDb_SetNonce a n ;; mret AUnit
  | OGetCodeHash a => gets (fun l => AHash (cStateDb_GetCodeHash a l))
  | OGetCode a => gets (fun l => ABytes (cStateDb_GetCode a l))
  | OSetCode a code => cStateDb_SetCode a code ;; mret AUnit
  | OGetCodeSize a => gets (fun l => AZ (cStateDb_GetCodeSize a l))
  | OAddRefund gas => cStateDb_AddRefund gas ;; mret AUnit
  | OSubRefund gas => cStateDb_SubRefund gas ;; mret AUnit
  | OGetRefund => gets (fun l => AZ (cStateDb_GetRefund l))
  | OGetCommittedState a k => gets (fun l => AHash (cStateDb_GetCommittedState orig a k l))
  | OGetState a k => gets (fun l => AHash (cStateDb_GetState a k l))
  | OSetState a k v => cStateDb_SetState a k v ;; mret AUnit
  | OGetTransientState a k => gets (fun l => AHash (cStateDb_GetTransientState a k l))
  | OSetTransientState a k v => cStateDb_SetTransientState a k v ;; mret AUnit
  | OSuicide a => b ← cStateDb_Suicide env a; mret (ABool b)
  | OHasSuicided a => gets (fun l => ABool (cStateDb_HasSuicided a l))
  | OSelfdestruct6780 a => cStateDb_Selfdestruct6780 env orig a ;; mret AUnit
  | OExist a => gets (fun l => ABool (cStateDb_Exist a l))
  | OEmpty a => gets (fun l => ABool (cStateDb_Empty a l))
  | OAddressInAccessList a => gets (fun l => ABool (cStateDb_AddressInAccessList a l))
  | OSlotInAccessList a s => gets (fun l => ABool2 (cStateDb_SlotInAccessList a s l))
  | OAddAddressToAccessList a => cStateDb_AddAddressToAccessList a ;; mret AUnit
  | OAddSlotToAccessList a s => cStateDb_AddSlotToAccessList a s ;; mret AUnit
  | OPrepareAccessList sender dest precompiles txAccesses =>
      cStateDb_PrepareAccessList env sender dest precompiles txAccesses ;; mret AUnit
  | OAddLog log => cStateDb_AddLog log ;; mret AUnit
  | OGetTransactionLogs => gets (fun l => ALogs (cStateDb_GetTransactionLogs l))
  | OAddPreimage _ _ => mret AUnit
  | OForEachStorage a => gets (fun l => AEntries (storage_entries (l_world l) a))
  | ONative f => fun l => let '(r, w) := f (l_world l) in (Ok (ARes r), mkLive w (l_rev l))
  | OSnapshot | ORevertToSnapshot _ => mret AUnit
  end.

(** A client of the StateDB: it makes calls one by one and may look at the answers. *)
Inductive Prog (A : Type) : Type :=
  | Ret (a : A)
  | Call (o : sdbop) (k : sdbans -> Prog A).
End Calls.
Arguments sdbop S : clear implicits.
Arguments Prog S A : clear implicits.
Arguments Ret {S A} a.
Arguments Call {S A} o k.

(** ** The StateDB over contexts *)

Section Machine.
Context {S : Type} {K : SdkKeepers S} {G : Geth}.
Context {H C : Type} {X : CacheCtx H C (World S)}.

(** The write function of a snapshot writes its context to the one it was branched
    from. *)
Record RtStateDbSnapshot : Type := mkSnapshot {
  snap_id : Z;
  snapshotCtx : C;
  snap_rev : Rev
}.

Record cStateDb : Type := mkStateDb {
  originalCtx : C;
  currentCtx : C;
  snapshots : list RtStateDbSnapshot;
  committed : bool;
  db_rev : Rev
}.

Definition newStateDbSnapshotFromStateDb (r : Rev) (workingCtx : C) (h : H) (id : Z) :
    RtStateDbSnapshot * H :=
  let '(cacheCtxForWorking, h') := CacheContext h workingCtx in
  (mkSnapshot id cacheCtxForWorking (copy_rev r), h').

Definition NewStateDB (ctx : C) (h : H) : cStateDb * H :=
  let '(firstSnapshot, h') := newStateDbSnapshotFromStateDb newRev ctx h (-1) in
  (mkStateDb ctx (snapshotCtx firstSnapshot) [firstSnapshot] false newRev, h').

Definition cStateDb_Snapshot : M (cStateDb * H) sdbans := fun '(d, h) =>
  let id := Z.of_nat (length (snapshots d)) - 1 in
  let '(nextSnapshot, h') := newStateDbSnapshotFromStateDb (db_rev d) (currentCtx d) h id in
  (Ok (AZ id),
   (mkStateDb (originalCtx d) (snapshotCtx nextSnapshot) (snapshots d ++ [nextSnapshot])
      (committed d) (db_rev d), h')).

Definition cStateDb_RevertToSnapshot (id : Z) : M (cStateDb * H) sdbans := fun '(d, h) =>
  if id <? 0 then (Panic ErrEngineFailure, (d, h))
  else
    let snapshotIdx := Z.to_nat (id + 1) in
    match snapshots d !! snapshotIdx, snapshots d !! pred snapshotIdx with
    | Some snapshotState, Some snapshotContext =>
        if snap_id snapshotState =? id then
          let '(cacheCtx, h') := CacheContext h (snapshotCtx snapshotContext) in
          let snapshotState' := mkSnapshot (snap_id snapshotState) cacheCtx (snap_rev snapshotState) in
          (Ok AUnit,
           (mkStateDb (originalCtx d) cacheCtx (take snapshotIdx (snapshots d) ++ [snapshotState'])
              (committed d) (copy_rev (snap_rev snapshotState)), h'))
        else (Panic ErrEngineFailure, (d, h))
    | _, _ => (Panic IndexOutOfRange, (d, h))
    end.

(** Run an operation on the current state through the current context. *)
Definition through_ctx {A} (m : M (Live S) A) : M (cStateDb * H) A := fun '(d, h) =>
  let '(r, l) := m (mkLive (view h (currentCtx d)) (db_rev d)) in
  (r, (mkStateDb (originalCtx d) (currentCtx d) (snapshots d) (committed d) (l_rev l),
       update h (currentCtx d) (l_world l))).

Definition sdb_step (env : SdbEnv) (o : sdbop S) : M (cStateDb * H) sdbans := fun s =>
  match o with
  | OSnapshot => cStateDb_Snapshot s
  | ORevertToSnapshot id => cStateDb_RevertToSnapshot id s
  | _ => through_ctx (live_step env (view (snd s) (originalCtx (fst s))) o) s
  end.

Fixpoint sdb_run {A} (env : SdbEnv) (p : Prog S A) : M (cStateDb * H) A :=
  match p with
  | Ret a => mret a
  | Call o k => fun s =>
      match sdb_step env o s with
      | (Ok ans, s') => sdb_run env (k ans) s'
      | (Err e, s') => (Err e, s')
      | (Panic e, s') => (Panic e, s')
      end
  end.

(** From the last snapshot to the first. *)
Definition write_snapshots (l : list RtStateDbSnapshot) (h : H) : H :=
  foldl (fun h s => write_branch h (snapshotCtx s)) h (rev l).

Definition mark_committed : M (cStateDb * H) unit := fun '(d, h) =>
  (Ok tt, (mkStateDb (originalCtx d) (currentCtx d) (snapshots d) true (db_rev d), h)).

(** [order] lists the touched accounts in the order of the map iteration. *)
Definition cStateDb_CommitMultiStore (preventCommit : bool) (now : Z) (order : list Address)
    (deleteEmptyObjects : bool) : M (cStateDb * H) unit :=
  is_committed ← gets (fun s => committed (fst s));
  must (negb is_committed) (Errorf "called commit twice") ;;
  require (negb preventCommit) (Errorf "failed to commit state changes") ;;
  mark_committed ;;
  through_ctx (destroy_all now deleteEmptyObjects order) ;;
  modify (fun '(d, h) => (d, write_snapshots (snapshots d) h)).

Definition cStateDb_IntermediateRoot (EmptyRootHash : Hash) (preventCommit : bool) (now : Z)
    (order : list Address) (deleteEmptyObjects : bool) : M (cStateDb * H) Hash :=
  cStateDb_CommitMultiStore preventCommit now order deleteEmptyObjects ;; mret EmptyRootHash.
End Machine.
Arguments RtStateDbSnapshot C : clear implicits.
Arguments cStateDb C : clear implicits.

(** ** The specification *)

Section Spec.
Context {S : Type} {K : SdkKeepers S} {G : Geth}.

Record AState : Type := mkAState {
  as_base : World S;
  as_cur : Live S;
  as_saves : list (Live S);
  as_committed : bool
}.

Definition astate_new (w : World S) : AState := mkAState w (mkLive w newRev) [] false.

Definition on_cur {A} (m : M (Live S) A) : M AState A := fun s =>
  let '(r, l) := m (as_cur s) in (r, mkAState (as_base s) l (as_saves s) (as_committed s)).

Definition astate_step (env : SdbEnv) (o : sdbop S) : M AState sdbans := fun s =>
  match o with
  | OSnapshot =>
      (Ok (AZ (Z.of_nat (length (as_saves s)))),
       mkAState (as_base s) (as_cur s) (as_saves s ++ [as_cur s]) (as_committed s))
  | ORevertToSnapshot id =>
      if id <? 0 then (Panic ErrEngineFailure, s)
      else match as_saves s !! Z.to_nat id with
           | Some l => (Ok AUnit, mkAState (as_base s) l (take (Datatypes.S (Z.to_nat id)) (as_saves s))
                                    (as_committed s))
           | None => (Panic IndexOutOfRange, s)
           end
  | _ => on_cur (live_step env (as_base s) o) s
  end.

Fixpoint astate_run {A} (env : SdbEnv) (p : Prog S A) : M AState A :=
  match p with
  | Ret a => mret a
  | Call o k => fun s =>
      match astate_step env o s with
      | (Ok ans, s') => astate_run env (k ans) s'
      | (Err e, s') => (Err e, s')
      | (Panic e, s') => (Panic e, s')
      end
  end.

Definition astate_commit (now : Z) (order : list Address) (deleteEmptyObjects : bool) : M AState unit :=
  is_committed ← gets as_committed;
  must (negb is_committed) (Errorf "called commit twice") ;;
  modify (fun s => mkAState (as_base s) (as_cur s) (as_saves s) true) ;;
  on_cur (destroy_all now deleteEmptyObjects order) ;;
  modify (fun s => mkAState (l_world (as_cur s)) (as_cur s) (as_saves s) (as_committed s)).
End Spec.
Arguments AState S : clear implicits.

(** ** Chains of branches *)

Section Chain.
Context {H C W : Type} {X : CacheCtx H C W} {XL : CacheCtxLaws H C W}.

(** Each context of the list is a branch of the one before it, the first of [p]. *)
Fixpoint chain (h : H) (p : C) (cs : list C) : Prop :=
  match cs with
  | [] => True
  | c :: cs' => branch_of h c p /\ chain h c cs'
  end.

Lemma chain_app h p cs1 cs2 :
  chain h p (cs1 ++ cs2) <-> chain h p cs1 /\ chain h (List.last cs1 p) cs2.
Proof.
  revert p. induction cs1 as [|c cs1 IH]; intros p; simpl; [naive_solver|].
  rewrite IH. replace (match cs1 with [] => c | _ => List.last cs1 p end) with (List.last cs1 c).
  - tauto.
  - destruct cs1 as [|d cs1]; [done|]. clear. revert d. induction cs1; simpl; [done|]. intros. apply IHcs1.
Qed.

Lemma chain_snoc h p cs c :
  chain h p (cs ++ [c]) <-> chain h p cs /\ branch_of h c (List.last cs p).
Proof. rewrite chain_app. simpl. tauto. Qed.

Lemma rev_fmap {A B} (f : A -> B) (l : list A) : rev (f <$> l) = f <$> rev l.
Proof. induction l as [|x l IH]; [done|]. cbn. fold (f <$> l). rewrite fmap_app. cbn. by f_equal. Qed.

Lemma last_snoc_any {A} (l : list A) x d : List.last (l ++ [x]) d = x.
Proof. induction l as [|y l IH]; simpl; [done|]. destruct (l ++ [x]) eqn:E; [by destruct l|done]. Qed.

Lemma last_in_or {A} (l : list A) d : List.last l d = d \/ List.last l d ∈ l.
Proof.
  destruct l as [|x l]; [by left|right]. rewrite (app_removelast_last d (l := x :: l)) at 2 by done.
  set_solver.
Qed.

(** Every context of a chain but the last is an ancestor of the last. *)
Lemma chain_ancestor h p cs c :
  chain h p (cs ++ [c]) -> forall d, d = p \/ d ∈ cs -> ancestor h d c.
Proof.
  revert p. induction cs as [|q cs IH]; intros p; simpl.
  - intros [Hb _] d [->|Hd]; [by constructor|by apply not_elem_of_nil in Hd].
  - intros [Hb Hc] d Hd.
    assert (ancestor h q c) as Hq by (apply (IH q Hc); by left).
    destruct Hd as [->|Hd].
    + clear IH Hc. induction Hq as [q c Hq|q r c Hr Hq IH]; [|by econstructor; [|apply IH]].
      eapply ancestor_step; [done|by constructor].
    + apply elem_of_cons in Hd as [->|Hd]; [done|]. apply (IH q Hc). by right.
Qed.

(** What happens to a chain when something else is written or branched. *)
Lemma chain_ext h h' p cs :
  (forall c q, q = p \/ q ∈ cs -> branch_of h c q -> branch_of h' c q) -> chain h p cs -> chain h' p cs.
Proof.
  revert p. induction cs as [|c cs IH]; intros p Hh; simpl; [done|].
  intros [Hb Hc]. split; [apply Hh; [by left|done]|].
  apply IH; [|done]. intros d q Hq. apply Hh. right. set_solver.
Qed.

Lemma chain_update h p cs c w :
  chain h p (cs ++ [c]) -> chain (update h c w) p (cs ++ [c]).
Proof.
  intros Hc. apply chain_snoc. apply chain_snoc in Hc as Hc2. destruct Hc2 as [Hcs Hb].
  assert (forall d, d = p \/ d ∈ cs -> d <> c) as Hne.
  { intros d Hd. apply ancestor_ne with h. by apply (chain_ancestor h p cs c). }
  split.
  - eapply chain_ext; [|exact Hcs]. intros d q Hq Hd. apply branch_update; [done|]. by apply Hne.
  - apply branch_update; [done|]. apply Hne.
    apply last_in_or.
Qed.

Lemma chain_valid h p cs d :
  chain h p cs -> cs <> [] -> d = p \/ d ∈ cs -> ctx_valid h d.
Proof.
  revert p. induction cs as [|c cs IH]; intros p; simpl; [done|]. intros [Hb Hc] _ Hd.
  destruct (branch_valid _ _ _ Hb) as [Hvc Hvp].
  destruct Hd as [->|Hd]; [done|]. apply elem_of_cons in Hd as [->|Hd]; [done|].
  destruct cs as [|c' cs]; [by apply not_elem_of_nil in Hd|]. apply (IH c Hc); [done|by right].
Qed.

Lemma chain_branch h p cs q c h' :
  chain h p cs -> CacheContext h q = (c, h') -> chain h' p cs.
Proof. intros Hc E. eapply chain_ext; [|exact Hc]. intros. by eapply branch_branch. Qed.

(** Writing the branches of a chain from the last to the first gives the context
    they grow from what the last one reads. *)
Lemma chain_write h p cs :
  chain h p cs -> view (foldl (fun h c => write_branch h c) h (rev cs)) p = view h (List.last cs p).
Proof.
  revert h. induction cs as [|c cs IH] using rev_ind; intros h; [done|].
  rewrite rev_app_distr, last_snoc_any. simpl. rewrite chain_snoc. intros [Hcs Hb].
  set (q := List.last cs p) in *.
  assert (chain (write_branch h c) p cs) as Hcs'.
  { destruct (decide (cs = [])) as [->|Hne]; [done|].
    assert (cs = removelast cs ++ [q]) as Ecs by (by apply app_removelast_last).
    rewrite Ecs in Hcs |- *. apply chain_snoc in Hcs as Hcs2. destruct Hcs2 as [Hcs2 Hb2].
    assert (forall d, d = p \/ d ∈ removelast cs -> d <> q) as Hd.
    { intros d Hd. apply ancestor_ne with h. by apply (chain_ancestor h p (removelast cs) q). }
    apply chain_snoc. split.
    - eapply chain_ext; [|exact Hcs2]. intros c0 q0 Hq0 Hb0. eapply branch_write; eauto.
    - eapply branch_write; eauto. apply Hd, last_in_or. }
  rewrite IH by done. fold q. by apply view_write.
Qed.
End Chain.

(** ** Invariants of the calls *)

Section CallInvariants.
Context {S : Type} {K : SdkKeepers S} {G : Geth}.

Lemma live_step_inv (I : Rev -> Prop) {HI : RevClosed I} env (orig : World S) o :
  preserves (live_inv I) (live_step env orig o).
Proof.
  destruct o; simpl; try apply preserves_gets; try apply preserves_ret;
    try (apply preserves_bind; [|intros; apply preserves_ret]);
    auto using inv_create_account, inv_destroy, inv_sub_balance, inv_add_balance, inv_set_nonce,
      inv_set_code, inv_set_state, inv_add_refund, inv_sub_refund, inv_set_transient, inv_add_log,
      inv_list_address, inv_list_slot, inv_prepare, inv_suicide, inv_6780.
  intros l Hl. by destruct (f (l_world l)).
Qed.
End CallInvariants.

(** ** The machine implements the specification *)

Section Refinement.
Context {S : Type} {K : SdkKeepers S} {G : Geth}.
Context {H C : Type} {X : CacheCtx H C (World S)} {XL : CacheCtxLaws H C (World S)}.
Implicit Types (d : cStateDb C) (h : H) (s : AState S).

Abbreviation ctxs d := (snapshotCtx <$> snapshots d).

Record refines d h s : Prop := {
  rf_chain : chain h (originalCtx d) (ctxs d);
  rf_cur : exists pre sn, snapshots d = pre ++ [sn] /\ currentCtx d = snapshotCtx sn;
  rf_ids i sn : snapshots d !! i = Some sn -> snap_id sn = Z.of_nat i - 1;
  rf_len : length (snapshots d) = Datatypes.S (length (as_saves s));
  rf_base : view h (originalCtx d) = as_base s;
  rf_view : view h (currentCtx d) = l_world (as_cur s);
  rf_rev : db_rev d = l_rev (as_cur s);
  rf_saves i sn sn' l : snapshots d !! i = Some sn -> snapshots d !! Datatypes.S i = Some sn' ->
    as_saves s !! i = Some l -> view h (snapshotCtx sn) = l_world l /\ snap_rev sn' = l_rev l;
  rf_ok : rev_ok (db_rev d);
  rf_oks : Forall (fun sn => rev_ok (snap_rev sn)) (snapshots d);
  rf_committed : committed d = as_committed s
}.

Lemma refines_live d h s : refines d h s -> mkLive (view h (currentCtx d)) (db_rev d) = as_cur s.
Proof. intros R. rewrite (rf_view _ _ _ R), (rf_rev _ _ _ R). by destruct (as_cur s). Qed.

(** A context below the current one is one of its ancestors. *)
Lemma refines_ancestor d h s c :
  refines d h s -> c = originalCtx d \/ (exists i sn, snapshots d !! i = Some sn /\
    (Datatypes.S i < length (snapshots d))%nat /\ c = snapshotCtx sn) -> ancestor h c (currentCtx d).
Proof.
  intros R Hc. destruct (rf_cur _ _ _ R) as (pre & sn & Esn & Ecur).
  pose proof (rf_chain _ _ _ R) as Hch. rewrite Esn, fmap_app in Hch. rewrite Ecur.
  apply (chain_ancestor h (originalCtx d) (snapshotCtx <$> pre) _ Hch).
  destruct Hc as [->|(i & sn' & Hi & Hlt & ->)]; [by left|right].
  rewrite Esn, length_app in Hlt. simpl in Hlt. rewrite Esn, lookup_app_l in Hi by lia.
  apply list_elem_of_fmap. exists sn'. split; [done|]. by eapply list_elem_of_lookup_2.
Qed.

Lemma refines_valid d h s c : refines d h s -> c = originalCtx d \/ c ∈ ctxs d -> ctx_valid h c.
Proof.
  intros R Hc. apply (chain_valid h (originalCtx d) (ctxs d)); [apply R| |done].
  intros E. apply fmap_nil_inv in E. pose proof (rf_len _ _ _ R) as Hl. by rewrite E in Hl.
Qed.

Lemma refines_cur_in d h s : refines d h s -> currentCtx d ∈ ctxs d.
Proof.
  intros R. destruct (rf_cur _ _ _ R) as (pre & sn & Esn & Ecur).
  rewrite Esn, Ecur, fmap_app. set_solver.
Qed.

(** A step on the current state through the current context is the step of the
    specification. *)
Lemma refines_through {A} (m : M (Live S) A) d h s r d' h' :
  refines d h s -> preserves (live_inv rev_ok) m -> through_ctx m (d, h) = (r, (d', h')) ->
  exists s', on_cur m s = (r, s') /\ refines d' h' s'.
Proof.
  intros R Hm. unfold through_ctx, on_cur. rewrite (refines_live _ _ _ R).
  assert (live_inv rev_ok (as_cur s)) as Hok
    by (unfold live_inv; rewrite <- (rf_rev _ _ _ R); apply R).
  specialize (Hm _ Hok). destruct (m (as_cur s)) as [r' l]. simpl in Hm.
  intros [= -> <- <-]. eexists. split; [done|].
  destruct (rf_cur _ _ _ R) as (pre & sn & Esn & Ecur).
  split; simpl; try apply R; try done.
  - pose proof (rf_chain _ _ _ R) as Hch. rewrite Esn, fmap_app in Hch |- *. rewrite Ecur.
    by apply chain_update.
  - rewrite <- (rf_base _ _ _ R). apply view_update_ancestor.
    apply (refines_ancestor _ _ _ _ R). by left.
  - apply view_update. apply (refines_valid _ _ _ _ R). right. by eapply refines_cur_in.
  - intros i sn1 sn2 l0 H1 H2 Hl0.
    destruct (rf_saves _ _ _ R i sn1 sn2 l0 H1 H2 Hl0) as [Hv Hr]. split; [|done].
    rewrite <- Hv. apply view_update_ancestor. apply (refines_ancestor _ _ _ _ R). right.
    exists i, sn1. split_and!; [done| |done]. by apply lookup_lt_Some in H2.
Qed.

(** Pushing a branch [c] of [q] after the first [n] snapshots. *)
Lemma refines_push d h s n c h' (l : Live S) id r (saves : list (Live S)) q :
  refines d h s -> (1 <= n <= length (snapshots d))%nat ->
  q = List.last (take n (ctxs d)) (originalCtx d) -> CacheContext h q = (c, h') ->
  view h q = l_world l -> rev_ok (l_rev l) -> r = l_rev l -> id = Z.of_nat n - 1 ->
  length saves = n ->
  (forall i, (i < n - 1)%nat -> saves !! i = as_saves s !! i) -> saves !! (n - 1)%nat = Some l ->
  refines (mkStateDb (originalCtx d) c (take n (snapshots d) ++ [mkSnapshot id c r]) (committed d) r) h'
    (mkAState (as_base s) l saves (as_committed s)).
Proof.
  intros R Hn Hq Hc Hv Hok -> -> Hlen Hlow Htop.
  assert (ctx_valid h q) as Hqv.
  { apply (refines_valid _ _ _ _ R). rewrite Hq.
    destruct (last_in_or (take n (ctxs d)) (originalCtx d)) as [->|Hin]; [by left|right].
    by apply elem_of_take in Hin as (i & Hi & _); apply list_elem_of_lookup_2 in Hi. }
  assert (forall x, x = originalCtx d \/ x ∈ ctxs d -> view h' x = view h x) as Hold.
  { intros x Hx. eapply view_branch_old; [exact Hqv| |exact Hc]. by apply (refines_valid _ _ _ _ R). }
  assert (length (take n (snapshots d)) = n) as Hln by (rewrite length_take; lia).
  split; simpl.
  - rewrite fmap_app, fmap_take. simpl. apply chain_snoc. split.
    + apply (chain_branch h _ _ q c); [|done].
      pose proof (rf_chain _ _ _ R) as Hch. rewrite <- (take_drop n (ctxs d)) in Hch.
      by apply chain_app in Hch as [Hch _].
    + rewrite <- Hq. by eapply branch_new.
  - by eexists _, _.
  - intros i sn Hi. apply lookup_app_Some in Hi as [Hi|[Hi1 Hi2]].
    + apply lookup_take_Some in Hi as [Hi _]. by apply (rf_ids _ _ _ R).
    + apply list_lookup_singleton_Some in Hi2 as [Hi2 <-]. simpl. rewrite Hln in *. f_equal. lia.
  - rewrite length_app, Hln, Hlen. simpl. lia.
  - rewrite Hold by (by left). apply R.
  - rewrite <- Hv. by eapply view_branch.
  - done.
  - intros i sn1 sn2 l0 H1 H2 Hl0.
    assert (Datatypes.S i <= n)%nat as Hi.
    { apply lookup_lt_Some in H2. rewrite length_app, Hln in H2. simpl in H2. lia. }
    rewrite lookup_app_l in H1 by (rewrite Hln; lia). apply lookup_take_Some in H1 as [H1 _].
    rewrite Hold by (right; apply list_elem_of_fmap; exists sn1; split; [done|by eapply list_elem_of_lookup_2]).
    destruct (decide (Datatypes.S i = n)) as [<-|Hne].
    + rewrite lookup_app_r, Hln, Nat.sub_diag in H2 by lia. simpl in H2. injection H2 as <-.
      replace (Datatypes.S i - 1)%nat with i in Htop by lia. rewrite Htop in Hl0. injection Hl0 as <-.
      split; [|done]. rewrite <- Hv, Hq. f_equal.
      rewrite (take_S_r (ctxs d) i (snapshotCtx sn1)) by (by rewrite list_lookup_fmap, H1).
      by rewrite last_snoc_any.
    + rewrite lookup_app_l in H2 by (rewrite Hln; lia). apply lookup_take_Some in H2 as [H2 _].
      rewrite Hlow in Hl0 by lia. by apply (rf_saves _ _ _ R i sn1 sn2 l0).
  - done.
  - apply Forall_app. split; [apply Forall_take, R|]. by constructor.
  - apply R.
Qed.

Lemma refines_snapshot d h s r d' h' :
  refines d h s -> cStateDb_Snapshot (d, h) = (r, (d', h')) ->
  r = Ok (AZ (Z.of_nat (length (as_saves s)))) /\
  refines d' h' (mkAState (as_base s) (as_cur s) (as_saves s ++ [as_cur s]) (as_committed s)).
Proof.
  intros R. unfold cStateDb_Snapshot, newStateDbSnapshotFromStateDb.
  destruct (CacheContext h (currentCtx d)) as [c h1] eqn:Ec. simpl. intros [= <- <- <-].
  pose proof (rf_len _ _ _ R) as Hl. rewrite copy_rev_id by apply R.
  split; [do 2 f_equal; lia|].
  destruct (rf_cur _ _ _ R) as (pre & sn & Esn & Ecur).
  assert (snapshots d = take (length (snapshots d)) (snapshots d)) as Et by (by rewrite firstn_all).
  rewrite Et at 1.
  apply (refines_push d h s (length (snapshots d)) c h1 (as_cur s)) with (q := currentCtx d); try done.
  - lia.
  - rewrite <- (length_fmap snapshotCtx), firstn_all, Esn, fmap_app. simpl. by rewrite last_snoc_any.
  - apply R.
  - rewrite <- (rf_rev _ _ _ R). apply R.
  - apply R.
  - rewrite length_app. simpl. lia.
  - intros i Hi. rewrite lookup_app_l by lia. done.
  - rewrite lookup_app_r by lia. by replace (length (snapshots d) - 1 - length (as_saves s))%nat with 0%nat by lia.
Qed.

Lemma refines_revert d h s id r d' h' env :
  refines d h s -> cStateDb_RevertToSnapshot id (d, h) = (r, (d', h')) ->
  exists s', astate_step env (ORevertToSnapshot id) s = (r, s') /\ refines d' h' s'.
Proof.
  intros R. unfold cStateDb_RevertToSnapshot, astate_step.
  destruct (Z.ltb_spec id 0) as [|Hid]; [intros [= <- <- <-]; eauto|].
  replace (Z.to_nat (id + 1)) with (Datatypes.S (Z.to_nat id)) by lia. simpl pred.
  set (i := Z.to_nat id). pose proof (rf_len _ _ _ R) as Hl.
  destruct (as_saves s !! i) as [l|] eqn:El.
  - apply lookup_lt_Some in El as Hi.
    destruct (lookup_lt_is_Some_2 (snapshots d) (Datatypes.S i)) as [sn' Esn']; [lia|].
    destruct (lookup_lt_is_Some_2 (snapshots d) i) as [sn Esn]; [lia|].
    rewrite Esn', Esn. pose proof (rf_ids _ _ _ R _ _ Esn') as Eid.
    destruct (Z.eqb_spec (snap_id sn') id) as [_|]; [|lia].
    destruct (CacheContext h (snapshotCtx sn)) as [c h1] eqn:Ec. intros [= <- <- <-].
    destruct (rf_saves _ _ _ R i sn sn' l Esn Esn' El) as [Hv Hr].
    assert (rev_ok (snap_rev sn')) as Hok by (eapply Forall_lookup_1 in Esn'; [exact Esn'|apply R]).
    rewrite copy_rev_id by done. eexists. split; [done|].
    apply (refines_push d h s (Datatypes.S i) c h1 l) with (q := snapshotCtx sn); try done.
    + lia.
    + rewrite (take_S_r (ctxs d) i (snapshotCtx sn)) by (by rewrite list_lookup_fmap, Esn).
      by rewrite last_snoc_any.
    + by rewrite <- Hr.
    + rewrite length_take. lia.
    + intros j Hj. rewrite lookup_take_lt by lia. done.
    + rewrite lookup_take_lt by lia. by replace (Datatypes.S i - 1)%nat with i by lia.
  - apply lookup_ge_None in El.
    rewrite (lookup_ge_None_2 (snapshots d) (Datatypes.S i)) by lia. intros [= <- <- <-]. eauto.
Qed.

Lemma refines_step env o d h s r d' h' :
  refines d h s -> sdb_step env o (d, h) = (r, (d', h')) ->
  exists s', astate_step env o s = (r, s') /\ refines d' h' s'.
Proof.
  intros R. destruct o; cbv beta iota delta [sdb_step astate_step]; cbn [fst snd];
    rewrite ?(rf_base _ _ _ R);
    try (intros E; eapply refines_through in E; [exact E|exact R|apply live_step_inv; apply _]).
  - intros E. apply (refines_snapshot _ _ _ _ _ _ R) in E as [-> R']. eauto.
  - intros E. by apply (refines_revert _ _ _ _ _ _ _ env R) in E.
Qed.

Lemma refines_run {A} env (p : Prog S A) d h s r d' h' :
  refines d h s -> sdb_run env p (d, h) = (r, (d', h')) ->
  exists s', astate_run env p s = (r, s') /\ refines d' h' s'.
Proof.
  revert d h s. induction p as [a|o k IH]; intros d h s R; simpl.
  - intros [= <- <- <-]. eauto.
  - destruct (sdb_step env o (d, h)) as [r1 [d1 h1]] eqn:E1.
    destruct (refines_step _ _ _ _ _ _ _ _ R E1) as (s1 & -> & R1).
    destruct r1 as [ans|e|e]; [by apply IH| |]; intros [= <- <- <-]; eauto.
Qed.

Lemma refines_new (ctx : C) h d h' :
  ctx_valid h ctx -> NewStateDB ctx h = (d, h') -> refines d h' (astate_new (view h ctx)).
Proof.
  intros Hv. unfold NewStateDB, newStateDbSnapshotFromStateDb.
  destruct (CacheContext h ctx) as [c h1] eqn:Ec. intros [= <- <-]. simpl.
  assert (rev_ok newRev) as Hok by apply al2_wf_new.
  split; simpl.
  - split; [by eapply branch_new|done].
  - by exists [], (mkSnapshot (-1) c (copy_rev newRev)).
  - intros [|i] sn; simpl; [by intros [= <-]|done].
  - done.
  - by eapply view_branch_old.
  - by eapply view_branch.
  - done.
  - intros [|i] sn sn' l; simpl; done.
  - done.
  - constructor; [|done]. simpl. by rewrite copy_rev_id.
  - done.
Qed.

(** After the commit the original context reads what the specification commits. *)
Lemma refines_commit now order de d h s r d' h' :
  refines d h s -> cStateDb_CommitMultiStore false now order de (d, h) = (r, (d', h')) ->
  exists s', astate_commit now order de s = (r, s') /\
    view h' (originalCtx d) = as_base s' /\ originalCtx d' = originalCtx d /\
    committed d' = as_committed s'.
Proof.
  intros R. unfold cStateDb_CommitMultiStore, astate_commit, mark_committed. munfold.
  cbn -[through_ctx on_cur]. rewrite (rf_committed _ _ _ R).
  destruct (as_committed s) eqn:Ecm; cbn -[through_ctx on_cur].
  { intros [= <- <- <-]. eexists. split; [done|]. split_and!; [apply R|done|by rewrite (rf_committed _ _ _ R)]. }
  set (d1 := mkStateDb (originalCtx d) (currentCtx d) (snapshots d) true (db_rev d)).
  set (s1 := mkAState (as_base s) (as_cur s) (as_saves s) true).
  assert (refines d1 h s1) as R1 by (split; simpl; try apply R; done).
  destruct (through_ctx (destroy_all now de order) (d1, h)) as [r2 [d2 h2]] eqn:E2.
  assert (originalCtx d2 = originalCtx d) as Eo.
  { revert E2. unfold through_ctx. destruct (destroy_all _ _ _ _). by intros [= _ <- _]. }
  destruct (refines_through _ _ _ _ _ _ _ R1 (inv_destroy_all rev_ok now de order) E2) as (s2 & E3 & R2).
  rewrite E3. rewrite <- Eo. destruct r2 as [[]|e|e]; simpl; intros [= <- <- <-]; eexists; (split; [done|]); simpl;
    try (split_and!; [apply R2|done|apply R2]).
  split_and!; [|done|apply R2]. unfold write_snapshots.
  destruct (rf_cur _ _ _ R2) as (pre & sn & Esn & Ecur).
  pose proof (chain_write h2 _ _ (rf_chain _ _ _ R2)) as Hw.
  rewrite <- (rf_view _ _ _ R2), Ecur. rewrite Esn in *. rewrite fmap_app in Hw. simpl in Hw.
  rewrite last_snoc_any in Hw. rewrite <- Hw.
  change [snapshotCtx sn] with (snapshotCtx <$> [sn]). rewrite <- fmap_app, rev_fmap.
  clear. generalize (rev (pre ++ [sn])). intros l. revert h2. induction l; simpl; [done|]. intros. apply IHl.
Qed.
End Refinement.

(** ** Properties *)

Section Properties.
Context {S : Type} {K : SdkKeepers S} {G : Geth}.
Context {H C : Type} {X : CacheCtx H C (World S)} {XL : CacheCtxLaws H C (World S)}.

Lemma astate_step_base env o (s : AState S) r s' :
  astate_step env o s = (r, s') -> as_base s' = as_base s /\ as_committed s' = as_committed s.
Proof.
  destruct o; cbv beta iota delta [astate_step on_cur]; try (by destruct (live_step _ _ _ _); intros [= _ <-]);
    repeat case_match; by intros [= _ <-].
Qed.

Lemma astate_run_base {A} env (p : Prog S A) (s : AState S) r s' :
  astate_run env p s = (r, s') -> as_base s' = as_base s /\ as_committed s' = as_committed s.
Proof.
  revert s. induction p as [a|o k IH]; intros s; simpl; [by intros [= _ <-]|].
  destruct (astate_step env o s) as [r1 s1] eqn:E. apply astate_step_base in E as [<- <-].
  destruct r1; [apply IH| |]; by intros [= _ <-].
Qed.

Lemma sdb_step_original env o (d : cStateDb C) (h : H) r d' h' :
  sdb_step env o (d, h) = (r, (d', h')) -> originalCtx d' = originalCtx d.
Proof.
  destruct o; cbv beta iota delta [sdb_step through_ctx];
    try (destruct (live_step _ _ _ _); by intros [= _ <- _]).
  - unfold cStateDb_Snapshot. destruct (newStateDbSnapshotFromStateDb _ _ _ _). by intros [= _ <- _].
  - unfold cStateDb_RevertToSnapshot. destruct (id <? 0); [by intros [= _ <- _]|].
    destruct (snapshots d !! Z.to_nat (id + 1)); [|by intros [= _ <- _]].
    destruct (snapshots d !! pred (Z.to_nat (id + 1))); [|by intros [= _ <- _]].
    destruct (snap_id _ =? id); [|by intros [= _ <- _]].
    destruct (CacheContext h _). by intros [= _ <- _].
Qed.

Lemma sdb_run_original {A} env (p : Prog S A) (d : cStateDb C) (h : H) r d' h' :
  sdb_run env p (d, h) = (r, (d', h')) -> originalCtx d' = originalCtx d.
Proof.
  revert d h. induction p as [a|o k IH]; intros d h; simpl; [by intros [= _ <- _]|].
  destruct (sdb_step env o (d, h)) as [r1 [d1 h1]] eqn:E1. apply sdb_step_original in E1 as <-.
  destruct r1; [apply IH| |]; by intros [= _ <- _].
Qed.

(** *** Contexts above the StateDB

    Nothing a program does before the commit reaches a context that the one the
    StateDB was opened on was branched from. *)
Lemma ancestor_trans (h : H) (p q r : C) : ancestor h p q -> ancestor h q r -> ancestor h p r.
Proof. intros Hp. induction 1; [by eapply ancestor_step|]. eapply ancestor_step; [done|]. auto. Qed.

Lemma ancestor_valid (h : H) (p q : C) : ancestor h p q -> ctx_valid h p.
Proof. induction 1 as [p q Hb|]; [|done]. by eapply branch_valid in Hb as [_ ?]. Qed.

Lemma ancestor_update (h : H) (p o x : C) w : ancestor h p o -> ancestor h o x -> ancestor (update h x w) p o.
Proof.
  induction 1 as [p o Hb|p q o Hb Hp IH]; intros Hx.
  - apply ancestor_one, branch_update; [done|]. apply ancestor_ne with h.
    eapply ancestor_trans; [by apply ancestor_one|done].
  - assert (ancestor h q x) as Hq by (eapply ancestor_trans; [by apply ancestor_one|done]).
    eapply ancestor_step; [|by apply IH]. apply branch_update; [done|]. by apply ancestor_ne with h.
Qed.

Lemma ancestor_branch (h : H) (p o q c : C) h' : ancestor h p o -> CacheContext h q = (c, h') -> ancestor h' p o.
Proof.
  intros Ha Ec. induction Ha as [p o Hb|p q' o Hb Hp IH].
  - apply ancestor_one. by eapply branch_branch.
  - eapply ancestor_step; [|exact IH]. by eapply branch_branch.
Qed.

Lemma sdb_step_frame env o (d : cStateDb C) (h : H) s r d' h' p :
  refines d h s -> ancestor h p (originalCtx d) -> sdb_step env o (d, h) = (r, (d', h')) ->
  ancestor h' p (originalCtx d) /\ view h' p = view h p.
Proof.
  intros R Ha.
  assert (ancestor h (originalCtx d) (currentCtx d)) as Hc by (eapply refines_ancestor; [exact R|by left]).
  assert (forall q c h1, ctx_valid h q -> CacheContext h q = (c, h1) ->
    ancestor h1 p (originalCtx d) /\ view h1 p = view h p) as Hbr.
  { intros q c h1 Hq Ec. split; [by eapply ancestor_branch|]. eapply view_branch_old; [exact Hq| |exact Ec].
    by eapply ancestor_valid. }
  destruct o; cbv beta iota delta [sdb_step through_ctx]; cbn [fst snd];
    try (destruct (live_step _ _ _ _) as [r1 l1]; intros [= _ _ <-]; split;
         [by apply ancestor_update|apply view_update_ancestor; by eapply ancestor_trans]).
  - unfold cStateDb_Snapshot, newStateDbSnapshotFromStateDb.
    destruct (CacheContext h (currentCtx d)) as [c1 h1] eqn:Ec. intros [= _ _ <-].
    eapply Hbr; [|exact Ec]. eapply refines_valid; [exact R|right; by eapply refines_cur_in].
  - unfold cStateDb_RevertToSnapshot. destruct (id <? 0); [by intros [= _ _ <-]|].
    destruct (snapshots d !! Z.to_nat (id + 1)); [|by intros [= _ _ <-]].
    destruct (snapshots d !! pred (Z.to_nat (id + 1))) as [sn|] eqn:Esn; [|by intros [= _ _ <-]].
    destruct (snap_id _ =? id); [|by intros [= _ _ <-]].
    destruct (CacheContext h (snapshotCtx sn)) as [c1 h1] eqn:Ec. intros [= _ _ <-].
    eapply Hbr; [|exact Ec]. eapply refines_valid; [exact R|right]. apply list_elem_of_fmap.
    exists sn. split; [done|]. by eapply list_elem_of_lookup_2.
Qed.

Lemma sdb_run_frame {A} env (pr : Prog S A) (d : cStateDb C) (h : H) s r d' h' p :
  refines d h s -> ancestor h p (originalCtx d) -> sdb_run env pr (d, h) = (r, (d', h')) ->
  ancestor h' p (originalCtx d) /\ view h' p = view h p.
Proof.
  revert d h s. induction pr as [a|o k IH]; intros d h s R Ha; simpl; [by intros [= _ _ <-]|].
  destruct (sdb_step env o (d, h)) as [r1 [d1 h1]] eqn:E1.
  destruct (sdb_step_frame _ _ _ _ _ _ _ _ _ R Ha E1) as [Ha1 Ev1].
  destruct (refines_step _ _ _ _ _ _ _ _ R E1) as (s1 & _ & R1).
  rewrite <- (sdb_step_original _ _ _ _ _ _ _ E1) in Ha1 |- *.
  destruct r1; [|by intros [= _ _ <-]|by intros [= _ _ <-]]. intros Er. rewrite <- Ev1. by eapply IH.
Qed.

(** The snapshots that a program reverts to have at least the number [n]. *)
Fixpoint reverts_above {A} (n : Z) (p : Prog S A) : Prop :=
  match p with
  | Ret _ => True
  | Call o k =>
      match o with ORevertToSnapshot id => n <= id | _ => True end /\
      forall ans, reverts_above n (k ans)
  end.

Lemma astate_step_saves env o (s : AState S) r s' n :
  (match o with ORevertToSnapshot id => Z.of_nat n <= id | _ => True end) ->
  astate_step env o s = (r, s') -> (n < length (as_saves s))%nat ->
  (n < length (as_saves s'))%nat /\ as_saves s' !! n = as_saves s !! n.
Proof.
  intros Ho E Hn. destruct o; cbv beta iota delta [astate_step on_cur] in E;
    try (destruct (live_step _ _ _ _); by injection E as _ <-).
  - injection E as _ <-. simpl. rewrite length_app. split; [lia|]. by rewrite lookup_app_l.
  - destruct (id <? 0); [by injection E as _ <-|].
    destruct (as_saves s !! Z.to_nat id) eqn:El; [|by injection E as _ <-].
    injection E as _ <-. simpl. apply lookup_lt_Some in El. rewrite length_take. split; [lia|].
    rewrite lookup_take_lt by lia. done.
Qed.

Lemma astate_run_saves {A} env (p : Prog S A) (s : AState S) r s' n :
  reverts_above (Z.of_nat n) p -> astate_run env p s = (r, s') -> (n < length (as_saves s))%nat ->
  (n < length (as_saves s'))%nat /\ as_saves s' !! n = as_saves s !! n.
Proof.
  revert s. induction p as [a|o k IH]; intros s; simpl; [by intros _ [= _ <-]|].
  intros [Ho Hk]. destruct (astate_step env o s) as [r1 s1] eqn:E. intros Er Hn.
  destruct (astate_step_saves _ _ _ _ _ _ Ho E Hn) as [Hn1 Hs1].
  destruct r1 as [ans|e|e]; [|by injection Er as _ <-|by injection Er as _ <-].
  destruct (IH ans s1 (Hk ans) Er Hn1) as [Hn2 Hs2]. split; [done|]. by rewrite Hs2.
Qed.

(** C1 The StateDB over contexts implements the specification: every program of
    calls made to a new StateDB gets the same answers and ends the same way as on the
    specification, the current context then reads the current state of the
    specification and the original context still reads what it read before; and a
    commit ends the same way and leaves in the original context exactly the state
    the specification commits. *)
Theorem statedb_implements_spec {A} (env : SdbEnv) (p : Prog S A) (ctx : C) (h : H)
  (Hctx : ctx_valid h ctx) :
  let '(r, (d', h')) := sdb_run env p (NewStateDB ctx h) in
  exists s', astate_run env p (astate_new (view h ctx)) = (r, s') /\
    view h' (currentCtx d') = l_world (as_cur s') /\ db_rev d' = l_rev (as_cur s') /\
    view h' ctx = view h ctx /\
    forall now order deleteEmpty,
      let '(rc, (d2, h2)) := cStateDb_CommitMultiStore false now order deleteEmpty (d', h') in
      let '(rs, s2) := astate_commit now order deleteEmpty s' in
      rc = rs /\ view h2 ctx = as_base s2.
Proof.
  destruct (NewStateDB ctx h) as [d0 h0] eqn:E0.
  pose proof (refines_new ctx h d0 h0 Hctx E0) as R0.
  assert (originalCtx d0 = ctx) as Eo.
  { revert E0. unfold NewStateDB. destruct (newStateDbSnapshotFromStateDb _ _ _ _). by intros [= <- _]. }
  destruct (sdb_run env p (d0, h0)) as [r [d' h']] eqn:Er.
  destruct (refines_run env p _ _ _ _ _ _ R0 Er) as (s' & Es & R).
  assert (originalCtx d' = ctx) as Eo' by (rewrite <- Eo; by eapply sdb_run_original).
  exists s'. split_and!; [done|apply R|apply R| |].
  - rewrite <- Eo' at 1. rewrite (rf_base _ _ _ R). by apply astate_run_base in Es as [-> _].
  - intros now order de.
    destruct (cStateDb_CommitMultiStore false now order de (d', h')) as [rc [d2 h2]] eqn:Ec.
    destruct (refines_commit _ _ _ _ _ _ _ _ _ R Ec) as (s2 & -> & Hv & _). by rewrite Eo' in Hv.
Qed.

(** Snapshot and revert: from any state a StateDB reaches, taking a snapshot,
    running any program that does not revert past it, and reverting to it succeeds
    and gives back the state read by the current context and every revertible field
    exactly as they were. *)
Theorem snapshot_revert_restores {A B} (env : SdbEnv) (ctx : C) (h : H)
  (before : Prog S A) (during : Prog S B) (a : A) (b : B) d1 h1 id d2 h2 d3 h3
  (Hctx : ctx_valid h ctx)
  (Hbefore : sdb_run env before (NewStateDB ctx h) = (Ok a, (d1, h1)))
  (Hsnap : cStateDb_Snapshot (d1, h1) = (Ok (AZ id), (d2, h2)))
  (Hduring : sdb_run env during (d2, h2) = (Ok b, (d3, h3)))
  (Habove : reverts_above id during) :
  exists d4 h4, cStateDb_RevertToSnapshot id (d3, h3) = (Ok AUnit, (d4, h4)) /\
    view h4 (currentCtx d4) = view h1 (currentCtx d1) /\ db_rev d4 = db_rev d1.
Proof.
  destruct (NewStateDB ctx h) as [d0 h0] eqn:E0.
  pose proof (refines_new ctx h d0 h0 Hctx E0) as R0.
  destruct (refines_run _ _ _ _ _ _ _ _ R0 Hbefore) as (s1 & _ & R1).
  destruct (refines_snapshot _ _ _ _ _ _ R1 Hsnap) as [[= ->] R2].
  destruct (refines_run _ _ _ _ _ _ _ _ R2 Hduring) as (s3 & Es3 & R3).
  destruct (astate_run_saves _ _ _ _ _ (length (as_saves s1)) Habove Es3) as [Hlen Hsave];
    [simpl; rewrite length_app; simpl; lia|].
  simpl in Hsave. rewrite lookup_app_r, Nat.sub_diag in Hsave by lia. simpl in Hsave.
  destruct (cStateDb_RevertToSnapshot (Z.of_nat (length (as_saves s1))) (d3, h3)) as [r4 [d4 h4]] eqn:E4.
  destruct (refines_revert _ _ _ _ _ _ _ env R3 E4) as (s4 & Es4 & R4).
  unfold astate_step in Es4. destruct (Z.ltb_spec (Z.of_nat (length (as_saves s1))) 0); [lia|].
  rewrite Nat2Z.id, Hsave in Es4. injection Es4 as <- <-.
  exists d4, h4. split; [done|]. rewrite (rf_view _ _ _ R4), (rf_rev _ _ _ R4). simpl.
  by rewrite (rf_view _ _ _ R1), (rf_rev _ _ _ R1).
Qed.
End Properties.
