(* ===== verification/Programs.v ===== *)
(** * Programs over the StateDB

    Sequencing of programs of StateDB calls, invariants that every program keeps, and
    postconditions of programs that hold whatever the state answers. *)

From stdpp Require Import base gmap list strings.
From S2P Require Import Prelude Sdk Geth EvmTypes EvmStore AccessList StateDB SnapshotStack.

Section Programs.
Context {S : Type}.

Fixpoint prog_bind {A B} (p : Prog S A) (f : A -> Prog S B) : Prog S B :=
  match p with
  | Ret a => f a
  | Call o k => Call o (fun ans => prog_bind (k ans) f)
  end.

(** The answers the StateDB gives: the refund counter is a [uint64]. *)
Definition ans_ok (o : sdbop S) (ans : sdbans) : Prop :=
  match o with
  | OGetRefund => exists z, ans = AZ z /\ is_u64 z
  | _ => True
  end.

(** Whatever is answered, what the program returns satisfies [P]. *)
Fixpoint prog_post {A} (P : A -> Prop) (p : Prog S A) : Prop :=
  match p with
  | Ret a => P a
  | Call o k => forall ans, ans_ok o ans -> prog_post P (k ans)
  end.

Lemma prog_post_bind {A B} (Q : A -> Prop) (P : B -> Prop) p f :
  prog_post Q p -> (forall a, Q a -> prog_post P (f a)) -> prog_post P (prog_bind p f).
Proof.
  intros Hp Hf. induction p as [a|o k IH]; simpl in *; [by apply Hf|]. intros ans Ha. by apply IH, Hp.
Qed.

Lemma prog_post_impl {A} (P Q : A -> Prop) (p : Prog S A) :
  (forall a, P a -> Q a) -> prog_post P p -> prog_post Q p.
Proof. intros H. induction p as [a|o k IH]; simpl; [apply H|]. intros Hp ans Ha. by apply IH, Hp. Qed.

Lemma prog_post_true {A} (p : Prog S A) : prog_post (fun _ => True) p.
Proof. induction p as [a|o k IH]; simpl; [done|]. intros ans _. apply IH. Qed.

(** The program makes no call that changes the state. *)
Definition is_read (o : sdbop S) : Prop :=
  match o with
  | OGetBalance _ | OGetNonce _ | OGetCodeHash _ | OGetCode _ | OGetCodeSize _ | OGetRefund
  | OGetCommittedState _ _ | OGetState _ _ | OGetTransientState _ _ | OHasSuicided _ | OExist _
  | OEmpty _ | OAddressInAccessList _ | OSlotInAccessList _ _ | OGetTransactionLogs
  | OForEachStorage _ => True
  | _ => False
  end.

Fixpoint reads_only {A} (p : Prog S A) : Prop :=
  match p with
  | Ret _ => True
  | Call o k => is_read o /\ forall ans, reads_only (k ans)
  end.

(** Whatever is answered, of the right kind or not, the result satisfies [P]. *)
Fixpoint prog_all {A} (P : A -> Prop) (p : Prog S A) : Prop :=
  match p with
  | Ret a => P a
  | Call o k => forall ans, prog_all P (k ans)
  end.

(** A program that only reads before it returns a result of [P]: once it has written,
    no such result is returned. *)
Fixpoint reads_before {A} (P : A -> Prop) (p : Prog S A) : Prop :=
  match p with
  | Ret _ => True
  | Call o k => (is_read o /\ forall ans, reads_before P (k ans)) \/
                (forall ans, prog_all (fun a => ~ P a) (k ans))
  end.

Lemma prog_all_bind {A B} (Q : A -> Prop) (P : B -> Prop) (p : Prog S A) f :
  prog_all Q p -> (forall a, Q a -> prog_all P (f a)) -> prog_all P (prog_bind p f).
Proof. intros Hp Hf. induction p as [a|o k IH]; simpl in *; [by apply Hf|]. intros ans. by apply IH. Qed.
Lemma prog_all_true {A} (p : Prog S A) : prog_all (fun _ => True) p.
Proof. induction p as [a|o k IH]; simpl; [done|]. done. Qed.

Lemma reads_before_bind {A B} (P : B -> Prop) (p : Prog S A) f :
  reads_only p -> (forall a, reads_before P (f a)) -> reads_before P (prog_bind p f).
Proof.
  intros Hp Hf. induction p as [a|o k IH]; simpl in *; [apply Hf|]. left. split; [apply Hp|].
  intros ans. apply IH, Hp.
Qed.

Lemma reads_before_none {A} (P : A -> Prop) (p : Prog S A) : prog_all (fun a => ~ P a) p -> reads_before P p.
Proof. destruct p; simpl; [done|]. intros H. by right. Qed.
End Programs.

(** ** Running programs *)

Section Runs.
Context {S : Type} {K : SdkKeepers S} {G : Geth}.
Implicit Types s : AState S.

Lemma astate_run_bind {A B} env (p : Prog S A) (f : A -> Prog S B) s :
  astate_run env (prog_bind p f) s = (astate_run env p ≫= fun a => astate_run env (f a)) s.
Proof.
  revert s. induction p as [a|o k IH]; intros s; [done|]. simpl. unfold mbind, M_bind in *. simpl.
  destruct (astate_step env o s) as [[ans|e|e] s1]; [apply IH|done|done].
Qed.

(** *** Invariants of the revertible fields *)

Definition astate_inv (I : Rev -> Prop) s : Prop :=
  live_inv I (as_cur s) /\ Forall (live_inv I) (as_saves s).

Lemma astate_step_inv (I : Rev -> Prop) {HI : RevClosed I} env o : preserves (astate_inv I) (astate_step env o).
Proof.
  intros s [Hc Hs].
  assert (forall (m : M (Live S) sdbans), preserves (live_inv I) m -> astate_inv I (snd (on_cur m s))) as Hon.
  { intros m Hm. unfold on_cur. specialize (Hm _ Hc). destruct (m (as_cur s)) as [r l]. by split. }
  destruct o; cbv beta iota delta [astate_step]; try (apply Hon, live_step_inv; apply _).
  - split; [done|]. simpl. apply Forall_app. by split; [|constructor].
  - destruct (id <? 0); [by split|]. destruct (as_saves s !! Z.to_nat id) as [l|] eqn:El; [|by split].
    split; simpl; [by eapply Forall_lookup_1 in El|]. by apply Forall_take.
Qed.

Lemma astate_run_inv (I : Rev -> Prop) {HI : RevClosed I} {A} env (p : Prog S A) :
  preserves (astate_inv I) (astate_run env p).
Proof.
  induction p as [a|o k IH]; intros s Hs; simpl; [done|].
  pose proof (astate_step_inv I env o s Hs) as H1.
  destruct (astate_step env o s) as [[ans|e|e] s1]; simpl in *; [by apply IH|done|done].
Qed.

Lemma astate_new_inv (I : Rev -> Prop) (w : World S) : I newRev -> astate_inv I (astate_new w).
Proof. intros H. by split; [|constructor]. Qed.

(** The refund counter of a state a program reaches is a [uint64], so the answers are
    of the right kind. *)
Lemma astate_run_post {A} env (P : A -> Prop) (p : Prog S A) s a s' :
  prog_post P p -> astate_inv refund_ok s -> astate_run env p s = (Ok a, s') -> P a.
Proof.
  revert s. induction p as [a0|o k IH]; intros s Hp Hs; simpl in *; [by intros [= <- <-]|].
  pose proof (astate_step_inv refund_ok env o s Hs) as H1.
  destruct (astate_step env o s) as [[ans|e|e] s1] eqn:E; [|done|done]. simpl in H1.
  apply IH; [|done]. apply Hp. destruct o; try done.
  unfold astate_step, on_cur in E. simpl in E. injection E as <- _. eexists. split; [done|]. apply Hs.
Qed.

(** *** Reading leaves the state *)

Lemma astate_step_read env o s : is_read o -> exists ans, astate_step env o s = (Ok ans, s).
Proof. destruct s. destruct o; intros []; unfold astate_step, on_cur; simpl; eauto. Qed.

Lemma astate_run_reads {A} env (p : Prog S A) s r s' :
  reads_only p -> astate_run env p s = (r, s') -> s' = s /\ is_ok r = true.
Proof.
  revert s. induction p as [a|o k IH]; intros s; simpl; [by intros _ [= <- <-]|].
  intros [Ho Hk]. destruct (astate_step_read env o s Ho) as [ans ->]. by apply IH.
Qed.

Lemma astate_run_all {A} env (P : A -> Prop) (p : Prog S A) s a s' :
  prog_all P p -> astate_run env p s = (Ok a, s') -> P a.
Proof.
  revert s. induction p as [a0|o k IH]; intros s Hp; simpl in *; [by intros [= <- <-]|].
  destruct (astate_step env o s) as [[ans|e|e] s1]; [|done|done]. apply IH, Hp.
Qed.

Lemma astate_run_reads_before {A} env (P : A -> Prop) (p : Prog S A) s a s' :
  reads_before P p -> astate_run env p s = (Ok a, s') -> P a -> s' = s.
Proof.
  revert s. induction p as [a0|o k IH]; intros s; simpl; [by intros _ [= <- <-]|].
  intros [[Ho Hk]|Hk].
  - destruct (astate_step_read env o s Ho) as [ans ->]. by apply IH.
  - destruct (astate_step env o s) as [[ans|e|e] s1]; [|done|done].
    intros E Ha. by destruct (astate_run_all _ _ _ _ _ _ (Hk ans) E).
Qed.
End Runs.

Section RunsOverContexts.
Context {S : Type} {K : SdkKeepers S} {G : Geth}.
Context {H C : Type} {X : CacheCtx H C (World S)} {XL : CacheCtxLaws H C (World S)}.

(** Whatever calls a transaction makes to a new StateDB, snapshots and reverts
    included, and however they end, every account marked as self-destructed is among the
    touched ones, so the commit visits it; and the gas refund counter always fits in 64
    bits. *)
Theorem selfdestructed_are_touched {A} (env : SdbEnv) (p : Prog S A) (ctx : C) (h : H)
  (Hctx : ctx_valid h ctx) :
  let '(_, (d', _)) := sdb_run env p (NewStateDB ctx h) in
  dom (selfDestructed (db_rev d')) ⊆ dom (touched (db_rev d')) /\ is_u64 (refund (db_rev d')).
Proof.
  assert (al2_wf newAccessList2) as Hwf by apply al2_wf_new.
  destruct (NewStateDB ctx h) as [d0 h0] eqn:E0. pose proof (refines_new ctx h d0 h0 Hctx E0) as R0.
  destruct (sdb_run env p (d0, h0)) as [r [d' h']] eqn:Er.
  destruct (refines_run env p _ _ _ _ _ _ R0 Er) as (s' & Es & R).
  assert (db_rev d' = l_rev (as_cur s')) as -> by apply R.
  pose proof (astate_run_inv destructed_touched env p (astate_new (view h ctx))) as H1.
  pose proof (astate_run_inv refund_ok env p (astate_new (view h ctx))) as H2.
  rewrite Es in H1, H2. simpl in *.
  destruct H1 as [[_ H1] _]; [apply astate_new_inv; split; [done|set_solver]|].
  destruct H2 as [[_ H2] _]; [apply astate_new_inv; split; [done|by split]|]. done.
Qed.
End RunsOverContexts.
