(* ===== verification/StateDBEffects.v ===== *)
(** * What the StateDB operations do

    The effects of the operations of [cStateDb] on balances, supply, accounts, code
    and storage, from the laws of the SDK keepers: balance changes mint or burn
    exactly the amount, an account is created with the balance it had, an account
    that is destroyed leaves nothing, and a commit removes exactly the touched
    accounts that are self-destructed or empty, in whatever order the map of touched
    accounts is visited. *)

From Stdlib Require Import Strings.Byte.
From stdpp Require Import base gmap list strings.
From S2P Require Import Prelude Sdk Geth EvmTypes EvmStore AccessList StateDB.

(** ** Coins *)

Lemma Coins_IsZero_amount c d : Coins_IsZero c = true -> AmountOf c d = 0.
Proof.
  induction c as [|[d0 z] c IH]; simpl; [done|]. rewrite andb_true_iff, Z.eqb_eq. intros [-> Hc].
  case_decide; auto.
Qed.

Lemma Coins_IsZero_valid c : coins_valid c -> Coins_IsZero c = bool_decide (c = []).
Proof.
  intros [Hp _]. destruct c as [|[d z] c]; [done|]. inversion Hp as [|? ? Hz _]; subst. simpl in *.
  destruct (Z.eqb_spec z 0); [lia|]. done.
Qed.

Lemma AmountOf_single d z d' : AmountOf [(d, z)] d' = if decide (d' = d) then z else 0.
Proof. simpl. repeat case_decide; congruence. Qed.

Section Effects.
Context {S : Type} {K : SdkKeepers S} {G : Geth} {L : SdkLaws S}.
Implicit Types (s : S) (w : World S) (l : Live S).

(** Accounts appear only among [T], with new numbers, the one of the EVM module as a
    module account; nothing else changes. *)
Record accounts_grow s s' (T : list bytes) : Prop := {
  grow_others a : a ∉ T \/ is_Some (GetAccount s a) -> GetAccount s' a = GetAccount s a;
  grow_new a acc : GetAccount s a = None -> GetAccount s' a = Some acc ->
    acc_sequence acc = 0 /\ AccountNumberSeq s <= acc_number acc < AccountNumberSeq s';
  grow_module acc : GetAccount s (GetModuleAddress EvmModuleName) = None ->
    GetAccount s' (GetModuleAddress EvmModuleName) = Some acc -> acc_kind acc = ModuleAccount;
  grow_seq : AccountNumberSeq s <= AccountNumberSeq s'
}.

Lemma accounts_grow_refl s T : accounts_grow s s T.
Proof. split; [done|intros a acc H1 H2; congruence|intros; congruence|lia]. Qed.

Lemma accounts_kept_grow k s s' t :
  (t = GetModuleAddress EvmModuleName -> k = ModuleAccount \/ is_Some (GetAccount s t)) ->
  accounts_kept k s s' t -> accounts_grow s s' [t].
Proof.
  intros Ht [Ho Hn Hs]. split; [|intros a acc H1 H2|intros acc H1 H2|done].
  - intros a [Ha|Ha]; apply Ho; [left; set_solver|by right].
  - destruct (decide (a = t)) as [->|Hne]; [by apply Hn|].
    rewrite Ho in H2 by (by left). congruence.
  - destruct (decide (GetModuleAddress EvmModuleName = t)) as [<-|Hne].
    + destruct (Ht eq_refl) as [-> |[acc0 Ha]]; [by apply Hn|congruence].
    + rewrite Ho in H2 by (by left). congruence.
Qed.
Lemma module_kept_grow s s' :
  accounts_kept ModuleAccount s s' (GetModuleAddress EvmModuleName) ->
  accounts_grow s s' [GetModuleAddress EvmModuleName].
Proof. apply accounts_kept_grow. by left. Qed.

Lemma accounts_grow_trans s s1 s2 T1 T2 :
  accounts_grow s s1 T1 -> accounts_grow s1 s2 T2 -> accounts_grow s s2 (T1 ++ T2).
Proof.
  intros [O1 N1 M1 S1] [O2 N2 M2 S2]. split; [| | |lia].
  - intros a Ha. rewrite O2, O1; [done| |].
    + destruct Ha as [Ha|Ha]; [left; set_solver|by right].
    + destruct Ha as [Ha|Ha]; [left; set_solver|]. right. rewrite O1 by (by right). done.
  - intros a acc H1 H2. destruct (GetAccount s1 a) as [acc1|] eqn:E1.
    + rewrite O2 in H2 by (right; eauto). assert (acc1 = acc) as -> by congruence.
      destruct (N1 a acc H1 E1) as (? & ?). split_and!; (done || lia).
    + destruct (N2 a acc E1 H2) as (? & ?). split_and!; (done || lia).
  - intros acc H1 H2. destruct (GetAccount s1 (GetModuleAddress EvmModuleName)) as [acc1|] eqn:E1.
    + rewrite O2 in H2 by (right; eauto). assert (acc1 = acc) as -> by congruence. by apply M1.
    + by apply M2.
Qed.

(** Balances change by [db], the supply by [ds]. *)
Record bank_delta s s' (db : bytes -> string -> Z) (ds : string -> Z) : Prop := {
  delta_balance a d : GetBalance s' a d = GetBalance s a d + db a d;
  delta_supply d : GetSupply s' d = GetSupply s d + ds d
}.

Abbreviation evm_module := (GetModuleAddress EvmModuleName).

(** ** Burning and minting *)

Definition minus_at (a : bytes) (c : Coins) (x : bytes) (d : string) : Z :=
  if decide (x = a) then - AmountOf c d else 0.
Definition plus_at (a : bytes) (c : Coins) (x : bytes) (d : string) : Z :=
  if decide (x = a) then AmountOf c d else 0.

Lemma bank_inv (f : S -> res S) l r l' :
  bank f l = (r, l') ->
  (exists s', f (w_sdk (l_world l)) = Ok s' /\ r = Ok tt /\ l' = on_world (set_sdk s') l) \/
  (is_ok (f (w_sdk (l_world l))) = false /\ is_ok r = false /\ l' = l).
Proof.
  unfold bank, run_upd. destruct (f (w_sdk (l_world l))) as [s'|e|e]; simpl; intros [= <- <-]; eauto 6.
Qed.

Lemma burnCoins_ok a c l l' :
  burnCoins a c l = (Ok tt, l') ->
  exists s', l' = on_world (set_sdk s') l /\
    bank_delta (w_sdk (l_world l)) s' (minus_at a c) (fun d => - AmountOf c d) /\
    accounts_grow (w_sdk (l_world l)) s' [evm_module].
Proof.
  unfold burnCoins. destruct (Coins_IsZero c) eqn:Ez.
  - intros [= <-]. exists (w_sdk (l_world l)). split_and!.
    + by destruct l as [[] ?].
    + split; intros; unfold minus_at; rewrite Coins_IsZero_amount by done; try case_decide; lia.
    + apply accounts_grow_refl.
  - unfold mbind, M_bind, or_panic.
    destruct (bank _ l) as [r1 l1] eqn:E1. apply bank_inv in E1 as [(s1 & E1 & -> & ->)|(_ & Hr & _)];
      [|by destruct r1].
    destruct (bank _ _) as [r2 l2] eqn:E2. apply bank_inv in E2 as [(s2 & E2 & -> & ->)|(_ & Hr & _)];
      [|by destruct r2].
    intros [= <-]. exists s2. simpl in E2.
    apply send_to_module_ok in E1 as (M1 & K1 & _ & P1). apply burn_ok in E2 as (M2 & K2 & _ & P2).
    split_and!; [by destruct l as [[] ?]| |].
    + split.
      * intros x d. rewrite M2, M1. unfold minus_at. repeat case_decide; lia.
      * intros d. rewrite P2, P1. lia.
    + apply module_kept_grow in K1, K2. pose proof (accounts_grow_trans _ _ _ _ _ K1 K2) as Hg.
      split; [|apply Hg|apply Hg|apply Hg]. intros x Hx. apply Hg. set_solver.
Qed.

Lemma mintCoins_ok a c l l' :
  mintCoins a c l = (Ok tt, l') ->
  exists s', l' = on_world (set_sdk s') l /\
    bank_delta (w_sdk (l_world l)) s' (plus_at a c) (fun d => AmountOf c d) /\
    accounts_grow (w_sdk (l_world l)) s' [evm_module; a].
Proof.
  unfold mintCoins. destruct (Coins_IsZero c) eqn:Ez.
  - intros [= <-]. exists (w_sdk (l_world l)). split_and!.
    + by destruct l as [[] ?].
    + split; intros; unfold plus_at; rewrite Coins_IsZero_amount by done; try case_decide; lia.
    + apply accounts_grow_refl.
  - unfold mbind, M_bind, or_panic.
    destruct (bank _ l) as [r1 l1] eqn:E1. apply bank_inv in E1 as [(s1 & E1 & -> & ->)|(_ & Hr & _)];
      [|by destruct r1].
    destruct (bank _ _) as [r2 l2] eqn:E2. apply bank_inv in E2 as [(s2 & E2 & -> & ->)|(_ & Hr & _)];
      [|by destruct r2].
    intros [= <-]. exists s2. simpl in E2.
    apply mint_ok in E1 as (M1 & K1 & (macc & Hmacc & _) & P1). apply send_from_module_ok in E2 as (M2 & K2 & P2).
    split_and!; [by destruct l as [[] ?]| |].
    + split.
      * intros x d. rewrite M2, M1. unfold plus_at. repeat case_decide; lia.
      * intros d. rewrite P2, P1. lia.
    + apply module_kept_grow in K1. apply accounts_kept_grow in K2; [|intros ->; right; eauto].
      exact (accounts_grow_trans _ _ _ _ _ K1 K2).
Qed.


(** ** Destroying an account *)

(** The keys of the EVM store that belong to an account: its code hash and slots. *)
Definition owned_by (k : bytes) (a : Address) : Prop :=
  k = KeyPrefixCodeHash ++ farr_bytes a \/ AddressStoragePrefix a `prefix_of` k.
#[local] Instance owned_by_dec k a : Decision (owned_by k a).
Proof. unfold owned_by. apply _. Defined.

(** What is left of account [a]: no account, no coins, no code hash and no slot; the
    coins it had are gone from the supply, and nothing else changes. *)
Record destroyed w w' (a : Address) : Prop := {
  des_balance x d : GetBalance (w_sdk w') x d =
    if decide (x = farr_bytes a) then 0 else GetBalance (w_sdk w) x d;
  des_supply d : GetSupply (w_sdk w') d = GetSupply (w_sdk w) d - GetBalance (w_sdk w) (farr_bytes a) d;
  des_account : farr_bytes a <> evm_module -> GetAccount (w_sdk w') (farr_bytes a) = None;
  des_others x : x <> farr_bytes a -> x <> evm_module \/ is_Some (GetAccount (w_sdk w) x) ->
    GetAccount (w_sdk w') x = GetAccount (w_sdk w) x;
  des_store k : w_evm w' !! k =
    if decide (owned_by k a) then None else w_evm w !! k;
  des_new acc : GetAccount (w_sdk w) evm_module = None -> GetAccount (w_sdk w') evm_module = Some acc ->
    acc_sequence acc = 0;
  des_seq : AccountNumberSeq (w_sdk w) <= AccountNumberSeq (w_sdk w');
  des_rest : exists s m, w' = set_evm m (set_sdk s w)
}.

Lemma storage_prefix_not_code a k : ~ AddressStoragePrefix a `prefix_of` (KeyPrefixCodeHash ++ k).
Proof. intros [r E]. by injection E. Qed.

Lemma evm_store_wf_delete m k : evm_store_wf m -> evm_store_wf (kv_delete m k).
Proof. unfold kv_delete. intros Hwf k' Hp [v Hv]. apply lookup_delete_Some in Hv as [_ Hv]. by eapply Hwf; eauto. Qed.

(** The account store part: the account is removed if it exists, then its coins are
    burnt. *)
Lemma destroy_world now a l l' :
  cStateDb_DestroyAccount now a l = (Ok tt, l') ->
  exists s1 s2, l' = on_world (fun _ => clear_storage
      (Keeper_DeleteCodeHash (set_sdk s2 (l_world l)) (farr_bytes a)) a) l /\
    (GetAccount (w_sdk (l_world l)) (farr_bytes a) = None /\ s1 = w_sdk (l_world l) \/
     exists acc, GetAccount (w_sdk (l_world l)) (farr_bytes a) = Some acc /\
       s1 = RemoveAccount (w_sdk (l_world l)) acc /\
       CheckIfAccountIsSuitableForDestroying now acc = true) /\
    bank_delta s1 s2 (minus_at (farr_bytes a) (GetAllBalances s1 (farr_bytes a)))
      (fun d => - GetBalance s1 (farr_bytes a) d) /\
    accounts_grow s1 s2 [evm_module].
Proof.
  unfold cStateDb_DestroyAccount. intros E.
  apply bind_ok_inv in E as (acc & l0 & [= <- <-] & E).
  apply bind_ok_inv in E as ([] & l1 & E1 & E).
  assert (exists s1, l1 = on_world (set_sdk s1) l /\
    (GetAccount (w_sdk (l_world l)) (farr_bytes a) = None /\ s1 = w_sdk (l_world l) \/
     exists acc, GetAccount (w_sdk (l_world l)) (farr_bytes a) = Some acc /\
       s1 = RemoveAccount (w_sdk (l_world l)) acc /\
       CheckIfAccountIsSuitableForDestroying now acc = true)) as (s1 & -> & Hs1).
  { destruct (GetAccount (w_sdk (l_world l)) (farr_bytes a)) as [acc|].
    - apply bind_ok_inv in E1 as ([] & l2 & E1 & E2). unfold must in E1.
      destruct (CheckIfAccountIsSuitableForDestroying now acc) eqn:Ed; [|done].
      injection E1 as <-. injection E2 as <-. eauto 8.
    - injection E1 as <-. exists (w_sdk (l_world l)). split; [by destruct l as [[] ?]|by left]. }
  clear E1. apply bind_ok_inv in E as (c & l0 & [= <- <-] & E). simpl in E.
  apply bind_ok_inv in E as ([] & l2 & E1 & E).
  assert (exists s2, l2 = on_world (set_sdk s2) l /\
    bank_delta s1 s2 (minus_at (farr_bytes a) (GetAllBalances s1 (farr_bytes a)))
      (fun d => - GetBalance s1 (farr_bytes a) d) /\ accounts_grow s1 s2 [evm_module])
    as (s2 & -> & Hd & Hg).
  { destruct (Coins_IsZero (GetAllBalances s1 (farr_bytes a))) eqn:Ez.
    - injection E1 as <-. exists s1. split_and!; [done| |apply accounts_grow_refl].
      split; intros; unfold minus_at; rewrite <- ?all_balances_spec, ?(Coins_IsZero_amount _ _ Ez);
        try case_decide; lia.
    - apply burnCoins_ok in E1 as (s2 & -> & Hd & Hg). exists s2.
      split_and!; [done| |done]. destruct Hd as [Hb Hs]. split; [done|].
      intros d. simpl in Hs. rewrite Hs, all_balances_spec. done. }
  apply bind_ok_inv in E as ([] & l3 & [= <-] & [= <-]).
  exists s1, s2. split_and!; done.
Qed.

Lemma destroy_ok now a l l' :
  evm_store_wf (w_evm (l_world l)) -> cStateDb_DestroyAccount now a l = (Ok tt, l') ->
  l_rev l' = l_rev l /\ destroyed (l_world l) (l_world l') a.
Proof.
  intros Hwf E. destruct (destroy_world _ _ _ _ E) as (s1 & s2 & -> & Hs1 & [Hb Hsup] & Hg).
  split; [done|]. cbn [l_world on_world]. set (w := l_world l) in *.
  assert (same_balances (w_sdk w) s1) as [Sb Ss].
  { destruct Hs1 as [[_ ->]|(acc & _ & -> & _)]; [done|apply remove_account_bank]. }
  assert (forall x, x <> farr_bytes a -> GetAccount s1 x = GetAccount (w_sdk w) x) as Hother.
  { intros x Hx. destruct Hs1 as [[_ ->]|(acc & Ha & -> & _)]; [done|].
    rewrite get_remove_account. apply get_account_addr in Ha. rewrite decide_False; congruence. }
  assert (GetAccount s1 (farr_bytes a) = None) as Hself.
  { destruct Hs1 as [[Ha ->]|(acc & Ha & -> & _)]; [done|].
    rewrite get_remove_account. apply get_account_addr in Ha. by rewrite decide_True. }
  set (w2 := Keeper_DeleteCodeHash (set_sdk s2 w) (farr_bytes a)).
  assert (evm_store_wf (w_evm w2)) as Hwf2 by (by apply evm_store_wf_delete).
  destruct (iterate_delete_rest (S:=S) a (storage_entries w2 a) w2) as [m Em].
  assert (clear_storage w2 a = set_evm m w2) as Ec by exact Em.
  assert (w_sdk (clear_storage w2 a) = s2) as Es by (by rewrite Ec).
  split; rewrite ?Es.
  - intros x d. rewrite Hb, Sb. unfold minus_at. case_decide as Hx; [|lia].
    rewrite Hx, all_balances_spec, Sb. lia.
  - intros d. rewrite Hsup, Ss, Sb. lia.
  - intros Hne. destruct Hg as [Ho _ _ _]. rewrite Ho; [done|]. left. set_solver.
  - intros x Hx Hm. destruct Hg as [Ho _ _ _]. rewrite Ho; [by apply Hother|].
    destruct Hm as [Hm|Hm]; [left; set_solver|right]. by rewrite Hother.
  - intros k. rewrite w_evm_clear_storage by done. simpl.
    unfold kv_delete, owned_by. rewrite lookup_delete. clear -k.
    repeat case_decide; naive_solver.
  - intros acc Hn Ha. destruct Hg as [_ Hnew _ _]. apply (Hnew evm_module); [|done].
    destruct (decide (evm_module = farr_bytes a)) as [->|Hne]; [done|]. by rewrite Hother.
  - destruct Hg as [_ _ _ Hg]. destruct Hs1 as [[_ ->]|(acc & _ & -> & _)]; [done|].
    by rewrite remove_account_seq in Hg.
  - rewrite Ec. by eexists s2, m.
Qed.

(** ** When burning and minting succeed *)

(** The EVM module may mint and burn (its permissions in app/modules.go), and nobody
    else took the address of its account. *)
Record evm_module_ready s : Prop := {
  ready_minter : HasMinter (S:=S) EvmModuleName = true;
  ready_burner : HasBurner (S:=S) EvmModuleName = true;
  ready_free : module_free s EvmModuleName
}.

Lemma evm_module_ready_grow s s' T : evm_module_ready s -> accounts_grow s s' T -> evm_module_ready s'.
Proof.
  intros [Hm Hb Hp] [Ho _ Hn _]. split; [done|done|]. intros acc Ha.
  destruct (GetAccount s evm_module) as [acc0|] eqn:E.
  - rewrite Ho in Ha by (right; eauto). rewrite E in Ha. injection Ha as <-. by apply Hp.
  - by apply Hn.
Qed.

Lemma evm_module_unlocked s d : evm_module_ready s -> LockedCoins s evm_module d = 0.
Proof. intros [_ _ Hp]. apply locked_unvesting. intros acc Ha. right. by apply Hp. Qed.

Lemma coins_amount_nonneg c d : coins_valid c -> 0 <= AmountOf c d.
Proof.
  intros [Hp _]. induction Hp as [|[d0 z] c Hz _ IH]; simpl; [lia|]. simpl in Hz. case_decide; lia.
Qed.

Lemma burnCoins_progress a c l :
  evm_module_ready (w_sdk (l_world l)) -> coins_valid c -> can_spend (w_sdk (l_world l)) a c ->
  exists l', burnCoins a c l = (Ok tt, l').
Proof.
  intros Hr Hv Hs. unfold burnCoins. destruct (Coins_IsZero c); [by eexists|].
  unfold mbind, M_bind, or_panic, bank, run_upd.
  destruct (send_to_module_progress _ _ EvmModuleName _ Hv Hs) as [s1 E1]; [left; apply Hr|apply Hr|].
  rewrite E1. simpl. apply send_to_module_ok in E1 as (Hm & Hk & _).
  assert (evm_module_ready s1) as Hr1 by (by eapply evm_module_ready_grow; [|apply module_kept_grow]).
  destruct (burn_progress s1 EvmModuleName c Hv) as [s2 E2]; [apply Hr|apply Hr1| |].
  - intros d. rewrite (evm_module_unlocked s1 d Hr1), Hm. pose proof (balance_nonneg (w_sdk (l_world l)) evm_module d).
    pose proof (coins_amount_nonneg c d Hv). specialize (Hs d). repeat case_decide; subst; try done; try lia.
    rewrite (evm_module_unlocked _ d Hr) in Hs. lia.
  - rewrite E2. simpl. eauto.
Qed.

Lemma burnCoins_insufficient a c l :
  coins_valid c -> c <> [] -> ~ can_spend (w_sdk (l_world l)) a c ->
  is_ok (fst (burnCoins a c l)) = false.
Proof.
  intros Hv Hne Hs. unfold burnCoins. rewrite Coins_IsZero_valid, bool_decide_eq_false_2 by done.
  pose proof (send_to_module_insufficient _ _ EvmModuleName _ Hv Hs) as Hf.
  unfold mbind, M_bind, or_panic, bank, run_upd.
  destruct (SendCoinsFromAccountToModule _ _ _ _); simpl in *; done.
Qed.

Lemma mintCoins_progress a c l :
  evm_module_ready (w_sdk (l_world l)) -> coins_valid c -> BlockedAddr (S:=S) a = false ->
  (forall d, GetSupply (w_sdk (l_world l)) d + AmountOf c d < 2 ^ 256) ->
  exists l', mintCoins a c l = (Ok tt, l').
Proof.
  intros Hr Hv Hb Hs. unfold mintCoins. destruct (Coins_IsZero c); [by eexists|].
  unfold mbind, M_bind, or_panic, bank, run_upd.
  destruct (mint_progress _ EvmModuleName _ Hv (ready_minter _ Hr) (ready_free _ Hr) Hs) as [s1 E1].
  rewrite E1. simpl. apply mint_ok in E1 as (Hm & Hk & _).
  assert (evm_module_ready s1) as Hr1 by (by eapply evm_module_ready_grow; [|apply module_kept_grow]).
  destruct (send_from_module_progress s1 EvmModuleName a c Hv) as [s2 E2]; [|done|].
  - intros d. rewrite (evm_module_unlocked s1 d Hr1), Hm, decide_True by done.
    pose proof (balance_nonneg (w_sdk (l_world l)) evm_module d). lia.
  - rewrite E2. simpl. eauto.
Qed.

(** ** Balance changes *)

Definition touched_live (a : Address) l : Live S :=
  on_rev (fun r => mkRev (AccountTracker_Add (touched r) a) (refund r) (selfDestructed r)
                     (rv_accessList r) (logs r) (transientStorage r)) l.

Lemma NewCoins1_pos d z : 0 < z -> NewCoins1 d z = Ok [(d, z)].
Proof.
  intros Hz. unfold NewCoins1. destruct (Z.ltb_spec z 0); [lia|]. destruct (Z.eqb_spec z 0); [lia|done].
Qed.

Lemma coins_valid_single d z : 0 < z -> coins_valid [(d, z)].
Proof. intros Hz. split; [by constructor|]. apply NoDup_singleton. Qed.

Lemma NewInt_ok z : 0 <= z < 2 ^ 256 -> NewIntFromBigInt z = Ok z.
Proof.
  intros Hz. unfold NewIntFromBigInt. assert (BitLen z <= 256) by (apply BitLen_le_iff; lia).
  destruct (Z.ltb_spec 256 (BitLen z)); [lia|done].
Qed.

Lemma SubBalance_unfold env a b l :
  0 < b < 2 ^ 256 ->
  cStateDb_SubBalance env a b l = burnCoins (farr_bytes a) [(evmDenom env, b)] (touched_live a l).
Proof.
  intros Hb. unfold cStateDb_SubBalance, touch. munfold. simpl.
  rewrite Z.sgn_pos by lia. simpl. rewrite NewInt_ok, NewCoins1_pos by lia. done.
Qed.

Lemma AddBalance_unfold env a b l :
  0 < b < 2 ^ 256 ->
  cStateDb_AddBalance env a b l = mintCoins (farr_bytes a) [(evmDenom env, b)] (touched_live a l).
Proof.
  intros Hb. unfold cStateDb_AddBalance, touch. munfold. simpl.
  rewrite Z.sgn_pos by lia. simpl. rewrite NewInt_ok, NewCoins1_pos by lia. done.
Qed.

Definition spendable s (a : bytes) (d : string) : Z := GetBalance s a d - LockedCoins s a d.
(** [b] of the denomination [d0], added to the account [a] only. *)
Definition at_account (a : bytes) (d0 : string) (b : Z) (x : bytes) (d : string) : Z :=
  if decide (x = a /\ d = d0) then b else 0.
Definition at_denom (d0 : string) (b : Z) (d : string) : Z := if decide (d = d0) then b else 0.

Lemma bank_delta_ext s s' db ds db' ds' :
  (forall x d, db x d = db' x d) -> (forall d, ds d = ds' d) -> bank_delta s s' db ds -> bank_delta s s' db' ds'.
Proof. intros H1 H2 [Hb Hs]. split; intros; rewrite ?Hb, ?Hs, ?H1, ?H2; done. Qed.

Lemma minus_at_single a d0 b x d : minus_at a [(d0, b)] x d = at_account a d0 (- b) x d.
Proof. unfold minus_at, at_account. rewrite AmountOf_single. repeat case_decide; naive_solver lia. Qed.
Lemma plus_at_single a d0 b x d : plus_at a [(d0, b)] x d = at_account a d0 b x d.
Proof. unfold plus_at, at_account. rewrite AmountOf_single. repeat case_decide; naive_solver. Qed.

Lemma can_spend_single s a d0 b :
  0 < b -> (forall d, LockedCoins s a d <= GetBalance s a d) ->
  can_spend s a [(d0, b)] <-> b <= spendable s a d0.
Proof.
  intros Hb Hl. unfold can_spend, spendable. split.
  - intros H. specialize (H d0). by rewrite AmountOf_single, decide_True in H.
  - intros H d. rewrite AmountOf_single. case_decide; [by subst|]. specialize (Hl d). lia.
Qed.

(** [SubBalance] when the amount can be spent. *)
Lemma SubBalance_ok env a b l :
  0 < b < 2 ^ 256 -> evm_module_ready (w_sdk (l_world l)) ->
  (forall d, LockedCoins (w_sdk (l_world l)) (farr_bytes a) d <= GetBalance (w_sdk (l_world l)) (farr_bytes a) d) ->
  b <= spendable (w_sdk (l_world l)) (farr_bytes a) (evmDenom env) ->
  exists s', cStateDb_SubBalance env a b l = (Ok tt, on_world (set_sdk s') (touched_live a l)) /\
    bank_delta (w_sdk (l_world l)) s' (at_account (farr_bytes a) (evmDenom env) (- b))
      (at_denom (evmDenom env) (- b)) /\
    accounts_grow (w_sdk (l_world l)) s' [evm_module].
Proof.
  intros Hb Hr Hl Hs. rewrite SubBalance_unfold by lia.
  destruct (burnCoins_progress (farr_bytes a) [(evmDenom env, b)] (touched_live a l)) as [l' E];
    [done|apply coins_valid_single; lia|by apply can_spend_single; [lia| |]|].
  apply burnCoins_ok in E as Hok. destruct Hok as (s' & -> & Hd & Hg).
  exists s'. split_and!; [by rewrite E| |done].
  eapply bank_delta_ext; [| |exact Hd].
  - intros x d. apply minus_at_single.
  - intros d. unfold at_denom. rewrite AmountOf_single. case_decide; lia.
Qed.

Lemma AddBalance_ok env a b l :
  0 < b < 2 ^ 256 -> evm_module_ready (w_sdk (l_world l)) ->
  BlockedAddr (S:=S) (farr_bytes a) = false ->
  (forall d, GetSupply (w_sdk (l_world l)) d + at_denom (evmDenom env) b d < 2 ^ 256) ->
  exists s', cStateDb_AddBalance env a b l = (Ok tt, on_world (set_sdk s') (touched_live a l)) /\
    bank_delta (w_sdk (l_world l)) s' (at_account (farr_bytes a) (evmDenom env) b)
      (at_denom (evmDenom env) b) /\
    accounts_grow (w_sdk (l_world l)) s' [evm_module; farr_bytes a].
Proof.
  intros Hb Hr Hbl Hs. rewrite AddBalance_unfold by lia.
  assert (forall d, AmountOf [(evmDenom env, b)] d = at_denom (evmDenom env) b d) as Ha
    by (intros d; by rewrite AmountOf_single).
  destruct (mintCoins_progress (farr_bytes a) [(evmDenom env, b)] (touched_live a l)) as [l' E];
    [done|apply coins_valid_single; lia|done|by intros d; rewrite Ha|].
  apply mintCoins_ok in E as Hok. destruct Hok as (s' & -> & Hd & Hg).
  exists s'. split_and!; [by rewrite E| |done].
  eapply bank_delta_ext; [| |exact Hd]; [intros x d; apply plus_at_single|done].
Qed.

(** [SubBalance] burns: it marks the account as touched, and when the account can
    spend the amount it takes exactly that much of the EVM coin from it and from the
    supply and changes no other balance or account (but for the EVM module account
    itself, which may be created); an amount above what can be spent panics; zero
    only touches. *)
Theorem SubBalance_burns (env : SdbEnv) (a : Address) (b : Z) (l : Live S)
  (Hb : 0 <= b < 2 ^ 256) (Hready : evm_module_ready (w_sdk (l_world l)))
  (Hlocked : forall d, LockedCoins (w_sdk (l_world l)) (farr_bytes a) d
                       <= GetBalance (w_sdk (l_world l)) (farr_bytes a) d) :
  if decide (b <= spendable (w_sdk (l_world l)) (farr_bytes a) (evmDenom env)) then
    exists s', cStateDb_SubBalance env a b l = (Ok tt, on_world (set_sdk s') (touched_live a l)) /\
      bank_delta (w_sdk (l_world l)) s' (at_account (farr_bytes a) (evmDenom env) (- b))
        (at_denom (evmDenom env) (- b)) /\
      accounts_grow (w_sdk (l_world l)) s' [evm_module]
  else is_ok (fst (cStateDb_SubBalance env a b l)) = false.
Proof.
  destruct (decide (b = 0)) as [->|Hnz].
  { rewrite decide_True by (unfold spendable; specialize (Hlocked (evmDenom env)); lia).
    exists (w_sdk (l_world l)). split_and!; [by destruct l as [[] ?]| |apply accounts_grow_refl].
    split; intros; unfold at_account, at_denom; case_decide; lia. }
  case_decide as Hs; [by apply SubBalance_ok; [lia| | |]|].
  rewrite SubBalance_unfold by lia. apply burnCoins_insufficient; [apply coins_valid_single; lia|done|].
  simpl. intros Hc. apply can_spend_single in Hc; [done|lia|done].
Qed.

(** [AddBalance] mints: it marks the account as touched and, below the 256-bit
    limit of the supply, gives it exactly the amount of the EVM coin and raises the
    supply by it, changing no other balance; an address that may not receive coins
    from modules makes it panic. *)
Theorem AddBalance_mints (env : SdbEnv) (a : Address) (b : Z) (l : Live S)
  (Hb : 0 < b < 2 ^ 256) (Hready : evm_module_ready (w_sdk (l_world l)))
  (Hsupply : forall d, GetSupply (w_sdk (l_world l)) d + at_denom (evmDenom env) b d < 2 ^ 256) :
  if BlockedAddr (S:=S) (farr_bytes a) then is_ok (fst (cStateDb_AddBalance env a b l)) = false
  else exists s', cStateDb_AddBalance env a b l = (Ok tt, on_world (set_sdk s') (touched_live a l)) /\
    bank_delta (w_sdk (l_world l)) s' (at_account (farr_bytes a) (evmDenom env) b)
      (at_denom (evmDenom env) b) /\
    accounts_grow (w_sdk (l_world l)) s' [evm_module; farr_bytes a].
Proof.
  destruct (BlockedAddr (farr_bytes a)) eqn:Ebl; [|by apply AddBalance_ok].
  rewrite AddBalance_unfold by lia. unfold mintCoins.
  rewrite Coins_IsZero_valid by (apply coins_valid_single; lia). simpl.
  unfold mbind, M_bind, or_panic, bank, run_upd. simpl.
  destruct (MintCoins _ _ _) as [s1|e|e]; simpl; [|done|done].
  pose proof (send_from_module_blocked s1 EvmModuleName _ [(evmDenom env, b)] Ebl) as Hf.
  by destruct (SendCoinsFromModuleToAccount _ _ _ _).
Qed.

(** C10 A transfer of value as the EVM makes it, [SubBalance] of the sender and then
    [AddBalance] of the recipient: when the sender can spend the amount it succeeds,
    moves exactly the amount and leaves the total supply as it was. *)
Theorem transfer_conserves_supply (env : SdbEnv) (sender recipient : Address) (b : Z) (l : Live S)
  (Hb : 0 < b < 2 ^ 256) (Hready : evm_module_ready (w_sdk (l_world l)))
  (Hlocked : forall d, LockedCoins (w_sdk (l_world l)) (farr_bytes sender) d
                       <= GetBalance (w_sdk (l_world l)) (farr_bytes sender) d)
  (Hspend : b <= spendable (w_sdk (l_world l)) (farr_bytes sender) (evmDenom env))
  (Hsupply : forall d, GetSupply (w_sdk (l_world l)) d < 2 ^ 256)
  (Hblocked : BlockedAddr (S:=S) (farr_bytes recipient) = false) :
  exists l', (cStateDb_SubBalance env sender b ;; cStateDb_AddBalance env recipient b) l = (Ok tt, l') /\
    forall d, GetSupply (w_sdk (l_world l')) d = GetSupply (w_sdk (l_world l)) d /\
      forall x, GetBalance (w_sdk (l_world l')) x d =
        GetBalance (w_sdk (l_world l)) x d + at_account (farr_bytes sender) (evmDenom env) (- b) x d
          + at_account (farr_bytes recipient) (evmDenom env) b x d.
Proof.
  destruct (SubBalance_ok env sender b l Hb Hready Hlocked Hspend) as (s1 & E1 & [B1 P1] & G1).
  unfold mbind, M_bind. rewrite E1. set (l1 := on_world _ _).
  destruct (AddBalance_ok env recipient b l1 Hb) as (s2 & E2 & [B2 P2] & G2).
  - by eapply evm_module_ready_grow.
  - done.
  - intros d. simpl. rewrite P1. specialize (Hsupply d). unfold at_denom. case_decide; lia.
  - rewrite E2. eexists. split; [done|]. intros d. simpl. simpl in B2, P2.
    rewrite P2, P1. split; [unfold at_denom; case_decide; lia|]. intros x. by rewrite B2, B1.
Qed.

(** ** Creating an account *)

Lemma createAccountIfNotExists_new a l :
  GetAccount (w_sdk (l_world l)) (farr_bytes a) = None ->
  exists s' acc, createAccountIfNotExists a l = (Ok tt, on_world (set_sdk s') l) /\
    GetAccount s' (farr_bytes a) = Some acc /\ acc_sequence acc = 0 /\ acc_kind acc = BaseAccount /\
    acc_number acc = AccountNumberSeq (w_sdk (l_world l)) /\
    AccountNumberSeq s' = AccountNumberSeq (w_sdk (l_world l)) + 1 /\
    (forall x, x <> farr_bytes a -> GetAccount s' x = GetAccount (w_sdk (l_world l)) x) /\
    same_balances (w_sdk (l_world l)) s'.
Proof.
  intros Hn. unfold createAccountIfNotExists. rewrite has_account_spec, Hn. simpl.
  pose proof (new_account_bank (w_sdk (l_world l)) (farr_bytes a)) as [Hb Hs].
  destruct (NewAccountWithAddress _ _) as [acc s1] eqn:E.
  apply new_account_spec in E as (Ha & Hq & Hk & Hnum & Hseq & Hget). simpl in Hb, Hs.
  exists (SetAccount s1 acc), acc. pose proof (set_account_bank s1 acc) as [Hb2 Hs2].
  split_and!; try done.
  - rewrite get_set_account, Ha. by rewrite decide_True.
  - by rewrite set_account_seq.
  - intros x Hx. rewrite get_set_account, Ha, decide_False by done. apply Hget.
  - split; intros; [by rewrite Hb2, Hb|]. intros d. by rewrite Hs2, Hs.
Qed.

Lemma destroyed_GetState w w' a b k : destroyed w w' a -> b <> a -> Keeper_GetState w' b k = Keeper_GetState w b k.
Proof.
  intros Hd Hne. unfold Keeper_GetState, kv_get. fold (StateKey b (farr_bytes k)).
  assert (w_evm w' !! StateKey b (farr_bytes k) = w_evm w !! StateKey b (farr_bytes k)) as ->; [|done].
  rewrite (des_store _ _ _ Hd). rewrite decide_False; [done|]. intros [E|Hp].
  - by injection E.
  - by apply AddressStoragePrefix_of_key in Hp.
Qed.

Lemma evm_store_wf_destroyed w w' a : evm_store_wf (w_evm w) -> destroyed w w' a -> evm_store_wf (w_evm w').
Proof. intros Hwf Hd k Hk [v Hv]. rewrite (des_store _ _ _ Hd) in Hv. case_decide; [done|]. eauto. Qed.

Lemma destroyed_storage w w' a :
  evm_store_wf (w_evm w) -> destroyed w w' a -> storage_entries w' a = [].
Proof.
  intros Hwf Hd. apply storage_entries_nil; [by eapply evm_store_wf_destroyed|].
  intros key. rewrite (des_store _ _ _ Hd). rewrite decide_True; [done|]. right. apply storage_prefix_of_self.
Qed.

Lemma storage_entries_set_sdk w s a : storage_entries (set_sdk s w) a = storage_entries w a.
Proof. done. Qed.

(** [CreateAccount] carries the balance over: whenever it succeeds, the account is
    a new base account with nonce zero and a number no earlier account had, without
    code and without storage; every balance of every denomination and the supply are
    as before, and so are the other accounts and their storage. *)
Theorem CreateAccount_carries_balance (now : Z) (a : Address) (l l' : Live S)
  (Hwf : evm_store_wf (w_evm (l_world l))) (Hmodule : farr_bytes a <> GetModuleAddress (S:=S) EvmModuleName)
  (Hok : cStateDb_CreateAccount now a l = (Ok tt, l')) :
  (exists acc, GetAccount (w_sdk (l_world l')) (farr_bytes a) = Some acc /\
     acc_sequence acc = 0 /\ acc_kind acc = BaseAccount /\
     AccountNumberSeq (w_sdk (l_world l)) <= acc_number acc) /\
  cStateDb_GetCodeHash a l' = EmptyCodeHash /\ storage_entries (l_world l') a = [] /\
  (forall d, GetSupply (w_sdk (l_world l')) d = GetSupply (w_sdk (l_world l)) d) /\
  (forall x d, GetBalance (w_sdk (l_world l')) x d = GetBalance (w_sdk (l_world l)) x d) /\
  (forall x, x <> farr_bytes a ->
     x <> GetModuleAddress (S:=S) EvmModuleName \/ is_Some (GetAccount (w_sdk (l_world l)) x) ->
     GetAccount (w_sdk (l_world l')) x = GetAccount (w_sdk (l_world l)) x) /\
  (forall b k, b <> a -> cStateDb_GetState b k l' = cStateDb_GetState b k l).
Proof.
  unfold cStateDb_CreateAccount in Hok.
  apply bind_ok_inv in Hok as ([] & l0 & [= <-] & Hok).
  apply bind_ok_inv in Hok as (c & l0 & [= <- <-] & Hok). cbn [l_world on_rev] in Hok.
  apply bind_ok_inv in Hok as ([] & l1 & E1 & Hok).
  apply destroy_ok in E1 as [_ D]; [|done]. cbn [l_world on_rev] in D.
  set (w := l_world l) in *. set (w1 := l_world l1) in *.
  pose proof (des_account _ _ _ D Hmodule) as Hnone.
  destruct (createAccountIfNotExists_new a l1 Hnone) as
    (s2 & acc & E2 & Ha & Hq & Hk & Hnum & Hseq & Hother & [Sb Ss]).
  apply bind_ok_inv in Hok as ([] & l2 & E2' & Hok). rewrite E2 in E2'. injection E2' as <-.
  assert (exists s3, l' = on_world (set_sdk s3) l1 /\
    bank_delta s2 s3 (plus_at (farr_bytes a) (GetAllBalances (w_sdk w) (farr_bytes a)))
      (fun d => GetBalance (w_sdk w) (farr_bytes a) d) /\
    accounts_grow s2 s3 [evm_module; farr_bytes a]) as (s3 & -> & [B3 P3] & [O3 _ _ _]).
  { destruct (Coins_IsZero (GetAllBalances (w_sdk w) (farr_bytes a))) eqn:Ez.
    - injection Hok as <-. exists s2. split_and!; [done| |apply accounts_grow_refl].
      split; intros; unfold plus_at; rewrite <- ?all_balances_spec, ?(Coins_IsZero_amount _ _ Ez);
        try case_decide; lia.
    - apply mintCoins_ok in Hok as (s3 & -> & Hd & Hg). exists s3. split_and!; [done| |done].
      eapply bank_delta_ext; [| |exact Hd]; [done|]. intros d. apply all_balances_spec. }
  cbn [l_world on_world w_sdk set_sdk] in *. fold w1.
  assert (GetAccount s3 (farr_bytes a) = Some acc) as Ha3 by (rewrite O3 by (right; eauto); done).
  split_and!.
  - exists acc. split_and!; try done. pose proof (des_seq _ _ _ D). fold w w1 in Hnum. lia.
  - unfold cStateDb_GetCodeHash, Keeper_GetCodeHash, kv_get. simpl. fold w1.
    assert (w_evm w1 !! (KeyPrefixCodeHash ++ farr_bytes a) = None) as Hc
      by (rewrite (des_store _ _ _ D), decide_True; [done|by left]).
    simpl in Hc. rewrite Hc. simpl. by rewrite has_account_spec, Ha3.
  - change (storage_entries w1 a = []). by eapply destroyed_storage.
  - intros d. rewrite P3, Ss, (des_supply _ _ _ D). lia.
  - intros x d. rewrite B3, Sb, (des_balance _ _ _ D). unfold plus_at.
    case_decide as Hx; [|lia]. rewrite Hx, all_balances_spec. lia.
  - intros x Hx Hm. rewrite O3.
    + rewrite Hother by done. by apply (des_others _ _ _ D).
    + destruct Hm as [Hm|Hm]; [left; set_solver|right]. rewrite Hother by done.
      rewrite (des_others _ _ _ D); [done|done|by right].
  - intros b k Hb. exact (destroyed_GetState w w1 a b k D Hb).
Qed.

(** ** Emptiness *)

Lemma iterate_stop_first {A} (l : list A) :
  iterate (fun _ _ => (false, true)) l false = negb (bool_decide (l = [])).
Proof. by destruct l. Qed.

(** The coins of an account are zero exactly when every balance is. *)
Lemma AllBalances_zero s a :
  Coins_IsZero (GetAllBalances s a) = true <-> forall d, GetBalance s a d = 0.
Proof.
  split.
  - intros Hz d. rewrite <- all_balances_spec. by apply Coins_IsZero_amount.
  - intros Hz. pose proof (all_balances_valid s a) as Hv. rewrite Coins_IsZero_valid by done.
    apply bool_decide_eq_true_2. destruct Hv as [Hp _].
    assert (forall d, AmountOf (GetAllBalances s a) d = 0) as Hzero
      by (intros d; rewrite all_balances_spec; apply Hz).
    destruct (GetAllBalances s a) as [|[d z] c]; [done|]. inversion Hp as [|? ? Hpos _]; subst.
    specialize (Hzero d). simpl in *. rewrite decide_True in Hzero by done. lia.
Qed.

(** An account is empty when it has no code hash, no coins, nonce zero and no slot. *)
Lemma IsEmptyAccount_iff w a :
  Keeper_IsEmptyAccount w a = true <->
  IsEmptyCodeHash (Keeper_GetCodeHash w (farr_bytes a)) = true /\
  (forall d, GetBalance (w_sdk w) (farr_bytes a) d = 0) /\
  (forall acc, GetAccount (w_sdk w) (farr_bytes a) = Some acc -> acc_sequence acc <= 0) /\
  storage_entries w a = [].
Proof.
  unfold Keeper_IsEmptyAccount, Keeper_ForEachStorage. rewrite iterate_stop_first, <- AllBalances_zero.
  destruct (IsEmptyCodeHash _); simpl; [|naive_solver].
  destruct (Coins_IsZero _); simpl; [|naive_solver].
  destruct (GetAccount (w_sdk w) (farr_bytes a)) as [acc|].
  - destruct (Z.ltb_spec 0 (acc_sequence acc)).
    + split; [done|]. intros (_ & _ & Hs & _). specialize (Hs acc eq_refl). lia.
    + rewrite negb_involutive, bool_decide_eq_true. naive_solver.
  - rewrite negb_involutive, bool_decide_eq_true. naive_solver.
Qed.

(** Destroying an account does not change which other accounts are empty. *)
Lemma destroyed_empty w w' a b :
  evm_store_wf (w_evm w) -> destroyed w w' a -> b <> a ->
  Keeper_IsEmptyAccount w' b = Keeper_IsEmptyAccount w b.
Proof.
  intros Hwf D Hne. apply Bool.eq_true_iff_eq. rewrite !IsEmptyAccount_iff.
  assert (farr_bytes b <> farr_bytes a) as Hb by (intros E; by apply Hne, farr_eq).
  assert (evm_store_wf (w_evm w')) as Hwf' by (by eapply evm_store_wf_destroyed).
  assert (forall k : Hash, w_evm w' !! StateKey b (farr_bytes k) = w_evm w !! StateKey b (farr_bytes k)) as Hslot.
  { intros k. rewrite (des_store _ _ _ D), decide_False; [done|]. intros [E|Hp]; [by injection E|].
    by apply AddressStoragePrefix_of_key in Hp. }
  assert (w_evm w' !! (KeyPrefixCodeHash ++ farr_bytes b) = w_evm w !! (KeyPrefixCodeHash ++ farr_bytes b)) as Hcode.
  { rewrite (des_store _ _ _ D), decide_False; [done|]. intros [E|Hp]; [by apply app_inv_head in E|].
    by apply storage_prefix_not_code in Hp. }
  assert (GetAccount (w_sdk w') (farr_bytes b) = GetAccount (w_sdk w) (farr_bytes b) \/
    GetAccount (w_sdk w) (farr_bytes b) = None /\ forall acc, GetAccount (w_sdk w') (farr_bytes b) = Some acc ->
      acc_sequence acc = 0) as Hacc.
  { destruct (GetAccount (w_sdk w) (farr_bytes b)) as [acc|] eqn:E.
    - left. rewrite <- E. apply (des_others _ _ _ D); [done|]. right. eauto.
    - destruct (decide (farr_bytes b = evm_module)) as [Em|Hm].
      + right. split; [done|]. rewrite Em in *. intros acc. by apply (des_new _ _ _ D).
      + left. rewrite <- E. apply (des_others _ _ _ D); [done|by left]. }
  rewrite !storage_entries_nil by done.
  assert (IsEmptyCodeHash (Keeper_GetCodeHash w' (farr_bytes b)) = true <->
          IsEmptyCodeHash (Keeper_GetCodeHash w (farr_bytes b)) = true) as ->.
  { unfold Keeper_GetCodeHash, kv_get. rewrite Hcode. case_decide; [|done].
    assert (forall x : bool, IsEmptyCodeHash (if x then EmptyCodeHash else zero_hash) = true) as Hx; [|by rewrite !Hx].
    intros [|]; unfold IsEmptyCodeHash; apply orb_true_iff; [right|left]; by apply bool_decide_eq_true_2. }
  assert (forall d, GetBalance (w_sdk w') (farr_bytes b) d = GetBalance (w_sdk w) (farr_bytes b) d) as Hbal
    by (intros d; by rewrite (des_balance _ _ _ D), decide_False).
  setoid_rewrite Hbal. setoid_rewrite Hslot.
  destruct Hacc as [->|[Hn Hz]]; [done|]. rewrite Hn.
  assert ((forall acc, GetAccount (w_sdk w') (farr_bytes b) = Some acc -> acc_sequence acc <= 0) <->
          (forall acc, None = Some acc -> acc_sequence acc <= 0)) as ->; [|done].
  split; [done|]. intros _ acc Ha. rewrite (Hz acc Ha). lia.
Qed.

(** ** The commit *)

(** What is left when the accounts [D] were destroyed. *)
Record wiped w w' (D : list Address) : Prop := {
  wip_balance x d : GetBalance (w_sdk w') x d =
    if decide (x ∈ farr_bytes <$> D) then 0 else GetBalance (w_sdk w) x d;
  wip_account a : a ∈ D -> farr_bytes a <> evm_module -> GetAccount (w_sdk w') (farr_bytes a) = None;
  wip_others x : x ∉ farr_bytes <$> D -> x <> evm_module \/ is_Some (GetAccount (w_sdk w) x) ->
    GetAccount (w_sdk w') x = GetAccount (w_sdk w) x;
  wip_store k : w_evm w' !! k =
    if decide (Exists (owned_by k) D) then None else w_evm w !! k;
  wip_supply d : GetSupply (w_sdk w') d =
    GetSupply (w_sdk w) d - foldr (fun a z => GetBalance (w_sdk w) (farr_bytes a) d + z) 0 D
}.

Lemma wiped_nil w : wiped w w [].
Proof.
  split; try done.
  - intros a Ha. by apply not_elem_of_nil in Ha.
  - intros d. simpl. lia.
Qed.

Lemma wiped_cons w w1 w' a D :
  destroyed w w1 a -> wiped w1 w' D -> a ∉ D -> wiped w w' (a :: D).
Proof.
  intros Hd Hw Ha.
  assert (farr_bytes a ∉ farr_bytes <$> D) as Hfa.
  { rewrite list_elem_of_fmap. intros (b & E & Hb). apply farr_eq in E as <-. done. }
  split.
  - intros x d. rewrite (wip_balance _ _ _ Hw), (des_balance _ _ _ Hd), fmap_cons.
    repeat case_decide; set_solver.
  - intros b Hb Hm. apply elem_of_cons in Hb as [->|Hb]; [|by apply (wip_account _ _ _ Hw)].
    rewrite (wip_others _ _ _ Hw); [by apply (des_account _ _ _ Hd)|done|by left].
  - intros x Hx Hm. rewrite fmap_cons, not_elem_of_cons in Hx. destruct Hx as [Hxa Hx].
    rewrite (wip_others _ _ _ Hw); [by apply (des_others _ _ _ Hd)|done|].
    destruct Hm as [Hm|Hm]; [by left|right]. rewrite (des_others _ _ _ Hd); [done|done|by right].
  - intros k. rewrite (wip_store _ _ _ Hw), (des_store _ _ _ Hd).
    destruct (decide (owned_by k a)) as [Ho|Ho], (decide (Exists (owned_by k) D)) as [He|He].
    + rewrite decide_True; [done|by constructor].
    + rewrite decide_True; [done|by left].
    + rewrite decide_True; [done|by right].
    + rewrite decide_False; [done|]. rewrite Exists_cons. naive_solver.
  - intros d. rewrite (wip_supply _ _ _ Hw), (des_supply _ _ _ Hd). simpl.
    assert (foldr (fun a z => GetBalance (w_sdk w1) (farr_bytes a) d + z) 0 D =
            foldr (fun a z => GetBalance (w_sdk w) (farr_bytes a) d + z) 0 D) as ->; [|lia].
    clear Hw. induction D as [|b D IH]; [done|]. simpl. rewrite fmap_cons, not_elem_of_cons in Hfa.
    rewrite IH by set_solver. rewrite (des_balance _ _ _ Hd), decide_False by naive_solver. done.
Qed.

(** The accounts that the commit destroys. *)
Definition doomed (deleteEmptyObjects : bool) l (a : Address) : bool :=
  bool_decide (is_Some (selfDestructed (l_rev l) !! a)) || (deleteEmptyObjects && cStateDb_Empty a l).

Lemma destroy_touched_unfold now de a l :
  destroy_touched now de a l =
  if doomed de l a then cStateDb_DestroyAccount now a l else (Ok tt, l).
Proof. unfold destroy_touched, doomed. munfold. by case_match. Qed.

Lemma destroy_all_ok now de order l l' :
  evm_store_wf (w_evm (l_world l)) -> NoDup order -> destroy_all now de order l = (Ok tt, l') ->
  l_rev l' = l_rev l /\ wiped (l_world l) (l_world l') (List.filter (doomed de l) order).
Proof.
  revert l. induction order as [|a order IH]; intros l Hwf Hnd; simpl.
  - intros [= <-]. split; [done|apply wiped_nil].
  - inversion Hnd as [|? ? Hna Hnd']; subst. unfold destroy_all. cbn [mapM_].
    intros E. apply bind_ok_inv in E as ([] & l1 & E1 & E). rewrite destroy_touched_unfold in E1.
    destruct (doomed de l a) eqn:Ed; [|injection E1 as <-; by apply IH].
    apply destroy_ok in E1 as [Er D]; [|done].
    destruct (IH l1) as [Er' W]; [by eapply evm_store_wf_destroyed|done|exact E|].
    split; [congruence|]. eapply wiped_cons; [exact D| |].
    + assert (List.filter (doomed de l) order = List.filter (doomed de l1) order) as ->; [|done].
      clear -Hwf Hna Er D L. induction order as [|b order IH]; [done|]. simpl.
      apply not_elem_of_cons in Hna as [Hb Hna]. rewrite (IH Hna). unfold doomed.
      rewrite Er. unfold cStateDb_Empty. by rewrite (destroyed_empty _ _ a b Hwf D) by done.
    + intros Hin. apply list_elem_of_In, List.filter_In in Hin as [Hin _].
      by apply list_elem_of_In in Hin.
Qed.

(** C11 The commit removes exactly the touched accounts that are self-destructed, or
    empty when empty ones are to be deleted: whenever it succeeds, and in whatever
    order it visits them, those accounts are gone with their coins, code hash and
    storage, every other balance, account and store entry is as before, and the
    supply has shrunk by the coins they still had. *)
Theorem commit_removes_exactly (now : Z) (deleteEmpty : bool) (order : list Address) (l l' : Live S)
  (Hwf : evm_store_wf (w_evm (l_world l)))
  (Horder : order ≡ₚ elements (dom (touched (l_rev l))))
  (Hok : destroy_all now deleteEmpty order l = (Ok tt, l')) :
  let gone a := a ∈ dom (touched (l_rev l)) /\ doomed deleteEmpty l a = true in
  (forall a d, gone a -> GetBalance (w_sdk (l_world l')) (farr_bytes a) d = 0) /\
  (forall a, gone a -> farr_bytes a <> GetModuleAddress (S:=S) EvmModuleName ->
     GetAccount (w_sdk (l_world l')) (farr_bytes a) = None) /\
  (forall a, gone a -> storage_entries (l_world l') a = []) /\
  (forall a k, gone a -> owned_by k a -> w_evm (l_world l') !! k = None) /\
  (forall d, GetSupply (w_sdk (l_world l')) d = GetSupply (w_sdk (l_world l)) d -
     foldr (fun a z => GetBalance (w_sdk (l_world l)) (farr_bytes a) d + z) 0
       (List.filter (doomed deleteEmpty l) order)) /\
  (forall x d, (forall a, gone a -> x <> farr_bytes a) ->
     GetBalance (w_sdk (l_world l')) x d = GetBalance (w_sdk (l_world l)) x d) /\
  (forall x, (forall a, gone a -> x <> farr_bytes a) -> x <> GetModuleAddress (S:=S) EvmModuleName ->
     GetAccount (w_sdk (l_world l')) x = GetAccount (w_sdk (l_world l)) x) /\
  (forall k, (forall a, gone a -> ~ owned_by k a) -> w_evm (l_world l') !! k = w_evm (l_world l) !! k).
Proof.
  intros gone.
  assert (NoDup order) as Hnd by (rewrite Horder; apply NoDup_elements).
  destruct (destroy_all_ok _ _ _ _ _ Hwf Hnd Hok) as [_ W].
  set (D := List.filter (doomed deleteEmpty l) order) in *.
  assert (forall a, a ∈ D <-> gone a) as HD.
  { intros a. unfold D, gone. rewrite list_elem_of_In, List.filter_In, <- list_elem_of_In, Horder.
    by rewrite elem_of_elements. }
  assert (forall x, (forall a, gone a -> x <> farr_bytes a) -> x ∉ farr_bytes <$> D) as Hout.
  { intros x Hx. rewrite list_elem_of_fmap. intros (a & -> & Ha). apply HD in Ha. by apply (Hx a). }
  split_and!.
  - intros a d Ha. rewrite (wip_balance _ _ _ W), decide_True; [done|].
    apply list_elem_of_fmap. exists a. split; [done|by apply HD].
  - intros a Ha. apply (wip_account _ _ _ W). by apply HD.
  - intros a Ha. apply storage_entries_nil.
    + intros k Hk [v Hv]. rewrite (wip_store _ _ _ W) in Hv. case_decide; [done|]. eauto.
    + intros key. rewrite (wip_store _ _ _ W), decide_True; [done|].
      apply Exists_exists. exists a. split; [by apply HD|]. right. apply storage_prefix_of_self.
  - intros a k Ha Ho. rewrite (wip_store _ _ _ W), decide_True; [done|]. apply Exists_exists.
    exists a. split; [by apply HD|done].
  - apply (wip_supply _ _ _ W).
  - intros x d Hx. rewrite (wip_balance _ _ _ W), decide_False by (by apply Hout). done.
  - intros x Hx Hm. apply (wip_others _ _ _ W); [by apply Hout|by left].
  - intros k Hk. rewrite (wip_store _ _ _ W), decide_False; [done|].
    rewrite Exists_exists. intros (a & Ha & Ho). apply HD in Ha. by apply (Hk a).
Qed.

(** ** Protected accounts *)

Lemma destroy_checks now a l l' acc :
  cStateDb_DestroyAccount now a l = (Ok tt, l') ->
  GetAccount (w_sdk (l_world l)) (farr_bytes a) = Some acc ->
  CheckIfAccountIsSuitableForDestroying now acc = true.
Proof.
  intros E Ha. destruct (destroy_world _ _ _ _ E) as (s1 & s2 & _ & [[Hn _]|(acc' & Ha' & _ & Hc)] & _);
    congruence.
Qed.

Lemma destroy_all_checks now de order l l' a acc :
  evm_store_wf (w_evm (l_world l)) -> NoDup order -> destroy_all now de order l = (Ok tt, l') ->
  a ∈ order -> doomed de l a = true -> GetAccount (w_sdk (l_world l)) (farr_bytes a) = Some acc ->
  CheckIfAccountIsSuitableForDestroying now acc = true.
Proof.
  revert l. induction order as [|b order IH]; intros l Hwf Hnd E Hin Hd Ha; [by apply not_elem_of_nil in Hin|].
  inversion Hnd as [|? ? Hnb Hnd']; subst. unfold destroy_all in E. cbn [mapM_] in E.
  apply bind_ok_inv in E as ([] & l1 & E1 & E). rewrite destroy_touched_unfold in E1.
  apply elem_of_cons in Hin as [->|Hin]; [rewrite Hd in E1; by eapply destroy_checks|].
  assert (a <> b) as Hab by (intros ->; done).
  destruct (doomed de l b) eqn:Eb; [|injection E1 as <-; by eapply IH].
  apply destroy_ok in E1 as [Er D]; [|done].
  apply (IH l1); try done; [by eapply evm_store_wf_destroyed| |].
  - rewrite <- Hd. unfold doomed, cStateDb_Empty. by rewrite Er, (destroyed_empty _ _ b a Hwf D).
  - rewrite <- Ha. apply (des_others _ _ _ D); [|right; eauto]. intros E2. by apply farr_eq in E2.
Qed.

(** Module accounts and vesting accounts that have not expired survive every
    commit: when a commit succeeds, such an account still exists, unchanged, with all
    its coins; a commit that would have to destroy one panics. *)
Theorem commit_keeps_protected (now : Z) (deleteEmpty : bool) (order : list Address) (l l' : Live S)
  (a : Address) (acc : Account)
  (Hwf : evm_store_wf (w_evm (l_world l)))
  (Horder : order ≡ₚ elements (dom (touched (l_rev l))))
  (Hacc : GetAccount (w_sdk (l_world l)) (farr_bytes a) = Some acc)
  (Hprotected : CheckIfAccountIsSuitableForDestroying now acc = false)
  (Hok : destroy_all now deleteEmpty order l = (Ok tt, l')) :
  GetAccount (w_sdk (l_world l')) (farr_bytes a) = Some acc /\
  forall d, GetBalance (w_sdk (l_world l')) (farr_bytes a) d = GetBalance (w_sdk (l_world l)) (farr_bytes a) d.
Proof.
  assert (NoDup order) as Hnd by (rewrite Horder; apply NoDup_elements).
  destruct (destroy_all_ok _ _ _ _ _ Hwf Hnd Hok) as [_ W].
  assert (farr_bytes a ∉ farr_bytes <$> List.filter (doomed deleteEmpty l) order) as Hout.
  { rewrite list_elem_of_fmap. intros (b & E & Hb). apply farr_eq in E as <-.
    apply list_elem_of_In, List.filter_In in Hb as [Hb Hd]. apply list_elem_of_In in Hb.
    pose proof (destroy_all_checks _ _ _ _ _ _ _ Hwf Hnd Hok Hb Hd Hacc). congruence. }
  split.
  - rewrite (wip_others _ _ _ W); [done|done|right; eauto].
  - intros d. by rewrite (wip_balance _ _ _ W), decide_False.
Qed.

(** A transfer of nothing to a module account without coins cannot be committed: a
    touched module account that is empty makes the commit panic. *)
Theorem commit_touched_module_account_panics (now : Z) (a : Address) (acc : Account) (l : Live S)
  (Hacc : GetAccount (w_sdk (l_world l)) (farr_bytes a) = Some acc)
  (Hmodule : acc_kind acc = ModuleAccount)
  (Hempty : cStateDb_Empty a l = true) :
  exists l', destroy_all now true [a] l = (Panic ErrLogic, l').
Proof.
  unfold destroy_all. cbn [mapM_]. unfold mbind at 1, M_bind at 1. rewrite destroy_touched_unfold.
  unfold doomed. rewrite Hempty, orb_true_r. unfold cStateDb_DestroyAccount. munfold. simpl.
  rewrite Hacc. unfold CheckIfAccountIsSuitableForDestroying. rewrite Hmodule. simpl. eauto.
Qed.

(** Whether a vesting account is destroyed depends on the clock of the machine,
    not on the time of the block: with the same state, a node whose clock is before
    the end of the vesting panics where a node whose clock is past it goes on. *)
Theorem destroy_depends_on_local_clock (a : Address) (acc : Account) (l : Live S) (endTime now1 now2 : Z)
  (Hacc : GetAccount (w_sdk (l_world l)) (farr_bytes a) = Some acc)
  (Hvesting : acc_kind acc = OtherVestingAccount endTime)
  (Hclocks : now1 < endTime <= now2)
  (Hcoins : forall d, GetBalance (w_sdk (l_world l)) (farr_bytes a) d = 0) :
  cStateDb_DestroyAccount now1 a l = (Panic ErrLogic, l) /\
  exists l', cStateDb_DestroyAccount now2 a l = (Ok tt, l').
Proof.
  unfold cStateDb_DestroyAccount. munfold. rewrite Hacc.
  unfold CheckIfAccountIsSuitableForDestroying. rewrite Hvesting.
  destruct (Z.ltb_spec now1 endTime); [|lia]. destruct (Z.ltb_spec now2 endTime); [lia|]. simpl.
  split; [done|].
  assert (Coins_IsZero (GetAllBalances (RemoveAccount (w_sdk (l_world l)) acc) (farr_bytes a)) = true) as ->.
  { apply AllBalances_zero. intros d. destruct (remove_account_bank (w_sdk (l_world l)) acc) as [-> _]. done. }
  eauto.
Qed.
End Effects.
