(* ===== verification/FeeMarket.v ===== *)
(** * The fee market

    The base fee of EIP-1559 and the global minimum gas price (x/feemarket): the
    parameters and their validation (types/params.go), the keeper (keeper/params.go,
    keeper/eip1559.go, keeper/abci.go, keeper/msg_server.go) and genesis (genesis.go).
    go-ethereum's formula for the next base fee is a parameter; its documented
    behaviour, for a block of the London fork, is [eip1559_next]. *)

From Stdlib Require Import Strings.Byte.
From stdpp Require Import base gmap list strings.
From S2P Require Import Prelude Sdk Geth EvmTypes EvmStore.

(** Decimals are integers scaled by 10^18; a nil integer or decimal is [None]. *)
Record FmParams : Type := mkFmParams {
  BaseFee : option Z;
  MinGasPrice : option Z
}.

Definition dec_precision : Z := 10 ^ 18.
(** [LegacyDec.TruncateInt] rounds towards zero. *)
Definition TruncateInt (d : Z) : Z := Z.quot d dec_precision.

Definition DefaultBaseFee : Z := 1000000000.
Definition DefaultMinGasPrice : Z := 1000000000 * dec_precision.
Definition FmDefaultParams : FmParams := mkFmParams (Some DefaultBaseFee) (Some DefaultMinGasPrice).

Definition validateMinGasPrice (v : option Z) : res unit :=
  match v with
  | None => Err (Errorf "invalid parameter: nil")
  | Some d => if d <? 0 then Err (Errorf "value cannot be negative") else Ok tt
  end.

Definition FmParams_Validate (p : FmParams) : res unit :=
  match BaseFee p with
  | None => Err (Errorf "base fee cannot be nil")
  | Some b => if b <? 0 then Err (Errorf "base fee cannot be negative") else validateMinGasPrice (MinGasPrice p)
  end.

(** [ParamsKey = []byte("Params")] *)
Definition FmParamsKey : bytes := [x50; x61; x72; x61; x6d; x73].

(** The block header given to go-ethereum. *)
Record FeeHeader : Type := mkFeeHeader {
  hdr_Number : Z;
  hdr_GasLimit : Z;
  hdr_GasUsed : Z;
  hdr_BaseFee : Z
}.

Section FeeMarket.
Context {S : Type} {K : SdkKeepers S} {G : Geth}.
Context {P : Codec EvmParams} {FP : Codec FmParams}.
(** [misc.CalcBaseFee], and the parameters in the legacy subspace if there are any. *)
Variable CalcBaseFee : EthChainConfig -> FeeHeader -> Z.
Variable legacy_params : S -> FmParams.
Implicit Types w : World S.

Definition Fm_GetParams w : res FmParams :=
  let bz := kv_get (w_feemarket w) FmParamsKey in
  params ← (if decide (length bz = 0%nat) then Ok (legacy_params (w_sdk w))
            else match Unmarshal bz with Ok p => Ok p | Err e | Panic e => Panic e end);
  Ok (match MinGasPrice params with
      | None => mkFmParams (BaseFee params) (Some 0)
      | Some _ => params
      end).

Definition Fm_SetParams (params : FmParams) : M (World S) unit :=
  lift_res (FmParams_Validate params) ;;
  bz ← lift_res (Marshal params);
  modify (fun w => set_feemarket (kv_set (w_feemarket w) FmParamsKey bz) w).

(** A nil base fee is returned as it is and dereferenced by its user. *)
Definition Fm_GetBaseFee w : res (option Z) :=
  params ← Fm_GetParams w; Ok (BaseFee params).

Definition Fm_SetBaseFee (baseFee : Z) : M (World S) unit :=
  params ← (fun w => (Fm_GetParams w, w));
  or_panic (Errorf "invalid params") (Fm_SetParams (mkFmParams (Some baseFee) (MinGasPrice params))).

(** [gasUsed] is what the block gas meter has consumed, up to its limit. *)
Definition CalculateBaseFee (ctx : Ctx) (gasUsed : Z) w : res Z :=
  params ← Fm_GetParams w;
  let gasLimit :=
    match ctx_ConsensusMaxGas ctx with
    | Some maxGas => if -1 <? maxGas then maxGas else MaxUint64
    | None => MaxUint64
    end in
  chainConfig ← Keeper_GetChainConfig w;
  baseFee ← match BaseFee params with Some b => Ok b | None => Panic NilDereference end;
  minGasPrice ← match MinGasPrice params with Some d => Ok (TruncateInt d) | None => Panic NilDereference end;
  let nextBaseFee := CalcBaseFee chainConfig (mkFeeHeader (ctx_BlockHeight ctx) gasLimit gasUsed baseFee) in
  NewIntFromBigInt (Z.max nextBaseFee minGasPrice).

(** Nothing happens without a block gas meter; [None] for a nil meter. *)
Definition updateBaseFeeForNextBlock (ctx : Ctx) (blockGasMeter : option Z) : M (World S) unit :=
  match blockGasMeter with
  | None => mret tt
  | Some gasConsumedToLimit =>
      baseFee ← (fun w => (CalculateBaseFee ctx gasConsumedToLimit w, w));
      Fm_SetBaseFee baseFee
  end.
Definition Fm_EndBlock (ctx : Ctx) (blockGasMeter : option Z) : M (World S) unit :=
  updateBaseFeeForNextBlock ctx blockGasMeter.

Definition Fm_UpdateParams (authority req_Authority : string) (params : FmParams) : M (World S) unit :=
  require (bool_decide (authority = req_Authority)) ErrInvalidSigner ;;
  Fm_SetParams params.

Definition Fm_InitGenesis (data : FmParams) : M (World S) unit :=
  or_panic (Errorf "could not set parameters at genesis") (Fm_SetParams data).
Definition Fm_ExportGenesis w : res FmParams := Fm_GetParams w.

(** ** Lemmas *)

Context {FL : CodecLaws FmParams}.

Lemma FmParams_Validate_ok p u :
  FmParams_Validate p = Ok u -> exists b m, p = mkFmParams (Some b) (Some m) /\ 0 <= b /\ 0 <= m.
Proof.
  destruct p as [[b|] [m|]]; unfold FmParams_Validate, validateMinGasPrice; simpl; [|by case_match|done|done].
  destruct (Z.ltb_spec b 0); [done|]. destruct (Z.ltb_spec m 0); [done|]. intros _. by exists b, m.
Qed.

Lemma FmParams_Validate_iff b m :
  FmParams_Validate (mkFmParams (Some b) (Some m)) = Ok tt <-> 0 <= b /\ 0 <= m.
Proof.
  unfold FmParams_Validate, validateMinGasPrice. simpl.
  destruct (Z.ltb_spec b 0), (Z.ltb_spec m 0); (split; [done || lia|try done; lia]).
Qed.

(** What is set is read back; [Marshal] of valid parameters is never empty. *)
Lemma Fm_GetParams_SetParams p w w' :
  (forall bz, Marshal p = Ok bz -> bz <> []) ->
  Fm_SetParams p w = (Ok tt, w') ->
  Fm_GetParams w' = Ok p /\ exists bz, w' = set_feemarket (kv_set (w_feemarket w) FmParamsKey bz) w.
Proof.
  intros Hne E. unfold Fm_SetParams in E.
  apply bind_ok_inv in E as ([] & w0 & E0 & E). injection E0 as Ev <-.
  apply bind_ok_inv in E as (bz & w0 & E1 & E). injection E1 as Em <-. injection E as <-.
  apply FmParams_Validate_ok in Ev as (b & m & -> & _ & _). split; [|eauto].
  unfold Fm_GetParams. simpl. rewrite kv_get_set_eq.
  rewrite decide_False by (intros El; apply nil_length_inv in El; by apply (Hne bz)).
  by rewrite (codec_round _ _ Em).
Qed.
End FeeMarket.

(** ** The formula of EIP-1559

    The documented behaviour of [misc.CalcBaseFee] after the London fork: the target
    is half of the limit, the fee moves by at most an eighth, up by at least one. *)
Definition eip1559_next (h : FeeHeader) : Z :=
  let target := hdr_GasLimit h / 2 in
  if hdr_GasUsed h =? target then hdr_BaseFee h
  else if target <? hdr_GasUsed h then
    hdr_BaseFee h + Z.max (hdr_BaseFee h * (hdr_GasUsed h - target) / target / 8) 1
  else Z.max (hdr_BaseFee h - hdr_BaseFee h * (target - hdr_GasUsed h) / target / 8) 0.

(** For a header whose block has the fork; a block before it gets a constant, and a limit
    with the target zero has no next base fee. *)
Definition eip1559_law (CalcBaseFee : EthChainConfig -> FeeHeader -> Z) : Prop :=
  forall cfg h london, eth_LondonBlock cfg = Some london -> london <= hdr_Number h ->
    0 < hdr_GasLimit h / 2 -> 0 <= hdr_GasUsed h -> 0 <= hdr_BaseFee h -> CalcBaseFee cfg h = eip1559_next h.

Lemma eip1559_step b x t : 0 <= b -> 0 < t -> 0 <= x <= t -> 0 <= b * x / t / 8 <= b / 8.
Proof.
  intros Hb Ht Hx. split; [apply Z.div_pos; [apply Z.div_pos; nia|lia]|].
  apply Z.div_le_mono; [lia|]. apply Z.div_le_upper_bound; [lia|]. nia.
Qed.

Lemma eip1559_next_bounds h :
  0 <= hdr_BaseFee h -> 0 < hdr_GasLimit h / 2 -> 0 <= hdr_GasUsed h <= 2 * (hdr_GasLimit h / 2) ->
  hdr_BaseFee h - hdr_BaseFee h / 8 <= eip1559_next h <= hdr_BaseFee h + Z.max (hdr_BaseFee h / 8) 1.
Proof.
  intros Hb Ht Hu. unfold eip1559_next. set (t := hdr_GasLimit h / 2) in *. set (b := hdr_BaseFee h) in *.
  assert (0 <= b / 8) by (apply Z.div_pos; lia).
  destruct (Z.eqb_spec (hdr_GasUsed h) t); [lia|].
  destruct (Z.ltb_spec t (hdr_GasUsed h)).
  - pose proof (eip1559_step b (hdr_GasUsed h - t) t Hb Ht ltac:(lia)). lia.
  - pose proof (eip1559_step b (t - hdr_GasUsed h) t Hb Ht ltac:(lia)). lia.
Qed.

Section BaseFee.
Context {S : Type} {K : SdkKeepers S} {G : Geth}.
Context {P : Codec EvmParams} {FP : Codec FmParams} {FL : CodecLaws FmParams}.
Variable CalcBaseFee : EthChainConfig -> FeeHeader -> Z.
Variable legacy_params : S -> FmParams.

(** Validated parameters have the fork from block zero. *)
Lemma validated_london (w : World S) (params : EvmParams) (cfg : EthChainConfig) :
  Keeper_GetParams w = Ok params -> ChainConfig_Validate (params_ChainConfig params) = Ok tt ->
  Keeper_GetChainConfig w = Ok cfg -> eth_LondonBlock cfg = Some 0.
Proof.
  unfold Keeper_GetChainConfig. intros -> Hv%ChainConfig_Validate_default. cbn [mbind res_bind]. rewrite Hv.
  destruct (Keeper_GetEip155ChainId w) as [id|e|e]; [|done|done]. cbn -[DefaultChainConfig HexToHash emptyHash CheckConfigForkOrder].
  unfold ChainConfig_EthereumConfig. cbn -[HexToHash emptyHash CheckConfigForkOrder].
  destruct (CheckConfigForkOrder _); by intros [= <-].
Qed.

(** C14 The base fee of the next block: with the EVM's parameters as they are validated,
    which have the London fork from block zero, and a finite block gas limit above one,
    when the block used no more than twice the gas target, [EndBlock] does not panic, sets the base fee to the result of EIP-1559
    but not below the whole part of the global minimum gas price, moves it by at most
    an eighth (or one) unless the minimum lifts it, and changes neither the minimum
    gas price nor any other store. *)
Theorem EndBlock_base_fee (ctx : Ctx) (w : World S) (b m maxGas gasUsed : Z) (cfg : EthChainConfig)
  (params : EvmParams) (Hcalc : eip1559_law CalcBaseFee)
  (Hmarshal : forall b', exists bz, Marshal (mkFmParams (Some b') (Some m)) = Ok bz /\ bz <> [])
  (Hparams : Fm_GetParams legacy_params w = Ok (mkFmParams (Some b) (Some m)))
  (Hvalid : 0 <= b /\ 0 <= m)
  (Hevm : Keeper_GetParams w = Ok params /\ ChainConfig_Validate (params_ChainConfig params) = Ok tt)
  (Hconfig : Keeper_GetChainConfig w = Ok cfg)
  (Hheight : 0 <= ctx_BlockHeight ctx)
  (Hgas : ctx_ConsensusMaxGas ctx = Some maxGas /\ 1 < maxGas /\ 0 <= gasUsed <= 2 * (maxGas / 2))
  (Hbound : b + Z.max (b / 8) 1 < 2 ^ 256 /\ TruncateInt m < 2 ^ 256) :
  exists w' b', Fm_EndBlock CalcBaseFee legacy_params ctx (Some gasUsed) w = (Ok tt, w') /\
    Fm_GetBaseFee legacy_params w' = Ok (Some b') /\
    b' = Z.max (eip1559_next (mkFeeHeader (ctx_BlockHeight ctx) maxGas gasUsed b)) (TruncateInt m) /\
    TruncateInt m <= b' /\ b - b / 8 <= b' <= Z.max (b + Z.max (b / 8) 1) (TruncateInt m) /\
    Fm_GetParams legacy_params w' = Ok (mkFmParams (Some b') (Some m)) /\
    exists fm, w' = set_feemarket fm w.
Proof.
  destruct Hgas as (Hmax & Hmax1 & Hused). destruct Hvalid as [Hb Hm]. destruct Hbound as [Hb1 Hb2].
  destruct Hevm as [Hp Hv]. pose proof (validated_london w params cfg Hp Hv Hconfig) as Hlondon.
  set (h := mkFeeHeader (ctx_BlockHeight ctx) maxGas gasUsed b).
  assert (0 < maxGas / 2) as Ht by (apply Z.div_str_pos; lia).
  pose proof (eip1559_next_bounds h Hb Ht Hused) as Hbounds. simpl in Hbounds.
  assert (0 <= b / 8 <= b) as Hb8 by (split; [apply Z.div_pos; lia|apply Z.div_le_upper_bound; lia]).
  set (b' := Z.max (eip1559_next h) (TruncateInt m)).
  assert (0 <= b' < 2 ^ 256) as Hb' by lia.
  assert (CalculateBaseFee CalcBaseFee legacy_params ctx gasUsed w = Ok b') as Ec.
  { unfold CalculateBaseFee. rewrite Hparams. simpl. rewrite Hmax.
    destruct (Z.ltb_spec (-1) maxGas); [|lia]. rewrite Hconfig. simpl. fold h. rewrite (Hcalc cfg h 0) by (done || simpl; lia). fold b'.
    unfold NewIntFromBigInt. assert (BitLen b' <= 256) by (apply BitLen_le_iff; lia).
    destruct (Z.ltb_spec 256 (BitLen b')); [lia|done]. }
  destruct (Hmarshal b') as (bz & Em & Hne).
  assert (exists w', Fm_SetParams (mkFmParams (Some b') (Some m)) w = (Ok tt, w')) as [w' Es].
  { unfold Fm_SetParams. munfold. rewrite (proj2 (FmParams_Validate_iff b' m)) by lia. rewrite Em. eauto. }
  assert (forall bz, Marshal (mkFmParams (Some b') (Some m)) = Ok bz -> bz <> []) as Hne' by congruence.
  destruct (Fm_GetParams_SetParams legacy_params _ _ _ Hne' Es) as [Hget (bz' & Hw')].
  exists w', b'. split_and!; try done; try lia.
  - unfold Fm_EndBlock, updateBaseFeeForNextBlock, Fm_SetBaseFee. munfold. rewrite Ec, Hparams. simpl.
    by rewrite Es.
  - unfold Fm_GetBaseFee. by rewrite Hget.
  - eauto.
Qed.

(** Only the authority changes the parameters, and only to valid ones: an update
    by anyone else and an update with a missing or negative value fail and leave every
    store as it was; an accepted one is what is read afterwards. *)
Theorem fee_market_update_params (authority requester : string) (p : FmParams) (w : World S)
  (Hmarshal : exists bz, Marshal p = Ok bz /\ bz <> []) :
  let '(r, w') := Fm_UpdateParams authority requester p w in
  (authority <> requester -> r = Err ErrInvalidSigner /\ w' = w) /\
  (is_ok r = false -> w' = w) /\
  (is_ok r = true <-> authority = requester /\
     exists b m, p = mkFmParams (Some b) (Some m) /\ 0 <= b /\ 0 <= m) /\
  (is_ok r = true -> Fm_GetParams legacy_params w' = Ok p).
Proof.
  destruct Hmarshal as (bz & Em & Hne). unfold Fm_UpdateParams, mbind, M_bind, require.
  case_bool_decide as Ha; simpl; [|naive_solver].
  destruct (Fm_SetParams p w) as [r w'] eqn:Es.
  assert (r = Ok tt /\ (exists b m, p = mkFmParams (Some b) (Some m) /\ 0 <= b /\ 0 <= m) \/
          is_ok r = false /\ w' = w /\ ~ (exists b m, p = mkFmParams (Some b) (Some m) /\ 0 <= b /\ 0 <= m)) as Hcases.
  { unfold Fm_SetParams in Es. revert Es. munfold. destruct (FmParams_Validate p) as [[]|e|e] eqn:Ev.
    - rewrite Em. intros [= <- <-]. left. split; [done|]. by eapply FmParams_Validate_ok.
    - intros [= <- <-]. right. split_and!; try done. intros (b & m & -> & Hb & Hm).
      by rewrite (proj2 (FmParams_Validate_iff b m)) in Ev.
    - intros [= <- <-]. right. split_and!; try done. intros (b & m & -> & Hb & Hm).
      by rewrite (proj2 (FmParams_Validate_iff b m)) in Ev. }
  destruct Hcases as [[-> Hv]|(Hr & -> & Hv)].
  - assert (Fm_GetParams legacy_params w' = Ok p) as Hg
      by (apply (Fm_GetParams_SetParams legacy_params p w w'); [congruence|done]).
    split_and!; naive_solver.
  - rewrite Hr. split_and!; naive_solver.
Qed.
End BaseFee.
