(* ===== verification/Cpc.v ===== *)
(** * Custom precompiled contracts: the registry

    The store of x/cpc: module parameters (types/params.go, keeper/params.go), the
    metadata of the deployed contracts (types/precompiles.go, keeper/precompiles.go),
    the ERC-20 allowances and the deployments (keeper/precompiles_erc20.go,
    precompiles_staking.go, precompiles_bech32.go).  The contracts themselves are in
    CpcContracts.v. *)

From Stdlib Require Import Strings.Byte.
From stdpp Require Import base gmap list strings.
From S2P Require Import Prelude Sdk Geth EvmTypes ChainId.

(** ** Text *)

Definition string_bytes (s : string) : bytes := String.list_byte_of_string s.

(** [strings.ToLower] on ASCII text. *)
Definition lower_char (c : Ascii.ascii) : Ascii.ascii :=
  let n := Ascii.N_of_ascii c in
  if ((65 <=? n) && (n <=? 90))%N then Ascii.ascii_of_N (n + 32)%N else c.
Definition ToLower (s : string) : string :=
  String.string_of_list_ascii (lower_char <$> String.list_ascii_of_string s).

(** [strings.TrimSpace(s) != s] *)
Definition is_trimmed (s : string) : bool :=
  bool_decide (TrimSpace (String.list_ascii_of_string s) = String.list_ascii_of_string s).

(** ** Data *)

Definition CpcModuleName : string := "cpc".

Definition ProtocolCpcV1 : Z := 1.
Definition LatestProtocolCpc : Z := ProtocolCpcV1.

Definition CpcTypeErc20 : Z := 1.
Definition CpcTypeStaking : Z := 2.
Definition CpcTypeBech32 : Z := 3.

Definition cpcAddrNonceStaking : byte := x01.
Definition cpcAddrNonceBech32 : byte := x02.

Definition EmptyTypedMeta : string := "{}".

Record CpcParams : Type := mkCpcParams {
  ProtocolVersion : Z;
  WhitelistedDeployers : list string
}.

Record CustomPrecompiledContractMeta : Type := mkCpcMeta {
  meta_Address : bytes;
  meta_CustomPrecompiledType : Z;
  meta_Name : string;
  meta_TypedMeta : string;
  meta_Disabled : bool
}.

Record Erc20CustomPrecompiledContractMeta : Type := mkErc20Meta {
  erc20_Symbol : string;
  erc20_Decimals : Z;
  erc20_MinDenom : string
}.

Record StakingCustomPrecompiledContractMeta : Type := mkStakingMeta {
  staking_Symbol : string;
  staking_Decimals : Z
}.

(** [encoding/json] on a type. *)
Class Json (T : Type) : Type := {
  json_Marshal : T -> res string;
  json_Unmarshal : string -> res T
}.

(** The fixed addresses: 0xCC, the nonce, zeros, the nonce. *)
Definition generateCpcAddress (contractAddrNonce : byte) : Address :=
  BytesToAddress ([xcc; contractAddrNonce] ++ replicate 17 x00 ++ [contractAddrNonce]).
Definition CpcStakingFixedAddress : Address := generateCpcAddress cpcAddrNonceStaking.
Definition CpcBech32FixedAddress : Address := generateCpcAddress cpcAddrNonceBech32.

(** ** Keys *)

Definition CpcKeyPrefixParams : bytes := [x01].
Definition KeyPrefixCustomPrecompiledContractMeta : bytes := [x02].
Definition KeyPrefixErc20CpcDenomToAddress : bytes := [x03].
Definition KeyPrefixErc20CpcAllowance : bytes := [x04].

Definition CustomPrecompiledContractMetaKey (contractAddr : Address) : bytes :=
  KeyPrefixCustomPrecompiledContractMeta ++ farr_bytes contractAddr.
Definition Erc20CustomPrecompiledContractMinDenomToAddressKey (minDenom : string) : bytes :=
  KeyPrefixErc20CpcDenomToAddress ++ string_bytes minDenom.
Definition Erc20CustomPrecompiledContractAllowanceKey (owner spender : Address) : bytes :=
  KeyPrefixErc20CpcAllowance ++ farr_bytes owner ++ farr_bytes spender.

(** ** Validation *)

Definition CpcDefaultParams : CpcParams := mkCpcParams LatestProtocolCpc [].

Section Cpc.
Context {S : Type} {K : SdkKeepers S} {G : Geth} {B : Bech32}.
Context {CP : Codec CpcParams} {CM : Codec CustomPrecompiledContractMeta}.
Context {JE : Json Erc20CustomPrecompiledContractMeta} {JS : Json StakingCustomPrecompiledContractMeta}.
Implicit Types w : World S.

Fixpoint validateDeployers (uniqueDeployers : gset string) (deployers : list string) : res unit :=
  match deployers with
  | [] => Ok tt
  | deployer :: rest =>
      if decide (ToLower deployer = deployer) then
        wrap_res ErrInvalidAddress (AccAddressFromBech32 deployer) ;;
        if decide (deployer ∈ uniqueDeployers) then Err ErrInvalidRequest
        else validateDeployers ({[deployer]} ∪ uniqueDeployers) rest
      else Err ErrInvalidRequest
  end.

Definition CpcParams_Validate (m : CpcParams) : res unit :=
  if ProtocolVersion m =? 0 then Err ErrInvalidRequest
  else if LatestProtocolCpc <? ProtocolVersion m then Err ErrInvalidRequest
  else validateDeployers ∅ (WhitelistedDeployers m).

Definition Erc20Meta_Validate (m : Erc20CustomPrecompiledContractMeta) : res unit :=
  if decide (erc20_Symbol m = ""%string) then Err ErrInvalidRequest
  else if 18 <? erc20_Decimals m then Err ErrInvalidRequest
  else if decide (erc20_MinDenom m = ""%string) then Err ErrInvalidRequest
  else if decide (erc20_Symbol m = erc20_MinDenom m) then Err ErrInvalidRequest
  else Ok tt.

Definition StakingMeta_Validate (m : StakingCustomPrecompiledContractMeta) : res unit :=
  if decide (staking_Symbol m = ""%string) then Err ErrInvalidRequest
  else if 18 <? staking_Decimals m then Err ErrInvalidRequest
  else Ok tt.

Definition CpcMeta_Validate (m : CustomPrecompiledContractMeta) (cpcV : Z) : res unit :=
  if decide (length (meta_Address m) <> 20%nat \/ BytesToAddress (meta_Address m) = zero_address)
  then Err ErrInvalidRequest
  else if meta_CustomPrecompiledType m =? 0 then Err ErrInvalidRequest
  else if negb (bool_decide (meta_CustomPrecompiledType m ∈ [CpcTypeErc20; CpcTypeStaking; CpcTypeBech32]))
  then Panic (Errorf "unsupported custom precompiled type")
  else if decide (meta_Name m = ""%string) then Err ErrInvalidRequest
  else if decide (meta_TypedMeta m = ""%string) then Err ErrInvalidRequest
  else if negb (cpcV =? ProtocolCpcV1) then Panic (Errorf "unsupported protocol version")
  else if meta_CustomPrecompiledType m =? CpcTypeErc20 then
    erc20Meta ← wrap_res ErrInvalidRequest (json_Unmarshal (meta_TypedMeta m));
    wrap_res ErrInvalidRequest (Erc20Meta_Validate erc20Meta)
  else if meta_CustomPrecompiledType m =? CpcTypeStaking then
    stakingMeta ← wrap_res ErrInvalidRequest (json_Unmarshal (meta_TypedMeta m));
    wrap_res ErrInvalidRequest (StakingMeta_Validate stakingMeta)
  else if decide (meta_TypedMeta m = EmptyTypedMeta) then Ok tt
  else Err ErrInvalidRequest.

(** ** Parameters *)

Definition Cpc_GetParams w : res CpcParams :=
  let bz := kv_get (w_cpc w) CpcKeyPrefixParams in
  if decide (length bz = 0%nat) then Ok zero_msg else must_res (Unmarshal bz).

Definition Cpc_SetParams (params : CpcParams) : M (World S) unit :=
  lift_res (must_res (CpcParams_Validate params)) ;;
  existingParams ← (fun w => (Cpc_GetParams w, w));
  require (negb (ProtocolVersion params <? ProtocolVersion existingParams)) ErrLogic ;;
  bz ← lift_res (must_res (Marshal params));
  modify (fun w => set_cpc (kv_set (w_cpc w) CpcKeyPrefixParams bz) w).

Definition GetProtocolCpcVersion w : res Z :=
  params ← Cpc_GetParams w; Ok (ProtocolVersion params).

(** ** Contracts *)

Definition HasCustomPrecompiledContract w (contractAddress : Address) : bool :=
  kv_has (w_cpc w) (CustomPrecompiledContractMetaKey contractAddress).

Definition GetCustomPrecompiledContractMeta w (contractAddress : Address) :
    res (option CustomPrecompiledContractMeta) :=
  let bz := kv_get (w_cpc w) (CustomPrecompiledContractMetaKey contractAddress) in
  if decide (length bz = 0%nat) then Ok None
  else meta ← must_res (Unmarshal bz); Ok (Some meta).

Definition SetCustomPrecompiledContractMeta (contractMetadata : CustomPrecompiledContractMeta)
    (newDeployment : bool) : M (World S) unit :=
  protocolVersion ← (fun w => (GetProtocolCpcVersion w, w));
  lift_res (CpcMeta_Validate contractMetadata protocolVersion) ;;
  let contractAddress := BytesToAddress (meta_Address contractMetadata) in
  (if newDeployment then
     has ← gets (fun w => HasCustomPrecompiledContract w contractAddress);
     require (negb has) ErrInvalidRequest
   else
     previousRecord ← (fun w => (GetCustomPrecompiledContractMeta w contractAddress, w));
     match previousRecord with
     | Some previousRecord =>
         must (meta_CustomPrecompiledType previousRecord =? meta_CustomPrecompiledType contractMetadata)
           (Errorf "not allowed to change type of the precompiled contract")
     | None => err ErrInvalidRequest
     end) ;;
  bz ← lift_res (must_res (Marshal contractMetadata));
  modify (fun w => set_cpc (kv_set (w_cpc w) (CustomPrecompiledContractMetaKey contractAddress) bz) w).

Fixpoint unmarshal_metas (entries : list (bytes * bytes)) (metas : list CustomPrecompiledContractMeta) :
    res (list CustomPrecompiledContractMeta) :=
  match entries with
  | [] => Ok metas
  | (_, bz) :: rest => meta ← must_res (Unmarshal bz); unmarshal_metas rest (metas ++ [meta])
  end.
Definition GetAllCustomPrecompiledContractsMeta w : res (list CustomPrecompiledContractMeta) :=
  unmarshal_metas (kv_prefix_iter (w_cpc w) KeyPrefixCustomPrecompiledContractMeta) [].

Definition CpcModuleAddress : Address := BytesToAddress (GetModuleAddress (S:=S) CpcModuleName).

Definition GetNextDynamicCustomPrecompiledContractAddress : M (World S) Address :=
  ma ← (fun w => match GetModuleAccount (w_sdk w) CpcModuleName with
                 | Ok (ma, s) => (Ok ma, set_sdk s w)
                 | Err e => (Err e, w)
                 | Panic e => (Panic e, w)
                 end);
  let nonce := acc_sequence ma in
  modify (fun w => set_sdk (SetAccount (w_sdk w) (with_sequence (add64 nonce 1) ma)) w) ;;
  mret (CreateAddress CpcModuleAddress nonce).

Definition GetErc20CustomPrecompiledContractAddressByMinDenom w (minDenom : string) : option Address :=
  let bz := kv_get (w_cpc w) (Erc20CustomPrecompiledContractMinDenomToAddressKey minDenom) in
  if decide (length bz = 0%nat) then None else Some (BytesToAddress bz).

(** ** Deployments *)

Definition DeployErc20CustomPrecompiledContract (name : string)
    (erc20Meta : Erc20CustomPrecompiledContractMeta) : M (World S) Address :=
  _ ← (fun w => (GetProtocolCpcVersion w, w));
  wrap_err ErrInvalidRequest (lift_res (Erc20Meta_Validate erc20Meta)) ;;
  let key := Erc20CustomPrecompiledContractMinDenomToAddressKey (erc20_MinDenom erc20Meta) in
  existingAddrBz ← gets (fun w => kv_get (w_cpc w) key);
  require (bool_decide (length existingAddrBz = 0%nat)) ErrConflict ;;
  supply ← gets (fun w => GetSupply (w_sdk w) (erc20_MinDenom erc20Meta));
  require (0 <? supply) ErrInvalidRequest ;;
  newContractAddress ← GetNextDynamicCustomPrecompiledContractAddress;
  typedMeta ← lift_res (must_res (json_Marshal erc20Meta));
  SetCustomPrecompiledContractMeta
    (mkCpcMeta (farr_bytes newContractAddress) CpcTypeErc20 name typedMeta false) true ;;
  modify (fun w => set_cpc (kv_set (w_cpc w) key (farr_bytes newContractAddress)) w) ;;
  mret newContractAddress.

Definition DeployStakingCustomPrecompiledContract (stakingMeta : StakingCustomPrecompiledContractMeta) :
    M (World S) Address :=
  let contractAddress := CpcStakingFixedAddress in
  _ ← (fun w => (GetProtocolCpcVersion w, w));
  wrap_err ErrInvalidRequest (lift_res (StakingMeta_Validate stakingMeta)) ;;
  typedMeta ← lift_res (must_res (json_Marshal stakingMeta));
  SetCustomPrecompiledContractMeta
    (mkCpcMeta (farr_bytes contractAddress) CpcTypeStaking "Staking - Precompiled Contract" typedMeta false)
    true ;;
  mret contractAddress.

Definition DeployBech32CustomPrecompiledContract : M (World S) Address :=
  let contractAddress := CpcBech32FixedAddress in
  SetCustomPrecompiledContractMeta
    (mkCpcMeta (farr_bytes contractAddress) CpcTypeBech32 "Bech32 - Precompiled Contract" EmptyTypedMeta false)
    true ;;
  mret contractAddress.

(** ** Allowances *)

Definition SetErc20CpcAllowance (owner spender : Address) (allowance : Z) : M (World S) unit :=
  let key := Erc20CustomPrecompiledContractAllowanceKey owner spender in
  match Z.sgn allowance with
  | 0 => modify (fun w => set_cpc (kv_delete (w_cpc w) key) w)
  | 1 =>
      must (negb (256 <? BitLen allowance)) (Errorf "allowance is too big") ;;
      modify (fun w => set_cpc (kv_set (w_cpc w) key (big_Bytes allowance)) w)
  | _ => panic (Errorf "allowance must not be negative")
  end.

Definition GetErc20CpcAllowance w (owner spender : Address) : Z :=
  let bz := kv_get (w_cpc w) (Erc20CustomPrecompiledContractAllowanceKey owner spender) in
  if decide (length bz = 0%nat) then 0 else big_SetBytes bz.

(** ** Messages *)

Fixpoint isWhitelisted (authority : string) (whitelistedDeployers : list string) : bool :=
  match whitelistedDeployers with
  | [] => false
  | whitelistedAddr :: rest =>
      if decide (whitelistedAddr = authority) then true else isWhitelisted authority rest
  end.
Definition validateDeployer (authority : string) (moduleParams : CpcParams) : res unit :=
  if isWhitelisted authority (WhitelistedDeployers moduleParams) then Ok tt else Err ErrInvalidSigner.

Definition Cpc_UpdateParams (authority req_Authority : string) (newParams : CpcParams) : M (World S) unit :=
  require (bool_decide (authority = req_Authority)) ErrInvalidSigner ;;
  lift_res (CpcParams_Validate newParams) ;;
  Cpc_SetParams newParams.

Record MsgDeployErc20ContractRequest : Type := mkMsgDeployErc20 {
  dep20_Authority : string;
  dep20_Name : string;
  dep20_Symbol : string;
  dep20_Decimals : Z;
  dep20_MinDenom : string
}.

(** [uint8(req.Decimals)] keeps the low byte. *)
Definition DeployErc20Contract (req : MsgDeployErc20ContractRequest) : M (World S) Address :=
  moduleParams ← (fun w => (Cpc_GetParams w, w));
  lift_res (validateDeployer (dep20_Authority req) moduleParams) ;;
  DeployErc20CustomPrecompiledContract (dep20_Name req)
    (mkErc20Meta (dep20_Symbol req) (dep20_Decimals req mod 256) (dep20_MinDenom req)).

Record MsgDeployStakingContractRequest : Type := mkMsgDeployStaking {
  deps_Authority : string;
  deps_Symbol : string;
  deps_Decimals : Z
}.

Definition DeployStakingContract (req : MsgDeployStakingContractRequest) : M (World S) Address :=
  moduleParams ← (fun w => (Cpc_GetParams w, w));
  lift_res (validateDeployer (deps_Authority req) moduleParams) ;;
  DeployStakingCustomPrecompiledContract (mkStakingMeta (deps_Symbol req) (deps_Decimals req mod 256)).

Definition text_ok (s : string) : res unit :=
  if negb (is_trimmed s) then Err ErrInvalidRequest
  else if decide (s = ""%string) then Err ErrInvalidRequest else Ok tt.
Definition decimals_ok (n : Z) : res unit :=
  if n <? 1 then Err ErrInvalidRequest else if 18 <? n then Err ErrInvalidRequest else Ok tt.

(** [BankMetadata_Validate name symbol decimals minDenom] is the bank's check of the
    metadata built from the request. *)
Definition MsgDeployErc20_ValidateBasic (BankMetadata_Validate : string -> string -> Z -> string -> res unit)
    (m : MsgDeployErc20ContractRequest) : res unit :=
  wrap_res ErrInvalidAddress (AccAddressFromBech32 (dep20_Authority m)) ;;
  text_ok (dep20_Name m) ;;
  text_ok (dep20_Symbol m) ;;
  decimals_ok (dep20_Decimals m) ;;
  text_ok (dep20_MinDenom m) ;;
  wrap_res ErrInvalidRequest
    (BankMetadata_Validate (dep20_Name m) (dep20_Symbol m) (dep20_Decimals m) (dep20_MinDenom m)).

Definition MsgDeployStaking_ValidateBasic (m : MsgDeployStakingContractRequest) : res unit :=
  wrap_res ErrInvalidAddress (AccAddressFromBech32 (deps_Authority m)) ;;
  text_ok (deps_Symbol m) ;;
  decimals_ok (deps_Decimals m).

(** ** Genesis *)

Record CpcGenesis : Type := mkCpcGenesis {
  gen_Params : CpcParams;
  gen_DeployErc20Native : bool;
  gen_DeployStakingContract : bool
}.

Definition CpcDefaultGenesis : CpcGenesis := mkCpcGenesis CpcDefaultParams false false.
Definition CpcGenesis_Validate (m : CpcGenesis) : res unit := CpcParams_Validate (gen_Params m).

(** [bondDenom] is the staking keeper's parameter. *)
Definition Cpc_InitGenesis (bondDenom : S -> res string) (data : CpcGenesis) : M (World S) unit :=
  or_panic (Errorf "set params") (Cpc_SetParams (gen_Params data)) ;;
  (if gen_DeployErc20Native data then
     denom ← (fun w => (must_res (bondDenom (w_sdk w)), w));
     _ ← or_panic (Errorf "error deploying ERC-20 Custom Precompiled Contract")
           (DeployErc20CustomPrecompiledContract "Wrapped ETH" (mkErc20Meta "WETH" 18 denom));
     mret tt
   else mret tt) ;;
  (if gen_DeployStakingContract data then
     _ ← or_panic (Errorf "error deploying Staking Custom Precompiled Contract")
           (DeployStakingCustomPrecompiledContract (mkStakingMeta "Staking-ETH" 18));
     mret tt
   else mret tt) ;;
  _ ← or_panic (Errorf "error deploying Bech32 Custom Precompiled Contract")
        DeployBech32CustomPrecompiledContract;
  mret tt.

Definition Cpc_ExportGenesis w : res CpcGenesis :=
  params ← Cpc_GetParams w;
  Ok (mkCpcGenesis params false (HasCustomPrecompiledContract w CpcStakingFixedAddress)).
End Cpc.

(** ** Keys: the kinds differ in the first byte *)

Lemma string_bytes_inj s t : string_bytes s = string_bytes t -> s = t.
Proof.
  unfold string_bytes. intros E. rewrite <- (String.string_of_list_byte_of_string s), E.
  apply String.string_of_list_byte_of_string.
Qed.

Lemma MetaKey_inj a b : CustomPrecompiledContractMetaKey a = CustomPrecompiledContractMetaKey b -> a = b.
Proof. intros E. apply app_inv_head in E. by apply farr_eq. Qed.

Lemma MinDenomKey_inj d e :
  Erc20CustomPrecompiledContractMinDenomToAddressKey d = Erc20CustomPrecompiledContractMinDenomToAddressKey e ->
  d = e.
Proof. intros E. apply app_inv_head in E. by apply string_bytes_inj. Qed.

Lemma AllowanceKey_inj o s o' s' :
  Erc20CustomPrecompiledContractAllowanceKey o s = Erc20CustomPrecompiledContractAllowanceKey o' s' ->
  o = o' /\ s = s'.
Proof.
  intros E. apply app_inv_head, app_inj_1 in E; [|by rewrite !farr_length].
  destruct E. split; by apply farr_eq.
Qed.

(** The entries of the registry, apart from the allowances. *)
Definition cpc_registry_key (k : bytes) : Prop := ~ KeyPrefixErc20CpcAllowance `prefix_of` k.

Section CpcProofs.
Context {S : Type} {K : SdkKeepers S} {G : Geth} {B : Bech32} {L : SdkLaws S}.
Context {CP : Codec CpcParams} {CM : Codec CustomPrecompiledContractMeta}.
Context {JE : Json Erc20CustomPrecompiledContractMeta} {JS : Json StakingCustomPrecompiledContractMeta}.
Implicit Types w : World S.

(** [SetErc20CpcAllowance] in closed form. *)
Lemma SetAllowance_ok w owner spender v :
  0 <= v < 2 ^ 256 ->
  exists m, SetErc20CpcAllowance owner spender v w = (Ok tt, set_cpc m w) /\
    forall k, m !! k = if decide (k = Erc20CustomPrecompiledContractAllowanceKey owner spender)
                       then (if decide (v = 0) then None else Some (big_Bytes v)) else w_cpc w !! k.
Proof.
  intros Hv. unfold SetErc20CpcAllowance. set (key := Erc20CustomPrecompiledContractAllowanceKey owner spender).
  destruct (decide (v = 0)) as [->|Hnz].
  - eexists. split; [done|]. intros k. unfold kv_delete. rewrite lookup_delete. repeat case_decide; congruence.
  - rewrite (Z.sgn_pos v) by lia. unfold must.
    assert (BitLen v <= 256) by (apply BitLen_le_iff; lia).
    destruct (Z.ltb_spec 256 (BitLen v)); [lia|]. simpl. eexists. split; [done|].
    intros k. unfold kv_set. rewrite lookup_insert. repeat case_decide; congruence.
Qed.

Lemma SetAllowance_bad w owner spender v :
  ~ 0 <= v < 2 ^ 256 -> exists e, SetErc20CpcAllowance owner spender v w = (Panic e, w).
Proof.
  intros Hv. unfold SetErc20CpcAllowance. destruct (Z.sgn_spec v) as [[H ->]|[[<- ->]|[H ->]]].
  - unfold must. destruct (Z.ltb_spec 256 (BitLen v)) as [Hb|Hb]; [simpl; munfold; eauto|].
    apply BitLen_le_iff in Hb; [|lia]. lia.
  - lia.
  - by eexists.
Qed.

Lemma GetAllowance_of w m owner spender o s v :
  (forall k, m !! k = if decide (k = Erc20CustomPrecompiledContractAllowanceKey owner spender)
                      then (if decide (v = 0) then None else Some (big_Bytes v)) else w_cpc w !! k) ->
  0 <= v ->
  GetErc20CpcAllowance (set_cpc m w) o s =
    if decide (o = owner /\ s = spender) then v else GetErc20CpcAllowance w o s.
Proof.
  intros Hm Hv. unfold GetErc20CpcAllowance, kv_get. simpl. rewrite Hm.
  destruct (decide (o = owner /\ s = spender)) as [[-> ->]|Hne].
  - destruct (decide (_ = Erc20CustomPrecompiledContractAllowanceKey owner spender)) as [_|]; [|done].
    destruct (decide (v = 0)) as [->|Hnz]; [done|]. simpl. rewrite decide_False.
    + by apply big_SetBytes_Bytes.
    + intros El. apply nil_length_inv, big_Bytes_nil_iff in El. done.
  - destruct (decide (_ = Erc20CustomPrecompiledContractAllowanceKey owner spender)) as [E|_]; [|done].
    apply AllowanceKey_inj in E as [-> ->]. by destruct Hne.
Qed.

(** Allowances round trip: setting one accepts exactly the 256-bit values and
    panics on the others without a write; afterwards that owner and spender read the
    value back, every other pair reads what it did, and no parameter or contract
    entry of the store has changed. *)
Theorem allowance_round_trip w (owner spender : Address) (v : Z) :
  let '(r, w') := SetErc20CpcAllowance owner spender v w in
  (r = Ok tt <-> 0 <= v < 2 ^ 256) /\ (r <> Ok tt -> w' = w) /\
  (r = Ok tt -> (forall o s, GetErc20CpcAllowance w' o s =
      if decide (o = owner /\ s = spender) then v else GetErc20CpcAllowance w o s) /\
    (forall k, cpc_registry_key k -> w_cpc w' !! k = w_cpc w !! k) /\ exists m, w' = set_cpc m w).
Proof.
  destruct (decide (0 <= v < 2 ^ 256)) as [Hv|Hv].
  - destruct (SetAllowance_ok w owner spender v Hv) as (m & -> & Hm). split_and!; [done|done|].
    intros _. split_and!; [|intros k Hk|by exists m].
    + intros o s. apply GetAllowance_of; [done|lia].
    + simpl. rewrite Hm. rewrite decide_False; [done|]. intros ->. apply Hk. by eexists.
  - destruct (SetAllowance_bad w owner spender v Hv) as (e & ->). split_and!; done.
Qed.

(** The protocol version never goes down: an update of the parameters succeeds only
    when asked by the authority, with valid parameters whose version is not below the
    stored one; the stored parameters are then the new ones, and an update that
    returns an error leaves every store as it was. *)
Theorem cpc_params_no_downgrade `{!CodecLaws CpcParams} (authority requester : string) (p old : CpcParams) w
  (Hold : Cpc_GetParams w = Ok old)
  (Hmarshal : exists bz, Marshal p = Ok bz /\ bz <> []) :
  let '(r, w') := Cpc_UpdateParams authority requester p w in
  (r = Ok tt <-> authority = requester /\ CpcParams_Validate p = Ok tt /\ ProtocolVersion old <= ProtocolVersion p) /\
  (r = Ok tt -> Cpc_GetParams w' = Ok p) /\ (is_ok r = false -> w' = w).
Proof.
  destruct Hmarshal as (bz & Em & Hne). unfold Cpc_UpdateParams, Cpc_SetParams. munfold.
  case_bool_decide as Ha; [|split_and!; naive_solver].
  destruct (CpcParams_Validate p) as [[]|e|e] eqn:Ev; [|split_and!; naive_solver..].
  rewrite Hold. destruct (Z.ltb_spec (ProtocolVersion p) (ProtocolVersion old)); simpl.
  - split_and!; [split; [done|lia]|done|done].
  - rewrite Em. split_and!; [done| |done]. intros _. unfold Cpc_GetParams. simpl. rewrite kv_get_set_eq.
    rewrite decide_False by (intros El; by apply nil_length_inv in El).
    by rewrite (codec_round _ _ Em).
Qed.

(** ** Deploying an ERC-20 contract *)

Lemma module_account_sequence w :
  forall a w', GetNextDynamicCustomPrecompiledContractAddress w = (Ok a, w') ->
  exists s, w' = set_sdk s w /\
    (forall x d, GetBalance s x d = GetBalance (w_sdk w) x d) /\ (forall d, GetSupply s d = GetSupply (w_sdk w) d).
Proof.
  intros a w'. unfold GetNextDynamicCustomPrecompiledContractAddress. munfold.
  destruct (GetModuleAccount (w_sdk w) CpcModuleName) as [[ma s]|e|e] eqn:E; [|done|done].
  intros [= _ <-]. apply get_module_account_ok in E as (_ & _ & _ & _ & [Hb Hs]).
  eexists. split; [done|]. simpl.
  destruct (set_account_bank s (with_sequence (add64 (acc_sequence ma) 1) ma)) as [Hb2 Hs2].
  split; intros; rewrite ?Hb2, ?Hs2, ?Hb, ?Hs; done.
Qed.

Lemma SetMeta_new_ok w m w' :
  SetCustomPrecompiledContractMeta m true w = (Ok tt, w') ->
  HasCustomPrecompiledContract w (BytesToAddress (meta_Address m)) = false /\
  exists bz, Marshal m = Ok bz /\
    w' = set_cpc (kv_set (w_cpc w) (CustomPrecompiledContractMetaKey (BytesToAddress (meta_Address m))) bz) w.
Proof.
  unfold SetCustomPrecompiledContractMeta. munfold. intros E.
  destruct (GetProtocolCpcVersion w) as [v|e|e]; [|done|done].
  destruct (CpcMeta_Validate m v) as [[]|e|e]; [|done|done].
  destruct (HasCustomPrecompiledContract w (BytesToAddress (meta_Address m))) eqn:Eh; [done|]. simpl in E.
  destruct (Marshal m) as [bz|e|e]; [|done|done]. injection E as <-. eauto.
Qed.

(** What a successful deployment did. *)
Lemma DeployErc20_ok name meta w a w' :
  DeployErc20CustomPrecompiledContract name meta w = (Ok a, w') ->
  Erc20Meta_Validate meta = Ok tt /\ GetErc20CustomPrecompiledContractAddressByMinDenom w (erc20_MinDenom meta) = None /\
  0 < GetSupply (w_sdk w) (erc20_MinDenom meta) /\ HasCustomPrecompiledContract w a = false /\
  exists s bz typed, json_Marshal meta = Ok typed /\
    Marshal (mkCpcMeta (farr_bytes a) CpcTypeErc20 name typed false) = Ok bz /\
    w' = set_cpc (kv_set (kv_set (w_cpc w) (CustomPrecompiledContractMetaKey a) bz)
            (Erc20CustomPrecompiledContractMinDenomToAddressKey (erc20_MinDenom meta)) (farr_bytes a)) (set_sdk s w).
Proof.
  intros E. unfold DeployErc20CustomPrecompiledContract in E.
  apply bind_ok_inv in E as (v & w0 & E0 & E). injection E0 as _ <-.
  apply bind_ok_inv in E as ([] & w0 & E0 & E). unfold wrap_err, lift_res in E0.
  destruct (Erc20Meta_Validate meta) as [[]|e|e] eqn:Ev; [|done|done]. injection E0 as <-.
  apply bind_ok_inv in E as (bz0 & w0 & E0 & E). injection E0 as <- <-.
  apply bind_ok_inv in E as ([] & w0 & E0 & E). unfold require in E0. case_bool_decide as Hl; [|done]. injection E0 as <-.
  apply bind_ok_inv in E as (supply & w0 & E0 & E). injection E0 as <- <-.
  apply bind_ok_inv in E as ([] & w0 & E0 & E). unfold require in E0.
  destruct (Z.ltb_spec 0 (GetSupply (w_sdk w) (erc20_MinDenom meta))) as [Hs|]; [|done]. injection E0 as <-.
  apply bind_ok_inv in E as (addr & w1 & E1 & E).
  apply module_account_sequence in E1 as (s & -> & _ & _).
  apply bind_ok_inv in E as (typed & w0 & E0 & E). unfold lift_res in E0.
  destruct (json_Marshal meta) as [t|e|e] eqn:Ej; [|done|done]. injection E0 as -> <-.
  apply bind_ok_inv in E as ([] & w2 & E2 & E).
  apply SetMeta_new_ok in E2 as (Hh & bz & Em & ->). injection E as <- <-.
  unfold BytesToAddress in *. cbn [meta_Address] in *. rewrite farr_of_bytes in *.
  split_and!; [done| |done|done|].
  - unfold GetErc20CustomPrecompiledContractAddressByMinDenom. by rewrite decide_True.
  - by exists s, bz, typed.
Qed.

(** Every denomination in the index points to a contract, and no two to the same. *)
Definition erc20_index_wf w : Prop :=
  (forall d a, GetErc20CustomPrecompiledContractAddressByMinDenom w d = Some a ->
     HasCustomPrecompiledContract w a = true) /\
  (forall d e a, GetErc20CustomPrecompiledContractAddressByMinDenom w d = Some a ->
     GetErc20CustomPrecompiledContractAddressByMinDenom w e = Some a -> d = e).

Section Deployed.
Variables (w : World S) (a : Address) (denom : string) (bz : bytes) (s : S).
Let w' : World S := set_cpc (kv_set (kv_set (w_cpc w) (CustomPrecompiledContractMetaKey a) bz)
  (Erc20CustomPrecompiledContractMinDenomToAddressKey denom) (farr_bytes a)) (set_sdk s w).

Lemma deployed_has b :
  HasCustomPrecompiledContract w' b = if decide (b = a) then true else HasCustomPrecompiledContract w b.
Proof.
  unfold HasCustomPrecompiledContract, w', kv_has, kv_set. simpl.
  rewrite lookup_insert_ne by done. rewrite lookup_insert. repeat case_decide; subst; try done.
  - by apply MetaKey_inj in H as ->.
Qed.

Lemma deployed_denom d :
  GetErc20CustomPrecompiledContractAddressByMinDenom w' d =
  if decide (d = denom) then Some a else GetErc20CustomPrecompiledContractAddressByMinDenom w d.
Proof.
  unfold GetErc20CustomPrecompiledContractAddressByMinDenom, w'. simpl.
  destruct (decide (d = denom)) as [->|Hne].
  - rewrite kv_get_set_eq, decide_False by (by rewrite farr_length). unfold BytesToAddress. by rewrite farr_of_bytes.
  - assert (Erc20CustomPrecompiledContractMinDenomToAddressKey denom <>
            Erc20CustomPrecompiledContractMinDenomToAddressKey d) as Hk
      by (intros E; by apply MinDenomKey_inj in E).
    by rewrite !kv_get_set_ne.
Qed.

Lemma deployed_allowance o p : GetErc20CpcAllowance w' o p = GetErc20CpcAllowance w o p.
Proof.
  unfold GetErc20CpcAllowance, w'. simpl. by rewrite !kv_get_set_ne.
Qed.
End Deployed.

(** C17 One contract per denomination: a deployment that succeeds had valid metadata for
    a denomination with supply and without a contract, puts the contract at an address
    no contract had, and records it for the denomination; the other contracts, their
    denominations and all allowances are unchanged, the index stays well-formed, and
    deploying for the same denomination again is refused as a conflict without a
    change. *)
Theorem deploy_erc20_unique (name : string) (meta : Erc20CustomPrecompiledContractMeta) w (a : Address) w'
  (Hwf : erc20_index_wf w)
  (Hok : DeployErc20CustomPrecompiledContract name meta w = (Ok a, w')) :
  Erc20Meta_Validate meta = Ok tt /\ 0 < GetSupply (w_sdk w) (erc20_MinDenom meta) /\
  HasCustomPrecompiledContract w a = false /\
  (forall d, GetErc20CustomPrecompiledContractAddressByMinDenom w' d =
     if decide (d = erc20_MinDenom meta) then Some a else GetErc20CustomPrecompiledContractAddressByMinDenom w d) /\
  (forall b, HasCustomPrecompiledContract w' b = if decide (b = a) then true else HasCustomPrecompiledContract w b) /\
  (forall o s, GetErc20CpcAllowance w' o s = GetErc20CpcAllowance w o s) /\
  erc20_index_wf w' /\
  (forall name2 meta2 v, erc20_MinDenom meta2 = erc20_MinDenom meta -> Erc20Meta_Validate meta2 = Ok tt ->
     GetProtocolCpcVersion w' = Ok v ->
     DeployErc20CustomPrecompiledContract name2 meta2 w' = (Err ErrConflict, w')).
Proof.
  destruct (DeployErc20_ok _ _ _ _ _ Hok) as (Hv & Hn & Hs & Hh & s & bz & typed & Hj & Hm & ->).
  split_and!; try done.
  - intros d. apply deployed_denom.
  - intros b. apply deployed_has.
  - intros o p. apply deployed_allowance.
  - destruct Hwf as [W1 W2]. split; intros *; rewrite ?deployed_denom, ?deployed_has.
    + repeat case_decide; intros; simplify_eq; try done. eauto.
    + repeat case_decide; intros; simplify_eq; try done; [| |eauto];
        match goal with H : _ = Some _ |- _ => apply W1 in H; congruence end.
  - intros name2 meta2 v Hd Hv2 Hp. unfold DeployErc20CustomPrecompiledContract, mbind, M_bind.
    rewrite Hp. unfold wrap_err, lift_res. rewrite Hv2, Hd. unfold gets. simpl. rewrite kv_get_set_eq.
    unfold require. by rewrite bool_decide_eq_false_2 by (by rewrite farr_length).
Qed.

Lemma isWhitelisted_spec a l : isWhitelisted a l = true <-> a ∈ l.
Proof.
  induction l as [|x l IH]; simpl; [by rewrite elem_of_nil|]. rewrite elem_of_cons.
  case_decide; [naive_solver|]. rewrite IH. naive_solver.
Qed.

(** Only a whitelisted deployer deploys: a deployment message of anyone else is
    refused as an invalid signer and changes nothing. *)
Theorem deploy_needs_whitelist (req : MsgDeployErc20ContractRequest) (sreq : MsgDeployStakingContractRequest)
  (p : CpcParams) w
  (Hparams : Cpc_GetParams w = Ok p) :
  (dep20_Authority req ∉ WhitelistedDeployers p -> DeployErc20Contract req w = (Err ErrInvalidSigner, w)) /\
  (deps_Authority sreq ∉ WhitelistedDeployers p -> DeployStakingContract sreq w = (Err ErrInvalidSigner, w)) /\
  (forall a w', DeployErc20Contract req w = (Ok a, w') -> dep20_Authority req ∈ WhitelistedDeployers p).
Proof.
  unfold DeployErc20Contract, DeployStakingContract, validateDeployer, mbind, M_bind. rewrite Hparams.
  pose proof (isWhitelisted_spec (dep20_Authority req) (WhitelistedDeployers p)) as H1.
  pose proof (isWhitelisted_spec (deps_Authority sreq) (WhitelistedDeployers p)) as H2.
  split_and!.
  - intros Hn. destruct (isWhitelisted (dep20_Authority req) _); [|done]. by destruct Hn; apply H1.
  - intros Hn. destruct (isWhitelisted (deps_Authority sreq) _); [|done]. by destruct Hn; apply H2.
  - intros a w'. destruct (isWhitelisted (dep20_Authority req) _); [|done]. intros _. by apply H1.
Qed.
End CpcProofs.
