(* ===== verification/CpcContracts.v ===== *)
(** * Custom precompiled contracts: the contracts

    The methods of the ERC-20 and Bech32 contracts (x/cpc/keeper/precompiles_erc20.go,
    precompiles_bech32.go) and the wrapper the EVM calls them through (precompiles.go).
    A method runs on the current state of the StateDB: it writes through its current
    context and adds logs.  go-ethereum's ABI coder is a parameter. *)

From Stdlib Require Import Strings.Byte.
From stdpp Require Import base gmap list strings.
From S2P Require Import Prelude Sdk Geth EvmTypes EvmStore StateDB Cpc StateDBEffects.

(** ** ABI *)

(** The Go values the ABI coder works on. *)
Inductive AbiVal : Type :=
  | VAddress (a : Address)
  | VBigInt (z : Z)
  | VString (s : string)
  | VUint8 (z : Z)
  | VBool (b : bool)
  | VBytes (b : bytes)
  | VBytes32 (h : Hash)
  | VAddresses (l : list Address)
  | VTuple (fields : list string) (values : list AbiVal).

(** [abi.Method]: its selector and the coders of its inputs and outputs. *)
Record AbiMethod : Type := mkAbiMethod {
  method_ID : bytes;
  method_Unpack : bytes -> res (list AbiVal);
  method_Pack : list AbiVal -> res bytes
}.

Record CustomPrecompiledContractInfo : Type := mkCpcInfo {
  info_Name : string;
  info_Methods : string -> option AbiMethod
}.

Definition findMethod (s : CustomPrecompiledContractInfo) (methodName : string) : res AbiMethod :=
  match info_Methods s methodName with
  | Some method => Ok method
  | None => Panic (Errorf "method could not be found")
  end.

(** Slicing the first four bytes of a shorter input panics. *)
Definition findMethodWithSignatureCheck (s : CustomPrecompiledContractInfo) (methodName : string)
    (fullInput : bytes) : res AbiMethod :=
  method ← findMethod s methodName;
  if (length fullInput <? 4)%nat then Panic IndexOutOfRange
  else if decide (method_ID method = take 4 fullInput) then Ok method
  else Panic (Errorf "signature not match").

Definition UnpackMethodInput (s : CustomPrecompiledContractInfo) (methodName : string) (fullInput : bytes) :
    res (list AbiVal) :=
  method ← findMethodWithSignatureCheck s methodName fullInput;
  method_Unpack method (drop 4 fullInput).

Definition PackMethodOutput (s : CustomPrecompiledContractInfo) (methodName : string) (args : list AbiVal) :
    res bytes :=
  method ← findMethod s methodName; method_Pack method args.

(** Type assertions on an unpacked argument. *)
Definition arg_Address (ips : list AbiVal) (i : nat) : res Address :=
  match ips !! i with
  | Some (VAddress a) => Ok a
  | Some _ => Panic (Errorf "interface conversion")
  | None => Panic IndexOutOfRange
  end.
Definition arg_BigInt (ips : list AbiVal) (i : nat) : res Z :=
  match ips !! i with
  | Some (VBigInt z) => Ok z
  | Some _ => Panic (Errorf "interface conversion")
  | None => Panic IndexOutOfRange
  end.
Definition arg_String (ips : list AbiVal) (i : nat) : res string :=
  match ips !! i with
  | Some (VString s) => Ok s
  | Some _ => Panic (Errorf "interface conversion")
  | None => Panic IndexOutOfRange
  end.
Definition arg_Bytes (ips : list AbiVal) (i : nat) : res bytes :=
  match ips !! i with
  | Some (VBytes b) => Ok b
  | Some _ => Panic (Errorf "interface conversion")
  | None => Panic IndexOutOfRange
  end.
Definition arg_Bytes32 (ips : list AbiVal) (i : nat) : res Hash :=
  match ips !! i with
  | Some (VBytes32 h) => Ok h
  | Some _ => Panic (Errorf "interface conversion")
  | None => Panic IndexOutOfRange
  end.

Definition arg_Uint8 (ips : list AbiVal) (i : nat) : res Z :=
  match ips !! i with
  | Some (VUint8 z) => Ok z
  | Some _ => Panic (Errorf "interface conversion")
  | None => Panic IndexOutOfRange
  end.
(** An argument of any type. *)
Definition arg_any (ips : list AbiVal) (i : nat) : res AbiVal :=
  match ips !! i with Some v => Ok v | None => Panic IndexOutOfRange end.

Definition AbiEncodeBool (b : bool) : res bytes :=
  Ok (replicate 31 x00 ++ [if b then x01 else x00]).

Definition BigMaxUint256 : Z := big_SetBytes (replicate 32 xff).

(** ** Methods *)

(** Besides the StateDB and its current context, an executor is given the configuration
    of the EVM and the protocol version. *)
Record cpcExecutorEnv : Type := mkExecutorEnv {
  env_ChainConfig : EthChainConfig;
  env_protocolVersion : Z
}.

Section Contracts.
Context {S : Type} {K : SdkKeepers S} {G : Geth} {B : Bech32}.
Context {CP : Codec CpcParams} {CM : Codec CustomPrecompiledContractMeta}.
Context {JE : Json Erc20CustomPrecompiledContractMeta} {JS : Json StakingCustomPrecompiledContractMeta}.
Variables Erc20CpcInfo Bech32CpcInfo : CustomPrecompiledContractInfo.

Record Executor : Type := mkExecutor {
  Method4BytesSignatures : bytes;
  RequireGas : Z;
  ReadOnly : bool;
  Execute : Address -> Address -> bytes -> cpcExecutorEnv -> M (Live S) bytes
}.

Record CustomPrecompiledContract : Type := mkContract {
  GetMetadata : CustomPrecompiledContractMeta;
  GetMethodExecutors : list Executor
}.

Definition in_world {A} (m : M (World S) A) : M (Live S) A :=
  zoom l_world (fun w l => mkLive w (l_rev l)) m.

Definition notSupportedExecutor (sig : bytes) (readOnly : bool) : Executor :=
  mkExecutor sig (if readOnly then 0 else 2) readOnly (fun _ _ _ _ => err ErrNotSupportedByCpc).

(** The wrapper: a call that reaches the wrong method is the caller's fault. *)
Definition Cpc_Execute (executor : Executor) (protocolVersion : Z) (chainConfig : EthChainConfig)
    (caller contractAddress : Address) (input : bytes) : M (Live S) bytes :=
  if (length input <? 4)%nat then panic (Errorf "invalid call input, minimum 4 bytes required")
  else if decide (take 4 input = Method4BytesSignatures executor)
  then Execute executor caller contractAddress input (mkExecutorEnv chainConfig protocolVersion)
  else panic (Errorf "mis-match signature").

(** *** ERC-20 *)

Section Erc20.
Variable metadata : CustomPrecompiledContractMeta.

(** The decoded metadata is kept after the first use. *)
Definition GetErc20Metadata : res Erc20CustomPrecompiledContractMeta :=
  must_res (json_Unmarshal (meta_TypedMeta metadata)).

Definition erc20_name (_ _ : Address) (input : bytes) (_ : cpcExecutorEnv) : M (Live S) bytes :=
  _ ← lift_res (UnpackMethodInput Erc20CpcInfo "name" input);
  lift_res (PackMethodOutput Erc20CpcInfo "name" [VString (meta_Name metadata)]).

Definition erc20_symbol (_ _ : Address) (input : bytes) (_ : cpcExecutorEnv) : M (Live S) bytes :=
  _ ← lift_res (UnpackMethodInput Erc20CpcInfo "symbol" input);
  meta ← lift_res GetErc20Metadata;
  lift_res (PackMethodOutput Erc20CpcInfo "symbol" [VString (erc20_Symbol meta)]).

Definition erc20_decimals (_ _ : Address) (input : bytes) (_ : cpcExecutorEnv) : M (Live S) bytes :=
  _ ← lift_res (UnpackMethodInput Erc20CpcInfo "decimals" input);
  meta ← lift_res GetErc20Metadata;
  lift_res (PackMethodOutput Erc20CpcInfo "decimals" [VUint8 (erc20_Decimals meta)]).

Definition erc20_totalSupply (_ _ : Address) (input : bytes) (_ : cpcExecutorEnv) : M (Live S) bytes :=
  _ ← lift_res (UnpackMethodInput Erc20CpcInfo "totalSupply" input);
  meta ← lift_res GetErc20Metadata;
  supply ← gets (fun l => GetSupply (w_sdk (l_world l)) (erc20_MinDenom meta));
  lift_res (PackMethodOutput Erc20CpcInfo "totalSupply" [VBigInt supply]).

Definition erc20_balanceOf (_ _ : Address) (input : bytes) (_ : cpcExecutorEnv) : M (Live S) bytes :=
  ips ← lift_res (UnpackMethodInput Erc20CpcInfo "balanceOf" input);
  addr ← lift_res (arg_Address ips 0);
  meta ← lift_res GetErc20Metadata;
  balance ← gets (fun l => GetBalance (w_sdk (l_world l)) (farr_bytes addr) (erc20_MinDenom meta));
  lift_res (PackMethodOutput Erc20CpcInfo "balanceOf" [VBigInt balance]).

Definition erc20_allowance (_ _ : Address) (input : bytes) (_ : cpcExecutorEnv) : M (Live S) bytes :=
  ips ← lift_res (UnpackMethodInput Erc20CpcInfo "allowance" input);
  owner ← lift_res (arg_Address ips 0);
  spender ← lift_res (arg_Address ips 1);
  allowance ← gets (fun l => GetErc20CpcAllowance (l_world l) owner spender);
  lift_res (PackMethodOutput Erc20CpcInfo "allowance" [VBigInt allowance]).

Definition erc20_spendAllowance (owner spender : Address) (amount : Z) : M (Live S) unit :=
  currentAllowance ← gets (fun l => GetErc20CpcAllowance (l_world l) owner spender);
  if currentAllowance =? BigMaxUint256 then mret tt
  else
    require (negb (currentAllowance <? amount)) (Errorf "ERC20InsufficientAllowance") ;;
    in_world (SetErc20CpcAllowance owner spender (currentAllowance - amount)).

Definition transfer_topic : Hash :=
  HexToHash "0xddf252ad1be2c89b69c2b068fc378daa952ba7f163c4a11628f55a4df523b3ef".
Definition approval_topic : Hash :=
  HexToHash "0x8c5be1e5ebec7d5bd14f71427d1e84f3dd0314c0f7b2291e5b200ac8c7c3b925".

Definition transfer_log (contractAddr from to : Address) (amount : Z) : Log :=
  mkLog contractAddr [transfer_topic; BytesToHash (farr_bytes from); BytesToHash (farr_bytes to)]
    (farr_bytes (BytesToHash (big_Bytes amount))).

(** [transfer]: to the zero address it burns. *)
Definition erc20_move (from to : Address) (amount : Z) (contractAddr : Address) : M (Live S) bytes :=
  must (negb (amount <? 0)) (Errorf "amount must not be negative") ;;
  meta ← lift_res GetErc20Metadata;
  let denom := erc20_MinDenom meta in
  fromBalance ← gets (fun l => GetBalance (w_sdk (l_world l)) (farr_bytes from) denom);
  require (negb (fromBalance <? amount)) (Errorf "ERC20InsufficientBalance") ;;
  (if negb (amount =? 0) && negb (bool_decide (from = to)) then
     amt ← lift_res (NewIntFromBigInt amount);
     coins ← lift_res (NewCoins1 denom amt);
     if decide (to = zero_address) then
       wrap_err ErrExecFailure (bank (fun s => SendCoinsFromAccountToModule s (farr_bytes from) CpcModuleName coins)) ;;
       wrap_err ErrExecFailure (bank (fun s => BurnCoins s CpcModuleName coins))
     else
       wrap_err ErrExecFailure (bank (fun s => SendCoins s (farr_bytes from) (farr_bytes to) coins))
   else mret tt) ;;
  cStateDb_AddLog (transfer_log contractAddr from to amount) ;;
  lift_res (AbiEncodeBool true).

Definition erc20_transferFrom (caller contractAddr : Address) (input : bytes) (_ : cpcExecutorEnv) : M (Live S) bytes :=
  ips ← lift_res (UnpackMethodInput Erc20CpcInfo "transferFrom" input);
  from ← lift_res (arg_Address ips 0);
  to ← lift_res (arg_Address ips 1);
  amount ← lift_res (arg_BigInt ips 2);
  require (negb (bool_decide (from = zero_address))) (Errorf "ERC20InvalidSender") ;;
  require (negb (bool_decide (to = zero_address))) (Errorf "ERC20InvalidReceiver") ;;
  (if decide (from = caller) then mret tt else erc20_spendAllowance from caller amount) ;;
  erc20_move from to amount contractAddr.

Definition erc20_transfer (caller contractAddr : Address) (input : bytes) (_ : cpcExecutorEnv) : M (Live S) bytes :=
  ips ← lift_res (UnpackMethodInput Erc20CpcInfo "transfer" input);
  let from := caller in
  to ← lift_res (arg_Address ips 0);
  amount ← lift_res (arg_BigInt ips 1);
  require (negb (bool_decide (from = zero_address))) (Errorf "ERC20InvalidSender") ;;
  require (negb (bool_decide (to = zero_address))) (Errorf "ERC20InvalidReceiver") ;;
  erc20_move from to amount contractAddr.

Definition erc20_approve (caller contractAddr : Address) (input : bytes) (_ : cpcExecutorEnv) : M (Live S) bytes :=
  ips ← lift_res (UnpackMethodInput Erc20CpcInfo "approve" input);
  let owner := caller in
  spender ← lift_res (arg_Address ips 0);
  value ← lift_res (arg_BigInt ips 1);
  require (negb (bool_decide (owner = zero_address))) (Errorf "ERC20InvalidApprover") ;;
  require (negb (bool_decide (spender = zero_address))) (Errorf "ERC20InvalidSpender") ;;
  in_world (SetErc20CpcAllowance owner spender value) ;;
  cStateDb_AddLog
    (mkLog contractAddr [approval_topic; BytesToHash (farr_bytes owner); BytesToHash (farr_bytes spender)]
       (farr_bytes (BytesToHash (big_Bytes value)))) ;;
  lift_res (PackMethodOutput Erc20CpcInfo "approve" [VBool true]).

Definition erc20_burnFrom (caller contractAddr : Address) (input : bytes) (_ : cpcExecutorEnv) : M (Live S) bytes :=
  ips ← lift_res (UnpackMethodInput Erc20CpcInfo "burnFrom" input);
  address ← lift_res (arg_Address ips 0);
  amount ← lift_res (arg_BigInt ips 1);
  require (negb (bool_decide (address = zero_address))) (Errorf "ERC20InvalidSender") ;;
  (if decide (address = caller) then mret tt else erc20_spendAllowance address caller amount) ;;
  erc20_move address zero_address amount contractAddr.

Definition erc20_burn (caller contractAddr : Address) (input : bytes) (_ : cpcExecutorEnv) : M (Live S) bytes :=
  ips ← lift_res (UnpackMethodInput Erc20CpcInfo "burn" input);
  let from := caller in
  amount ← lift_res (arg_BigInt ips 0);
  require (negb (bool_decide (from = zero_address))) (Errorf "ERC20InvalidSender") ;;
  erc20_move from zero_address amount contractAddr.

(** The methods: selector, gas, whether they only read, and their code. *)
Definition erc20CustomPrecompiledContractRoName : Executor := mkExecutor [x06; xfd; xde; x03] 0 true erc20_name.
Definition erc20CustomPrecompiledContractRoSymbol : Executor := mkExecutor [x95; xd8; x9b; x41] 0 true erc20_symbol.
Definition erc20CustomPrecompiledContractRoDecimals : Executor := mkExecutor [x31; x3c; xe5; x67] 0 true erc20_decimals.
Definition erc20CustomPrecompiledContractRoTotalSupply : Executor := mkExecutor [x18; x16; x0d; xdd] 1000 true erc20_totalSupply.
Definition erc20CustomPrecompiledContractRoBalanceOf : Executor := mkExecutor [x70; xa0; x82; x31] 1000 true erc20_balanceOf.
Definition erc20CustomPrecompiledContractRwTransferFrom : Executor := mkExecutor [x23; xb8; x72; xdd] 15000 false erc20_transferFrom.
Definition erc20CustomPrecompiledContractRwTransfer : Executor := mkExecutor [xa9; x05; x9c; xbb] 15000 false erc20_transfer.
Definition erc20CustomPrecompiledContractRwApprove : Executor := mkExecutor [x09; x5e; xa7; xb3] 30000 false erc20_approve.
Definition erc20CustomPrecompiledContractRoAllowance : Executor := mkExecutor [xdd; x62; xed; x3e] 1000 true erc20_allowance.
Definition erc20CustomPrecompiledContractRwBurnFrom : Executor := mkExecutor [x79; xcc; x67; x90] 15000 false erc20_burnFrom.
Definition erc20CustomPrecompiledContractRwBurn : Executor := mkExecutor [x42; x96; x6c; x68] 15000 false erc20_burn.

Definition NewErc20CustomPrecompiledContract : CustomPrecompiledContract :=
  mkContract metadata [
    erc20CustomPrecompiledContractRoName;
    erc20CustomPrecompiledContractRoSymbol;
    erc20CustomPrecompiledContractRoDecimals;
    erc20CustomPrecompiledContractRoTotalSupply;
    erc20CustomPrecompiledContractRoBalanceOf;
    erc20CustomPrecompiledContractRwTransferFrom;
    erc20CustomPrecompiledContractRwTransfer;
    erc20CustomPrecompiledContractRwApprove;
    erc20CustomPrecompiledContractRoAllowance;
    erc20CustomPrecompiledContractRwBurnFrom;
    erc20CustomPrecompiledContractRwBurn ].
End Erc20.

(** *** Bech32 *)

Definition maxBech32EncodeBufferSizeAllowed : nat := 256.

(** A failed conversion is reported in the output, not as an error. *)
Definition pack_encoded (methodName : string) (r : res string) : res bytes :=
  match r with
  | Ok result => PackMethodOutput Bech32CpcInfo methodName [VString result; VBool true]
  | Err _ => PackMethodOutput Bech32CpcInfo methodName [VString ""; VBool false]
  | Panic e => Panic e
  end.

Definition bech32_encodeAddress (_ _ : Address) (input : bytes) (_ : cpcExecutorEnv) : M (Live S) bytes :=
  ips ← lift_res (UnpackMethodInput Bech32CpcInfo "bech32EncodeAddress" input);
  hrp ← lift_res (arg_String ips 0);
  address ← lift_res (arg_Address ips 1);
  lift_res (pack_encoded "bech32EncodeAddress" (ConvertAndEncode hrp (farr_bytes address))).

Definition bech32_encode32BytesAddress (_ _ : Address) (input : bytes) (_ : cpcExecutorEnv) : M (Live S) bytes :=
  ips ← lift_res (UnpackMethodInput Bech32CpcInfo "bech32Encode32BytesAddress" input);
  hrp ← lift_res (arg_String ips 0);
  address ← lift_res (arg_Bytes32 ips 1);
  lift_res (pack_encoded "bech32Encode32BytesAddress" (ConvertAndEncode hrp (farr_bytes address))).

Definition bech32_encodeBytes (_ _ : Address) (input : bytes) (_ : cpcExecutorEnv) : M (Live S) bytes :=
  ips ← lift_res (UnpackMethodInput Bech32CpcInfo "bech32EncodeBytes" input);
  hrp ← lift_res (arg_String ips 0);
  buffer ← lift_res (arg_Bytes ips 1);
  if (maxBech32EncodeBufferSizeAllowed <? length buffer)%nat
  then lift_res (PackMethodOutput Bech32CpcInfo "bech32EncodeBytes" [VString ""; VBool false])
  else lift_res (pack_encoded "bech32EncodeBytes" (ConvertAndEncode hrp buffer)).

Definition bech32_decode (_ _ : Address) (input : bytes) (_ : cpcExecutorEnv) : M (Live S) bytes :=
  ips ← lift_res (UnpackMethodInput Bech32CpcInfo "bech32Decode" input);
  inputBech32 ← lift_res (arg_String ips 0);
  lift_res
    match DecodeAndConvert inputBech32 with
    | Ok (hrp, buffer) => PackMethodOutput Bech32CpcInfo "bech32Decode" [VString hrp; VBytes buffer; VBool true]
    | Err _ => PackMethodOutput Bech32CpcInfo "bech32Decode" [VString ""; VBytes []; VBool false]
    | Panic e => Panic e
    end.

(** The methods that return a prefix do not look at their input. *)
Definition bech32_prefix (methodName : string) (prefix : string) (_ _ : Address) (_ : bytes) (_ : cpcExecutorEnv) :
    M (Live S) bytes :=
  lift_res (PackMethodOutput Bech32CpcInfo methodName [VString prefix]).

Definition bech32CustomPrecompiledContractRoEncodeAddress : Executor :=
  mkExecutor [xb3; x61; xcf; xef] 30000 true bech32_encodeAddress.
Definition bech32CustomPrecompiledContractRoEncode32BytesAddress : Executor :=
  mkExecutor [xa9; x4b; x84; xb3] 60000 true bech32_encode32BytesAddress.
Definition bech32CustomPrecompiledContractRoEncodeBytes : Executor :=
  mkExecutor [xf6; xe0; xd5; x03] 200000 true bech32_encodeBytes.
Definition bech32CustomPrecompiledContractRoDecode : Executor :=
  mkExecutor [xbc; x42; x53; x7f] 200000 true bech32_decode.
Definition bech32CustomPrecompiledContractRoAccountAddrPrefix : Executor :=
  mkExecutor [x96; x44; x3b; x16] 5000 true
    (bech32_prefix "bech32AccountAddrPrefix" (Bech32AccountAddrPrefix sdk_config)).
Definition bech32CustomPrecompiledContractRoValidatorAddrPrefix : Executor :=
  mkExecutor [x80; x36; xb2; x25] 5000 true
    (bech32_prefix "bech32ValidatorAddrPrefix" (Bech32ValidatorAddrPrefix sdk_config)).
Definition bech32CustomPrecompiledContractRoConsensusAddrPrefix : Executor :=
  mkExecutor [x88; x33; x3d; xe6] 5000 true
    (bech32_prefix "bech32ConsensusAddrPrefix" (Bech32ConsensusAddrPrefix sdk_config)).
Definition bech32CustomPrecompiledContractRoAccountPubPrefix : Executor :=
  mkExecutor [x76; x5c; x9d; x92] 5000 true
    (bech32_prefix "bech32AccountPubPrefix" (Bech32AccountPubPrefix sdk_config)).
Definition bech32CustomPrecompiledContractRoValidatorPubPrefix : Executor :=
  mkExecutor [x73; x74; xcb; x91] 5000 true
    (bech32_prefix "bech32ValidatorPubPrefix" (Bech32ValidatorPubPrefix sdk_config)).
Definition bech32CustomPrecompiledContractRoConsensusPubPrefix : Executor :=
  mkExecutor [x2a; x99; xc3; x42] 5000 true
    (bech32_prefix "bech32ConsensusPubPrefix" (Bech32ConsensusPubPrefix sdk_config)).

Definition NewBech32CustomPrecompiledContract (metadata : CustomPrecompiledContractMeta) :
    CustomPrecompiledContract :=
  mkContract metadata [
    bech32CustomPrecompiledContractRoEncodeAddress;
    bech32CustomPrecompiledContractRoEncode32BytesAddress;
    bech32CustomPrecompiledContractRoEncodeBytes;
    bech32CustomPrecompiledContractRoDecode;
    bech32CustomPrecompiledContractRoAccountAddrPrefix;
    bech32CustomPrecompiledContractRoValidatorAddrPrefix;
    bech32CustomPrecompiledContractRoConsensusAddrPrefix;
    bech32CustomPrecompiledContractRoAccountPubPrefix;
    bech32CustomPrecompiledContractRoValidatorPubPrefix;
    bech32CustomPrecompiledContractRoConsensusPubPrefix ].

End Contracts.
Arguments Executor S : clear implicits.
Arguments CustomPrecompiledContract S : clear implicits.

(** ** What the ERC-20 methods do *)

Section Erc20Proofs.
Context {S : Type} {K : SdkKeepers S} {G : Geth} {B : Bech32} {L : SdkLaws S}.
Context {JE : Json Erc20CustomPrecompiledContractMeta}.
Implicit Types l : Live S.

Abbreviation bal l := (GetBalance (w_sdk (l_world l))).
Abbreviation allow l := (GetErc20CpcAllowance (l_world l)).

Definition logged (log : Log) (r : Rev) : Rev :=
  mkRev (touched r) (refund r) (selfDestructed r) (rv_accessList r) (logs r ++ [log]) (transientStorage r).

(** The coins can leave the account: no more than it has, and no more than it can
    spend when they go somewhere else. *)
Definition movable l (from to : Address) (denom : string) (amount : Z) : Prop :=
  amount <= bal l (farr_bytes from) denom /\
  (amount = 0 \/ from = to \/ amount <= spendable (w_sdk (l_world l)) (farr_bytes from) denom).

(** A spender other than the owner needs an allowance. *)
Definition allowed l (owner spender : Address) (amount : Z) : Prop :=
  owner = spender \/ allow l owner spender = BigMaxUint256 \/ amount <= allow l owner spender.

Lemma BigMaxUint256_eq : BigMaxUint256 = 2 ^ 256 - 1.
Proof. vm_compute. reflexivity. Qed.

Lemma allowance_range l o s : 0 <= allow l o s.
Proof.
  unfold GetErc20CpcAllowance. case_decide; [lia|]. apply be_decode_range.
Qed.

(** Spending an allowance: what it leaves. *)
Definition spent l (owner spender : Address) (amount : Z) (o s : Address) : Z :=
  if decide (o = owner /\ s = spender /\ owner <> spender /\ allow l owner spender <> BigMaxUint256)
  then allow l owner spender - amount else allow l o s.

Lemma spendAllowance_spec l owner spender amount :
  0 <= amount -> allow l owner spender < 2 ^ 256 -> owner <> spender ->
  if decide (allow l owner spender = BigMaxUint256 \/ amount <= allow l owner spender) then
    exists m, erc20_spendAllowance owner spender amount l = (Ok tt, mkLive (set_cpc m (l_world l)) (l_rev l)) /\
      forall o s, GetErc20CpcAllowance (set_cpc m (l_world l)) o s = spent l owner spender amount o s
  else erc20_spendAllowance owner spender amount l = (Err (Errorf "ERC20InsufficientAllowance"), l).
Proof.
  intros Ha Hr Hne. pose proof (allowance_range l owner spender) as H0.
  unfold erc20_spendAllowance. munfold. unfold spent.
  destruct (Z.eqb_spec (allow l owner spender) BigMaxUint256) as [E|E].
  - rewrite decide_True by (by left). exists (w_cpc (l_world l)).
    split; [by destruct l as [[] ?]|]. intros o s. rewrite decide_False by naive_solver.
    by destruct l as [[] ?].
  - destruct (Z.ltb_spec (allow l owner spender) amount); simpl.
    + rewrite decide_False by lia. done.
    + rewrite decide_True by (by right).
      destruct (SetAllowance_ok (l_world l) owner spender (allow l owner spender - amount)) as (m & Em & Hm); [lia|].
      exists m. unfold in_world, zoom. rewrite Em. split; [done|]. intros o s.
      rewrite (GetAllowance_of _ _ _ _ _ _ _ Hm) by lia.
      destruct (decide (o = owner /\ s = spender)) as [[-> ->]|Hn];
        [by rewrite decide_True|by rewrite decide_False by naive_solver].
Qed.

Section Move.
Variables (metadata : CustomPrecompiledContractMeta) (meta : Erc20CustomPrecompiledContractMeta).
Hypothesis Hmeta : json_Unmarshal (meta_TypedMeta metadata) = Ok meta.
Abbreviation denom := (erc20_MinDenom meta).

(** The state after coins moved: the bank changed by [db], the supply by [ds]. *)
Definition moved l l' (log : Log) (db : bytes -> string -> Z) (ds : string -> Z) : Prop :=
  exists s', l' = mkLive (set_sdk s' (l_world l)) (logged log (l_rev l)) /\
    bank_delta (w_sdk (l_world l)) s' db ds.

Lemma moved_nothing l (log : Log) db ds :
  (forall x d, db x d = 0) -> (forall d, ds d = 0) -> moved l (mkLive (l_world l) (logged log (l_rev l))) log db ds.
Proof.
  intros Hb Hs. exists (w_sdk (l_world l)). split; [by destruct l as [[] ?]|].
  split; intros; rewrite ?Hb, ?Hs; lia.
Qed.

Lemma move_transfer l from to amount c :
  to <> zero_address -> 0 <= amount < 2 ^ 256 ->
  (forall d, LockedCoins (w_sdk (l_world l)) (farr_bytes from) d <= bal l (farr_bytes from) d) ->
  let '(r, l') := erc20_move metadata from to amount c l in
  (is_ok r = true <-> movable l from to denom amount) /\
  (is_ok r = true -> r = AbiEncodeBool true /\
     moved l l' (transfer_log c from to amount)
       (fun x d => at_account (farr_bytes from) denom (- amount) x d + at_account (farr_bytes to) denom amount x d)
       (fun _ => 0)) /\
  (is_ok r = false -> l' = l).
Proof.
  intros Hto Ham Hlock. unfold erc20_move, GetErc20Metadata, movable. rewrite Hmeta. munfold.
  destruct (Z.ltb_spec amount 0); [lia|]. simpl.
  destruct (Z.ltb_spec (bal l (farr_bytes from) denom) amount) as [Hlt|Hge]; simpl.
  { split_and!; [split; [done|lia]|done|done]. }
  destruct (Z.eqb_spec amount 0) as [->|Hnz]; simpl.
  { split_and!; [split; [intros _; by auto|done]| |done]. intros _. split; [done|].
    apply moved_nothing; [|done]. intros. unfold at_account. repeat case_decide; done. }
  destruct (bool_decide_reflect (from = to)) as [->|Hft]; simpl.
  { split_and!; [split; [intros _; by auto|done]| |done]. intros _. split; [done|].
    apply moved_nothing; [|done]. intros. unfold at_account. repeat case_decide; lia. }
  rewrite NewInt_ok by lia. rewrite NewCoins1_pos by lia. rewrite decide_False by done.
  unfold bank, run_upd. munfold.
  pose proof (can_spend_single (w_sdk (l_world l)) (farr_bytes from) denom amount ltac:(lia) Hlock) as Hcs.
  pose proof (coins_valid_single denom amount ltac:(lia)) as Hcv.
  destruct (decide (amount <= spendable (w_sdk (l_world l)) (farr_bytes from) denom)) as [Hs|Hs].
  - destruct (send_progress _ (farr_bytes from) (farr_bytes to) _ Hcv (proj2 Hcs Hs)) as [s' E].
    rewrite E. simpl. split_and!; [split; [intros _; by auto|done]| |done]. intros _. split; [done|].
    exists s'. split; [by destruct l as [[] ?]|]. apply send_ok in E as (Hm & _ & Hp).
    split; [|intros d; rewrite Hp; lia]. intros x d. rewrite Hm, AmountOf_single. unfold at_account.
    repeat case_decide; naive_solver lia.
  - rewrite send_insufficient by (done || tauto). simpl.
    split_and!; [split; [done|naive_solver lia]|done|done].
Qed.
End Move.

Lemma move_world metadata meta l l' log db ds :
  moved l l' log db ds -> json_Unmarshal (meta_TypedMeta metadata) = Ok meta ->
  (forall x d, bal l' x d = bal l x d + db x d) /\
  (forall d, GetSupply (w_sdk (l_world l')) d = GetSupply (w_sdk (l_world l)) d + ds d) /\
  (forall o s, allow l' o s = allow l o s) /\ logs (l_rev l') = logs (l_rev l) ++ [log].
Proof. intros (s' & -> & [Hb Hs]) _. split_and!; done. Qed.

(** [transferFrom] in full. *)
Lemma transferFrom_ok (info : CustomPrecompiledContractInfo)
  (metadata : CustomPrecompiledContractMeta) (meta : Erc20CustomPrecompiledContractMeta)
  (caller contract from to : Address) (amount : Z) (v : cpcExecutorEnv) (input : bytes) (l : Live S)
  (Hmeta : json_Unmarshal (meta_TypedMeta metadata) = Ok meta)
  (Hinput : UnpackMethodInput info "transferFrom" input = Ok [VAddress from; VAddress to; VBigInt amount])
  (Hamount : 0 <= amount < 2 ^ 256)
  (Hallow : GetErc20CpcAllowance (l_world l) from caller < 2 ^ 256)
  (Hlocked : forall d, LockedCoins (w_sdk (l_world l)) (farr_bytes from) d
                       <= GetBalance (w_sdk (l_world l)) (farr_bytes from) d) :
  let '(r, l') := erc20_transferFrom info metadata caller contract input v l in
  (is_ok r = true <-> from <> zero_address /\ to <> zero_address /\ allowed l from caller amount /\
     movable l from to (erc20_MinDenom meta) amount) /\
  (is_ok r = true ->
     (forall x d, bal l' x d = bal l x d + (at_account (farr_bytes from) (erc20_MinDenom meta) (- amount) x d
        + at_account (farr_bytes to) (erc20_MinDenom meta) amount x d)) /\
     (forall d, GetSupply (w_sdk (l_world l')) d = GetSupply (w_sdk (l_world l)) d) /\
     (forall o s, allow l' o s = spent l from caller amount o s) /\
     logs (l_rev l') = logs (l_rev l) ++ [transfer_log contract from to amount]).
Proof.
  unfold erc20_transferFrom, mbind, M_bind, lift_res, require. rewrite Hinput. simpl.
  destruct (bool_decide_reflect (from = zero_address)) as [?|Hf]; simpl; [split; naive_solver|].
  destruct (bool_decide_reflect (to = zero_address)) as [?|Ht]; simpl; [split; naive_solver|].
  assert (exists l1, (if decide (from = caller) then mret tt else erc20_spendAllowance from caller amount) l =
      (if decide (allowed l from caller amount) then Ok tt else Err (Errorf "ERC20InsufficientAllowance"), l1) /\
    (allowed l from caller amount -> exists m, l1 = mkLive (set_cpc m (l_world l)) (l_rev l) /\
       forall o s, GetErc20CpcAllowance (set_cpc m (l_world l)) o s = spent l from caller amount o s))
    as (l1 & -> & Hl1).
  { unfold allowed. destruct (decide (from = caller)) as [->|Hne].
    - exists l. rewrite decide_True by (by left). split; [done|]. intros _. exists (w_cpc (l_world l)).
      split; [by destruct l as [[] ?]|]. intros o s. unfold spent. rewrite decide_False by naive_solver.
      by destruct l as [[] ?].
    - pose proof (spendAllowance_spec l from caller amount ltac:(lia) Hallow Hne) as Hs.
      case_decide as Hd.
      + destruct Hs as (m & -> & Hm). eexists. rewrite decide_True by (by right). eauto.
      + rewrite Hs. exists l. rewrite decide_False by naive_solver. naive_solver. }
  case_decide as Hal; [|split; naive_solver].
  destruct (Hl1 Hal) as (m & -> & Hm). set (l1 := mkLive (set_cpc m (l_world l)) (l_rev l)).
  pose proof (move_transfer metadata meta Hmeta l1 from to amount contract Ht Hamount Hlocked) as Hmv.
  destruct (erc20_move metadata from to amount contract l1) as [r l'].
  destruct Hmv as (Hiff & Hok & _). split; [rewrite Hiff; naive_solver|].
  intros Hr. destruct (Hok Hr) as [_ Hmoved].
  apply (move_world metadata meta) in Hmoved as (Hb & Hs & Ha & Hg); [|done].
  split_and!; [done|intros d; rewrite Hs; simpl; lia|intros o s; by rewrite Ha|done].
Qed.

(** [approve] in full. *)
Lemma approve_ok (info : CustomPrecompiledContractInfo) (owner contract spender : Address) (amount : Z) (v : cpcExecutorEnv)
  (input out : bytes) l :
  UnpackMethodInput info "approve" input = Ok [VAddress spender; VBigInt amount] ->
  PackMethodOutput info "approve" [VBool true] = Ok out ->
  0 <= amount < 2 ^ 256 -> owner <> zero_address -> spender <> zero_address ->
  exists m log, erc20_approve info owner contract input v l =
      (Ok out, mkLive (set_cpc m (l_world l)) (logged log (l_rev l))) /\
    forall o s, GetErc20CpcAllowance (set_cpc m (l_world l)) o s =
      if decide (o = owner /\ s = spender) then amount else allow l o s.
Proof.
  intros Hin Hout Ham Ho Hs. unfold erc20_approve, mbind, M_bind, lift_res, require. rewrite Hin. simpl.
  rewrite !bool_decide_eq_false_2 by done. simpl.
  destruct (SetAllowance_ok (l_world l) owner spender amount Ham) as (m & Em & Hm).
  unfold in_world, zoom. rewrite Em. unfold cStateDb_AddLog, modify. rewrite Hout.
  exists m. eexists. split; [done|]. intros o s. apply GetAllowance_of; [done|lia].
Qed.

(** C15 [transferFrom] of an ERC-20 contract: it succeeds exactly when neither address is
    zero, the caller is the owner or has a sufficient or infinite allowance, and the
    owner can spend the amount; then it moves exactly the amount of the contract's
    coin, keeps the supply, lowers a finite allowance by the amount and leaves every
    other allowance, and adds one Transfer log. *)
Theorem erc20_transferFrom_spec (info : CustomPrecompiledContractInfo)
  (metadata : CustomPrecompiledContractMeta) (meta : Erc20CustomPrecompiledContractMeta)
  (caller contract from to : Address) (amount : Z) (v : cpcExecutorEnv) (input : bytes) (l : Live S)
  (Hmeta : json_Unmarshal (meta_TypedMeta metadata) = Ok meta)
  (Hinput : UnpackMethodInput info "transferFrom" input = Ok [VAddress from; VAddress to; VBigInt amount])
  (Hamount : 0 <= amount < 2 ^ 256)
  (Hallow : GetErc20CpcAllowance (l_world l) from caller < 2 ^ 256)
  (Hlocked : forall d, LockedCoins (w_sdk (l_world l)) (farr_bytes from) d
                       <= GetBalance (w_sdk (l_world l)) (farr_bytes from) d) :
  let '(r, l') := erc20_transferFrom info metadata caller contract input v l in
  (is_ok r = true <-> from <> zero_address /\ to <> zero_address /\ allowed l from caller amount /\
     movable l from to (erc20_MinDenom meta) amount) /\
  (is_ok r = true ->
     (forall x d, bal l' x d = bal l x d + (at_account (farr_bytes from) (erc20_MinDenom meta) (- amount) x d
        + at_account (farr_bytes to) (erc20_MinDenom meta) amount x d)) /\
     (forall d, GetSupply (w_sdk (l_world l')) d = GetSupply (w_sdk (l_world l)) d) /\
     (forall o s, allow l' o s = spent l from caller amount o s) /\
     logs (l_rev l') = logs (l_rev l) ++ [transfer_log contract from to amount]).
Proof. by apply transferFrom_ok. Qed.

(** C16 An allowance is not bound to a token: after an owner approves a spender on one
    ERC-20 contract, the spender can take the same amount of the coin of any other
    ERC-20 contract from the owner, because the key of an allowance holds the owner
    and the spender but not the contract. *)
Theorem allowance_shared_between_tokens (info : CustomPrecompiledContractInfo)
  (metadata : CustomPrecompiledContractMeta) (meta : Erc20CustomPrecompiledContractMeta)
  (owner spender to contractA contractB : Address) (amount : Z) (v : cpcExecutorEnv) (inputA inputB out : bytes) (l : Live S)
  (HinputA : UnpackMethodInput info "approve" inputA = Ok [VAddress spender; VBigInt amount])
  (Hout : PackMethodOutput info "approve" [VBool true] = Ok out)
  (HmetaB : json_Unmarshal (meta_TypedMeta metadata) = Ok meta)
  (HinputB : UnpackMethodInput info "transferFrom" inputB = Ok [VAddress owner; VAddress to; VBigInt amount])
  (Hamount : 0 < amount < 2 ^ 256)
  (Haddr : owner <> zero_address /\ spender <> zero_address /\ to <> zero_address /\ owner <> to)
  (Hlocked : forall d, LockedCoins (w_sdk (l_world l)) (farr_bytes owner) d
                       <= GetBalance (w_sdk (l_world l)) (farr_bytes owner) d)
  (Hspend : amount <= spendable (w_sdk (l_world l)) (farr_bytes owner) (erc20_MinDenom meta))
  (Hbalance : amount <= GetBalance (w_sdk (l_world l)) (farr_bytes owner) (erc20_MinDenom meta)) :
  exists out' l',
    (erc20_approve info owner contractA inputA v ;; erc20_transferFrom info metadata spender contractB inputB v) l
      = (Ok out', l') /\
    bal l' (farr_bytes to) (erc20_MinDenom meta) = bal l (farr_bytes to) (erc20_MinDenom meta) + amount /\
    bal l' (farr_bytes owner) (erc20_MinDenom meta) = bal l (farr_bytes owner) (erc20_MinDenom meta) - amount.
Proof.
  destruct Haddr as (Ho & Hs & Ht & Hot).
  destruct (approve_ok info owner contractA spender amount v inputA out l) as (m & log & Ea & Hm); try done; [lia|].
  unfold mbind, M_bind. rewrite Ea. set (l1 := mkLive (set_cpc m (l_world l)) (logged log (l_rev l))).
  assert (GetErc20CpcAllowance (l_world l1) owner spender = amount) as Hal
    by (unfold l1; simpl; by rewrite Hm, decide_True).
  pose proof (transferFrom_ok info metadata meta spender contractB owner to amount v inputB l1 HmetaB HinputB)
    as Htf. rewrite Hal in Htf. specialize (Htf ltac:(lia) ltac:(lia) Hlocked).
  destruct (erc20_transferFrom info metadata spender contractB inputB v l1) as [r l'].
  destruct Htf as [Hiff Hok].
  assert (is_ok r = true) as Hr.
  { apply Hiff. unfold allowed, movable. rewrite Hal. split_and!; try done.
    - right. right. lia.
    - right. by right. }
  destruct (Hok Hr) as (Hb & _). destruct r as [out'| |]; [|done|done]. exists out', l'.
  assert (farr_bytes owner <> farr_bytes to) by (intros E; by apply farr_eq in E).
  split_and!; [done| |]; rewrite Hb; unfold at_account; unfold l1; simpl; repeat case_decide; naive_solver lia.
Qed.

(** Burning from an account. *)
Lemma move_burn metadata meta l (from contract : Address) (amount : Z) :
  json_Unmarshal (meta_TypedMeta metadata) = Ok meta ->
  from <> zero_address -> 0 <= amount < 2 ^ 256 ->
  HasBurner (S:=S) CpcModuleName = true -> module_free (w_sdk (l_world l)) CpcModuleName ->
  (forall d, LockedCoins (w_sdk (l_world l)) (farr_bytes from) d <= bal l (farr_bytes from) d) ->
  let '(r, l') := erc20_move metadata from zero_address amount contract l in
  (is_ok r = true <-> movable l from zero_address (erc20_MinDenom meta) amount) /\
  (is_ok r = true -> moved l l' (transfer_log contract from zero_address amount)
     (at_account (farr_bytes from) (erc20_MinDenom meta) (- amount)) (at_denom (erc20_MinDenom meta) (- amount))).
Proof.
  intros Hmeta Hf Ham Hburn Hfree Hlock. set (denom := erc20_MinDenom meta).
  unfold erc20_move, GetErc20Metadata, movable. rewrite Hmeta. munfold. fold denom.
  destruct (Z.ltb_spec amount 0); [lia|]. simpl.
  destruct (Z.ltb_spec (bal l (farr_bytes from) denom) amount) as [Hlt|Hge]; simpl; [split; [split; [done|lia]|done]|].
  destruct (Z.eqb_spec amount 0) as [->|Hnz]; simpl.
  { split; [split; [intros _; by auto|done]|]. intros _. apply moved_nothing; intros;
      unfold at_account, at_denom; by case_decide. }
  rewrite bool_decide_eq_false_2 by done. simpl.
  rewrite NewInt_ok by lia. rewrite NewCoins1_pos by lia.
  unfold bank, run_upd. munfold.
  pose proof (can_spend_single (w_sdk (l_world l)) (farr_bytes from) denom amount ltac:(lia) Hlock) as Hcs.
  pose proof (coins_valid_single denom amount ltac:(lia)) as Hcv.
  destruct (decide (amount <= spendable (w_sdk (l_world l)) (farr_bytes from) denom)) as [Hs|Hs].
  - destruct (send_to_module_progress _ (farr_bytes from) CpcModuleName _ Hcv (proj2 Hcs Hs)) as [s1 E1];
      [by right|done|].
    rewrite E1. simpl. apply send_to_module_ok in E1 as (M1 & _ & (macc & Hmacc & Hk) & P1).
    destruct (burn_progress s1 CpcModuleName _ Hcv Hburn) as [s2 E2].
    + intros acc Hacc. congruence.
    + intros d. rewrite locked_unvesting, M1, AmountOf_single; [|intros; right; congruence].
      pose proof (balance_nonneg (w_sdk (l_world l)) (GetModuleAddress CpcModuleName) d) as Hnn.
      rewrite (decide_True (P := GetModuleAddress CpcModuleName = GetModuleAddress CpcModuleName)) by done.
      destruct (decide (GetModuleAddress CpcModuleName = farr_bytes from)) as [Em|]; [|case_decide; lia].
      rewrite Em in Hnn |- *. unfold denom. case_decide; subst; fold denom; lia.
    + rewrite E2. simpl. split; [split; [intros _; by auto|done]|]. intros _.
      exists s2. split; [by destruct l as [[] ?]|]. apply burn_ok in E2 as (M2 & _ & _ & P2). split.
      * intros x d. rewrite M2, M1, AmountOf_single. unfold at_account. repeat case_decide; naive_solver lia.
      * intros d. rewrite P2, P1, AmountOf_single. unfold at_denom. case_decide; lia.
  - pose proof (send_to_module_insufficient _ (farr_bytes from) CpcModuleName _ Hcv (fun H => Hs (proj1 Hcs H))) as Hi.
    destruct (SendCoinsFromAccountToModule _ _ _ _); simpl in *; [done| |];
      (split; [split; [done|naive_solver lia]|done]).
Qed.

(** [burn] destroys coins: called by a non-zero address it succeeds exactly when the
    caller can spend the amount; then the caller's balance and the supply of the
    contract's coin shrink by it, no other balance or allowance changes, and the log is
    a transfer to the zero address. *)
Theorem erc20_burn_spec (info : CustomPrecompiledContractInfo)
  (metadata : CustomPrecompiledContractMeta) (meta : Erc20CustomPrecompiledContractMeta)
  (caller contract : Address) (amount : Z) (v : cpcExecutorEnv) (input : bytes) (l : Live S)
  (Hmeta : json_Unmarshal (meta_TypedMeta metadata) = Ok meta)
  (Hinput : UnpackMethodInput info "burn" input = Ok [VBigInt amount])
  (Hcaller : caller <> zero_address) (Hamount : 0 <= amount < 2 ^ 256)
  (Hburner : HasBurner (S:=S) CpcModuleName = true) (Hfree : module_free (w_sdk (l_world l)) CpcModuleName)
  (Hlocked : forall d, LockedCoins (w_sdk (l_world l)) (farr_bytes caller) d
                       <= GetBalance (w_sdk (l_world l)) (farr_bytes caller) d) :
  let '(r, l') := erc20_burn info metadata caller contract input v l in
  (is_ok r = true <-> movable l caller zero_address (erc20_MinDenom meta) amount) /\
  (is_ok r = true ->
     (forall x d, bal l' x d = bal l x d + at_account (farr_bytes caller) (erc20_MinDenom meta) (- amount) x d) /\
     (forall d, GetSupply (w_sdk (l_world l')) d =
        GetSupply (w_sdk (l_world l)) d + at_denom (erc20_MinDenom meta) (- amount) d) /\
     (forall o s, allow l' o s = allow l o s) /\
     logs (l_rev l') = logs (l_rev l) ++ [transfer_log contract caller zero_address amount]).
Proof.
  unfold erc20_burn, mbind, M_bind, lift_res, require. rewrite Hinput. simpl.
  rewrite bool_decide_eq_false_2 by done. simpl.
  pose proof (move_burn metadata meta l caller contract amount Hmeta Hcaller Hamount Hburner Hfree Hlocked) as Hmv.
  destruct (erc20_move metadata caller zero_address amount contract l) as [r l'].
  destruct Hmv as [Hiff Hok]. split; [done|]. intros Hr. by apply (move_world metadata meta) in Hok.
Qed.

End Erc20Proofs.

(** ** Selectors and read-only methods *)

Section ReadOnlyProofs.
Context {S : Type} {K : SdkKeepers S} {G : Geth} {B : Bech32}.
Context {JE : Json Erc20CustomPrecompiledContractMeta}.
Variables Erc20CpcInfo Bech32CpcInfo : CustomPrecompiledContractInfo.

Definition writes_nothing (e : Executor S) : Prop :=
  forall caller contract input v l, snd (Execute e caller contract input v l) = l.

Ltac read_only :=
  intros caller contract input v l;
  match goal with |- snd (?m l) = l =>
    assert (preserves (eq l) m) as Hp; [|by rewrite <- (Hp l eq_refl)] end;
  cbn [Execute]; repeat first [ progress cbv zeta | apply preserves_bind; [|intros ?] | case_match ];
  eauto with evermint.

Lemma lookups_write_nothing :
  (forall sig gas md, writes_nothing (mkExecutor sig gas true (erc20_name Erc20CpcInfo md))) /\
  (forall sig gas md, writes_nothing (mkExecutor sig gas true (erc20_symbol Erc20CpcInfo md))) /\
  (forall sig gas md, writes_nothing (mkExecutor sig gas true (erc20_decimals Erc20CpcInfo md))) /\
  (forall sig gas md, writes_nothing (mkExecutor sig gas true (erc20_totalSupply Erc20CpcInfo md))) /\
  (forall sig gas md, writes_nothing (mkExecutor sig gas true (erc20_balanceOf Erc20CpcInfo md))) /\
  (forall sig gas, writes_nothing (mkExecutor sig gas true (erc20_allowance Erc20CpcInfo))).
Proof.
  unfold erc20_name, erc20_symbol, erc20_decimals, erc20_totalSupply, erc20_balanceOf, erc20_allowance.
  split_and!; intros; read_only.
Qed.

Lemma bech32_writes_nothing :
  (forall sig gas, writes_nothing (mkExecutor sig gas true (bech32_encodeAddress Bech32CpcInfo))) /\
  (forall sig gas, writes_nothing (mkExecutor sig gas true (bech32_encode32BytesAddress Bech32CpcInfo))) /\
  (forall sig gas, writes_nothing (mkExecutor sig gas true (bech32_encodeBytes Bech32CpcInfo))) /\
  (forall sig gas, writes_nothing (mkExecutor sig gas true (bech32_decode Bech32CpcInfo))) /\
  (forall sig gas m p, writes_nothing (mkExecutor sig gas true (bech32_prefix Bech32CpcInfo m p))).
Proof.
  unfold bech32_encodeAddress, bech32_encode32BytesAddress, bech32_encodeBytes, bech32_decode, bech32_prefix.
  split_and!; intros; read_only.
Qed.

(** No two methods share a selector, and a selector is four bytes. *)
Definition selectors_ok (c : CustomPrecompiledContract S) : Prop :=
  NoDup (Method4BytesSignatures <$> GetMethodExecutors c) /\
  Forall (fun e => length (Method4BytesSignatures e) = 4%nat) (GetMethodExecutors c).
Definition contract_ok (c : CustomPrecompiledContract S) : Prop :=
  selectors_ok c /\ Forall (fun e => ReadOnly e = true -> writes_nothing e) (GetMethodExecutors c).

Lemma erc20_methods_ok md : contract_ok (NewErc20CustomPrecompiledContract Erc20CpcInfo md).
Proof.
  destruct lookups_write_nothing as (H1 & H2 & H3 & H4 & H5 & H6). split; [split|].
  - apply (bool_decide_eq_true_1 _). vm_compute. reflexivity.
  - repeat constructor.
  - repeat constructor; intros Hr; first [done|apply H1|apply H2|apply H3|apply H4|apply H5|apply H6].
Qed.
Lemma bech32_methods_ok md : contract_ok (NewBech32CustomPrecompiledContract Bech32CpcInfo md).
Proof.
  destruct bech32_writes_nothing as (B1 & B2 & B3 & B4 & B5). split; [split|].
  - apply (bool_decide_eq_true_1 _). vm_compute. reflexivity.
  - repeat constructor.
  - repeat constructor; intros Hr; first [apply B1|apply B2|apply B3|apply B4|apply B5].
Qed.
End ReadOnlyProofs.
