(* ===== verification/Eip712.v ===== *)
(** * Typed messages

    The messages a delegator signs for the staking contract (x/cpc/abi/precompiled_info.go),
    their EIP-712 form and the check of the signature (x/cpc/eip712/domain.go, typed.go).
    go-ethereum's hashing of typed data and the recovery of a public key are parameters;
    the step through JSON that reads a message is [encoding/json]'s, whose only effect
    on a value of the message's types is to repair strings that are not UTF-8. *)

From Stdlib Require Import Strings.Byte.
From stdpp Require Import base gmap list strings.
From S2P Require Import Prelude Sdk Geth EvmTypes Cpc CpcContracts.

(** ** Strings through JSON *)

Definition byte_in (lo hi : Z) (b : byte) : bool := (lo <=? Z_of_byte b) && (Z_of_byte b <=? hi).
Definition utf8_cont : byte -> bool := byte_in 128 191.

(** The well-formed sequences of two, three and four bytes. *)
Definition utf8_2 (b0 b1 : byte) : bool := byte_in 194 223 b0 && utf8_cont b1.
Definition utf8_3 (b0 b1 b2 : byte) : bool :=
  ((byte_in 224 224 b0 && byte_in 160 191 b1) || (byte_in 237 237 b0 && byte_in 128 159 b1) ||
   ((byte_in 225 236 b0 || byte_in 238 239 b0) && utf8_cont b1)) && utf8_cont b2.
Definition utf8_4 (b0 b1 b2 b3 : byte) : bool :=
  ((byte_in 240 240 b0 && byte_in 144 191 b1) || (byte_in 244 244 b0 && byte_in 128 143 b1) ||
   (byte_in 241 243 b0 && utf8_cont b1)) && utf8_cont b2 && utf8_cont b3.

(** Each byte that starts no well-formed sequence becomes U+FFFD. *)
Fixpoint coerce_utf8 (bs : bytes) : bytes :=
  match bs with
  | [] => []
  | b0 :: t1 =>
      if Z_of_byte b0 <? 128 then b0 :: coerce_utf8 t1
      else match t1 with
      | b1 :: t2 =>
          if utf8_2 b0 b1 then b0 :: b1 :: coerce_utf8 t2
          else match t2 with
          | b2 :: t3 =>
              if utf8_3 b0 b1 b2 then b0 :: b1 :: b2 :: coerce_utf8 t3
              else match t3 with
              | b3 :: t4 =>
                  if utf8_4 b0 b1 b2 b3 then b0 :: b1 :: b2 :: b3 :: coerce_utf8 t4
                  else xef :: xbf :: xbd :: coerce_utf8 t1
              | [] => xef :: xbf :: xbd :: coerce_utf8 t1
              end
          | [] => xef :: xbf :: xbd :: coerce_utf8 t1
          end
      | [] => xef :: xbf :: xbd :: coerce_utf8 t1
      end
  end.
Definition json_string (s : string) : string :=
  String.string_of_list_byte (coerce_utf8 (String.list_byte_of_string s)).

(** ** Typed data *)

Inductive TypedVal : Type :=
  | TString (s : string)
  | THexOrDecimal256 (z : option Z).

Record TypedDataDomain : Type := mkDomain {
  domain_Name : string;
  domain_Version : string;
  domain_ChainId : option Z;
  domain_VerifyingContract : string;
  domain_Salt : string
}.

Record TypedData : Type := mkTypedData {
  td_Types : gmap string (list (string * string));
  td_PrimaryType : string;
  td_Domain : TypedDataDomain;
  td_Message : gmap string TypedVal
}.

(** What go-ethereum does with typed data, signatures and addresses. *)
Class Eip712Lib : Type := {
  (** [typedData.HashStruct(primaryType, data)] *)
  HashStruct : TypedData -> string -> gmap string TypedVal -> res bytes;
  Domain_Map : TypedDataDomain -> gmap string TypedVal;
  Ecrecover : bytes -> bytes -> res bytes;
  UnmarshalPubkey : bytes -> res bytes;
  PubkeyToAddress : bytes -> Address;
  (** [common.Address.Hex]: the checksummed text *)
  Address_Hex : Address -> string
}.
(** The text of an address determines it. *)
Class Eip712Laws `{E : Eip712Lib} : Prop := {
  address_hex_inj (a b : Address) : Address_Hex a = Address_Hex b -> a = b
}.

Section Typed.
Context {G : Geth} {E : Eip712Lib}.

Definition PrimaryTypeNameEIP712Domain : string := "EIP712Domain".
(** [strings.ToUpper(constants.ApplicationName)] *)
Definition UpperApplicationName : string := "EVERMINT".

(** [%x] of a byte: no leading zero. *)
Definition hex_digit (n : Z) : string :=
  default "" (["0"; "1"; "2"; "3"; "4"; "5"; "6"; "7"; "8"; "9"; "a"; "b"; "c"; "d"; "e"; "f"]%string !! Z.to_nat n).
Definition hex_byte (b : byte) : string :=
  let n := Z_of_byte b in
  if n <? 16 then hex_digit n else (hex_digit (n / 16) ++ hex_digit (n mod 16))%string.

Definition GetDomain (cpcAddr : Address) (chainId : option Z) : TypedDataDomain :=
  mkDomain UpperApplicationName "1.0.0" chainId (Address_Hex cpcAddr)
    ("0x" ++ hex_byte (default x00 (farr_bytes cpcAddr !! 19%nat)))%string.

Definition GetDomainTypes : list (string * string) :=
  [("name", "string"); ("version", "string"); ("chainId", "uint256"); ("verifyingContract", "address");
   ("salt", "string")]%string.

(** ** Signatures *)

Class TypedMessage (A : Type) : Type := ToTypedData : A -> option Z -> TypedData.

Section Verify.
Context {A : Type} {T : TypedMessage A}.

Definition EIP712HashingTypedMessage (tm : A) (chainId : option Z) : res bytes :=
  let typedData := ToTypedData tm chainId in
  typedDataHash ← HashStruct typedData (td_PrimaryType typedData) (td_Message typedData);
  domainSeparator ← HashStruct typedData PrimaryTypeNameEIP712Domain (Domain_Map (td_Domain typedData));
  Ok (farr_bytes (Keccak256Hash ([x19; x01] ++ domainSeparator ++ typedDataHash))).

(** [Ecrecover] wants 0 or 1 in the last byte of the signature. *)
Definition signature_bytes (r s : Hash) (v : Z) : bytes :=
  farr_bytes r ++ farr_bytes s ++ [byte_of_Z (if (v =? 27) || (v =? 28) then v - 27 else v)].

Definition VerifySignature (expectedAddress : Address) (tm : A) (r s : Hash) (v : Z) (chainId : option Z) :
    res (bool * Address) :=
  hashBytes ← EIP712HashingTypedMessage tm chainId;
  pubKeyBytes ← wrap_res (Errorf "invalid signature") (Ecrecover hashBytes (signature_bytes r s v));
  pubKey ← wrap_res (Errorf "cannot unmarshal public key") (UnmarshalPubkey pubKeyBytes);
  let recoveredAddress := PubkeyToAddress pubKey in
  Ok (bool_decide (recoveredAddress = expectedAddress), recoveredAddress).
End Verify.

(** ** The messages of the staking contract *)

Definition StakingMessageActionDelegate : string := "Delegate".
Definition StakingMessageActionUndelegate : string := "Undelegate".
Definition StakingMessageActionRedelegate : string := "Redelegate".
Definition stakingMessageEmptyOldValidatorValue : string := "-".
Definition WithdrawRewardMessageActionWithdrawFromAllValidators : string := "all".

(** A nil amount is [None]. *)
Record StakingMessage : Type := mkStakingMessage {
  sm_Action : string;
  sm_Delegator : Address;
  sm_Validator : string;
  sm_Amount : option Z;
  sm_Denom : string;
  sm_OldValidator : string
}.

Record WithdrawRewardMessage : Type := mkWithdrawRewardMessage {
  wm_Delegator : Address;
  wm_FromValidator : string
}.

(** The struct the ABI coder builds has the names of the ABI, which are those of the
    JSON fields. *)
Definition StakingMessage_FromUnpackedStruct (v : AbiVal) : res StakingMessage :=
  match v with
  | VTuple fields [VString action; VAddress delegator; VString validator; VBigInt amount; VString denom;
                   VString oldValidator] =>
      if decide (fields = ["action"; "delegator"; "validator"; "amount"; "denom"; "oldValidator"]%string)
      then Ok (mkStakingMessage (json_string action) delegator (json_string validator) (Some amount)
                 (json_string denom) (json_string oldValidator))
      else Err (Errorf "unexpected fields")
  | _ => Err (Errorf "unexpected type")
  end.

Definition WithdrawRewardMessage_FromUnpackedStruct (v : AbiVal) : res WithdrawRewardMessage :=
  match v with
  | VTuple fields [VAddress delegator; VString fromValidator] =>
      if decide (fields = ["delegator"; "fromValidator"]%string)
      then Ok (mkWithdrawRewardMessage delegator (json_string fromValidator))
      else Err (Errorf "unexpected fields")
  | _ => Err (Errorf "unexpected type")
  end.

(** [StringToBytes] of the codec of validator addresses. *)
Variable StringToBytes : string -> res bytes.

Definition StakingMessage_Validate (m : StakingMessage) (bondDenom : string) : res unit :=
  requireOldValidator ←
    (if decide (sm_Action m = StakingMessageActionDelegate) then Ok false
     else if decide (sm_Action m = StakingMessageActionUndelegate) then Ok false
     else if decide (sm_Action m = StakingMessageActionRedelegate) then Ok true
     else Err (Errorf "unknown action"));
  (if decide (sm_Delegator m = zero_address) then Err (Errorf "delegator cannot be empty") else Ok tt) ;;
  StringToBytes (sm_Validator m) ;;
  (match sm_Amount m with
   | None => Err (Errorf "amount must be positive")
   | Some amount => if Z.sgn amount =? 1 then Ok tt else Err (Errorf "amount must be positive")
   end) ;;
  (if decide (sm_Denom m = bondDenom) then Ok tt else Err (Errorf "denom must be the bond denom")) ;;
  if (requireOldValidator : bool) then StringToBytes (sm_OldValidator m) ;; Ok tt
  else if decide (sm_OldValidator m = stakingMessageEmptyOldValidatorValue) then Ok tt
  else Err (Errorf "old-validator must be empty").

Definition WithdrawRewardMessage_Validate (m : WithdrawRewardMessage) : res unit :=
  if decide (wm_Delegator m = zero_address) then Err (Errorf "delegator cannot be empty")
  else if decide (wm_FromValidator m = WithdrawRewardMessageActionWithdrawFromAllValidators) then Ok tt
  else StringToBytes (wm_FromValidator m) ;; Ok tt.

Definition StakingMessage_ToTypedData (m : StakingMessage) (chainId : option Z) : TypedData :=
  let primaryTypeName := "StakingMessage"%string in
  mkTypedData
    (<[PrimaryTypeNameEIP712Domain := GetDomainTypes]>
     (<[primaryTypeName := [("action", "string"); ("delegator", "address"); ("validator", "string");
                            ("amount", "uint256"); ("denom", "string"); ("oldValidator", "string")]%string]> ∅))
    primaryTypeName (GetDomain CpcStakingFixedAddress chainId)
    (list_to_map [("action", TString (sm_Action m)); ("delegator", TString (Address_Hex (sm_Delegator m)));
                  ("validator", TString (sm_Validator m)); ("amount", THexOrDecimal256 (sm_Amount m));
                  ("denom", TString (sm_Denom m)); ("oldValidator", TString (sm_OldValidator m))]%string).

Definition WithdrawRewardMessage_ToTypedData (m : WithdrawRewardMessage) (chainId : option Z) : TypedData :=
  let primaryTypeName := "WithdrawRewardMessage"%string in
  mkTypedData
    (<[PrimaryTypeNameEIP712Domain := GetDomainTypes]>
     (<[primaryTypeName := [("delegator", "address"); ("fromValidator", "string")]%string]> ∅))
    primaryTypeName (GetDomain CpcStakingFixedAddress chainId)
    (list_to_map [("delegator", TString (Address_Hex (wm_Delegator m)));
                  ("fromValidator", TString (wm_FromValidator m))]%string).

#[export] Instance staking_typed : TypedMessage StakingMessage := StakingMessage_ToTypedData.
#[export] Instance withdraw_typed : TypedMessage WithdrawRewardMessage := WithdrawRewardMessage_ToTypedData.
End Typed.

(** ** What a signature binds *)

Section TypedProofs.
Context {G : Geth} {E : Eip712Lib} {EL : Eip712Laws}.

Lemma typed_data_eq {A B} {TA : TypedMessage A} {TB : TypedMessage B} (a : A) (b : B) (c c' : option Z) :
  ToTypedData a c = ToTypedData b c' ->
  domain_ChainId (td_Domain (ToTypedData a c)) = domain_ChainId (td_Domain (ToTypedData b c')) /\
  forall k, td_Message (ToTypedData a c) !! k = td_Message (ToTypedData b c') !! k.
Proof. by intros ->. Qed.

(** What a delegator signs is what the contract does: two messages that give the same
    typed data are the same message for the same chain, and the typed data of an action
    on delegations is never that of a withdrawal, so neither the amount, the denom,
    the validators, the action nor the chain can be exchanged under a signature. *)
Theorem typed_data_binds (m m' : StakingMessage) (x x' : WithdrawRewardMessage) (c c' : option Z) :
  (ToTypedData m c = ToTypedData m' c' -> m = m' /\ c = c') /\
  (ToTypedData x c = ToTypedData x' c' -> x = x' /\ c = c') /\
  ToTypedData m c <> ToTypedData x c'.
Proof.
  split_and!.
  - intros (Hc & Hk)%typed_data_eq. split; [|done]. destruct m, m'.
    unfold ToTypedData, staking_typed, StakingMessage_ToTypedData in Hk. cbn [td_Message] in Hk.
    pose proof (Hk "action"%string) as H1. pose proof (Hk "delegator"%string) as H2.
    pose proof (Hk "validator"%string) as H3. pose proof (Hk "amount"%string) as H4.
    pose proof (Hk "denom"%string) as H5. pose proof (Hk "oldValidator"%string) as H6.
    clear Hk. simplify_map_eq. f_equal. by apply address_hex_inj.
  - intros (Hc & Hk)%typed_data_eq. split; [|done]. destruct x, x'.
    unfold ToTypedData, withdraw_typed, WithdrawRewardMessage_ToTypedData in Hk. cbn [td_Message] in Hk.
    pose proof (Hk "delegator"%string) as H1. pose proof (Hk "fromValidator"%string) as H2.
    clear Hk. simplify_map_eq. f_equal. by apply address_hex_inj.
  - intros H%(f_equal td_PrimaryType). discriminate H.
Qed.
End TypedProofs.
