(* ===== verification/TypedTx.v ===== *)
(** * Typed data of Cosmos transactions

    A Cosmos transaction can be signed as EIP-712 typed data: the sign document, as
    amino JSON, is flattened and its types are derived from the JSON values
    (ethereum/eip712: encoding.go, message.go, types.go, domain.go, eip712.go); the key
    type accepts a signature over either form (crypto/ethsecp256k1).

    JSON text is parsed to [JVal].  gjson's and sjson's path functions, the title casing
    of golang.org/x/text, the codecs of the SDK and the hash of typed data are
    parameters.  The recursion on nested objects follows paths that gjson interprets, so
    its depth is bounded by the frames the stack has. *)

From Stdlib Require Import Ascii.
From stdpp Require Import base gmap list sorting strings pretty.
From S2P Require Import Prelude Sdk Geth EvmTypes ChainId Cpc CpcContracts Eip712.

(** ** JSON *)

Inductive JVal : Type :=
  | JNull
  | JBool (b : bool)
  | JNumber (raw : string)
  | JString (s : string)
  | JArray (l : list JVal)
  | JObject (members : list (string * JVal)).

Abbreviation Members := (list (string * JVal)).

Definition IsObject (v : JVal) : bool := match v with JObject _ => true | _ => false end.
Definition IsArray (v : JVal) : bool := match v with JArray _ => true | _ => false end.
(** [Result.Str]: empty for what is not a string. *)
Definition Str (v : option JVal) : string := match v with Some (JString s) => s | _ => ""%string end.

(** The value of the first member with a name. *)
Fixpoint first_member (ms : Members) (k : string) : option JVal :=
  match ms with
  | [] => None
  | (k', v) :: ms' => if decide (k' = k) then Some v else first_member ms' k
  end.

Class Gjson : Type := {
  (** [ValidBytes] and [ParseBytes] *)
  ParseBytes : bytes -> option JVal;
  (** [Result.Get]: the argument is a path *)
  Get : JVal -> string -> option JVal;
  (** [Result.Value] of an object *)
  Value_map : Members -> gmap string JVal;
  SetRaw : JVal -> string -> JVal -> res JVal;
  sjson_Delete : JVal -> string -> res JVal;
  (** [cases.Title(language.English, cases.NoLower)] *)
  Title : string -> string
}.

(** ** Types *)

Abbreviation Types := (gmap string (list (string * string))).

Definition rootPrefix : string := "_".
Definition typePrefix : string := "Type".
Definition txField : string := "Tx".
Definition ethBool : string := "bool".
Definition ethInt64 : string := "int64".
Definition ethString : string := "string".
Definition msgTypeField : string := "type".
Definition maxDuplicateTypeDefs : nat := 1000.

Definition StackOverflow : gerr := Errorf "goroutine stack exceeds limit".

Fixpoint split_chars (sep : Ascii.ascii) (l : chars) : list chars :=
  match l with
  | [] => [[]]
  | c :: l' =>
      if decide (c = sep) then [] :: split_chars sep l'
      else match split_chars sep l' with
           | p :: ps => (c :: p) :: ps
           | [] => [[c]]
           end
  end.
(** [strings.Split] with a separator of one character. *)
Definition Split (s : string) (sep : Ascii.ascii) : list string :=
  String.string_of_list_ascii <$> split_chars sep (String.list_ascii_of_string s).

Definition concat_strings (l : list string) : string := foldr String.append ""%string l.

Definition getEthTypeForJSON (json : JVal) : string :=
  match json with
  | JBool _ => ethBool
  | JNumber _ => ethInt64
  | JString _ => ethString
  | _ => ""
  end.

Definition typeDefWithIndex (typeDef : string) (index : nat) : string := typeDef ++ pretty index.

Definition typesAreEqual (types1 types2 : list (string * string)) : bool :=
  if (length types1 =? length types2)%nat
  then forallb (fun '(t1, t2) => bool_decide (t1.1 = t2.1) && bool_decide (t1.2 = t2.2)) (zip types1 types2)
  else false.

(** The search for the first index whose definition is the same or missing; [n] indices
    are left. *)
Fixpoint add_at (typeDef : string) (types : list (string * string)) (n : nat) (index : nat) : M Types string :=
  match n with
  | O => err ErrInvalidRequest
  | S n' =>
      let indexedTypeDef := typeDefWithIndex typeDef index in
      existing ← gets (fun m : Types => m !! indexedTypeDef);
      match existing with
      | Some existingTypes =>
          if typesAreEqual types existingTypes then mret indexedTypeDef
          else add_at typeDef types n' (S index)
      | None => modify (fun m => <[indexedTypeDef := types]> m) ;; mret indexedTypeDef
      end
  end.
Definition addTypesToRoot (typeDef : string) (types : list (string * string)) : M Types string :=
  add_at typeDef types maxDuplicateTypeDefs 0.

Definition prefixForSubField (prefix fieldName : string) : string := prefix ++ "." ++ fieldName.

(** Descending order of the names; the keys of a Go map are distinct and come in any
    order. *)
Definition key_order (a b : string) : Prop := String.le b a.
#[export] Instance key_order_dec : RelDecision key_order.
Proof. intros a b. unfold key_order. apply _. Defined.
Definition sortedJSONKeys (json : JVal) : res (list string) :=
  match json with
  | JObject ms => Ok (merge_sort key_order (remove_dups ms.*1))
  | _ => Err ErrInvalidType
  end.

Section TypedTx.
Context {J : Gjson}.

Definition sanitizeTypedef (str : string) : string :=
  concat_strings (map (fun part =>
    if decide (part = rootPrefix) then typePrefix
    else concat_strings (map Title (Split part "_"%char))) (Split str "."%char)).

Definition typeDefForPrefix (prefix rootType : string) : string :=
  if decide (prefix = rootPrefix) then rootType else sanitizeTypedef prefix.

(** The type of a field that is not a collection any more: a primitive one, or that of an
    object, which [rec] adds; [None] for null and nested arrays, which have none. *)
Definition element_type (rec : string -> JVal -> M Types string) (prefix fieldName : string) (field : JVal)
    (isCollection : bool) : M Types (option string) :=
  let brackets t := if isCollection then (t ++ "[]")%string else t in
  let ethType := getEthTypeForJSON field in
  if negb (bool_decide (ethType = ""%string)) then mret (Some (brackets ethType))
  else if IsObject field then
    fieldTypeDef ← rec (prefixForSubField prefix fieldName) field;
    mret (Some (brackets (sanitizeTypedef fieldTypeDef)))
  else mret None.

Definition field_type (rec : string -> JVal -> M Types string) (prefix : string) (payload : JVal) (fieldName : string) :
    M Types (option string) :=
  match Get payload fieldName with
  | None => mret None
  | Some (JArray []) => mret (Some "string[]"%string)
  | Some (JArray (field :: _)) => element_type rec prefix fieldName field true
  | Some field => element_type rec prefix fieldName field false
  end.

Fixpoint add_fields (rec : string -> JVal -> M Types string) (prefix : string) (payload : JVal) (names : list string)
    (typesToAdd : list (string * string)) : M Types (list (string * string)) :=
  match names with
  | [] => mret typesToAdd
  | fieldName :: names' =>
      t ← field_type rec prefix payload fieldName;
      add_fields rec prefix payload names'
        (match t with Some t => typesToAdd ++ [(fieldName, t)] | None => typesToAdd end)
  end.

(** [stack] is the number of frames left. *)
Fixpoint recursivelyAddTypesToRoot (stack : nat) (rootType prefix : string) (payload : JVal) : M Types string :=
  match stack with
  | O => panic StackOverflow
  | S stack' =>
      sortedFieldNames ← lift_res (wrap_res ErrInvalidType (sortedJSONKeys payload));
      let typeDef := typeDefForPrefix prefix rootType in
      typesToAdd ← add_fields (recursivelyAddTypesToRoot stack' rootType) prefix payload sortedFieldNames [];
      addTypesToRoot typeDef typesToAdd
  end.

Definition msgRootType (msg : JVal) : res string :=
  let msgType := Str (Get msg msgTypeField) in
  if decide (msgType = ""%string) then Err ErrInvalidType
  else
    let typeTokenized := Split msgType "/"%char in
    let msgSignature := default ""%string (last typeTokenized) in
    Ok (typePrefix ++ msgSignature)%string.

Definition addMsgTypeDefToTxSchema (msgField msgTypeDef : string) (types : Types) : Types :=
  <[txField := default [] (types !! txField) ++ [(msgField, msgTypeDef)]]> types.

(** A panic becomes an error, but for a stack that overflows: that ends the process. *)
Definition doRecover {A} (m : M Types A) : M Types A := fun s =>
  match m s with
  | (Panic e, s') => if decide (e = StackOverflow) then (Panic e, s') else (Err e, s')
  | r => r
  end.

Definition addMsgTypesToRoot (stack : nat) (msgField : string) (msg : JVal) : M Types unit :=
  doRecover (
    require (IsObject msg) ErrInvalidRequest ;;
    rootType ← lift_res (msgRootType msg);
    msgTypeDef ← recursivelyAddTypesToRoot stack rootType rootPrefix msg;
    modify (addMsgTypeDefToTxSchema msgField msgTypeDef)).

(** ** The payload *)

Record eip712MessagePayload : Type := mkMessagePayload {
  mp_payload : JVal;
  mp_numPayloadMsgs : nat;
  mp_message : gmap string JVal
}.

Definition payloadMsgsField : string := "msgs".
Definition msgFieldForIndex (i : nat) : string := "msg" ++ pretty i.

Definition getPayloadMessages (payload : JVal) : res (list JVal) :=
  match Get payload payloadMsgsField with
  | None => Err ErrInvalidRequest
  | Some (JArray msgs) => Ok msgs
  | Some _ => Err ErrInvalidRequest
  end.

Definition payloadWithNewMessage (payload msg : JVal) (index : nat) : res JVal :=
  let field := msgFieldForIndex index in
  match Get payload field with
  | Some _ => Err ErrInvalidRequest
  | None => if IsObject msg then SetRaw payload field msg else Err ErrInvalidRequest
  end.

Definition payloadWithoutMsgsField (payload : JVal) : res JVal := sjson_Delete payload payloadMsgsField.

Fixpoint with_messages (flattened : JVal) (msgs : list JVal) (i : nat) : res JVal :=
  match msgs with
  | [] => Ok flattened
  | msg :: msgs' => flattened ← payloadWithNewMessage flattened msg i; with_messages flattened msgs' (S i)
  end.

Definition FlattenPayloadMessages (payload : JVal) : res (JVal * nat) :=
  msgs ← getPayloadMessages payload;
  flattened ← with_messages payload msgs 0;
  flattened ← payloadWithoutMsgsField flattened;
  Ok (flattened, length msgs).

Definition unmarshalBytesToJSONObject (data : bytes) : res JVal :=
  match ParseBytes data with
  | None => Err (Errorf "invalid JSON received")
  | Some payload => if IsObject payload then Ok payload else Err (Errorf "failed to JSON unmarshal data as object")
  end.

Definition createEIP712MessagePayload (data : bytes) : res eip712MessagePayload :=
  basicPayload ← unmarshalBytesToJSONObject data;
  '(payload, numPayloadMsgs) ← FlattenPayloadMessages basicPayload;
  match payload with
  | JObject ms => Ok (mkMessagePayload payload numPayloadMsgs (Value_map ms))
  | _ => Err ErrInvalidType
  end.

(** ** Typed data *)

Definition baseTypes : Types := list_to_map
  [("EIP712Domain", [("name", "string"); ("version", "string"); ("chainId", "uint256");
                     ("verifyingContract", "string"); ("salt", "string")]);
   ("Tx", [("account_number", "string"); ("chain_id", "string"); ("fee", "Fee"); ("memo", "string");
           ("sequence", "string")]);
   ("Fee", [("amount", "Coin[]"); ("gas", "string")]);
   ("Coin", [("denom", "string"); ("amount", "string")])]%string.

(** [payload.Get] of a missing message is the empty result, which is no object. *)
Fixpoint add_messages (stack : nat) (payload : JVal) (n i : nat) : M Types unit :=
  match n with
  | O => mret tt
  | S n' =>
      let field := msgFieldForIndex i in
      addMsgTypesToRoot stack field (default JNull (Get payload field)) ;;
      add_messages stack payload n' (S i)
  end.
Definition createEIP712Types (stack : nat) (messagePayload : eip712MessagePayload) : res Types :=
  match add_messages stack (mp_payload messagePayload) (mp_numPayloadMsgs messagePayload) 0 baseTypes with
  | (Ok _, types) => Ok types
  | (Err e, _) => Err e
  | (Panic e, _) => Panic e
  end.

Definition createEIP712Domain (chainID : Z) : TypedDataDomain :=
  mkDomain "Cosmos Web3" "1.0.0" (Some (int64_of_uint64 chainID)) "cosmos" "0".

Record TypedTx : Type := mkTypedTx {
  tt_Types : Types;
  tt_PrimaryType : string;
  tt_Domain : TypedDataDomain;
  tt_Message : gmap string JVal
}.

Definition WrapTxToTypedData (stack : nat) (chainID : Z) (data : bytes) : res TypedTx :=
  messagePayload ← createEIP712MessagePayload data;
  types ← createEIP712Types stack messagePayload;
  Ok (mkTypedTx types txField (createEIP712Domain chainID) (mp_message messagePayload)).

Definition isValidEIP712Payload (typedData : TypedTx) : bool :=
  negb (bool_decide (tt_Message typedData = ∅)) && negb (bool_decide (tt_Types typedData = ∅)) &&
  negb (bool_decide (tt_PrimaryType typedData = ""%string)) &&
  match typedData with mkTypedTx _ _ (mkDomain "" "" None "" "") _ => false | _ => true end.
End TypedTx.

(** ** Sign documents *)

(** [legacytx.StdSignDoc], [tx.SignDoc], [tx.TxBody] and [tx.AuthInfo]: the fields that
    are read. *)
Record StdSignDoc : Type := mkStdSignDoc { std_ChainID : string; std_Fee : bytes; std_Msgs : list bytes }.
Record SignDoc : Type := mkSignDoc {
  doc_ChainId : string; doc_AccountNumber : Z; doc_BodyBytes : bytes; doc_AuthInfoBytes : bytes
}.
Record TxBody : Type := mkTxBody {
  body_Messages : list bytes; body_Memo : string; body_TimeoutHeight : Z;
  body_ExtensionOptions : nat; body_NonCriticalExtensionOptions : nat
}.
(** The fee is the amount and the gas limit; a signer is its sequence. *)
Record AuthInfo : Type := mkAuthInfo { auth_Fee : option (Coins * Z); auth_SignerInfos : list Z }.

(** The codecs of the SDK; [codecs_set] says whether [SetEncodingConfig] was called. *)
Class SignCodecs (Msg : Type) : Type := {
  codecs_set : bool;
  amino_SignDoc : bytes -> res StdSignDoc;
  amino_Fee : bytes -> res unit;
  amino_Msg : bytes -> res Msg;
  proto_SignDoc : bytes -> res SignDoc;
  proto_AuthInfo : bytes -> res AuthInfo;
  proto_TxBody : bytes -> res TxBody;
  proto_UnpackAny : bytes -> res Msg;
  GetMsgV1Signers : Msg -> res (list bytes);
  (** [legacytx.StdSignBytes]: chain id, account number, sequence, timeout, fee, messages, memo *)
  StdSignBytes : string -> Z -> Z -> Z -> Coins * Z -> list Msg -> string -> bytes;
  (** [apitypes.TypedDataAndHash]: the bytes that are hashed *)
  TypedDataAndHash : TypedTx -> res bytes
}.

Section SignDocs.
Context {J : Gjson} {Msg : Type} {SC : SignCodecs Msg}.
Variable stack : nat.

Definition validateCodecInit : res unit := if codecs_set then Ok tt else Err (Errorf "missing codec").

Fixpoint same_signers (msgs : list Msg) (msgSigner : option bytes) : res unit :=
  match msgs with
  | [] => Ok tt
  | m :: msgs' =>
      signers ← wrap_res (Errorf "failed to get signers") (GetMsgV1Signers m);
      match signers with
      | [signer] =>
          match msgSigner with
          | None => same_signers msgs' (Some signer)
          | Some first => if decide (first = signer) then same_signers msgs' msgSigner else Err (Errorf "multiple signers detected")
          end
      | _ => Err (Errorf "expect exactly 1 signer")
      end
  end.
Definition validatePayloadMessages (msgs : list Msg) : res unit :=
  match msgs with [] => Err (Errorf "transaction does contain any messages") | _ => same_signers msgs None end.

Fixpoint unpack_all {A} (unpack : bytes -> res A) (l : list bytes) : res (list A) :=
  match l with
  | [] => Ok []
  | b :: l' => m ← unpack b; ms ← unpack_all unpack l'; Ok (m :: ms)
  end.

Definition decodeAminoSignDoc (signDocBytes : bytes) : res TypedTx :=
  validateCodecInit ;;
  aminoDoc ← amino_SignDoc signDocBytes;
  amino_Fee (std_Fee aminoDoc) ;;
  msgs ← unpack_all amino_Msg (std_Msgs aminoDoc);
  validatePayloadMessages msgs ;;
  chainID ← wrap_res (Errorf "invalid chain ID passed as argument")
    (ParseChainID (String.list_ascii_of_string (std_ChainID aminoDoc)));
  wrap_res (Errorf "could not convert to EIP712 representation") (WrapTxToTypedData stack (wrap64 chainID) signDocBytes).

Definition decodeProtobufSignDoc (signDocBytes : bytes) : res TypedTx :=
  validateCodecInit ;;
  signDoc ← proto_SignDoc signDocBytes;
  authInfo ← proto_AuthInfo (doc_AuthInfoBytes signDoc);
  body ← proto_TxBody (doc_BodyBytes signDoc);
  if negb (body_TimeoutHeight body =? 0) || (0 <? body_ExtensionOptions body)%nat ||
     (0 <? body_NonCriticalExtensionOptions body)%nat
  then Err (Errorf "body contains unsupported fields")
  else match auth_SignerInfos authInfo with
  | [sequence] =>
      msgs ← unpack_all proto_UnpackAny (body_Messages body);
      validatePayloadMessages msgs ;;
      chainID ← ParseChainID (String.list_ascii_of_string (doc_ChainId signDoc));
      match auth_Fee authInfo with
      | None => Panic NilDereference
      | Some fee =>
          let signBytes := StdSignBytes (doc_ChainId signDoc) (doc_AccountNumber signDoc) sequence
            (body_TimeoutHeight body) fee msgs (body_Memo body) in
          WrapTxToTypedData stack (wrap64 chainID) signBytes
      end
  | _ => Err (Errorf "invalid number of signer infos provided")
  end.

Definition GetEIP712TypedDataForMsg (signDocBytes : bytes) : res TypedTx :=
  let protobuf :=
    match decodeProtobufSignDoc signDocBytes with
    | Panic e => Panic e
    | Ok typedData => if isValidEIP712Payload typedData then Ok typedData else Err (Errorf "could not decode sign doc")
    | Err _ => Err (Errorf "could not decode sign doc")
    end in
  match decodeAminoSignDoc signDocBytes with
  | Panic e => Panic e
  | Ok typedData => if isValidEIP712Payload typedData then Ok typedData else protobuf
  | Err _ => protobuf
  end.

Definition GetEIP712BytesForMsg (signDocBytes : bytes) : res bytes :=
  typedData ← GetEIP712TypedDataForMsg signDocBytes;
  wrap_res (Errorf "could not get EIP-712 object bytes") (TypedDataAndHash typedData).
End SignDocs.

(** ** What the parameters do *)

(** A name that is a path of itself: letters, digits and underscores. *)
Definition plain_char (c : Ascii.ascii) : bool :=
  is_lower c || is_digit c || ((65 <=? code_of c) && (code_of c <=? 90))%N || bool_decide (c = underscore).
Definition plain (k : string) : Prop :=
  k <> ""%string /\ forallb plain_char (String.list_ascii_of_string k) = true.

Definition separator (c : Ascii.ascii) : Prop := c = "."%char \/ c = "_"%char.
Definition without_separators (s : string) : Prop :=
  Forall (fun c => ~ separator c) (String.list_ascii_of_string s).

Class GjsonLaws {J : Gjson} : Prop := {
  get_plain ms k : plain k -> Get (JObject ms) k = first_member ms k;
  set_plain ms k v : plain k -> first_member ms k = None -> SetRaw (JObject ms) k v = Ok (JObject (ms ++ [(k, v)]));
  delete_plain ms k : plain k -> NoDup ms.*1 ->
    sjson_Delete (JObject ms) k = Ok (JObject (filter (fun m => m.1 <> k) ms));
  value_map_first ms k : Value_map ms !! k = first_member ms k;
  (** Title casing capitalises the first letters of words and changes no other character. *)
  title_type : Title typePrefix = typePrefix;
  title_stable ps (n : nat) :
    Title (concat_strings (map Title ps) ++ pretty n) = (concat_strings (map Title ps) ++ pretty n)%string;
  title_separators s : without_separators s -> without_separators (Title s)
}.

(** ** Sizes of JSON values *)

(** Nested objects, counting the elements of arrays. *)
Fixpoint depth (v : JVal) : nat :=
  match v with
  | JArray l => list_max (map depth l)
  | JObject ms => S (list_max (map (fun m => depth m.2) ms))
  | _ => 0
  end.
Fixpoint objects (v : JVal) : nat :=
  match v with
  | JArray l => list_sum (map objects l)
  | JObject ms => S (list_sum (map (fun m => objects m.2) ms))
  | _ => 0
  end.
Fixpoint plain_json (v : JVal) : Prop :=
  match v with
  | JArray l => fold_right and True (map plain_json l)
  | JObject ms => fold_right and True (map (fun m => plain m.1 /\ plain_json m.2) ms)
  | _ => True
  end.

(** A value that gets a type: not null, and no array that starts with null or an array. *)
Definition typed_value (v : JVal) : bool :=
  match v with
  | JNull => false
  | JArray (JNull :: _) | JArray (JArray _ :: _) => false
  | _ => true
  end.
Definition member (ms : Members) (k : string) : JVal := default JNull (first_member ms k).
Definition typed_keys (ms : Members) : list string :=
  filter (fun k => typed_value (member ms k) = true) (merge_sort key_order (remove_dups ms.*1)).

(** The type of a value: the fields of an object's type are its typed members in
    descending order, each with the type of its value. *)
Inductive has_type (types : Types) : string -> JVal -> Prop :=
  | ht_bool b : has_type types ethBool (JBool b)
  | ht_number raw : has_type types ethInt64 (JNumber raw)
  | ht_string s : has_type types ethString (JString s)
  | ht_empty : has_type types "string[]" (JArray [])
  | ht_array t v l : IsArray v = false -> has_type types t v -> has_type types (t ++ "[]") (JArray (v :: l))
  | ht_object name fields ms :
      types !! name = Some fields -> fields.*1 = typed_keys ms ->
      (forall k t, (k, t) ∈ fields -> has_type types t (member ms k)) ->
      has_type types name (JObject ms).

Lemma has_type_mono (types types' : Types) t v : types ⊆ types' -> has_type types t v -> has_type types' t v.
Proof.
  intros Hsub. induction 1 as [| | | | |name fields ms Hl Hf _ IH]; try by constructor.
  econstructor; [by eapply lookup_weaken|done|done].
Qed.

Lemma elem_of_list_max (l : list nat) x : x ∈ l -> (x <= list_max l)%nat.
Proof. induction 1; simpl; lia. Qed.
Lemma elem_of_list_sum (l : list nat) x : x ∈ l -> (x <= list_sum l)%nat.
Proof. induction 1; simpl; lia. Qed.
Lemma fold_and {A} (P : A -> Prop) (l : list A) : fold_right and True (map P l) <-> Forall P l.
Proof. induction l as [|x l IH]; simpl; [done|]. by rewrite Forall_cons, IH. Qed.

Lemma first_member_elem ms k v : first_member ms k = Some v -> (k, v) ∈ ms.
Proof.
  induction ms as [|[k' v'] ms IH]; simpl; [done|]. case_decide; [intros [= ->]; subst; by left|]. right. auto.
Qed.
Lemma first_member_name ms k : k ∈ ms.*1 <-> is_Some (first_member ms k).
Proof.
  split.
  - induction ms as [|[k' v'] ms IH]; simpl; [by intros ?%not_elem_of_nil|]. rewrite elem_of_cons.
    case_decide; [by eauto|]. intros [->|Hk]; [done|auto].
  - intros [v Hv%first_member_elem]. apply list_elem_of_fmap. by exists (k, v).
Qed.

(** ** Names of types *)

Lemma chars_append a b :
  String.list_ascii_of_string (a ++ b) = String.list_ascii_of_string a ++ String.list_ascii_of_string b.
Proof. induction a as [|c a IH]; [done|]. apply (f_equal (cons c) IH). Qed.
Lemma append_nil_r (s : string) : (s ++ "")%string = s.
Proof. induction s as [|c s IH]; [done|]. apply (f_equal (String c) IH). Qed.
Lemma append_assoc_s (a b c : string) : ((a ++ b) ++ c)%string = (a ++ (b ++ c))%string.
Proof. induction a as [|x a IH]; [done|]. apply (f_equal (String x) IH). Qed.
Lemma concat_strings_app l k : concat_strings (l ++ k) = (concat_strings l ++ concat_strings k)%string.
Proof. induction l as [|x l IH]; simpl; [done|]. by rewrite IH, append_assoc_s. Qed.
Lemma concat_strings_concat (ls : list (list string)) :
  concat_strings (map concat_strings ls) = concat_strings (concat ls).
Proof. induction ls as [|l ls IH]; simpl; [done|]. by rewrite IH, concat_strings_app. Qed.

Lemma split_chars_none sep l : sep ∉ l -> split_chars sep l = [l].
Proof.
  induction l as [|c l IH]; simpl; [done|]. rewrite not_elem_of_cons. intros [Hc Hl].
  rewrite decide_False by done. by rewrite IH.
Qed.
Lemma split_chars_parts sep l : Forall (fun p => (sep ∉ p) /\ forall c, c ∈ p -> c ∈ l) (split_chars sep l).
Proof.
  induction l as [|c l IH]; simpl.
  - repeat constructor; [apply not_elem_of_nil|by intros c ?%not_elem_of_nil].
  - case_decide as Hc.
    + constructor; [split; [apply not_elem_of_nil|by intros ? ?%not_elem_of_nil]|].
      eapply Forall_impl; [exact IH|]. intros p [H1 H2]. split; [done|]. intros x Hx. right. auto.
    + destruct (split_chars sep l) as [|p ps]; [apply Forall_singleton; set_solver|].
      apply Forall_cons in IH as [[H1 H2] IH]. constructor; [set_solver|].
      eapply Forall_impl; [exact IH|]. intros q [H3 H4]. split; [done|]. intros x Hx. right. auto.
Qed.
Lemma Split_one s sep : sep ∉ String.list_ascii_of_string s -> Split s sep = [s].
Proof.
  intros Hs. unfold Split. rewrite split_chars_none by done. simpl.
  by rewrite String.string_of_list_ascii_of_string.
Qed.
Lemma Split_parts s sep p : p ∈ Split s sep ->
  (sep ∉ String.list_ascii_of_string p) /\ forall c, c ∈ String.list_ascii_of_string p -> c ∈ String.list_ascii_of_string s.
Proof.
  unfold Split. rewrite list_elem_of_fmap. intros (l & -> & Hl). rewrite String.list_ascii_of_string_of_list_ascii.
  pose proof (split_chars_parts sep (String.list_ascii_of_string s)) as Hp. rewrite Forall_forall in Hp. auto.
Qed.

Lemma without_separators_spec s :
  without_separators s <-> ("."%char ∉ String.list_ascii_of_string s) /\ ("_"%char ∉ String.list_ascii_of_string s).
Proof. unfold without_separators, separator. rewrite Forall_forall. naive_solver. Qed.
Lemma without_separators_app a b : without_separators a -> without_separators b -> without_separators (a ++ b).
Proof. unfold without_separators. rewrite chars_append. apply Forall_app_2. Qed.
Lemma without_separators_concat l : Forall without_separators l -> without_separators (concat_strings l).
Proof. induction 1; simpl; [constructor|]. by apply without_separators_app. Qed.
Lemma without_separators_pretty (n : nat) : without_separators (pretty n).
Proof.
  unfold without_separators. eapply Forall_impl; [apply pretty_all_digits|]. by intros c Hc [->| ->].
Qed.

(** Names of message types start with [Type], so they are not [Tx]. *)
Definition type_name (t : string) : Prop := exists s, t = (typePrefix ++ s)%string.
Lemma type_name_not_tx t : type_name t -> t <> txField.
Proof. by intros [s ->]. Qed.
Lemma type_name_numbered t n : type_name t -> type_name (typeDefWithIndex t n).
Proof. intros [s ->]. exists (s ++ pretty n)%string. by rewrite <- append_assoc_s. Qed.

(** The prefixes that occur. *)
Definition rooted (prefix : string) : Prop := prefix = rootPrefix \/ exists s, prefix = ("_." ++ s)%string.

Section Names.
Context {J : Gjson} {L : GjsonLaws}.

Lemma sanitize_name s : type_name (sanitizeTypedef ("_." ++ s)).
Proof.
  unfold sanitizeTypedef, Split. change (String.list_ascii_of_string ("_." ++ s))
    with ("_"%char :: "."%char :: String.list_ascii_of_string s). cbn [split_chars].
  rewrite decide_False, decide_True by done. cbn [fmap list_fmap map concat_strings foldr].
  rewrite decide_True by done. by eexists.
Qed.
Lemma typeDef_name prefix rootType : rooted prefix -> type_name rootType -> type_name (typeDefForPrefix prefix rootType).
Proof.
  unfold typeDefForPrefix. intros [->|[s ->]] Hr; [by rewrite decide_True|]. case_decide; [done|apply sanitize_name].
Qed.

Lemma sanitize_pieces str : exists ps,
  sanitizeTypedef str = concat_strings (map Title ps) /\ Forall without_separators ps.
Proof.
  unfold sanitizeTypedef. pose proof (Split_parts str "."%char) as Hparts.
  induction (Split str "."%char) as [|part parts IH]; [by exists []|].
  destruct IH as (ps & E & Hps); [set_solver|].
  assert (exists qs, (if decide (part = rootPrefix) then typePrefix else concat_strings (map Title (Split part "_"%char)))
            = concat_strings (map Title qs) /\ Forall without_separators qs) as (qs & Eq & Hqs).
  { case_decide as Hpart.
    - exists [typePrefix]. simpl. rewrite title_type. split; [done|]. constructor; [|done]. by vm_compute; repeat constructor; intros [|].
    - exists (Split part "_"%char). split; [done|]. apply Forall_forall. intros p Hp.
      destruct (Split_parts _ _ _ Hp) as [H1 H2]. apply without_separators_spec. split; [|done].
      intros Hc%H2. by apply (Hparts part ltac:(left)). }
  exists (qs ++ ps). rewrite map_app, concat_strings_app, <- Eq, <- E. split; [done|]. by apply Forall_app.
Qed.

(** Sanitising a name that was sanitised and numbered does nothing. *)
Lemma sanitize_numbered str n :
  sanitizeTypedef (typeDefWithIndex (sanitizeTypedef str) n) = typeDefWithIndex (sanitizeTypedef str) n.
Proof.
  destruct (sanitize_pieces str) as (ps & E & Hps). unfold typeDefWithIndex. rewrite E.
  set (s := (concat_strings (map Title ps) ++ pretty n)%string).
  assert (without_separators s) as Hs.
  { apply without_separators_app; [|apply without_separators_pretty]. apply without_separators_concat.
    apply Forall_map. eapply Forall_impl; [exact Hps|]. intros p. apply title_separators. }
  apply without_separators_spec in Hs as [Hd Hu]. unfold sanitizeTypedef. rewrite (Split_one s) by done. simpl.
  rewrite decide_False by (intros ->; apply Hu; left). rewrite (Split_one s) by done. simpl.
  unfold s. by rewrite title_stable, !append_nil_r.
Qed.
End Names.

(** ** Adding types *)

Lemma typesAreEqual_spec l k : typesAreEqual l k = true <-> l = k.
Proof.
  unfold typesAreEqual. destruct (Nat.eqb_spec (length l) (length k)) as [Hl|Hl]; [|split; [done|by intros ->]].
  revert k Hl. induction l as [|[a b] l IH]; intros [|[c d] k] Hl; try done. simpl.
  rewrite !andb_true_iff, !bool_decide_eq_true, IH by (by injection Hl). naive_solver.
Qed.

(** A step of the construction: the map only grows, by at most [k] definitions, and the
    step fails only on a map of a thousand. *)
Definition added {A} (m : Types) (k : nat) (Q : A -> Types -> Prop) (o : res A * Types) : Prop :=
  m ⊆ o.2 /\ (size o.2 <= size m + k)%nat /\
  match o.1 with Ok a => Q a o.2 | Err _ => (1000 <= size o.2)%nat | Panic _ => False end.

Lemma added_ret {A} (m : Types) (Q : A -> Types -> Prop) a k : Q a m -> added m k Q (mret (M := M Types) a m).
Proof. intros HQ. split_and!; [done|simpl; lia|done]. Qed.

Lemma added_weaken {A} (m : Types) (k k' : nat) (Q Q' : A -> Types -> Prop) o :
  (k <= k')%nat -> (forall a m', m ⊆ m' -> Q a m' -> Q' a m') -> added m k Q o -> added m k' Q' o.
Proof. intros Hk HQ (H1 & H2 & H3). split_and!; [done|lia|]. destruct (o.1); auto. Qed.

Lemma added_bind {A B} (m : Types) (k1 k2 : nat) (Q1 : A -> Types -> Prop) (Q2 : B -> Types -> Prop)
    (f : M Types A) (g : A -> M Types B) :
  added m k1 Q1 (f m) -> (forall a m1, m ⊆ m1 -> Q1 a m1 -> added m1 k2 Q2 (g a m1)) ->
  added m (k1 + k2) Q2 ((f ≫= g) m).
Proof.
  unfold mbind, M_bind. intros (H1 & H2 & H3) Hg. destruct (f m) as [[a|e|e] m1]; simpl in *; [| |done].
  - destruct (Hg a m1 H1 H3) as (H4 & H5 & H6). split_and!; [by etrans|lia|done].
  - split_and!; [done|simpl; lia|done].
Qed.

Lemma numbered_size (m : Types) d n :
  (forall i, (i < n)%nat -> is_Some (m !! typeDefWithIndex d i)) -> (n <= size m)%nat.
Proof.
  intros Hi. rewrite <- size_dom. set (l := map (typeDefWithIndex d) (seq 0 n)).
  assert (NoDup l) as Hnd.
  { apply NoDup_fmap_2; [|apply NoDup_seq]. intros i j Hij. unfold typeDefWithIndex in Hij. by simplify_eq. }
  rewrite <- (length_seq n 0), <- (length_map (typeDefWithIndex d)). fold l.
  rewrite <- (size_list_to_set (C := gset string)) by done. apply subseteq_size. intros x Hx.
  apply elem_of_list_to_set, list_elem_of_fmap in Hx as (i & -> & Hin). apply elem_of_dom, Hi.
  apply elem_of_seq in Hin. lia.
Qed.

Lemma add_at_spec d types n index (m : Types) :
  (forall i, (i < index)%nat -> is_Some (m !! typeDefWithIndex d i)) -> (index + n = 1000)%nat ->
  added m 1 (fun t m' => (exists i, t = typeDefWithIndex d i) /\ m' !! t = Some types) (add_at d types n index m).
Proof.
  revert index. induction n as [|n IH]; intros index Hi Hn; simpl.
  - split_and!; [done|simpl; lia|]. apply (numbered_size m d). intros i ?. apply Hi. lia.
  - unfold mbind, M_bind, gets. destruct (m !! typeDefWithIndex d index) as [existing|] eqn:El.
    + destruct (typesAreEqual types existing) eqn:Ee.
      * apply typesAreEqual_spec in Ee as ->. apply added_ret. eauto.
      * apply IH; [|lia]. intros i Hlt. destruct (decide (i = index)) as [->|]; [by eauto|]. apply Hi. lia.
    + unfold modify, mret, M_ret. split; [by apply insert_subseteq|]. split; cbn [fst snd].
      * rewrite map_size_insert_None by done. lia.
      * split; [by eauto|]. by rewrite lookup_insert_eq.
Qed.

(** ** The members of an object *)

Lemma member_cons_ne k v ms k' : k <> k' -> member ((k, v) :: ms) k' = member ms k'.
Proof. intros Hk. unfold member. simpl. by rewrite decide_False. Qed.

Lemma sum_members (f : JVal -> nat) ms names : NoDup names -> (forall k, k ∈ names -> k ∈ ms.*1) ->
  (list_sum (map (fun k => f (member ms k)) names) <= list_sum (map (fun m => f m.2) ms))%nat.
Proof.
  revert names. induction ms as [|[k v] ms IH]; intros names Hnd Hin.
  { destruct names as [|k names]; [done|]. by destruct (not_elem_of_nil k (Hin k ltac:(left))). }
  destruct (decide (k ∈ names)) as [Hk|Hk].
  - apply elem_of_Permutation in Hk as [names' Hp]. rewrite Hp in Hnd. apply NoDup_cons in Hnd as [Hk Hnd].
    rewrite (Permutation_map _ Hp). simpl. unfold member at 1. simpl. rewrite decide_True by done. simpl.
    rewrite (map_ext_in _ (fun k => f (member ms k))).
    + apply Nat.add_le_mono_l, IH; [done|]. intros k' Hk'. specialize (Hin k'). rewrite Hp in Hin.
      specialize (Hin ltac:(by right)). simpl in Hin. apply elem_of_cons in Hin as [->|]; done.
    + intros k' Hk'%list_elem_of_In. rewrite member_cons_ne; [done|]. by intros ->.
  - simpl. etrans; [|apply Nat.le_add_l]. rewrite (map_ext_in _ (fun k => f (member ms k))).
    + apply IH; [done|]. intros k' Hk'. specialize (Hin k' Hk'). simpl in Hin. apply elem_of_cons in Hin as [->|]; done.
    + intros k' Hk'%list_elem_of_In. rewrite member_cons_ne; [done|]. by intros ->.
Qed.

Lemma sorted_names_spec (ms : Members) :
  NoDup (merge_sort key_order (remove_dups ms.*1)) /\
  forall k, k ∈ merge_sort key_order (remove_dups ms.*1) <-> k ∈ ms.*1.
Proof.
  pose proof (merge_sort_Permutation key_order (remove_dups ms.*1)) as Hp. split.
  - rewrite Hp. apply NoDup_remove_dups.
  - intros k. by rewrite Hp, elem_of_remove_dups.
Qed.

(** ** The types of messages *)

Section TypesProofs.
Context {J : Gjson} {L : GjsonLaws}.

Abbreviation names_of ms := (merge_sort key_order (remove_dups (fst <$> (ms : Members)))).

(** The definitions but [Tx], which grows with every message. *)
Abbreviation inner m := (delete txField (m : Types)).

(** What the recursive call does for an object of a smaller depth. *)
Definition rec_ok (d : nat) (rec : string -> JVal -> M Types string) : Prop :=
  forall prefix ms m, (exists s, prefix = ("_." ++ s)%string) -> plain_json (JObject ms) -> (depth (JObject ms) <= d)%nat ->
  added m (objects (JObject ms))
    (fun t m' => sanitizeTypedef t = t /\ has_type (inner m') t (JObject ms)) (rec prefix (JObject ms) m).

Lemma prefix_sub prefix k : rooted prefix -> exists s, prefixForSubField prefix k = ("_." ++ s)%string.
Proof.
  unfold prefixForSubField. intros [->|[s ->]]; [by exists k|]. exists (s ++ "." ++ k)%string. by rewrite append_assoc_s.
Qed.

Lemma element_spec d rec prefix k v (b : bool) (m : Types) : rooted prefix -> rec_ok d rec -> plain_json v -> (depth v <= d)%nat -> IsArray v = false ->
  added m (objects v)
    (fun t m' => if typed_value v
                 then exists t', t = Some (if b then (t' ++ "[]")%string else t') /\ has_type (inner m') t' v else t = None)
    (element_type rec prefix k v b m).
Proof.
  intros Hroot Hrec Hp Hd Ha. destruct v as [|c|raw|s|l|ms]; try done; unfold element_type; simpl getEthTypeForJSON.
  - by apply added_ret.
  - apply added_ret. eexists. split; [done|constructor].
  - apply added_ret. eexists. split; [done|constructor].
  - apply added_ret. eexists. split; [done|constructor].
  - rewrite bool_decide_eq_true_2 by done. simpl negb. cbn [IsObject].
    rewrite <- (Nat.add_0_r (objects _)). eapply added_bind; [apply Hrec; [by apply prefix_sub|done|done]|].
    intros t m1 _ [Hs Ht]. apply added_ret. exists t. by rewrite Hs.
Qed.

Lemma member_plain ms k : plain_json (JObject ms) -> k ∈ ms.*1 ->
  exists v, first_member ms k = Some v /\ plain k /\ plain_json v /\
    (S (depth v) <= depth (JObject ms))%nat.
Proof.
  intros Hp Hk. apply first_member_name in Hk as [v Hv]. pose proof (first_member_elem _ _ _ Hv) as Hin.
  simpl in Hp. apply fold_and in Hp. rewrite Forall_forall in Hp. destruct (Hp _ Hin) as [H1 H2].
  exists v. split_and!; [done|done|done|]. simpl. apply le_n_S, elem_of_list_max, list_elem_of_fmap. by exists (k, v).
Qed.

Lemma field_spec d rec prefix ms k (m : Types) : rooted prefix -> rec_ok d rec -> plain_json (JObject ms) -> k ∈ ms.*1 ->
  (depth (JObject ms) <= S d)%nat ->
  added m (objects (member ms k))
    (fun t m' => if typed_value (member ms k) then exists t', t = Some t' /\ has_type (inner m') t' (member ms k) else t = None)
    (field_type rec prefix (JObject ms) k m).
Proof.
  intros Hroot Hrec Hp Hk Hd. destruct (member_plain ms k Hp Hk) as (v & Hv & Hpk & Hpv & Hdv).
  assert (depth v <= d)%nat as Hdd by lia. clear Hdv Hd.
  unfold field_type, member. rewrite get_plain, Hv by done. cbn [default].
  destruct (IsArray v) eqn:Ha.
  - destruct v as [| | | |[|x l]|]; try done.
    + apply added_ret. simpl. eexists. split; [done|constructor].
    + simpl in Hpv. destruct Hpv as [Hpx _]. simpl in Hdd.
      destruct (IsArray x) eqn:Hx.
      { destruct x; try done. unfold element_type. simpl. by apply added_ret. }
      eapply added_weaken; [| |apply (element_spec d rec prefix k x true); [done|done|done|lia|done]]; [simpl; lia|].
      intros t m' _. simpl. destruct x; try done; intros (t' & -> & Ht); (eexists; split; [done|by constructor]).
  - pose proof (element_spec d rec prefix k v false m Hroot Hrec Hpv Hdd Ha) as He.
    by destruct v as [| | | |[]|].
Qed.

Lemma fields_spec d rec prefix ms names acc (m : Types) : rooted prefix -> rec_ok d rec -> plain_json (JObject ms) ->
  (depth (JObject ms) <= S d)%nat -> (forall k, k ∈ names -> k ∈ ms.*1) ->
  added m (list_sum (map (fun k => objects (member ms k)) names))
    (fun fs m' => exists fs', fs = acc ++ fs' /\ fs'.*1 = filter (fun k => typed_value (member ms k) = true) names /\
       forall k t, (k, t) ∈ fs' -> has_type (inner m') t (member ms k))
    (add_fields rec prefix (JObject ms) names acc m).
Proof.
  intros Hroot Hrec Hp Hd. revert acc m. induction names as [|k names IH]; intros acc m Hin.
  - apply added_ret. exists []. split_and!; [by rewrite app_nil_r|done|by intros ? ? ?%not_elem_of_nil].
  - cbn [add_fields map list_sum]. eapply added_bind; [apply (field_spec d); [done|done|done|apply Hin; left|done]|].
    intros t m1 _ Ht. eapply added_weaken; [reflexivity| |apply IH; set_solver].
    intros fs m' Hm' (fs' & -> & Hf & Hty). rewrite filter_cons. destruct (typed_value (member ms k)).
    + destruct Ht as (t' & -> & Ht). exists ((k, t') :: fs'). rewrite <- app_assoc.
      split_and!; [done|by rewrite fmap_cons, Hf|]. intros k' t'' [[= -> ->]|]%elem_of_cons; [by eapply has_type_mono; [apply delete_mono|]|auto].
    + subst t. exists fs'. by split_and!.
Qed.

Lemma rec_spec stack rootType prefix ms (m : Types) : rooted prefix -> type_name rootType -> plain_json (JObject ms) -> (depth (JObject ms) <= stack)%nat ->
  added m (objects (JObject ms))
    (fun t m' => (exists n, t = typeDefWithIndex (typeDefForPrefix prefix rootType) n) /\ has_type (inner m') t (JObject ms))
    (recursivelyAddTypesToRoot stack rootType prefix (JObject ms) m).
Proof.
  intros Hroot Hname. revert prefix Hroot ms m. induction stack as [|stack IH]; intros prefix Hroot ms m Hp Hd; [simpl in Hd; lia|].
  assert (rec_ok stack (recursivelyAddTypesToRoot stack rootType)) as Hrec.
  { intros prefix' ms' m' [s' ->] Hp' Hd'. eapply added_weaken; [reflexivity| |apply IH; [by right; eexists|done|done]].
    intros t m1 _ [[n ->] Ht]. split; [|done]. unfold typeDefForPrefix. rewrite decide_False by done. apply sanitize_numbered. }
  destruct (sorted_names_spec ms) as [Hnd Hnames].
  eapply (added_weaken m (list_sum (map (fun k => objects (member ms k)) (names_of ms)) + 1)).
  { pose proof (sum_members objects ms (names_of ms) Hnd (fun k => proj1 (Hnames k))). simpl in *. lia. }
  { intros t m' _ HQ. exact HQ. }
  cbn [recursivelyAddTypesToRoot sortedJSONKeys wrap_res]. unfold lift_res at 1, mbind at 1, M_bind at 1.
  eapply added_bind; [apply (fields_spec stack); [done|done|done|done|intros k; by apply Hnames]|].
  intros fs m1 Hm1 (fs' & -> & Hf & Hty). simpl app.
  eapply added_weaken; [reflexivity| |by apply add_at_spec; [lia|]].
  intros t m' Hm' [[n ->] Hl]. split; [by eauto|]. econstructor; [|exact Hf|].
  { rewrite lookup_delete_ne; [exact Hl|]. symmetry. apply type_name_not_tx, type_name_numbered. by apply typeDef_name. }
  intros k t Hk. eapply has_type_mono; [by apply delete_mono|auto].
Qed.

(** *** Whatever the message, definitions are only added *)

Lemma add_at_grows d types n index (m : Types) : m ⊆ (add_at d types n index m).2.
Proof.
  revert index. induction n as [|n IH]; intros index; simpl; [done|]. unfold mbind, M_bind, gets.
  destruct (m !! typeDefWithIndex d index) eqn:El; [by case_match; [|apply IH]|by apply insert_subseteq].
Qed.

Definition grows {A} (f : M Types A) : Prop := forall m, m ⊆ (f m).2.
Lemma grows_bind {A B} (f : M Types A) (g : A -> M Types B) : grows f -> (forall a, grows (g a)) -> grows (f ≫= g).
Proof.
  intros Hf Hg m. unfold mbind, M_bind. specialize (Hf m). destruct (f m) as [[a|e|e] m1]; simpl in *; [|done|done].
  etrans; [exact Hf|apply Hg].
Qed.
Lemma rec_grows stack rootType prefix v : grows (recursivelyAddTypesToRoot stack rootType prefix v).
Proof.
  revert prefix v. induction stack as [|stack IH]; intros prefix v; [by intros m|].
  cbn [recursivelyAddTypesToRoot]. apply grows_bind; [by intros m|intros names].
  apply grows_bind; [|intros fs m; apply add_at_grows].
  generalize (@nil (string * string)). induction names as [|k names IHn]; intros acc; [by intros m|].
  cbn [add_fields]. apply grows_bind; [|intros t; apply IHn]. unfold field_type.
  assert (forall x b, grows (element_type (recursivelyAddTypesToRoot stack rootType) prefix k x b)) as He.
  { intros x b. unfold element_type. case_match; [by intros m|]. case_match; [|by intros m].
    apply grows_bind; [apply IH|by intros t m]. }
  destruct (Get v k) as [[| | | |[|]|]|]; try apply He; by intros m.
Qed.

Lemma doRecover_ok {A} (f : M Types A) m a m' : doRecover f m = (Ok a, m') <-> f m = (Ok a, m').
Proof. unfold doRecover. destruct (f m) as [[|e|e] m1]; [done|done|]. case_decide; by split. Qed.

(** *** The messages in the schema *)

Lemma add_message_spec stack field ms s (m : Types) :
  plain_json (JObject ms) -> (depth (JObject ms) <= stack)%nat -> first_member ms msgTypeField = Some (JString s) -> s <> ""%string ->
  is_Some (m !! txField) -> (size m + objects (JObject ms) < 1000)%nat ->
  exists m' t fields, addMsgTypesToRoot stack field (JObject ms) m = (Ok tt, m') /\
    inner m ⊆ inner m' /\ (size m' <= size m + objects (JObject ms))%nat /\
    m !! txField = Some fields /\ m' !! txField = Some (fields ++ [(field, t)]) /\ has_type (inner m') t (JObject ms).
Proof.
  intros Hp Hd Ht Hs [fields Htx] Hsize.
  assert (msgRootType (JObject ms) = Ok (typePrefix ++ default "" (last (Split s "/"%char)))%string) as Hroot.
  { unfold msgRootType. rewrite get_plain, Ht by (by vm_compute). simpl. by rewrite decide_False. }
  destruct (rec_spec stack (typePrefix ++ default "" (last (Split s "/"%char))) rootPrefix ms m)
    as (H1 & H2 & H3); [by left|by eexists|done|done|].
  unfold addMsgTypesToRoot. destruct (recursivelyAddTypesToRoot stack _ rootPrefix (JObject ms) m) as [[t|e|e] m1] eqn:Er;
    cbn [fst snd] in *; [|lia|done].
  destruct H3 as [_ Hty]. exists (addMsgTypeDefToTxSchema field t m1), t, fields.
  assert (m1 !! txField = Some fields) as Htx1 by (by eapply lookup_weaken).
  split_and!.
  - apply doRecover_ok. cbn [IsObject]. unfold require, lift_res, mbind, M_bind, mret, M_ret. by rewrite Hroot, Er.
  - unfold addMsgTypeDefToTxSchema. rewrite delete_insert_eq. by apply delete_mono.
  - unfold addMsgTypeDefToTxSchema. rewrite map_size_insert_Some by done. done.
  - done.
  - unfold addMsgTypeDefToTxSchema. by rewrite lookup_insert_eq, Htx1.
  - unfold addMsgTypeDefToTxSchema. by rewrite delete_insert_eq.
Qed.

(** A message of the right form: an object with plain names, not nested deeper than the
    stack, with a type. *)
Definition message_ok (stack : nat) (v : JVal) : Prop :=
  exists ms s, v = JObject ms /\ plain_json v /\ (depth v <= stack)%nat /\
    first_member ms msgTypeField = Some (JString s) /\ s <> ""%string.

(** The entries of the schema for messages from index [i]. *)
Definition entries_ok (types : Types) (i : nat) (msgs : list JVal) (entries : list (string * string)) : Prop :=
  Forall2 (fun jm e => e.1 = msgFieldForIndex jm.1 /\ has_type (inner types) e.2 jm.2)
    (zip (seq i (length msgs)) msgs) entries.

Lemma msgField_plain i : plain (msgFieldForIndex i).
Proof.
  unfold plain, msgFieldForIndex. split; [done|]. rewrite chars_append, forallb_app. apply andb_true_iff. split; [done|].
  apply forallb_forall. intros c Hc%list_elem_of_In. pose proof (pretty_all_digits i) as Hd. rewrite Forall_forall in Hd.
  unfold plain_char. rewrite (Hd c Hc). by destruct (is_lower c).
Qed.
#[export] Instance msgField_inj : Inj (=) (=) msgFieldForIndex.
Proof. intros i j Hij. unfold msgFieldForIndex in Hij. by simplify_eq. Qed.

Lemma add_messages_spec stack ms msgs i (m : Types) fields :
  Forall (message_ok stack) msgs ->
  (forall j msg, msgs !! j = Some msg -> first_member ms (msgFieldForIndex (i + j)) = Some msg) ->
  m !! txField = Some fields -> (size m + list_sum (map objects msgs) < 1000)%nat ->
  exists m' entries, add_messages stack (JObject ms) (length msgs) i m = (Ok tt, m') /\ inner m ⊆ inner m' /\
    m' !! txField = Some (fields ++ entries) /\ entries_ok m' i msgs entries.
Proof.
  revert i m fields. induction msgs as [|msg msgs IH]; intros i m fields Hok Hget Htx Hsize.
  - exists m, []. split_and!; [done|done|by rewrite app_nil_r|constructor].
  - apply Forall_cons in Hok as [(fs & s & -> & Hp & Hd & Hty & Hs) Hok]. simpl in Hsize.
    cbn [add_messages length]. rewrite get_plain by apply msgField_plain.
    pose proof (Hget 0%nat _ eq_refl) as H0. rewrite Nat.add_0_r in H0. rewrite H0. cbn [from_option]. unfold id.
    destruct (add_message_spec stack (msgFieldForIndex i) fs s m) as (m1 & t & fields' & E1 & Hsub1 & Hsz1 & Htx1 & Htx2 & Ht);
      [done|done|done|done|by eauto|simpl; lia|]. rewrite Htx in Htx1. injection Htx1 as <-.
    destruct (IH (S i) m1 (fields ++ [(msgFieldForIndex i, t)])) as (m2 & entries & E2 & Hsub2 & Htx3 & Hent).
    { done. } { intros j msg Hj. rewrite Nat.add_succ_comm. by apply (Hget (S j)). } { done. }
    { simpl in Hsz1. lia. }
    exists m2, ((msgFieldForIndex i, t) :: entries). unfold mbind, M_bind. rewrite E1, E2. split_and!.
    + done. + by etrans. + by rewrite Htx3, <- app_assoc.
    + constructor; [|exact Hent]. split; [done|]. simpl. by eapply has_type_mono.
Qed.

(** The schema of a message count, whatever the messages are. *)
Lemma add_messages_count stack payload n i (m m' : Types) fields :
  add_messages stack payload n i m = (Ok tt, m') -> m !! txField = Some fields ->
  exists entries, m' !! txField = Some (fields ++ entries) /\ length entries = n.
Proof.
  revert i m fields. induction n as [|n IH]; intros i m fields E Htx; cbn [add_messages] in E.
  - injection E as <-. exists []. by rewrite app_nil_r.
  - unfold mbind, M_bind in E. destruct (addMsgTypesToRoot _ _ _ m) as [[[]|e|e] m1] eqn:E1; [|done|done].
    unfold addMsgTypesToRoot in E1. apply doRecover_ok, bind_ok_inv in E1 as ([] & m2 & Eq & E1).
    assert (m2 = m) as -> by (unfold require in Eq; destruct (IsObject _); [by injection Eq|done]).
    apply bind_ok_inv in E1 as (root & m2 & Er & E1).
    assert (m2 = m) as -> by (unfold lift_res in Er; by injection Er).
    apply bind_ok_inv in E1 as (t & m2 & Ea & E1). unfold modify in E1. injection E1 as <-.
    pose proof (rec_grows stack root rootPrefix (default JNull (Get payload (msgFieldForIndex i))) m) as Hg.
    rewrite Ea in Hg. simpl in Hg. eapply lookup_weaken in Htx; [|exact Hg].
    destruct (IH (S i) _ (fields ++ [(msgFieldForIndex i, t)]) E) as (entries & H1 & H2).
    { unfold addMsgTypeDefToTxSchema. by rewrite lookup_insert_eq, Htx. }
    exists ((msgFieldForIndex i, t) :: entries). rewrite <- app_assoc in H1. split; [exact H1|]. simpl. lia.
Qed.
End TypesProofs.

(** ** Flattening *)

Lemma first_member_app a b k :
  first_member (a ++ b) k = match first_member a k with Some v => Some v | None => first_member b k end.
Proof. induction a as [|[k' v] a IH]; simpl; [done|]. by case_decide. Qed.
Lemma first_member_filter (ms : Members) c k :
  first_member (filter (fun m => m.1 <> c) ms) k = if decide (k = c) then None else first_member ms k.
Proof.
  induction ms as [|[k' v] ms IH]; simpl; [by case_decide|]. rewrite filter_cons. simpl.
  destruct (decide (k' <> c)) as [Hk|Hk]; simpl; rewrite IH; repeat case_decide; naive_solver.
Qed.

(** The members the messages become, from index [i]. *)
Definition message_members (i : nat) (msgs : list JVal) : Members :=
  zip (map msgFieldForIndex (seq i (length msgs))) msgs.

Section Flatten.
Context {J : Gjson} {L : GjsonLaws}.

Lemma message_members_at i msgs j : first_member (message_members i msgs) (msgFieldForIndex (i + j)) = msgs !! j.
Proof.
  revert i j. induction msgs as [|v msgs IH]; intros i j; [done|]. cbn. case_decide as H.
  - apply (inj msgFieldForIndex) in H. assert (j = 0%nat) as -> by lia. done.
  - destruct j as [|j]; [by rewrite Nat.add_0_r in H|]. rewrite <- Nat.add_succ_comm. apply IH.
Qed.
Lemma message_members_other i msgs k : (forall j, (j < length msgs)%nat -> k <> msgFieldForIndex (i + j)) ->
  first_member (message_members i msgs) k = None.
Proof.
  revert i. induction msgs as [|v msgs IH]; intros i Hk; [done|]. cbn. rewrite decide_False.
  - apply IH. intros j Hj. rewrite Nat.add_succ_comm. apply Hk. simpl. lia.
  - intros E. apply (Hk 0%nat); [simpl; lia|]. by rewrite Nat.add_0_r.
Qed.

Lemma with_messages_spec ms msgs i r :
  with_messages (JObject ms) msgs i = Ok r <->
  r = JObject (ms ++ message_members i msgs) /\ Forall (fun v => IsObject v = true) msgs /\
  forall j, (j < length msgs)%nat -> first_member ms (msgFieldForIndex (i + j)) = None.
Proof.
  revert i ms. induction msgs as [|v msgs IH]; intros i ms; cbn [with_messages].
  { unfold message_members. simpl. rewrite app_nil_r. split; [intros [= <-]|intros (-> & _)]; [|done].
    split_and!; [done|done|lia]. }
  unfold payloadWithNewMessage. rewrite get_plain by apply msgField_plain.
  destruct (first_member ms (msgFieldForIndex i)) as [x|] eqn:Ei.
  { split; [done|]. intros (_ & _ & Hj). specialize (Hj 0%nat ltac:(simpl; lia)). rewrite Nat.add_0_r in Hj. congruence. }
  destruct (IsObject v) eqn:Ev; [|split; [done|]; intros (_ & [? _]%Forall_cons & _); congruence].
  rewrite set_plain by (done || apply msgField_plain). unfold mbind, res_bind. rewrite IH, <- app_assoc, Forall_cons.
  cbn [length]. change (message_members i (v :: msgs)) with ([(msgFieldForIndex i, v)] ++ message_members (S i) msgs).
  split; intros (-> & Hf & Hj); (split; [done|split; [naive_solver|]]).
  - intros [|j] Hlt; [by rewrite Nat.add_0_r|]. specialize (Hj j ltac:(lia)). rewrite first_member_app in Hj.
    rewrite <- Nat.add_succ_comm. by destruct (first_member ms (msgFieldForIndex (S i + j))).
  - intros j Hlt. rewrite first_member_app, Nat.add_succ_comm, (Hj (S j)) by lia. cbn [first_member].
    rewrite decide_False; [done|]. intros E. apply (inj msgFieldForIndex) in E. lia.
Qed.

(** Flattening succeeds exactly when the payload has messages, all of them objects, and
    none of the names they get is taken. *)
Lemma flatten_spec ms r n : NoDup ms.*1 ->
  FlattenPayloadMessages (JObject ms) = Ok (r, n) <->
  exists msgs, first_member ms payloadMsgsField = Some (JArray msgs) /\ n = length msgs /\
    r = JObject (filter (fun m => m.1 <> payloadMsgsField) (ms ++ message_members 0 msgs)) /\
    Forall (fun v => IsObject v = true) msgs /\
    forall j, (j < length msgs)%nat -> first_member ms (msgFieldForIndex j) = None.
Proof.
  intros Hnd. unfold FlattenPayloadMessages, getPayloadMessages. rewrite get_plain by (by vm_compute).
  destruct (first_member ms payloadMsgsField) as [[| | | |msgs|]|] eqn:Em; try (split; [done|naive_solver]).
  unfold mbind, res_bind. destruct (with_messages (JObject ms) msgs 0) as [r'|e|e] eqn:Ew.
  - apply with_messages_spec in Ew as (-> & Hf & Hj). unfold payloadWithoutMsgsField. rewrite delete_plain; [|by vm_compute|].
    + split; [intros [= <- <-]; by exists msgs|]. intros (msgs' & [= <-] & -> & -> & _). done.
    + rewrite fmap_app. apply NoDup_app. split_and!; [done| |].
      * intros k Hk Hk2. apply first_member_name in Hk as [v Hv].
        unfold message_members in Hk2. rewrite fst_zip in Hk2 by (by rewrite length_map, length_seq).
        apply list_elem_of_fmap in Hk2 as (j & -> & Hin%elem_of_seq). simpl in Hj. rewrite (Hj j) in Hv by lia. done.
      * unfold message_members. rewrite fst_zip by (by rewrite length_map, length_seq).
        apply NoDup_fmap_2; [apply msgField_inj|apply NoDup_seq].
  - split; [done|]. intros (msgs' & [= <-] & _ & _ & Hf & Hj).
    pose proof (proj2 (with_messages_spec ms msgs 0 _) (conj eq_refl (conj Hf Hj))). congruence.
  - split; [done|]. intros (msgs' & [= <-] & _ & _ & Hf & Hj).
    pose proof (proj2 (with_messages_spec ms msgs 0 _) (conj eq_refl (conj Hf Hj))). congruence.
Qed.

Lemma msgField_not_msgs j : msgFieldForIndex j <> payloadMsgsField.
Proof.
  intros E%(f_equal String.list_ascii_of_string). unfold msgFieldForIndex in E. rewrite chars_append in E.
  pose proof (pretty_all_digits j) as Hd. injection E as E. rewrite E in Hd. by inversion Hd.
Qed.

(** The members of a flattened payload. *)
Definition flat (ms : Members) (msgs : list JVal) : Members :=
  filter (fun m => m.1 <> payloadMsgsField) (ms ++ message_members 0 msgs).

Lemma flat_message ms msgs j : (forall i, (i < length msgs)%nat -> first_member ms (msgFieldForIndex i) = None) ->
  (j < length msgs)%nat -> first_member (flat ms msgs) (msgFieldForIndex j) = msgs !! j.
Proof.
  intros Hfree Hj. unfold flat. rewrite first_member_filter, decide_False by apply msgField_not_msgs.
  rewrite first_member_app, Hfree by done. apply (message_members_at 0 msgs j).
Qed.
Lemma flat_other ms msgs k : k <> payloadMsgsField ->
  (forall j, (j < length msgs)%nat -> k <> msgFieldForIndex j) -> first_member (flat ms msgs) k = first_member ms k.
Proof.
  intros Hk Hj. unfold flat. rewrite first_member_filter, decide_False, first_member_app by done.
  rewrite (message_members_other 0 msgs k) by done. by destruct (first_member ms k).
Qed.

(** What success of the conversion means. *)
Lemma wrap_inv stack chainID data td ms : ParseBytes data = Some (JObject ms) -> NoDup ms.*1 ->
  WrapTxToTypedData stack chainID data = Ok td ->
  exists msgs types, first_member ms payloadMsgsField = Some (JArray msgs) /\
    (forall j, (j < length msgs)%nat -> first_member ms (msgFieldForIndex j) = None) /\
    add_messages stack (JObject (flat ms msgs)) (length msgs) 0 baseTypes = (Ok tt, types) /\
    td = mkTypedTx types txField (createEIP712Domain chainID) (Value_map (flat ms msgs)).
Proof.
  intros Hparse Hnd. unfold WrapTxToTypedData, createEIP712MessagePayload, unmarshalBytesToJSONObject. rewrite Hparse.
  cbn [IsObject]. unfold mbind, res_bind. destruct (FlattenPayloadMessages (JObject ms)) as [[r n]| |] eqn:Ef; [|done|done].
  apply flatten_spec in Ef as (msgs & Hm & -> & -> & Hf & Hj); [|done]. unfold createEIP712Types. cbn [mp_payload mp_numPayloadMsgs mp_message].
  fold (flat ms msgs). destruct (add_messages stack (JObject (flat ms msgs)) (length msgs) 0 baseTypes) as [[[]|e|e] types] eqn:Ea; [|done|done].
  intros [= <-]. by exists msgs, types.
Qed.



(** *** Field names are read as paths *)

Lemma field_object rec prefix payload k ms : Get payload k = Some (JObject ms) ->
  field_type rec prefix payload k = (t ← rec (prefixForSubField prefix k) (JObject ms); mret (Some (sanitizeTypedef t))).
Proof. intros Hk. unfold field_type. by rewrite Hk. Qed.
Lemma field_string rec prefix payload k s : Get payload k = Some (JString s) ->
  field_type rec prefix payload k = mret (Some ethString).
Proof. intros Hk. unfold field_type. by rewrite Hk. Qed.

Lemma this_key_recursion (Hthis : forall v, Get v "@this" = Some v) s x stack rootType prefix (m : Types) :
  recursivelyAddTypesToRoot stack rootType prefix (JObject [(msgTypeField, JString s); ("@this"%string, x)]) m =
    (Panic StackOverflow, m).
Proof.
  revert prefix m. induction stack as [|stack IH]; intros prefix m; [done|]. set (ms := [_; _]) in *.
  assert (sortedJSONKeys (JObject ms) = Ok [msgTypeField; "@this"%string]) as Hk by (by vm_compute).
  assert (Get (JObject ms) msgTypeField = Some (JString s)) as Ht by (rewrite get_plain by (by vm_compute); done).
  cbn [recursivelyAddTypesToRoot]. rewrite Hk. cbn [wrap_res].
  unfold lift_res at 1, mbind at 1, M_bind at 1. cbn [add_fields].
  rewrite (field_string _ _ _ _ _ Ht), (field_object _ _ _ _ _ (Hthis (JObject ms))).
  unfold lift_res, mbind, M_bind, mret, M_ret. by rewrite IH.
Qed.

(** A field name is handed to gjson as a path: with the documented path [@this], which
    is the value itself, a message that has a field of that name makes the derivation of
    types recurse on the same object until the stack overflows, however large it is;
    the recovery from panics does not help. *)
Theorem this_key_overflows (stack : nat) (field s : string) (x : JVal) (m : Types)
  (Hthis : forall v, Get v "@this" = Some v) (Hs : s <> ""%string) :
  addMsgTypesToRoot stack field (JObject [(msgTypeField, JString s); ("@this"%string, x)]) m = (Panic StackOverflow, m).
Proof.
  unfold addMsgTypesToRoot, doRecover. cbn [IsObject]. unfold require, lift_res, mbind, M_bind, mret, M_ret.
  unfold msgRootType. rewrite get_plain by (by vm_compute). cbn [first_member].
  destruct (decide (msgTypeField = msgTypeField)) as [_|]; [|done]. cbn [Str].
  destruct (decide (s = ""%string)) as [|_]; [done|]. rewrite (this_key_recursion Hthis). by rewrite decide_True.
Qed.
End Flatten.
