(* ===== verification/Keys.v ===== *)
(** * Keys

    The key types of the chain (crypto/ethsecp256k1/ethsecp256k1.go) and the derivation of
    keys (crypto/hd/algorithm.go).  The curve of go-ethereum's crypto package and the
    key chain of btcutil are parameters.  A public key accepts a signature over the bytes
    of a sign document or over its typed data (TypedTx.v). *)

From Stdlib Require Import Strings.Byte.
From stdpp Require Import base gmap list strings.
From S2P Require Import Prelude Sdk Geth EvmTypes Eip712 TypedTx.

Definition PrivKeySize : nat := 32.
Definition PubKeySize : nat := 33.
Definition KeyType : string := "eth_secp256k1".
(** Of go-ethereum's crypto package. *)
Definition DigestLength : nat := 32.
Definition SignatureLength : nat := 65.

(** [ECDSA] is a private key of the curve, [Point] a public one; [Chain] a key of the key
    chain. *)
Class Curve : Type := {
  ECDSA : Type;
  Point : Type;
  Chain : Type;
  ToECDSA : bytes -> res ECDSA;
  FromECDSA : ECDSA -> bytes;
  PublicKey : ECDSA -> Point;
  CompressPubkey : Point -> bytes;
  DecompressPubkey : bytes -> res Point;
  Point_Address : Point -> Address;
  curve_Sign : bytes -> ECDSA -> res bytes;
  (** public key, digest, signature without the recovery byte *)
  curve_Verify : bytes -> bytes -> bytes -> bool;
  ParseDerivationPath : string -> res (list Z);
  NewSeedWithErrorChecking : string -> string -> res bytes;
  NewMaster : bytes -> res Chain;
  chain_Derive : Chain -> Z -> res Chain;
  ECPrivKey : Chain -> res ECDSA
}.

(** A signature verifies under the public key of the key that made it, and is 65 bytes
    with the recovery byte last. *)
Class CurveLaws {C : Curve} : Prop := {
  sign_verify digest key sig : curve_Sign digest key = Ok sig ->
    length sig = SignatureLength /\
    curve_Verify (CompressPubkey (PublicKey key)) digest (take 64 sig) = true;
  sign_total digest key : length digest = DigestLength -> exists sig, curve_Sign digest key = Ok sig;
  decompress_compress p : DecompressPubkey (CompressPubkey p) = Ok p;
  compress_length p : length (CompressPubkey p) = PubKeySize;
  to_from key : ToECDSA (FromECDSA key) = Ok key;
  from_length key : length (FromECDSA key) = PrivKeySize
}.

Section Keys.
Context {G : Geth} {C : Curve}.

(** ** Private keys *)

Definition PrivKey_ToECDSA (privKey : bytes) : res ECDSA := ToECDSA privKey.

Definition PrivKey_PubKey (privKey : bytes) : option bytes :=
  match PrivKey_ToECDSA privKey with
  | Ok ecdsaPrivKey => Some (CompressPubkey (PublicKey ecdsaPrivKey))
  | _ => None
  end.

(** The other key as its type and bytes. *)
Definition Key_Equals (key : bytes) (otherType : string) (other : bytes) : bool :=
  bool_decide (KeyType = otherType) && bool_decide (key = other).

Definition PrivKey_UnmarshalAmino (bz : bytes) : res bytes :=
  if (length bz =? PrivKeySize)%nat then Ok bz else Err (Errorf "invalid privkey size").

Definition PrivKey_Sign (privKey digestBz : bytes) : res bytes :=
  let digestBz := if (length digestBz =? DigestLength)%nat then digestBz else farr_bytes (Keccak256Hash digestBz) in
  key ← PrivKey_ToECDSA privKey;
  curve_Sign digestBz key.

(** ** Public keys *)

(** The empty address for a key that is no point. *)
Definition PubKey_Address (pubKey : bytes) : bytes :=
  match DecompressPubkey pubKey with Ok pubk => farr_bytes (Point_Address pubk) | _ => [] end.

Definition PubKey_UnmarshalAmino (bz : bytes) : res bytes :=
  if (length bz =? PubKeySize)%nat then Ok bz else Err ErrInvalidPubKey.

Definition verifySignatureECDSA (pubKey msg sig : bytes) : bool :=
  let sig := if (length sig =? SignatureLength)%nat then take (length sig - 1) sig else sig in
  curve_Verify pubKey (farr_bytes (Keccak256Hash msg)) sig.

(** ** Derivation *)

Fixpoint derive_path (key : Chain) (hdpath : list Z) : res Chain :=
  match hdpath with
  | [] => Ok key
  | n :: hdpath' => key ← chain_Derive key n; derive_path key hdpath'
  end.
Definition Derive (mnemonic bip39Passphrase path : string) : res bytes :=
  hdpath ← ParseDerivationPath path;
  seed ← NewSeedWithErrorChecking mnemonic bip39Passphrase;
  masterKey ← NewMaster seed;
  key ← derive_path masterKey hdpath;
  privateKey ← ECPrivKey key;
  Ok (FromECDSA privateKey).

(** [copy] into an array of the size of a key: longer input is cut, shorter input padded. *)
Definition Generate (bz : bytes) : bytes :=
  take PrivKeySize bz ++ replicate (PrivKeySize - length bz) x00.

Context {J : Gjson} {Msg : Type} {SC : SignCodecs Msg}.
Variable stack : nat.

(** A panic of the conversion is not recovered here. *)
Definition verifySignatureAsEIP712 (pubKey msg sig : bytes) : res bool :=
  match GetEIP712BytesForMsg stack msg with
  | Ok eip712Bytes => Ok (verifySignatureECDSA pubKey eip712Bytes sig)
  | Err _ => Ok false
  | Panic e => Panic e
  end.

Definition PubKey_VerifySignature (pubKey msg sig : bytes) : res bool :=
  if verifySignatureECDSA pubKey msg sig then Ok true else verifySignatureAsEIP712 pubKey msg sig.

(** ** Signing and verifying *)

Context {CL : CurveLaws}.

Lemma signature_verifies (privKey pubKey msg sig : bytes) :
  PrivKey_PubKey privKey = Some pubKey -> PrivKey_Sign privKey (farr_bytes (Keccak256Hash msg)) = Ok sig ->
  verifySignatureECDSA pubKey msg sig = true.
Proof.
  unfold PrivKey_PubKey, PrivKey_Sign. rewrite (proj2 (Nat.eqb_eq _ _)) by apply farr_length.
  destruct (PrivKey_ToECDSA privKey) as [key| |]; [|done|done]. intros [= <-] Hs.
  destruct (sign_verify _ _ _ Hs) as [Hl Hv]. unfold verifySignatureECDSA. rewrite (proj2 (Nat.eqb_eq _ _)) by done.
  by rewrite Hl.
Qed.

(** C32 A derived key signs what its public key accepts: for the key of every mnemonic and
    path, signing a sign document, or the bytes of its typed data, gives a signature of
    65 bytes that the public key of that key accepts for the document, provided the bytes
    are not mistaken for a digest because they are 32 long; the public key and the private
    key have the sizes their encodings require. *)
Theorem derived_key_signs (mnemonic passphrase path : string) (privKey msg signed : bytes)
  (Hderive : Derive mnemonic passphrase path = Ok privKey)
  (Hsigned : signed = msg \/ GetEIP712BytesForMsg stack msg = Ok signed)
  (Hlength : length signed <> DigestLength) :
  exists pubKey sig, PrivKey_PubKey privKey = Some pubKey /\ PrivKey_Sign privKey signed = Ok sig /\
    length sig = SignatureLength /\ PubKey_VerifySignature pubKey msg sig = Ok true /\
    PrivKey_UnmarshalAmino privKey = Ok privKey /\ PubKey_UnmarshalAmino pubKey = Ok pubKey.
Proof.
  assert (exists key, privKey = FromECDSA key) as [key ->].
  { unfold Derive, mbind, res_bind in Hderive. repeat case_match; try done. injection Hderive as <-. eauto. }
  destruct (sign_total (farr_bytes (Keccak256Hash signed)) key) as [sig Hs]; [apply farr_length|].
  exists (CompressPubkey (PublicKey key)), sig.
  assert (PrivKey_PubKey (FromECDSA key) = Some (CompressPubkey (PublicKey key))) as Hpub.
  { unfold PrivKey_PubKey, PrivKey_ToECDSA. by rewrite to_from. }
  assert (PrivKey_Sign (FromECDSA key) signed = Ok sig) as Hsign.
  { unfold PrivKey_Sign, PrivKey_ToECDSA. rewrite (proj2 (Nat.eqb_neq _ _)), to_from by done. done. }
  assert (verifySignatureECDSA (CompressPubkey (PublicKey key)) signed sig = true) as Hv.
  { apply (signature_verifies (FromECDSA key)); [done|]. unfold PrivKey_Sign, PrivKey_ToECDSA.
    rewrite (proj2 (Nat.eqb_eq _ _)), to_from by apply farr_length. done. }
  split_and!; [done|done|by eapply sign_verify| | |].
  - unfold PubKey_VerifySignature. destruct Hsigned as [->|He]; [by rewrite Hv|].
    case_match; [done|]. unfold verifySignatureAsEIP712. by rewrite He, Hv.
  - unfold PrivKey_UnmarshalAmino. by rewrite from_length.
  - unfold PubKey_UnmarshalAmino. by rewrite compress_length.
Qed.
End Keys.
