(* ===== verification/Staking.v ===== *)
(** * The staking contract

    The methods of the custom precompiled contract for staking
    (x/cpc/keeper/precompiles_staking.go) and the reading of SDK events they use
    (precompiles_util.go).  A method checks its input, sends messages to the staking and
    distribution modules in the name of the caller, and turns the SDK events these
    modules emitted into EVM logs.  The two modules belong to the Cosmos SDK: they are
    the operations of the class [StakingKeepers]. *)

From Stdlib Require Import Strings.Byte.
From stdpp Require Import base gmap list strings sorting.
From S2P Require Import Prelude Sdk Geth EvmTypes EvmStore StateDB Cpc StateDBEffects CpcContracts Eip712.

(** ** The staking and distribution modules *)

(** [sdk.LegacyDec]: an integer number of 10^-18. *)
Abbreviation LegacyDec := Z (only parsing).
Abbreviation DecCoins := (list (string * Z)).
Definition Dec_TruncateInt (d : LegacyDec) : Z := Z.quot d (10 ^ 18).
(** [sdkmath.Int] holds at most 256 bits: a sum above panics. *)
Definition Int_Add (a b : Z) : res Z :=
  if 256 <? BitLen (a + b) then Panic (Errorf "Int overflow") else Ok (a + b).
(** [sdk.NewCoin]: the denom is a parameter of a module, which validates it. *)
Definition NewCoin (denom : string) (amount : Z) : res (string * Z) :=
  if amount <? 0 then Panic (Errorf "negative coin amount") else Ok (denom, amount).

(** An event of [sdk.EventManager]: its type and its attributes. *)
Record SdkEvent : Type := mkSdkEvent {
  event_Type : string;
  event_Attributes : list (string * string)
}.

(** No shares (the zero value of a delegation) are [None]. *)
Record Delegation : Type := mkDelegation {
  del_ValidatorAddress : string;
  del_Shares : option LegacyDec
}.
Record Validator : Type := mkValidator {
  val_Operator : string;
  val_Tokens : Z;
  val_IsBonded : bool;
  val_DelegatorShares : LegacyDec
}.

Record MsgDelegate : Type := mkMsgDelegate {
  delegate_Delegator : string;
  delegate_Validator : string;
  delegate_Amount : string * Z
}.
Record MsgUndelegate : Type := mkMsgUndelegate {
  undelegate_Delegator : string;
  undelegate_Validator : string;
  undelegate_Amount : string * Z
}.
Record MsgBeginRedelegate : Type := mkMsgBeginRedelegate {
  redelegate_Delegator : string;
  redelegate_SrcValidator : string;
  redelegate_DstValidator : string;
  redelegate_Amount : string * Z
}.
Record MsgWithdrawDelegatorReward : Type := mkMsgWithdrawDelegatorReward {
  withdraw_Delegator : string;
  withdraw_Validator : string
}.

(** A message handler may have written when it fails; the handlers of the distribution
    module's queries are run on the live context and may write as well. *)
Class StakingKeepers (S : Type) : Type := {
  (** The events of the context's event manager, oldest first. *)
  Events : S -> list SdkEvent;
  BondDenom : S -> res string;
  GetAllDelegatorDelegations : S -> bytes -> res (list Delegation);
  GetDelegation : S -> bytes -> bytes -> res Delegation;
  GetDelegatorBonded : S -> bytes -> res Z;
  GetValidator : S -> bytes -> res Validator;
  TokensFromShares : Validator -> LegacyDec -> res LegacyDec;
  (** The validators [IterateLastValidators] hands to its callback while this asks for
      more, and what it returns then. *)
  IterateLastValidators : S -> list Validator * res unit;
  DelegationRewards : string -> string -> M S DecCoins;
  (** The rewards per validator and their sum. *)
  DelegationTotalRewards : string -> M S (list (string * DecCoins) * DecCoins);
  Delegate : MsgDelegate -> M S unit;
  Undelegate : MsgUndelegate -> M S unit;
  BeginRedelegate : MsgBeginRedelegate -> M S unit;
  WithdrawDelegatorReward : MsgWithdrawDelegatorReward -> M S unit;
  (** The codec of validator addresses, and the parser of lists of coins. *)
  ValAddr_StringToBytes : string -> res bytes;
  ValAddr_BytesToString : bytes -> res string;
  ParseCoinsNormalized : string -> res Coins
}.

(** The names of the events and attributes of the two modules. *)
Definition EventTypeDelegate : string := "delegate".
Definition EventTypeUnbond : string := "unbond".
Definition EventTypeRedelegate : string := "redelegate".
Definition EventTypeWithdrawRewards : string := "withdraw_rewards".
Definition AttributeKeyValidator : string := "validator".
Definition AttributeKeyDelegator : string := "delegator".
Definition AttributeKeyAmount : string := "amount".
Definition AttributeKeyNewShares : string := "new_shares".
Definition AttributeKeyCompletionTime : string := "completion_time".
Definition AttributeKeySrcValidator : string := "source_validator".
Definition AttributeKeyDstValidator : string := "destination_validator".

(** ** SDK events *)

Record normalizedEvent : Type := mkNormalizedEvent {
  ne_Type : string;
  ne_Attributes : gmap string string
}.

Definition putWantedAttrsByKey (m : normalizedEvent) (attrs : list (string * string)) (wantedKeys : list string) :
    normalizedEvent :=
  let trackingWantedKeys : gset string := list_to_set wantedKeys in
  mkNormalizedEvent (ne_Type m)
    (foldl (fun attributes attr => if decide (attr.1 ∈ trackingWantedKeys) then <[attr.1 := attr.2]> attributes
                                   else attributes)
       (ne_Attributes m) attrs).

Definition requireAttributesCountOrNil (m : normalizedEvent) (count : nat) : option normalizedEvent :=
  if decide (size (ne_Attributes m) = count) then Some m else None.

Definition findEvents (events : list SdkEvent) (filter : SdkEvent -> option normalizedEvent) :
    list normalizedEvent := omap filter events.

(** The events the contract reports, with the attributes it reads; events of these types
    with other attributes are dropped. *)
Definition newNormalizedEvent (event : SdkEvent) (wantAttributesCount : nat) (wantedKeys : list string) :
    option normalizedEvent :=
  if decide (length (event_Attributes event) = wantAttributesCount) then
    requireAttributesCountOrNil
      (putWantedAttrsByKey (mkNormalizedEvent (event_Type event) ∅) (event_Attributes event) wantedKeys)
      wantAttributesCount
  else None.
Definition wantedEvent (event : SdkEvent) : option normalizedEvent :=
  if decide (event_Type event = EventTypeDelegate) then
    newNormalizedEvent event 4
      [AttributeKeyValidator; AttributeKeyDelegator; AttributeKeyAmount; AttributeKeyNewShares]
  else if decide (event_Type event = EventTypeUnbond) then
    newNormalizedEvent event 4
      [AttributeKeyValidator; AttributeKeyDelegator; AttributeKeyAmount; AttributeKeyCompletionTime]
  else if decide (event_Type event = EventTypeRedelegate) then
    newNormalizedEvent event 4
      [AttributeKeySrcValidator; AttributeKeyDstValidator; AttributeKeyAmount; AttributeKeyCompletionTime]
  else if decide (event_Type event = EventTypeWithdrawRewards) then
    newNormalizedEvent event 3 [AttributeKeyAmount; AttributeKeyValidator; AttributeKeyDelegator]
  else None.

Definition getSdkEventsFromEventManager (events : list SdkEvent) : list normalizedEvent :=
  findEvents events wantedEvent.

(** A missing attribute reads as the empty string. *)
Definition ne_attr (event : normalizedEvent) (key : string) : string := default "" (ne_Attributes event !! key).

(** ** The choice of a validator *)

Definition validatorSortFunc (l r : Validator) : comparison :=
  match val_Tokens l ?= val_Tokens r with
  | Eq => String.compare (val_Operator l) (val_Operator r)
  | c => c
  end.
Definition validator_le (l r : Validator) : Prop := validatorSortFunc l r <> Gt.
#[export] Instance validator_le_dec : RelDecision validator_le.
Proof. intros l r. unfold validator_le. apply _. Defined.
(** [slices.SortFunc(validators, validatorSortFunc)] *)
Definition sortValidators (validators : list Validator) : list Validator := merge_sort validator_le validators.

(** ** Methods *)

Section Methods.
Context {S : Type} {K : SdkKeepers S} {SK : StakingKeepers S} {G : Geth} {B : Bech32} {E712 : Eip712Lib}.
Context {JS : Json StakingCustomPrecompiledContractMeta}.
Variable StakingCpcInfo : CustomPrecompiledContractInfo.
Variable metadata : CustomPrecompiledContractMeta.

(** A handler or a query of an SDK module, and a read of its state. *)
Definition in_sdk {A} (m : M S A) : M (Live S) A := in_world (zoom w_sdk set_sdk m).
Definition read_sdk {A} (f : S -> res A) : M (Live S) A := fun l => (f (w_sdk (l_world l)), l).
Definition Unpack (methodName : string) (input : bytes) : M (Live S) (list AbiVal) :=
  lift_res (UnpackMethodInput StakingCpcInfo methodName input).
Definition Pack (methodName : string) (args : list AbiVal) : M (Live S) bytes :=
  lift_res (PackMethodOutput StakingCpcInfo methodName args).

(** The decoded metadata is kept after the first use. *)
Definition GetStakingMetadata : res StakingCustomPrecompiledContractMeta :=
  must_res (json_Unmarshal (meta_TypedMeta metadata)).

Definition minimumRewardWithdrawalAmount : res Z :=
  meta ← GetStakingMetadata;
  oneCoin ← NewIntFromBigInt (10 ^ staking_Decimals meta);
  Ok (Z.quot oneCoin 1000).

(** *** Logs *)

Definition delegate_topic : Hash :=
  HexToHash "0x510b11bb3f3c799b11307c01ab7db0d335683ef5b2da98f7697de744f465eacc".
Definition undelegate_topic : Hash :=
  HexToHash "0xbda8c0e95802a0e6788c3e9027292382d5a41b86556015f846b03a9874b2b827".
Definition withdrawReward_topic : Hash :=
  HexToHash "0xad71f93891cecc86a28a627d5495c28fabbd31cdd2e93851b16ce3421fdab2e5".

Definition staking_log (topic : Hash) (delegator validator : Address) (amount : Z) : Log :=
  mkLog CpcStakingFixedAddress
    [topic; BytesToHash (farr_bytes delegator); BytesToHash (farr_bytes validator)]
    (farr_bytes (BytesToHash (big_Bytes amount))).
Definition emitsEventDelegate (delegator validator : Address) (amount : Z) : M (Live S) unit :=
  cStateDb_AddLog (staking_log delegate_topic delegator validator amount).
Definition emitsEventUnDelegate (delegator validator : Address) (amount : Z) : M (Live S) unit :=
  cStateDb_AddLog (staking_log undelegate_topic delegator validator amount).
Definition emitsEventWithdrawReward (delegator validator : Address) (amount : Z) : M (Live S) unit :=
  cStateDb_AddLog (staking_log withdrawReward_topic delegator validator amount).

(** The amount of the bond denom in the coins of an event. *)
Definition event_amount (bondDenom : string) (event : normalizedEvent) : res Z :=
  coins ← ParseCoinsNormalized (ne_attr event AttributeKeyAmount);
  Ok (AmountOf coins bondDenom).
Definition genericExtractValidatorDelegatorAmount (bondDenom : string) (event : normalizedEvent) :
    res (bytes * bytes * Z) :=
  validator ← ValAddr_StringToBytes (ne_attr event AttributeKeyValidator);
  delegator ← AccAddressFromBech32 (ne_attr event AttributeKeyDelegator);
  amount ← event_amount bondDenom event;
  Ok (validator, delegator, amount).

(** One turn of the loop over the events. *)
Definition emit_event (bondDenom : string) (delegator : bytes) (event : normalizedEvent) : M (Live S) unit :=
  let emit_generic (emits : Address -> Address -> Z -> M (Live S) unit) :=
    '(v, d, amount) ← lift_res (genericExtractValidatorDelegatorAmount bondDenom event);
    if Z.sgn amount =? 1 then emits (BytesToAddress d) (BytesToAddress v) amount else mret tt in
  if decide (ne_Type event = EventTypeDelegate) then emit_generic emitsEventDelegate
  else if decide (ne_Type event = EventTypeUnbond) then emit_generic emitsEventUnDelegate
  else if decide (ne_Type event = EventTypeRedelegate) then
    srcValidator ← lift_res (ValAddr_StringToBytes (ne_attr event AttributeKeySrcValidator));
    dstValidator ← lift_res (ValAddr_StringToBytes (ne_attr event AttributeKeyDstValidator));
    amount ← lift_res (event_amount bondDenom event);
    if Z.sgn amount =? 1 then
      emitsEventUnDelegate (BytesToAddress delegator) (BytesToAddress srcValidator) amount ;;
      emitsEventDelegate (BytesToAddress delegator) (BytesToAddress dstValidator) amount
    else mret tt
  else if decide (ne_Type event = EventTypeWithdrawRewards) then emit_generic emitsEventWithdrawReward
  else mret tt.

(** [len(getSdkEventsFromEventManager(ctx.EventManager()))] *)
Definition stakingEventsCount : M (Live S) nat :=
  gets (fun l => length (getSdkEventsFromEventManager (Events (w_sdk (l_world l))))).

Definition autoEmitEventsFromSdkEvents (originalEventCounts : nat) (delegator : bytes) : M (Live S) unit :=
  events ← gets (fun l => getSdkEventsFromEventManager (Events (w_sdk (l_world l))));
  if (length events <=? originalEventCounts)%nat then err ErrLogic
  else
    let events := if (0 <? originalEventCounts)%nat then drop originalEventCounts events else events in
    bondDenom ← read_sdk BondDenom;
    mapM_ (emit_event bondDenom delegator) events.

(** *** Lookups *)

Definition staking_name (_ _ : Address) (input : bytes) (_ : cpcExecutorEnv) : M (Live S) bytes :=
  _ ← Unpack "name" input; Pack "name" [VString (meta_Name metadata)].

Definition staking_symbol (_ _ : Address) (input : bytes) (_ : cpcExecutorEnv) : M (Live S) bytes :=
  _ ← Unpack "symbol" input; meta ← lift_res GetStakingMetadata; Pack "symbol" [VString (staking_Symbol meta)].

Definition staking_decimals (_ _ : Address) (input : bytes) (_ : cpcExecutorEnv) : M (Live S) bytes :=
  _ ← Unpack "decimals" input; meta ← lift_res GetStakingMetadata; Pack "decimals" [VUint8 (staking_Decimals meta)].

Fixpoint delegated_validators (delegations : list Delegation) (validators : list Address) : res (list Address) :=
  match delegations with
  | [] => Ok validators
  | delegation :: rest =>
      valAddr ← ValAddr_StringToBytes (del_ValidatorAddress delegation);
      delegated_validators rest (validators ++ [BytesToAddress valAddr])
  end.
Definition staking_delegatedValidators (_ _ : Address) (input : bytes) (_ : cpcExecutorEnv) : M (Live S) bytes :=
  ips ← Unpack "delegatedValidators" input;
  delegatorAddr ← lift_res (arg_Address ips 0);
  delegations ← read_sdk (fun s => GetAllDelegatorDelegations s (farr_bytes delegatorAddr));
  validators ← lift_res (delegated_validators delegations []);
  Pack "delegatedValidators" [VAddresses validators].

(** [cpcutils.AbiEncodeUint256]: one word. *)
Definition AbiEncodeUint256 (z : Z) : res bytes := Ok (be_encode 32 z).

Definition staking_delegationOf (_ _ : Address) (input : bytes) (_ : cpcExecutorEnv) : M (Live S) bytes :=
  ips ← Unpack "delegationOf" input;
  delegatorAddr ← lift_res (arg_Address ips 0);
  validatorAddr ← lift_res (arg_Address ips 1);
  delegation ← catch_err (read_sdk (fun s => GetDelegation s (farr_bytes delegatorAddr) (farr_bytes validatorAddr)))
    (fun e => if decide (e = ErrNoDelegation) then mret (mkDelegation "" None) else err e);
  match del_Shares delegation with
  | None => lift_res (AbiEncodeUint256 0)
  | Some shares =>
      if shares =? 0 then lift_res (AbiEncodeUint256 0)
      else
        valAddr ← lift_res (ValAddr_StringToBytes (del_ValidatorAddress delegation));
        validator ← read_sdk (fun s => GetValidator s valAddr);
        tokens ← lift_res (TokensFromShares validator shares);
        Pack "delegationOf" [VBigInt (Dec_TruncateInt tokens)]
  end.

Definition staking_totalDelegationOf (_ _ : Address) (input : bytes) (_ : cpcExecutorEnv) : M (Live S) bytes :=
  ips ← Unpack "totalDelegationOf" input;
  delegatorAddr ← lift_res (arg_Address ips 0);
  bonded ← read_sdk (fun s => GetDelegatorBonded s (farr_bytes delegatorAddr));
  Pack "totalDelegationOf" [VBigInt bonded].

Definition staking_rewardOf (_ _ : Address) (input : bytes) (_ : cpcExecutorEnv) : M (Live S) bytes :=
  ips ← Unpack "rewardOf" input;
  bondDenom ← read_sdk BondDenom;
  delegatorAddr ← lift_res (arg_Address ips 0);
  validatorAddr ← lift_res (arg_Address ips 1);
  valAddrStr ← lift_res (ValAddr_BytesToString (farr_bytes validatorAddr));
  resReward ← catch_err
    (rewards ← in_sdk (DelegationRewards (AccAddressString (farr_bytes delegatorAddr)) valAddrStr); mret (Some rewards))
    (fun e => if decide (e = ErrNoDelegation) then mret None else err e);
  match resReward with
  | None => lift_res (AbiEncodeUint256 0)
  | Some rewards => Pack "rewardOf" [VBigInt (Dec_TruncateInt (AmountOf rewards bondDenom))]
  end.

Definition getTotalRewards (addr : Address) (bondDenom : string) : M (Live S) Z :=
  resRewards ← in_sdk (DelegationTotalRewards (AccAddressString (farr_bytes addr)));
  mret (Dec_TruncateInt (AmountOf resRewards.2 bondDenom)).

Definition staking_rewardsOf (_ _ : Address) (input : bytes) (_ : cpcExecutorEnv) : M (Live S) bytes :=
  ips ← Unpack "rewardsOf" input;
  bondDenom ← read_sdk BondDenom;
  delegatorAddr ← lift_res (arg_Address ips 0);
  totalRewards ← getTotalRewards delegatorAddr bondDenom;
  Pack "rewardsOf" [VBigInt totalRewards].

Definition staking_balanceOf (_ _ : Address) (input : bytes) (_ : cpcExecutorEnv) : M (Live S) bytes :=
  ips ← Unpack "balanceOf" input;
  bondDenom ← read_sdk BondDenom;
  delegatorAddr ← lift_res (arg_Address ips 0);
  totalRewards ← getTotalRewards delegatorAddr bondDenom;
  balance ← gets (fun l => GetBalance (w_sdk (l_world l)) (farr_bytes delegatorAddr) bondDenom);
  sum ← lift_res (Int_Add balance totalRewards);
  Pack "balanceOf" [VBigInt sum].

(** *** Messages to the modules *)

(** [sdk.NewCoin(bondDenom, sdkmath.NewIntFromBigInt(amount))] *)
Definition bond_coin (bondDenom : string) (amount : Z) : M (Live S) (string * Z) :=
  amt ← lift_res (NewIntFromBigInt amount); lift_res (NewCoin bondDenom amt).

Definition delegate (delegator validator : bytes) (amount : string * Z) : M (Live S) unit :=
  valAddrStr ← lift_res (ValAddr_BytesToString validator);
  in_sdk (Delegate (mkMsgDelegate (AccAddressString delegator) valAddrStr amount)).

Definition undelegate (delegator validator : bytes) (amount : string * Z) : M (Live S) unit :=
  valAddrStr ← lift_res (ValAddr_BytesToString validator);
  in_sdk (Undelegate (mkMsgUndelegate (AccAddressString delegator) valAddrStr amount)).

Definition redelegate (delegator srcVal dstVal : bytes) (amount : string * Z) : M (Live S) unit :=
  srcValAddrStr ← lift_res (ValAddr_BytesToString srcVal);
  dstValAddrStr ← lift_res (ValAddr_BytesToString dstVal);
  in_sdk (BeginRedelegate (mkMsgBeginRedelegate (AccAddressString delegator) srcValAddrStr dstValAddrStr amount)).

Definition withdrawRewardWithFormattedAddress (delegator validator : string) : M (Live S) unit :=
  in_sdk (WithdrawDelegatorReward (mkMsgWithdrawDelegatorReward delegator validator)).
Definition withdrawReward (delegator validator : bytes) : M (Live S) unit :=
  valAddrStr ← lift_res (ValAddr_BytesToString validator);
  withdrawRewardWithFormattedAddress (AccAddressString delegator) valAddrStr.

(** The validators whose reward is worth a withdrawal. *)
Definition rewards_to_withdraw (bondDenom : string) (minimumWithdrawalAmount : Z)
    (rewards : list (string * DecCoins)) : list string :=
  omap (fun reward =>
    let amount := Dec_TruncateInt (AmountOf reward.2 bondDenom) in
    if amount <? minimumWithdrawalAmount then None else Some reward.1) rewards.

(** [withdrawRewards]: whether anything was withdrawn. *)
Definition withdrawRewards (delegator : bytes) : M (Live S) bool :=
  let delegatorAddrStr := AccAddressString delegator in
  bondDenom ← read_sdk BondDenom;
  allRewards ← in_sdk (DelegationTotalRewards delegatorAddrStr);
  if (length allRewards.1 <? 1)%nat || Coins_IsZero allRewards.2 then mret false
  else
    minimumWithdrawalAmount ← lift_res minimumRewardWithdrawalAmount;
    let toWithdraw := rewards_to_withdraw bondDenom minimumWithdrawalAmount allRewards.1 in
    if (length toWithdraw <? 1)%nat then mret false
    else
      mapM_ (withdrawRewardWithFormattedAddress delegatorAddrStr) toWithdraw ;;
      mret true.

(** *** Transactions *)

Definition staking_delegate (caller _ : Address) (input : bytes) (_ : cpcExecutorEnv) : M (Live S) bytes :=
  ips ← Unpack "delegate" input;
  bondDenom ← read_sdk BondDenom;
  let delegator := farr_bytes caller in
  valAddr ← lift_res (arg_Address ips 0);
  amount ← lift_res (arg_BigInt ips 1);
  require (negb (Z.sgn amount <? 1)) ErrInvalidCpcInput ;;
  originalStakingEventsCount ← stakingEventsCount;
  coin ← bond_coin bondDenom amount;
  delegate delegator (farr_bytes valAddr) coin ;;
  autoEmitEventsFromSdkEvents originalStakingEventsCount delegator ;;
  Pack "delegate" [VBool true].

Definition staking_undelegate (caller _ : Address) (input : bytes) (_ : cpcExecutorEnv) : M (Live S) bytes :=
  ips ← Unpack "undelegate" input;
  bondDenom ← read_sdk BondDenom;
  let delegator := farr_bytes caller in
  valAddr ← lift_res (arg_Address ips 0);
  amount ← lift_res (arg_BigInt ips 1);
  require (negb (Z.sgn amount <? 1)) ErrInvalidCpcInput ;;
  originalStakingEventsCount ← stakingEventsCount;
  coin ← bond_coin bondDenom amount;
  undelegate delegator (farr_bytes valAddr) coin ;;
  autoEmitEventsFromSdkEvents originalStakingEventsCount delegator ;;
  Pack "undelegate" [VBool true].

Definition staking_redelegate (caller _ : Address) (input : bytes) (_ : cpcExecutorEnv) : M (Live S) bytes :=
  ips ← Unpack "redelegate" input;
  bondDenom ← read_sdk BondDenom;
  let delegator := farr_bytes caller in
  srcValAddr ← lift_res (arg_Address ips 0);
  dstValAddr ← lift_res (arg_Address ips 1);
  amount ← lift_res (arg_BigInt ips 2);
  require (negb (Z.sgn amount <? 1)) ErrInvalidCpcInput ;;
  originalStakingEventsCount ← stakingEventsCount;
  coin ← bond_coin bondDenom amount;
  redelegate delegator (farr_bytes srcValAddr) (farr_bytes dstValAddr) coin ;;
  autoEmitEventsFromSdkEvents originalStakingEventsCount delegator ;;
  Pack "redelegate" [VBool true].

(** The check both methods with a signed message share: the message is the caller's own
    and carries the caller's signature. *)
Definition verify_message {A} {T : TypedMessage A} (delegator : Address) (m : A) (r s : Hash) (v : Z)
    (env : cpcExecutorEnv) : M (Live S) unit :=
  '(matched, _) ← wrap_err (Errorf "failed to verify signature")
    (lift_res (VerifySignature delegator m r s v (eth_ChainID (env_ChainConfig env))));
  require matched (Errorf "signature does not match").

(** An amount that passed the validation is not nil. *)
Definition staking_delegateByActionMessage (caller _ : Address) (input : bytes) (env : cpcExecutorEnv) :
    M (Live S) bytes :=
  ips ← Unpack "delegateByActionMessage" input;
  bondDenom ← read_sdk BondDenom;
  message ← lift_res (arg_any ips 0);
  delegateMessage ← wrap_err (Errorf "failed to parse delegate message")
    (lift_res (StakingMessage_FromUnpackedStruct message));
  lift_res (StakingMessage_Validate ValAddr_StringToBytes delegateMessage bondDenom) ;;
  r ← lift_res (arg_Bytes32 ips 1);
  s ← lift_res (arg_Bytes32 ips 2);
  v ← lift_res (arg_Uint8 ips 3);
  require (bool_decide (caller = sm_Delegator delegateMessage)) (Errorf "not the caller") ;;
  let delegator := sm_Delegator delegateMessage in
  valAddrBz ← lift_res (must_res (ValAddr_StringToBytes (sm_Validator delegateMessage)));
  amount ← lift_res (match sm_Amount delegateMessage with Some amount => Ok amount | None => Panic NilDereference end);
  verify_message delegator delegateMessage r s v env ;;
  originalStakingEventsCount ← stakingEventsCount;
  (if decide (sm_Action delegateMessage = StakingMessageActionDelegate) then
     coin ← bond_coin bondDenom amount;
     delegate (farr_bytes delegator) valAddrBz coin
   else if decide (sm_Action delegateMessage = StakingMessageActionUndelegate) then
     coin ← bond_coin bondDenom amount;
     undelegate (farr_bytes delegator) valAddrBz coin
   else if decide (sm_Action delegateMessage = StakingMessageActionRedelegate) then
     let dstValAddrBz := valAddrBz in
     srcValAddrBz ← lift_res (must_res (ValAddr_StringToBytes (sm_OldValidator delegateMessage)));
     coin ← bond_coin bondDenom amount;
     redelegate (farr_bytes delegator) srcValAddrBz dstValAddrBz coin
   else mret tt) ;;
  autoEmitEventsFromSdkEvents originalStakingEventsCount (farr_bytes delegator) ;;
  Pack "delegateByActionMessage" [VBool true].

Definition staking_withdrawReward (caller _ : Address) (input : bytes) (_ : cpcExecutorEnv) : M (Live S) bytes :=
  ips ← Unpack "withdrawReward" input;
  let delegator := farr_bytes caller in
  valAddr ← lift_res (arg_Address ips 0);
  originalStakingEventsCount ← stakingEventsCount;
  withdrawReward delegator (farr_bytes valAddr) ;;
  autoEmitEventsFromSdkEvents originalStakingEventsCount delegator ;;
  Pack "withdrawReward" [VBool true].

Definition staking_withdrawRewards (caller _ : Address) (input : bytes) (_ : cpcExecutorEnv) : M (Live S) bytes :=
  _ ← Unpack "withdrawRewards" input;
  let delegator := farr_bytes caller in
  originalStakingEventsCount ← stakingEventsCount;
  any ← withdrawRewards delegator;
  autoEmitEventsFromSdkEvents originalStakingEventsCount delegator ;;
  Pack "withdrawRewards" [VBool any].

Definition staking_withdrawRewardsByMessage (caller _ : Address) (input : bytes) (env : cpcExecutorEnv) :
    M (Live S) bytes :=
  ips ← Unpack "withdrawRewardsByMessage" input;
  message ← lift_res (arg_any ips 0);
  withdrawRewardMessage ← wrap_err (Errorf "failed to parse withdraw reward message")
    (lift_res (WithdrawRewardMessage_FromUnpackedStruct message));
  lift_res (WithdrawRewardMessage_Validate ValAddr_StringToBytes withdrawRewardMessage) ;;
  r ← lift_res (arg_Bytes32 ips 1);
  s ← lift_res (arg_Bytes32 ips 2);
  v ← lift_res (arg_Uint8 ips 3);
  require (bool_decide (caller = wm_Delegator withdrawRewardMessage)) (Errorf "not the caller") ;;
  let delegator := wm_Delegator withdrawRewardMessage in
  verify_message delegator withdrawRewardMessage r s v env ;;
  originalStakingEventsCount ← stakingEventsCount;
  any ← (if decide (wm_FromValidator withdrawRewardMessage = WithdrawRewardMessageActionWithdrawFromAllValidators)
         then withdrawRewards (farr_bytes delegator)
         else
           withdrawRewardWithFormattedAddress (AccAddressString (farr_bytes delegator))
             (wm_FromValidator withdrawRewardMessage) ;;
           mret true);
  autoEmitEventsFromSdkEvents originalStakingEventsCount (farr_bytes delegator) ;;
  Pack "withdrawRewardsByMessage" [VBool any].

(** The active validators among the delegated ones, in the order of the delegations. *)
Fixpoint delegatedBonded (delegations : list Delegation) (delegatedBondedValidators : list Validator) :
    M (Live S) (list Validator) :=
  match delegations with
  | [] => mret delegatedBondedValidators
  | delegation :: rest =>
      valAddr ← lift_res (ValAddr_StringToBytes (del_ValidatorAddress delegation));
      validator ← read_sdk (fun s => GetValidator s valAddr);
      if val_IsBonded validator then delegatedBonded rest (delegatedBondedValidators ++ [validator])
      else delegatedBonded rest delegatedBondedValidators
  end.

(** Which validator receives: one of median power when there is no delegation to an
    active validator, else the delegated one of the lowest power. *)
Definition selectValidator (delegatedBondedValidators : list Validator) : M (Live S) (option Validator) :=
  match delegatedBondedValidators with
  | [] =>
      '(bondedValidators, iterated) ← gets (fun l => IterateLastValidators (w_sdk (l_world l)));
      must (forallb val_IsBonded bondedValidators) (Errorf "unexpected unbonded validator") ;;
      lift_res iterated ;;
      mret (if (0 <? length bondedValidators)%nat
            then sortValidators bondedValidators !! (length bondedValidators / 2)%nat else None)
  | [validator] => mret (Some validator)
  | _ => mret (sortValidators delegatedBondedValidators !! 0%nat)
  end.

(** [transfer]: the rewards are withdrawn, then the amount is delegated.  An error of
    [GetAllDelegatorDelegations] is not looked at. *)
Definition staking_transfer (caller _ : Address) (input : bytes) (_ : cpcExecutorEnv) : M (Live S) bytes :=
  ips ← Unpack "transfer" input;
  bondDenom ← read_sdk BondDenom;
  let from := caller in
  to ← lift_res (arg_Address ips 0);
  amount ← lift_res (arg_BigInt ips 1);
  require (negb (bool_decide (from = zero_address))) (Errorf "ERC20InvalidSender") ;;
  require (negb (bool_decide (to = zero_address))) (Errorf "ERC20InvalidReceiver") ;;
  require (bool_decide (from = to)) ErrInvalidCpcInput ;;
  require (negb (Z.sgn amount <? 1)) ErrInvalidCpcInput ;;
  originalStakingEventsCount ← stakingEventsCount;
  _ ← withdrawRewards (farr_bytes caller);
  laterBalance ← gets (fun l => GetBalance (w_sdk (l_world l)) (farr_bytes from) bondDenom);
  require (negb (laterBalance <? amount)) (Errorf "ERC20InsufficientBalance") ;;
  delegations ← catch_err (read_sdk (fun s => GetAllDelegatorDelegations s (farr_bytes from))) (fun _ => mret []);
  delegatedBondedValidators ← delegatedBonded delegations [];
  selectedValidator ← selectValidator delegatedBondedValidators;
  match selectedValidator with
  | None => err (Errorf "failed to select a validator to delegate")
  | Some selected =>
      valAddr ← lift_res (ValAddr_StringToBytes (val_Operator selected));
      coin ← bond_coin bondDenom amount;
      delegate (farr_bytes from) valAddr coin ;;
      autoEmitEventsFromSdkEvents originalStakingEventsCount (farr_bytes from) ;;
      Pack "transfer" [VBool true]
  end.

(** *** The contract *)

Definition GasVerifyEIP712 : Z := 200000.

Definition stakingCustomPrecompiledContractRoName : Executor S := mkExecutor [x06; xfd; xde; x03] 0 true staking_name.
Definition stakingCustomPrecompiledContractRoSymbol : Executor S := mkExecutor [x95; xd8; x9b; x41] 0 true staking_symbol.
Definition stakingCustomPrecompiledContractRoDecimals : Executor S := mkExecutor [x31; x3c; xe5; x67] 0 true staking_decimals.
Definition stakingCustomPrecompiledContractRoDelegatedValidators : Executor S :=
  mkExecutor [x5f; xdb; x55; x0d] 10000 true staking_delegatedValidators.
Definition stakingCustomPrecompiledContractRoDelegationOf : Executor S :=
  mkExecutor [x62; x8d; xa5; x27] 10000 true staking_delegationOf.
Definition stakingCustomPrecompiledContractRoTotalDelegationOf : Executor S :=
  mkExecutor [xa2; xb9; x15; xe2] 10000 true staking_totalDelegationOf.
Definition stakingCustomPrecompiledContractRoRewardOf : Executor S :=
  mkExecutor [x47; x32; xaa; x1d] 10000 true staking_rewardOf.
Definition stakingCustomPrecompiledContractRoRewardsOf : Executor S :=
  mkExecutor [x47; x9b; xa7; xae] 20000 true staking_rewardsOf.
Definition stakingCustomPrecompiledContractRwDelegate : Executor S :=
  mkExecutor [x02; x6e; x40; x2b] 300000 false staking_delegate.
Definition stakingCustomPrecompiledContractRwUnDelegate : Executor S :=
  mkExecutor [x4d; x99; xdd; x16] 200000 false staking_undelegate.
Definition stakingCustomPrecompiledContractRwReDelegate : Executor S :=
  mkExecutor [x6b; xd8; xf8; x04] 500000 false staking_redelegate.
Definition stakingCustomPrecompiledContractRwDelegateByActionMessage : Executor S :=
  mkExecutor [xd7; x3d; x84; x1b] (500000 + GasVerifyEIP712) false staking_delegateByActionMessage.
Definition stakingCustomPrecompiledContractRwWithdrawReward : Executor S :=
  mkExecutor [xb8; x6e; x32; x1c] 200000 false staking_withdrawReward.
Definition stakingCustomPrecompiledContractRwWithdrawRewards : Executor S :=
  mkExecutor [xc7; xb8; x98; x1c] 400000 false staking_withdrawRewards.
Definition stakingCustomPrecompiledContractRwWithdrawRewardsByMessage : Executor S :=
  mkExecutor [x4b; xd7; x01; x75] (RequireGas stakingCustomPrecompiledContractRwWithdrawRewards)
    (ReadOnly stakingCustomPrecompiledContractRwWithdrawRewards) staking_withdrawRewardsByMessage.
Definition stakingCustomPrecompiledContractRoBalanceOf : Executor S :=
  mkExecutor [x70; xa0; x82; x31] (RequireGas stakingCustomPrecompiledContractRoRewardsOf)
    (ReadOnly stakingCustomPrecompiledContractRoRewardsOf) staking_balanceOf.
Definition stakingCustomPrecompiledContractRwTransfer : Executor S :=
  mkExecutor [xa9; x05; x9c; xbb] 800000 false staking_transfer.

Definition NewStakingCustomPrecompiledContract : CustomPrecompiledContract S :=
  mkContract metadata [
    stakingCustomPrecompiledContractRoName;
    stakingCustomPrecompiledContractRoSymbol;
    stakingCustomPrecompiledContractRoDecimals;
    stakingCustomPrecompiledContractRoDelegatedValidators;
    stakingCustomPrecompiledContractRoDelegationOf;
    stakingCustomPrecompiledContractRoTotalDelegationOf;
    stakingCustomPrecompiledContractRoRewardOf;
    stakingCustomPrecompiledContractRoRewardsOf;
    stakingCustomPrecompiledContractRwDelegate;
    stakingCustomPrecompiledContractRwUnDelegate;
    stakingCustomPrecompiledContractRwReDelegate;
    stakingCustomPrecompiledContractRwDelegateByActionMessage;
    stakingCustomPrecompiledContractRwWithdrawReward;
    stakingCustomPrecompiledContractRwWithdrawRewards;
    stakingCustomPrecompiledContractRwWithdrawRewardsByMessage;
    stakingCustomPrecompiledContractRoBalanceOf;
    stakingCustomPrecompiledContractRwTransfer ].
End Methods.

(** ** What the methods may do *)

Section Reads.
Context {S : Type} {SK : StakingKeepers S} (I : Live S -> Prop).
Lemma preserves_read {A} (f : S -> res A) : preserves I (read_sdk f).
Proof. intros l Hl. exact Hl. Qed.
Lemma preserves_delegatedBonded ds acc : preserves I (delegatedBonded ds acc).
Proof.
  revert acc. induction ds as [|d ds IH]; intros acc; simpl; [apply preserves_ret|].
  apply preserves_bind; [apply preserves_lift|intros v]. apply preserves_bind; [apply preserves_read|intros val].
  case_match; apply IH.
Qed.
End Reads.
#[export] Hint Resolve preserves_read preserves_delegatedBonded : evermint.

(** Walk through a method. *)
Ltac steps :=
  repeat first [ progress cbv zeta
               | match goal with |- preserves _ (require (bool_decide (_ = sm_Delegator _)) _ ;; _) =>
                   apply preserves_require_then; intros <- end
               | match goal with |- preserves _ (require (bool_decide (_ = wm_Delegator _)) _ ;; _) =>
                   apply preserves_require_then; intros <- end
               | match goal with |- preserves _ (_ ≫= _) => apply preserves_bind; [|intros ?] end
               | match goal with |- preserves _ (catch_err _ _) => apply preserves_catch; [|intros ?] end
               | progress eauto with evermint
               | case_match ].

Section Effects.
Context {S : Type} {K : SdkKeepers S} {SK : StakingKeepers S} {G : Geth} {B : Bech32} {E712 : Eip712Lib}.
Context {JS : Json StakingCustomPrecompiledContractMeta}.
Variable StakingCpcInfo : CustomPrecompiledContractInfo.
Implicit Types l : Live S.

(** A query of the distribution module, and what a delegator may ask of the modules. *)
Inductive query_step : S -> S -> Prop :=
  | query_rewards d v s : query_step s (snd (DelegationRewards d v s))
  | query_total d s : query_step s (snd (DelegationTotalRewards d s)).
Inductive delegator_step (d : bytes) : S -> S -> Prop :=
  | by_query s s' : query_step s s' -> delegator_step d s s'
  | by_delegate v c s : delegator_step d s (snd (Delegate (mkMsgDelegate (AccAddressString d) v c) s))
  | by_undelegate v c s : delegator_step d s (snd (Undelegate (mkMsgUndelegate (AccAddressString d) v c) s))
  | by_redelegate v w c s :
      delegator_step d s (snd (BeginRedelegate (mkMsgBeginRedelegate (AccAddressString d) v w c) s))
  | by_withdraw v s :
      delegator_step d s (snd (WithdrawDelegatorReward (mkMsgWithdrawDelegatorReward (AccAddressString d) v) s)).

Definition add_logs (new : list Log) (r : Rev) : Rev :=
  mkRev (touched r) (refund r) (selfDestructed r) (rv_accessList r) (logs r ++ new) (transientStorage r).

(** From [l0] to [l] only steps of [R] on the SDK's state and new logs that satisfy [P]. *)
Definition only_steps (R : S -> S -> Prop) (P : Log -> Prop) l0 l : Prop :=
  rtc R (w_sdk (l_world l0)) (w_sdk (l_world l)) /\
  l_world l = set_sdk (w_sdk (l_world l)) (l_world l0) /\
  exists new, l_rev l = add_logs new (l_rev l0) /\ Forall P new.

Lemma only_steps_refl R P l : only_steps R P l l.
Proof.
  split; [apply rtc_refl|]. split; [by destruct l as [[] ?]|]. exists []. split; [|constructor].
  destruct l as [? []]. unfold add_logs. simpl. by rewrite app_nil_r.
Qed.

Section Preserves.
Variables (R : S -> S -> Prop) (P : Log -> Prop) (l0 : Live S).
Abbreviation keeps m := (preserves (only_steps R P l0) m).

Lemma keeps_in_sdk {A} (m : M S A) : (forall s, R s (snd (m s))) -> keeps (in_sdk m).
Proof.
  intros Hm l (Hr & Hw & Hl). unfold in_sdk, in_world, zoom.
  pose proof (Hm (w_sdk (l_world l))) as Hs. destruct (m (w_sdk (l_world l))) as [r s'] eqn:E. simpl in *.
  split; [by eapply rtc_r|]. split; [|done]. simpl. by rewrite Hw.
Qed.
Lemma keeps_log log : P log -> keeps (cStateDb_AddLog log).
Proof.
  intros Hp l (Hr & Hw & new & Hl & Hn). split_and!; [done|done|]. exists (new ++ [log]). simpl. rewrite Hl.
  unfold add_logs. simpl. rewrite app_assoc. split; [done|]. apply Forall_app; auto.
Qed.
End Preserves.
Hint Resolve keeps_in_sdk keeps_log : evermint.
Hint Constructors query_step delegator_step : evermint.

Lemma keeps_emit (R : S -> S -> Prop) P l0 bondDenom d event :
  (forall topic x y z, P (staking_log topic x y z)) ->
  preserves (only_steps R P l0) (emit_event bondDenom d event).
Proof.
  intros Hp. unfold emit_event, emitsEventDelegate, emitsEventUnDelegate, emitsEventWithdrawReward.
  repeat case_decide; repeat first [apply preserves_bind; [|intros ?]|case_match]; eauto with evermint.
Qed.

Section OnlyCaller.
Variables (caller : Address) (l0 : Live S).
Definition by_caller : Live S -> Prop :=
  only_steps (delegator_step (farr_bytes caller)) (fun g => log_Address g = CpcStakingFixedAddress) l0.

Lemma caller_autoEmit n d : preserves by_caller (autoEmitEventsFromSdkEvents n d).
Proof.
  unfold autoEmitEventsFromSdkEvents, by_caller. steps.
  all: apply preserves_mapM; intros event; by apply keeps_emit.
Qed.
Lemma caller_delegate v c : preserves by_caller (delegate (farr_bytes caller) v c).
Proof. unfold delegate, by_caller. steps. Qed.
Lemma caller_undelegate v c : preserves by_caller (undelegate (farr_bytes caller) v c).
Proof. unfold undelegate, by_caller. steps. Qed.
Lemma caller_redelegate v w c : preserves by_caller (redelegate (farr_bytes caller) v w c).
Proof. unfold redelegate, by_caller. steps. Qed.
Lemma caller_withdraw v :
  preserves by_caller (withdrawRewardWithFormattedAddress (AccAddressString (farr_bytes caller)) v).
Proof. unfold withdrawRewardWithFormattedAddress, by_caller. steps. Qed.
Lemma caller_withdrawRewards md : preserves by_caller (withdrawRewards md (farr_bytes caller)).
Proof.
  unfold withdrawRewards, by_caller. steps. all: apply preserves_mapM; intros v; apply caller_withdraw.
Qed.
Lemma caller_selectValidator vs : preserves by_caller (selectValidator vs).
Proof. unfold selectValidator, by_caller. steps. Qed.
End OnlyCaller.
Hint Resolve caller_autoEmit caller_delegate caller_undelegate caller_redelegate caller_withdraw
  caller_withdrawRewards caller_selectValidator : evermint.

Lemma staking_methods_only_caller md (e : Executor S) caller contract input env l :
  e ∈ GetMethodExecutors (NewStakingCustomPrecompiledContract StakingCpcInfo md) ->
  let l' := snd (Execute e caller contract input env l) in
  if ReadOnly e then only_steps query_step (fun _ => False) l l' else by_caller caller l l'.
Proof.
  intros Hin l'. subst l'. pose proof (only_steps_refl (delegator_step (farr_bytes caller))
    (fun g => log_Address g = CpcStakingFixedAddress) l) as Hw.
  pose proof (only_steps_refl query_step (fun _ => False) l) as Hq.
  fold (by_caller caller l l) in Hw.
  assert (if ReadOnly e then preserves (only_steps query_step (fun _ => False) l) (Execute e caller contract input env)
          else preserves (by_caller caller l) (Execute e caller contract input env)) as H; cycle 1.
  { destruct (ReadOnly e); by apply H. }
  clear Hw Hq. unfold NewStakingCustomPrecompiledContract in Hin. cbn [GetMethodExecutors] in Hin.
  repeat (apply elem_of_cons in Hin as [->|Hin]); [..|by apply not_elem_of_nil in Hin];
    lazymatch goal with |- context [ReadOnly ?m] => let m' := eval hnf in m in change m with m' end;
    cbn [Execute ReadOnly stakingCustomPrecompiledContractRwWithdrawRewards stakingCustomPrecompiledContractRoRewardsOf].
  all: unfold staking_name, staking_symbol, staking_decimals, staking_delegatedValidators, staking_delegationOf,
    staking_totalDelegationOf, staking_rewardOf, staking_rewardsOf, staking_balanceOf, getTotalRewards,
    staking_delegate, staking_undelegate, staking_redelegate, staking_delegateByActionMessage,
    staking_withdrawReward, withdrawReward, staking_withdrawRewards, staking_withdrawRewardsByMessage,
    staking_transfer, verify_message, Unpack, Pack, bond_coin, stakingEventsCount.
  all: steps.
Qed.
End Effects.

(** ** The selected validator *)

Section Selection.
Context {S : Type} {SK : StakingKeepers S}.
Implicit Types (v u : Validator) (vs : list Validator).

Lemma validator_le_iff v u :
  validator_le v u <->
    val_Tokens v < val_Tokens u \/
    (val_Tokens v = val_Tokens u /\ String.le (val_Operator v) (val_Operator u)).
Proof.
  unfold validator_le, validatorSortFunc, String.le, String.leb.
  destruct (Z.compare_spec (val_Tokens v) (val_Tokens u)) as [E|E|E].
  - destruct (_ ?= _)%string; naive_solver lia.
  - naive_solver.
  - split; [done|lia].
Qed.

#[local] Instance validator_le_trans : Transitive validator_le.
Proof.
  intros v u w. rewrite !validator_le_iff. intros [H1|[H1 H1']] [H2|[H2 H2']]; try (left; lia).
  right. split; [lia|]. by transitivity (val_Operator u).
Qed.
#[local] Instance validator_le_total : Total validator_le.
Proof.
  intros v u. rewrite !validator_le_iff. destruct (Z.lt_total (val_Tokens v) (val_Tokens u)) as [|[|]]; [auto| |auto].
  destruct (total String.le (val_Operator v) (val_Operator u)); auto with lia.
Qed.
#[local] Instance validator_le_refl : Reflexive validator_le.
Proof. intros v. by destruct (total validator_le v v). Qed.

Lemma sortValidators_sorted vs : StronglySorted validator_le (sortValidators vs).
Proof. apply StronglySorted_merge_sort; apply _. Qed.
Lemma sortValidators_perm vs : sortValidators vs ≡ₚ vs.
Proof. apply merge_sort_Permutation. Qed.

(** No two validators have the same operator address. *)
Definition distinct vs : Prop := NoDup (val_Operator <$> vs).

Lemma distinct_inj vs v u : distinct vs -> v ∈ vs -> u ∈ vs -> val_Operator v = val_Operator u -> v = u.
Proof.
  unfold distinct. intros Hnd Hv Hu E.
  apply list_elem_of_lookup in Hv as [i Hi], Hu as [j Hj].
  assert (i = j) as ->; [|congruence].
  eapply (NoDup_lookup _ i j (val_Operator v) Hnd); rewrite list_lookup_fmap, ?Hi, ?Hj; simpl; congruence.
Qed.

(** Whatever the algorithm, there is one sorted arrangement. *)
Lemma sorted_unique vs vs' :
  distinct vs -> vs' ≡ₚ vs -> StronglySorted validator_le vs' -> vs' = sortValidators vs.
Proof.
  intros Hnd Hp Hs. apply (StronglySorted_unique_strong validator_le); [|done|apply sortValidators_sorted|].
  - intros v u Hv Hu H1%validator_le_iff H2%validator_le_iff. rewrite Hp in Hv.
    rewrite sortValidators_perm in Hu. apply (distinct_inj vs); [done..|].
    destruct H1 as [|[? H1]], H2 as [|[? H2]]; [lia..|]. by apply (anti_symm String.le).
  - by rewrite sortValidators_perm.
Qed.

Lemma sort_nth vs i v :
  sortValidators vs !! i = Some v ->
  exists below above, vs ≡ₚ below ++ v :: above /\ length below = i /\
    Forall (fun u => validator_le u v) below /\ Forall (validator_le v) above.
Proof.
  intros Hi. pose proof (sortValidators_sorted vs) as Hs. pose proof (sortValidators_perm vs) as Hp.
  pose proof (lookup_lt_Some _ _ _ Hi) as Hlt. apply take_drop_middle in Hi. rewrite <- Hi in Hs, Hp.
  exists (take i (sortValidators vs)), (drop (Datatypes.S i) (sortValidators vs)).
  apply StronglySorted_app in Hs as (Hc & _ & Hs). apply StronglySorted_inv in Hs as [_ Hv].
  split_and!; [by rewrite Hp|rewrite length_take; lia| |done].
  apply Forall_forall. intros u Hu. apply (Hc u v Hu). left.
Qed.

(** Of several delegated validators, the first of the sorted ones. *)
Lemma select_first vs l :
  vs <> [] -> exists v, selectValidator (S := S) vs l = (Ok (Some v), l) /\ sortValidators vs !! 0%nat = Some v.
Proof.
  intros Hne. destruct (sortValidators vs !! 0%nat) as [v|] eqn:E; cycle 1.
  { apply lookup_ge_None in E. rewrite sortValidators_perm in E. destruct vs; simpl in E; [done|lia]. }
  exists v. split; [|done]. destruct vs as [|u [|w vs]]; [done| |by unfold selectValidator; rewrite E].
  apply sort_nth in E as (b & a & Hp & Hb & _). apply Permutation_singleton_l in Hp.
  destruct b; simplify_eq/=. done.
Qed.

Lemma select_perm vs vs' l :
  distinct vs -> vs' ≡ₚ vs -> selectValidator (S := S) vs' l = selectValidator vs l.
Proof.
  intros Hd Hp. destruct (decide (vs = [])) as [->|Hne]; [by apply Permutation_nil_r in Hp as ->|].
  assert (vs' <> []) as Hne' by (intros ->; by apply Permutation_nil_l in Hp).
  destruct (select_first vs l Hne) as (v & -> & E), (select_first vs' l Hne') as (v' & -> & E').
  rewrite (sorted_unique vs (sortValidators vs') Hd) in E'; [congruence| |apply sortValidators_sorted].
  by rewrite sortValidators_perm.
Qed.

(** What is selected from the delegated active validators [vs] and all active ones. *)
Definition selection_ok (vs bonded : list Validator) (r : option Validator) : Prop :=
  match vs, bonded with
  | [], [] => r = None
  | [], _ => exists v below above, r = Some v /\ bonded ≡ₚ below ++ v :: above /\
      length below = (length bonded / 2)%nat /\
      Forall (fun u => validator_le u v) below /\ Forall (validator_le v) above
  | _, _ => exists v, r = Some v /\ v ∈ vs /\ Forall (validator_le v) vs
  end.

Lemma select_ok vs bonded (l : Live S) :
  IterateLastValidators (w_sdk (l_world l)) = (bonded, Ok tt) ->
  Forall (fun v => val_IsBonded v = true) bonded ->
  exists r, selectValidator vs l = (Ok r, l) /\ selection_ok vs bonded r.
Proof.
  intros Hlast Hbonded.
  destruct (decide (vs = [])) as [->|Hne].
  - unfold selectValidator. munfold. rewrite Hlast.
    assert (forallb val_IsBonded bonded = true) as ->.
    { apply forallb_forall. intros v Hv. rewrite Forall_forall in Hbonded. by apply Hbonded, list_elem_of_In. }
    cbv beta iota. destruct (Nat.ltb_spec 0 (length bonded)) as [Hlt|Hge]; cycle 1.
    { destruct bonded; simpl in Hge; [|lia]. by exists None. }
    assert (length bonded / 2 < length bonded)%nat as Hi by (apply Nat.div_lt; lia).
    rewrite <- (sortValidators_perm bonded) in Hi at 2. apply lookup_lt_is_Some in Hi as [v Hv].
    exists (Some v). rewrite Hv. split; [done|]. apply sort_nth in Hv as (b & a & Hv).
    destruct bonded; [simpl in Hlt; lia|]. exists v, b, a. split; [done|exact Hv].
  - destruct (select_first vs l Hne) as (v & -> & (b & a & Hp & Hb & _ & Ha)%sort_nth). exists (Some v).
    split; [done|]. destruct b; [|done]. simpl in Hp.
    assert (exists v0, Some v = Some v0 /\ v0 ∈ vs /\ Forall (validator_le v0) vs) as Hx.
    { exists v. split_and!; [done|rewrite Hp; left|]. rewrite Hp. constructor; [done|done]. }
    by destruct vs.
Qed.

(** Which validator [transfer] delegates to: with delegations to active validators the
    one of the lowest power among these, ties broken by the operator's address; without,
    the middle one by power of all active validators, and none only when there is
    none.  The choice does not depend on the order in which the store lists the
    delegations, nor on the algorithm that sorts. *)
Theorem selectValidator_spec (vs bonded : list Validator) (l : Live S)
  (Hlast : IterateLastValidators (w_sdk (l_world l)) = (bonded, Ok tt))
  (Hbonded : Forall (fun v => val_IsBonded v = true) bonded) (Hdistinct : distinct vs) :
  exists r, selectValidator vs l = (Ok r, l) /\ selection_ok vs bonded r /\
    (forall vs', vs' ≡ₚ vs -> selectValidator vs' l = (Ok r, l)) /\
    (forall ws sorted, distinct ws -> sorted ≡ₚ ws -> StronglySorted validator_le sorted ->
       sorted = sortValidators ws).
Proof.
  destruct (select_ok vs bonded l Hlast Hbonded) as (r & Hr & Hspec).
  exists r. split_and!; [done..| |intros; by apply sorted_unique].
  intros vs' Hp. rewrite <- Hr. by apply select_perm.
Qed.
End Selection.

(** ** Logs and events *)

(** An event manager is only appended to: whatever a handler or a query does, the events
    that were there remain, in front. *)
Definition appends {S A} {SK : StakingKeepers S} (m : M S A) : Prop :=
  forall s, exists new, Events (snd (m s)) = Events s ++ new.
Class StakingLaws (S : Type) `{SK : StakingKeepers S} : Prop := {
  rewards_appends d v : appends (DelegationRewards d v);
  total_appends d : appends (DelegationTotalRewards d);
  delegate_appends m : appends (Delegate m);
  undelegate_appends m : appends (Undelegate m);
  redelegate_appends m : appends (BeginRedelegate m);
  withdraw_appends m : appends (WithdrawDelegatorReward m)
}.
#[export] Hint Resolve rewards_appends total_appends delegate_appends undelegate_appends redelegate_appends
  withdraw_appends : evermint.

Section Reports.
Context {S : Type} {K : SdkKeepers S} {SK : StakingKeepers S} {SL : StakingLaws S} {G : Geth} {B : Bech32}.
Context {E712 : Eip712Lib} {JS : Json StakingCustomPrecompiledContractMeta}.
Variable StakingCpcInfo : CustomPrecompiledContractInfo.
Implicit Types l : Live S.
Abbreviation events_of l := (Events (w_sdk (l_world l))).

(** The logs of an event: none when it moved no bond denom; a redelegation is an
    undelegation and a delegation. *)
Definition event_logs (bondDenom : string) (delegator : Address) (event : normalizedEvent) : res (list Log) :=
  let one (topic : Hash) :=
    '(v, d, amount) ← genericExtractValidatorDelegatorAmount bondDenom event;
    Ok (if 0 <? amount then [staking_log topic (BytesToAddress d) (BytesToAddress v) amount] else []) in
  if decide (ne_Type event = EventTypeDelegate) then one delegate_topic
  else if decide (ne_Type event = EventTypeUnbond) then one undelegate_topic
  else if decide (ne_Type event = EventTypeRedelegate) then
    src ← ValAddr_StringToBytes (ne_attr event AttributeKeySrcValidator);
    dst ← ValAddr_StringToBytes (ne_attr event AttributeKeyDstValidator);
    amount ← event_amount bondDenom event;
    Ok (if 0 <? amount then [staking_log undelegate_topic delegator (BytesToAddress src) amount;
                             staking_log delegate_topic delegator (BytesToAddress dst) amount] else [])
  else if decide (ne_Type event = EventTypeWithdrawRewards) then one withdrawReward_topic
  else Ok [].

(** From [l0] to [l]: the logs added are those of the events emitted in between, and
    there was at least one. *)
Definition reported (delegator : Address) l0 l : Prop :=
  exists new bondDenom ls, events_of l = events_of l0 ++ new /\
    getSdkEventsFromEventManager new <> [] /\ BondDenom (w_sdk (l_world l)) = Ok bondDenom /\
    Forall2 (fun event logs => event_logs bondDenom delegator event = Ok logs)
      (getSdkEventsFromEventManager new) ls /\
    l_rev l = add_logs (concat ls) (l_rev l0).

Lemma sgn_pos z : (Z.sgn z =? 1) = (0 <? z).
Proof. destruct z; done. Qed.

Lemma add_logs_app ls ls' r : add_logs ls' (add_logs ls r) = add_logs (ls ++ ls') r.
Proof. unfold add_logs. simpl. by rewrite app_assoc. Qed.
Lemma add_logs_nil r : add_logs [] r = r.
Proof. destruct r. unfold add_logs. simpl. by rewrite app_nil_r. Qed.

(** The state with more logs. *)
Definition log_all (ls : list Log) l : Live S := mkLive (l_world l) (add_logs ls (l_rev l)).
Lemma log_all_nil l : log_all [] l = l.
Proof. destruct l. unfold log_all. simpl. by rewrite add_logs_nil. Qed.

Lemma emit_event_logs bondDenom (delegator : Address) event l l' :
  emit_event bondDenom (farr_bytes delegator) event l = (Ok tt, l') ->
  exists ls, event_logs bondDenom delegator event = Ok ls /\ l' = log_all ls l.
Proof.
  unfold emit_event, event_logs, emitsEventDelegate, emitsEventUnDelegate, emitsEventWithdrawReward,
    cStateDb_AddLog, BytesToAddress. rewrite ?farr_of_bytes.
  repeat case_decide; munfold; rewrite ?sgn_pos; intros E; simplify_eq/=; repeat mstep; eexists; (split; [done|]);
    unfold log_all, on_rev, add_logs; simpl; rewrite <- ?app_assoc, ?app_nil_r;
    rewrite ?sgn_pos in *; first [congruence|by destruct l as [? []]|by destruct l' as [? []]].
Qed.

Lemma emit_events_logs bondDenom (delegator : Address) events l l' :
  mapM_ (emit_event bondDenom (farr_bytes delegator)) events l = (Ok tt, l') ->
  exists ls, Forall2 (fun event logs => event_logs bondDenom delegator event = Ok logs) events ls /\
    l' = log_all (concat ls) l.
Proof.
  revert l. induction events as [|event events IH]; intros l; simpl.
  - intros [= <-]. exists []. split; [constructor|]. by rewrite log_all_nil.
  - intros ([] & l1 & (ls & Hls & ->)%emit_event_logs & (lss & Hlss & ->)%IH)%bind_ok_inv.
    exists (ls :: lss). split; [by constructor|]. unfold log_all. simpl. by rewrite add_logs_app.
Qed.

(** Nothing was logged, and events were only appended. *)
Definition quiet_since l0 l : Prop := l_rev l = l_rev l0 /\ exists new, events_of l = events_of l0 ++ new.

Lemma events_app (e1 e2 : list SdkEvent) :
  getSdkEventsFromEventManager (e1 ++ e2) = getSdkEventsFromEventManager e1 ++ getSdkEventsFromEventManager e2.
Proof. apply omap_app. Qed.

(** [autoEmitEventsFromSdkEvents] reports exactly what was emitted since the count. *)
Lemma autoEmit_reported (caller : Address) l0 l l' :
  quiet_since l0 l ->
  autoEmitEventsFromSdkEvents (length (getSdkEventsFromEventManager (events_of l0))) (farr_bytes caller) l = (Ok tt, l') ->
  reported caller l0 l'.
Proof.
  intros (Hrev & new & Hnew). unfold autoEmitEventsFromSdkEvents, mbind, M_bind, gets, read_sdk, err.
  rewrite Hnew, events_app, length_app.
  destruct (Nat.leb_spec (length (getSdkEventsFromEventManager (events_of l0)) +
    length (getSdkEventsFromEventManager new)) (length (getSdkEventsFromEventManager (events_of l0)))) as [|Hlt]; [done|].
  destruct (BondDenom (w_sdk (l_world l))) as [bondDenom|e|e] eqn:Eb; [|done|done].
  replace (if (0 <? _)%nat then _ else _) with (getSdkEventsFromEventManager new); cycle 1.
  { destruct (Nat.ltb_spec 0 (length (getSdkEventsFromEventManager (events_of l0)))) as [|H0].
    - by rewrite drop_app_length.
    - destruct (getSdkEventsFromEventManager (events_of l0)); simpl in *; [done|lia]. }
  intros (ls & Hls & ->)%emit_events_logs. exists new, bondDenom, ls.
  split_and!; [done| |done|done|by simpl; rewrite Hrev]. intros E. rewrite E in Hlt. simpl in Hlt. lia.
Qed.

Section Quiet.
Variable l0 : Live S.
Abbreviation quiet m := (preserves (quiet_since l0) m).
Lemma quiet_in_sdk {A} (m : M S A) : appends m -> quiet (in_sdk m).
Proof.
  intros Hm l (Hrev & new & Hnew). unfold in_sdk, in_world, zoom.
  destruct (Hm (w_sdk (l_world l))) as [new' Hnew']. destruct (m (w_sdk (l_world l))) as [r s'].
  split; [done|]. exists (new ++ new'). simpl in *. by rewrite Hnew', Hnew, app_assoc.
Qed.
End Quiet.
Hint Resolve quiet_in_sdk : evermint.

(** A computation that ends by reporting what happened since [l0]. *)
Definition reports_since (caller : Address) l0 {A} (m : M (Live S) A) : Prop :=
  forall l a l', quiet_since l0 l -> m l = (Ok a, l') -> reported caller l0 l'.
Definition reports (caller : Address) {A} (m : M (Live S) A) : Prop :=
  forall l a l', m l = (Ok a, l') -> reported caller l l'.
Definition leaves {A} (m : M (Live S) A) : Prop := forall l, snd (m l) = l.

Lemma reports_bind caller {A C} (m : M (Live S) A) (f : A -> M (Live S) C) :
  leaves m -> (forall a, reports caller (f a)) -> reports caller (m ≫= f).
Proof.
  intros Hm Hf l c l' (a & l1 & Hl1 & Hl')%bind_ok_inv. specialize (Hm l). rewrite Hl1 in Hm. simpl in Hm. subst l1.
  by eapply Hf.
Qed.
Lemma reports_require caller {C} (Q : Prop) `{!Decision Q} e (m : M (Live S) C) :
  (Q -> reports caller m) -> reports caller (require (bool_decide Q) e ;; m).
Proof.
  intros Hm. destruct (bool_decide_reflect Q) as [HQ|]; [|intros l c l' H; discriminate H].
  apply reports_bind; [done|]. intros _. by apply Hm.
Qed.
Lemma reports_count caller {C} (f : nat -> M (Live S) C) :
  (forall l0, reports_since caller l0 (f (length (getSdkEventsFromEventManager (events_of l0))))) ->
  reports caller (stakingEventsCount ≫= f).
Proof.
  intros Hf l c l' H. refine (Hf l l c l' _ H). split; [done|]. exists []. by rewrite app_nil_r.
Qed.
Lemma reports_since_bind caller l0 {A C} (m : M (Live S) A) (f : A -> M (Live S) C) :
  preserves (quiet_since l0) m -> (forall a, reports_since caller l0 (f a)) -> reports_since caller l0 (m ≫= f).
Proof.
  intros Hm Hf l c l' Hq (a & l1 & Hl1 & Hl')%bind_ok_inv. specialize (Hm l Hq). rewrite Hl1 in Hm. exact (Hf a l1 c l' Hm Hl').
Qed.
Lemma reports_since_end caller l0 (methodName : string) args :
  reports_since caller l0
    (autoEmitEventsFromSdkEvents (length (getSdkEventsFromEventManager (events_of l0))) (farr_bytes caller) ;;
     Pack StakingCpcInfo methodName args).
Proof.
  intros l a l' Hq ([] & l1 & Hl1 & Hl')%bind_ok_inv. unfold Pack, lift_res in Hl'. simplify_eq.
  by eapply autoEmit_reported.
Qed.

Section QuietMethods.
Variable l0 : Live S.
Lemma quiet_delegate d v c : preserves (quiet_since l0) (delegate d v c).
Proof. unfold delegate. steps. Qed.
Lemma quiet_undelegate d v c : preserves (quiet_since l0) (undelegate d v c).
Proof. unfold undelegate. steps. Qed.
Lemma quiet_redelegate d v w c : preserves (quiet_since l0) (redelegate d v w c).
Proof. unfold redelegate. steps. Qed.
Lemma quiet_withdraw d v : preserves (quiet_since l0) (withdrawRewardWithFormattedAddress d v).
Proof. unfold withdrawRewardWithFormattedAddress. steps. Qed.
Lemma quiet_withdrawRewards md d : preserves (quiet_since l0) (withdrawRewards md d).
Proof. unfold withdrawRewards, withdrawRewardWithFormattedAddress. steps. Qed.
Lemma quiet_selectValidator vs : preserves (quiet_since l0) (selectValidator vs).
Proof. unfold selectValidator. steps. Qed.
End QuietMethods.
Hint Resolve quiet_delegate quiet_undelegate quiet_redelegate quiet_withdraw quiet_withdrawRewards
  quiet_selectValidator : evermint.

Lemma leaves_verify {A} {T : TypedMessage A} delegator (m : A) r s v env :
  leaves (verify_message delegator m r s v env).
Proof. intros l. unfold verify_message. munfold. by destruct (VerifySignature _ _ _ _ _ _) as [[[] ?]| |]. Qed.

Ltac report :=
  repeat first [ progress cbv zeta
               | apply reports_count; intros ?
               | apply reports_since_end
               | match goal with
                 | |- reports _ (require (bool_decide (_ = sm_Delegator _)) _ ;; _) => apply reports_require; intros <-
                 | |- reports _ (require (bool_decide (_ = wm_Delegator _)) _ ;; _) => apply reports_require; intros <-
                 | |- reports _ (_ ≫= _) => apply reports_bind; [by apply leaves_verify || (intros ?; unfold read_sdk; munfold; by repeat case_match)|intros ?]
                 | |- reports_since _ _ (_ ≫= _) => apply reports_since_bind; [by steps|intros ?]
                 | |- reports_since _ _ (match ?x with _ => _ end) => destruct x; [|intros ? ? ? _ [=]]
                 end ].

Lemma staking_methods_report md (e : Executor S) caller contract input env :
  e ∈ GetMethodExecutors (NewStakingCustomPrecompiledContract StakingCpcInfo md) -> ReadOnly e = false ->
  reports caller (Execute e caller contract input env).
Proof.
  intros Hin. unfold NewStakingCustomPrecompiledContract in Hin. cbn [GetMethodExecutors] in Hin.
  repeat (apply elem_of_cons in Hin as [->|Hin]); [..|by apply not_elem_of_nil in Hin]; intros Hro;
    try discriminate Hro; clear Hro;
    lazymatch goal with |- context [Execute ?m] => let m' := eval hnf in m in change m with m' end; cbn [Execute].
  all: unfold staking_delegate, staking_undelegate, staking_redelegate, staking_delegateByActionMessage,
    staking_withdrawReward, withdrawReward, staking_withdrawRewards, staking_withdrawRewardsByMessage,
    staking_transfer, Unpack, bond_coin.
  all: report.
Qed.
End Reports.

(** ** Properties *)

Section Properties.
Context {S : Type} {K : SdkKeepers S} {SK : StakingKeepers S} {G : Geth} {B : Bech32} {E712 : Eip712Lib}.
Context {JS : Json StakingCustomPrecompiledContractMeta}.
Variable StakingCpcInfo : CustomPrecompiledContractInfo.
Implicit Types l : Live S.

(** C19 Nobody can move another account's stake through the contract: whatever the input
    and the outcome of any method, the state changes only by messages whose delegator
    is the caller and by queries of the distribution module, all other stores are
    untouched, and every new log is the contract's own; a read-only method sends no
    message and adds no log. *)
Theorem staking_only_the_caller (md : CustomPrecompiledContractMeta) (e : Executor S)
  (caller contract : Address) (input : bytes) (env : cpcExecutorEnv) (l : Live S)
  (Hin : e ∈ GetMethodExecutors (NewStakingCustomPrecompiledContract StakingCpcInfo md)) :
  let l' := snd (Execute e caller contract input env l) in
  if ReadOnly e then only_steps query_step (fun _ => False) l l'
  else only_steps (delegator_step (farr_bytes caller)) (fun g => log_Address g = CpcStakingFixedAddress) l l'.
Proof. by apply (staking_methods_only_caller StakingCpcInfo md). Qed.

(** C20 The logs of a transaction of the contract are those of the SDK events it caused:
    when a method that writes succeeds, the logs it added are, in order, exactly those
    of the staking and reward events emitted since it started, whatever earlier calls in
    the same context had emitted, and there is at least one such event. *)
Theorem staking_logs_exact {SL : StakingLaws S} (md : CustomPrecompiledContractMeta) (e : Executor S)
  (caller contract : Address) (input out : bytes) (env : cpcExecutorEnv) (l l' : Live S)
  (Hin : e ∈ GetMethodExecutors (NewStakingCustomPrecompiledContract StakingCpcInfo md))
  (Hwrites : ReadOnly e = false) (Hok : Execute e caller contract input env l = (Ok out, l')) :
  exists new bondDenom ls, Events (w_sdk (l_world l')) = Events (w_sdk (l_world l)) ++ new /\
    getSdkEventsFromEventManager new <> [] /\ BondDenom (w_sdk (l_world l')) = Ok bondDenom /\
    Forall2 (fun event logs => event_logs bondDenom caller event = Ok logs)
      (getSdkEventsFromEventManager new) ls /\
    l_rev l' = add_logs (concat ls) (l_rev l).
Proof. by eapply (staking_methods_report StakingCpcInfo md). Qed.

(** [withdrawRewards] answers false only after its query. *)
Lemma withdrawRewards_false md d l l1 :
  withdrawRewards md d l = (Ok false, l1) ->
  l1 = snd (in_sdk (DelegationTotalRewards (AccAddressString d)) l).
Proof.
  unfold withdrawRewards, read_sdk. munfold.
  destruct (BondDenom _); [|done|done]. destruct (in_sdk _ l) as [[rewards| |] l2]; [|done|done].
  destruct (_ || _); [by intros [= <-]|]. destruct (minimumRewardWithdrawalAmount md); [|done|done].
  destruct (_ <? 1)%nat; [by intros [= <-]|].
  destruct (mapM_ _ _ _) as [[] ?]; done.
Qed.

Lemma autoEmit_nothing n d l :
  length (getSdkEventsFromEventManager (Events (w_sdk (l_world l)))) = n ->
  autoEmitEventsFromSdkEvents n d l = (Err ErrLogic, l).
Proof.
  intros <-. unfold autoEmitEventsFromSdkEvents. munfold. by rewrite Nat.leb_refl.
Qed.

(** [withdrawRewards] never reports that there was nothing to withdraw: the flag it
    computes is false when no reward reaches the minimum, but then no event was emitted
    and the call fails; a call that succeeds returns true. *)
Theorem withdrawRewards_never_false (md : CustomPrecompiledContractMeta) (caller contract : Address)
  (input : bytes) (env : cpcExecutorEnv) (l : Live S) (ips : list AbiVal)
  (Hinput : UnpackMethodInput StakingCpcInfo "withdrawRewards" input = Ok ips)
  (Hquery : forall d s, Events (snd (DelegationTotalRewards d s)) = Events s) :
  (forall l1, withdrawRewards md (farr_bytes caller) l = (Ok false, l1) ->
     staking_withdrawRewards StakingCpcInfo md caller contract input env l = (Err ErrLogic, l1)) /\
  (forall out l', staking_withdrawRewards StakingCpcInfo md caller contract input env l = (Ok out, l') ->
     PackMethodOutput StakingCpcInfo "withdrawRewards" [VBool true] = Ok out).
Proof.
  unfold staking_withdrawRewards, Unpack, stakingEventsCount. rewrite Hinput.
  assert (forall l1, withdrawRewards md (farr_bytes caller) l = (Ok false, l1) ->
    autoEmitEventsFromSdkEvents (length (getSdkEventsFromEventManager (Events (w_sdk (l_world l)))))
      (farr_bytes caller) l1 = (Err ErrLogic, l1)) as Hfalse.
  { intros l1 ->%withdrawRewards_false. apply autoEmit_nothing. unfold in_sdk, in_world, zoom.
    specialize (Hquery (AccAddressString (farr_bytes caller)) (w_sdk (l_world l))).
    destruct (DelegationTotalRewards _ _) as [r s']. simpl in *. by rewrite Hquery. }
  unfold mbind, M_bind, lift_res, gets. split.
  - intros l1 H. rewrite H. by rewrite Hfalse.
  - intros out l'. destruct (withdrawRewards md (farr_bytes caller) l) as [[[]|?|?] l1] eqn:E; [| |done|done].
    + destruct (autoEmitEventsFromSdkEvents _ _ l1) as [[]]; [|done|done]. unfold Pack, lift_res. by intros [= ->].
    + by rewrite (Hfalse l1 eq_refl).
Qed.

Lemma verify_ok {A} {T : TypedMessage A} delegator (m : A) r s v env l l' :
  verify_message delegator m r s v env l = (Ok tt, l') ->
  l' = l /\ VerifySignature delegator m r s v (eth_ChainID (env_ChainConfig env)) = Ok (true, delegator).
Proof.
  unfold verify_message. munfold.
  destruct (VerifySignature _ _ _ _ _ _) as [[[] a]|e|e] eqn:Ev; intros [= <-]. split; [done|].
  f_equal. f_equal. unfold VerifySignature in Ev. munfold. repeat mstep.
  match goal with H : bool_decide _ = true |- _ => by apply bool_decide_eq_true in H end.
Qed.

(** The message, and its signature, that the input of a method carries. *)
Definition carries {A} (method : string) (parse : AbiVal -> res A) (input : bytes) (m : A) (r s : Hash) (v : Z) : Prop :=
  exists ips x, UnpackMethodInput StakingCpcInfo method input = Ok ips /\ arg_any ips 0 = Ok x /\ parse x = Ok m /\
    arg_Bytes32 ips 1 = Ok r /\ arg_Bytes32 ips 2 = Ok s /\ arg_Uint8 ips 3 = Ok v.

Lemma wrap_lift_ok {A} e (x : res A) l a l' : wrap_err e (lift_res x) l = (Ok a, l') -> x = Ok a /\ l' = l.
Proof. munfold. by destruct x; intros [= <- <-]. Qed.

(** A signed message acts only for its signer: when [delegateByActionMessage] or
    [withdrawRewardsByMessage] succeeds, the message its input carries names the caller as
    the delegator, passed the validation, and the signature in the input recovers the
    caller over that message's typed data for the chain the EVM runs. *)
Theorem signed_message_needed (md : CustomPrecompiledContractMeta) (caller contract : Address)
  (input out : bytes) (env : cpcExecutorEnv) (l l' : Live S) :
  (staking_delegateByActionMessage StakingCpcInfo caller contract input env l = (Ok out, l') ->
   exists bondDenom m r s v, BondDenom (w_sdk (l_world l)) = Ok bondDenom /\
     carries "delegateByActionMessage" StakingMessage_FromUnpackedStruct input m r s v /\ sm_Delegator m = caller /\
     StakingMessage_Validate ValAddr_StringToBytes m bondDenom = Ok tt /\
     VerifySignature caller m r s v (eth_ChainID (env_ChainConfig env)) = Ok (true, caller)) /\
  (staking_withdrawRewardsByMessage StakingCpcInfo md caller contract input env l = (Ok out, l') ->
   exists m r s v, carries "withdrawRewardsByMessage" WithdrawRewardMessage_FromUnpackedStruct input m r s v /\
     wm_Delegator m = caller /\ WithdrawRewardMessage_Validate ValAddr_StringToBytes m = Ok tt /\
     VerifySignature caller m r s v (eth_ChainID (env_ChainConfig env)) = Ok (true, caller)).
Proof.
  split.
  - unfold staking_delegateByActionMessage. intros H.
    apply bind_ok_inv in H as (ips & l1 & H1 & H). apply bind_ok_inv in H as (bondDenom & l2 & H2 & H).
    apply bind_ok_inv in H as (x & l3 & H3 & H). apply bind_ok_inv in H as (m & l4 & [H4 ->]%wrap_lift_ok & H).
    apply bind_ok_inv in H as ([] & l5 & H5 & H). apply bind_ok_inv in H as (r & l6 & H6 & H).
    apply bind_ok_inv in H as (s & l7 & H7 & H). apply bind_ok_inv in H as (v & l8 & H8 & H).
    apply bind_ok_inv in H as ([] & l9 & H9 & H). apply bind_ok_inv in H as (vb & l10 & H10 & H).
    apply bind_ok_inv in H as (am & l11 & H11 & H). apply bind_ok_inv in H as ([] & l12 & [_ Hv]%verify_ok & _).
    destruct (bool_decide_reflect (caller = sm_Delegator m)) as [->|]; [|discriminate H9].
    unfold Unpack, lift_res, read_sdk in *. simplify_eq. exists bondDenom, m, r, s, v.
    split_and!; [done| |done..]. by exists ips, x.
  - unfold staking_withdrawRewardsByMessage. intros H.
    apply bind_ok_inv in H as (ips & l1 & H1 & H). apply bind_ok_inv in H as (x & l3 & H3 & H).
    apply bind_ok_inv in H as (m & l4 & [H4 ->]%wrap_lift_ok & H). apply bind_ok_inv in H as ([] & l5 & H5 & H).
    apply bind_ok_inv in H as (r & l6 & H6 & H). apply bind_ok_inv in H as (s & l7 & H7 & H).
    apply bind_ok_inv in H as (v & l8 & H8 & H). apply bind_ok_inv in H as ([] & l9 & H9 & H).
    apply bind_ok_inv in H as ([] & l12 & [_ Hv]%verify_ok & _).
    destruct (bool_decide_reflect (caller = wm_Delegator m)) as [->|]; [|discriminate H9].
    unfold Unpack, lift_res in *. simplify_eq. exists m, r, s, v. split_and!; [|done..]. by exists ips, x.
Qed.

(** The event of a delegation, as the staking module emits it. *)
Definition delegate_event (validator delegator amount newShares : string) : SdkEvent :=
  mkSdkEvent EventTypeDelegate [(AttributeKeyValidator, validator); (AttributeKeyDelegator, delegator);
    (AttributeKeyAmount, amount); (AttributeKeyNewShares, newShares)].

Lemma delegate_event_wanted v d a n :
  exists event, wantedEvent (delegate_event v d a n) = Some event /\ ne_Type event = EventTypeDelegate /\
    ne_attr event AttributeKeyValidator = v /\ ne_attr event AttributeKeyDelegator = d /\
    ne_attr event AttributeKeyAmount = a.
Proof. eexists. split; [vm_compute; reflexivity|]. by vm_compute. Qed.

(** One new event that is a delegation of the caller. *)
Lemma autoEmit_delegate (caller validator : Address) amount bondDenom event l n :
  getSdkEventsFromEventManager (Events (w_sdk (l_world l))) =
    take n (getSdkEventsFromEventManager (Events (w_sdk (l_world l)))) ++ [event] ->
  length (getSdkEventsFromEventManager (Events (w_sdk (l_world l)))) = Datatypes.S n ->
  BondDenom (w_sdk (l_world l)) = Ok bondDenom -> ne_Type event = EventTypeDelegate -> 0 < amount ->
  genericExtractValidatorDelegatorAmount bondDenom event = Ok (farr_bytes validator, farr_bytes caller, amount) ->
  autoEmitEventsFromSdkEvents n (farr_bytes caller) l =
    (Ok tt, log_all [staking_log delegate_topic caller validator amount] l).
Proof.
  intros Hev Hlen Hb Ht Ha Hx. unfold autoEmitEventsFromSdkEvents, read_sdk. munfold. rewrite Hlen.
  destruct (Nat.leb_spec (Datatypes.S n) n); [lia|]. rewrite Hb.
  replace (if (0 <? n)%nat then _ else _) with [event]; cycle 1.
  { destruct (Nat.ltb_spec 0 n); rewrite Hev; [rewrite drop_app_length'; [done|rewrite length_take; lia]|].
    by replace n with 0%nat by lia. }
  simpl. unfold emit_event. munfold. rewrite Ht, decide_True by done. rewrite Hx, sgn_pos.
  destruct (Z.ltb_spec 0 amount); [|lia]. unfold BytesToAddress. by rewrite !farr_of_bytes.
Qed.

(** [delegate] in full: a positive amount that the staking module accepts is delegated
    in the caller's name to the validator whose address was given, in the bond denom,
    and when the module emits its event the one log added is
    Delegate(caller, validator, amount), whatever other events surround it. *)
Theorem staking_delegate_spec (caller contract validator : Address) (amount : Z) (input out : bytes)
  (env : cpcExecutorEnv) (l : Live S) (s' : S) (bondDenom valStr amountStr newShares : string)
  (before after : list SdkEvent)
  (Hinput : UnpackMethodInput StakingCpcInfo "delegate" input = Ok [VAddress validator; VBigInt amount])
  (Houtput : PackMethodOutput StakingCpcInfo "delegate" [VBool true] = Ok out)
  (Hamount : 0 < amount < 2 ^ 256)
  (Hbond : BondDenom (w_sdk (l_world l)) = Ok bondDenom /\ BondDenom s' = Ok bondDenom)
  (Hval : ValAddr_BytesToString (farr_bytes validator) = Ok valStr /\
          ValAddr_StringToBytes valStr = Ok (farr_bytes validator))
  (Hacc : AccAddressFromBech32 (AccAddressString (farr_bytes caller)) = Ok (farr_bytes caller))
  (Hcoins : ParseCoinsNormalized amountStr = Ok [(bondDenom, amount)])
  (Hmodule : Delegate (mkMsgDelegate (AccAddressString (farr_bytes caller)) valStr (bondDenom, amount))
               (w_sdk (l_world l)) = (Ok tt, s'))
  (Hevents : Events s' = Events (w_sdk (l_world l)) ++
     before ++ [delegate_event valStr (AccAddressString (farr_bytes caller)) amountStr newShares] ++ after)
  (Hothers : getSdkEventsFromEventManager before = [] /\ getSdkEventsFromEventManager after = []) :
  staking_delegate StakingCpcInfo caller contract input env l =
    (Ok out, mkLive (set_sdk s' (l_world l)) (add_logs [staking_log delegate_topic caller validator amount] (l_rev l))).
Proof.
  destruct Hbond as [Hb Hb'], Hval as [Hv Hv'], Hothers as [Hbf Haf].
  unfold staking_delegate, Unpack, Pack, stakingEventsCount, read_sdk, bond_coin, delegate, in_sdk, in_world, NewCoin.
  munfold. rewrite Hinput, Hb. cbn [arg_Address arg_BigInt lookup list_lookup]. simpl.
  destruct (Z.ltb_spec (Z.sgn amount) 1) as [Hs|_]; [destruct amount; simpl in Hs; lia|]. simpl.
  rewrite NewInt_ok by lia. destruct (Z.ltb_spec amount 0); [lia|]. rewrite Hv, Hmodule. simpl.
  destruct (delegate_event_wanted valStr (AccAddressString (farr_bytes caller)) amountStr newShares)
    as (event & Hw & Ht & Ea1 & Ea2 & Ea3).
  assert (getSdkEventsFromEventManager (Events s') =
    getSdkEventsFromEventManager (Events (w_sdk (l_world l))) ++ [event]) as Hnew.
  { rewrite Hevents, !events_app, Hbf, Haf, app_nil_r. simpl. unfold getSdkEventsFromEventManager at 2. simpl.
    by rewrite Hw. }
  rewrite (autoEmit_delegate caller validator amount bondDenom event (mkLive (set_sdk s' (l_world l)) (l_rev l))).
  - rewrite Houtput. reflexivity.
  - cbn [l_world w_sdk set_sdk]. by rewrite Hnew, take_app_length.
  - cbn [l_world w_sdk set_sdk]. rewrite Hnew, length_app. simpl. lia.
  - exact Hb'.
  - exact Ht.
  - lia.
  - unfold genericExtractValidatorDelegatorAmount, event_amount. munfold.
    rewrite Ea1, Ea2, Ea3, Hv', Hacc, Hcoins. simpl. by rewrite decide_True.
Qed.
End Properties.
