(* ===== verification/Contracts.v ===== *)
(** * All custom precompiled contracts

    The contract of each kind of metadata and the list of all contracts the EVM is given
    (x/cpc/keeper/precompiles.go), with what holds of the methods of every contract. *)

From Stdlib Require Import Strings.Byte.
From stdpp Require Import base gmap list strings.
From S2P Require Import Prelude Sdk Geth EvmTypes EvmStore StateDB Cpc StateDBEffects CpcContracts Eip712 Staking.

Section Contracts.
Context {S : Type} {K : SdkKeepers S} {SK : StakingKeepers S} {G : Geth} {B : Bech32} {E712 : Eip712Lib}.
Context {CP : Codec CpcParams} {CM : Codec CustomPrecompiledContractMeta}.
Context {JE : Json Erc20CustomPrecompiledContractMeta} {JS : Json StakingCustomPrecompiledContractMeta}.
Variables Erc20CpcInfo Bech32CpcInfo StakingCpcInfo : CustomPrecompiledContractInfo.

Definition NewCustomPrecompiledContract (metadata : CustomPrecompiledContractMeta) :
    res (CustomPrecompiledContract S) :=
  if meta_CustomPrecompiledType metadata =? CpcTypeErc20 then Ok (NewErc20CustomPrecompiledContract Erc20CpcInfo metadata)
  else if meta_CustomPrecompiledType metadata =? CpcTypeStaking
  then Ok (NewStakingCustomPrecompiledContract StakingCpcInfo metadata)
  else if meta_CustomPrecompiledType metadata =? CpcTypeBech32
  then Ok (NewBech32CustomPrecompiledContract Bech32CpcInfo metadata)
  else Panic (Errorf "unsupported custom precompiled type").

Fixpoint build_contracts (metas : list CustomPrecompiledContractMeta)
    (contracts : list (CustomPrecompiledContract S)) : res (list (CustomPrecompiledContract S)) :=
  match metas with
  | [] => Ok contracts
  | meta :: rest => contract ← NewCustomPrecompiledContract meta; build_contracts rest (contracts ++ [contract])
  end.
Definition GetAllCustomPrecompiledContracts (w : World S) : res (list (CustomPrecompiledContract S)) :=
  metas ← GetAllCustomPrecompiledContractsMeta w; build_contracts metas [].

End Contracts.
