(* ===== verification/StateTransition.v ===== *)
(** * The state transition

    How an Ethereum message is applied: the checks, the intrinsic gas, the EVM call and
    the gas refund (x/evm/keeper/state_transition_core.go).  The EVM and the
    configuration it runs with, the receipt and the commit are in TxExecution.v.

    The transition is a program of StateDB calls.  The EVM itself belongs to
    go-ethereum: [evm_Call] and [evm_Create] are programs of StateDB calls too, the
    parameters of the class [EvmEngine]. *)

From Stdlib Require Import Strings.Byte.
From stdpp Require Import base gmap list strings.
From S2P Require Import Prelude Sdk Geth EvmTypes ChainId GasMeter EvmStore AccessList StateDB SnapshotStack.
From S2P Require Import Programs StateDBEffects FeeMarket Cpc CpcContracts.

(** ** The EVM *)

(** A custom precompiled contract as the EVM is given it. *)
Record EvmCustomContract (S : Type) : Type := mkEvmCustomContract {
  custom_Address : Address;
  custom_Methods : list (bytes * Z * bool * (Address -> Address -> bytes -> M (Live S) bytes));
  custom_Name : string
}.
Arguments mkEvmCustomContract {S}.
Arguments custom_Address {S}.
Arguments custom_Methods {S}.
Arguments custom_Name {S}.

(** The block and transaction contexts and the configuration of a [corevm.EVM].  There
    is no source of randomness, so [Context.Random] is nil. *)
Record EVM (S : Type) : Type := mkEVM {
  evm_ChainConfig : EthChainConfig;
  evm_GetHash : Z -> res Hash;
  evm_Coinbase : Address;
  evm_GasLimit : Z;
  evm_BlockNumber : Z;
  evm_Time : Z;
  evm_BaseFee : Z;
  evm_Origin : Address;
  evm_GasPrice : Z;
  evm_NoBaseFee : bool;
  evm_ExtraEips : list Z;
  evm_CustomContracts : list (EvmCustomContract S)
}.
Arguments mkEVM {S}.
Arguments evm_ChainConfig {S}.
Arguments evm_GetHash {S}.
Arguments evm_Coinbase {S}.
Arguments evm_GasLimit {S}.
Arguments evm_BlockNumber {S}.
Arguments evm_Time {S}.
Arguments evm_BaseFee {S}.
Arguments evm_Origin {S}.
Arguments evm_GasPrice {S}.
Arguments evm_NoBaseFee {S}.
Arguments evm_ExtraEips {S}.
Arguments evm_CustomContracts {S}.

(** What a call of the EVM returns: data, the gas left, and the VM error. *)
Abbreviation CallResult := (list Byte.byte * Z * option gerr)%type.

Class EvmEngine (S : Type) : Type := {
  (** [evm.Call(caller, addr, input, gas, value)] *)
  evm_Call : EVM S -> Address -> Address -> bytes -> Z -> Z -> Prog S CallResult;
  (** [evm.Create(caller, code, gas, value)] *)
  evm_Create : EVM S -> Address -> bytes -> Z -> Z -> Prog S CallResult;
  (** [core.CanTransfer(db, addr, amount)] *)
  CanTransfer : Address -> Z -> Prog S bool
}.

(** Documented behaviour: an execution never leaves more gas than it was given, and
    [CanTransfer] compares the balance. *)
Class EvmEngineLaws (S : Type) `{G : Geth} `{E : EvmEngine S} : Prop := {
  call_gas evm a b data gas v : is_u64 gas ->
    prog_post (fun r => 0 <= snd (fst r) <= gas) (evm_Call evm a b data gas v);
  create_gas evm a code gas v : is_u64 gas ->
    prog_post (fun r => 0 <= snd (fst r) <= gas) (evm_Create evm a code gas v);
  can_transfer a v : CanTransfer a v =
    Call (OGetBalance a) (fun ans => Ret match ans with AZ b => v <=? b | _ => false end);
  (** The intrinsic gas is a [uint64] or an error. *)
  intrinsic_range data al c h i g : IntrinsicGas data al c h i = Ok g -> is_u64 g;
  intrinsic_no_panic data al c h i e : IntrinsicGas data al c h i = Panic e -> False
}.

(** ** The transition *)

Record ST : Type := mkST {
  st_gp : Z;
  st_msg : Message;
  st_gas : Z;
  st_gasPrice : Z;
  st_gasFeeCap : Z;
  st_gasTipCap : Z;
  st_initialGas : Z;
  st_value : Z;
  st_data : bytes;
  SenderPaidTheFee : bool
}.

Record ExecutionResult : Type := mkExecutionResult {
  UsedGas : Z;
  exec_Err : option gerr;
  ReturnData : bytes
}.

(** [params.RefundQuotient] and [params.RefundQuotientEIP3529] *)
Definition RefundQuotient : Z := 2.
Definition RefundQuotientEIP3529 : Z := 5.

Section Transition.
Context {S : Type} {K : SdkKeepers S} {G : Geth} {E : EvmEngine S}.

(** A method of [StateTransition]: it changes its fields and calls the StateDB. *)
Definition STM (A : Type) : Type := ST -> Prog S (res A * ST).
#[export] Instance STM_ret : MRet STM := fun _ a st => Ret (Ok a, st).
#[export] Instance STM_bind : MBind STM := fun _ _ f m st =>
  prog_bind (m st) (fun '(r, st') =>
    match r with
    | Ok a => f a st'
    | Err e => Ret (Err e, st')
    | Panic e => Ret (Panic e, st')
    end).

Definition st_lift {A} (r : res A) : STM A := fun st => Ret (r, st).
Definition st_require (b : bool) (e : gerr) : STM unit := st_lift (if b then Ok tt else Err e).
Definition st_get {A} (f : ST -> A) : STM A := fun st => Ret (Ok (f st), st).
Definition st_put (f : ST -> ST) : STM unit := fun st => Ret (Ok tt, f st).
Definition st_prog {A} (p : Prog S A) : STM A := fun st => prog_bind p (fun a => Ret (Ok a, st)).
Definition st_call (o : sdbop S) : STM sdbans := st_prog (Call o Ret).
Definition st_call_Z (o : sdbop S) : STM Z :=
  ans ← st_call o; mret match ans with AZ z => z | _ => 0 end.
Definition st_call_Hash (o : sdbop S) : STM Hash :=
  ans ← st_call o; mret match ans with AHash h => h | _ => zero_hash end.

Definition set_gas (gas : Z) (st : ST) : ST :=
  mkST (st_gp st) (st_msg st) gas (st_gasPrice st) (st_gasFeeCap st) (st_gasTipCap st) (st_initialGas st)
    (st_value st) (st_data st) (SenderPaidTheFee st).
Definition set_gp (gp : Z) (st : ST) : ST :=
  mkST gp (st_msg st) (st_gas st) (st_gasPrice st) (st_gasFeeCap st) (st_gasTipCap st) (st_initialGas st)
    (st_value st) (st_data st) (SenderPaidTheFee st).
Definition set_initialGas (gas : Z) (st : ST) : ST :=
  mkST (st_gp st) (st_msg st) (st_gas st) (st_gasPrice st) (st_gasFeeCap st) (st_gasTipCap st) gas
    (st_value st) (st_data st) (SenderPaidTheFee st).

Definition NewStateTransition (msg : Message) (gp : Z) : ST :=
  mkST gp msg 0 (msg_GasPrice msg) (msg_GasFeeCap msg) (msg_GasTipCap msg) 0 (msg_Value msg) (msg_Data msg) false.
Definition set_SenderPaidTheFee (paid : bool) (st : ST) : ST :=
  mkST (st_gp st) (st_msg st) (st_gas st) (st_gasPrice st) (st_gasFeeCap st) (st_gasTipCap st) (st_initialGas st)
    (st_value st) (st_data st) paid.

Definition st_to (st : ST) : Address := default zero_address (msg_To (st_msg st)).

(** The fee was charged before: only the gas pool is charged. *)
Definition buyGas : STM unit :=
  gp ← st_get st_gp;
  gas ← st_get (fun st => msg_Gas (st_msg st));
  gp' ← st_lift (GasPool_SubGas gp gas);
  st_put (set_gp gp') ;;
  st_put (set_initialGas gas) ;;
  st_put (fun st => set_gas (add64 (st_gas st) gas) st).

Definition checkNonceAndSender (from : Address) (msgNonce : Z) : STM unit :=
  stNonce ← st_call_Z (OGetNonce from);
  st_require (negb (stNonce <? msgNonce)) ErrNonceTooHigh ;;
  st_require (negb (msgNonce <? stNonce)) ErrNonceTooLow ;;
  st_require (negb (add64 stNonce 1 <? stNonce)) ErrNonceMax ;;
  codeHash ← st_call_Hash (OGetCodeHash from);
  st_require (bool_decide (codeHash = EmptyCodeHash) || bool_decide (codeHash = zero_hash)) ErrSenderNoEOA.

Definition checkFeeCaps (evm : EVM S) (gasFeeCap gasTipCap : Z) : STM unit :=
  st_require (negb (256 <? BitLen gasFeeCap)) ErrFeeCapVeryHigh ;;
  st_require (negb (256 <? BitLen gasTipCap)) ErrTipVeryHigh ;;
  st_require (negb (gasFeeCap <? gasTipCap)) ErrTipAboveFeeCap ;;
  st_require (negb (gasFeeCap <? evm_BaseFee evm)) ErrFeeCapTooLow.

Definition preCheck (evm : EVM S) : STM unit :=
  st ← st_get id;
  (if msg_IsFake (st_msg st) then mret tt
   else checkNonceAndSender (msg_From (st_msg st)) (msg_Nonce (st_msg st))) ;;
  (if chain_IsLondon (evm_ChainConfig evm) (evm_BlockNumber evm) then
     if negb (evm_NoBaseFee evm) || (0 <? BitLen (st_gasFeeCap st)) || (0 <? BitLen (st_gasTipCap st))
     then checkFeeCaps evm (st_gasFeeCap st) (st_gasTipCap st) else mret tt
   else mret tt) ;;
  buyGas.

Definition gasUsed (st : ST) : Z := sub64 (st_initialGas st) (st_gas st).

Definition refundGas (refundQuotient : Z) : STM unit :=
  used ← st_get gasUsed;
  counter ← st_call_Z OGetRefund;
  let refund := used / refundQuotient in
  refund ← (if counter <? refund then st_call_Z OGetRefund else mret refund);
  st_put (fun st => set_gas (add64 (st_gas st) refund) st) ;;
  st ← st_get id;
  (if SenderPaidTheFee st then
     _ ← st_call (OAddBalance (msg_From (st_msg st)) (st_gas st * st_gasPrice st)); mret tt
   else mret tt) ;;
  gp ← st_lift (GasPool_AddGas (st_gp st) (st_gas st));
  st_put (set_gp gp).

(** The execution proper: access list, nonce and the call of the EVM. *)
Definition execute (evm : EVM S) (rules : Rules) : STM CallResult :=
  st ← st_get id;
  let msg := st_msg st in
  (if IsBerlin rules then
     _ ← st_call (OPrepareAccessList (msg_From msg) (msg_To msg)
           (ActivePrecompiles rules ++ (custom_Address <$> evm_CustomContracts evm)) (msg_AccessList msg));
     mret tt
   else mret tt) ;;
  match msg_To msg with
  | None => st_prog (evm_Create evm (msg_From msg) (st_data st) (st_gas st) (st_value st))
  | Some _ =>
      nonce ← st_call_Z (OGetNonce (msg_From msg));
      _ ← st_call (OSetNonce (msg_From msg) (add64 nonce 1));
      st_prog (evm_Call evm (msg_From msg) (st_to st) (st_data st) (st_gas st) (st_value st))
  end.

Definition TransitionDb (evm : EVM S) : STM ExecutionResult :=
  preCheck evm ;;
  st ← st_get id;
  let msg := st_msg st in
  let rules := chain_Rules (evm_ChainConfig evm) (evm_BlockNumber evm) false in
  let contractCreation := bool_decide (msg_To msg = None) in
  gas ← st_lift (IntrinsicGas (st_data st) (msg_AccessList msg) contractCreation (IsHomestead rules) (IsIstanbul rules));
  st_require (negb (st_gas st <? gas)) ErrIntrinsicGas ;;
  st_put (fun st => set_gas (sub64 (st_gas st) gas) st) ;;
  (if 0 <? msg_Value msg then
     can ← st_prog (CanTransfer (msg_From msg) (msg_Value msg));
     st_require can ErrInsufficientFundsForTransfer
   else mret tt) ;;
  r ← execute evm rules;
  let '(ret, gasLeft, vmerr) := r in
  st_put (set_gas gasLeft) ;;
  refundGas (if IsLondon rules then RefundQuotientEIP3529 else RefundQuotient) ;;
  used ← st_get gasUsed;
  mret (mkExecutionResult used vmerr ret).

Definition ApplyMessage_core (evm : EVM S) (msg : Message) (gp : Z) (beforeRun : ST -> ST) :
    Prog S (res ExecutionResult * ST) :=
  TransitionDb evm (beforeRun (NewStateTransition msg gp)).
End Transition.
Arguments STM S A : clear implicits.


(** ** Rejected messages *)

Section RejectProofs.
Context {S : Type} {K : SdkKeepers S} {G : Geth} {E : EvmEngine S} {EL : EvmEngineLaws S}.

Definition rejected {A} (x : res A * ST) : Prop := match fst x with Err _ => True | _ => False end.

(** The method makes no call that writes. *)
Definition stm_reads {A} (m : STM S A) : Prop := forall st, reads_only (m st).
(** The method does not return an error value. *)
Definition stm_no_err {A} (m : STM S A) : Prop := forall st, prog_all (fun x => ~ rejected x) (m st).

Lemma reads_only_bind {A B} (p : Prog S A) (f : A -> Prog S B) :
  reads_only p -> (forall a, reads_only (f a)) -> reads_only (prog_bind p f).
Proof. intros Hp Hf. induction p as [a|o k IH]; simpl in *; [apply Hf|]. split; [apply Hp|]. intros. by apply IH, Hp. Qed.

Lemma stm_reads_bind {A B} (m : STM S A) (f : A -> STM S B) :
  stm_reads m -> (forall a, stm_reads (f a)) -> stm_reads (m ≫= f).
Proof. intros Hm Hf st. apply reads_only_bind; [apply Hm|]. intros [[a|e|e] st']; [apply Hf|done|done]. Qed.
Lemma stm_reads_ret {A} (a : A) : stm_reads (mret a). Proof. intros st. exact I. Qed.
Lemma stm_reads_get {A} (f : ST -> A) : stm_reads (st_get f). Proof. intros st. exact I. Qed.
Lemma stm_reads_put f : stm_reads (st_put f). Proof. intros st. exact I. Qed.
Lemma stm_reads_lift {A} (r : res A) : stm_reads (st_lift r). Proof. intros st. exact I. Qed.
Lemma stm_reads_require b e : stm_reads (st_require b e). Proof. intros st. exact I. Qed.
Lemma stm_reads_call o : is_read o -> stm_reads (st_call o).
Proof. intros Ho st. split; [done|]. done. Qed.
Lemma stm_reads_call_Z o : is_read o -> stm_reads (st_call_Z o).
Proof. intros Ho. apply stm_reads_bind; [by apply stm_reads_call|]. intros. apply stm_reads_ret. Qed.
Lemma stm_reads_call_Hash o : is_read o -> stm_reads (st_call_Hash o).
Proof. intros Ho. apply stm_reads_bind; [by apply stm_reads_call|]. intros. apply stm_reads_ret. Qed.
Lemma stm_reads_can a v : stm_reads (st_prog (CanTransfer a v)).
Proof. intros st. unfold st_prog. rewrite can_transfer. split; [done|]. done. Qed.

Lemma stm_no_err_bind {A B} (m : STM S A) (f : A -> STM S B) :
  stm_no_err m -> (forall a, stm_no_err (f a)) -> stm_no_err (m ≫= f).
Proof.
  intros Hm Hf st. eapply prog_all_bind; [apply Hm|].
  intros [[a|e|e] st'] Hr; [apply Hf|by destruct Hr|by intros []].
Qed.
Lemma stm_no_err_ret {A} (a : A) : stm_no_err (mret a). Proof. intros st []. Qed.
Lemma stm_no_err_get {A} (f : ST -> A) : stm_no_err (st_get f). Proof. intros st []. Qed.
Lemma stm_no_err_put f : stm_no_err (st_put f). Proof. intros st []. Qed.
Lemma stm_no_err_prog {A} (p : Prog S A) : stm_no_err (st_prog p).
Proof. intros st. eapply prog_all_bind; [apply prog_all_true|]. by intros a _ []. Qed.
Lemma stm_no_err_call_Z o : stm_no_err (st_call_Z o).
Proof. apply stm_no_err_bind; [apply stm_no_err_prog|]. intros. apply stm_no_err_ret. Qed.
Lemma stm_no_err_add gp g : stm_no_err (st_lift (GasPool_AddGas gp g)).
Proof. intros st. unfold GasPool_AddGas. simpl. case_match; by intros []. Qed.

Hint Resolve stm_reads_ret stm_reads_get stm_reads_put stm_reads_lift stm_reads_require stm_reads_call
  stm_reads_call_Z stm_reads_call_Hash stm_reads_can stm_no_err_ret stm_no_err_get stm_no_err_put
  stm_no_err_prog stm_no_err_call_Z stm_no_err_add : evermint.

Ltac stm_auto :=
  repeat first [ progress cbv zeta
               | apply stm_reads_bind; [|intros ?] | apply stm_no_err_bind; [|intros ?] | case_match ];
  eauto with evermint.

Lemma preCheck_reads (evm : EVM S) : stm_reads (preCheck evm).
Proof.
  unfold preCheck, checkNonceAndSender, checkFeeCaps, buyGas.
  stm_auto; try (apply stm_reads_call_Z; done); try (apply stm_reads_call_Hash; done).
Qed.

Lemma execute_no_err (evm : EVM S) rules : stm_no_err (execute evm rules).
Proof. unfold execute. stm_auto; try apply stm_no_err_prog. Qed.

Lemma refundGas_no_err q : stm_no_err (refundGas q).
Proof. unfold refundGas. stm_auto; try apply stm_no_err_prog. Qed.

Lemma reads_before_stm {A B} (m : STM S A) (f : A -> STM S B) st :
  stm_reads m -> (forall a st', reads_before rejected (f a st')) -> reads_before rejected ((m ≫= f) st).
Proof. intros Hm Hf. apply reads_before_bind; [apply Hm|]. intros [[a|e|e] st']; [apply Hf|done|done]. Qed.

Lemma TransitionDb_reads_before (evm : EVM S) st : reads_before rejected (TransitionDb evm st).
Proof.
  unfold TransitionDb. apply reads_before_stm; [apply preCheck_reads|]. intros [] st1.
  apply reads_before_stm; [eauto with evermint|]. intros st2 st3. cbv zeta.
  apply reads_before_stm; [eauto with evermint|]. intros g st4.
  apply reads_before_stm; [eauto with evermint|]. intros [] st5.
  apply reads_before_stm; [eauto with evermint|]. intros [] st6.
  apply reads_before_stm; [stm_auto|]. intros [] st7.
  apply reads_before_none, stm_no_err_bind; [apply execute_no_err|]. intros [[ret left] vmerr].
  apply stm_no_err_bind; [eauto with evermint|]. intros [].
  apply stm_no_err_bind; [apply refundGas_no_err|]. intros []. stm_auto.
Qed.

(** C8 A message that is not accepted changes nothing: when the transition returns an
    error (a wrong nonce, a sender with code, a fee below the base fee, not enough gas
    for the block or the intrinsic cost, not enough funds for the transfer), the state
    is the one before, in the current context, in every snapshot and in every
    revertible field. *)
Theorem rejected_message_changes_nothing (env : SdbEnv) (evm : EVM S) (msg : Message) (gp : Z) (paid : bool)
  (s s' : AState S) (e : gerr) (st' : ST)
  (Hrun : astate_run env (ApplyMessage_core evm msg gp (set_SenderPaidTheFee paid)) s = (Ok (Err e, st'), s')) :
  s' = s.
Proof. by eapply astate_run_reads_before; [apply TransitionDb_reads_before|exact Hrun|]. Qed.
End RejectProofs.

(** ** Gas *)

Section GasProofs.
Context {S : Type} {K : SdkKeepers S} {G : Geth} {E : EvmEngine S} {EL : EvmEngineLaws S}.
Implicit Types (evm : EVM S) (st : ST).

(** Whatever the StateDB answers, the method does not panic, and if it returns a value
    the value and the new fields satisfy [Q]. *)
Definition stm_ok {A} (Q : A -> ST -> Prop) (m : STM S A) st : Prop :=
  prog_post (fun '(r, st') => match r with Ok a => Q a st' | Err _ => True | Panic _ => False end) (m st).

Lemma stm_ok_bind {A B} (Q : A -> ST -> Prop) (P : B -> ST -> Prop) (m : STM S A) (f : A -> STM S B) st :
  stm_ok Q m st -> (forall a st', Q a st' -> stm_ok P (f a) st') -> stm_ok P (m ≫= f) st.
Proof.
  intros Hm Hf. unfold stm_ok, mbind, STM_bind. eapply prog_post_bind; [exact Hm|].
  intros [[a|e|e] st']; simpl; [apply Hf|done|done].
Qed.
Lemma stm_ok_ret {A} (Q : A -> ST -> Prop) a st : Q a st -> stm_ok Q (mret a) st.
Proof. done. Qed.
Lemma stm_ok_require (Q : unit -> ST -> Prop) b e st : (b = true -> Q tt st) -> stm_ok Q (st_require b e) st.
Proof. unfold stm_ok, st_require, st_lift. simpl. destruct b; auto. Qed.
Lemma stm_ok_prog {A} (Q : A -> ST -> Prop) (p : Prog S A) st :
  prog_post (fun a => Q a st) p -> stm_ok Q (st_prog p) st.
Proof. intros Hp. eapply prog_post_bind; [exact Hp|]. done. Qed.
Lemma stm_ok_weak {A} (Q : A -> ST -> Prop) (m : STM S A) st st0 :
  st = st0 -> stm_ok (fun _ st' => st' = st0) m st -> (forall a, Q a st0) -> stm_ok Q m st.
Proof.
  intros -> Hm HQ. eapply prog_post_impl; [|exact Hm]. intros [[a|e|e] st']; simpl; [by intros ->|done|done].
Qed.

Lemma stm_ok_get {A} (Q : A -> ST -> Prop) (f : ST -> A) st : Q (f st) st -> stm_ok Q (st_get f) st.
Proof. done. Qed.
Lemma ret_keeps {A} (a : A) st : stm_ok (fun _ st' => st' = st) (mret a : STM S A) st.
Proof. done. Qed.
Hint Resolve ret_keeps : evermint.

(** Calls and checks leave the fields alone. *)
Abbreviation keeps m st := (stm_ok (fun _ st' => st' = st) m st).
Lemma call_keeps o st : keeps (st_call o) st.
Proof. intros ans _. done. Qed.
Lemma call_Z_keeps o st : keeps (st_call_Z o) st.
Proof. eapply stm_ok_bind; [apply call_keeps|]. intros ans st' ->. apply ret_keeps. Qed.
Lemma call_Hash_keeps o st : keeps (st_call_Hash o) st.
Proof. eapply stm_ok_bind; [apply call_keeps|]. intros ans st' ->. apply ret_keeps. Qed.
Lemma require_keeps b e st : keeps (st_require b e) st.
Proof. by apply stm_ok_require. Qed.
Hint Resolve call_keeps call_Z_keeps call_Hash_keeps require_keeps : evermint.

Ltac keep := eapply stm_ok_bind; [solve [eauto with evermint]|intros ? ? ->].

Lemma check_nonce_keeps from n st : keeps (checkNonceAndSender from n) st.
Proof. unfold checkNonceAndSender. do 5 keep. apply require_keeps. Qed.
Lemma check_fee_keeps evm c t st : keeps (checkFeeCaps evm c t) st.
Proof. unfold checkFeeCaps. do 3 keep. apply require_keeps. Qed.

(** The fields after the gas was bought. *)
Definition bought st : ST :=
  set_gas (msg_Gas (st_msg st)) (set_initialGas (msg_Gas (st_msg st)) (set_gp (st_gp st - msg_Gas (st_msg st)) st)).

Lemma preCheck_ok evm st :
  st_gas st = 0 -> is_u64 (msg_Gas (st_msg st)) ->
  stm_ok (fun _ st' => st' = bought st /\ msg_Gas (st_msg st) <= st_gp st) (preCheck evm) st.
Proof.
  intros H0 Hg. unfold preCheck.
  eapply (stm_ok_bind (fun a st' => a = st /\ st' = st)); [by apply stm_ok_get|]. intros ? ? [-> ->].
  eapply (stm_ok_bind (fun _ st' => st' = st)); [case_match; auto using ret_keeps, check_nonce_keeps|]. intros ? ? ->.
  eapply (stm_ok_bind (fun _ st' => st' = st)); [repeat case_match; auto using ret_keeps, check_fee_keeps|]. intros ? ? ->.
  unfold buyGas, stm_ok, mbind, STM_bind, st_get, st_lift, st_put. simpl. unfold GasPool_SubGas.
  destruct (Z.ltb_spec (st_gp st) (msg_Gas (st_msg st))); simpl; [done|].
  rewrite H0, (add64_id 0) by (unfold is_u64 in Hg; lia). done.
Qed.

Lemma execute_ok evm rules st :
  is_u64 (st_gas st) ->
  stm_ok (fun r st' => st' = st /\ 0 <= snd (fst r) <= st_gas st) (execute evm rules) st.
Proof.
  intros Hg. unfold execute.
  eapply (stm_ok_bind (fun a st' => a = st /\ st' = st)); [by apply stm_ok_get|]. intros ? ? [-> ->].
  eapply (stm_ok_bind (fun _ st' => st' = st)); [case_match; [keep|]; apply ret_keeps|]. intros ? ? ->.
  assert (forall p : Prog S CallResult, prog_post (fun r => 0 <= snd (fst r) <= st_gas st) p ->
    stm_ok (fun r st' => st' = st /\ 0 <= snd (fst r) <= st_gas st) (st_prog p) st) as Hp.
  { intros p Hp. apply stm_ok_prog. eapply prog_post_impl; [|exact Hp]. done. }
  case_match; [|apply Hp; by apply create_gas].
  keep. keep. apply Hp. by apply call_gas.
Qed.

(** *** Running a method on the specification of the StateDB *)

Definition run_ok {A} env (Q : A -> ST -> AState S -> Prop) (m : STM S A) st (s : AState S) : Prop :=
  forall r st' s', astate_run env (m st) s = (Ok (r, st'), s') ->
    match r with Ok a => Q a st' s' | Err _ => True | Panic _ => False end.

Lemma run_ok_bind {A B} env (Q : A -> ST -> AState S -> Prop) (P : B -> ST -> AState S -> Prop)
    (m : STM S A) (f : A -> STM S B) st s :
  run_ok env Q m st s -> (forall a st' s', Q a st' s' -> run_ok env P (f a) st' s') -> run_ok env P (m ≫= f) st s.
Proof.
  intros Hm Hf r st2 s2. unfold mbind, STM_bind. rewrite astate_run_bind. unfold mbind, M_bind.
  destruct (astate_run env (m st) s) as [[[r1 st1]|e|e] s1] eqn:E1; [|done|done].
  specialize (Hm _ _ _ E1). destruct r1 as [a|e|e]; simpl; [by apply Hf| |done]. by intros [= <- <- <-].
Qed.

(** A postcondition that does not depend on the answers holds of a run. *)
Lemma run_ok_post {A} env (Q : A -> ST -> Prop) (m : STM S A) st s :
  stm_ok Q m st -> astate_inv refund_ok s ->
  run_ok env (fun a st' s' => Q a st' /\ astate_inv refund_ok s') m st s.
Proof.
  intros Hm Hs r st' s' Er. pose proof (astate_run_post _ _ _ _ _ _ Hm Hs Er) as Hq. simpl in Hq.
  pose proof (astate_run_inv refund_ok env (m st) s Hs) as Hi. rewrite Er in Hi. simpl in Hi.
  destruct r; [done|done|done].
Qed.

(** A method that only reads leaves the state too. *)
Lemma run_ok_reads {A} env (Q : A -> ST -> Prop) (m : STM S A) st s :
  stm_ok Q m st -> stm_reads m -> astate_inv refund_ok s -> run_ok env (fun a st' s' => Q a st' /\ s' = s) m st s.
Proof.
  intros Hm Hr Hs r st' s' Er. destruct (astate_run_reads _ _ _ _ _ (Hr st) Er) as [-> _].
  pose proof (run_ok_post env Q m st s Hm Hs _ _ _ Er) as H. destruct r; [|done|done]. by destruct H.
Qed.

Lemma run_ok_refund env st s :
  run_ok env (fun z st' s' => z = refund (l_rev (as_cur s)) /\ st' = st /\ s' = s) (st_call_Z OGetRefund) st s.
Proof.
  intros r st' s'. cbv [st_call_Z st_call st_prog mbind STM_bind prog_bind]. simpl.
  destruct s as [b c sv cm]. intros [= <- <- <-]. done.
Qed.

(** The refund, capped by the quotient, goes back to the pool with the gas left. *)
Definition refunded (q left counter : Z) st : Z := left + Z.min ((st_initialGas st - left) / q) counter.

Lemma refundGas_ok env q st s left :
  0 < q -> 0 <= left <= st_initialGas st -> is_u64 (st_initialGas st) -> 0 <= st_gp st ->
  st_gp st + st_initialGas st <= MaxUint64 -> st_gas st = left -> astate_inv refund_ok s ->
  run_ok env (fun _ st' _ => let back := refunded q left (refund (l_rev (as_cur s))) st in
      left <= back <= st_initialGas st /\ st' = set_gp (st_gp st + back) (set_gas back st))
    (refundGas q) st s.
Proof.
  intros Hq Hl Hi Hgp Hmax Hleft Hs. unfold refundGas. set (counter := refund (l_rev (as_cur s))).
  assert (is_u64 counter) as Hc by apply Hs.
  assert (gasUsed st = st_initialGas st - left) as Hu.
  { unfold gasUsed. rewrite Hleft, sub64_id; unfold is_u64 in Hi; lia. }
  set (used := st_initialGas st - left) in *.
  assert (0 <= used / q <= used) as Hdiv
    by (split; [apply Z.div_pos; lia|apply Z.div_le_upper_bound; [lia|nia]]).
  set (back := refunded q left counter st).
  assert (left <= back <= st_initialGas st) as Hback
    by (unfold back, refunded; fold used; unfold is_u64 in *; lia).
  eapply (run_ok_bind _ (fun a st' s' => a = used /\ st' = st /\ s' = s)); [by intros ? ? ? [= <- <- <-]|].
  intros ? ? ? (-> & -> & ->).
  eapply run_ok_bind; [apply run_ok_refund|]. intros ? ? ? (-> & -> & ->). fold counter.
  eapply (run_ok_bind _ (fun a st' s' => a = Z.min (used / q) counter /\ st' = st /\ s' = s)).
  { destruct (Z.ltb_spec counter (used / q)).
    - intros r st' s' Er. pose proof (run_ok_refund env st s _ _ _ Er) as H1. fold counter in H1.
      destruct r; [|done|done]. destruct H1 as (-> & -> & ->). split_and!; (done || lia).
    - intros ? ? ? [= <- <- <-]. split_and!; (done || lia). }
  intros ? ? ? (-> & -> & ->).
  eapply (run_ok_bind _ (fun _ st' s' => st' = set_gas back st)).
  { intros ? ? ? [= <- <- <-]. rewrite Hleft, add64_id; [done|lia|unfold is_u64 in *; lia|].
    change (back <= MaxUint64). unfold is_u64 in *. lia. }
  intros [] ? s1 ->.
  eapply (run_ok_bind _ (fun a st' _ => a = set_gas back st /\ st' = a)); [by intros ? ? ? [= <- <- <-]|].
  intros ? ? s2 [-> ->].
  eapply (run_ok_bind _ (fun _ st' _ => st' = set_gas back st)).
  { case_match; [|by intros ? ? ? [= <- <- <-]].
    intros r st' s' Er. cbv [st_call st_prog mbind STM_bind prog_bind] in Er.
    cbn [astate_run] in Er. destruct (astate_step env _ s2) as [[ans|e|e] s3]; [|done|done].
    injection Er as <- <- <-. done. }
  intros [] ? s3 ->.
  intros r st' s'. unfold GasPool_AddGas. simpl.
  destruct (Z.ltb_spec (MaxUint64 - back) (st_gp st)) as [|_]; [lia|]. by intros [= <- <- <-].
Qed.

(** The quotient of the refund and the intrinsic gas of a message. *)
Definition refund_quotient evm : Z :=
  if IsLondon (chain_Rules (evm_ChainConfig evm) (evm_BlockNumber evm) false)
  then RefundQuotientEIP3529 else RefundQuotient.
Definition intrinsic_gas evm (msg : Message) : res Z :=
  let rules := chain_Rules (evm_ChainConfig evm) (evm_BlockNumber evm) false in
  IntrinsicGas (msg_Data msg) (msg_AccessList msg) (bool_decide (msg_To msg = None)) (IsHomestead rules) (IsIstanbul rules).

(** How the gas of a message was used: the execution, started in the state of the message
    with the gas without the intrinsic gas, leaves [left] and returns what the result
    holds; of what was spent, the refund counter of the StateDB after the execution is given
    back, but at most the share of the quotient. *)
Definition gas_account env evm (msg : Message) (gp : Z) (paid : bool) (s : AState S) (i : Z) (result : ExecutionResult) : Prop :=
  exists left st2 s2,
    astate_run env (execute evm (chain_Rules (evm_ChainConfig evm) (evm_BlockNumber evm) false)
      (set_gas (msg_Gas msg - i) (bought (set_SenderPaidTheFee paid (NewStateTransition msg gp))))) s =
        (Ok (Ok (ReturnData result, left, exec_Err result), st2), s2) /\
    0 <= left <= msg_Gas msg - i /\
    UsedGas result = msg_Gas msg - left - Z.min ((msg_Gas msg - left) / refund_quotient evm) (refund (l_rev (as_cur s2))).

Lemma TransitionDb_gas env evm msg gp paid s :
  is_u64 (msg_Gas msg) -> is_u64 gp -> astate_inv refund_ok s ->
  run_ok env (fun res st' _ => exists i, intrinsic_gas evm msg = Ok i /\
      gas_account env evm msg gp paid s i res /\
      0 <= UsedGas res <= msg_Gas msg /\ st_gp st' = gp - UsedGas res)
    (TransitionDb evm) (set_SenderPaidTheFee paid (NewStateTransition msg gp)) s.
Proof.
  intros Hg Hgp Hs. unfold TransitionDb. set (st0 := set_SenderPaidTheFee paid (NewStateTransition msg gp)).
  set (g := msg_Gas msg) in *.
  eapply run_ok_bind; [eapply run_ok_reads; [apply (preCheck_ok evm st0); done|apply preCheck_reads|done]|].
  intros [] ? ? [[-> Hle] ->]. change (g <= gp) in Hle.
  eapply (run_ok_bind _ (fun a st' s' => a = bought st0 /\ st' = a /\ s' = s)); [by intros ? ? ? [= <- <- <-]|].
  intros ? ? ? (-> & -> & ->). cbv zeta.
  eapply (run_ok_bind _ (fun i st' s' => intrinsic_gas evm msg = Ok i /\ st' = bought st0 /\ s' = s)).
  { intros r st' s' [= <- <- <-]. change (st_data (bought st0)) with (msg_Data msg).
    change (st_msg (bought st0)) with msg. fold (intrinsic_gas evm msg).
    destruct (intrinsic_gas evm msg) as [i|e|e] eqn:Ei; [done|done|].
    pose proof (intrinsic_no_panic _ _ _ _ _ _ Ei) as []. }
  intros i ? ? (Hi & -> & ->).
  assert (is_u64 i) as Hiu by (by eapply intrinsic_range).
  eapply (run_ok_bind _ (fun _ st' s' => i <= g /\ st' = bought st0 /\ s' = s)).
  { intros r st' s' [= <- <- <-]. fold g.
    destruct (Z.ltb_spec g i); [done|]. split_and!; [lia|done|done]. }
  intros [] ? ? (Hig & -> & ->).
  set (st1 := set_gas (g - i) (bought st0)).
  eapply (run_ok_bind _ (fun _ st' s' => st' = st1 /\ s' = s)).
  { intros r st' s' [= <- <- <-]. fold g.
    rewrite sub64_id by (unfold is_u64 in *; lia). done. }
  intros [] ? ? [-> ->].
  eapply (run_ok_bind _ (fun _ st' s' => st' = st1 /\ s' = s)).
  { eapply (run_ok_reads env (fun _ st' => st' = st1)); [| |done]; (case_match; [|first [apply ret_keeps|apply stm_reads_ret]]).
    - eapply (stm_ok_bind (fun _ st' => st' = st1)); [|intros ? ? ->; apply require_keeps].
      apply stm_ok_prog. eapply prog_post_impl; [|apply prog_post_true]. done.
    - apply stm_reads_bind; [apply stm_reads_can|]. intros. apply stm_reads_require. }
  intros [] ? ? [-> ->].
  assert (is_u64 (g - i)) as Hgi by (unfold is_u64 in *; lia).
  eapply (run_ok_bind _ (fun r st' s' => (st' = st1 /\ 0 <= snd (fst r) <= st_gas st1) /\ astate_inv refund_ok s' /\
    astate_run env (execute evm (chain_Rules (evm_ChainConfig evm) (evm_BlockNumber evm) false) st1) s = (Ok (Ok r, st'), s'))).
  { intros r st' s' Er. pose proof (run_ok_post env _ _ st1 s (execute_ok evm _ st1 Hgi) Hs _ _ _ Er) as H. destruct r; [|done|done]. by destruct H. }
  intros [[ret left] vmerr] ? s3 ([-> Hleft] & Hs3 & Hexec). change (st_gas st1) with (g - i) in Hleft. cbn [fst snd] in Hleft.
  eapply (run_ok_bind _ (fun _ st' s' => st' = set_gas left st1 /\ s' = s3)); [by intros ? ? ? [= <- <- <-]|].
  intros [] ? ? [-> ->].
  set (q := if IsLondon _ then _ else _).
  assert (q = refund_quotient evm) as Eq by done. assert (0 < q) as Hq by (unfold q; by case_match).
  eapply run_ok_bind; [apply (refundGas_ok env q (set_gas left st1) s3 left); try done; simpl;
    fold g; unfold is_u64 in *; try lia; done|].
  intros [] st2 s4. cbv zeta. set (back := refunded q left _ _). intros [Hback ->].
  change (st_initialGas (set_gas left st1)) with g in Hback.
  intros r st' s' [= <- <- <-]. unfold gasUsed. cbn [UsedGas]. simpl. fold g. fold back.
  change (st_initialGas (set_gp (gp - g + back) (set_gas back (set_gas left st1)))) with g.
  rewrite sub64_id by (unfold is_u64 in *; lia).
  exists i. split_and!; [done| |lia|lia|lia].
  exists left, st1, s3. cbn [ReturnData exec_Err]. split_and!; [exact Hexec|lia|lia|]. rewrite <- Eq.
  unfold back, refunded. simpl. fold g. lia.
Qed.

Lemma gas_account_lower env evm msg gp paid s i result :
  gas_account env evm msg gp paid s i result -> i - i / refund_quotient evm <= UsedGas result.
Proof.
  intros (left & st2 & s2 & _ & Hl & ->). assert (0 < refund_quotient evm) as Hq by (unfold refund_quotient; by case_match).
  set (q := refund_quotient evm) in *. set (g := msg_Gas msg) in *. set (x := g - left).
  assert (i <= x) as Hx by (unfold x; lia).
  assert (i - i / q <= x - x / q); [|unfold x in *; lia].
  pose proof (Z.div_mod i q ltac:(lia)). pose proof (Z.mod_pos_bound i q Hq).
  pose proof (Z.div_mod x q ltac:(lia)). pose proof (Z.mod_pos_bound x q Hq).
  assert (i / q <= x / q) by (apply Z.div_le_mono; lia). nia.
Qed.

(** C7 Gas accounting: when the transition of a message returns, it does not panic, and
    if the message was accepted, then the execution, run from the state of the message
    with the limit without the intrinsic gas, gives the return data and the error of the
    result, and the gas used is the limit without what this execution left and without
    the refund: the refund counter that the StateDB holds after it, but at most a fifth
    (before London a half) of what was spent.  So the gas used is between the intrinsic
    gas without that share and the limit, and the block gas pool lost exactly the gas
    used. *)
Theorem transition_gas_accounting (env : SdbEnv) (evm : EVM S) (msg : Message) (gp : Z) (paid : bool)
  (s s' : AState S) (r : res ExecutionResult) (st' : ST)
  (Hgas : is_u64 (msg_Gas msg)) (Hgp : is_u64 gp) (Hstate : astate_inv refund_ok s)
  (Hrun : astate_run env (ApplyMessage_core evm msg gp (set_SenderPaidTheFee paid)) s = (Ok (r, st'), s')) :
  match r with
  | Ok result => exists i, intrinsic_gas evm msg = Ok i /\
      gas_account env evm msg gp paid s i result /\
      0 <= UsedGas result <= msg_Gas msg /\ i - i / refund_quotient evm <= UsedGas result /\
      st_gp st' = gp - UsedGas result
  | Err _ => True
  | Panic _ => False
  end.
Proof.
  pose proof (TransitionDb_gas env evm msg gp paid s Hgas Hgp Hstate _ _ _ Hrun) as H.
  destruct r as [result|e|e]; [|done|done]. destruct H as (i & Hi & Ha & Hu & Hp).
  exists i. split_and!; try done; try lia. by eapply gas_account_lower.
Qed.
End GasProofs.

(** ** The refund *)

Section RefundProofs.
Context {S : Type} {K : SdkKeepers S} {G : Geth} {L : SdkLaws S}.
Implicit Types (st : ST) (s : AState S).

(** The gas given back at the end, as [refundGas] computes it. *)
Definition gas_back (q : Z) st s : Z := refunded q (st_gas st) (refund (l_rev (as_cur s))) st.

Lemma refunded_range q left counter st :
  0 < q -> 0 <= left <= st_initialGas st -> is_u64 counter -> left <= refunded q left counter st <= st_initialGas st.
Proof.
  intros Hq Hl Hc. unfold refunded. set (used := st_initialGas st - left).
  assert (0 <= used / q <= used) as Hdiv
    by (split; [apply Z.div_pos; lia|apply Z.div_le_upper_bound; [lia|nia]]).
  unfold is_u64 in *. lia.
Qed.

(** Up to the payment: the gas is added and nothing else happened. *)
Lemma refundGas_run env q st s :
  0 < q -> 0 <= st_gas st <= st_initialGas st -> is_u64 (st_initialGas st) -> astate_inv refund_ok s ->
  let st1 := set_gas (gas_back q st s) st in
  astate_run env (refundGas q st) s =
    astate_run env (((if SenderPaidTheFee st1 then
        _ ← st_call (OAddBalance (msg_From (st_msg st1)) (st_gas st1 * st_gasPrice st1)); mret tt
      else mret tt) ;;
     gp ← st_lift (GasPool_AddGas (st_gp st1) (st_gas st1));
     st_put (set_gp gp)) st1) s.
Proof.
  intros Hq Hl Hi Hs. cbv zeta. unfold gas_back. set (counter := refund (l_rev (as_cur s))).
  assert (is_u64 counter) as Hc by apply Hs.
  pose proof (refunded_range q (st_gas st) counter st Hq Hl Hc) as Hback.
  assert (gasUsed st = st_initialGas st - st_gas st) as Hu
    by (unfold gasUsed; rewrite sub64_id; unfold is_u64 in *; lia).
  assert (astate_run env (refundGas q st) s = astate_run env (((if SenderPaidTheFee st then
      _ ← st_call (OAddBalance (msg_From (st_msg st)) (refunded q (st_gas st) counter st * st_gasPrice st)); mret tt
      else mret tt) ;; gp ← st_lift (GasPool_AddGas (st_gp st) (refunded q (st_gas st) counter st));
      st_put (set_gp gp)) (set_gas (refunded q (st_gas st) counter st) st)) s) as ->; [|done].
  unfold refundGas, st_get, st_put, mbind, STM_bind. cbn [prog_bind]. rewrite Hu.
  unfold st_call_Z, st_call, st_prog, mbind, STM_bind, mret, STM_ret. cbn [prog_bind astate_run astate_step].
  unfold on_cur. cbn [live_step]. unfold gets, cStateDb_GetRefund. cbv beta iota. fold counter.
  set (used := st_initialGas st - st_gas st) in *. destruct s as [base cur saves com]. cbn [as_base as_cur as_saves as_committed].
  assert (add64 (st_gas st) (Z.min (used / q) counter) = refunded q (st_gas st) counter st) as Ea.
  { unfold refunded. fold used. unfold refunded in Hback. fold used in Hback.
    apply add64_id; unfold is_u64, MaxUint64 in *; lia. }
  destruct (Z.ltb_spec counter (used / q)).
  - rewrite Z.min_r in Ea by lia. cbn [prog_bind astate_run astate_step]. unfold on_cur. cbn [live_step as_cur as_base as_saves as_committed].
    unfold gets, cStateDb_GetRefund. cbv beta iota. fold counter. by rewrite <- Ea.
  - rewrite Z.min_l in Ea by lia. cbn [prog_bind]. by rewrite <- Ea.
Qed.

(** C9 The gas refund mints: when the fee was deducted before the execution, the sender
    is given the price of the gas left (with the refund) by [AddBalance], so his balance
    and the total supply of the EVM coin both grow by exactly that amount; no balance
    shrinks, so the fee collector, which received the whole fee before the execution,
    does not give anything back. *)
Theorem refund_mints_supply (env : SdbEnv) (q : Z) (st : ST) (s : AState S)
  (Hq : 0 < q) (Hgas : 0 <= st_gas st <= st_initialGas st) (Hinit : is_u64 (st_initialGas st))
  (Hgp : 0 <= st_gp st) (Hpool : st_gp st + st_initialGas st <= MaxUint64)
  (Hstate : astate_inv refund_ok s) (Hpaid : SenderPaidTheFee st = true)
  (Hamount : 0 < gas_back q st s * st_gasPrice st < 2 ^ 256)
  (Hready : evm_module_ready (w_sdk (l_world (as_cur s))))
  (Hblocked : BlockedAddr (S:=S) (farr_bytes (msg_From (st_msg st))) = false)
  (Hsupply : forall d, GetSupply (w_sdk (l_world (as_cur s))) d
                       + at_denom (evmDenom env) (gas_back q st s * st_gasPrice st) d < 2 ^ 256) :
  exists st' s', astate_run env (refundGas q st) s = (Ok (Ok tt, st'), s') /\
    st_gas st' = gas_back q st s /\ st_gp st' = st_gp st + gas_back q st s /\
    bank_delta (w_sdk (l_world (as_cur s))) (w_sdk (l_world (as_cur s')))
      (at_account (farr_bytes (msg_From (st_msg st))) (evmDenom env) (gas_back q st s * st_gasPrice st))
      (at_denom (evmDenom env) (gas_back q st s * st_gasPrice st)).
Proof.
  rewrite refundGas_run by done. cbv zeta. cbn [SenderPaidTheFee set_gas st_msg st_gas st_gasPrice st_gp].
  rewrite Hpaid. pose proof (refunded_range q (st_gas st) (refund (l_rev (as_cur s))) st Hq Hgas ltac:(apply Hstate)) as Hb.
  fold (gas_back q st s) in Hb. set (back := gas_back q st s) in *.
  destruct (AddBalance_ok env (msg_From (st_msg st)) (back * st_gasPrice st) (as_cur s)) as (k & Ek & Hd & _); [done..|].
  unfold st_call, st_prog, mbind, STM_bind, mret, STM_ret, st_lift, st_put. cbn [prog_bind astate_run astate_step].
  unfold on_cur. cbn [live_step]. unfold mbind, M_bind. rewrite Ek. cbn [prog_bind astate_run].
  unfold GasPool_AddGas. destruct (Z.ltb_spec (MaxUint64 - back) (st_gp st)) as [|_]; [lia|].
  cbn [prog_bind astate_run]. eexists _, _. split; [done|]. by split_and!.
Qed.
End RefundProofs.
