(* ===== verification/TxExecution.v ===== *)
(** * Executing Ethereum transactions

    The configuration and the EVM of a message, its application with receipt and commit
    (x/evm/keeper/config.go, state_transition.go) and the handler of MsgEthereumTx
    (msg_server.go), over the contexts of Sdk.v.  Metrics and the text of events are
    left out. *)

From Stdlib Require Import Strings.Byte.
From stdpp Require Import base gmap list strings.
From S2P Require Import Prelude Sdk Geth EvmTypes ChainId GasMeter EvmStore AccessList StateDB SnapshotStack.
From S2P Require Import Programs StateDBEffects FeeMarket Cpc CpcContracts Eip712 Staking Contracts TxTypes StateTransition.

(** ** Configuration *)

Record TxConfig : Type := mkTxConfig {
  txc_BlockHash : Hash;
  txc_TxHash : Hash;
  txc_TxIndex : Z;
  txc_LogIndex : Z;
  txc_TxType : option TxType
}.

Record EVMConfig : Type := mkEVMConfig {
  cfg_Params : EvmParams;
  cfg_ChainConfig : EthChainConfig;
  cfg_CoinBase : Address;
  cfg_BaseFee : Z;
  cfg_NoBaseFee : bool
}.

Section Execution.
Context {S : Type} {K : SdkKeepers S} {G : Geth} {B : Bech32} {E : EvmEngine S}.
Context {P : Codec EvmParams} {FP : Codec FmParams}.
Context {SK : StakingKeepers S} {E712 : Eip712Lib} {CP : Codec CpcParams} {CM : Codec CustomPrecompiledContractMeta}.
Context {JE : Json Erc20CustomPrecompiledContractMeta} {JS : Json StakingCustomPrecompiledContractMeta}.
Context {H C : Type} {X : CacheCtx H C (World S)}.
Variable legacy_params : S -> FmParams.
Variable GetValidatorByConsAddr : S -> bytes -> res string.
Variable ValidatorStringToBytes : string -> res bytes.
Variables Erc20CpcInfo Bech32CpcInfo : CustomPrecompiledContractInfo.
Variable StakingCpcInfo : CustomPrecompiledContractInfo.
(** The clock of the machine and the order in which Go visits a map of accounts. *)
Variable now : Z.
Variable map_order : AccountTracker -> list Address.
Implicit Types w : World S.

(** A nil base fee is dereferenced. *)
Definition Keeper_GetBaseFee w : res Z :=
  baseFee ← Fm_GetBaseFee legacy_params w;
  match baseFee with Some b => Ok b | None => Panic NilDereference end.

Definition Keeper_EVMConfig (ctx : Ctx) w (overrideProposerAddress : bytes) : res EVMConfig :=
  params ← Keeper_GetParams w;
  chainId ← Keeper_GetEip155ChainId w;
  ethCfg ← ChainConfig_EthereumConfig (params_ChainConfig params) (Some chainId);
  coinbase ← GetCoinbaseAddress GetValidatorByConsAddr ValidatorStringToBytes ctx w overrideProposerAddress;
  baseFee ← Keeper_GetBaseFee w;
  Ok (mkEVMConfig params ethCfg coinbase baseFee (IsNoBaseFeeEnabled w)).

Definition NewTxConfig (ctx : Ctx) w (tx : option Transaction) : TxConfig :=
  mkTxConfig (BytesToHash (ctx_HeaderHash ctx))
    match tx with Some tx => Transaction_Hash tx | None => zero_hash end
    (sub64 (GetTxCountTransient w) 1)
    (GetCumulativeLogCountTransient w true)
    match tx with Some tx => Some (tx_Type tx) | None => None end.

(** The type of the transaction a message stands for; nil is [None]. *)
Definition message_tx_type (gasTipCap gasFeeCap : option Z) (accessList : option EthAccessList) : TxType :=
  if bool_decide (is_Some gasTipCap) || bool_decide (is_Some gasFeeCap) then DynamicFeeTxType
  else if bool_decide (is_Some accessList) then AccessListTxType else LegacyTxType.

Definition NewTxConfigFromMessage (ctx : Ctx) w (msg : option Message) : TxConfig :=
  mkTxConfig (BytesToHash (ctx_HeaderHash ctx)) zero_hash
    (sub64 (GetTxCountTransient w) 1)
    (GetCumulativeLogCountTransient w true)
    match msg with
    | Some msg => Some (message_tx_type (Some (msg_GasTipCap msg)) (Some (msg_GasFeeCap msg))
                          (Some (msg_AccessList msg)))
    | None => None
    end.

(** ** The EVM of a message *)

Fixpoint evm_contracts (protocolVersion : Z) (chainConfig : EthChainConfig) (contracts : list (CustomPrecompiledContract S))
    (acc : list (EvmCustomContract S)) : res (list (EvmCustomContract S)) :=
  match contracts with
  | [] => Ok acc
  | contract :: rest =>
      let executors := GetMethodExecutors contract in
      if decide (length executors = 0%nat) then Panic (Errorf "no executors found for custom precompiled contract")
      else
        let methods := (fun e => (Method4BytesSignatures e, RequireGas e, ReadOnly e,
                                  Cpc_Execute e protocolVersion chainConfig)) <$> executors in
        let metadata := GetMetadata contract in
        evm_contracts protocolVersion chainConfig rest
          (acc ++ [mkEvmCustomContract (BytesToAddress (meta_Address metadata)) methods (meta_Name metadata)])
  end.

Definition NewEVM (ctx : Ctx) w (msg : Message) (cfg : EVMConfig) : res (EVM S) :=
  protocolVersion ← GetProtocolCpcVersion w;
  all ← GetAllCustomPrecompiledContracts Erc20CpcInfo Bech32CpcInfo StakingCpcInfo w;
  contracts ← evm_contracts protocolVersion (cfg_ChainConfig cfg) all [];
  Ok (mkEVM (cfg_ChainConfig cfg) (GetHashFn ctx w) (cfg_CoinBase cfg) (BlockGasLimit ctx)
        (ctx_BlockHeight ctx) (ctx_Time ctx) (cfg_BaseFee cfg) (msg_From msg) (msg_GasPrice msg)
        (cfg_NoBaseFee cfg || IsNoBaseFeeEnabled w) (ExtraEIPs (cfg_Params cfg)) contracts).

(** What [NewStateDB] caches of the parameters. *)
Definition NewStateDB_env (ctx : Ctx) w (coinbase : Address) : res SdbEnv :=
  evmParams ← Keeper_GetParams w;
  chainId ← Keeper_GetEip155ChainId w;
  chainConfig ← ChainConfig_EthereumConfig (params_ChainConfig evmParams) (Some chainId);
  Ok (mkSdbEnv coinbase (EvmDenom evmParams) chainConfig (ctx_BlockHeight ctx)).

(** ** Applying a message *)

(** Reads and writes through a context. *)
Definition read_ctx {A} (c : C) (f : World S -> res A) : M H A := fun h => (f (view h c), h).
Definition write_ctx (c : C) (f : World S -> World S) : M H unit := modify (fun h => update h c (f (view h c))).

(** The gas of the transactions before this one in the block. *)
Fixpoint add_previous_gas w (n : nat) (prevTxIdx cumulativeGasUsed : Z) : Z :=
  match n with
  | O => cumulativeGasUsed
  | Datatypes.S n' =>
      add_previous_gas w n' (add64 prevTxIdx 1)
        (add64 cumulativeGasUsed (GetGasUsedForTdxIndexTransient w prevTxIdx))
  end.

Definition execution_receipt (txType : TxType) (cumulativeGasUsed : Z) (logs : list Log) (vmerr : option gerr) :
    Receipt :=
  let status := match vmerr with None => ReceiptStatusSuccessful | Some _ => ReceiptStatusFailed end in
  let receipt := mkReceipt txType status cumulativeGasUsed [] logs in
  mkReceipt txType status cumulativeGasUsed (CreateBloom [receipt]) logs.

(** Run the transition on a StateDB. *)
Definition runTransition (env : SdbEnv) (evm : EVM S) (msg : Message) (paid : bool) (d0 : cStateDb C) :
    M H (ExecutionResult * cStateDb C) := fun h =>
  let gasPool := msg_Gas msg in
  match sdb_run env (ApplyMessage_core evm msg gasPool (set_SenderPaidTheFee paid)) (d0, h) with
  | (Ok (Ok execResult, _), (d, h')) => (Ok (execResult, d), h')
  | (Ok (Err e, _), (_, h')) => (Err e, h')
  | (Ok (Panic e, _), (_, h')) => (Panic e, h')
  | (Err e, (_, h')) => (Err e, h')
  | (Panic e, (_, h')) => (Panic e, h')
  end.

Definition commitIf (commit : bool) (d : cStateDb C) : M H unit := fun h =>
  if commit then
    let '(r, (_, h')) := cStateDb_CommitMultiStore false now (map_order (touched (db_rev d))) true (d, h) in (r, h')
  else (Ok tt, h).

(** Receipt, commit and the record of the transaction. *)
Definition finishMessage (c : C) (commit : bool) (txConfig : TxConfig) (execResult : ExecutionResult)
    (d : cStateDb C) : M H MsgEthereumTxResponse :=
  let gasUsed := UsedGas execResult in
  cumulativeGasUsed ← gets (fun h => add_previous_gas (view h c) (Z.to_nat (txc_TxIndex txConfig)) 0 gasUsed);
  txType ← lift_res match txc_TxType txConfig with Some t => Ok t | None => Panic (Errorf "require tx type set") end;
  let receipt := execution_receipt txType cumulativeGasUsed (logs (db_rev d)) (exec_Err execResult) in
  commitIf commit d ;;
  bzReceipt ← lift_res (Receipt_MarshalBinary receipt);
  write_ctx c (fun w => SetLogCountForCurrentTxTransient w (Z.of_nat (length (rcpt_Logs receipt)))) ;;
  write_ctx c (fun w => SetGasUsedForCurrentTxTransient w gasUsed) ;;
  write_ctx c (fun w => SetTxReceiptForCurrentTxTransient w bzReceipt) ;;
  mret (mkMsgEthereumTxResponse gasUsed (exec_Err execResult) (ReturnData execResult)
          (txc_TxHash txConfig) bzReceipt).

Definition ApplyMessageWithConfig (ctx : Ctx) (c : C) (msg : Message) (commit : bool) (cfg : EVMConfig)
    (txConfig : TxConfig) : M H MsgEthereumTxResponse :=
  require (EnableCreate (cfg_Params cfg) || negb (bool_decide (msg_To msg = None))) ErrCreateDisabled ;;
  require (EnableCall (cfg_Params cfg) || bool_decide (msg_To msg = None)) ErrCallDisabled ;;
  env ← read_ctx c (fun w => NewStateDB_env ctx w (cfg_CoinBase cfg));
  d0 ← (fun h => let '(d, h') := NewStateDB c h in (Ok d, h'));
  evm ← read_ctx c (fun w => NewEVM ctx w msg cfg);
  paid ← gets (fun h => IsSenderPaidTxFeeInAnteHandle (view h c));
  run ← runTransition env evm msg paid d0;
  let '(execResult, d) := run in
  finishMessage c commit txConfig execResult d.

(** Calls from queries and other modules. *)
Definition Keeper_ApplyMessage (ctx : Ctx) (c : C) (msg : Message) (commit : bool) : M H MsgEthereumTxResponse :=
  cfg ← read_ctx c (fun w => Keeper_EVMConfig ctx w []);
  txConfig ← gets (fun h => NewTxConfigFromMessage ctx (view h c) (Some msg));
  ApplyMessageWithConfig ctx c msg commit cfg txConfig.

(** ** Applying a transaction *)

(** The store and the gas meter of the context. *)
Definition in_store {A} (m : M H A) : M (H * infiniteGasMeterWithLimit) A :=
  zoom fst (fun h s => (h, snd s)) m.
Definition in_meter {A} (m : M infiniteGasMeterWithLimit A) : M (H * infiniteGasMeterWithLimit) A :=
  zoom snd (fun g s => (fst s, g)) m.

(** After the message was applied: the meter holds the gas used, or the whole limit
    when the message failed for another reason than the EVM. *)
Definition settle_gas (apply : M H MsgEthereumTxResponse) :
    M (H * infiniteGasMeterWithLimit) MsgEthereumTxResponse := fun s =>
  match in_store apply s with
  | (Ok res, s') => (in_meter (ResetGasMeterAndConsumeGas (resp_GasUsed res)) ;; mret res) s'
  | (Err e, s') => (in_meter (ResetGasMeterAndConsumeGas (GasMeter_Limit (snd s'))) ;; err e) s'
  | (Panic e, s') => (Panic e, s')
  end.

Definition ApplyTransaction (ctx : Ctx) (c : C) (tx : Transaction) :
    M (H * infiniteGasMeterWithLimit) MsgEthereumTxResponse :=
  cfg ← in_store (read_ctx c (fun w => Keeper_EVMConfig ctx w []));
  txConfig ← in_store (gets (fun h => NewTxConfig ctx (view h c) (Some tx)));
  msg ← lift_res (Transaction_AsMessage (cfg_ChainConfig cfg) (ctx_BlockHeight ctx) tx (cfg_BaseFee cfg));
  settle_gas (ApplyMessageWithConfig ctx c msg true cfg txConfig).

(** ** The handler *)

(** What the receipt event says of a transaction.  The logs of the unmarshalled receipt
    have index zero: the index is not part of the consensus encoding. *)
Record ReceiptEvent : Type := mkReceiptEvent {
  ev_TxHash : Hash;
  ev_ContractAddress : option Address;
  ev_GasUsed : Z;
  ev_EffectiveGasPrice : Z;
  ev_BlockNumber : Z;
  ev_TxIndex : Z;
  ev_StartLogIndex : option Z;
  ev_VmError : option gerr
}.

Definition GetSdkEventForReceipt (receipt : Receipt) (txHash : Hash) (contractAddress : Address)
    (gasUsed effectiveGasPrice blockNumber txIndex : Z) (vmErr : option gerr) : res ReceiptEvent :=
  _ ← Receipt_MarshalBinary receipt;
  Ok (mkReceiptEvent txHash (if decide (contractAddress = zero_address) then None else Some contractAddress)
        gasUsed effectiveGasPrice blockNumber txIndex
        match rcpt_Logs receipt with [] => None | _ :: _ => Some 0 end vmErr).

(** The ante handler has increased the nonce; the transition expects the old one. *)
Definition restoreNonce (sender : bytes) (nonce : Z) : M (World S) unit := fun w =>
  if IsSenderNonceIncreasedByAnteHandle w then
    match GetAccount (w_sdk w) sender with
    | None => (Panic (Errorf "account not found"), w)
    | Some acc =>
        if acc_sequence acc =? add64 nonce 1 then
          (Ok tt, SetFlagSenderNonceIncreasedByAnteHandle
                    (set_sdk (SetAccount (w_sdk w) (with_sequence (sub64 (acc_sequence acc) 1) acc)) w) false)
        else (Panic (Errorf "expected account nonce increased by 1 at this point"), w)
    end
  else (Ok tt, w).

Definition on_ctx {A} (c : C) (m : M (World S) A) : M H A := fun h =>
  let '(r, w) := m (view h c) in (r, update h c w).

Definition EthereumTx (ctx : Ctx) (c : C) (msg : MsgEthereumTx) :
    M (H * infiniteGasMeterWithLimit) (MsgEthereumTxResponse * ReceiptEvent) :=
  senderAccAddr ← lift_res (must_res (AccAddressFromBech32 (msgtx_From msg)));
  ethTx ← lift_res (MsgEthereumTx_AsTransaction msg);
  in_store (on_ctx c (restoreNonce senderAccAddr (tx_Nonce ethTx))) ;;
  txIndex ← in_store (gets (fun h => sub64 (GetTxCountTransient (view h c)) 1));
  response ← ApplyTransaction ctx c ethTx;
  baseFee ← in_store (read_ctx c Keeper_GetBaseFee);
  receipt ← lift_res (Receipt_UnmarshalBinary (resp_MarshalledReceipt response));
  let contractAddress :=
    if bool_decide (tx_To ethTx = None) && negb (Response_Failed response)
    then CreateAddress (BytesToAddress senderAccAddr) (tx_Nonce ethTx) else zero_address in
  event ← lift_res (GetSdkEventForReceipt receipt (resp_Hash response) contractAddress (resp_GasUsed response)
            (EthTxEffectiveGasPrice ethTx baseFee) (ctx_BlockHeight ctx) txIndex (resp_VmError response));
  mret (response, event).
End Execution.

(** ** What applying a message does *)

Section ExecutionProofs.
Context {S : Type} {K : SdkKeepers S} {G : Geth} {B : Bech32} {E : EvmEngine S} {EL : EvmEngineLaws S}.
Context {P : Codec EvmParams} {FP : Codec FmParams}.
Context {SK : StakingKeepers S} {E712 : Eip712Lib} {CP : Codec CpcParams} {CM : Codec CustomPrecompiledContractMeta}.
Context {JE : Json Erc20CustomPrecompiledContractMeta} {JS : Json StakingCustomPrecompiledContractMeta}.
Context {H C : Type} {X : CacheCtx H C (World S)} {XL : CacheCtxLaws H C (World S)}.
Variables Erc20CpcInfo Bech32CpcInfo : CustomPrecompiledContractInfo.
Variable StakingCpcInfo : CustomPrecompiledContractInfo.
Variable now : Z.
Variable map_order : AccountTracker -> list Address.

Abbreviation apply_message :=
  (ApplyMessageWithConfig Erc20CpcInfo Bech32CpcInfo StakingCpcInfo now map_order).
Abbreviation new_evm := (NewEVM Erc20CpcInfo Bech32CpcInfo StakingCpcInfo).

Lemma NewStateDB_original (c : C) h d h' : NewStateDB c h = (d, h') -> originalCtx d = c.
Proof.
  unfold NewStateDB. destruct (newStateDbSnapshotFromStateDb _ _ _ _). by intros [= <- _].
Qed.

Lemma commit_valid order (d : cStateDb C) h r d' h' c :
  ctx_valid h c -> cStateDb_CommitMultiStore false now order true (d, h) = (r, (d', h')) -> ctx_valid h' c.
Proof.
  intros Hv. unfold cStateDb_CommitMultiStore, mark_committed. munfold. cbn -[through_ctx].
  destruct (committed d); simpl; [by intros [= _ _ <-]|].
  unfold through_ctx. cbn -[destroy_all].
  destruct (destroy_all now true order _) as [[[]|e|e] l]; intros [= _ _ <-]; try by apply valid_update.
  unfold write_snapshots. apply foldl_inv; [|by apply valid_update]. intros h0 s. apply valid_write.
Qed.

(** A context stays valid whatever is run through others. *)
Lemma sdb_run_valid {A} env (p : Prog S A) c (d : cStateDb C) h :
  ctx_valid h c -> ctx_valid (snd (snd (sdb_run env p (d, h)))) c.
Proof.
  revert d h. induction p as [a|o k IH]; intros d h Hv; simpl; [done|].
  assert (ctx_valid (snd (snd (sdb_step env o (d, h)))) c) as Hs.
  { destruct o; cbv beta iota delta [sdb_step through_ctx]; cbn [fst snd];
      try (destruct (live_step _ _ _ _) as [r1 l1]; cbn [fst snd]; by apply valid_update).
    - unfold cStateDb_Snapshot, newStateDbSnapshotFromStateDb.
      destruct (CacheContext h (currentCtx d)) as [c1 h1] eqn:Ec. by eapply valid_branch.
    - unfold cStateDb_RevertToSnapshot. destruct (id <? 0); [done|].
      destruct (snapshots d !! Z.to_nat (id + 1)); [|done].
      destruct (snapshots d !! pred (Z.to_nat (id + 1))) as [sn|]; [|done].
      destruct (snap_id _ =? id); [|done].
      destruct (CacheContext h (snapshotCtx sn)) as [c1 h1] eqn:Ec. by eapply valid_branch. }
  destruct (sdb_step env o (d, h)) as [[a|e|e] [d1 h1]]; simpl in *; [by apply IH|done|done].
Qed.

Lemma apply_message_valid ctx c msg commit cfg txConfig d :
  preserves (fun h => ctx_valid h d) (apply_message ctx c msg commit cfg txConfig).
Proof.
  assert (forall f, preserves (fun h => ctx_valid h d) (write_ctx c f)) as Hw
    by (intros f h Hv; by apply valid_update).
  assert (forall (A : Type) (f : World S -> res A), preserves (fun h => ctx_valid h d) (read_ctx c f)) as Hr by (by intros A f h).
  assert (forall d0, preserves (fun h => ctx_valid h d) (commitIf now map_order commit d0)) as Hc.
  { intros d0 h Hv. unfold commitIf. destruct commit; [|done].
    destruct (cStateDb_CommitMultiStore _ _ _ _ _) as [r [d1 h1]] eqn:Ec. by eapply commit_valid. }
  unfold ApplyMessageWithConfig. do 2 (apply preserves_bind; [auto with evermint|intros _]).
  apply preserves_bind; [auto with evermint|intros env]. apply preserves_bind; [|intros d0].
  - intros h Hv. unfold NewStateDB, newStateDbSnapshotFromStateDb.
    destruct (CacheContext h c) as [c1 h1] eqn:Ec. by eapply valid_branch.
  - apply preserves_bind; [auto with evermint|intros evm]. apply preserves_bind; [auto with evermint|intros paid].
    apply preserves_bind; [|intros [execResult d1]].
    + intros h Hv. unfold runTransition.
      pose proof (sdb_run_valid env (ApplyMessage_core evm msg (msg_Gas msg) (set_SenderPaidTheFee paid)) d d0 h Hv) as Hs.
      destruct (sdb_run _ _ _) as [[[[]]|e|e] [d1 h1]]; done.
    + unfold finishMessage. repeat (apply preserves_bind; [auto with evermint|intros ?]). auto with evermint.
Qed.

(** The writes of the transient store that record a transaction. *)
Definition record_tx (w : World S) (nlogs : nat) (gasUsed : Z) (bzReceipt : bytes) : World S :=
  SetTxReceiptForCurrentTxTransient
    (SetGasUsedForCurrentTxTransient (SetLogCountForCurrentTxTransient w (Z.of_nat nlogs)) gasUsed) bzReceipt.

(** *** The specification: a message without contexts

    One state before, one after; the branches, the snapshots and the write-back of
    [cStateDb] are gone. *)
(** The end: the receipt, the commit and the record, from the state reached. *)
Definition spec_finish (commit : bool) (txConfig : TxConfig) (result : ExecutionResult) (s : AState S) :
    res MsgEthereumTxResponse * World S :=
  let w := as_base s in
  match txc_TxType txConfig with
  | None => (Panic (Errorf "require tx type set"), w)
  | Some txType =>
      let receipt := execution_receipt txType
        (add_previous_gas w (Z.to_nat (txc_TxIndex txConfig)) 0 (UsedGas result))
        (logs (l_rev (as_cur s))) (exec_Err result) in
      let '(rc, w1) :=
        if commit
        then let '(rc, s2) := astate_commit now (map_order (touched (l_rev (as_cur s)))) true s in (rc, as_base s2)
        else (Ok tt, w) in
      match rc, Receipt_MarshalBinary receipt with
      | Ok _, Ok bz =>
          (Ok (mkMsgEthereumTxResponse (UsedGas result) (exec_Err result) (ReturnData result)
                 (txc_TxHash txConfig) bz),
           record_tx w1 (length (rcpt_Logs receipt)) (UsedGas result) bz)
      | Ok _, Err e => (Err e, w1)
      | Ok _, Panic e => (Panic e, w1)
      | Err e, _ => (Err e, w1)
      | Panic e, _ => (Panic e, w1)
      end
  end.

Definition spec_ApplyMessage (ctx : Ctx) (msg : Message) (commit : bool) (cfg : EVMConfig) (txConfig : TxConfig) :
    M (World S) MsgEthereumTxResponse := fun w =>
  if negb (EnableCreate (cfg_Params cfg)) && bool_decide (msg_To msg = None) then (Err ErrCreateDisabled, w)
  else if negb (EnableCall (cfg_Params cfg)) && negb (bool_decide (msg_To msg = None)) then (Err ErrCallDisabled, w)
  else
    match (env ← NewStateDB_env ctx w (cfg_CoinBase cfg); evm ← new_evm ctx w msg cfg; Ok (env, evm)) with
    | Err e => (Err e, w)
    | Panic e => (Panic e, w)
    | Ok (env, evm) =>
        match astate_run env (ApplyMessage_core evm msg (msg_Gas msg)
                (set_SenderPaidTheFee (IsSenderPaidTxFeeInAnteHandle w))) (astate_new w) with
        | (Ok (Ok result, _), s) => spec_finish commit txConfig result s
        | (Ok (Err e, _), _) => (Err e, w)
        | (Ok (Panic e, _), _) => (Panic e, w)
        | (Err e, _) => (Err e, w)
        | (Panic e, _) => (Panic e, w)
        end
    end.

Lemma write_ctx_view c f (h : H) :
  ctx_valid h c -> exists h', write_ctx c f h = (Ok tt, h') /\ ctx_valid h' c /\ view h' c = f (view h c).
Proof.
  intros Hv. eexists. split; [done|]. split; [by apply valid_update|]. by apply view_update.
Qed.

(** The end of the application, from the result of the execution. *)
Lemma apply_tail c (h : H) nlogs gasUsed bz (resp : MsgEthereumTxResponse) :
  ctx_valid h c ->
  exists h', (write_ctx c (fun w => SetLogCountForCurrentTxTransient w (Z.of_nat nlogs)) ;;
     write_ctx c (fun w => SetGasUsedForCurrentTxTransient w gasUsed) ;;
     write_ctx c (fun w => SetTxReceiptForCurrentTxTransient w bz) ;; mret resp) h = (Ok resp, h') /\
    view h' c = record_tx (view h c) nlogs gasUsed bz.
Proof.
  intros Hv. unfold mbind, M_bind.
  destruct (write_ctx_view c (fun w => SetLogCountForCurrentTxTransient w (Z.of_nat nlogs)) h Hv) as (h1 & -> & V1 & E1).
  destruct (write_ctx_view c (fun w => SetGasUsedForCurrentTxTransient w gasUsed) h1 V1) as (h2 & -> & V2 & E2).
  destruct (write_ctx_view c (fun w => SetTxReceiptForCurrentTxTransient w bz) h2 V2) as (h3 & -> & V3 & E3).
  exists h3. split; [done|]. by rewrite E3, E2, E1.
Qed.

(** The execution: the same result, and the context still reads what it did. *)
Lemma runTransition_spec env evm msg paid (d0 : cStateDb C) (h0 h1 : H) w r :
  refines d0 h0 (astate_new w) -> runTransition env evm msg paid d0 h0 = (r, h1) ->
  match astate_run env (ApplyMessage_core evm msg (msg_Gas msg) (set_SenderPaidTheFee paid)) (astate_new w) with
  | (Ok (Ok result, _), s) => exists d, r = Ok (result, d) /\ refines d h1 s /\ originalCtx d = originalCtx d0
  | (Ok (Err e, _), _) => r = Err e /\ view h1 (originalCtx d0) = w
  | (Ok (Panic e, _), _) => r = Panic e /\ view h1 (originalCtx d0) = w
  | (Err e, _) => r = Err e /\ view h1 (originalCtx d0) = w
  | (Panic e, _) => r = Panic e /\ view h1 (originalCtx d0) = w
  end.
Proof.
  intros R0. unfold runTransition.
  destruct (sdb_run env _ (d0, h0)) as [r1 [d1 h1']] eqn:Er.
  destruct (refines_run _ _ _ _ _ _ _ _ R0 Er) as (s1 & Es & R1). rewrite Es.
  pose proof (sdb_run_original _ _ _ _ _ _ _ Er) as Eo.
  pose proof (astate_run_base _ _ _ _ _ Es) as [Eb _].
  assert (view h1' (originalCtx d0) = w) as Ev by (rewrite <- Eo, (rf_base _ _ _ R1), Eb; done).
  destruct r1 as [[[result|e|e] st]|e|e]; intros [= <- <-]; try done. by exists d1.
Qed.

Lemma finishMessage_spec commit txConfig result (d : cStateDb C) h s :
  refines d h s ->
  let '(r, h') := finishMessage now map_order (originalCtx d) commit txConfig result d h in
  (r, view h' (originalCtx d)) = spec_finish commit txConfig result s.
Proof.
  intros R. unfold finishMessage, spec_finish.
  set (c := originalCtx d). assert (ctx_valid h c) as Hv by (eapply refines_valid; [exact R|by left]).
  unfold mbind at 1, M_bind at 1, gets. cbv beta iota.
  rewrite (rf_base _ _ _ R : view h c = as_base s), (rf_rev _ _ _ R).
  unfold mbind at 1, M_bind at 1, lift_res at 1.
  destruct (txc_TxType txConfig) as [txType|]; [|by rewrite (rf_base _ _ _ R : view h c = as_base s)].
  set (receipt := execution_receipt _ _ _ _). cbv zeta.
  assert (exists rc h1, commitIf now map_order commit d h = (rc, h1) /\
      ctx_valid h1 c /\
      (if commit then let '(rc, s2) := astate_commit now (map_order (touched (l_rev (as_cur s)))) true s in
         (rc, as_base s2) else (Ok tt, as_base s)) = (rc, view h1 c)) as (rc & h1 & E1 & V1 & ->).
  { unfold commitIf. rewrite (rf_rev _ _ _ R). destruct commit; [|exists (Ok tt), h; by rewrite (rf_base _ _ _ R : view h c = as_base s)].
    destruct (cStateDb_CommitMultiStore false now _ true (d, h)) as [rc [d2 h2]] eqn:Ec.
    pose proof (commit_valid _ _ _ _ _ _ _ Hv Ec) as V2.
    destruct (refines_commit _ _ _ _ _ _ _ _ _ R Ec) as (s2 & -> & Ev & _). exists rc, h2.
    split_and!; [done|done|]. fold c in Ev. by rewrite Ev. }
  unfold mbind at 1, M_bind at 1. rewrite E1.
  destruct rc as [[]|e|e]; [|done|done].
  unfold mbind at 1, M_bind at 1, lift_res at 1.
  destruct (Receipt_MarshalBinary receipt) as [bz|e|e]; [|done|done].
  edestruct (apply_tail c h1 (length (rcpt_Logs receipt)) (UsedGas result) bz) as (h2 & -> & Ev); [done|].
  by rewrite Ev.
Qed.

(** After the guards: the StateDB, the EVM and the execution. *)
Lemma apply_body ctx c msg commit cfg txConfig (h : H) :
  ctx_valid h c ->
  let '(r, h') := (env ← read_ctx c (fun w => NewStateDB_env ctx w (cfg_CoinBase cfg));
    d0 ← (fun h => let '(d, h') := NewStateDB c h in (Ok d, h'));
    evm ← read_ctx c (fun w => new_evm ctx w msg cfg);
    paid ← gets (fun h => IsSenderPaidTxFeeInAnteHandle (view h c));
    run ← runTransition env evm msg paid d0;
    let '(execResult, d) := run in finishMessage now map_order c commit txConfig execResult d) h in
  (r, view h' c) = match (env ← NewStateDB_env ctx (view h c) (cfg_CoinBase cfg);
                          evm ← new_evm ctx (view h c) msg cfg; Ok (env, evm)) with
    | Err e => (Err e, view h c)
    | Panic e => (Panic e, view h c)
    | Ok (env, evm) =>
        match astate_run env (ApplyMessage_core evm msg (msg_Gas msg)
                (set_SenderPaidTheFee (IsSenderPaidTxFeeInAnteHandle (view h c)))) (astate_new (view h c)) with
        | (Ok (Ok result, _), s) => spec_finish commit txConfig result s
        | (Ok (Err e, _), _) => (Err e, view h c)
        | (Ok (Panic e, _), _) => (Panic e, view h c)
        | (Err e, _) => (Err e, view h c)
        | (Panic e, _) => (Panic e, view h c)
        end
    end.
Proof.
  intros Hctx. unfold mbind at 1, M_bind at 1, read_ctx at 1.
  destruct (NewStateDB_env ctx (view h c) (cfg_CoinBase cfg)) as [env|e|e]; simpl; try done.
  unfold mbind at 1, M_bind at 1. destruct (NewStateDB c h) as [d0 h0] eqn:E0.
  pose proof (refines_new c h d0 h0 Hctx E0) as R0. pose proof (NewStateDB_original _ _ _ _ E0) as Eo.
  pose proof (rf_base _ _ _ R0) as Ev0. rewrite Eo in Ev0. change (view h0 c = view h c) in Ev0.
  unfold mbind at 1, M_bind at 1, read_ctx at 1. rewrite Ev0.
  destruct (new_evm ctx (view h c) msg cfg) as [evm|e|e]; simpl; try (by rewrite Ev0).
  unfold mbind at 1, M_bind at 1, gets at 1. rewrite Ev0. unfold mbind at 1, M_bind at 1.
  destruct (runTransition env evm msg _ d0 h0) as [r1 h1] eqn:Er.
  pose proof (runTransition_spec _ _ _ _ _ _ _ _ _ R0 Er) as Hr.
  destruct (astate_run env _ (astate_new (view h c))) as [[[[result|e|e] st]|e|e] s] eqn:Es;
    try (destruct Hr as [-> Hv]; rewrite Eo in Hv; by rewrite Hv).
  destruct Hr as (d & -> & R & Ed). pose proof (finishMessage_spec commit txConfig result d h1 s R) as Hf.
  rewrite Ed, Eo in Hf. by destruct (finishMessage now map_order c commit txConfig result d h1) as [r h'].
Qed.

Lemma apply_message_spec (ctx : Ctx) (c : C) (msg : Message) (commit : bool) (cfg : EVMConfig)
  (txConfig : TxConfig) (h : H) :
  ctx_valid h c ->
  let '(r, h') := apply_message ctx c msg commit cfg txConfig h in
  let '(r2, w2) := spec_ApplyMessage ctx msg commit cfg txConfig (view h c) in
  r = r2 /\ view h' c = w2.
Proof.
  intros Hctx.
  pose proof (apply_body ctx c msg commit cfg txConfig h Hctx) as Hb. revert Hb.
  unfold ApplyMessageWithConfig, spec_ApplyMessage.
  match goal with |- (let '(_, _) := ?m h in _) -> _ => set (body := m) end. cbv zeta.
  destruct (body h) as [r h'] eqn:Eb. intros <-.
  unfold mbind at 1, M_bind at 1, require at 1.
  destruct (EnableCreate (cfg_Params cfg)), (bool_decide (msg_To msg = None)); cbn [negb orb andb]; try done;
    unfold mbind at 1, M_bind at 1, require at 1;
    destruct (EnableCall (cfg_Params cfg)); cbn [negb orb andb]; try done;
    unfold mret at 1, M_ret at 1; try unfold mret at 1, M_ret at 1; fold body; rewrite Eb; done.
Qed.

(** C2 Applying a message through contexts does what the specification does: whatever
    the EVM executes, with or without a commit, the response or error is the same, and
    the context the message was applied to then reads exactly the state of the
    specification; in particular nothing of an execution that is not committed, is
    rejected or panics is visible in it. *)
Theorem apply_message_implements_spec (ctx : Ctx) (c : C) (msg : Message) (commit : bool) (cfg : EVMConfig)
  (txConfig : TxConfig) (h : H) (Hctx : ctx_valid h c) :
  let '(r, h') := apply_message ctx c msg commit cfg txConfig h in
  let '(r2, w2) := spec_ApplyMessage ctx msg commit cfg txConfig (view h c) in
  r = r2 /\ view h' c = w2.
Proof. by apply apply_message_spec. Qed.

(** *** The gas of a transaction *)

Lemma spec_finish_gas commit txConfig result s resp w :
  spec_finish commit txConfig result s = (Ok resp, w) -> resp_GasUsed resp = UsedGas result.
Proof.
  unfold spec_finish. destruct (txc_TxType txConfig); [|done]. cbv zeta.
  destruct (if commit then _ else _) as [[[]|e|e] w1]; [|done|done].
  destruct (Receipt_MarshalBinary _); by intros [= <- _].
Qed.

Lemma spec_ApplyMessage_gas ctx msg commit cfg txConfig (w w' : World S) resp :
  is_u64 (msg_Gas msg) -> spec_ApplyMessage ctx msg commit cfg txConfig w = (Ok resp, w') ->
  0 <= resp_GasUsed resp <= msg_Gas msg.
Proof.
  intros Hg. unfold spec_ApplyMessage. do 2 (case_match; [done|]).
  destruct (NewStateDB_env _ _ _ ≫= _) as [[env evm]|e|e]; [|done|done].
  destruct (astate_run env _ _) as [[[r st]|e|e] s] eqn:Er; [|done|done].
  assert (astate_inv refund_ok (astate_new w)) as Hs by (by apply astate_new_inv).
  pose proof (TransitionDb_gas env evm msg (msg_Gas msg) _ _ Hg Hg Hs _ _ _ Er) as Ha.
  destruct r as [result|e|e]; [|done|done]. destruct Ha as (i & _ & _ & Hu & _).
  intros Ef. by rewrite (spec_finish_gas _ _ _ _ _ _ Ef).
Qed.

Lemma settle_gas_spec (apply : M H MsgEthereumTxResponse) (h : H) (g : infiniteGasMeterWithLimit) :
  is_u64 (gm_consumed g) -> is_u64 (gm_limit g) ->
  (forall resp h', apply h = (Ok resp, h') -> is_u64 (resp_GasUsed resp)) ->
  settle_gas apply (h, g) =
    let '(r, h') := apply h in
    (r, (h', match r with
             | Ok resp => mkGasMeter (resp_GasUsed resp) (gm_limit g)
             | Err _ => mkGasMeter (gm_limit g) (gm_limit g)
             | Panic _ => g
             end)).
Proof.
  intros Hc Hl Hr. unfold settle_gas, in_store, in_meter, zoom. simpl.
  destruct (apply h) as [[resp|e|e] h'] eqn:Ea; simpl; [| |done]; unfold mbind, M_bind; simpl.
  - rewrite ResetGasMeter_ok by eauto. done.
  - unfold GasMeter_Limit. by rewrite ResetGasMeter_ok.
Qed.

End ExecutionProofs.
