(* ===== verification/VAuth.v ===== *)
(** * Proofs of external ownership

    The module in which an account proves, by a signature, that it is owned by a key
    (x/vauth): the verification of a signature (utils/verification.go), the proof and
    the message with their checks (types), the store (keeper/proof.go) and the handler
    of MsgSubmitProofExternalOwnedAccount (keeper/msg_server_submit_proof_...go).
    go-ethereum's [Ecrecover] is a parameter; Go's hexadecimal text is modelled. *)

From Stdlib Require Import Strings.Byte Strings.Ascii Strings.String.
From stdpp Require Import base gmap list strings.
From S2P Require Import Prelude Sdk Geth EvmTypes EvmStore StateDB StateDBEffects Cpc.

(** ** encoding/hex *)

Definition hex_digit (n : Z) : ascii :=
  if n <? 10 then ascii_of_nat (Z.to_nat (48 + n)) else ascii_of_nat (Z.to_nat (87 + n)).
Definition fromHexChar (c : ascii) : option Z :=
  let n := Z.of_nat (nat_of_ascii c) in
  if (48 <=? n) && (n <=? 57) then Some (n - 48)
  else if (97 <=? n) && (n <=? 102) then Some (n - 87)
  else if (65 <=? n) && (n <=? 70) then Some (n - 55)
  else None.

Fixpoint EncodeToString (b : bytes) : string :=
  match b with
  | [] => EmptyString
  | x :: b' => String (hex_digit (Z_of_byte x / 16)) (String (hex_digit (Z_of_byte x mod 16)) (EncodeToString b'))
  end.
(** An odd length or another character is an error. *)
Fixpoint DecodeString (s : string) : res bytes :=
  match s with
  | EmptyString => Ok []
  | String c (String d s') =>
      match fromHexChar c, fromHexChar d with
      | Some hi, Some lo => b ← DecodeString s'; Ok (byte_of_Z (16 * hi + lo) :: b)
      | _, _ => Err (Errorf "encoding/hex: invalid byte")
      end
  | String _ EmptyString => Err (Errorf "encoding/hex: odd length hex string")
  end.

(** [strings.HasPrefix(s, "0x")] and [s[2:]] *)
Definition has_0x (s : string) : bool := String.prefix "0x" s.
Definition drop_0x (s : string) : string := String.substring 2 (String.length s - 2) s.

(** ** Proofs and messages *)

Record ProofExternalOwnedAccount : Type := mkProof {
  proof_Account : string;
  proof_Hash : string;
  proof_Signature : string
}.
Record MsgSubmitProofExternalOwnedAccount : Type := mkMsgSubmitProof {
  msgproof_Submitter : string;
  msgproof_Account : string;
  msgproof_Signature : string
}.

Definition VAuthModuleName : string := "vauth".
Definition MessageToSign : string := VAuthModuleName.
Definition CostSubmitProofExternalOwnedAccount : Z := 10 ^ 18.
Definition KeyPrefixProofExternalOwnedAccount : bytes := [x01].
Definition KeyProofExternalOwnedAccountByAddress (accAddr : bytes) : bytes :=
  KeyPrefixProofExternalOwnedAccount ++ accAddr.

Section VAuth.
Context {S : Type} {K : SdkKeepers S} {G : Geth} {B : Bech32}.
Context {P : Codec EvmParams} {PP : Codec ProofExternalOwnedAccount}.
(** [crypto.Ecrecover(hash, signature)]: the uncompressed public key *)
Variable Ecrecover : bytes -> bytes -> res bytes.
Implicit Types w : World S.

Definition VerifySignature (address : Address) (signature : bytes) (message : string) : res bool :=
  if decide (signature = []) then Panic (Errorf "signature cannot be empty")
  else if decide (message = ""%string) then Panic (Errorf "message cannot be empty")
  else
    sigPublicKey ← Ecrecover (farr_bytes (Keccak256Hash (string_bytes message))) signature;
    match sigPublicKey with
    | [] => Panic IndexOutOfRange
    | _ :: key =>
        let publicAddress := BytesToAddress (drop 12 (farr_bytes (Keccak256Hash key))) in
        Ok (bool_decide (address = publicAddress))
    end.

(** The end of both checks: the signature is of the account. *)
Definition check_signature (accAddr : bytes) (signature : string) : res unit :=
  match DecodeString (drop_0x signature) with
  | Ok [] | Err _ => Err ErrInvalidRequest
  | Panic e => Panic e
  | Ok bzSignature =>
      verified ← wrap_res ErrInvalidRequest (VerifySignature (BytesToAddress accAddr) bzSignature MessageToSign);
      if verified : bool then Ok tt else Err ErrInvalidRequest
  end.

(** [common.HexToHash(s).String()] *)
Definition normal_hash (s : string) : string := String.append "0x" (EncodeToString (farr_bytes (HexToHash s))).

Definition Proof_ValidateBasic (m : ProofExternalOwnedAccount) : res unit :=
  accAddr ← wrap_res ErrInvalidRequest (AccAddressFromBech32 (proof_Account m));
  if negb (has_0x (proof_Hash m)) then Err ErrInvalidRequest
  else if negb (bool_decide (ToLower (normal_hash (proof_Hash m)) = proof_Hash m)) then Err ErrInvalidRequest
  else if negb (has_0x (proof_Signature m)) then Err ErrInvalidRequest
  else if negb (bool_decide (ToLower (proof_Signature m) = proof_Signature m)) then Err ErrInvalidRequest
  else check_signature accAddr (proof_Signature m).

Definition MsgSubmitProof_ValidateBasic (m : MsgSubmitProofExternalOwnedAccount) : res unit :=
  submitterAccAddr ← wrap_res ErrInvalidRequest (AccAddressFromBech32 (msgproof_Submitter m));
  accAddr ← wrap_res ErrInvalidRequest (AccAddressFromBech32 (msgproof_Account m));
  if bool_decide (submitterAccAddr = accAddr) then Err ErrInvalidRequest
  else if negb (has_0x (msgproof_Signature m)) then Err ErrInvalidRequest
  else check_signature accAddr (msgproof_Signature m).

(** ** The store *)

Definition SaveProofExternalOwnedAccount (proof : ProofExternalOwnedAccount) : M (World S) unit :=
  lift_res (Proof_ValidateBasic proof) ;;
  accAddr ← lift_res (must_res (AccAddressFromBech32 (proof_Account proof)));
  bz ← lift_res (must_res (Marshal proof));
  modify (fun w => set_vauth (kv_set (w_vauth w) (KeyProofExternalOwnedAccountByAddress accAddr) bz) w).

Definition GetProofExternalOwnedAccount w (accAddr : bytes) : res (option ProofExternalOwnedAccount) :=
  let bz := kv_get (w_vauth w) (KeyProofExternalOwnedAccountByAddress accAddr) in
  if decide (length bz = 0%nat) then Ok None
  else proof ← must_res (Unmarshal bz); Ok (Some proof).

Definition HasProofExternalOwnedAccount w (accAddr : bytes) : bool :=
  kv_has (w_vauth w) (KeyProofExternalOwnedAccountByAddress accAddr).

(** ** The handler *)

Definition vauth_bank (f : S -> res S) : M (World S) unit :=
  run_upd (fun w => s ← f (w_sdk w); Ok (set_sdk s w)).

Definition proof_of (msg : MsgSubmitProofExternalOwnedAccount) : ProofExternalOwnedAccount :=
  mkProof (msgproof_Account msg)
    (String.append "0x" (EncodeToString (farr_bytes (Keccak256Hash (string_bytes MessageToSign)))))
    (msgproof_Signature msg).

Definition SubmitProofExternalOwnedAccount (msg : MsgSubmitProofExternalOwnedAccount) : M (World S) unit :=
  lift_res (MsgSubmitProof_ValidateBasic msg) ;;
  account ← lift_res (must_res (AccAddressFromBech32 (msgproof_Account msg)));
  has ← gets (fun w => HasProofExternalOwnedAccount w account);
  require (negb has) ErrConflict ;;
  evmParams ← (fun w => (Keeper_GetParams w, w));
  fees ← lift_res (NewCoins1 (EvmDenom evmParams) CostSubmitProofExternalOwnedAccount);
  submitter ← lift_res (must_res (AccAddressFromBech32 (msgproof_Submitter msg)));
  vauth_bank (fun s => SendCoinsFromAccountToModule s submitter VAuthModuleName fees) ;;
  vauth_bank (fun s => BurnCoins s VAuthModuleName fees) ;;
  or_panic (Errorf "proof cannot be saved") (SaveProofExternalOwnedAccount (proof_of msg)).

(** ** Lemmas *)

Lemma fromHexChar_digit n : 0 <= n < 16 -> fromHexChar (hex_digit n) = Some n.
Proof.
  intros Hn. assert (n ∈ seqZ 0 16) as Hin by (apply elem_of_seqZ; lia).
  revert Hin. clear Hn. vm_compute (seqZ 0 16).
  rewrite !elem_of_cons, elem_of_nil. intros Hin. repeat destruct Hin as [->|Hin]; try done.
Qed.

Lemma DecodeString_Encode b : DecodeString (EncodeToString b) = Ok b.
Proof.
  induction b as [|x b IH]; [done|]. simpl.
  pose proof (Z_of_byte_range x) as Hx.
  rewrite !fromHexChar_digit by (try apply Z.mod_pos_bound; try split; try apply Z.div_pos; try apply Z.div_lt_upper_bound; lia).
  rewrite IH. unfold mbind, res_bind. rewrite <- Z.div_mod by lia. by rewrite byte_of_Z_of_byte.
Qed.

Lemma ToLower_cons c s : ToLower (String c s) = String (lower_char c) (ToLower s).
Proof. done. Qed.

Lemma lower_hex_digit n : 0 <= n < 16 -> lower_char (hex_digit n) = hex_digit n.
Proof.
  intros Hn. assert (n ∈ seqZ 0 16) as Hin by (apply elem_of_seqZ; lia).
  revert Hin. clear Hn. vm_compute (seqZ 0 16).
  rewrite !elem_of_cons, elem_of_nil. intros Hin. repeat destruct Hin as [->|Hin]; try done.
Qed.

Lemma ToLower_Encode b : ToLower (EncodeToString b) = EncodeToString b.
Proof.
  induction b as [|x b IH]; [done|]. cbn [EncodeToString]. rewrite !ToLower_cons, IH.
  pose proof (Z_of_byte_range x) as Hx.
  by rewrite !lower_hex_digit by (try apply Z.mod_pos_bound; try split; try apply Z.div_pos; try apply Z.div_lt_upper_bound; lia).
Qed.

(** What a valid message says: two different accounts, and a signature of the account. *)
Lemma MsgSubmitProof_ValidateBasic_ok m :
  MsgSubmitProof_ValidateBasic m = Ok tt ->
  exists submitter account, AccAddressFromBech32 (msgproof_Submitter m) = Ok submitter /\
    AccAddressFromBech32 (msgproof_Account m) = Ok account /\ submitter <> account /\
    has_0x (msgproof_Signature m) = true /\ check_signature account (msgproof_Signature m) = Ok tt.
Proof.
  unfold MsgSubmitProof_ValidateBasic, wrap_res, mbind, res_bind.
  destruct (AccAddressFromBech32 (msgproof_Submitter m)) as [sub|e|e]; [|done|done].
  destruct (AccAddressFromBech32 (msgproof_Account m)) as [acc|e|e]; [|done|done].
  case_bool_decide; [done|]. destruct (has_0x _) eqn:E0; simpl; [|done]. eauto 10.
Qed.

Definition signed_by (account : bytes) (signature : string) : Prop :=
  exists bz pk, DecodeString (drop_0x signature) = Ok bz /\ bz <> [] /\
    Ecrecover (farr_bytes (Keccak256Hash (string_bytes MessageToSign))) bz = Ok pk /\ pk <> [] /\
    BytesToAddress account = BytesToAddress (drop 12 (farr_bytes (Keccak256Hash (tail pk)))).

Lemma check_signature_ok account sig :
  check_signature account sig = Ok tt -> signed_by account sig.
Proof.
  unfold check_signature, VerifySignature, wrap_res, mbind, res_bind.
  destruct (DecodeString (drop_0x sig)) as [bz|e|e] eqn:Ed; [|done|done].
  destruct bz as [|b bz]; [done|]. rewrite !decide_False by done.
  destruct (Ecrecover _ _) as [pk|e|e] eqn:Ee; [|done|done]. destruct pk as [|b0 pk]; [done|].
  case_bool_decide as Ha; [|done]. intros _. by exists (b :: bz), (b0 :: pk).
Qed.

Context {L : SdkLaws S} {PL : CodecLaws ProofExternalOwnedAccount}.

(** The proof made from a valid message is valid exactly when the text of the signature
    is lower case. *)
Lemma Proof_ValidateBasic_of msg :
  HexToHash (proof_Hash (proof_of msg)) = Keccak256Hash (string_bytes MessageToSign) ->
  MsgSubmitProof_ValidateBasic msg = Ok tt ->
  Proof_ValidateBasic (proof_of msg) =
    if decide (ToLower (msgproof_Signature msg) = msgproof_Signature msg) then Ok tt else Err ErrInvalidRequest.
Proof.
  intros Hh Hv. apply MsgSubmitProof_ValidateBasic_ok in Hv as (sub & acc & _ & Ea & _ & E0 & Ec).
  unfold Proof_ValidateBasic, normal_hash. rewrite Hh. cbn [proof_of proof_Account proof_Signature].
  rewrite Ea. unfold wrap_res, mbind, res_bind.
  assert (has_0x (proof_Hash (proof_of msg)) = true) as ->
    by (unfold has_0x, proof_of; cbn [proof_Hash]; generalize (EncodeToString (farr_bytes (Keccak256Hash (string_bytes MessageToSign)))); by intros []).
  cbn [negb].
  rewrite bool_decide_eq_true_2.
  2:{ cbn [proof_of proof_Hash]. change (String.append "0x" ?x) with (String "0" (String "x" x)).
      by rewrite !ToLower_cons, ToLower_Encode. }
  rewrite E0, Ec. cbn [negb]. case_bool_decide; case_decide; done.
Qed.

(** The module may burn, and nobody else took the address of its account. *)
Record vauth_ready (s : S) : Prop := {
  vauth_burner : HasBurner (S:=S) VAuthModuleName = true;
  vauth_free : module_free s VAuthModuleName
}.

(** Paying a module that burns what it gets. *)
Lemma pay_and_burn s f c :
  vauth_ready s -> coins_valid c -> can_spend s f c ->
  exists s1 s2, SendCoinsFromAccountToModule s f VAuthModuleName c = Ok s1 /\
    BurnCoins s1 VAuthModuleName c = Ok s2 /\
    bank_delta s s2 (minus_at f c) (fun d => - AmountOf c d).
Proof.
  intros [Hb Hf] Hv Hs.
  destruct (send_to_module_progress _ _ VAuthModuleName _ Hv Hs) as [s1 E1]; [by right|done|].
  pose proof E1 as H1. apply send_to_module_ok in H1 as (M1 & K1 & (acc & Ha & Hk) & P1).
  assert (module_free s1 VAuthModuleName) as Hf1 by (intros acc'; rewrite Ha; by intros [= <-]).
  assert (forall s0 d, module_free s0 VAuthModuleName -> LockedCoins s0 (GetModuleAddress VAuthModuleName) d = 0) as Hl.
  { intros s0 d H0. apply locked_unvesting. intros a E. right. by apply H0. }
  destruct (burn_progress s1 VAuthModuleName c Hv Hb Hf1) as [s2 E2].
  { intros d. rewrite (Hl s1 d Hf1), M1. pose proof (balance_nonneg s (GetModuleAddress VAuthModuleName) d).
    pose proof (coins_amount_nonneg c d Hv). specialize (Hs d).
    repeat case_decide; subst; try done; try lia. rewrite (Hl s d Hf) in Hs. lia. }
  exists s1, s2. split_and!; [done|done|]. apply burn_ok in E2 as (M2 & _ & _ & P2). split.
  - intros x d. rewrite M2, M1. unfold minus_at. repeat case_decide; lia.
  - intros d. rewrite P2, P1. lia.
Qed.

(** Submitting a proof: a valid message for an account without a proof, from a
    submitter who can pay, succeeds when the signature is written in lower case: it
    burns exactly 10^18 of the EVM coin of the submitter and stores the proof, which is
    then found under the account, is signed by it, and cannot be submitted again.  With
    upper-case digits the same valid message makes the handler panic. *)
Theorem submit_proof_spec (msg : MsgSubmitProofExternalOwnedAccount) (w : World S) (p : EvmParams)
  (submitter account bz : bytes)
  (Hvalid : MsgSubmitProof_ValidateBasic msg = Ok tt)
  (Hsubmitter : AccAddressFromBech32 (msgproof_Submitter msg) = Ok submitter)
  (Haccount : AccAddressFromBech32 (msgproof_Account msg) = Ok account)
  (Hnew : HasProofExternalOwnedAccount w account = false)
  (Hparams : Keeper_GetParams w = Ok p) (Hready : vauth_ready (w_sdk w))
  (Hpay : can_spend (w_sdk w) submitter [(EvmDenom p, CostSubmitProofExternalOwnedAccount)])
  (Hhash : HexToHash (proof_Hash (proof_of msg)) = Keccak256Hash (string_bytes MessageToSign))
  (Hcodec : Marshal (proof_of msg) = Ok bz) (Hbz : bz <> []) :
  if decide (ToLower (msgproof_Signature msg) = msgproof_Signature msg) then
    exists w', SubmitProofExternalOwnedAccount msg w = (Ok tt, w') /\
      GetProofExternalOwnedAccount w' account = Ok (Some (proof_of msg)) /\
      signed_by account (proof_Signature (proof_of msg)) /\
      SubmitProofExternalOwnedAccount msg w' = (Err ErrConflict, w') /\
      bank_delta (w_sdk w) (w_sdk w')
        (at_account submitter (EvmDenom p) (- CostSubmitProofExternalOwnedAccount))
        (at_denom (EvmDenom p) (- CostSubmitProofExternalOwnedAccount))
  else exists w', SubmitProofExternalOwnedAccount msg w = (Panic (Errorf "proof cannot be saved"), w').
Proof.
  destruct (MsgSubmitProof_ValidateBasic_ok _ Hvalid) as (sub & acc & _ & Ha & _ & _ & Hc).
  rewrite Haccount in Ha. injection Ha as <-.
  destruct (pay_and_burn (w_sdk w) submitter [(EvmDenom p, CostSubmitProofExternalOwnedAccount)])
    as (s1 & s2 & E1 & E2 & Hd); [done|by apply coins_valid_single|done|].
  pose proof (Proof_ValidateBasic_of msg Hhash Hvalid) as Hp.
  assert (SubmitProofExternalOwnedAccount msg w =
    or_panic (Errorf "proof cannot be saved") (SaveProofExternalOwnedAccount (proof_of msg)) (set_sdk s2 w)) as Erun.
  { unfold SubmitProofExternalOwnedAccount, vauth_bank. munfold. rewrite Hvalid, Haccount, Hnew. simpl.
    rewrite Hparams, Hsubmitter. simpl. rewrite E1. simpl. by rewrite E2. }
  rewrite Erun. unfold SaveProofExternalOwnedAccount. munfold. rewrite Hp.
  destruct (decide (ToLower _ = _)) as [Hlow|Hup]; [|by eexists].
  cbn [proof_of proof_Account] in *. rewrite Haccount, Hcodec. eexists. split; [done|].
  split_and!.
  - unfold GetProofExternalOwnedAccount. cbv zeta. cbn [w_vauth set_vauth]. rewrite kv_get_set_eq.
    rewrite decide_False by (by destruct bz). by rewrite (codec_round _ _ Hcodec).
  - by apply check_signature_ok.
  - unfold SubmitProofExternalOwnedAccount. munfold. rewrite Hvalid, Haccount.
    unfold HasProofExternalOwnedAccount, kv_has, kv_set. cbn [w_vauth set_vauth].
    rewrite lookup_insert, decide_True by done. by rewrite bool_decide_eq_true_2 by eauto.
  - eapply bank_delta_ext; [| |exact Hd]; [intros x d; apply minus_at_single|].
    intros d. unfold at_denom. rewrite AmountOf_single. case_decide; lia.
Qed.

(** Whatever the handler does, the stored proofs are valid. *)
Definition proofs_valid (w : World S) : Prop :=
  forall account bz, w_vauth w !! KeyProofExternalOwnedAccountByAddress account = Some bz ->
    exists proof, Marshal proof = Ok bz /\ AccAddressFromBech32 (proof_Account proof) = Ok account /\
      Proof_ValidateBasic proof = Ok tt.

Lemma save_proof_valid proof : preserves proofs_valid (SaveProofExternalOwnedAccount proof).
Proof.
  intros w Hw. unfold SaveProofExternalOwnedAccount. munfold.
  destruct (Proof_ValidateBasic proof) as [[]|e|e] eqn:Ev; [|done|done].
  destruct (AccAddressFromBech32 (proof_Account proof)) as [a|e|e] eqn:Ea; [|done|done].
  destruct (Marshal proof) as [bz|e|e] eqn:Em; [|done|done].
  intros account bz'. simpl. unfold kv_set. rewrite lookup_insert_Some. intros [[E <-]|[_ Hl]]; [|by apply Hw].
  apply (app_inv_head KeyPrefixProofExternalOwnedAccount) in E. subst. eauto.
Qed.

Lemma vauth_bank_valid f : preserves proofs_valid (vauth_bank f).
Proof.
  apply preserves_run_upd. intros w w'. unfold mbind, res_bind. destruct (f (w_sdk w)); by intros [= <-].
Qed.

(** C21 Only proven accounts are in the store: whatever messages are submitted, valid or
    not, and however they end, every stored proof decodes to a proof of the account it
    is stored under that passes the validation, signature included. *)
Theorem stored_proofs_valid (msgs : list MsgSubmitProofExternalOwnedAccount) (w : World S)
  (Hw : proofs_valid w) :
  proofs_valid (foldl (fun w msg => snd (SubmitProofExternalOwnedAccount msg w)) w msgs).
Proof.
  apply foldl_inv; [|done]. clear w Hw. intros w msg. revert w.
  change (preserves proofs_valid (SubmitProofExternalOwnedAccount msg)).
  unfold SubmitProofExternalOwnedAccount.
  repeat (apply preserves_bind; [auto using vauth_bank_valid with evermint|intros ?]).
  - by intros w Hw.
  - apply preserves_or_panic, save_proof_valid.
Qed.
End VAuth.
