(* ===== verification/Ledger.v ===== *)
(** * The driver of Ledger hardware wallets

    wallets/usbwallet/ledger.go: messages cut into frames of 64 bytes, the commands built
    on them, and the state of the driver.  The USB device is an interface with a state of
    its own; keys and addresses are those of go-ethereum.  Both loops over frames run on
    fuel: the one that writes has enough by the length of the message, the one that reads
    goes on for as long as the device makes it, and [None] stands for a read that is not
    finished. *)

From Stdlib Require Import Strings.Byte.
From stdpp Require Import base gmap list strings.
From S2P Require Import Prelude Sdk Geth VAuth Keys.

Definition errLedgerReplyInvalidHeader : gerr := Errorf "ledger: invalid reply header".
Definition errLedgerInvalidVersionReply : gerr := Errorf "ledger: invalid version reply".
Definition ErrWalletClosed : gerr := Errorf "wallet closed".

Definition ledgerOpRetrieveAddress : byte := x02.
Definition ledgerOpGetConfiguration : byte := x06.
Definition ledgerOpSignTypedMessage : byte := x0c.
Definition ledgerP1DirectlyFetchAddress : byte := x00.
Definition ledgerP1InitTypedMessageData : byte := x00.
Definition ledgerP2DiscardAddressChainCode : byte := x00.

(** [io.ReadWriter] of the device: [dev_ReadFull n] reads exactly [n] bytes or fails. *)
Class Device (D : Type) : Type := {
  dev_Write : bytes -> M D unit;
  dev_ReadFull : nat -> M D bytes
}.
(** Of go-ethereum: [accounts.DefaultBaseDerivationPath] and [crypto.UnmarshalPubkey]. *)
Class LedgerCrypto {C : Curve} : Type := {
  DefaultBaseDerivationPath : list Z;
  UnmarshalPubkey : bytes -> res Point
}.

Record ledgerDriver : Type := mkLedgerDriver {
  ldg_version : byte * byte * byte;
  ldg_browser : bool;
  ldg_failure : option gerr
}.
Definition newLedgerDriver : ledgerDriver := mkLedgerDriver (x00, x00, x00) false None.
Definition offline (w : ledgerDriver) : bool := bool_decide (ldg_version w = (x00, x00, x00)).
Inductive LedgerStatus : Type := Failed (e : gerr) | BrowserMode | AppOffline | AppOnline (version : byte * byte * byte).
Definition Ledger_Status (w : ledgerDriver) : LedgerStatus :=
  match ldg_failure w with
  | Some e => Failed e
  | None => if ldg_browser w then BrowserMode else if offline w then AppOffline else AppOnline (ldg_version w)
  end.

(** ** Frames *)

(** Channel and tag, before the sequence number. *)
Definition frame_header : bytes := [x01; x01; x05].
Definition chunk_space : nat := 59.
Definition frame (i : Z) (payload : bytes) : bytes := frame_header ++ be_encode 2 i ++ payload.

Definition apdu_of (opcode p1 p2 : byte) (data : bytes) : bytes :=
  be_encode 2 (5 + Z.of_nat (length data)) ++ [xe0; opcode; p1; p2; byte_of_Z (Z.of_nat (length data))] ++ data.

Section Exchange.
Context {C : Curve} {D : Type} {DV : Device D}.

Fixpoint send_chunks (fuel : nat) (i : Z) (apdu : bytes) : M D unit :=
  match fuel, apdu with
  | _, [] => mret tt
  | O, _ => mret tt
  | S fuel', _ =>
      if decide (chunk_space < length apdu)%nat
      then dev_Write (frame i (take chunk_space apdu)) ;; send_chunks fuel' (i + 1) (drop chunk_space apdu)
      else dev_Write (frame i apdu)
  end.

(** [cap] is the capacity of the reply so far. *)
Fixpoint read_chunks (fuel : nat) (reply : bytes) (cap : nat) : M D (option bytes) :=
  match fuel with
  | O => mret None
  | S fuel' =>
      chunk ← dev_ReadFull 64;
      if negb (bool_decide (take 3 chunk = frame_header)) then err errLedgerReplyInvalidHeader
      else
        let first := bool_decide (take 2 (drop 3 chunk) = [x00; x00]) in
        let cap := if (first : bool) then Z.to_nat (be_decode (take 2 (drop 5 chunk))) else cap in
        let reply := if (first : bool) then [] else reply in
        let payload := drop (if (first : bool) then 7 else 5) chunk in
        let left := (cap - length reply)%nat in
        if decide (length payload < left)%nat then read_chunks fuel' (reply ++ payload) cap
        else mret (Some (reply ++ take left payload))
  end.

(** The status word at the end of a reply is dropped. *)
Definition drop_status (reply : bytes) : res bytes :=
  if decide (length reply < 2)%nat then Panic IndexOutOfRange else Ok (take (length reply - 2) reply).

Definition ledgerExchange (fuel : nat) (opcode p1 p2 : byte) (data : bytes) : M D (option bytes) :=
  let apdu := apdu_of opcode p1 p2 data in
  send_chunks (length apdu) 0 apdu ;;
  reply ← read_chunks fuel [] 0;
  match reply with
  | None => mret None
  | Some reply => reply ← lift_res (drop_status reply); mret (Some reply)
  end.

(** ** Commands *)

Context {LC : LedgerCrypto}.
Variable fuel : nat.

(** A command that waits for the device is not finished either. *)
Definition with_reply {A} (m : M D (option bytes)) (f : bytes -> res A) : M D (option A) :=
  reply ← m;
  match reply with
  | None => mret None
  | Some reply => x ← lift_res (f reply); mret (Some x)
  end.

Definition version_of (reply : bytes) : res (byte * byte * byte) :=
  match reply with
  | [_; a; b; c] => Ok (a, b, c)
  | _ => Err errLedgerInvalidVersionReply
  end.
Definition ledgerVersion : M D (option (byte * byte * byte)) :=
  with_reply (ledgerExchange fuel ledgerOpGetConfiguration x00 x00 []) version_of.

Definition flatten_path (derivationPath : list Z) : bytes :=
  byte_of_Z (Z.of_nat (length derivationPath)) :: concat (be_encode 4 <$> derivationPath).

(** An entry with its length in front, and the rest. *)
Definition length_entry (missing : gerr) (reply : bytes) : res (bytes * bytes) :=
  match reply with
  | [] => Err missing
  | n :: rest => let n := Z.to_nat (Z_of_byte n) in
                 if decide (length rest < n)%nat then Err missing else Ok (take n rest, drop n rest)
  end.
(** [hex.Decode] into an array: what does not fit is a panic, unless the text is wrong
    before. *)
Fixpoint hex_Decode (room : nat) (src : string) : res bytes :=
  match src with
  | EmptyString => Ok []
  | String c (String d src') =>
      match fromHexChar c, fromHexChar d with
      | Some hi, Some lo =>
          match room with
          | O => Panic IndexOutOfRange
          | S room' => b ← hex_Decode room' src'; Ok (byte_of_Z (16 * hi + lo) :: b)
          end
      | _, _ => Err (Errorf "encoding/hex: invalid byte")
      end
  | String _ EmptyString => Err (Errorf "encoding/hex: odd length hex string")
  end.
Definition hex_address (hexStr : bytes) : res Address :=
  bz ← hex_Decode 20 (String.string_of_list_byte hexStr);
  Ok (farr_of 20 (bz ++ replicate (20 - length bz) x00)).
Definition derived_of (reply : bytes) : res (Address * Point) :=
  '(pubkeyBz, reply) ← length_entry (Errorf "reply lacks public key entry") reply;
  publicKey ← wrap_res (Errorf "failed to unmarshal public key") (UnmarshalPubkey pubkeyBz);
  '(hexStr, _) ← length_entry (Errorf "reply lacks address entry") reply;
  address ← hex_address hexStr;
  if decide (Point_Address publicKey = address) then Ok (address, publicKey) else Err (Errorf "address mismatch").
Definition ledgerDerive (derivationPath : list Z) : M D (option (Address * Point)) :=
  with_reply (ledgerExchange fuel ledgerOpRetrieveAddress ledgerP1DirectlyFetchAddress ledgerP2DiscardAddressChainCode
    (flatten_path derivationPath)) derived_of.

(** The recovery byte moves from the front to the end. *)
Definition signature_of (reply : bytes) : res bytes :=
  match reply with
  | v :: rs => if decide (length reply = 65%nat) then Ok (rs ++ [v]) else Err (Errorf "reply lacks signature")
  | [] => Err (Errorf "reply lacks signature")
  end.
Definition ledgerSignTypedMessage (derivationPath : list Z) (domainHash messageHash : bytes) : M D (option bytes) :=
  with_reply (ledgerExchange fuel ledgerOpSignTypedMessage ledgerP1InitTypedMessageData x00
    (flatten_path derivationPath ++ domainHash ++ messageHash)) signature_of.

(** ** The driver *)

Definition on_device {A} (m : M D A) : M (D * ledgerDriver) A := zoom fst (fun d s => (d, snd s)) m.
Definition set_driver (f : ledgerDriver -> ledgerDriver) : M (D * ledgerDriver) unit := modify (fun s => (fst s, f (snd s))).

Definition Ledger_Open : M (D * ledgerDriver) (option unit) := fun s =>
  let '(d, w) := s in
  let w := mkLedgerDriver (ldg_version w) (ldg_browser w) None in
  match ledgerDerive DefaultBaseDerivationPath d with
  | (Panic e, d) => (Panic e, (d, w))
  | (Ok None, d) => (Ok None, (d, w))
  | (Err e, d) =>
      (Ok (Some tt), (d, if decide (e = errLedgerReplyInvalidHeader) then mkLedgerDriver (ldg_version w) true None else w))
  | (Ok (Some _), d) =>
      match ledgerVersion d with
      | (Panic e, d) => (Panic e, (d, w))
      | (Ok None, d) => (Ok None, (d, w))
      | (Ok (Some version), d) => (Ok (Some tt), (d, mkLedgerDriver version (ldg_browser w) None))
      | (Err _, d) => (Ok (Some tt), (d, mkLedgerDriver (x01, x00, x00) (ldg_browser w) None))
      end
  end.
Definition Ledger_Close (w : ledgerDriver) : ledgerDriver := mkLedgerDriver (x00, x00, x00) false (ldg_failure w).
Definition Heartbeat : M (D * ledgerDriver) (option unit) := fun s =>
  let '(d, w) := s in
  match ledgerVersion d with
  | (Panic e, d) => (Panic e, (d, w))
  | (Ok None, d) => (Ok None, (d, w))
  | (Ok (Some _), d) => (Ok (Some tt), (d, w))
  | (Err e, d) =>
      if decide (e = errLedgerInvalidVersionReply) then (Ok (Some tt), (d, w))
      else (Err e, (d, mkLedgerDriver (ldg_version w) (ldg_browser w) (Some e)))
  end.
Definition Ledger_Derive (path : list Z) : M (D * ledgerDriver) (option (Address * Point)) := on_device (ledgerDerive path).
Definition SignTypedMessage (path : list Z) (domainHash messageHash : bytes) : M (D * ledgerDriver) (option bytes) :=
  w ← gets snd;
  let '(major, minor, _) := ldg_version w in
  require (negb (offline w)) ErrWalletClosed ;;
  require (negb ((Z_of_byte major <? 1) && (Z_of_byte minor <? 5))) (Errorf "Ledger version >= 1.5.0 required for EIP-712 signing") ;;
  on_device (ledgerSignTypedMessage path domainHash messageHash).
End Exchange.

(** ** The transport as the device sees it *)

(** A device with a script: what was written to it, and what it will say. *)
Record Script : Type := mkScript { sc_written : list bytes; sc_stream : bytes }.
#[export] Instance script_device : Device Script := {|
  dev_Write chunk s := (Ok tt, mkScript (sc_written s ++ [chunk]) (sc_stream s));
  dev_ReadFull n s := if decide (n <= length (sc_stream s))%nat
                      then (Ok (take n (sc_stream s)), mkScript (sc_written s) (drop n (sc_stream s)))
                      else (Err (Errorf "EOF"), s)
|}.

(** The message in a sequence of frames: the headers, the numbers in order, the payloads. *)
Fixpoint unframe (i : Z) (chunks : list bytes) : option bytes :=
  match chunks with
  | [] => Some []
  | chunk :: chunks' =>
      if decide (take 5 chunk = frame_header ++ be_encode 2 i)
      then rest ← unframe (i + 1) chunks'; Some (drop 5 chunk ++ rest) else None
  end.
(** A message has its length in front. *)
Definition message_of (l : bytes) : bytes := take (Z.to_nat (be_decode (take 2 l))) (drop 2 l).
Definition with_length (l : bytes) : bytes := be_encode 2 (Z.of_nat (length l)) ++ l.

(** The frames of a device are filled up to 64 bytes. *)
Definition pad64 (chunk : bytes) : bytes := chunk ++ replicate (64 - length chunk) x00.
Fixpoint device_frames (fuel : nat) (i : Z) (l : bytes) : list bytes :=
  match fuel, l with
  | S fuel', _ :: _ => pad64 (frame i (take chunk_space l)) :: device_frames fuel' (i + 1) (drop chunk_space l)
  | _, _ => []
  end.
Definition reply_stream (reply : bytes) : bytes := concat (device_frames (length (with_length reply)) 0 (with_length reply)).

Lemma length_frame i l : length (frame i l) = (5 + length l)%nat.
Proof. unfold frame. rewrite !length_app, length_be_encode. done. Qed.
Lemma frame_take i l : take 5 (frame i l) = frame_header ++ be_encode 2 i /\ drop 5 (frame i l) = l.
Proof.
  unfold frame. rewrite app_assoc. pose proof (length_be_encode 2 i) as Hl.
  assert (length (frame_header ++ be_encode 2 i) = 5%nat) as H5 by (rewrite length_app, Hl; done).
  split; [by rewrite take_app_le, take_ge by lia|by rewrite drop_app_ge, H5, drop_0 by lia].
Qed.

Lemma send_chunks_frames fuel i apdu (s : Script) : (length apdu <= fuel)%nat ->
  exists chunks, send_chunks fuel i apdu s = (Ok tt, mkScript (sc_written s ++ chunks) (sc_stream s)) /\
    unframe i chunks = Some apdu /\ Forall (fun c => (length c <= 64)%nat) chunks.
Proof.
  revert i apdu s. induction fuel as [|fuel IH]; intros i apdu s Hl.
  { destruct apdu; [|simpl in Hl; lia]. exists []. rewrite app_nil_r. destruct s. split_and!; [done|done|constructor]. }
  destruct apdu as [|b apdu]; [exists []; rewrite app_nil_r; destruct s; by split_and!|].
  assert (forall l, (length l <= 59)%nat -> (length (frame i l) <= 64)%nat) as H64 by (intros l; rewrite length_frame; lia).
  cbn [send_chunks]. case_decide as Hd.
  - unfold mbind, M_bind. cbn [dev_Write script_device].
    destruct (IH (i + 1) (drop chunk_space (b :: apdu)) (mkScript (sc_written s ++ [frame i (take chunk_space (b :: apdu))]) (sc_stream s)))
      as (chunks & -> & Hu & Hc).
    { rewrite length_drop. unfold chunk_space in *. simpl in *. lia. }
    eexists (_ :: chunks). split_and!; [cbn [sc_written sc_stream]; by rewrite <- app_assoc| |].
    + cbn [unframe]. destruct (frame_take i (take chunk_space (b :: apdu))) as [-> ->]. rewrite decide_True, Hu by done. cbn. by rewrite take_drop.
    + constructor; [|exact Hc]. apply H64. rewrite length_take. unfold chunk_space. lia.
  - exists [frame i (b :: apdu)]. split_and!; [done| |].
    + cbn [unframe]. destruct (frame_take i (b :: apdu)) as [-> ->]. rewrite decide_True by done. cbn. by rewrite app_nil_r.
    + constructor; [|constructor]. apply H64. unfold chunk_space in Hd. simpl in *. lia.
Qed.

(** ** Reading a reply *)

Lemma pad64_parts i l (chunk := pad64 (frame i l)) : (length l <= 59)%nat ->
  length chunk = 64%nat /\ take 3 chunk = frame_header /\ take 2 (drop 3 chunk) = be_encode 2 i /\
  drop 5 chunk = l ++ replicate (59 - length l) x00.
Proof.
  intros Hl. subst chunk. unfold pad64. rewrite length_frame. pose proof (length_be_encode 2 i) as He. unfold frame, frame_header.
  destruct (be_encode 2 i) as [|a [|b [|]]]; try done. cbn [app length take drop].
  replace (64 - (5 + length l))%nat with (59 - length l)%nat by lia. split_and!; [|done..].
  rewrite length_app, length_replicate. lia.
Qed.
Lemma be_decode_encode_2 z : 0 <= z < 65536 -> be_decode (be_encode 2 z) = z.
Proof. intros Hz. rewrite be_decode_encode. apply Z.mod_small. change (256 ^ Z.of_nat 2) with 65536. lia. Qed.
Lemma sequence_number_not_zero i : 1 <= i < 65536 -> be_encode 2 i <> [x00; x00].
Proof. intros Hi E. pose proof (be_decode_encode_2 i) as Hd. rewrite E in Hd. cbn in Hd. lia. Qed.
Lemma read_frame chunk rest w : length chunk = 64%nat ->
  dev_ReadFull 64 (mkScript w (chunk ++ rest)) = (Ok chunk, mkScript w rest).
Proof.
  intros H. cbn [dev_ReadFull script_device sc_stream sc_written]. rewrite decide_True by (rewrite length_app; lia).
  by rewrite take_app_le, take_ge, drop_app_ge, H, drop_0 by lia.
Qed.

(** The frames after the first fill the reply up. *)
Lemma read_more_frames n fuel i l acc w more : 1 <= i -> i + Z.of_nat (length l) <= 65536 -> l <> [] ->
  (length l <= n)%nat -> (length l <= fuel)%nat ->
  read_chunks fuel acc (length acc + length l) (mkScript w (concat (device_frames n i l) ++ more)) = (Ok (Some (acc ++ l)), mkScript w more).
Proof.
  revert fuel i l acc. induction n as [|n IH]; intros fuel i l acc Hi Hb Hne Hn Hf; [destruct l; simpl in *; [done|lia]|].
  destruct fuel as [|fuel]; [destruct l; simpl in *; [done|lia]|].
  assert (0 < length l)%nat as Hpos by (destruct l; simpl; [done|lia]).
  assert (device_frames (S n) i l = pad64 (frame i (take chunk_space l)) :: device_frames n (i + 1) (drop chunk_space l)) as -> by (by destruct l).
  destruct (pad64_parts i (take chunk_space l)) as (H64 & H3 & H2 & H5); [rewrite length_take; unfold chunk_space; lia|].
  cbn [read_chunks concat]. rewrite <- app_assoc. unfold mbind at 1, M_bind. rewrite read_frame by done.
  rewrite H3, H2. rewrite bool_decide_true by done. cbn [negb].
  rewrite bool_decide_false by (apply sequence_number_not_zero; lia). cbv zeta.
  rewrite H5, length_app, length_replicate, length_take. replace (length acc + length l - length acc)%nat with (length l) by lia.
  unfold chunk_space in *. case_decide as Hd.
  - rewrite Nat.min_l, Nat.sub_diag, app_nil_r by lia.
    replace (length acc + length l)%nat with (length (acc ++ take 59 l) + length (drop 59 l))%nat by (rewrite length_app, length_take, length_drop; lia).
    rewrite IH; [by rewrite <- app_assoc, take_drop|lia| | | |]; try (rewrite length_drop; lia).
    intros E. apply (f_equal length) in E. rewrite length_drop in E. simpl in E. lia.
  - rewrite (drop_ge l) by lia. rewrite (take_ge l) by lia. rewrite take_app_le, take_ge by lia.
    by destruct n.
Qed.

Lemma read_reply fuel r w more : Z.of_nat (length r) <= 65535 -> (length r < fuel)%nat ->
  read_chunks fuel [] 0 (mkScript w (reply_stream r ++ more)) = (Ok (Some r), mkScript w more).
Proof.
  intros Hb Hf. destruct fuel as [|fuel]; [lia|]. unfold reply_stream.
  pose proof (length_be_encode 2 (Z.of_nat (length r))) as He.
  pose proof (be_decode_encode_2 (Z.of_nat (length r))) as Hdec.
  assert (length (with_length r) = S (S (length r))) as Hw by (unfold with_length; rewrite length_app, He; lia).
  rewrite Hw. assert (take chunk_space (with_length r) = be_encode 2 (Z.of_nat (length r)) ++ take 57 r /\
    drop chunk_space (with_length r) = drop 57 r) as [Ht Hdr].
  { unfold with_length, chunk_space. by rewrite take_app, drop_app, He, take_ge, drop_ge by lia. }
  assert (device_frames (S (S (length r))) 0 (with_length r) =
    pad64 (frame 0 (take chunk_space (with_length r))) :: device_frames (S (length r)) (0 + 1) (drop chunk_space (with_length r))) as ->
    by (destruct (with_length r); [done|reflexivity]).
  rewrite Ht, Hdr. set (e := be_encode 2 (Z.of_nat (length r))) in *.
  destruct (pad64_parts 0 (e ++ take 57 r)) as (H64 & H3 & H2 & H5); [rewrite length_app, He, length_take; lia|].
  cbn [read_chunks concat]. rewrite <- app_assoc. unfold mbind at 1, M_bind. rewrite read_frame by done.
  rewrite H3, H2. rewrite bool_decide_true by done. cbn [negb]. rewrite bool_decide_true by done. cbv zeta.
  assert (drop 7 (pad64 (frame 0 (e ++ take 57 r))) = drop 2 (drop 5 (pad64 (frame 0 (e ++ take 57 r))))) as -> by (by rewrite drop_drop).
  assert (take 2 (drop 5 (pad64 (frame 0 (e ++ take 57 r)))) = e) as -> by (rewrite H5; by rewrite <- app_assoc, take_app_le, take_ge by lia).
  rewrite H5.
  rewrite <- app_assoc, drop_app_ge, He, drop_0 by lia.
  rewrite Hdec, Nat2Z.id by lia. cbn [length]. rewrite Nat.sub_0_r, !length_app, length_replicate, length_take, He.
  case_decide as Hd.
  - rewrite Nat.min_l, app_nil_r by lia. cbn [app].
    replace (length r) with (length (take 57 r) + length (drop 57 r))%nat at 1 by (rewrite length_take, length_drop; lia).
    rewrite read_more_frames; [by rewrite take_drop|lia| | | |]; try (rewrite length_drop; lia).
    intros E. apply (f_equal length) in E. rewrite length_drop in E. simpl in E. lia.
  - rewrite (drop_ge r) by lia. rewrite (take_ge r) by lia. rewrite take_app_le, take_ge by lia. done.
Qed.

Lemma message_of_apdu op p1 p2 data : Z.of_nat (length data) <= 255 ->
  message_of (apdu_of op p1 p2 data) = [xe0; op; p1; p2; byte_of_Z (Z.of_nat (length data))] ++ data.
Proof.
  intros Hd. unfold message_of, apdu_of. pose proof (length_be_encode 2 (5 + Z.of_nat (length data))) as He.
  rewrite (take_app_le _ _ 2), (take_ge _ 2), drop_app_ge, He, drop_0, be_decode_encode_2 by lia.
  apply take_ge. cbn [length app]. lia.
Qed.

(** C18 One exchange with the wallet.  For any command with at most 255 bytes of data and any
    reply of a device that cuts it into numbered frames of 64 bytes with its length in
    front: what the driver writes are frames of at most 64 bytes in which the device finds,
    in order, a message with its length in front, and this message is the command; what
    the driver returns is the reply without its two bytes of status, to the last byte,
    whatever the padding of the last frame and the bytes behind it hold; and it leaves
    these bytes for the next exchange.  The exchange finishes with one frame read per
    byte of the reply at most. *)
Theorem ledger_exchange_exact fuel op p1 p2 data reply more (s : Script) :
  Z.of_nat (length data) <= 255 -> 2 <= Z.of_nat (length reply) <= 65535 -> (length reply < fuel)%nat ->
  sc_stream s = reply_stream reply ++ more ->
  exists chunks,
    ledgerExchange fuel op p1 p2 data s = (Ok (Some (take (length reply - 2) reply)), mkScript (sc_written s ++ chunks) more) /\
    Forall (fun c => (length c <= 64)%nat) chunks /\
    message_of <$> unframe 0 chunks = Some ([xe0; op; p1; p2; byte_of_Z (Z.of_nat (length data))] ++ data).
Proof.
  intros Hd Hr Hf Hs. unfold ledgerExchange. cbv zeta.
  destruct (send_chunks_frames (length (apdu_of op p1 p2 data)) 0 (apdu_of op p1 p2 data) s) as (chunks & Hsend & Hu & H64); [done|].
  exists chunks. split_and!; [|done|rewrite Hu; unfold fmap, option_fmap, option_map; by rewrite message_of_apdu].
  unfold mbind, M_bind. rewrite Hsend, Hs, read_reply by lia.
  unfold lift_res, drop_status. rewrite decide_False by lia. done.
Qed.

(** The wallet is not believed about its address: an address comes with the key whose
    address it is. *)
Lemma derived_of_checked {C : Curve} {LC : LedgerCrypto} reply a key : derived_of reply = Ok (a, key) -> a = Point_Address key.
Proof.
  unfold derived_of, wrap_res, mbind, res_bind. intros H. repeat (case_match; simplify_eq/=). by symmetry.
Qed.

(** A device that repeats its first frame, with a length that one frame cannot hold,
    keeps the driver reading for ever. *)
Definition first_frame_again (n : nat) : bytes := concat (replicate n (pad64 (frame 0 [x00; xff]))).
Lemma repeated_first_frame n fuel acc cap w : (fuel <= n)%nat ->
  exists rest, read_chunks fuel acc cap (mkScript w (first_frame_again n)) = (Ok None, mkScript w rest).
Proof.
  revert fuel acc cap. induction n as [|n IH]; intros fuel acc cap Hf; (destruct fuel as [|fuel]; [by eexists|]); [lia|].
  unfold first_frame_again. cbn [replicate concat read_chunks]. unfold mbind at 1, M_bind. rewrite read_frame by done.
  destruct (IH fuel (replicate 57 x00) 255%nat) as [rest Hr]; [lia|]. exists rest. exact Hr.
Qed.

Definition long_reply : bytes := replicate 40 x05 ++ replicate 40 x06 ++ [x90; x00].
Lemma ledger_exchange_exact_witness : exists chunks : list bytes,
  ledgerExchange 100 ledgerOpGetConfiguration x00 x00 [] (mkScript [] (reply_stream long_reply ++ [x07])) =
    (Ok (Some (replicate 40 x05 ++ replicate 40 x06)), mkScript ([] ++ chunks) [x07]) /\
  message_of <$> unframe 0 chunks = Some [xe0; x06; x00; x00; x00].
Proof.
  destruct (ledger_exchange_exact 100 ledgerOpGetConfiguration x00 x00 [] long_reply [x07] (mkScript [] (reply_stream long_reply ++ [x07])))
    as (chunks & H1 & _ & H2); [cbn; lia|cbn; lia|cbn; lia|done|].
  exists chunks. split; [exact H1|exact H2].
Defined.
