(* ===== verification/Wallets.v ===== *)
(** * Hardware wallets

    wallets/usbwallet/wallet.go (a wallet over a driver: accounts, derivation paths, the
    heartbeat that closes a wallet whose device fails), wallets/usbwallet/hub.go (the list of
    wallets follows the list of devices) and wallets/ledger/ledger.go (the key ring of the
    SDK signs sign documents as typed data with the first wallet).  A driver is an
    interface; the driver of Ledger.v is an instance of it. *)

From Stdlib Require Import Strings.Byte.
From stdpp Require Import base gmap list strings sorting.
From S2P Require Import Prelude Sdk Geth EvmTypes Eip712 TypedTx VAuth Keys Ledger.

Definition ErrWalletAlreadyOpen : gerr := Errorf "wallet already open".
Definition ErrUnknownAccount : gerr := Errorf "unknown account".
Definition ErrNotSupported : gerr := Errorf "not supported".
Definition MimetypeTypedData : string := "data/typed".
Definition RecoveryIDOffset : nat := 64.

(** What a wallet asks of a driver; [None]: the device has not answered yet. *)
Class Driver {C : Curve} (X : Type) : Type := {
  drv_Status : X -> option gerr;
  drv_Open : M X (option unit);
  drv_Close : X -> X;
  drv_Heartbeat : M X (option unit);
  drv_Derive : list Z -> M X (option (Address * Point));
  drv_SignTypedMessage : list Z -> bytes -> bytes -> M X (option bytes)
}.
(** The error of [Status]. *)
Definition status_error (w : ledgerDriver) : option gerr :=
  match Ledger_Status w with Failed e => Some e | _ => None end.
#[export] Instance ledger_driver {C : Curve} {D : Type} {DV : Device D} {LC : LedgerCrypto} (fuel : nat) : Driver (D * ledgerDriver) := {|
  drv_Status s := status_error s.2;
  drv_Open := Ledger_Open fuel;
  drv_Close s := (s.1, Ledger_Close s.2);
  drv_Heartbeat := Heartbeat fuel;
  drv_Derive := Ledger_Derive fuel;
  drv_SignTypedMessage := SignTypedMessage fuel
|}.

(** An account is an address and its public key. *)
Record WalletAccount {C : Curve} : Type := mkWalletAccount { acc_Address : Address; acc_PublicKey : Point }.
Arguments mkWalletAccount {C}.

Section Wallet.
Context {C : Curve} {X : Type} {DR : Driver X}.

(** [w_open]: the device is not nil; [w_paths]: nil is [None]; [w_health]: the channel that
    ends the heartbeat is not nil; [w_beats]: the goroutines that run the heartbeat. *)
Record wallet : Type := mkWallet {
  w_url : string;
  w_open : bool;
  w_accounts : list WalletAccount;
  w_paths : option (gmap Address (list Z));
  w_health : bool;
  w_beats : nat;
  w_driver : X
}.
(** A wallet that the hub makes for a device. *)
Definition new_wallet (url : string) (driver : X) : wallet := mkWallet url false [] None false 0 driver.

Definition with_driver {A} (m : M X A) : M wallet A :=
  zoom w_driver (fun d w => mkWallet (w_url w) (w_open w) (w_accounts w) (w_paths w) (w_health w) (w_beats w) d) m.
(** What follows an answer of the device. *)
Definition then_do {S A B} (m : M S (option A)) (k : A -> M S (option B)) : M S (option B) :=
  r ← m; match r with Some a => k a | None => mret None end.

Inductive WalletStatus : Type := WalletClosed | DriverStatus.
Definition Wallet_Status (w : wallet) : WalletStatus * option gerr :=
  (if w_open w then DriverStatus else WalletClosed, drv_Status (w_driver w)).

(** [opened]: the error of the device when its connection is opened. *)
Definition Wallet_Open (opened : option gerr) : M wallet (option unit) :=
  w ← gets (fun w => w);
  require (bool_decide (w_paths w = None)) ErrWalletAlreadyOpen ;;
  (if w_open w then mret tt
   else match opened with
        | Some e => err e
        | None => modify (fun w => mkWallet (w_url w) true (w_accounts w) (w_paths w) (w_health w) (w_beats w) (w_driver w))
        end) ;;
  then_do (with_driver drv_Open) (fun _ =>
    modify (fun w => mkWallet (w_url w) (w_open w) (w_accounts w) (Some ∅) true (S (w_beats w)) (w_driver w)) ;; mret (Some tt)).

Definition wallet_close : M wallet unit := modify (fun w =>
  if w_open w then mkWallet (w_url w) false [] None (w_health w) (w_beats w) (drv_Close (w_driver w)) else w).

(** One cycle of a heartbeat: an error closes the wallet and is dropped. *)
Definition heartbeat_cycle : M wallet (option unit) := fun w =>
  if w_open w then
    match with_driver drv_Heartbeat w with
    | (Err _, w) => (Some <$> Ok tt, snd (wallet_close w))
    | r => r
    end
  else (Ok (Some tt), w).

(** Only one goroutine takes the request to end; without any, the call would wait. *)
Definition Wallet_Close : M wallet (option unit) :=
  w ← gets (fun w => w);
  (if w_health w && (w_beats w =? 0)%nat then mret None
   else
     modify (fun w => mkWallet (w_url w) (w_open w) (w_accounts w) (w_paths w) false
                        (if w_health w then w_beats w - 1 else w_beats w)%nat (w_driver w)) ;;
     wallet_close ;; mret (Some tt)).

Definition Accounts (w : wallet) : list WalletAccount := w_accounts w.
Definition Contains (w : wallet) (account : WalletAccount) : bool :=
  match w_paths w with Some m => bool_decide (is_Some (m !! acc_Address account)) | None => false end.

(** The first three values are hardened in place. *)
Definition harden (n : Z) : Z := if n <? 2 ^ 31 then n + 2 ^ 31 else n.
Definition formatPathIfNeeded (path : list Z) : res (list Z) :=
  match path with
  | a :: b :: c :: rest => Ok (harden a :: harden b :: harden c :: rest)
  | _ => Panic IndexOutOfRange
  end.

Definition pin_account (account : WalletAccount) (path : list Z) : M wallet unit := fun w =>
  match w_paths w with
  | Some m =>
      match m !! acc_Address account with
      | Some _ => (Ok tt, w)
      | None => (Ok tt, mkWallet (w_url w) (w_open w) (w_accounts w ++ [account]) (Some (<[acc_Address account := path]> m))
                          (w_health w) (w_beats w) (w_driver w))
      end
  | None =>
      (** The map is nil: the write panics, after the account was appended. *)
      (Panic NilMapWrite, mkWallet (w_url w) (w_open w) (w_accounts w ++ [account]) None (w_health w) (w_beats w) (w_driver w))
  end.

(** [cycles]: heartbeats between the release of the read lock and the write lock. *)
Fixpoint cycle (cycles : nat) : M wallet (option unit) :=
  match cycles with
  | O => mret (Some tt)
  | S n => then_do heartbeat_cycle (fun _ => cycle n)
  end.
Definition Wallet_Derive (path : list Z) (pin : bool) (cycles : nat) : M wallet (option WalletAccount) :=
  path ← lift_res (formatPathIfNeeded path);
  w ← gets (fun w => w);
  require (w_open w) ErrWalletClosed ;;
  then_do (with_driver (drv_Derive path)) (fun '(address, publicKey) =>
    let account := mkWalletAccount address publicKey in
    if (pin : bool) then then_do (cycle cycles) (fun _ => pin_account account path ;; mret (Some account))
    else mret (Some account)).

(** ** Signatures *)

(** Of go-ethereum's crypto package. *)
Class RecoverLib : Type := {
  Ecrecover : bytes -> bytes -> res bytes;
  FromECDSAPub : Point -> bytes
}.
Context {G : Geth} {RL : RecoverLib} {Msg : Type} {SC : SignCodecs Msg}.

Definition signHash : M wallet (option bytes) := err ErrNotSupported.
Definition signData (account : WalletAccount) (mimeType : string) (data : bytes) : M wallet (option bytes) :=
  if negb (bool_decide (mimeType = MimetypeTypedData) && (length data =? 66)%nat && bool_decide (take 2 data = [x19; x01]))
  then signHash
  else
    w ← gets (fun w => w);
    require (w_open w) ErrWalletClosed ;;
    match w_paths w ≫= (fun m => m !! acc_Address account) with
    | None => err ErrUnknownAccount
    | Some path => with_driver (drv_SignTypedMessage path (take 32 (drop 2 data)) (take 32 (drop 34 data)))
    end.

Definition verifyTypedDataSignature (account : WalletAccount) (rawData signature : bytes) : res unit :=
  if negb (length signature =? SignatureLength)%nat then Err (Errorf "invalid signature length")
  else
    let sigCopy := alter (fun v => byte_of_Z (Z_of_byte v - 27)) RecoveryIDOffset signature in
    derivedPubkey ← Ecrecover (farr_bytes (Keccak256Hash rawData)) sigCopy;
    if decide (derivedPubkey = FromECDSAPub (acc_PublicKey account)) then Ok tt
    else Err (Errorf "unauthorized: invalid signature verification").

Definition Wallet_SignTypedData (account : WalletAccount) (typedData : TypedTx) : M wallet (option bytes) :=
  rawDataBz ← lift_res (TypedDataAndHash typedData);
  then_do (signData account "data/typed" rawDataBz) (fun sigBytes =>
    lift_res (verifyTypedDataSignature account rawDataBz sigBytes) ;; mret (Some sigBytes)).

(** ** The wallet of the key ring *)

Context {J : Gjson} {B : Bech32}.
Variable stack : nat.
(** [typedData.HashStruct]: what is shown to the user *)
Variable HashStruct_ok : TypedTx -> res unit.

(** The state is the primary wallet, if there is one.  [opened] and [cycles] are what the
    device and the heartbeat do meanwhile. *)
Definition on_primary {A} (missing : gerr) (m : M wallet (option A)) : M (option wallet) (option A) := fun s =>
  match s with
  | None => (Err missing, None)
  | Some w => let '(r, w) := m w in (r, Some w)
  end.
(** The wallet may be open already: the error is dropped. *)
Definition reopen (opened : option gerr) : M wallet (option unit) := catch_err (Wallet_Open opened) (fun _ => mret (Some tt)).

Definition Evmos_Close : M (option wallet) (option unit) := on_primary (Errorf "could not close Ledger: no wallet found") Wallet_Close.
Definition derive_account (opened : option gerr) (hdPath : list Z) (cycles : nat) (e : gerr) : M wallet (option WalletAccount) :=
  then_do (reopen opened) (fun _ => wrap_err e (Wallet_Derive hdPath true cycles)).
Definition GetPublicKeySECP256K1 (opened : option gerr) (hdPath : list Z) (cycles : nat) : M (option wallet) (option bytes) :=
  on_primary (Errorf "could not get Ledger public key: no wallet found")
    (then_do (derive_account opened hdPath cycles (Errorf "unable to derive public key, please retry"))
       (fun account => mret (Some (FromECDSAPub (acc_PublicKey account))))).
Definition GetAddressPubKeySECP256K1 (Bech32ify : string -> bytes -> res string) (opened : option gerr) (hdPath : list Z) (hrp : string)
    (cycles : nat) : M (option wallet) (option (bytes * string)) :=
  on_primary (Errorf "could not get Ledger address: no wallet found")
    (then_do (derive_account opened hdPath cycles (Errorf "unable to derive Ledger address, please open the Ethereum app and retry"))
       (fun account => address ← lift_res (Bech32ify hrp (farr_bytes (acc_Address account)));
                       mret (Some (FromECDSAPub (acc_PublicKey account), address)))).
Definition SignSECP256K1 (opened : option gerr) (hdPath : list Z) (signDocBytes : bytes) (cycles : nat) : M (option wallet) (option bytes) :=
  on_primary (Errorf "unable to sign with Ledger: no wallet found")
    (then_do (derive_account opened hdPath cycles (Errorf "unable to derive Ledger address, please open the Ethereum app and retry"))
       (fun account =>
          typedData ← lift_res (GetEIP712TypedDataForMsg stack signDocBytes);
          wrap_err (Errorf "unable to generate EIP-712 hash for object") (lift_res (HashStruct_ok typedData)) ;;
          wrap_err (Errorf "error generating signature, please retry") (Wallet_SignTypedData account typedData))).

(** ** The hub *)

(** What the USB library lists of a device; the path is the URL of its wallet. *)
Record DeviceInfo : Type := mkDeviceInfo { di_Path : string; di_ProductID : Z; di_UsagePage : Z; di_Interface : Z }.
Definition LedgerProductIDs : list Z :=
  [0x0000; 0x0001; 0x0004; 0x0005; 0x0006; 0x0015; 0x1015; 0x4015; 0x5015; 0x6015; 0x0011; 0x1011; 0x4011; 0x5011; 0x6011].
Definition LedgerUsageID : Z := 0xffa0.
Definition LedgerEndpointID : Z := 0.
Definition is_ledger (info : DeviceInfo) : bool :=
  existsb (Z.eqb (di_ProductID info)) LedgerProductIDs && ((di_UsagePage info =? LedgerUsageID) || (di_Interface info =? LedgerEndpointID)).

Record Hub : Type := mkHub { hub_wallets : list wallet; hub_commsPend : Z; hub_enumFails : Z }.

(** Stale wallets in front of a device are dropped if they failed. *)
Fixpoint drop_failed (ws : list wallet) (url : string) : list wallet :=
  match ws with
  | [] => []
  | w :: ws' => match String.compare (w_url w) url with
                | Lt => match drv_Status (w_driver w) with Some _ => drop_failed ws' url | None => ws end
                | _ => ws
                end
  end.
Fixpoint merge_wallets (makeDriver : X) (devices : list DeviceInfo) (ws : list wallet) : list wallet :=
  match devices with
  | [] => []
  | device :: devices' =>
      let url := di_Path device in
      match drop_failed ws url with
      | [] => new_wallet url makeDriver :: merge_wallets makeDriver devices' []
      | w :: ws' =>
          match String.compare (w_url w) url with
          | Gt => new_wallet url makeDriver :: merge_wallets makeDriver devices' (w :: ws')
          | Eq => w :: merge_wallets makeDriver devices' ws'
          | Lt => merge_wallets makeDriver devices' (w :: ws')
          end
      end
  end.
(** [recent]: the last refresh was less than half a second ago; [infos]: nil is [None]. *)
Definition refreshWallets (onLinux recent : bool) (infos : option (list DeviceInfo)) (makeDriver : X) (hub : Hub) : Hub :=
  if (recent : bool) then hub
  else if 2 <? hub_enumFails hub then hub
  else if onLinux && (0 <? hub_commsPend hub) then hub
  else
    match infos with
    | None => hub
    | Some infos => mkHub (merge_wallets makeDriver (List.filter is_ledger infos) (hub_wallets hub)) (hub_commsPend hub) 0
    end.

(** [supported]: of the USB library; the first wallet of the hub becomes the primary one. *)
Definition connectToLedgerApp (supported onLinux : bool) (infos : option (list DeviceInfo)) (makeDriver : X) (opened : option gerr) :
    res (option wallet) :=
  if negb supported then Err (Errorf "unsupported platform")
  else
    match hub_wallets (refreshWallets onLinux false infos makeDriver (mkHub [] 0 0)) with
    | [] => Err (Errorf "no hardware wallets detected")
    | w :: _ => match Wallet_Open opened w with
                | (Ok (Some _), w) => Ok (Some w)
                | (Ok None, _) => Ok None
                | (Err e, _) => Err e
                | (Panic e, _) => Panic e
                end
    end.
End Wallet.

(** ** What a wallet signs *)

(** The order of the group, and signatures with a low [s]. *)
Definition secp256k1_N : Z := 0xfffffffffffffffffffffffffffffffebaaedce6af48a03bbfd25e8cd0364141.
Definition low_s (sig : bytes) : Prop := be_decode (take 32 (drop 32 sig)) <= secp256k1_N / 2.
#[export] Instance low_s_dec sig : Decision (low_s sig).
Proof. unfold low_s. apply _. Defined.

(** The key that is recovered from a signature accepts it, unless its [s] is high: a
    signature is recovered whatever its [s], and verified only with a low one. *)
Class RecoverLaws {C : Curve} {RL : RecoverLib} : Prop := {
  recover_verify digest sig p : length digest = DigestLength -> length sig = SignatureLength ->
    Ecrecover digest sig = Ok (FromECDSAPub p) -> low_s sig -> curve_Verify (CompressPubkey p) digest (take 64 sig) = true;
  verify_low digest sig p : length digest = DigestLength -> curve_Verify (CompressPubkey p) digest sig = true -> low_s sig
}.
(** What a wallet relies on: the address of a derived account is that of its key. *)
Class DriverLaws {C : Curve} (X : Type) {DR : Driver X} : Prop := {
  derive_checked path s a p s' : drv_Derive path s = (Ok (Some (a, p)), s') -> a = Point_Address p
}.

Lemma then_do_inv {S A B} (m : M S (option A)) (k : A -> M S (option B)) s b s' : then_do m k s = (Ok (Some b), s') ->
  exists a s1, m s = (Ok (Some a), s1) /\ k a s1 = (Ok (Some b), s').
Proof. unfold then_do. intros ([a|] & s1 & Hm & Hk)%bind_ok_inv; [eauto|done]. Qed.
Lemma wrap_err_inv {S A} e (m : M S A) s a s' : wrap_err e m s = (Ok a, s') -> m s = (Ok a, s').
Proof. unfold wrap_err. by destruct (m s) as [[] ?]. Qed.

#[export] Instance ledger_driver_laws {C : Curve} {D : Type} {DV : Device D} {LC : LedgerCrypto} (fuel : nat) :
  DriverLaws (D * ledgerDriver) (DR := ledger_driver fuel).
Proof.
  constructor. intros path [d w] a p s' H. change (Ledger_Derive fuel path (d, w) = (Ok (Some (a, p)), s')) in H.
  unfold Ledger_Derive, on_device, zoom in H. cbn [fst] in H. destruct (ledgerDerive fuel path d) as [r d'] eqn:E.
  injection H as -> _. unfold ledgerDerive, with_reply in E.
  apply bind_ok_inv in E as ([reply|] & d1 & _ & E); [|done]. apply bind_ok_inv in E as (x & d2 & [Hx _]%lift_inv & [= -> _]).
  by apply derived_of_checked in Hx.
Qed.

Section Signing.
Context {C : Curve} {CL : CurveLaws} {X : Type} {DR : Driver X} {DL : DriverLaws X} {G : Geth} {RL : RecoverLib} {RLL : RecoverLaws}.
Context {Msg : Type} {SC : SignCodecs Msg} {J : Gjson}.
Variable stack : nat.
Variable HashStruct_ok : TypedTx -> res unit.
Abbreviation Wal := (@wallet C X).

(** The path under which an address is pinned. *)
Definition pinned_at (w : Wal) (a : Address) : option (list Z) := w_paths w ≫= (fun m => m !! a).

Lemma driver_paths {A} (m : M X A) (w w' : Wal) r : with_driver m w = (r, w') -> w_paths w' = w_paths w /\ w_open w' = w_open w.
Proof. unfold with_driver, zoom. destruct (m (w_driver w)). by intros [= <- <-]. Qed.
Lemma heartbeat_paths (w w' : Wal) r : heartbeat_cycle w = (r, w') -> w_paths w' = w_paths w \/ w_paths w' = None.
Proof.
  unfold heartbeat_cycle. destruct (w_open w); [|intros [= _ <-]; auto]. destruct (with_driver drv_Heartbeat w) as [r1 w1] eqn:E.
  apply driver_paths in E as [E _]. destruct r1; intros [= _ <-]; auto. unfold wallet_close, modify. cbn. destruct (w_open w1); auto.
Qed.
Lemma cycle_paths n (w w' : Wal) r : cycle n w = (Ok (Some r), w') -> w_paths w' = w_paths w \/ w_paths w' = None.
Proof.
  revert w. induction n as [|n IH]; intros w; cbn [cycle]; [intros [= _ <-]; auto|].
  intros (? & w1 & H1 & H2)%then_do_inv. apply IH in H2. apply heartbeat_paths in H1. destruct H1 as [<-|H1], H2 as [->|H2]; auto.
Qed.
Lemma reopen_paths opened (w w' : Wal) r : reopen opened w = (r, w') -> w_paths w' = w_paths w \/ w_paths w' = Some ∅.
Proof.
  intros E. replace w' with (snd (reopen opened w)) by (by rewrite E). set (I := fun w' : Wal => w_paths w' = w_paths w \/ w_paths w' = Some ∅).
  assert (preserves I (with_driver drv_Open)) as Hd.
  { intros w0 H0. destruct (with_driver drv_Open w0) as [r2 w2] eqn:E2. apply driver_paths in E2 as [E2 _]. unfold I in *. cbn. by rewrite E2. }
  enough (preserves I (reopen opened)) as H by (apply H; by left). unfold reopen, Wallet_Open, then_do.
  apply preserves_catch; [|intros ?; apply preserves_ret].
  apply preserves_bind; [apply preserves_gets|intros w0]. apply preserves_bind; [apply preserves_require|intros _].
  apply preserves_bind; [destruct (w_open w0); [apply preserves_ret|]; destruct opened; [apply preserves_err|by apply preserves_modify]|intros _].
  apply preserves_bind; [done|intros [|]; [|apply preserves_ret]]. apply preserves_bind; [apply preserves_modify; by right|intros _; apply preserves_ret].
Qed.

Lemma Derive_inv path cycles (w w' : Wal) account : Wallet_Derive path true cycles w = (Ok (Some account), w') ->
  acc_Address account = Point_Address (acc_PublicKey account) /\
  exists path' pinned d', formatPathIfNeeded path = Ok path' /\
    drv_Derive path' (w_driver w) = (Ok (Some (acc_Address account, acc_PublicKey account)), d') /\
    pinned_at w' (acc_Address account) = Some pinned /\ (pinned = path' \/ pinned_at w (acc_Address account) = Some pinned).
Proof.
  unfold Wallet_Derive. intros (path' & w1 & [-> ->]%lift_inv & H)%bind_ok_inv. apply bind_ok_inv in H as (w2 & w3 & [= <- <-] & H).
  apply bind_ok_inv in H as ([] & w4 & Hreq & H). unfold require in Hreq. destruct (w_open w); [|done]. injection Hreq as <-.
  apply then_do_inv in H as ([a p] & w5 & Hd & H). pose proof (driver_paths _ _ _ _ Hd) as [Hp5 _]. unfold with_driver, zoom in Hd.
  destruct (drv_Derive path' (w_driver w)) as [r d'] eqn:Ed. injection Hd as -> _.
  apply then_do_inv in H as ([] & w6 & Hc%cycle_paths & H). apply bind_ok_inv in H as ([] & w7 & Hpin & [= <- <-]). cbn.
  split; [by eapply derive_checked|]. unfold pin_account, pinned_at in *. cbn in *. destruct (w_paths w6) as [m|] eqn:E6; [|done].
  assert (w_paths w = Some m) as Hm by (destruct Hc as [Hc|Hc]; [congruence|done]). rewrite Hm. cbn.
  destruct (m !! a) as [q|] eqn:Eq; injection Hpin as <-; cbn.
  - exists path', q, d'. rewrite E6. cbn. by split_and!; [..|right].
  - exists path', path', d'. cbn. rewrite lookup_insert_eq. by split_and!; [..|left].
Qed.

Lemma SignTypedData_inv account td (w w' : Wal) sig : Wallet_SignTypedData account td w = (Ok (Some sig), w') ->
  exists raw path d', TypedDataAndHash td = Ok raw /\ verifyTypedDataSignature account raw sig = Ok tt /\
    pinned_at w' (acc_Address account) = Some path /\ pinned_at w (acc_Address account) = Some path /\
    drv_SignTypedMessage path (take 32 (drop 2 raw)) (take 32 (drop 34 raw)) (w_driver w) = (Ok (Some sig), d').
Proof.
  unfold Wallet_SignTypedData. intros (raw & w1 & [Hraw ->]%lift_inv & H)%bind_ok_inv.
  apply then_do_inv in H as (sg & w2 & Hs & H). apply bind_ok_inv in H as ([] & w3 & [Hv ->]%lift_inv & [= -> ->]).
  unfold signData in Hs. destruct (negb _); [done|]. apply bind_ok_inv in Hs as (w4 & w5 & [= <- <-] & Hs).
  apply bind_ok_inv in Hs as ([] & w6 & Hreq & Hs). unfold require in Hreq. destruct (w_open w); [|done]. injection Hreq as <-.
  change (w_paths w ≫= _) with (pinned_at w (acc_Address account)) in Hs. destruct (pinned_at w (acc_Address account)) as [path|] eqn:Ep; [|done].
  pose proof (driver_paths _ _ _ _ Hs) as [Hp _]. unfold with_driver, zoom in Hs.
  destruct (drv_SignTypedMessage _ _ _ _) as [r d'] eqn:Ed. injection Hs as -> _.
  exists raw, path, d'. split_and!; try done. unfold pinned_at. by rewrite Hp.
Qed.

(** What the wallet verified, the key of the account accepts exactly if [s] is low, ... *)
Lemma verified_is_accepted account raw sig : verifyTypedDataSignature account raw sig = Ok tt ->
  length sig = SignatureLength /\ (low_s sig -> verifySignatureECDSA (CompressPubkey (acc_PublicKey account)) raw sig = true).
Proof.
  unfold verifyTypedDataSignature. destruct (Nat.eqb_spec (length sig) SignatureLength) as [Hl|]; [|done]. cbn [negb].
  set (copy := alter _ _ sig). unfold mbind, res_bind. destruct (Ecrecover _ copy) as [pk| |] eqn:Er; try done.
  case_decide as Hp; [|done]. subst pk. intros _. split; [done|]. intros Hlow.
  assert (take 64 copy = take 64 sig) as Ht by (unfold copy; by rewrite take_alter, decide_False by (unfold RecoveryIDOffset; lia)).
  assert (low_s copy) as Hlow'.
  { unfold low_s in *. rewrite !take_drop_commute in *. cbn [Nat.add] in *. by rewrite Ht. }
  unfold verifySignatureECDSA. rewrite Hl, Nat.eqb_refl. cbn [SignatureLength Nat.sub]. rewrite <- Ht.
  apply recover_verify; [apply farr_length| |done|done]. unfold copy. by rewrite length_alter.
Qed.
(** ... and with a high one no key accepts it for any message. *)
Lemma high_s_refused p msg sig : length sig = SignatureLength -> ~ low_s sig -> verifySignatureECDSA (CompressPubkey p) msg sig = false.
Proof.
  intros Hl Hs. apply not_true_is_false. unfold verifySignatureECDSA. rewrite Hl, Nat.eqb_refl. cbn [SignatureLength Nat.sub].
  intros Hv%verify_low; [|apply farr_length]. apply Hs. unfold low_s in *. rewrite !take_drop_commute in *. cbn [Nat.add] in *.
  by rewrite take_take in Hv.
Qed.

(** C40 What a hardware wallet signs for the key ring, and when the chain accepts it: if
    signing a document succeeds, whatever the heartbeat does meanwhile, then the account is
    the one the device derived for the path asked for; the device signed the two hashes of
    the typed data of the document with the path the account is pinned under, which is that
    path unless the address was pinned before; and the public key of the account, whose
    address is the account's, verifies the signature for the document exactly if the [s] of
    the signature is low.  The wallet itself does not look at [s]: its check recovers the
    key, so a signature with a high [s] is handed out and refused by the chain. *)
Theorem ledger_signature_accepted (opened : option gerr) (hdPath : list Z) (doc : bytes) (cycles : nat) (w : Wal) (s' : option Wal) (sig : bytes)
    (Hsign : SignSECP256K1 stack HashStruct_ok opened hdPath doc cycles (Some w) = (Ok (Some sig), s')) :
  exists w' account path raw pinned d1 d2 d3 d4, s' = Some w' /\
    formatPathIfNeeded hdPath = Ok path /\ drv_Derive path d1 = (Ok (Some (acc_Address account, acc_PublicKey account)), d2) /\
    GetEIP712BytesForMsg stack doc = Ok raw /\ pinned_at w' (acc_Address account) = Some pinned /\
    (pinned = path \/ pinned_at w (acc_Address account) = Some pinned) /\
    drv_SignTypedMessage pinned (take 32 (drop 2 raw)) (take 32 (drop 34 raw)) d3 = (Ok (Some sig), d4) /\
    length sig = SignatureLength /\ PubKey_VerifySignature stack (CompressPubkey (acc_PublicKey account)) doc sig = Ok (bool_decide (low_s sig)) /\
    PubKey_Address (CompressPubkey (acc_PublicKey account)) = farr_bytes (acc_Address account).
Proof.
  unfold SignSECP256K1, on_primary in Hsign. destruct (then_do _ _ w) as [r w'] eqn:H. injection Hsign as -> <-.
  apply then_do_inv in H as (account & w1 & Hd & H). apply then_do_inv in Hd as ([] & w2 & Ho%reopen_paths & Hd%wrap_err_inv).
  apply Derive_inv in Hd as (Haddr & path & pinned & d2 & Hpath & Hdrv & Hpin & Hold).
  apply bind_ok_inv in H as (td & w4 & [Htd ->]%lift_inv & H). apply bind_ok_inv in H as ([] & w5 & [_ ->]%wrap_err_inv%lift_inv & H%wrap_err_inv).
  apply SignTypedData_inv in H as (raw & pinned' & d4 & Hraw & Hv & Hp' & Hp1 & Hs). rewrite Hpin in Hp1. injection Hp1 as <-.
  destruct (verified_is_accepted _ _ _ Hv) as [Hl Hacc].
  assert (GetEIP712BytesForMsg stack doc = Ok raw) as Hb by (unfold GetEIP712BytesForMsg; rewrite Htd; cbn; by rewrite Hraw).
  eexists w', account, path, raw, pinned, _, d2, _, d4. split_and!; try done.
  - destruct Hold as [->|Hold]; [by left|]. unfold pinned_at in *. destruct Ho as [<-|Ho]; [by right|]. rewrite Ho in Hold. cbn in Hold. by rewrite lookup_empty in Hold.
  - unfold PubKey_VerifySignature, verifySignatureAsEIP712. rewrite Hb. case_bool_decide as Hlow; [rewrite (Hacc Hlow); by case_match|].
    by rewrite !high_s_refused.
  - unfold PubKey_Address. rewrite decompress_compress. by rewrite Haddr.
Qed.
End Signing.

(** ** Accounts and heartbeats *)

Section Accounts.
Context {C : Curve} {X : Type} {DR : Driver X}.
Abbreviation Wal := (@wallet C X).

(** The accounts are those with a path, each once, and there are none on a closed wallet. *)
Definition accounts_ok (w : Wal) : Prop :=
  match w_paths w with
  | Some m => w_open w = true /\ NoDup (acc_Address <$> w_accounts w) /\ forall a, a ∈ acc_Address <$> w_accounts w <-> is_Some (m !! a)
  | None => w_accounts w = []
  end.

Inductive wallet_op : Type :=
  | OpOpen (opened : option gerr)
  | OpClose
  | OpHeartbeat
  | OpDerive (path : list Z) (pin : bool) (cycles : nat)
  | OpSign (path : list Z) (domainHash messageHash : bytes).
Definition run_op (o : wallet_op) : M Wal unit :=
  match o with
  | OpOpen opened => Wallet_Open opened ;; mret tt
  | OpClose => Wallet_Close ;; mret tt
  | OpHeartbeat => heartbeat_cycle ;; mret tt
  | OpDerive path pin cycles => Wallet_Derive path pin cycles ;; mret tt
  | OpSign path domainHash messageHash => with_driver (drv_SignTypedMessage path domainHash messageHash) ;; mret tt
  end.
(** Operations until a panic, if any. *)
Inductive wallet_runs : Wal -> list wallet_op -> Wal -> Prop :=
  | runs_nil w : wallet_runs w [] w
  | runs_cons w o w' os w'' : run_op o w = (fst (run_op o w), w') -> (forall e, fst (run_op o w) <> Panic e) ->
      wallet_runs w' os w'' -> wallet_runs w (o :: os) w''.

Lemma driver_keeps {A} (m : M X A) : preserves accounts_ok (with_driver (X := X) m).
Proof. intros w Hw. unfold with_driver, zoom. destruct (m (w_driver w)). exact Hw. Qed.
Lemma close_keeps : preserves accounts_ok (wallet_close (X := X)).
Proof. intros w Hw. unfold wallet_close, modify. cbn. by destruct (w_open w). Qed.
Lemma heartbeat_keeps : preserves accounts_ok (heartbeat_cycle (X := X)).
Proof.
  intros w Hw. unfold heartbeat_cycle. destruct (w_open w); [|done]. pose proof (driver_keeps drv_Heartbeat w Hw) as Hd.
  destruct (with_driver drv_Heartbeat w) as [[| |] w1]; [done| |done]. by apply close_keeps.
Qed.
Lemma cycle_keeps n : preserves accounts_ok (cycle (X := X) n).
Proof.
  induction n as [|n IH]; cbn [cycle]; [apply preserves_ret|]. apply preserves_bind; [apply heartbeat_keeps|intros [|]; [done|apply preserves_ret]].
Qed.
Lemma open_keeps opened : preserves accounts_ok (Wallet_Open (X := X) opened).
Proof.
  intros w Hw. unfold Wallet_Open. unfold gets, require, mbind at 1 2, M_bind at 1 2. case_bool_decide as Hp; [|done].
  assert (w_accounts w = []) as Ha by (unfold accounts_ok in Hw; by rewrite Hp in Hw).
  set (J := fun w' : Wal => w_open w' = true /\ w_accounts w' = [] /\ w_paths w' = None).
  assert (forall w' : Wal, J w' -> accounts_ok (snd (then_do (with_driver drv_Open) (fun _ =>
    modify (fun w => mkWallet (w_url w) (w_open w) (w_accounts w) (Some ∅) true (S (w_beats w)) (w_driver w)) ;; mret (Some tt)) w'))) as HJ.
  { intros w' (J1 & J2 & J3). unfold then_do, with_driver, zoom, modify, mbind, M_bind. destruct (drv_Open (w_driver w')) as [[[]| |] d]; cbn;
      unfold accounts_ok; cbn; rewrite ?J1, ?J2, ?J3; try done. split_and!; [done|constructor|]. intros a. rewrite lookup_empty. split; [by intros ?%not_elem_of_nil|by intros []]. }
  unfold mbind, M_bind. destruct (w_open w) eqn:Eo; [by apply HJ|]. destruct opened; [done|]. by apply HJ.
Qed.
Lemma pin_keeps account path (w w' : Wal) : accounts_ok w -> pin_account account path w = (Ok tt, w') -> accounts_ok w'.
Proof.
  unfold pin_account, accounts_ok. destruct (w_paths w) as [m|] eqn:Em; [|done]. intros (H1 & H2 & H3).
  destruct (m !! acc_Address account) as [q|] eqn:Eq; intros [= <-]; [by rewrite Em|]. cbn. rewrite fmap_app. cbn. split_and!; [done| |].
  - apply NoDup_app. split_and!; [done| |apply NoDup_singleton]. intros a Ha ->%list_elem_of_singleton. apply H3 in Ha as [x Hx]. congruence.
  - intros a. rewrite elem_of_app, list_elem_of_singleton, lookup_insert_is_Some, H3. destruct (decide (a = acc_Address account)) as [->|Hne]; [by split; auto|].
    split; [intros [?| ->]; [by right|done]|]. intros [?|[_ ?]]; [done|by left].
Qed.
(** An invariant of computations that do not panic. *)
Definition keeps {A} (m : M Wal A) : Prop := forall w r w', accounts_ok w -> m w = (r, w') -> (forall e, r <> Panic e) -> accounts_ok w'.
Lemma keeps_preserves {A} (m : M Wal A) : preserves accounts_ok m -> keeps m.
Proof. intros Hm w r w' Hw E _. specialize (Hm w Hw). by rewrite E in Hm. Qed.
Lemma keeps_bind {A B} (m : M Wal A) (f : A -> M Wal B) : keeps m -> (forall a, keeps (f a)) -> keeps (m ≫= f).
Proof.
  intros Hm Hf w r w' Hw E Hr. unfold mbind, M_bind in E. destruct (m w) as [[a|e|e] w1] eqn:Em.
  - eapply Hf; [|exact E|exact Hr]. eapply Hm; [exact Hw|exact Em|done].
  - injection E as <- <-. by eapply Hm.
  - injection E as <- <-. by destruct (Hr e).
Qed.
Lemma derive_keeps path pin cycles : keeps (Wallet_Derive (X := X) path pin cycles).
Proof.
  unfold Wallet_Derive, then_do.
  apply keeps_bind; [apply keeps_preserves, preserves_lift|intros q]. apply keeps_bind; [apply keeps_preserves, preserves_gets|intros w].
  apply keeps_bind; [apply keeps_preserves, preserves_require|intros _]. apply keeps_bind; [apply keeps_preserves, driver_keeps|].
  intros [[ad p]|]; [|apply keeps_preserves, preserves_ret]. destruct pin; [|apply keeps_preserves, preserves_ret].
  apply keeps_bind; [apply keeps_preserves, cycle_keeps|]. intros [[]|]; [|apply keeps_preserves, preserves_ret].
  apply keeps_bind; [|intros _; apply keeps_preserves, preserves_ret]. intros w0 r w' Hw E Hr. destruct r as [[]|e|e]; [by eapply pin_keeps| |by destruct (Hr e)].
  unfold pin_account in E. repeat case_match; done.
Qed.

(** The accounts of a wallet: after any operations, failing ones and heartbeats that close
    it included, the accounts listed are exactly the pinned ones, each once, and none when
    the wallet is closed. *)
Theorem wallet_accounts_exact (url : string) (driver : X) (os : list wallet_op) (w : Wal)
    (Hrun : wallet_runs (new_wallet url driver) os w) : accounts_ok w.
Proof.
  assert (accounts_ok (new_wallet url driver)) as H0 by done. revert H0 Hrun. generalize (new_wallet url driver). intros w0 H0 Hrun.
  induction Hrun as [w0|w0 o w1 os w2 Hs Hp _ IH]; [done|]. apply IH. clear IH w2 os.
  assert (forall A (m : M Wal A), preserves accounts_ok m -> preserves accounts_ok (m ;; mret tt)) as Hthen.
  { intros A m Hm. apply preserves_bind; [done|intros; apply preserves_ret]. }
  replace w1 with (snd (run_op o w0)) by (by rewrite Hs). destruct o as [opened| | |path pin cycles|path d m]; cbn [run_op] in *.
  - by apply Hthen; [apply open_keeps|].
  - apply Hthen; [|done]. unfold Wallet_Close. apply preserves_bind; [apply preserves_gets|intros wx]. destruct (_ && _); [apply preserves_ret|].
    apply preserves_bind; [by apply preserves_modify|intros _]. apply preserves_bind; [apply close_keeps|intros _; apply preserves_ret].
  - by apply Hthen; [apply heartbeat_keeps|].
  - unfold mbind, M_bind in *. destruct (Wallet_Derive path pin cycles w0) as [r w'] eqn:E. assert (forall e, r <> Panic e) as Hr.
    { intros e ->. by apply (Hp e). }
    pose proof (derive_keeps _ _ _ _ _ _ H0 E Hr). destruct r; done.
  - by apply Hthen; [apply driver_keeps|].
Qed.

(** A wallet that its heartbeat closed and that is opened again has two heartbeats; closing
    it ends one of them, and no channel is left to end the other. *)
Lemma heartbeat_left_behind (url : string) (d d1 d2 d3 : X) e :
  drv_Open d = (Ok (Some tt), d1) -> drv_Heartbeat d1 = (Err e, d2) -> drv_Open (drv_Close d2) = (Ok (Some tt), d3) ->
  exists w, wallet_runs (new_wallet url d) [OpOpen None; OpHeartbeat; OpOpen None; OpClose] w /\ w_beats w = 1%nat /\ w_health w = false.
Proof.
  intros H1 H2 H3. eexists. split.
  - eapply runs_cons; [unfold run_op, Wallet_Open, then_do, with_driver, zoom, mbind, M_bind; cbn; rewrite H1; reflexivity|
      unfold run_op, Wallet_Open, then_do, with_driver, zoom, mbind, M_bind; cbn; by rewrite H1|].
    eapply runs_cons; [unfold run_op, heartbeat_cycle, with_driver, zoom, mbind, M_bind; cbn; rewrite H2; reflexivity|
      unfold run_op, heartbeat_cycle, with_driver, zoom, mbind, M_bind; cbn; by rewrite H2|].
    eapply runs_cons; [unfold run_op, Wallet_Open, then_do, with_driver, zoom, mbind, M_bind; cbn; rewrite H3; reflexivity|
      unfold run_op, Wallet_Open, then_do, with_driver, zoom, mbind, M_bind; cbn; by rewrite H3|].
    eapply runs_cons; [cbn; reflexivity|cbn; done|constructor].
  - done.
Qed.
End Accounts.
(** ** The wallets of the hub *)

Definition url_lt (a b : string) : Prop := String.compare a b = Lt.

Lemma ascii_compare_trans a b c : Ascii.compare a b = Lt -> Ascii.compare b c = Lt -> Ascii.compare a c = Lt.
Proof. unfold Ascii.compare. rewrite !N.compare_lt_iff. lia. Qed.
Lemma url_lt_trans a b c : url_lt a b -> url_lt b c -> url_lt a c.
Proof.
  unfold url_lt. revert b c. induction a as [|x a IH]; intros [|y b] [|z c]; cbn; try done.
  destruct (Ascii.compare x y) eqn:Exy; [|intros _|done].
  - apply Ascii.compare_eq_iff in Exy as ->. destruct (Ascii.compare y z); [apply IH|done|done].
  - destruct (Ascii.compare y z) eqn:Eyz; [|intros _|done].
    + apply Ascii.compare_eq_iff in Eyz as ->. by rewrite Exy.
    + by rewrite (ascii_compare_trans _ _ _ Exy Eyz).
Qed.
Lemma url_lt_irrefl a : ~ url_lt a a.
Proof. unfold url_lt. intros E. pose proof (String.compare_antisym a a) as H. by rewrite E in H. Qed.
Lemma url_gt a b : String.compare a b = Gt <-> url_lt b a.
Proof. unfold url_lt. rewrite (String.compare_antisym a b). destruct (String.compare b a); cbn; split; done. Qed.

Section HubWallets.
Context {C : Curve} {X : Type} {DR : Driver X}.
Abbreviation Wal := (@wallet C X).
Abbreviation sorted l := (StronglySorted url_lt l).

(** The wallet of a URL in a list. *)
Definition wallet_at (url : string) (ws : list Wal) : option Wal := List.find (fun w => bool_decide (w_url w = url)) ws.
Lemma wallet_at_cons url w ws : wallet_at url (w :: ws) = if decide (w_url w = url) then Some w else wallet_at url ws.
Proof. unfold wallet_at. cbn. by case_bool_decide; case_decide. Qed.
Lemma wallet_at_none url (ws : list Wal) : Forall (fun w => w_url w <> url) ws -> wallet_at url ws = None.
Proof. induction 1 as [|w ws Hw _ IH]; [done|]. by rewrite wallet_at_cons, decide_False. Qed.
Lemma above_none url w ws : sorted (w_url <$> w :: ws) -> url_lt url (w_url w) -> wallet_at url (w :: ws) = None.
Proof.
  rewrite fmap_cons. intros [_ Hall]%StronglySorted_inv Hlt. apply wallet_at_none. constructor; [intros E; rewrite E in Hlt; by apply url_lt_irrefl in Hlt|].
  rewrite Forall_fmap in Hall. eapply Forall_impl; [exact Hall|]. cbn. intros w' Hw' E. rewrite E in Hw'. by apply (url_lt_irrefl url), (url_lt_trans _ (w_url w)).
Qed.

(** Wallets in front of a device that failed are passed over, and only those. *)
Lemma drop_failed_spec (ws : list Wal) url : sorted (w_url <$> ws) ->
  Forall (fun w => url_lt (w_url w) url -> drv_Status (w_driver w) <> None) ws ->
  exists front, ws = front ++ drop_failed ws url /\ Forall (fun w => url_lt (w_url w) url) front /\
    match drop_failed ws url with w :: _ => ~ url_lt (w_url w) url | [] => True end.
Proof.
  induction ws as [|w ws IH]; [by exists []|]. cbn. intros [Hs _]%StronglySorted_inv [Hw Hws]%Forall_cons.
  destruct (String.compare (w_url w) url) eqn:Ec; [exists []; split_and!; [done|constructor|]; unfold url_lt; congruence| |
    exists []; split_and!; [done|constructor|]; unfold url_lt; congruence].
  specialize (Hw Ec). destruct (drv_Status (w_driver w)); [|done].
  destruct (IH Hs Hws) as (front & E & Hf & Hh). exists (w :: front). split_and!; [by rewrite E at 1|by constructor|done].
Qed.
Lemma wallet_at_front url (front ws : list Wal) : Forall (fun w => w_url w <> url) front -> wallet_at url (front ++ ws) = wallet_at url ws.
Proof. induction 1 as [|w front Hw _ IH]; [done|]. cbn [app]. by rewrite wallet_at_cons, decide_False. Qed.

Definition wallet_for (makeDriver : X) (ws : list Wal) (device : DeviceInfo) : Wal :=
  default (new_wallet (di_Path device) makeDriver) (wallet_at (di_Path device) ws).
(** No wallet is stale and healthy. *)
Definition none_hides (devices : list DeviceInfo) (ws : list Wal) : Prop :=
  Forall (fun w => w_url w ∈ di_Path <$> devices \/ drv_Status (w_driver w) <> None) ws.

Lemma none_hides_less d devices (ws : list Wal) : none_hides (d :: devices) ws -> Forall (fun w => w_url w <> di_Path d) ws -> none_hides devices ws.
Proof.
  unfold none_hides. rewrite !Forall_forall. intros H1 H2 w Hin. destruct (H1 w Hin) as [Hx|]; [|by right].
  apply elem_of_cons in Hx as [Hx|]; [by destruct (H2 w Hin)|by left].
Qed.
Lemma sorted_devices d devices d' : sorted (di_Path <$> d :: devices) -> d' ∈ devices -> url_lt (di_Path d) (di_Path d').
Proof. rewrite fmap_cons. intros [_ Hall]%StronglySorted_inv Hin. rewrite Forall_fmap, Forall_forall in Hall. by apply Hall. Qed.

(** Dropping wallets in front of a device changes nothing for it and the later devices. *)
Lemma after_drop d devices (ws : list Wal) : sorted (di_Path <$> d :: devices) -> sorted (w_url <$> ws) -> none_hides (d :: devices) ws ->
  sorted (w_url <$> drop_failed ws (di_Path d)) /\ none_hides (d :: devices) (drop_failed ws (di_Path d)) /\
  match drop_failed ws (di_Path d) with w :: _ => ~ url_lt (w_url w) (di_Path d) | [] => True end /\
  forall d', d' ∈ d :: devices -> wallet_at (di_Path d') ws = wallet_at (di_Path d') (drop_failed ws (di_Path d)).
Proof.
  intros Hd Hw Hs. destruct (drop_failed_spec ws (di_Path d) Hw) as (front & E & Hf & Hh).
  { eapply Forall_impl; [exact Hs|]. cbn. intros w [Hin|?] Hlw; [|done]. apply elem_of_cons in Hin as [Hin|Hin].
    - rewrite Hin in Hlw. by apply url_lt_irrefl in Hlw.
    - apply list_elem_of_fmap in Hin as (d' & Hin & Hd'). apply (sorted_devices _ _ _ Hd) in Hd'. rewrite Hin in Hlw. exfalso. by eapply url_lt_irrefl, url_lt_trans. }
  rewrite E in Hw, Hs. rewrite fmap_app in Hw. split_and!; [by eapply StronglySorted_app_1_r|by apply Forall_app in Hs as [_ ?]|done|].
  intros d' Hin. rewrite E at 1. apply wallet_at_front. eapply Forall_impl; [exact Hf|]. cbn. intros w Hlw Heq. rewrite Heq in Hlw.
  apply elem_of_cons in Hin as [->|Hin]; [by apply url_lt_irrefl in Hlw|]. apply (sorted_devices _ _ _ Hd) in Hin. by eapply url_lt_irrefl, url_lt_trans.
Qed.

Lemma merge_exact makeDriver devices : forall ws : list Wal, sorted (di_Path <$> devices) -> sorted (w_url <$> ws) -> none_hides devices ws ->
  merge_wallets makeDriver devices ws = wallet_for makeDriver ws <$> devices.
Proof.
  induction devices as [|d devices IH]; intros ws Hd Hw Hs; [done|].
  pose proof (fun d' => sorted_devices d devices d' Hd) as Hlt. destruct (after_drop d devices ws Hd Hw Hs) as (Hw' & Hs' & Hh & Hdrop).
  rewrite fmap_cons in Hd. apply StronglySorted_inv in Hd as [Hd _].
  assert (forall ws' : list Wal, (forall d', d' ∈ devices -> wallet_at (di_Path d') ws' = wallet_at (di_Path d') (drop_failed ws (di_Path d))) ->
    wallet_for makeDriver ws' <$> devices = wallet_for makeDriver ws <$> devices) as Hext.
  { intros ws' Hws'. apply list_fmap_ext. intros i d' Hi%list_elem_of_lookup_2. unfold wallet_for. rewrite Hws', Hdrop; [done|by right|done]. }
  cbn [merge_wallets fmap list_fmap]. unfold wallet_for at 1. rewrite (Hdrop d) by (by left).
  destruct (drop_failed ws (di_Path d)) as [|w ws'].
  - f_equal. rewrite (IH []); [|done|constructor|constructor]. by apply Hext.
  - rewrite wallet_at_cons. pose proof Hw' as Hsw. rewrite fmap_cons in Hw'. apply StronglySorted_inv in Hw' as [Hw2 Habove]. rewrite Forall_fmap in Habove.
    destruct (String.compare (w_url w) (di_Path d)) eqn:Ec; [|done|].
    + apply String.compare_eq_iff in Ec. rewrite decide_True by done. cbn. f_equal. apply Forall_cons in Hs' as [_ Hs2].
      rewrite IH; [|done|done|apply (none_hides_less d); [done|]].
      * apply Hext. intros d' Hd'%Hlt. rewrite wallet_at_cons, decide_False; [done|]. intros Hx. rewrite <- Ec, Hx in Hd'. by apply url_lt_irrefl in Hd'.
      * eapply Forall_impl; [exact Habove|]. cbn. intros w2 Hw2' Hx. rewrite Hx, Ec in Hw2'. by apply url_lt_irrefl in Hw2'.
    + apply url_gt in Ec. pose proof (above_none _ _ _ Hsw Ec) as Hno. rewrite wallet_at_cons in Hno. destruct (decide (w_url w = di_Path d)); [done|].
      rewrite Hno. cbn. f_equal. rewrite IH; [by apply Hext|done|done|apply (none_hides_less d); [done|]].
      constructor; [done|]. eapply Forall_impl; [exact Habove|]. cbn. intros w2 Hx Heq. rewrite Heq in Hx. by eapply url_lt_irrefl, url_lt_trans.
Qed.

(** A refresh of the hub gives exactly one wallet for each connected Ledger, in the order
    of the devices: the wallet that is known for it, with its state, and a new one for a
    device that was not known; provided both lists are sorted and a wallet whose device is
    gone has failed.  Nothing changes within half a second of the last refresh, while a
    confirmation is pending on Linux, or when the devices cannot be listed. *)
Theorem hub_wallets_exact (onLinux recent : bool) (infos : option (list DeviceInfo)) (makeDriver : X) (hub : Hub (X := X))
    (Hfails : hub_enumFails hub <= 2) (Hw : sorted (w_url <$> hub_wallets hub))
    (Hd : forall l, infos = Some l -> sorted (di_Path <$> List.filter is_ledger l) /\ none_hides (List.filter is_ledger l) (hub_wallets hub)) :
  hub_wallets (refreshWallets onLinux recent infos makeDriver hub) =
    match infos with
    | Some l => if recent || onLinux && (0 <? hub_commsPend hub) then hub_wallets hub
                else wallet_for makeDriver (hub_wallets hub) <$> List.filter is_ledger l
    | None => hub_wallets hub
    end.
Proof.
  unfold refreshWallets. destruct recent; [by destruct infos|]. rewrite (proj2 (Z.ltb_ge _ _)) by done. cbn [orb].
  destruct (onLinux && _); [by destruct infos|]. destruct infos as [l|]; [|done]. destruct (Hd l eq_refl) as [Hd' Hs]. by apply merge_exact.
Qed.

(** A healthy wallet whose device is gone hides a new device behind it: the first refresh
    finds no wallet for it at all. *)
Lemma stale_wallet_hides_device makeDriver (w : Wal) d : url_lt (w_url w) (di_Path d) -> drv_Status (w_driver w) = None ->
  merge_wallets makeDriver [d] [w] = [].
Proof. unfold url_lt. intros Hlt Hs. cbn. rewrite Hlt, Hs. cbn. by rewrite Hlt. Qed.
End HubWallets.
