(* ===== verification/Query.v ===== *)
(** * Queries

    The gRPC queries of the modules (x/evm/keeper/grpc_query.go, x/cpc/keeper/grpc_query.go,
    x/vauth/keeper/grpc_query.go, x/feemarket/keeper/grpc_query.go): lookups, calls and the
    estimation of gas.  A missing request is [None]; the JSON of call arguments is a
    parameter.  Tracing and pagination are left out. *)

From Stdlib Require Import Strings.Byte.
From stdpp Require Import base gmap list strings pretty.
From S2P Require Import Prelude Sdk Geth EvmTypes ChainId GasMeter EvmStore Genesis AccessList StateDB SnapshotStack.
From S2P Require Import Programs StateDBEffects FeeMarket Cpc CpcContracts Eip712 Staking Contracts TxTypes StateTransition.
From S2P Require Import TxExecution VAuth.

(** ** Requests and responses *)

Record EthCallRequest : Type := mkEthCallRequest {
  req_Args : bytes;
  req_GasCap : Z
}.

Record QueryAccountResponse : Type := mkQueryAccountResponse {
  qa_Balance : string;
  qa_CodeHash : string;
  qa_Nonce : Z
}.

(** The responses for Cosmos accounts and validators have the same fields. *)
Record QueryCosmosAccountResponse : Type := mkQueryCosmosAccountResponse {
  qc_CosmosAddress : string;
  qc_Sequence : Z;
  qc_AccountNumber : Z
}.

Record WrappedCustomPrecompiledContractMeta : Type := mkWrappedMeta {
  wrapped_Address : string;
  wrapped_TypeName : string;
  wrapped_Meta : CustomPrecompiledContractMeta
}.

(** [vm.ErrOutOfGas] *)
Definition ErrOutOfGas : gerr := Errorf "out of gas".

(** The ABI encoding of "Custom Precompiled Contract". *)
Definition PseudoCodePrecompiled : bytes :=
  replicate 31 x00 ++ [x20] ++ replicate 31 x00 ++ [x1b] ++
  [x43; x75; x73; x74; x6f; x6d; x20; x50; x72; x65; x63; x6f; x6d; x70; x69; x6c; x65; x64; x20;
   x43; x6f; x6e; x74; x72; x61; x63; x74] ++ replicate 5 x00.

Definition with_gas (msg : Message) (gas : Z) : Message :=
  mkMessage (msg_From msg) (msg_To msg) (msg_Nonce msg) (msg_Value msg) gas (msg_GasPrice msg)
    (msg_GasFeeCap msg) (msg_GasTipCap msg) (msg_Data msg) (msg_AccessList msg) (msg_IsFake msg).

Definition with_nonce (args : TransactionArgs) (nonce : Z) : TransactionArgs :=
  mkTransactionArgs (arg_From args) (arg_To args) (arg_Gas args) (arg_GasPrice args) (arg_MaxFeePerGas args)
    (arg_MaxPriorityFeePerGas args) (arg_Value args) (Some nonce) (arg_Data args) (arg_Input args)
    (arg_AccessList args) (arg_ChainID args).

Definition with_no_base_fee (cfg : EVMConfig) : EVMConfig :=
  mkEVMConfig (cfg_Params cfg) (cfg_ChainConfig cfg) (cfg_CoinBase cfg) (cfg_BaseFee cfg) true.

(** A request that is not nil. *)
Definition some_request {A} (req : option A) : res A :=
  match req with Some req => Ok req | None => Err (Errorf "empty request") end.

Section Lookups.
Context {S : Type} {K : SdkKeepers S} {G : Geth} {B : Bech32} {HX : HexText}.
Context {P : Codec EvmParams} {FP : Codec FmParams} {CP : Codec CpcParams} {CM : Codec CustomPrecompiledContractMeta}.
Context {PP : Codec ProofExternalOwnedAccount}.
Variable legacy_params : S -> FmParams.
Variable ConsAddressFromBech32 : string -> res bytes.
Variable GetValidatorByConsAddr : S -> bytes -> res string.
Variable ValidatorStringToBytes : string -> res bytes.
Implicit Types w : World S.

(** ** Lookups of x/evm *)

Definition Query_Account w (req : option string) : res QueryAccountResponse :=
  address ← some_request req;
  ValidateAddress address ;;
  let addr := HexToAddress address in
  let nonce := match GetAccount (w_sdk w) (farr_bytes addr) with Some acc => acc_sequence acc | None => 0 end in
  balance ← Keeper_GetBalance w addr;
  Ok (mkQueryAccountResponse (pretty balance) (Hash_String (Keeper_GetCodeHash w (farr_bytes addr))) nonce).

Definition cosmos_account w (accAddr : bytes) : QueryCosmosAccountResponse :=
  match GetAccount (w_sdk w) accAddr with
  | Some account => mkQueryCosmosAccountResponse (AccAddressString accAddr) (acc_sequence account) (acc_number account)
  | None => mkQueryCosmosAccountResponse (AccAddressString accAddr) 0 0
  end.

Definition Query_CosmosAccount w (req : option string) : res QueryCosmosAccountResponse :=
  address ← some_request req;
  ValidateAddress address ;;
  let ethAddr := HexToAddress address in
  Ok (cosmos_account w (farr_bytes ethAddr)).

Definition Query_ValidatorAccount w (req : option string) : res QueryCosmosAccountResponse :=
  consAddress ← some_request req;
  consAddr ← ConsAddressFromBech32 consAddress;
  operator ← GetValidatorByConsAddr (w_sdk w) consAddr;
  accAddrBz ← ValidatorStringToBytes operator;
  Ok (cosmos_account w accAddrBz).

Definition Query_Balance w (req : option string) : res string :=
  address ← some_request req;
  wrap_res (Errorf "invalid zero address") (ValidateAddress address) ;;
  balance ← Keeper_GetBalance w (HexToAddress address);
  Ok (pretty balance).

Definition Query_Storage w (req : option (string * string)) : res string :=
  '(address, key) ← some_request req;
  wrap_res (Errorf "invalid zero address") (ValidateAddress address) ;;
  Ok (Hash_String (Keeper_GetState w (HexToAddress address) (HexToHash key))).

Definition Query_Code w (req : option string) : res bytes :=
  address ← some_request req;
  wrap_res (Errorf "invalid zero address") (ValidateAddress address) ;;
  let address := HexToAddress address in
  if HasCustomPrecompiledContract w address then Ok PseudoCodePrecompiled
  else
    let codeHash := Keeper_GetCodeHash w (farr_bytes address) in
    Ok (if negb (IsEmptyCodeHash codeHash) then Keeper_GetCode w codeHash else []).

Definition Query_Params w : res EvmParams := Keeper_GetParams w.
Definition Query_BaseFee w : res Z := Keeper_GetBaseFee legacy_params w.

(** ** Lookups of the other modules *)

Definition WrapCustomPrecompiledContractMeta (meta : CustomPrecompiledContractMeta) :
    WrappedCustomPrecompiledContractMeta :=
  mkWrappedMeta (Address_String (BytesToAddress (meta_Address meta)))
    (if decide (meta_CustomPrecompiledType meta = CpcTypeErc20) then "ERC20"
     else if decide (meta_CustomPrecompiledType meta = CpcTypeStaking) then "Staking"
     else if decide (meta_CustomPrecompiledType meta = CpcTypeBech32) then "Bech32" else "Unknown")%string
    meta.

Definition Query_CustomPrecompiledContract w (req : option string) : res WrappedCustomPrecompiledContractMeta :=
  address ← some_request req;
  meta ← GetCustomPrecompiledContractMeta w (HexToAddress address);
  match meta with
  | None => Err (Errorf "contract not found")
  | Some meta => Ok (WrapCustomPrecompiledContractMeta meta)
  end.

Definition Query_Erc20CustomPrecompiledContractByDenom w (req : option string) :
    res WrappedCustomPrecompiledContractMeta :=
  minDenom ← some_request req;
  if decide (minDenom = ""%string) then Err (Errorf "denom cannot be empty")
  else match GetErc20CustomPrecompiledContractAddressByMinDenom w minDenom with
  | None => Err (Errorf "no contract found")
  | Some address =>
      meta ← GetCustomPrecompiledContractMeta w address;
      match meta with
      | None => Err (Errorf "contract not found")
      | Some meta => Ok (WrapCustomPrecompiledContractMeta meta)
      end
  end.

Definition Query_CpcParams w : res CpcParams := Cpc_GetParams w.

(** The account is looked up by its Bech32 text, or else by a non-zero hexadecimal
    address of 42 characters. *)
Definition Query_ProofExternalOwnedAccount w (req : option string) : res ProofExternalOwnedAccount :=
  match req with
  | None => Err (Errorf "invalid request")
  | Some account =>
      if decide (account = ""%string) then Err (Errorf "invalid request")
      else
        proof ← match AccAddressFromBech32 account with
                | Ok accAddr => GetProofExternalOwnedAccount w accAddr
                | Panic e => Panic e
                | Err _ =>
                    if has_0x account && (String.length account =? 42)%nat then
                      let addr := HexToAddress account in
                      if bool_decide (addr = zero_address) then Ok None
                      else GetProofExternalOwnedAccount w (farr_bytes addr)
                    else Ok None
                end;
        match proof with None => Err (Errorf "no proof available") | Some proof => Ok proof end
  end.

Definition Query_FmParams w : res FmParams := Fm_GetParams legacy_params w.
Definition Query_FmBaseFee w : res (option Z) := Fm_GetBaseFee legacy_params w.
End Lookups.

(** ** Calls and the estimation of gas *)

(** [RevertError]: the error with the reason, and the revert data as text. *)
Record RevertError : Type := mkRevertError {
  rev_error : gerr;
  rev_reason : bytes
}.

Section Calls.
Context {S : Type} {K : SdkKeepers S} {G : Geth} {B : Bech32} {E : EvmEngine S}.
Context {P : Codec EvmParams} {FP : Codec FmParams}.
Context {SK : StakingKeepers S} {E712 : Eip712Lib} {CP : Codec CpcParams} {CM : Codec CustomPrecompiledContractMeta}.
Context {JE : Json Erc20CustomPrecompiledContractMeta} {JS : Json StakingCustomPrecompiledContractMeta}.
Context {H C : Type} {X : CacheCtx H C (World S)}.
Variable legacy_params : S -> FmParams.
Variable GetValidatorByConsAddr : S -> bytes -> res string.
Variable ValidatorStringToBytes : string -> res bytes.
Variables Erc20CpcInfo Bech32CpcInfo StakingCpcInfo : CustomPrecompiledContractInfo.
Variable now : Z.
Variable map_order : AccountTracker -> list Address.
(** [json.Unmarshal] of the arguments and [abi.UnpackRevert]. *)
Variable UnmarshalArgs : bytes -> res TransactionArgs.
Variable UnpackRevert : bytes -> res string.

Definition NewExecErrorWithReason (revertReason : bytes) : RevertError :=
  mkRevertError
    match UnpackRevert revertReason with
    | Ok reason => Errorf ("execution reverted: " ++ reason)
    | _ => Errorf "execution reverted"
    end revertReason.

Definition apply_call (ctx : Ctx) (c : C) (msg : Message) (cfg : EVMConfig) : M H MsgEthereumTxResponse :=
  txConfig ← gets (fun h => NewTxConfigFromMessage ctx (view h c) (Some msg));
  ApplyMessageWithConfig Erc20CpcInfo Bech32CpcInfo StakingCpcInfo now map_order ctx c msg false cfg txConfig.

(** The call runs with the configuration without a base fee check and the nonce of its
    sender, and is not committed. *)
Definition EthCall (ctx : Ctx) (c : C) (req : option EthCallRequest) : M H MsgEthereumTxResponse :=
  req ← lift_res (some_request req);
  args ← lift_res (UnmarshalArgs (req_Args req));
  cfg ← read_ctx c (fun w => Keeper_EVMConfig legacy_params GetValidatorByConsAddr ValidatorStringToBytes ctx w []);
  let cfg := with_no_base_fee cfg in
  nonce ← gets (fun h => Keeper_GetNonce (view h c) (TransactionArgs_GetFrom args));
  let args := with_nonce args nonce in
  msg ← lift_res (TransactionArgs_ToMessage args (req_GasCap req) (Some (cfg_BaseFee cfg)));
  apply_call ctx c msg cfg.

(** The highest gas limit that is tried. *)
Definition highest_gas (ctx : Ctx) (args : TransactionArgs) (gasCap : Z) : Z :=
  let hi :=
    match arg_Gas args with
    | Some gas => if TxGas <=? gas then Some gas else None
    | None => None
    end in
  let hi :=
    match hi with
    | Some hi => hi
    | None =>
        match ctx_ConsensusMaxGas ctx with
        | Some maxGas => if 0 <? maxGas then maxGas else gasCap
        | None => gasCap
        end
    end in
  if negb (gasCap =? 0) && (gasCap <? hi) then gasCap else hi.

(** Whether the message fails with a gas limit; too little for the intrinsic gas is
    such a failure, any other error ends the estimation. *)
Definition executable (ctx : Ctx) (c : C) (msg : Message) (cfg : EVMConfig) (gas : Z) :
    M H (bool * option MsgEthereumTxResponse) := fun h =>
  match apply_call ctx c (with_gas msg gas) cfg h with
  | (Ok rsp, h') => (Ok (Response_Failed rsp, Some rsp), h')
  | (Err e, h') => if decide (e = ErrIntrinsicGas) then (Ok (true, None), h') else (Err e, h')
  | (Panic e, h') => (Panic e, h')
  end.

(** Why the message fails with the highest gas limit. *)
Definition failure_at_cap (result : option MsgEthereumTxResponse) : gerr :=
  match result with
  | Some result =>
      if decide (resp_VmError result = Some ErrOutOfGas) then Errorf "gas required exceeds allowance"
      else if decide (resp_VmError result = Some ErrExecutionReverted)
      then rev_error (NewExecErrorWithReason (resp_Ret result))
      else default (Errorf "") (resp_VmError result)
  | None => Errorf "gas required exceeds allowance"
  end.

Definition EstimateGas (ctx : Ctx) (c : C) (req : option EthCallRequest) : M H Z :=
  req ← lift_res (some_request req);
  require (negb (req_GasCap req <? TxGas)) (Errorf "gas cap cannot be lower than 21,000") ;;
  args ← lift_res (UnmarshalArgs (req_Args req));
  let lo := TxGas - 1 in
  let hi := highest_gas ctx args (req_GasCap req) in
  let gasCap := hi in
  cfg ← wrap_err (Errorf "failed to load evm config")
    (read_ctx c (fun w => Keeper_EVMConfig legacy_params GetValidatorByConsAddr ValidatorStringToBytes ctx w []));
  let cfg := with_no_base_fee cfg in
  nonce ← gets (fun h => Keeper_GetNonce (view h c) (TransactionArgs_GetFrom args));
  let args := with_nonce args nonce in
  msg ← lift_res (TransactionArgs_ToMessage args (req_GasCap req) (Some (cfg_BaseFee cfg)));
  hi ← BinSearch lo hi (executable ctx c msg cfg);
  (if hi =? gasCap then
     '(failed, result) ← executable ctx c msg cfg hi;
     require (negb failed) (failure_at_cap result)
   else mret tt) ;;
  mret hi.
End Calls.

(** ** Queries change nothing and estimates are right *)

(** Two states that differ at most in the transient store of the EVM. *)
Definition quiet {S} (w w' : World S) : Prop := w' = set_tevm (w_tevm w') w.

Lemma quiet_refl {S} (w : World S) : quiet w w.
Proof. by destruct w. Qed.
Lemma quiet_trans {S} (w1 w2 w3 : World S) : quiet w1 w2 -> quiet w2 w3 -> quiet w1 w3.
Proof. unfold quiet. intros -> ->. done. Qed.
#[export] Hint Resolve quiet_refl quiet_trans : evermint.

Section CallProofs.
Context {S : Type} {K : SdkKeepers S} {G : Geth} {B : Bech32} {E : EvmEngine S} {EL : EvmEngineLaws S}.
Context {P : Codec EvmParams} {FP : Codec FmParams}.
Context {SK : StakingKeepers S} {E712 : Eip712Lib} {CP : Codec CpcParams} {CM : Codec CustomPrecompiledContractMeta}.
Context {JE : Json Erc20CustomPrecompiledContractMeta} {JS : Json StakingCustomPrecompiledContractMeta}.
Context {H C : Type} {X : CacheCtx H C (World S)} {XL : CacheCtxLaws H C (World S)}.
Variable legacy_params : S -> FmParams.
Variable GetValidatorByConsAddr : S -> bytes -> res string.
Variable ValidatorStringToBytes : string -> res bytes.
Variables Erc20CpcInfo Bech32CpcInfo StakingCpcInfo : CustomPrecompiledContractInfo.
Variable now : Z.
Variable map_order : AccountTracker -> list Address.
Variable UnmarshalArgs : bytes -> res TransactionArgs.
Variable UnpackRevert : bytes -> res string.
Variable ctx : Ctx.
Variable c : C.
Implicit Types (h : H) (w : World S).
Abbreviation apply := (apply_call Erc20CpcInfo Bech32CpcInfo StakingCpcInfo now map_order ctx c).
Abbreviation exe := (executable Erc20CpcInfo Bech32CpcInfo StakingCpcInfo now map_order ctx c).
Abbreviation eth_call := (EthCall legacy_params GetValidatorByConsAddr ValidatorStringToBytes
  Erc20CpcInfo Bech32CpcInfo StakingCpcInfo now map_order UnmarshalArgs ctx c).
Abbreviation estimate := (EstimateGas legacy_params GetValidatorByConsAddr ValidatorStringToBytes
  Erc20CpcInfo Bech32CpcInfo StakingCpcInfo now map_order UnmarshalArgs UnpackRevert ctx c).

(** A call on a state, without contexts. *)
Definition spec_call (msg : Message) (cfg : EVMConfig) : M (World S) MsgEthereumTxResponse := fun w =>
  spec_ApplyMessage Erc20CpcInfo Bech32CpcInfo StakingCpcInfo now map_order ctx msg false cfg
    (NewTxConfigFromMessage ctx w (Some msg)) w.

Lemma spec_call_quiet msg cfg w : quiet w (snd (spec_call msg cfg w)).
Proof.
  unfold spec_call, spec_ApplyMessage. do 2 (case_match; [apply quiet_refl|]).
  destruct (NewStateDB_env _ _ _ ≫= _) as [[env evm]|e|e]; [|apply quiet_refl..].
  destruct (astate_run env _ (astate_new w)) as [[[[result|e|e] st]|e|e] s] eqn:Es; try apply quiet_refl.
  apply astate_run_base in Es as [Eb _]. unfold spec_finish. rewrite Eb. simpl.
  destruct (Receipt_MarshalBinary _); [done|apply quiet_refl..].
Qed.

(** The contexts that a query may leave behind. *)
Definition same_but_records w h : Prop := ctx_valid h c /\ quiet w (view h c).

Lemma apply_call_spec msg cfg w h :
  same_but_records w h ->
  exists r h', apply msg cfg h = (r, h') /\ same_but_records w h' /\ spec_call msg cfg (view h c) = (r, view h' c).
Proof.
  intros [Hv Hq]. unfold apply_call, gets. unfold mbind, M_bind. cbv beta iota.
  set (txConfig := NewTxConfigFromMessage ctx (view h c) (Some msg)).
  pose proof (apply_message_spec Erc20CpcInfo Bech32CpcInfo StakingCpcInfo now map_order ctx c msg false cfg txConfig h Hv) as Hs.
  pose proof (apply_message_valid Erc20CpcInfo Bech32CpcInfo StakingCpcInfo now map_order ctx c msg false cfg txConfig c h Hv) as Hv'.
  pose proof (spec_call_quiet msg cfg (view h c)) as Hq'. revert Hq'. unfold spec_call. fold txConfig.
  destruct (ApplyMessageWithConfig _ _ _ _ _ _ _ _ _ _ _ h) as [r h'].
  destruct (spec_ApplyMessage _ _ _ _ _ _ _ _ _ _ _) as [r2 w2]. destruct Hs as [-> Ev]. simpl. intros Hq'.
  exists r2, h'. split; [done|]. rewrite Ev. split; [|done]. split; [done|]. rewrite Ev. by eapply quiet_trans.
Qed.

(** What [executable] answers, from the call on a state. *)
Definition call_answer (r : res MsgEthereumTxResponse) : res (bool * option MsgEthereumTxResponse) :=
  match r with
  | Ok rsp => Ok (Response_Failed rsp, Some rsp)
  | Err e => if decide (e = ErrIntrinsicGas) then Ok (true, None) else Err e
  | Panic e => Panic e
  end.

Lemma executable_spec msg cfg gas w h :
  same_but_records w h ->
  exists r h', exe msg cfg gas h = (call_answer r, h') /\ same_but_records w h' /\
    spec_call (with_gas msg gas) cfg (view h c) = (r, view h' c).
Proof.
  intros Hs. destruct (apply_call_spec (with_gas msg gas) cfg w h Hs) as (r & h' & Ea & Hs' & Er).
  exists r, h'. split; [|done]. unfold executable. rewrite Ea. destruct r; simpl; [done| |done]. by case_decide.
Qed.

Lemma eth_call_ok req w h : same_but_records w h -> same_but_records w (snd (eth_call req h)).
Proof.
  intros Hs. unfold EthCall. unfold read_ctx, gets. munfold.
  destruct (some_request req) as [q|e|e]; [|done|done]. simpl. destruct (UnmarshalArgs (req_Args q)) as [args|e|e]; [|done|done].
  simpl. destruct (Keeper_EVMConfig _ _ _ _ _ _) as [cfg|e|e]; [|done|done]. simpl.
  destruct (TransactionArgs_ToMessage _ _ _) as [msg|e|e]; [|done|done]. simpl.
  by destruct (apply_call_spec msg (with_no_base_fee cfg) w h Hs) as (r & h' & -> & Hs' & _).
Qed.

Lemma executable_inv msg cfg w g h : same_but_records w h -> same_but_records w (snd (exe msg cfg g h)).
Proof. intros Hs. by destruct (executable_spec msg cfg g w h Hs) as (r & h' & -> & Hs' & _). Qed.

Lemma estimate_inv req w : preserves (same_but_records w) (estimate req).
Proof.
  assert (forall (A : Type) (f : World S -> res A), preserves (same_but_records w) (read_ctx c f)) as Hr by (by intros A f h).
  assert (forall msg cfg g, preserves (same_but_records w) (exe msg cfg g)) as He.
  { intros msg cfg g h Hs. by apply executable_inv. }
  unfold EstimateGas. apply preserves_bind; [auto with evermint|intros q]. apply preserves_bind; [auto with evermint|intros _].
  apply preserves_bind; [auto with evermint|intros args]. apply preserves_bind; [auto with evermint|intros cfg].
  apply preserves_bind; [auto with evermint|intros nonce]. apply preserves_bind; [auto with evermint|intros msg].
  apply preserves_bind; [by apply BinSearch_preserves|intros hi]. apply preserves_bind; [|auto with evermint].
  case_match; [|auto with evermint]. apply preserves_bind; [auto with evermint|]. intros [failed result]. auto with evermint.
Qed.

(** Queries change nothing: a call or an estimation of gas, whatever the request asks
    the EVM to do and however it ends, leaves accounts, coins, contracts, storage,
    parameters and proofs of the context it runs on as they were; only the records of
    the transient store, which is dropped at the end of the block, may differ. *)
Theorem queries_change_nothing (req : option EthCallRequest) (h : H) (Hctx : ctx_valid h c) :
  quiet (view h c) (view (snd (eth_call req h)) c) /\ quiet (view h c) (view (snd (estimate req h)) c).
Proof.
  assert (same_but_records (view h c) h) as Hs by (split; [done|apply quiet_refl]).
  split; [by apply eth_call_ok|by apply estimate_inv].
Qed.

(** *** The estimate *)

(** Whether the call with a gas limit fails on a state: the EVM reports an error, or the
    limit does not cover the intrinsic gas. *)
Definition call_fails (msg : Message) (cfg : EVMConfig) (gas : Z) w : Prop :=
  match fst (spec_call (with_gas msg gas) cfg w) with
  | Ok rsp => resp_VmError rsp <> None
  | Err e => e = ErrIntrinsicGas
  | Panic _ => False
  end.
Definition call_succeeds (msg : Message) (cfg : EVMConfig) (gas : Z) w : Prop :=
  exists rsp w', spec_call (with_gas msg gas) cfg w = (Ok rsp, w') /\ resp_VmError rsp = None.

Lemma answer_failed r b x : call_answer r = Ok (b, x) ->
  if b then match r with Ok rsp => resp_VmError rsp <> None | Err e => e = ErrIntrinsicGas | Panic _ => False end
  else exists rsp, r = Ok rsp /\ resp_VmError rsp = None.
Proof.
  destruct r as [rsp|e|e]; simpl; [| |done].
  - unfold Response_Failed. destruct (resp_VmError rsp) as [v|] eqn:Ev.
    + rewrite bool_decide_eq_true_2 by eauto. by intros [= <- _].
    + rewrite bool_decide_eq_false_2 by (by intros [? ?]). intros [= <- _]. by exists rsp.
  - case_decide; [|done]. by intros [= <- _].
Qed.

Lemma tried_call msg cfg w gas b :
  tried (same_but_records w) (exe msg cfg) gas (Ok b) ->
  exists w', quiet w w' /\ if b then call_fails msg cfg gas w' else call_succeeds msg cfg gas w'.
Proof.
  intros (h & h' & x & Hs & Ee & Ex). destruct (executable_spec msg cfg gas w h Hs) as (r & h2 & Ee2 & _ & Er).
  rewrite Ee2 in Ee. injection Ee as <- _. destruct (call_answer r) as [[b' y]|e|e] eqn:Ea; [|done|done].
  injection Ex as ->. apply answer_failed in Ea. exists (view h c). split; [apply Hs|].
  unfold call_fails, call_succeeds. rewrite Er. destruct b; [done|]. destruct Ea as (rsp & -> & Ev). eauto.
Qed.

Lemma highest_gas_cap args gasCap : gasCap <> 0 -> highest_gas ctx args gasCap <= gasCap.
Proof. intros Hc. unfold highest_gas. destruct (Z.eqb_spec gasCap 0); [done|]. simpl. case_match; lia. Qed.

(** C13 A gas estimate is right: it is at most the cap of the request, the call succeeds
    with it, and unless it is 21,000 or less the call fails with one unit less; both on
    the state of the query, up to the transient records earlier attempts left. *)
Theorem estimate_gas_sound (req : EthCallRequest) (args : TransactionArgs) (cfg : EVMConfig) (msg : Message)
  (h h' : H) (gas : Z)
  (Hctx : ctx_valid h c) (Hargs : UnmarshalArgs (req_Args req) = Ok args) (Hcap : req_GasCap req < 2 ^ 63)
  (Hcfg : Keeper_EVMConfig legacy_params GetValidatorByConsAddr ValidatorStringToBytes ctx (view h c) [] = Ok cfg)
  (Hmsg : TransactionArgs_ToMessage (with_nonce args (Keeper_GetNonce (view h c) (TransactionArgs_GetFrom args)))
            (req_GasCap req) (Some (cfg_BaseFee cfg)) = Ok msg)
  (Hrun : estimate (Some req) h = (Ok gas, h')) :
  gas <= req_GasCap req /\
  (exists w, quiet (view h c) w /\ call_succeeds msg (with_no_base_fee cfg) gas w) /\
  (gas <= TxGas \/ exists w, quiet (view h c) w /\ call_fails msg (with_no_base_fee cfg) (gas - 1) w).
Proof.
  unfold EstimateGas in Hrun. apply bind_ok_inv in Hrun as (q & h0 & Hq & Hrun). injection Hq as <- <-.
  apply bind_ok_inv in Hrun as ([] & h0 & Hq & Hrun). unfold require in Hq.
  destruct (Z.ltb_spec (req_GasCap req) TxGas) as [|Hge]; [done|]. injection Hq as <-. unfold TxGas in Hge.
  apply bind_ok_inv in Hrun as (x & h0 & Hq & Hrun). unfold lift_res in Hq. rewrite Hargs in Hq. injection Hq as <- <-.
  apply bind_ok_inv in Hrun as (x & h0 & Hq & Hrun). unfold wrap_err, read_ctx in Hq. rewrite Hcfg in Hq. injection Hq as <- <-.
  apply bind_ok_inv in Hrun as (x & h0 & Hq & Hrun). injection Hq as <- <-.
  apply bind_ok_inv in Hrun as (x & h0 & Hq & Hrun). unfold lift_res in Hq. cbn [with_no_base_fee cfg_BaseFee] in Hq.
  rewrite Hmsg in Hq. injection Hq as <- <-.
  apply bind_ok_inv in Hrun as (g & h1 & Eb & Hrun).
  pose proof (highest_gas_cap args (req_GasCap req) ltac:(lia)) as Hhi. set (hi := highest_gas ctx args (req_GasCap req)) in *.
  assert (same_but_records (view h c) h) as Hs by (split; [done|apply quiet_refl]).
  set (cfg' := with_no_base_fee cfg) in *.
  assert (g <= hi /\ (g = hi \/ tried (same_but_records (view h c)) (exe msg cfg') g (Ok false)) /\
    (g <= TxGas \/ tried (same_but_records (view h c)) (exe msg cfg') (g - 1) (Ok true)) /\
    same_but_records (view h c) h1) as (Hg & Hup & Hlow & Hs1).
  { destruct (Z.le_gt_cases hi (TxGas - 1)) as [Hle|Hgt].
    - rewrite BinSearch_empty in Eb by (unfold TxGas, MaxUint64 in *; lia). injection Eb as <- <-.
      split_and!; [lia|by left|left; lia|done].
    - destruct (BinSearch_spec (same_but_records (view h c)) (exe msg cfg')) with (TxGas - 1) hi h as [Hi Hr];
        [intros g0 h0; apply executable_inv|done|unfold TxGas; lia|lia|unfold MaxUint64; lia|].
      rewrite Eb in Hi, Hr. destruct Hr as (Hg & H1 & H2).
      split_and!; [lia|done| |done]. destruct H2 as [H2|]; [left; lia|by right]. }
  assert (gas = g /\ (g <> hi \/ tried (same_but_records (view h c)) (exe msg cfg') g (Ok false))) as [-> Hup'].
  { apply bind_ok_inv in Hrun as ([] & h2 & Ec & Hrun). injection Hrun as -> _. split; [done|].
    destruct (Z.eqb_spec gas hi) as [->|Hne]; [right|by left].
    apply bind_ok_inv in Ec as ([failed x] & h3 & Ee & Ec). destruct failed; [done|].
    exists h1, h3, (Ok (false, x)). done. }
  split; [unfold TxGas in *; lia|]. split.
  - destruct Hup as [->|Hup]; [destruct Hup' as [|Hup]; [done|]|]; by apply tried_call in Hup.
  - destruct Hlow as [|Hlow]; [by left|right]. by apply tried_call in Hlow.
Qed.
End CallProofs.
