(* ===== verification/Tracing.v ===== *)
(** * Tracing transactions and blocks

    The queries TraceTx and TraceBlock (x/evm/keeper/grpc_query.go): transactions are
    executed again on the state before their block.  The tracers of go-ethereum are a
    parameter: what a tracer reports is a function of the tracer and of the execution it
    observed; timeouts and the text of errors are left out. *)

From Stdlib Require Import Strings.Byte.
From stdpp Require Import base gmap list strings.
From S2P Require Import Prelude Sdk Geth EvmTypes ChainId GasMeter EvmStore Genesis AccessList StateDB SnapshotStack.
From S2P Require Import Programs StateDBEffects FeeMarket Cpc CpcContracts Eip712 Staking Contracts TxTypes StateTransition.
From S2P Require Import TxExecution Query.

Record TraceConfig : Type := mkTraceConfig {
  trc_Tracer : string;
  trc_Timeout : string;
  trc_DisableStack : bool;
  trc_DisableStorage : bool;
  trc_Debug : bool;
  trc_Limit : Z;
  trc_Overrides : option ChainConfig;
  trc_EnableMemory : bool;
  trc_EnableReturnData : bool;
  trc_TracerJsonConfig : string
}.
Definition empty_trace_config : TraceConfig := mkTraceConfig "" "" false false false 0 None false false "".

(** [tracers.Context] *)
Record TracerContext : Type := mkTracerContext {
  tcx_BlockHash : Hash;
  tcx_TxIndex : Z;
  tcx_TxHash : Hash
}.
Inductive Tracer : Type :=
  | StructLogger (config : TraceConfig) (overrides : option EthChainConfig)
  | NamedTracer (name : string) (context : TracerContext) (config : option string).

(** The trace of one transaction of a block, or its error. *)
Inductive TxTraceResult : Type :=
  | TraceResult (result : string)
  | TraceError (e : gerr).

(** Go-ethereum's tracers and the encoding of their results. *)
Class TracerLib (S : Type) : Type := {
  tracers_New : string -> TracerContext -> option string -> res unit;
  ParseDuration : string -> res Z;
  (** [json.Unmarshal] to a raw message; nothing if it fails *)
  json_RawMessage : string -> option string;
  (** [GetResult] after a message was executed: on a state, in a block, with a configuration *)
  Tracer_GetResult : Tracer -> Ctx -> World S -> Message -> EVMConfig -> res string;
  Marshal_Trace : string -> res bytes;
  Marshal_Traces : list TxTraceResult -> res bytes
}.

Record QueryTraceTxRequest : Type := mkTraceTxRequest {
  ttr_Msg : MsgEthereumTx;
  ttr_TraceConfig : option TraceConfig;
  ttr_Predecessors : list MsgEthereumTx;
  ttr_BlockNumber : Z;
  ttr_BlockHash : string;
  ttr_BlockTime : Z;
  ttr_ProposerAddress : bytes
}.
Record QueryTraceBlockRequest : Type := mkTraceBlockRequest {
  tbr_Txs : list MsgEthereumTx;
  tbr_TraceConfig : option TraceConfig;
  tbr_BlockNumber : Z;
  tbr_BlockHash : string;
  tbr_BlockTime : Z;
  tbr_ProposerAddress : bytes
}.

(** The context of the block that is traced. *)
Definition trace_ctx (ctx : Ctx) (height time : Z) (headerHash : bytes) : Ctx :=
  mkCtx (if height <? 1 then 1 else height) (ctx_ChainID ctx) headerHash (ctx_ProposerAddress ctx) time
    (ctx_IsCheckTx ctx) (ctx_IsReCheckTx ctx) (ctx_MinGasPrices ctx) (ctx_BlockGasMeterLimit ctx) (ctx_ConsensusMaxGas ctx).
Definition trace_evm_config (cfg : EVMConfig) (baseFee : Z) : EVMConfig :=
  mkEVMConfig (cfg_Params cfg) (cfg_ChainConfig cfg) (cfg_CoinBase cfg) baseFee true.
Definition at_index (txConfig : TxConfig) (txIndex logIndex : Z) : TxConfig :=
  mkTxConfig (txc_BlockHash txConfig) (txc_TxHash txConfig) txIndex logIndex (txc_TxType txConfig).

(** [x, err := m; if err != nil { bad } else { ok }] *)
Definition on_result {T A R} (m : M T A) (ok : A -> M T R) (bad : gerr -> M T R) : M T R := fun s =>
  match m s with
  | (Ok a, s') => ok a s'
  | (Err e, s') => bad e s'
  | (Panic e, s') => (Panic e, s')
  end.

Section Tracing.
Context {S : Type} {K : SdkKeepers S} {G : Geth} {B : Bech32} {HX : HexText} {E : EvmEngine S}.
Context {P : Codec EvmParams} {FP : Codec FmParams}.
Context {SK : StakingKeepers S} {E712 : Eip712Lib} {CP : Codec CpcParams} {CM : Codec CustomPrecompiledContractMeta}.
Context {JE : Json Erc20CustomPrecompiledContractMeta} {JS : Json StakingCustomPrecompiledContractMeta}.
Context {H C : Type} {X : CacheCtx H C (World S)} {TL : TracerLib S}.
Variable legacy_params : S -> FmParams.
Variable GetValidatorByConsAddr : S -> bytes -> res string.
Variable ValidatorStringToBytes : string -> res bytes.
Variables Erc20CpcInfo Bech32CpcInfo StakingCpcInfo : CustomPrecompiledContractInfo.
Variable now : Z.
Variable map_order : AccountTracker -> list Address.
Implicit Types (ctx : Ctx) (c : C) (w : World S).

(** What both queries do to execute a transaction: the context is set up, the message is
    applied, and the gas it used is put on the meter of the context. *)
Definition trace_execute ctx c (ethTx : Transaction) (msg : Message) (commit : bool) (cfg : EVMConfig) (txConfig : TxConfig) :
    M H MsgEthereumTxResponse :=
  meter ← on_ctx c (SetupExecutionContext ctx ethTx);
  rsp ← ApplyMessageWithConfig Erc20CpcInfo Bech32CpcInfo StakingCpcInfo now map_order ctx c msg commit cfg txConfig;
  lift_res (fst (ResetGasMeterAndConsumeGas (resp_GasUsed rsp) meter)) ;;
  mret rsp.

(** The signer is that of the configuration and the height. *)
Definition trace_message ctx (cfg : EVMConfig) (ethTx : Transaction) : res Message :=
  wrap_res (Errorf "failed to convert tx to message")
    (Transaction_AsMessage (cfg_ChainConfig cfg) (ctx_BlockHeight ctx) ethTx (cfg_BaseFee cfg)).
Definition trace_receipt (rsp : MsgEthereumTxResponse) : res Receipt :=
  wrap_res (Errorf "failed to unmarshal receipt") (Receipt_UnmarshalBinary (resp_MarshalledReceipt rsp)).

(** The tracer, and whether the timeout can be read. *)
Definition make_tracer (cfg : EVMConfig) (txConfig : TxConfig) (traceConfig : TraceConfig) (tracerJSONConfig : option string) : res Tracer :=
  overrides ← match trc_Overrides traceConfig with
              | None => Ok None
              | Some o => Some <$> ChainConfig_EthereumConfig o (eth_ChainID (cfg_ChainConfig cfg))
              end;
  let tCtx := mkTracerContext (txc_BlockHash txConfig) (txc_TxIndex txConfig) (txc_TxHash txConfig) in
  tracer ← (if decide (trc_Tracer traceConfig = ""%string) then Ok (StructLogger traceConfig overrides)
            else tracers_New (trc_Tracer traceConfig) tCtx tracerJSONConfig ;;
                 Ok (NamedTracer (trc_Tracer traceConfig) tCtx tracerJSONConfig));
  (if decide (trc_Timeout traceConfig = ""%string) then Ok tt
   else wrap_res (Errorf "timeout value") (ParseDuration (trc_Timeout traceConfig)) ;; Ok tt) ;;
  Ok tracer.

(** The trace and the log index of the next transaction. *)
Definition traceTx ctx c (cfg : EVMConfig) (txConfig : TxConfig) (ethTx : Transaction) (traceConfig : option TraceConfig)
    (commitMessage : bool) (tracerJSONConfig : option string) : M H (string * Z) :=
  msg ← lift_res (trace_message ctx cfg ethTx);
  tracer ← lift_res (make_tracer cfg txConfig (default empty_trace_config traceConfig) tracerJSONConfig);
  before ← gets (fun h => snd (SetupExecutionContext ctx ethTx (view h c)));
  res ← trace_execute ctx c ethTx msg commitMessage cfg txConfig;
  receipt ← lift_res (trace_receipt res);
  result ← lift_res (Tracer_GetResult tracer ctx before msg cfg);
  mret (result, add64 (txc_LogIndex txConfig) (Z.of_nat (length (rcpt_Logs receipt)))).

Definition valid_limit (traceConfig : option TraceConfig) : bool :=
  match traceConfig with Some tc => 0 <=? trc_Limit tc | None => true end.

(** The configuration of the EVM for a trace. *)
Definition trace_config ctx c (proposerAddress : bytes) : M H EVMConfig :=
  cfg ← wrap_err (Errorf "failed to load evm config")
    (read_ctx c (fun w => Keeper_EVMConfig legacy_params GetValidatorByConsAddr ValidatorStringToBytes ctx w proposerAddress));
  baseFee ← read_ctx c (Keeper_GetBaseFee legacy_params);
  mret (trace_evm_config cfg baseFee).

(** The transactions before the traced one; one that cannot be applied is skipped. *)
Fixpoint replay ctx c (cfg : EVMConfig) (i prevLogIndex : Z) (predecessors : list MsgEthereumTx) : M H Z :=
  match predecessors with
  | [] => mret prevLogIndex
  | tx :: predecessors' =>
      ethTx ← lift_res (MsgEthereumTx_AsTransaction tx);
      msg ← lift_res (trace_message ctx cfg ethTx);
      txConfig ← gets (fun h => at_index (NewTxConfig ctx (view h c) (Some ethTx)) i prevLogIndex);
      on_result (trace_execute ctx c ethTx msg true cfg txConfig)
        (fun rsp => receipt ← lift_res (trace_receipt rsp);
           replay ctx c cfg (add64 i 1) (add64 prevLogIndex (Z.of_nat (length (rcpt_Logs receipt)))) predecessors')
        (fun _ => replay ctx c cfg (add64 i 1) prevLogIndex predecessors')
  end.

Definition TraceTx (ctx0 : Ctx) c (req : option QueryTraceTxRequest) : M H bytes :=
  req ← lift_res (some_request req);
  require (valid_limit (ttr_TraceConfig req)) (Errorf "output limit cannot be negative") ;;
  let ctx := trace_ctx ctx0 (ttr_BlockNumber req) (ttr_BlockTime req) (Hex2Bytes (ttr_BlockHash req)) in
  cfg ← trace_config ctx c (ttr_ProposerAddress req);
  prevLogIndex ← replay ctx c cfg 0 0 (ttr_Predecessors req);
  ethTx ← lift_res (MsgEthereumTx_AsTransaction (ttr_Msg req));
  txConfig ← gets (fun h => at_index (NewTxConfig ctx (view h c) (Some ethTx))
    (Z.of_nat (length (ttr_Predecessors req))) prevLogIndex);
  let tracerConfig :=
    match ttr_TraceConfig req with
    | Some tc => if decide (trc_TracerJsonConfig tc = ""%string) then None else json_RawMessage (trc_TracerJsonConfig tc)
    | None => None
    end in
  '(result, _) ← traceTx ctx c cfg txConfig ethTx (ttr_TraceConfig req) false tracerConfig;
  lift_res (Marshal_Trace result).

Fixpoint trace_txs ctx c (cfg : EVMConfig) (traceConfig : option TraceConfig) (i prevLogIndex : Z) (txs : list MsgEthereumTx) :
    M H (list TxTraceResult) :=
  match txs with
  | [] => mret []
  | tx :: txs' =>
      ethTx ← lift_res (MsgEthereumTx_AsTransaction tx);
      txConfig ← gets (fun h => at_index (NewTxConfig ctx (view h c) (Some ethTx)) i prevLogIndex);
      on_result (traceTx ctx c cfg txConfig ethTx traceConfig true None)
        (fun '(result, logIndex) => rest ← trace_txs ctx c cfg traceConfig (add64 i 1) logIndex txs'; mret (TraceResult result :: rest))
        (fun e => rest ← trace_txs ctx c cfg traceConfig (add64 i 1) prevLogIndex txs'; mret (TraceError e :: rest))
  end.

Definition TraceBlock (ctx0 : Ctx) c (req : option QueryTraceBlockRequest) : M H bytes :=
  req ← lift_res (some_request req);
  require (valid_limit (tbr_TraceConfig req)) (Errorf "output limit cannot be negative") ;;
  let ctx := trace_ctx ctx0 (tbr_BlockNumber req) (tbr_BlockTime req) (Hex2Bytes (tbr_BlockHash req)) in
  cfg ← trace_config ctx c (tbr_ProposerAddress req);
  results ← trace_txs ctx c cfg (tbr_TraceConfig req) 0 0 (tbr_Txs req);
  lift_res (Marshal_Traces results).
End Tracing.

(** ** Tracing a block and tracing its transactions agree *)

Section TracingProofs.
Context {S : Type} {K : SdkKeepers S} {G : Geth} {B : Bech32} {HX : HexText} {E : EvmEngine S} {EL : EvmEngineLaws S}.
Context {P : Codec EvmParams} {FP : Codec FmParams}.
Context {SK : StakingKeepers S} {E712 : Eip712Lib} {CP : Codec CpcParams} {CM : Codec CustomPrecompiledContractMeta}.
Context {JE : Json Erc20CustomPrecompiledContractMeta} {JS : Json StakingCustomPrecompiledContractMeta}.
Context {H C : Type} {X : CacheCtx H C (World S)} {XL : CacheCtxLaws H C (World S)} {TL : TracerLib S}.
Variable legacy_params : S -> FmParams.
Variable GetValidatorByConsAddr : S -> bytes -> res string.
Variable ValidatorStringToBytes : string -> res bytes.
Variables Erc20CpcInfo Bech32CpcInfo StakingCpcInfo : CustomPrecompiledContractInfo.
Variable now : Z.
Variable map_order : AccountTracker -> list Address.
Implicit Types (ctx : Ctx) (c : C) (w : World S) (h : H).
Abbreviation execute := (trace_execute Erc20CpcInfo Bech32CpcInfo StakingCpcInfo now map_order).
Abbreviation trace_one := (traceTx Erc20CpcInfo Bech32CpcInfo StakingCpcInfo now map_order).
Abbreviation trace_all := (trace_txs Erc20CpcInfo Bech32CpcInfo StakingCpcInfo now map_order).
Abbreviation run_before := (replay Erc20CpcInfo Bech32CpcInfo StakingCpcInfo now map_order).
Abbreviation trace_tx := (TraceTx legacy_params GetValidatorByConsAddr ValidatorStringToBytes
  Erc20CpcInfo Bech32CpcInfo StakingCpcInfo now map_order).
Abbreviation trace_block := (TraceBlock legacy_params GetValidatorByConsAddr ValidatorStringToBytes
  Erc20CpcInfo Bech32CpcInfo StakingCpcInfo now map_order).

(** The execution of a transaction on a state, without contexts. *)
Definition spec_execute ctx (ethTx : Transaction) (msg : Message) (commit : bool) (cfg : EVMConfig) (txConfig : TxConfig) :
    M (World S) MsgEthereumTxResponse :=
  meter ← SetupExecutionContext ctx ethTx;
  rsp ← spec_ApplyMessage Erc20CpcInfo Bech32CpcInfo StakingCpcInfo now map_order ctx msg commit cfg txConfig;
  lift_res (fst (ResetGasMeterAndConsumeGas (resp_GasUsed rsp) meter)) ;;
  mret rsp.

Lemma on_ctx_view {A} c (m : M (World S) A) h : ctx_valid h c ->
  exists h', on_ctx c m h = (fst (m (view h c)), h') /\ ctx_valid h' c /\ view h' c = snd (m (view h c)).
Proof.
  intros Hv. unfold on_ctx. destruct (m (view h c)) as [r w]. eexists. split; [done|].
  split; [by apply valid_update|by apply view_update].
Qed.

Lemma execute_spec ctx c ethTx msg commit cfg txConfig h : ctx_valid h c ->
  exists r h', execute ctx c ethTx msg commit cfg txConfig h = (r, h') /\ ctx_valid h' c /\
    spec_execute ctx ethTx msg commit cfg txConfig (view h c) = (r, view h' c).
Proof.
  intros Hv. unfold trace_execute, spec_execute. unfold mbind, M_bind.
  destruct (on_ctx_view c (SetupExecutionContext ctx ethTx) h Hv) as (h1 & -> & Hv1 & Ew).
  destruct (SetupExecutionContext ctx ethTx (view h c)) as [[g|e|e] w1]; cbn [fst snd] in *; [|by exists (Err e), h1; rewrite Ew|by exists (Panic e), h1; rewrite Ew].
  pose proof (apply_message_spec Erc20CpcInfo Bech32CpcInfo StakingCpcInfo now map_order ctx c msg commit cfg txConfig h1 Hv1) as Hs.
  pose proof (apply_message_valid Erc20CpcInfo Bech32CpcInfo StakingCpcInfo now map_order ctx c msg commit cfg txConfig c h1 Hv1) as Hv2.
  rewrite Ew in Hs. destruct (ApplyMessageWithConfig _ _ _ _ _ _ _ _ _ _ _ h1) as [r h2].
  destruct (spec_ApplyMessage _ _ _ _ _ _ _ _ _ _ w1) as [r2 w2]. destruct Hs as [-> <-]. cbn [snd] in Hv2.
  destruct r2 as [rsp|e|e]; [|by exists (Err e), h2|by exists (Panic e), h2]. unfold lift_res.
  destruct (fst (ResetGasMeterAndConsumeGas _ _)) as [[]|e|e]; [by exists (Ok rsp), h2|by exists (Err e), h2|by exists (Panic e), h2].
Qed.

(** A commit changes the state, not the response. *)
Lemma spec_ApplyMessage_commit ctx msg cfg txConfig w rsp w' :
  spec_ApplyMessage Erc20CpcInfo Bech32CpcInfo StakingCpcInfo now map_order ctx msg true cfg txConfig w = (Ok rsp, w') ->
  exists w2, spec_ApplyMessage Erc20CpcInfo Bech32CpcInfo StakingCpcInfo now map_order ctx msg false cfg txConfig w = (Ok rsp, w2).
Proof.
  unfold spec_ApplyMessage. do 2 (case_match; [done|]). destruct (NewStateDB_env _ _ _ ≫= _) as [[env evm]|e|e]; [|done|done].
  destruct (astate_run env _ _) as [[[[result|e|e] st]|e|e] s]; [|done..]. unfold spec_finish.
  destruct (txc_TxType txConfig) as [t|]; [|done]. cbv zeta.
  destruct (astate_commit _ _ _ _) as [rc s2]. destruct rc as [[]|e|e]; [|done|done].
  destruct (Receipt_MarshalBinary _); [|done|done]. intros [= <- _]. by eexists.
Qed.
Lemma spec_execute_commit ctx ethTx msg cfg txConfig w rsp w' :
  spec_execute ctx ethTx msg true cfg txConfig w = (Ok rsp, w') ->
  exists w2, spec_execute ctx ethTx msg false cfg txConfig w = (Ok rsp, w2).
Proof.
  unfold spec_execute, mbind, M_bind. destruct (SetupExecutionContext ctx ethTx w) as [[g|e|e] w1]; [|done|done].
  destruct (spec_ApplyMessage _ _ _ _ _ _ _ true _ _ w1) as [[r|e|e] w2] eqn:Ea; [|done|done].
  apply spec_ApplyMessage_commit in Ea as [w3 ->]. unfold lift_res.
  destruct (fst (ResetGasMeterAndConsumeGas _ _)); [|done|done]. intros [= <- _]. by eexists.
Qed.

(** What a successful trace has computed. *)
Lemma trace_one_inv ctx c cfg txConfig ethTx tc commit json h result logIndex h' : ctx_valid h c ->
  trace_one ctx c cfg txConfig ethTx tc commit json h = (Ok (result, logIndex), h') ->
  exists msg tracer rsp receipt, trace_message ctx cfg ethTx = Ok msg /\
    make_tracer (S:=S) cfg txConfig (default empty_trace_config tc) json = Ok tracer /\
    execute ctx c ethTx msg commit cfg txConfig h = (Ok rsp, h') /\ ctx_valid h' c /\
    spec_execute ctx ethTx msg commit cfg txConfig (view h c) = (Ok rsp, view h' c) /\ trace_receipt rsp = Ok receipt /\
    Tracer_GetResult tracer ctx (snd (SetupExecutionContext ctx ethTx (view h c))) msg cfg = Ok result /\
    logIndex = add64 (txc_LogIndex txConfig) (Z.of_nat (length (rcpt_Logs receipt))).
Proof.
  intros Hv. unfold traceTx. unfold mbind, M_bind, lift_res, gets.
  destruct (trace_message ctx cfg ethTx) as [msg|e|e]; [|done|done].
  destruct (make_tracer _ _ _ _) as [tracer|e|e]; [|done|done].
  destruct (execute_spec ctx c ethTx msg commit cfg txConfig h Hv) as (r & h1 & Ee & Hv1 & Es). rewrite Ee.
  destruct r as [rsp|e|e]; [|done|done]. destruct (trace_receipt rsp) as [receipt|e|e] eqn:Er; [|done|done].
  destruct (Tracer_GetResult _ _ _ _ _) as [res|e|e] eqn:Eg; [|done|done]. intros [= <- <- <-].
  by exists msg, tracer, rsp, receipt.
Qed.

Lemma trace_one_run ctx c cfg txConfig ethTx tc commit json h msg tracer rsp receipt result w' : ctx_valid h c ->
  trace_message ctx cfg ethTx = Ok msg -> make_tracer (S:=S) cfg txConfig (default empty_trace_config tc) json = Ok tracer ->
  spec_execute ctx ethTx msg commit cfg txConfig (view h c) = (Ok rsp, w') -> trace_receipt rsp = Ok receipt ->
  Tracer_GetResult tracer ctx (snd (SetupExecutionContext ctx ethTx (view h c))) msg cfg = Ok result ->
  exists h', trace_one ctx c cfg txConfig ethTx tc commit json h =
    (Ok (result, add64 (txc_LogIndex txConfig) (Z.of_nat (length (rcpt_Logs receipt)))), h').
Proof.
  intros Hv Hm Ht Hs Hr Hg. unfold traceTx. unfold mbind, M_bind, lift_res, gets. rewrite Hm, Ht.
  destruct (execute_spec ctx c ethTx msg commit cfg txConfig h Hv) as (r & h1 & -> & _ & Es). rewrite Hs in Es.
  injection Es as <- _. rewrite Hr, Hg. by eexists.
Qed.

Definition is_trace (t : TxTraceResult) : Prop := match t with TraceResult _ => True | TraceError _ => False end.

(** What the block's trace says of a transaction is found again after its predecessors. *)
Lemma trace_all_agree ctx c d cfg tc pre tx post i pl h k results h' result :
  ctx_valid h c -> ctx_valid k d -> view h c = view k d -> 0 <= i -> i + Z.of_nat (length pre) <= MaxUint64 ->
  trace_all ctx c cfg tc i pl (pre ++ tx :: post) h = (Ok results, h') ->
  Forall is_trace (take (length pre) results) -> results !! length pre = Some (TraceResult result) ->
  exists pl' k' ethTx, run_before ctx d cfg i pl pre k = (Ok pl', k') /\ ctx_valid k' d /\ MsgEthereumTx_AsTransaction tx = Ok ethTx /\
    exists k2 pl2, trace_one ctx d cfg (at_index (NewTxConfig ctx (view k' d) (Some ethTx)) (i + Z.of_nat (length pre)) pl') ethTx tc false None k' =
      (Ok (result, pl2), k2).
Proof.
  revert i pl h k results. induction pre as [|t pre IH]; intros i pl h k results Hv Hk Ew Hi Hlen; cbn [app trace_txs replay length].
  - unfold mbind, M_bind, lift_res, gets, on_result. destruct (MsgEthereumTx_AsTransaction tx) as [ethTx|e|e]; [|done|done].
    set (txConfig := at_index _ _ _). destruct (trace_one ctx c cfg txConfig ethTx tc true None h) as [[[r l]|e|e] h1] eqn:Et; [| |done].
    + apply trace_one_inv in Et as (msg & tracer & rsp & receipt & Hm & Ht & _ & _ & Hs & Hr & Hg & _); [|done].
      destruct (trace_txs _ _ _ _ _ _ _ _ _ _ _ _ _) as [[rest|e|e] h2]; [|done|done]. intros [= <- _] _ [= <-].
      apply spec_execute_commit in Hs as [w2 Hs]. exists pl, k, ethTx. split_and!; [done|done|done|].
      rewrite Z.add_0_r, <- Ew. fold txConfig. rewrite Ew in Hs, Hg.
      edestruct (trace_one_run ctx d cfg txConfig ethTx tc false None k) as [k2 ->]; [done..|]. by eexists _, _.
    + destruct (trace_txs _ _ _ _ _ _ _ _ _ _ _ _ _) as [[rest|e'|e'] h2]; [|done|done]. by intros [= <- _].
  - unfold mbind, M_bind, lift_res, gets, on_result. destruct (MsgEthereumTx_AsTransaction t) as [ethTx|e|e]; [|done|done].
    cbv beta. rewrite <- Ew. set (txConfig := at_index _ _ _). destruct (trace_one ctx c cfg txConfig ethTx tc true None h) as [[[r l]|e|e] h1] eqn:Et; [| |done].
    2:{ destruct (trace_txs _ _ _ _ _ _ _ _ _ _ _ _ _) as [[rest|e'|e'] h2]; [|done|done]. intros [= <- _]. cbn [take]. by intros [? _]%Forall_cons. }
    apply trace_one_inv in Et as (msg & tracer & rsp & receipt & Hm & _ & _ & Hv1 & Hs & Hr & _ & ->); [|done].
    destruct (trace_txs _ _ _ _ _ _ _ _ _ _ _ _ _) as [[rest|e|e] h2] eqn:Erest; [|done|done]. intros [= <- ->] [_ Hall]%Forall_cons Hres.
    rewrite Hm.
    destruct (execute_spec ctx d ethTx msg true cfg txConfig k Hk) as (r' & k1 & -> & Hk1 & Es). rewrite <- Ew, Hs in Es. injection Es as <- Ew1.
    rewrite Hr. destruct (IH (add64 i 1) (add64 (txc_LogIndex txConfig) (Z.of_nat (length (rcpt_Logs receipt)))) h1 k1 rest Hv1 Hk1 Ew1) as (pl' & k' & etx & H1 & H2 & H3 & H4); [| |exact Erest|exact Hall|exact Hres|].
    + unfold add64, wrap64. apply Z.mod_pos_bound. lia.
    + cbn [length] in Hlen. unfold add64. rewrite wrap64_id by (unfold is_u64, MaxUint64 in *; lia). lia.
    + exists pl', k', etx. split_and!; [exact H1|done|done|]. cbn [length] in Hlen. rewrite Nat2Z.inj_succ in *. unfold add64 in H4.
      rewrite wrap64_id in H4 by (unfold is_u64, MaxUint64 in *; lia).
      by replace (i + Z.succ (Z.of_nat (length pre))) with (i + 1 + Z.of_nat (length pre)) by lia.
Qed.

Lemma trace_all_length ctx c cfg tc i pl txs h results h' :
  trace_all ctx c cfg tc i pl txs h = (Ok results, h') -> length results = length txs.
Proof.
  revert i pl h results. induction txs as [|tx txs IH]; intros i pl h results; cbn [trace_txs]; [by intros [= <- _]|].
  unfold mbind, M_bind, lift_res, gets, on_result. destruct (MsgEthereumTx_AsTransaction tx) as [ethTx|e|e]; [|done|done].
  destruct (trace_one _ _ _ _ _ _ _ _ h) as [[[r l]|e|e] h1]; [| |done];
    (destruct (trace_txs _ _ _ _ _ _ _ _ _ _ _ _ _) as [[rest|e'|e'] h2] eqn:Er; [|done|done]; intros [= <- ->]; cbn [length]; by rewrite (IH _ _ _ _ Er)).
Qed.

(** The JSON configuration reaches the tracer of a transaction that is traced alone, and
    never that of a transaction of a block: there is none, or the default tracer, which
    has no use for it, is asked for. *)
Definition plain_config (tc : option TraceConfig) : Prop :=
  match tc with Some tc => trc_TracerJsonConfig tc = ""%string \/ trc_Tracer tc = ""%string | None => True end.
Definition json_config (tc : option TraceConfig) : option string :=
  match tc with
  | Some tc => if decide (trc_TracerJsonConfig tc = ""%string) then None else json_RawMessage (S:=S) (trc_TracerJsonConfig tc)
  | None => None
  end.
Lemma plain_config_trace ctx c cfg txConfig ethTx tc commit : plain_config tc ->
  trace_one ctx c cfg txConfig ethTx tc commit (json_config tc) = trace_one ctx c cfg txConfig ethTx tc commit None.
Proof.
  intros Hp. unfold traceTx. enough (make_tracer (S:=S) cfg txConfig (default empty_trace_config tc) (json_config tc) =
    make_tracer (S:=S) cfg txConfig (default empty_trace_config tc) None) as -> by done.
  unfold json_config. destruct tc as [tc|]; [|done]. destruct Hp as [Hp|Hp]; [by rewrite decide_True|].
  unfold make_tracer. cbn [from_option id]. unfold mbind, res_bind. by destruct (decide (trc_Tracer tc = ""%string)).
Qed.

Lemma trace_config_view ctx c d proposer h k : view h c = view k d ->
  fst (trace_config legacy_params GetValidatorByConsAddr ValidatorStringToBytes ctx c proposer h) =
  fst (trace_config legacy_params GetValidatorByConsAddr ValidatorStringToBytes ctx d proposer k) /\
  snd (trace_config legacy_params GetValidatorByConsAddr ValidatorStringToBytes ctx c proposer h) = h.
Proof.
  intros Ew. unfold trace_config, wrap_err, read_ctx, mbind, M_bind. rewrite Ew.
  destruct (Keeper_EVMConfig _ _ _ _ _ _) as [cfg|e|e]; [|done|done]. rewrite Ew. by destruct (Keeper_GetBaseFee _ _).
Qed.

Lemma trace_block_entries (ctx : Ctx) (c : C) (h h' : H) (req : QueryTraceBlockRequest) (data : bytes)
    (Hc : ctx_valid h c) (Hcfg : plain_config (tbr_TraceConfig req))
    (Hlen : Z.of_nat (length (tbr_Txs req)) <= MaxUint64)
    (Hrun : trace_block ctx c (Some req) h = (Ok data, h')) :
  exists results, Marshal_Traces (S:=S) results = Ok data /\ length results = length (tbr_Txs req) /\
    forall d k pre tx post result, ctx_valid k d -> view k d = view h c -> tbr_Txs req = pre ++ tx :: post ->
      Forall is_trace (take (length pre) results) -> results !! length pre = Some (TraceResult result) ->
      fst (trace_tx ctx d (Some (mkTraceTxRequest tx (tbr_TraceConfig req) pre (tbr_BlockNumber req) (tbr_BlockHash req)
        (tbr_BlockTime req) (tbr_ProposerAddress req))) k) = Marshal_Trace (S:=S) result.
Proof.
  revert Hrun. unfold TraceBlock, TraceTx. unfold mbind, M_bind, lift_res. cbn [some_request]. unfold require.
  cbn [ttr_Msg ttr_TraceConfig ttr_Predecessors ttr_BlockNumber ttr_BlockHash ttr_BlockTime ttr_ProposerAddress].
  destruct (valid_limit (tbr_TraceConfig req)); [|done]. unfold mret, M_ret. cbv zeta.
  set (cx := trace_ctx ctx (tbr_BlockNumber req) (tbr_BlockTime req) (Hex2Bytes (tbr_BlockHash req))).
  destruct (trace_config_view cx c c (tbr_ProposerAddress req) h h eq_refl) as [_ Eh].
  destruct (trace_config _ _ _ cx c _ h) as [rc hc] eqn:Econf. cbn [snd] in Eh. subst hc.
  destruct rc as [cfg|e|e]; [|done|done].
  destruct (trace_txs _ _ _ _ _ cx c cfg _ _ _ _ h) as [[rs|e|e] h1] eqn:Et; [|done|done]. intros [= Hm _].
  exists rs. split_and!; [done|by eapply trace_all_length|]. intros d k pre tx post result Hd Hview Htxs Hbefore Hresult.
  destruct (trace_config_view cx d c (tbr_ProposerAddress req) k h Hview) as [Ef Ek].
  destruct (trace_config _ _ _ cx d _ k) as [rd kd]. rewrite Econf in Ef. cbn [fst snd] in *. subst rd kd. rewrite Htxs in Et.
  destruct (trace_all_agree cx c d cfg (tbr_TraceConfig req) pre tx post 0 0 h k rs h1 result) as
    (pl & k1 & ethTx & -> & Hk1 & -> & k2 & pl2 & Hone); [done|done|done|lia| |done|done|done|].
  { rewrite Htxs, length_app in Hlen. lia. }
  unfold gets. rewrite Z.add_0_l in Hone.
  fold (json_config (tbr_TraceConfig req)). rewrite plain_config_trace by done.
  by rewrite Hone.
Qed.

(** Tracing a transaction reproduces what tracing its block reports of it: the answer for
    a block has one entry for each transaction, and, with no JSON configuration of a named
    tracer and as long as no entry before it is an error, the entry of a transaction is what the query for that transaction alone answers,
    with the ones before it as predecessors, on any context with the same state.  That query
    executes the predecessors with commits and then the transaction without one, in the same
    block, at the same index and with the same log index. *)
Theorem trace_block_matches_trace_tx (ctx : Ctx) (c : C) (h h' : H) (req : QueryTraceBlockRequest) (data : bytes)
    (Hc : ctx_valid h c) (Hcfg : plain_config (tbr_TraceConfig req))
    (Hlen : Z.of_nat (length (tbr_Txs req)) <= MaxUint64)
    (Hrun : trace_block ctx c (Some req) h = (Ok data, h')) :
  exists results, Marshal_Traces (S:=S) results = Ok data /\ length results = length (tbr_Txs req) /\
    forall d k pre tx post result, ctx_valid k d -> view k d = view h c -> tbr_Txs req = pre ++ tx :: post ->
      Forall is_trace (take (length pre) results) -> results !! length pre = Some (TraceResult result) ->
      fst (trace_tx ctx d (Some (mkTraceTxRequest tx (tbr_TraceConfig req) pre (tbr_BlockNumber req) (tbr_BlockHash req)
        (tbr_BlockTime req) (tbr_ProposerAddress req))) k) = Marshal_Trace (S:=S) result.
Proof. exact (trace_block_entries ctx c h h' req data Hc Hcfg Hlen Hrun). Qed.
End TracingProofs.
