(* ===== verification/AnteTx.v ===== *)
(** * Transactions before their execution: lanes, nested messages and fees

    What the ante handler looks at in a Cosmos transaction (app/antedl/utils/tx.go),
    the check of nested messages (cosmoslane/992c_reject_authz_msgs.go,
    handler_options.go) and the fee checkers (duallane/07_deduct_fee.go). *)

From Stdlib Require Import Strings.Byte.
From stdpp Require Import base gmap list strings.
From S2P Require Import Prelude Sdk Geth EvmTypes EvmStore TxTypes FeeMarket.

(** ** Transactions *)

Inductive VestingMsg : Type := MsgCreateVestingAccount | MsgCreatePeriodicVestingAccount
  | MsgCreatePermanentLockedAccount.

(** The messages the ante handler tells apart.  [MsgExec] holds the messages it decodes
    to, or the error of decoding them; [MsgGrant] the type a grant is for. *)
#[warnings="-register-all"]
Inductive Msg : Type :=
  | EthMsg (m : MsgEthereumTx)
  | MsgExec (inner : list Msg)
  | MsgExecInvalid (e : gerr)
  | MsgGrant (url : res string)
  | VestingAccountMsg (kind : VestingMsg) (ToAddress : string)
  | OtherMsg (url : string).

Definition vesting_url (k : VestingMsg) : string :=
  match k with
  | MsgCreateVestingAccount => "/cosmos.vesting.v1beta1.MsgCreateVestingAccount"
  | MsgCreatePeriodicVestingAccount => "/cosmos.vesting.v1beta1.MsgCreatePeriodicVestingAccount"
  | MsgCreatePermanentLockedAccount => "/cosmos.vesting.v1beta1.MsgCreatePermanentLockedAccount"
  end.
Definition EthMsgUrl : string := "/ethermint.evm.v1.MsgEthereumTx".
(** [sdk.MsgTypeURL] *)
Definition MsgTypeURL (m : Msg) : string :=
  match m with
  | EthMsg _ => EthMsgUrl
  | MsgExec _ | MsgExecInvalid _ => "/cosmos.authz.v1beta1.MsgExec"
  | MsgGrant _ => "/cosmos.authz.v1beta1.MsgGrant"
  | VestingAccountMsg k _ => vesting_url k
  | OtherMsg url => url
  end.

(** An extension option: its type and, when it decodes to an
    [ExtensionOptionDynamicFeeTx], the tip, which may be nil. *)
Record ExtOpt : Type := mkExtOpt {
  opt_TypeUrl : string;
  opt_DynamicFee : option (option Z)
}.
Definition EthermintExtensionOptionsEthereumTx : string := "/ethermint.evm.v1.ExtensionOptionsEthereumTx".

(** An [sdk.Tx]: its messages, which interfaces it implements, what they return, and
    the outcome of the SDK's own basic validation. *)
Record Tx : Type := mkTx {
  GetMsgs : list Msg;
  tx_IsGasTx : bool;
  tx_IsFeeTx : bool;
  tx_IsProtoTx : bool;
  (** Extension options and non-critical ones, if the interface is implemented. *)
  tx_Ext : option (list ExtOpt * list ExtOpt);
  tx_Fee : Coins;
  tx_GasLimit : Z;
  tx_FeePayer : string;
  tx_FeeGranter : string;
  tx_SignerInfos : nat;
  tx_Signatures : nat;
  tx_TimeoutHeight : Z;
  tx_Memo : string;
  tx_ValidateBasic : res unit
}.

Definition isEthMsg (m : Msg) : bool := match m with EthMsg _ => true | _ => false end.

Fixpoint single_eth (msgs : list Msg) (foundEthMsg : bool) : bool :=
  match msgs with
  | [] => foundEthMsg
  | m :: msgs' => if negb (isEthMsg m) then false else if foundEthMsg then false else single_eth msgs' true
  end.
Definition HasSingleEthereumMessage (tx : Tx) : bool := single_eth (GetMsgs tx) false.

Definition IsEthereumTx (tx : Tx) : bool :=
  if negb (HasSingleEthereumMessage tx) then false
  else match tx_Ext tx with
       | None => true
       | Some (opts, nonCriticalOps) =>
           if negb (length nonCriticalOps =? 0)%nat then false
           else match opts with
                | [] => true
                | [opt] => bool_decide (opt_TypeUrl opt = EthermintExtensionOptionsEthereumTx)
                | _ => false
                end
       end.

(** The first message as a [MsgEthereumTx]; another type panics. *)
Definition first_eth (tx : Tx) : res MsgEthereumTx :=
  match GetMsgs tx with
  | EthMsg m :: _ => Ok m
  | [] => Panic IndexOutOfRange
  | _ => Panic (Errorf "interface conversion")
  end.

Lemma HasSingleEthereumMessage_iff tx :
  HasSingleEthereumMessage tx = true <-> exists m, GetMsgs tx = [EthMsg m].
Proof.
  unfold HasSingleEthereumMessage. split.
  - destruct (GetMsgs tx) as [|m [|m' l]]; simpl; [done| |].
    + destruct m; simpl; try done. eauto.
    + destruct m; simpl; try done. by destruct m'.
  - intros [m ->]. done.
Qed.

(** ** Nested messages *)

Definition maxNestedLevelsCount : Z := 3.

Section Authz.
Variable disabledNestedMsgs : list string.

Definition isDisabledMsg (url : string) : bool := bool_decide (url ∈ disabledNestedMsgs).

(** One message at a level; the messages of an exec are one level deeper. *)
Fixpoint checkDisabledMsg (m : Msg) (nestedLvl : Z) : res unit :=
  match m with
  | MsgExec innerMsgs =>
      if maxNestedLevelsCount <? nestedLvl + 1 then Err ErrNotSupported
      else (fix go (l : list Msg) : res unit :=
              match l with
              | [] => Ok tt
              | m' :: l' => checkDisabledMsg m' (nestedLvl + 1) ;; go l'
              end) innerMsgs
  | MsgExecInvalid e => Err e
  | MsgGrant authorization =>
      url ← authorization;
      if isDisabledMsg url then Err ErrNotSupported else Ok tt
  | _ => if (1 <? nestedLvl) && isDisabledMsg (MsgTypeURL m) then Err ErrNotSupported else Ok tt
  end.
Fixpoint check_each (msgs : list Msg) (nestedLvl : Z) : res unit :=
  match msgs with
  | [] => Ok tt
  | m :: msgs' => checkDisabledMsg m nestedLvl ;; check_each msgs' nestedLvl
  end.
Definition checkDisabledMsgs (msgs : list Msg) (nestedLvl : Z) : res unit :=
  if maxNestedLevelsCount <? nestedLvl then Err ErrNotSupported else check_each msgs nestedLvl.

(** A message at some depth of the messages of a transaction. *)
Inductive message_at : Z -> Msg -> list Msg -> Prop :=
  | at_top m msgs : m ∈ msgs -> message_at 1 m msgs
  | at_inner lvl m inner msgs : MsgExec inner ∈ msgs -> message_at lvl m inner -> message_at (lvl + 1) m msgs.

(** What a message may be at a depth. *)
Definition allowed_at (lvl : Z) (m : Msg) : Prop :=
  lvl <= maxNestedLevelsCount /\
  match m with
  | MsgExec _ => lvl < maxNestedLevelsCount
  | MsgExecInvalid _ => False
  | MsgGrant url => exists u, url = Ok u /\ u ∉ disabledNestedMsgs
  | _ => 1 < lvl -> MsgTypeURL m ∉ disabledNestedMsgs
  end.

Lemma check_inner inner lvl :
  checkDisabledMsg (MsgExec inner) lvl =
  if maxNestedLevelsCount <? lvl + 1 then Err ErrNotSupported else check_each inner (lvl + 1).
Proof. simpl. case_match; [done|]. by induction inner as [|m inner IH]; simpl; [|rewrite IH]. Qed.

Lemma check_each_iff msgs lvl :
  check_each msgs lvl = Ok tt <-> forall m, m ∈ msgs -> checkDisabledMsg m lvl = Ok tt.
Proof.
  induction msgs as [|m msgs IH]; cbn [check_each]; [set_solver|].
  split.
  - unfold mbind, res_bind. destruct (checkDisabledMsg m lvl) as [[]|e|e] eqn:E; [|done|done].
    intros H m' [->|Hin]%elem_of_cons; [done|]. by apply IH.
  - intros H. rewrite (H m) by set_solver. apply IH. intros m' Hin. apply H. set_solver.
Qed.

Lemma checkDisabledMsg_leaf m lvl :
  lvl <= maxNestedLevelsCount -> (forall inner, m <> MsgExec inner) ->
  checkDisabledMsg m lvl = Ok tt <-> allowed_at lvl m.
Proof.
  intros Hl Hne. unfold allowed_at. destruct m as [m|inner|e|[u|e|e]|k a|u]; cbn [checkDisabledMsg].
  2: by destruct (Hne inner).
  2: (split; [done|by intros [_ []]]).
  2: { unfold mbind, res_bind, isDisabledMsg. case_bool_decide; split; try done.
       - intros [_ (u' & [= ->] & Hn)]. done.
       - intros _. split; [done|]. eauto. }
  2-3: (split; [done|by intros (_ & u & ? & _)]).
  all: unfold isDisabledMsg; destruct (Z.ltb_spec 1 lvl); cbn [andb]; [case_bool_decide|].
  all: first [ split; [done|intros [_ Hx]; exfalso; by apply Hx]
             | split; [intros _; split; [done|intros; first [done|lia]]|done] ].
Qed.

Lemma message_at_pos lvl m msgs : message_at lvl m msgs -> 1 <= lvl.
Proof. induction 1; lia. Qed.

(** The check is what it should be: every message, at every depth, is allowed there. *)
Lemma check_each_spec (msgs : list Msg) (lvl : Z) :
  lvl <= maxNestedLevelsCount -> 1 <= lvl ->
  check_each msgs lvl = Ok tt <-> forall l m, message_at l m msgs -> allowed_at (l + lvl - 1) m.
Proof.
  intros Hl Hl1. remember (Z.to_nat (maxNestedLevelsCount - lvl)) as n eqn:En.
  revert msgs lvl Hl Hl1 En. induction n as [n IH] using lt_wf_ind. intros msgs lvl Hl Hl1 ->.
  rewrite check_each_iff. split.
  - intros H l m Hat. destruct Hat as [m msgs Hin|l m inner msgs Hin Hat].
    + replace (1 + lvl - 1) with lvl by lia. specialize (H m Hin).
      destruct m as [| inner | | | |];
        try (by apply checkDisabledMsg_leaf).
      rewrite check_inner in H. destruct (Z.ltb_spec maxNestedLevelsCount (lvl + 1)); [done|].
      split; [done|lia].
    + specialize (H _ Hin). rewrite check_inner in H.
      destruct (Z.ltb_spec maxNestedLevelsCount (lvl + 1)) as [|Hle]; [done|].
      replace (l + 1 + lvl - 1) with (l + (lvl + 1) - 1) by lia.
      revert l m Hat. apply (IH (Z.to_nat (maxNestedLevelsCount - (lvl + 1)))); try done; lia.
  - intros H m Hin. destruct m as [| inner | | | |].
    2: { rewrite check_inner. pose proof (H 1 _ (at_top _ _ Hin)) as [_ Hlt].
         replace (1 + lvl - 1) with lvl in Hlt by lia.
         destruct (Z.ltb_spec maxNestedLevelsCount (lvl + 1)); [lia|].
         apply (IH (Z.to_nat (maxNestedLevelsCount - (lvl + 1)))); try lia.
         intros l m Hat. replace (l + (lvl + 1) - 1) with (l + 1 + lvl - 1) by lia.
         apply H. by eapply at_inner. }
    all: apply checkDisabledMsg_leaf; try done;
      replace lvl with (1 + lvl - 1) by lia; apply H; by apply at_top.
Qed.

Lemma checkDisabledMsgs_iff (msgs : list Msg) :
  checkDisabledMsgs msgs 1 = Ok tt <-> forall lvl m, message_at lvl m msgs -> allowed_at lvl m.
Proof.
  unfold checkDisabledMsgs. simpl. rewrite check_each_spec by done.
  split; intros H l m Hat.
  - replace l with (l + 1 - 1) by lia. by apply H.
  - replace (l + 1 - 1) with l by lia. by apply H.
Qed.

(** Nested messages: the check of a Cosmos transaction passes exactly when at every
    depth of its [MsgExec] messages the nesting is at most three levels, no message
    below the top is of a disabled type, and nothing grants a disabled type, at any
    depth: there is no way around it by nesting or by granting. *)
Theorem checkDisabledMsgs_spec (msgs : list Msg) :
  checkDisabledMsgs msgs 1 = Ok tt <-> forall lvl m, message_at lvl m msgs -> allowed_at lvl m.
Proof. apply checkDisabledMsgs_iff. Qed.
End Authz.

(** The types no authorization may run, as the application configures them. *)
Definition WithDefaultDisabledNestedMsgs : list string :=
  [EthMsgUrl; vesting_url MsgCreateVestingAccount; vesting_url MsgCreatePeriodicVestingAccount;
   vesting_url MsgCreatePermanentLockedAccount].

(** ** Fees *)

(** [sdkmath.Int]: division truncates and panics on zero, products above 256 bits
    panic. *)
Definition Int_Quo (a b : Z) : res Z := if b =? 0 then Panic DivisionByZero else Ok (Z.quot a b).
Definition Int_Mul (a b : Z) : res Z :=
  if 256 <? BitLen (a * b) then Panic (Errorf "Int overflow") else Ok (a * b).
Definition IsInt64 (z : Z) : bool := (- 2 ^ 63 <=? z) && (z <=? MaxInt64).
Definition nil_check (z : option Z) : res Z := match z with Some z => Ok z | None => Panic NilDereference end.

Definition validateSingleFee (fees : Coins) (allowedFeeDenom : string) : res unit :=
  match fees with
  | [(denom, _)] => if bool_decide (denom = allowedFeeDenom) then Ok tt else Err ErrInvalidCoins
  | _ => Err ErrInvalidCoins
  end.

(** The base fee or the larger of the minimum prices. *)
Definition getMinGasPricesAllowed (ctx : Ctx) (fp : FmParams) (allowedFeeDenom : string) : res Z :=
  baseFee ← nil_check (BaseFee fp);
  let minGasPricesAllowed :=
    if ctx_IsCheckTx ctx && negb (ctx_IsReCheckTx ctx)
    then let validatorMinGasPrices := TruncateInt (AmountOf (ctx_MinGasPrices ctx) allowedFeeDenom) in
         if baseFee <? validatorMinGasPrices then validatorMinGasPrices else baseFee
    else baseFee in
  minGasPrice ← nil_check (MinGasPrice fp);
  let globalMinGasPrices := TruncateInt minGasPrice in
  Ok (if minGasPricesAllowed <? globalMinGasPrices then globalMinGasPrices else minGasPricesAllowed).

Definition getTxPriority (fees : Coins) (gas : Z) (minGasPricesAllowed : Z) : res Z :=
  match fees with
  | [] => Panic IndexOutOfRange
  | (_, amount) :: _ =>
      gasPrices ← Int_Quo amount gas;
      if gasPrices <? minGasPricesAllowed then Err ErrInsufficientFee
      else Ok (if IsInt64 gasPrices then gasPrices else MaxInt64)
  end.

(** [LegacyDec.Mul] with an integer, [Ceil] and [RoundInt]: the product of a decimal of
    315 bits or more panics. *)
Definition required_fee (price gas : Z) : res Z :=
  if 315 <? BitLen (price * gas) then Panic (Errorf "Int overflow")
  else let quo := Z.quot (price * gas) dec_precision in
       Ok (if 0 <? Z.rem (price * gas) dec_precision then quo + 1 else quo).
Fixpoint required_fees (minGasPrices : list (string * Z)) (gas : Z) : res Coins :=
  match minGasPrices with
  | [] => Ok []
  | (denom, price) :: rest =>
      fee ← required_fee price gas;
      if fee <? 0 then Panic (Errorf "negative coin amount")
      else fees ← required_fees rest gas; Ok ((denom, fee) :: fees)
  end.
(** [Coins.IsAnyGTE] *)
Definition IsAnyGTE (coins coinsB : Coins) : bool :=
  existsb (fun '(denom, amount) => let amt := AmountOf coinsB denom in (amt <=? amount) && negb (amt =? 0)) coins.

Definition checkTxFeeWithValidatorMinGasPrices (ctx : Ctx) (tx : Tx) : res (Coins * Z) :=
  let feeCoins := tx_Fee tx in
  let gas := int64_of_uint64 (tx_GasLimit tx) in
  (if ctx_IsCheckTx ctx && negb (Coins_IsZero (ctx_MinGasPrices ctx)) then
     requiredFees ← required_fees (ctx_MinGasPrices ctx) gas;
     if IsAnyGTE feeCoins requiredFees then Ok tt else Err ErrInsufficientFee
   else Ok tt) ;;
  priority ← getTxPriority feeCoins gas 0;
  Ok (feeCoins, priority).

Fixpoint dynamic_fee_tip (opts : list ExtOpt) : option (option Z) :=
  match opts with
  | [] => None
  | opt :: opts' => match opt_DynamicFee opt with Some tip => Some tip | None => dynamic_fee_tip opts' end
  end.

Section FeeCheckers.
Context {S : Type} {K : SdkKeepers S} {G : Geth}.
Context {P : Codec EvmParams} {FP : Codec FmParams}.
Variable legacy_params : S -> FmParams.
Implicit Types w : World S.

(** The fee of a Cosmos transaction: with the dynamic-fee option the effective price is
    the tip over the base fee, up to what was offered. *)
Definition effective_cosmos_fee (tip : option (option Z)) (fees : Coins) (amount gas : Z) (fp : FmParams)
    (allowedFeeDenom : string) : res Coins :=
  match tip with
  | None => Ok fees
  | Some tip =>
      gasTipCap ← nil_check tip;
      if gasTipCap <? 0 then Err ErrInsufficientFee
      else
        gasFeeCap ← Int_Quo amount gas;
        baseFee ← nil_check (BaseFee fp);
        effectiveGasPrice ← NewIntFromBigInt (Z.min (gasTipCap + baseFee) gasFeeCap);
        fee ← Int_Mul effectiveGasPrice gas;
        NewCoins1 allowedFeeDenom fee
  end.

Definition CosmosTxFeeChecker (ctx : Ctx) w (tx : Tx) : res (Coins * Z) :=
  if HasSingleEthereumMessage tx then Panic (Errorf "wrong call")
  else if negb (tx_IsFeeTx tx) then Err ErrTxDecode
  else if ctx_BlockHeight ctx =? 0 then checkTxFeeWithValidatorMinGasPrices ctx tx
  else
    evmParams ← Keeper_GetParams w;
    let allowedFeeDenom := EvmDenom evmParams in
    feeMarketParams ← Fm_GetParams legacy_params w;
    let fees := tx_Fee tx in
    validateSingleFee fees allowedFeeDenom ;;
    let amount := match fees with (_, a) :: _ => a | [] => 0 end in
    let tip := match tx_Ext tx with Some (opts, _) => dynamic_fee_tip opts | None => None end in
    let gas := tx_GasLimit tx in
    effectiveFee ← effective_cosmos_fee tip fees amount gas feeMarketParams allowedFeeDenom;
    minGasPricesAllowed ← getMinGasPricesAllowed ctx feeMarketParams allowedFeeDenom;
    priority ← getTxPriority effectiveFee (int64_of_uint64 gas) minGasPricesAllowed;
    Ok (effectiveFee, priority).

Definition EthereumTxFeeChecker (ctx : Ctx) w (tx : Tx) : res (Coins * Z) :=
  if negb (HasSingleEthereumMessage tx) || (ctx_BlockHeight ctx =? 0) then Panic (Errorf "wrong call")
  else if negb (tx_IsFeeTx tx) then Err ErrTxDecode
  else
    evmParams ← Keeper_GetParams w;
    let allowedFeeDenom := EvmDenom evmParams in
    validateSingleFee (tx_Fee tx) allowedFeeDenom ;;
    feeMarketParams ← Fm_GetParams legacy_params w;
    baseFee ← nil_check (BaseFee feeMarketParams);
    msg ← first_eth tx;
    ethTx ← MsgEthereumTx_AsTransaction msg;
    fee ← NewIntFromBigInt (EthTxEffectiveFee ethTx baseFee);
    effectiveFee ← NewCoins1 allowedFeeDenom fee;
    minGasPricesAllowed ← getMinGasPricesAllowed ctx feeMarketParams allowedFeeDenom;
    priority ← getTxPriority effectiveFee (int64_of_uint64 (tx_Gas ethTx)) minGasPricesAllowed;
    Ok (effectiveFee, priority).

Definition DualLaneFeeChecker (ctx : Ctx) w (tx : Tx) : res (Coins * Z) :=
  if HasSingleEthereumMessage tx then EthereumTxFeeChecker ctx w tx else CosmosTxFeeChecker ctx w tx.

(** *** Lemmas *)

Lemma getMinGasPricesAllowed_ge ctx fp denom m :
  getMinGasPricesAllowed ctx fp denom = Ok m ->
  exists b g, BaseFee fp = Some b /\ MinGasPrice fp = Some g /\ b <= m /\ TruncateInt g <= m /\
    (ctx_IsCheckTx ctx && negb (ctx_IsReCheckTx ctx) = true ->
     TruncateInt (AmountOf (ctx_MinGasPrices ctx) denom) <= m).
Proof.
  unfold getMinGasPricesAllowed, nil_check, mbind, res_bind.
  destruct (BaseFee fp) as [b|]; [|done]. destruct (MinGasPrice fp) as [g|]; [|done].
  intros [= <-]. exists b, g. split; [done|]. split; [done|].
  destruct (ctx_IsCheckTx ctx && negb (ctx_IsReCheckTx ctx)).
  - destruct (Z.ltb_spec b (TruncateInt (AmountOf (ctx_MinGasPrices ctx) denom)));
      (match goal with |- context [?a <? TruncateInt g] => destruct (Z.ltb_spec a (TruncateInt g)) end;
       repeat split; intros; lia).
  - destruct (Z.ltb_spec b (TruncateInt g)); repeat split; intros; (lia || done).
Qed.

Lemma getTxPriority_ok denom fees amount gas m p :
  getTxPriority ((denom, amount) :: fees) gas m = Ok p -> gas <> 0 /\ m <= Z.quot amount gas /\
  p = if IsInt64 (Z.quot amount gas) then Z.quot amount gas else MaxInt64.
Proof.
  unfold getTxPriority, Int_Quo, mbind, res_bind. destruct (Z.eqb_spec gas 0); [done|].
  destruct (Z.ltb_spec (Z.quot amount gas) m); [done|]. by intros [= <-].
Qed.

(** What the checker computes is a valid list of coins. *)
Lemma NewCoins1_valid denom z c : NewCoins1 denom z = Ok c -> coins_valid c.
Proof.
  unfold NewCoins1. destruct (Z.ltb_spec z 0); [done|]. intros [= <-]. unfold coins_valid.
  destruct (Z.eqb_spec z 0); (split; repeat constructor); [simpl; lia|apply not_elem_of_nil].
Qed.
Lemma fee_checker_valid ctx w tx fee priority : EthereumTxFeeChecker ctx w tx = Ok (fee, priority) -> coins_valid fee.
Proof.
  unfold EthereumTxFeeChecker. case_match; [done|]. case_match; [done|]. intros Hc.
  repeat (apply res_bind_ok_inv in Hc as (? & ? & Hc)). injection Hc as <- _. by eapply NewCoins1_valid.
Qed.
Lemma NewCoins1_inv denom z c : NewCoins1 denom z = Ok c -> 0 <= z /\ c = if z =? 0 then [] else [(denom, z)].
Proof. unfold NewCoins1. destruct (Z.ltb_spec z 0); [done|]. by intros [= <-]. Qed.

(** C12 The fee of an Ethereum transaction: when the checker accepts one whose gas is in
    the range the message checks allow, the fee to deduct is a single coin of the EVM
    denomination with exactly the effective price times the gas limit; that price is
    positive, not below the base fee of the block, not below the global minimum, and in
    the mempool not below the node's minimum; the priority is the price, cut to 63 bits. *)
Theorem EthereumTxFeeChecker_spec (ctx : Ctx) (w : World S) (tx : Tx) (msg : MsgEthereumTx) (ethTx : Transaction)
  (fee : Coins) (priority : Z)
  (Hmsg : GetMsgs tx = [EthMsg msg]) (Htx : MsgEthereumTx_AsTransaction msg = Ok ethTx)
  (Hgas : 0 < tx_Gas ethTx <= MaxInt64)
  (Hok : EthereumTxFeeChecker ctx w tx = Ok (fee, priority)) :
  exists params fp baseFee minGasPrice,
    Keeper_GetParams w = Ok params /\ Fm_GetParams legacy_params w = Ok fp /\
    BaseFee fp = Some baseFee /\ MinGasPrice fp = Some minGasPrice /\
    let price := EthTxEffectiveGasPrice ethTx baseFee in
    fee = [(EvmDenom params, price * tx_Gas ethTx)] /\
    0 < price /\ baseFee <= price /\ TruncateInt minGasPrice <= price /\
    (ctx_IsCheckTx ctx && negb (ctx_IsReCheckTx ctx) = true ->
     TruncateInt (AmountOf (ctx_MinGasPrices ctx) (EvmDenom params)) <= price) /\
    priority = Z.min price MaxInt64.
Proof.
  revert Hok. unfold EthereumTxFeeChecker.
  rewrite (proj2 (HasSingleEthereumMessage_iff tx)) by eauto. unfold first_eth. rewrite Hmsg.
  destruct (ctx_BlockHeight ctx =? 0); [done|]. destruct (tx_IsFeeTx tx); [|done]. simpl. unfold mbind, res_bind.
  destruct (Keeper_GetParams w) as [params|e|e] eqn:Ep; [|done|done].
  destruct (validateSingleFee _ _) as [[]|e|e]; [|done|done].
  destruct (Fm_GetParams legacy_params w) as [fp|e|e] eqn:Ef; [|done|done].
  unfold nil_check at 1. destruct (BaseFee fp) as [b|] eqn:Eb; [|done]. rewrite Htx.
  unfold NewIntFromBigInt. destruct (256 <? _); [done|].
  destruct (NewCoins1 _ _) as [c|e|e] eqn:Ec; [|done|done]. apply NewCoins1_inv in Ec as [Hnn ->].
  destruct (getMinGasPricesAllowed _ _ _) as [m|e|e] eqn:Em; [|done|done].
  apply getMinGasPricesAllowed_ge in Em as (b' & g & Eb' & Eg & Hb & Hg & Hn).
  rewrite Eb in Eb'. injection Eb' as <-. set (price := EthTxEffectiveGasPrice ethTx b) in *.
  destruct (Z.eqb_spec (EthTxEffectiveFee ethTx b) 0) as [|Hne]; [done|].
  destruct (getTxPriority _ _ _) as [p|e|e] eqn:Epr; [|done|done]. intros [= <- <-].
  apply getTxPriority_ok in Epr as (_ & Hm & ->).
  unfold EthTxEffectiveFee in Hne, Hnn, Hm |- *. fold price in Hne, Hnn, Hm |- *.
  assert (int64_of_uint64 (tx_Gas ethTx) = tx_Gas ethTx) as Ei
    by (unfold int64_of_uint64; destruct (Z.leb_spec (tx_Gas ethTx) MaxInt64); lia).
  rewrite Ei in Hm |- *. rewrite Z.quot_mul in Hm |- * by lia.
  assert (0 < price) as Hp by nia. exists params, fp, b, g. cbv zeta.
  split_and!; try done; try lia.
  - intros Hx. etrans; [by apply Hn|done].
  - unfold IsInt64, MaxInt64. destruct (Z.leb_spec (- 2 ^ 63) price), (Z.leb_spec price (2 ^ 63 - 1)); cbn [andb]; lia.
Qed.

(** An Ethereum transaction that declares a fee but whose effective price is zero (no
    tip over a base fee of zero) is neither accepted nor rejected with an error: the zero
    coin is dropped from the fee, and the checker panics on the missing first coin, also
    where every minimum price is zero. *)
Theorem zero_price_panics (ctx : Ctx) (w : World S) (tx : Tx) (msg : MsgEthereumTx) (ethTx : Transaction)
  (params : EvmParams) (fp : FmParams) (baseFee minGasPrice : Z)
  (Hheight : ctx_BlockHeight ctx <> 0) (Hfeetx : tx_IsFeeTx tx = true)
  (Hmsg : GetMsgs tx = [EthMsg msg]) (Htx : MsgEthereumTx_AsTransaction msg = Ok ethTx)
  (Hparams : Keeper_GetParams w = Ok params) (Hfm : Fm_GetParams legacy_params w = Ok fp)
  (Hbase : BaseFee fp = Some baseFee) (Hmin : MinGasPrice fp = Some minGasPrice)
  (Hfee : validateSingleFee (tx_Fee tx) (EvmDenom params) = Ok tt)
  (Hprice : EthTxEffectiveGasPrice ethTx baseFee = 0) :
  EthereumTxFeeChecker ctx w tx = Panic IndexOutOfRange.
Proof.
  unfold EthereumTxFeeChecker. rewrite (proj2 (HasSingleEthereumMessage_iff tx)) by eauto.
  rewrite Hfeetx, (proj2 (Z.eqb_neq _ _) Hheight). simpl. unfold mbind, res_bind.
  rewrite Hparams, Hfee, Hfm, Hbase. simpl. unfold first_eth. rewrite Hmsg, Htx.
  unfold EthTxEffectiveFee. rewrite Hprice. simpl.
  unfold getMinGasPricesAllowed, nil_check, mbind, res_bind. by rewrite Hbase, Hmin.
Qed.
Lemma effective_cosmos_fee_ok tip denom amount gas fp c :
  0 < gas -> 0 <= amount -> effective_cosmos_fee tip [(denom, amount)] amount gas fp denom = Ok c ->
  c = [] \/ exists f, c = [(denom, f)] /\ f <= amount.
Proof.
  intros Hg Ha. unfold effective_cosmos_fee. destruct tip as [tip|]; [|intros [= <-]; right; by eexists].
  unfold nil_check, Int_Quo, Int_Mul, NewIntFromBigInt, mbind, res_bind. destruct tip as [tip|]; [|done].
  destruct (tip <? 0); [done|]. destruct (gas =? 0); [done|]. destruct (BaseFee fp) as [b|]; [|done].
  destruct (256 <? _); [done|]. destruct (256 <? _); [done|]. intros Hc. apply NewCoins1_inv in Hc as [_ ->].
  destruct (_ =? 0); [by left|]. right. eexists. split; [done|].
  assert (Z.quot amount gas * gas <= amount) by (rewrite Z.quot_div_nonneg by lia; rewrite Z.mul_comm; by apply Z.mul_div_le).
  assert (Z.min (tip + b) (Z.quot amount gas) <= Z.quot amount gas) by lia. nia.
Qed.

(** The fee of a Cosmos transaction (after genesis): what is deducted when the checker
    accepts is a single coin of the EVM denomination, never more than what the
    transaction offered, and its price per gas is not below the base fee, the global
    minimum and, in the mempool, the node's minimum; the dynamic-fee option can only
    lower the fee. *)
Theorem CosmosTxFeeChecker_spec (ctx : Ctx) (w : World S) (tx : Tx) (denom : string) (amount : Z)
  (fee : Coins) (priority : Z)
  (Hheight : ctx_BlockHeight ctx <> 0) (Hfee : tx_Fee tx = [(denom, amount)]) (Hamount : 0 <= amount)
  (Hgas : 0 < tx_GasLimit tx <= MaxInt64)
  (Hok : CosmosTxFeeChecker ctx w tx = Ok (fee, priority)) :
  exists params fp baseFee minGasPrice f,
    Keeper_GetParams w = Ok params /\ Fm_GetParams legacy_params w = Ok fp /\
    BaseFee fp = Some baseFee /\ MinGasPrice fp = Some minGasPrice /\ denom = EvmDenom params /\
    fee = [(denom, f)] /\ f <= amount /\
    baseFee <= Z.quot f (tx_GasLimit tx) /\ TruncateInt minGasPrice <= Z.quot f (tx_GasLimit tx) /\
    (ctx_IsCheckTx ctx && negb (ctx_IsReCheckTx ctx) = true ->
     TruncateInt (AmountOf (ctx_MinGasPrices ctx) denom) <= Z.quot f (tx_GasLimit tx)).
Proof.
  revert Hok. unfold CosmosTxFeeChecker. destruct (HasSingleEthereumMessage tx); [done|].
  destruct (tx_IsFeeTx tx); [|done]. simpl. rewrite (proj2 (Z.eqb_neq _ _) Hheight), Hfee. unfold mbind, res_bind.
  destruct (Keeper_GetParams w) as [params|e|e] eqn:Ep; [|done|done].
  destruct (Fm_GetParams legacy_params w) as [fp|e|e] eqn:Ef; [|done|done].
  unfold validateSingleFee. case_bool_decide as Hd; [|done]. subst denom.
  destruct (effective_cosmos_fee _ _ _ _ _ _) as [c|e|e] eqn:Ec; [|done|done].
  apply effective_cosmos_fee_ok in Ec as [->|(f & -> & Hf)]; [| |lia|done].
  { destruct (getMinGasPricesAllowed _ _ _); done. }
  destruct (getMinGasPricesAllowed _ _ _) as [m|e|e] eqn:Em; [|done|done].
  apply getMinGasPricesAllowed_ge in Em as (b & g & Eb & Eg & Hb & Hg & Hn).
  destruct (getTxPriority _ _ _) as [p|e|e] eqn:Epr; [|done|done]. intros [= <- <-].
  apply getTxPriority_ok in Epr as (_ & Hm & _).
  assert (int64_of_uint64 (tx_GasLimit tx) = tx_GasLimit tx) as Ei
    by (unfold int64_of_uint64; destruct (Z.leb_spec (tx_GasLimit tx) MaxInt64); lia).
  rewrite Ei in Hm. exists params, fp, b, g, f. split_and!; try done; try lia.
  intros Hx. etrans; [by apply Hn|done].
Qed.
End FeeCheckers.
