(* ===== verification/Indexer.v ===== *)
(** * The transaction indexer

    The index of Ethereum transactions by hash and by position in a block
    (indexer/kv_indexer.go), the reading of the events of a transaction's result
    (rpc/types/events.go, x/evm/types/events.go) and the service that feeds the index
    with blocks (server/indexer_service.go).  The decoder of transactions and the codec
    of the stored results are parameters; the database is a key-value store whose batch
    is written at once. *)

From Stdlib Require Import Strings.Byte.
From stdpp Require Import base gmap list strings sorting.
From S2P Require Import Prelude Sdk Geth EvmTypes ChainId TxTypes Staking AnteTx.

(** ** Results and their events *)

(** [abci.ExecTxResult]: the code and the events. *)
Record ExecTxResult : Type := mkExecTxResult {
  result_Code : Z;
  result_Events : list SdkEvent
}.

Definition EventTypeEthereumTx : string := "ethereum_tx".
Definition EventTypeTxReceipt : string := "tx_receipt".
Definition AttributeKeyEthereumTxHash : string := "ethereumTxHash".
Definition AttributeKeyTxIndex : string := "txIndex".
Definition AttributeKeyReceiptEvmTxHash : string := "evmTxHash".
Definition AttributeKeyReceiptTxIndex : string := "txIdx".
Definition AttributeKeyReceiptVmError : string := "error".

Definition TxWasDroppedPreAnteHandleDueToBlockGasExcess (res : ExecTxResult) : bool :=
  if result_Code res =? 0 then false
  else negb (existsb (fun event => bool_decide (event_Type event = EventTypeEthereumTx)) (result_Events res)).

(** [strconv.ParseUint(value, 10, 31)]: digits only, below 2^31. *)
Definition ParseUint31 (value : string) : res Z :=
  let l := String.list_ascii_of_string value in
  if bool_decide (l = []) || negb (forallb is_digit l) then Err (Errorf "invalid syntax")
  else if dec_value l <? 2 ^ 31 then Ok (dec_value l) else Err (Errorf "value out of range").

Record ParsedTx : Type := mkParsedTx {
  parsed_Hash : Hash;
  parsed_EthTxIndex : Z;
  parsed_Failed : bool
}.

Section Events.
Context {G : Geth}.

Definition fillTxAttribute (tx : ParsedTx) (_type : string) (attr : string * string) : res ParsedTx :=
  let '(key, value) := attr in
  let with_hash := Ok (mkParsedTx (HexToHash value) (parsed_EthTxIndex tx) (parsed_Failed tx)) in
  let with_index := txIndex ← ParseUint31 value; Ok (mkParsedTx (parsed_Hash tx) txIndex (parsed_Failed tx)) in
  if decide (_type = EventTypeEthereumTx) then
    if decide (key = AttributeKeyEthereumTxHash) then with_hash
    else if decide (key = AttributeKeyTxIndex) then with_index
    else Ok tx
  else if decide (_type = EventTypeTxReceipt) then
    if decide (key = AttributeKeyReceiptEvmTxHash) then with_hash
    else if decide (key = AttributeKeyReceiptTxIndex) then with_index
    else if decide (key = AttributeKeyReceiptVmError) then
      Ok (mkParsedTx (parsed_Hash tx) (parsed_EthTxIndex tx) true)
    else Ok tx
  else Ok tx.

Fixpoint fillTxAttributes (tx : ParsedTx) (_type : string) (attrs : list (string * string)) : res ParsedTx :=
  match attrs with
  | [] => Ok tx
  | attr :: rest => tx ← fillTxAttribute tx _type attr; fillTxAttributes tx _type rest
  end.

(** The loop over the events: what was parsed and which of the two events were seen. *)
Fixpoint parse_events (events : list SdkEvent) (p : option ParsedTx) (foundEventEthTx foundEventReceipt : bool) :
    res (option ParsedTx * bool * bool) :=
  match events with
  | [] => Ok (p, foundEventEthTx, foundEventReceipt)
  | event :: rest =>
      let isTx := bool_decide (event_Type event = EventTypeEthereumTx) in
      let isReceipt := bool_decide (event_Type event = EventTypeTxReceipt) in
      if isTx || isReceipt then
        let p := default (mkParsedTx zero_hash (-1) false) p in
        p ← fillTxAttributes p (event_Type event) (event_Attributes event);
        parse_events rest (Some p) (foundEventEthTx || isTx) (foundEventReceipt || (negb isTx && isReceipt))
      else parse_events rest p foundEventEthTx foundEventReceipt
  end.

(** The transaction is given, so [tx != nil] holds. *)
Definition ParseTxResult (result : ExecTxResult) : res (option ParsedTx) :=
  '(p, foundEventEthTx, foundEventReceipt) ← parse_events (result_Events result) None false false;
  Ok (p ← p;
      Some (if negb (result_Code result =? 0) || negb foundEventEthTx || negb foundEventReceipt
            then mkParsedTx (parsed_Hash p) (parsed_EthTxIndex p) true else p)).
End Events.

(** ** The index *)

Record TxResult : Type := mkTxResult {
  txr_Height : Z;
  txr_TxIndex : Z;
  txr_EthTxIndex : Z;
  txr_Failed : bool
}.

Definition KeyPrefixTxHash : byte := x01.
Definition KeyPrefixTxIndex : byte := x02.
Definition TxIndexKeyLength : nat := 1 + 8 + 8.

Definition TxHashKey (hash : Hash) : bytes := [KeyPrefixTxHash] ++ farr_bytes hash.
(** The conversions to [uint64] keep the bits of a negative number. *)
Definition TxIndexKey (blockNumber txIndex : Z) : bytes :=
  [KeyPrefixTxIndex] ++ Uint64ToBigEndian (wrap64 blockNumber) ++ Uint64ToBigEndian (wrap64 txIndex).

Definition parseBlockNumberFromKey (key : bytes) : res Z :=
  if negb (length key =? TxIndexKeyLength)%nat then Err (Errorf "wrong tx index key length")
  else Ok (int64_of_uint64 (BigEndianToUint64 (take 8 (drop 1 key)))).

(** [db.Iterator(start, end)]: the entries with keys in [start, end), in key order. *)
Definition db_range (db : kv) (start stop : bytes) : list (bytes * bytes) :=
  merge_sort entry_le
    (filter (fun x => bytes_le start x.1 && negb (bytes_le stop x.1) = true) (map_to_list db)).

Record KVIndexer : Type := mkKVIndexer {
  kvi_db : kv;
  kvi_ready : bool;
  kvi_lastRequestIndexedBlock : Z
}.
Definition NewKVIndexer (db : kv) : KVIndexer := mkKVIndexer db false (-1).

Definition LoadFirstBlock (db : kv) : res Z :=
  match db_range db [KeyPrefixTxIndex] [x03] with
  | [] => Ok (-1)
  | (key, _) :: _ => parseBlockNumberFromKey key
  end.
(** [db.ReverseIterator] starts with the largest key. *)
Definition LoadLastBlock (db : kv) : res Z :=
  match last (db_range db [KeyPrefixTxIndex] [x03]) with
  | None => Ok (-1)
  | Some (key, _) => parseBlockNumberFromKey key
  end.

Section Index.
Context {G : Geth} {CT : Codec TxResult}.
(** [clientCtx.TxConfig.TxDecoder()] *)
Variable TxDecoder : bytes -> res Tx.

(** The two entries of a transaction, put into the batch. *)
Definition saveTxResult (batch : list (bytes * bytes)) (txHash : Hash) (txResult : TxResult) :
    res (list (bytes * bytes)) :=
  bz ← must_res (Marshal txResult);
  Ok (batch ++ [(TxHashKey txHash, bz);
                (TxIndexKey (txr_Height txResult) (txr_EthTxIndex txResult), farr_bytes txHash)]).

(** [int32] and [uint32] wrap around. *)
Definition add32 (a b : Z) : Z := (a + b + 2 ^ 31) mod 2 ^ 32 - 2 ^ 31.

(** One transaction of the block; the batch and the index of the next one are the loop's
    state.  A transaction that reaches the end counts even when it is not stored. *)
Definition index_tx (height : Z) (txIndex : nat) (tx : bytes) (result : ExecTxResult)
    (batch : list (bytes * bytes)) (ethTxIndex : Z) : res (list (bytes * bytes) * Z) :=
  if TxWasDroppedPreAnteHandleDueToBlockGasExcess result then Ok (batch, ethTxIndex)
  else match TxDecoder tx with
  | Panic e => Panic e
  | Err _ => Ok (batch, ethTxIndex)
  | Ok tx =>
      if negb (IsEthereumTx tx) then Ok (batch, ethTxIndex)
      else match ParseTxResult result with
      | Panic e => Panic e
      | Err _ => Ok (batch, ethTxIndex)
      | Ok parsedTx =>
          ethMsg ← first_eth tx;
          let txResult failed := mkTxResult height (Z.of_nat txIndex mod 2 ^ 32) ethTxIndex failed in
          let save failed := ethTx ← MsgEthereumTx_AsTransaction ethMsg;
                             saveTxResult batch (Transaction_Hash ethTx) (txResult failed) in
          batch ← (if negb (result_Code result =? 0) then save true
                   else match parsedTx with
                        | None => Ok batch
                        | Some p => save (parsed_Failed p)
                        end);
          Ok (batch, add32 ethTxIndex 1)
      end
  end.

(** [results] may be shorter than the list of transactions: the index is out of range. *)
Fixpoint index_txs (height : Z) (txIndex : nat) (txs : list bytes) (results : list ExecTxResult)
    (batch : list (bytes * bytes)) (ethTxIndex : Z) : res (list (bytes * bytes)) :=
  match txs with
  | [] => Ok batch
  | tx :: txs' =>
      match results with
      | [] => Panic IndexOutOfRange
      | result :: results' =>
          '(batch, ethTxIndex) ← index_tx height txIndex tx result batch ethTxIndex;
          index_txs height (S txIndex) txs' results' batch ethTxIndex
      end
  end.

Definition write_batch (batch : list (bytes * bytes)) (db : kv) : kv :=
  foldl (fun db kv => <[kv.1 := kv.2]> db) db batch.

(** [cmttypes.Block]: the height and the transactions. *)
Record Block : Type := mkBlock {
  block_Height : Z;
  block_Txs : list bytes
}.

Definition IndexBlock (block : Block) (txResults : list ExecTxResult) : M KVIndexer unit := fun kvi =>
  match index_txs (block_Height block) 0 (block_Txs block) txResults [] 0 with
  | Ok batch =>
      (Ok tt, mkKVIndexer (write_batch batch (kvi_db kvi)) (kvi_ready kvi)
                (Z.max (kvi_lastRequestIndexedBlock kvi) (block_Height block)))
  | Err e => (Err e, kvi)
  | Panic e => (Panic e, kvi)
  end.

Definition Ready (kvi : KVIndexer) : KVIndexer := mkKVIndexer (kvi_db kvi) true (kvi_lastRequestIndexedBlock kvi).
Definition IsReady (kvi : KVIndexer) : bool := kvi_ready kvi.
Definition LastIndexedBlock (kvi : KVIndexer) : res Z := LoadLastBlock (kvi_db kvi).
Definition FirstIndexedBlock (kvi : KVIndexer) : res Z := LoadFirstBlock (kvi_db kvi).
Definition GetLastRequestIndexedBlock (kvi : KVIndexer) : res Z :=
  if kvi_lastRequestIndexedBlock kvi =? -1 then LoadLastBlock (kvi_db kvi)
  else Ok (kvi_lastRequestIndexedBlock kvi).

Definition GetByTxHash (kvi : KVIndexer) (hash : Hash) : res TxResult :=
  let bz := kv_get (kvi_db kvi) (TxHashKey hash) in
  if decide (length bz = 0%nat) then Err (Errorf "tx not found")
  else Unmarshal bz.
Definition GetByBlockAndIndex (kvi : KVIndexer) (blockNumber txIndex : Z) : res TxResult :=
  let bz := kv_get (kvi_db kvi) (TxIndexKey blockNumber txIndex) in
  if decide (length bz = 0%nat) then Err (Errorf "tx not found")
  else GetByTxHash kvi (BytesToHash bz).
End Index.

(** ** What is stored is found *)

Section Lookup.
Context {G : Geth} {CT : Codec TxResult} {CL : CodecLaws TxResult}.
Variable TxDecoder : bytes -> res Tx.

(** What the indexer makes of a transaction: nothing, or its hash and, unless its result
    has no event, whether it failed. *)
Definition classify (tx : bytes) (result : ExecTxResult) : option (Hash * option bool) :=
  if TxWasDroppedPreAnteHandleDueToBlockGasExcess result then None
  else match TxDecoder tx with
  | Ok tx =>
      if negb (IsEthereumTx tx) then None
      else match ParseTxResult result, first_eth tx with
      | Ok parsedTx, Ok ethMsg =>
          Some (match MsgEthereumTx_AsTransaction ethMsg with Ok ethTx => Transaction_Hash ethTx | _ => zero_hash end,
                if negb (result_Code result =? 0) then Some true else parsed_Failed <$> parsedTx)
      | _, _ => None
      end
  | _ => None
  end.
Abbreviation items txs results := (zip_with classify txs results).

(** The number of Ethereum transactions before position [i]. *)
Definition eth_index (l : list (option (Hash * option bool))) (i : nat) : Z :=
  Z.of_nat (length (filter is_Some (take i l))).

Definition int32_range (z : Z) : Prop := - 2 ^ 31 <= z < 2 ^ 31.
Lemma add32_id z : int32_range z -> int32_range (z + 1) -> add32 z 1 = z + 1.
Proof. unfold int32_range, add32. intros H1 H2. rewrite Z.mod_small by lia. lia. Qed.

(** An entry of the batch of a block. *)
Definition batch_entry (height : Z) (n : nat) (j : Z) (l : list (option (Hash * option bool))) (kv : bytes * bytes) : Prop :=
  exists i hash failed bz, l !! i = Some (Some (hash, Some failed)) /\
    Marshal (mkTxResult height (Z.of_nat (n + i) mod 2 ^ 32) (j + eth_index l i) failed) = Ok bz /\
    (kv = (TxHashKey hash, bz) \/ kv = (TxIndexKey height (j + eth_index l i), farr_bytes hash)).

Lemma eth_index_cons x l i : eth_index (x :: l) (S i) = (if decide (is_Some x) then 1 else 0) + eth_index l i.
Proof. unfold eth_index. simpl. rewrite filter_cons. case_decide; simpl; lia. Qed.

Lemma batch_entry_cons height n j x l kv :
  batch_entry height n j (x :: l) kv <->
  (exists hash failed bz, x = Some (hash, Some failed) /\
     Marshal (mkTxResult height (Z.of_nat n mod 2 ^ 32) j failed) = Ok bz /\
     (kv = (TxHashKey hash, bz) \/ kv = (TxIndexKey height j, farr_bytes hash))) \/
  batch_entry height (S n) (j + if decide (is_Some x) then 1 else 0) l kv.
Proof.
  split.
  - intros ([|i] & hash & failed & bz & Hi & Hm & Hkv).
    + left. simpl in Hi. injection Hi as ->. exists hash, failed, bz. split; [done|].
      unfold eth_index in *. simpl in *. rewrite Nat.add_0_r, Z.add_0_r in Hm. by rewrite Z.add_0_r in Hkv.
    + right. exists i, hash, failed, bz. rewrite eth_index_cons in Hm, Hkv.
      rewrite Z.add_assoc in Hm, Hkv. replace (n + S i)%nat with (S n + i)%nat in Hm by lia. done.
  - intros [(hash & failed & bz & -> & Hm & Hkv)|(i & hash & failed & bz & Hi & Hm & Hkv)].
    + exists 0%nat, hash, failed, bz. unfold eth_index. simpl. rewrite Nat.add_0_r, Z.add_0_r. done.
    + exists (S i), hash, failed, bz. rewrite eth_index_cons, Z.add_assoc.
      replace (n + S i)%nat with (S n + i)%nat by lia. done.
Qed.

(** One turn of the loop. *)
Lemma index_tx_classify height n tx result batch j batch' j' :
  int32_range j -> int32_range (j + 1) ->
  index_tx TxDecoder height n tx result batch j = Ok (batch', j') ->
  j' = j + (if decide (is_Some (classify tx result)) then 1 else 0) /\
  match classify tx result with
  | Some (hash, Some failed) => exists bz,
      Marshal (mkTxResult height (Z.of_nat n mod 2 ^ 32) j failed) = Ok bz /\
      batch' = batch ++ [(TxHashKey hash, bz); (TxIndexKey height j, farr_bytes hash)]
  | _ => batch' = batch
  end.
Proof.
  intros Hj Hj1. unfold index_tx, classify, saveTxResult.
  destruct (TxWasDroppedPreAnteHandleDueToBlockGasExcess result); [intros [= <- <-]; simpl; split; [lia|done]|].
  destruct (TxDecoder tx) as [t|e|e]; [|intros [= <- <-]; simpl; split; [lia|done]|done].
  destruct (IsEthereumTx t); simpl; [|intros [= <- <-]; split; [lia|done]].
  destruct (ParseTxResult result) as [p|e|e]; [|intros [= <- <-]; simpl; split; [lia|done]|done].
  destruct (first_eth t) as [m|e|e]; simpl; [|done|done].
  rewrite add32_id by done.
  destruct (result_Code result =? 0); simpl; [destruct p as [p|]; simpl|];
    destruct (MsgEthereumTx_AsTransaction m) as [ethTx|e|e]; simpl; try done;
    try (intros [= <- <-]; done);
    destruct (Marshal _) as [bz|e|e] eqn:Em; simpl; try done; intros [= <- <-]; (split; [done|]); by exists bz.
Qed.

Lemma index_txs_entries height n txs results batch j batch' :
  int32_range j -> int32_range (j + Z.of_nat (length txs)) -> 0 <= j ->
  index_txs TxDecoder height n txs results batch j = Ok batch' ->
  (forall kv, kv ∈ batch' <-> kv ∈ batch \/ batch_entry height n j (items txs results) kv) /\
  (forall i hash failed, items txs results !! i = Some (Some (hash, Some failed)) ->
     is_ok (Marshal (mkTxResult height (Z.of_nat (n + i) mod 2 ^ 32) (j + eth_index (items txs results) i) failed)) = true).
Proof.
  revert n results batch j. induction txs as [|tx txs IH]; intros n results batch j Hj Hr H0; simpl.
  - intros [= <-]. split; [|done]. intros kv. split; [by left|]. intros [|(i & ? & ? & ? & Hi & _)]; [done|].
    by rewrite lookup_nil in Hi.
  - destruct results as [|result results]; [done|].
    destruct (index_tx TxDecoder height n tx result batch j) as [[batch1 j1]|e|e] eqn:E; simpl; [|done|done].
    unfold int32_range in *. simpl in Hr.
    apply index_tx_classify in E as [Hj1 Hb]; [|unfold int32_range; lia|unfold int32_range; lia].
    intros Hrun. apply IH in Hrun as [Hrun Hmar]; [|subst j1; case_decide; lia..]. clear IH. split.
    + intros kv. rewrite Hrun, batch_entry_cons, <- Hj1.
      destruct (classify tx result) as [[hash [failed|]]|]; simpl in Hb; [|subst batch1; naive_solver..].
      destruct Hb as (bz & Hm & ->). rewrite elem_of_app, !elem_of_cons. split.
      * intros [[H|[H|[H|H%not_elem_of_nil]]]|H]; naive_solver.
      * intros [H|[(h & f & b & [= <- <-] & Hm' & H)|H]]; [by auto| |by auto].
        rewrite Hm in Hm'. injection Hm' as <-. naive_solver.
    + intros [|i] hash failed Hi; simpl in Hi.
      * injection Hi as Hi. rewrite Hi in Hb. destruct Hb as (bz & Hm & _). unfold eth_index. simpl.
        by rewrite Nat.add_0_r, Z.add_0_r, Hm.
      * rewrite eth_index_cons, Z.add_assoc, <- Hj1. replace (n + S i)%nat with (S n + i)%nat by lia.
        by apply (Hmar i hash).
Qed.

Lemma write_batch_lookup batch db k v :
  (k, v) ∈ batch -> (forall v', (k, v') ∈ batch -> v' = v) -> write_batch batch db !! k = Some v.
Proof.
  induction batch as [|[k1 v1] batch IH] using rev_ind; intros Hin Huniq; [by apply not_elem_of_nil in Hin|].
  unfold write_batch. rewrite foldl_app. simpl. fold (write_batch batch db). rewrite lookup_insert.
  case_decide as Hk; [subst k1; f_equal; apply Huniq; set_solver|].
  apply IH; [set_solver|]. intros v' H. apply Huniq. set_solver.
Qed.
Lemma write_batch_other batch db k :
  (forall v, (k, v) ∉ batch) -> write_batch batch db !! k = db !! k.
Proof.
  induction batch as [|[k1 v1] batch IH] using rev_ind; intros Hn; [done|].
  unfold write_batch. rewrite foldl_app. simpl. fold (write_batch batch db). rewrite lookup_insert_ne.
  - apply IH. intros v H. apply (Hn v). set_solver.
  - intros <-. apply (Hn v1). set_solver.
Qed.

Lemma eth_index_le l i k : (i <= k)%nat -> eth_index l i <= eth_index l k.
Proof.
  intros H. unfold eth_index. replace (take k l) with (take i l ++ take (k - i) (drop i l)).
  - rewrite filter_app, length_app. lia.
  - rewrite <- (take_drop i l) at 3. rewrite take_app_ge by (rewrite length_take; lia).
    destruct (decide (i <= length l)%nat); [by rewrite length_take_le by done|].
    rewrite (drop_ge l), !take_nil by lia. done.
Qed.
Lemma eth_index_lt l i k x : l !! i = Some (Some x) -> (i < k)%nat -> eth_index l i < eth_index l k.
Proof.
  intros Hi Hk. apply Z.lt_le_trans with (eth_index l (S i)); [|by apply eth_index_le].
  unfold eth_index. rewrite (take_S_r l i (Some x)) by done. rewrite filter_app, filter_cons_True by done.
  rewrite length_app. simpl. lia.
Qed.
Lemma eth_index_inj l i k x y :
  l !! i = Some (Some x) -> l !! k = Some (Some y) -> eth_index l i = eth_index l k -> i = k.
Proof.
  intros Hi Hk E. destruct (Nat.lt_total i k) as [H|[H|H]]; [|done|].
  - pose proof (eth_index_lt l i k x Hi H). lia.
  - pose proof (eth_index_lt l k i y Hk H). lia.
Qed.
Lemma eth_index_range l i : 0 <= eth_index l i <= Z.of_nat (length l).
Proof.
  unfold eth_index. pose proof (length_filter is_Some (take i l)) as H. rewrite length_take in H. lia.
Qed.

Lemma TxHashKey_inj h h' : TxHashKey h = TxHashKey h' -> h = h'.
Proof. intros [= E]. by apply farr_eq. Qed.
Lemma TxIndexKey_inj h i h' i' :
  is_u64 h -> is_u64 i -> is_u64 h' -> is_u64 i' -> TxIndexKey h i = TxIndexKey h' i' -> h = h' /\ i = i'.
Proof.
  intros H1 H2 H3 H4. unfold TxIndexKey. rewrite !wrap64_id by done. intros E.
  apply app_inv_head, app_inj_1 in E as [E1 E2]; [|by rewrite !length_Uint64ToBigEndian].
  split; by apply Uint64ToBigEndian_inj.
Qed.

(** No two stored transactions of the block have the same hash. *)
Definition distinct_hashes (l : list (option (Hash * option bool))) : Prop :=
  forall i k hash f g, l !! i = Some (Some (hash, Some f)) -> l !! k = Some (Some (hash, Some g)) -> i = k.

(** C23 A transaction of an indexed block is found again: after [IndexBlock], each
    Ethereum transaction of the block whose result was understood is found by its hash
    and by the block's height and its position among the Ethereum transactions of the
    block, both times with its height, its position in the block, that index and
    whether it failed. *)
Theorem index_block_lookup (block : Block) (results : list ExecTxResult) (kvi kvi' : KVIndexer)
  (i : nat) (hash : Hash) (failed : bool)
  (Hrun : IndexBlock TxDecoder block results kvi = (Ok tt, kvi'))
  (Hheight : 0 < block_Height block < 2 ^ 63) (Hlength : Z.of_nat (length (block_Txs block)) < 2 ^ 31)
  (Hdistinct : distinct_hashes (items (block_Txs block) results))
  (Hcodec : forall r bz, Marshal r = Ok bz -> txr_Height r <> 0 -> bz <> [])
  (Hi : items (block_Txs block) results !! i = Some (Some (hash, Some failed))) :
  let j := eth_index (items (block_Txs block) results) i in
  let r := mkTxResult (block_Height block) (Z.of_nat i) j failed in
  GetByTxHash kvi' hash = Ok r /\ GetByBlockAndIndex kvi' (block_Height block) j = Ok r.
Proof.
  intros j r. unfold IndexBlock in Hrun.
  destruct (index_txs TxDecoder (block_Height block) 0 (block_Txs block) results [] 0) as [batch|e|e] eqn:E; [|done|done].
  injection Hrun as <-. set (l := items (block_Txs block) results) in *.
  assert (length l <= length (block_Txs block))%nat as Hlen by (unfold l; rewrite length_zip_with; lia).
  pose proof (lookup_lt_Some _ _ _ Hi) as Hlt.
  destruct (index_txs_entries (block_Height block) 0 (block_Txs block) results [] 0 batch) as [Hb Hmar];
    [unfold int32_range; lia|unfold int32_range; lia|lia|exact E|]. fold l in Hb, Hmar.
  assert (forall k, is_u64 (eth_index l k)) as Hu.
  { intros k. pose proof (eth_index_range l k). unfold is_u64, MaxUint64. lia. }
  assert (is_u64 (block_Height block)) as Hh by (unfold is_u64, MaxUint64; lia).
  assert (Z.of_nat (0 + i) mod 2 ^ 32 = Z.of_nat i) as Hmod by (apply Z.mod_small; lia).
  pose proof (Hmar i hash failed Hi) as Hok. rewrite Hmod, Z.add_0_l in Hok.
  change (is_ok (Marshal r) = true) in Hok. destruct (Marshal r) as [bz|e|e] eqn:Em; [|discriminate Hok..].
  assert (forall kv, kv ∈ batch <-> batch_entry (block_Height block) 0 0 l kv) as Hb'.
  { intros kv. rewrite Hb. split; [intros [H%not_elem_of_nil|H]; done|by right]. }
  assert (write_batch batch (kvi_db kvi) !! TxHashKey hash = Some bz) as L1.
  { apply write_batch_lookup.
    - apply Hb'. exists i, hash, failed, bz. rewrite Hmod, Z.add_0_l. auto.
    - intros v' (i' & h' & f' & bz' & Hi' & Hm' & [[= E1 ->]|[=]])%Hb'.
      apply farr_eq in E1 as <-. assert (i' = i) as -> by (by eapply Hdistinct). simplify_eq.
      rewrite Hmod, Z.add_0_l in Hm'. change (Marshal r = Ok bz') in Hm'. congruence. }
  assert (write_batch batch (kvi_db kvi) !! TxIndexKey (block_Height block) j = Some (farr_bytes hash)) as L2.
  { apply write_batch_lookup.
    - apply Hb'. exists i, hash, failed, bz. rewrite Hmod, Z.add_0_l. auto.
    - intros v' (i' & h' & f' & bz' & Hi' & Hm' & [[=]|Hkv])%Hb'.
      apply pair_equal_spec in Hkv as [E1 ->]. rewrite Z.add_0_l in E1.
      apply TxIndexKey_inj in E1 as [_ E1]; [|exact Hh|apply Hu|exact Hh|apply Hu]. assert (i = i') as <- by (by eapply eth_index_inj). congruence. }
  assert (GetByTxHash (mkKVIndexer (write_batch batch (kvi_db kvi)) (kvi_ready kvi)
    (Z.max (kvi_lastRequestIndexedBlock kvi) (block_Height block))) hash = Ok r) as Hget.
  { unfold GetByTxHash, kv_get. simpl. rewrite L1. simpl.
    rewrite decide_False; [by apply codec_round|]. intros ->%nil_length_inv. apply (Hcodec r []); [done|simpl; lia|done]. }
  split; [exact Hget|]. unfold GetByBlockAndIndex, kv_get. cbn [kvi_db]. rewrite L2. simpl default.
  rewrite decide_False by (by rewrite farr_length). unfold BytesToHash. by rewrite farr_of_bytes.
Qed.
End Lookup.

(** ** The range of indexed blocks *)

(** The order of keys of one length is the order of the numbers they encode. *)
Lemma bytes_le_number a b : length a = length b -> bytes_le a b = (be_decode a <=? be_decode b).
Proof.
  revert b. induction a as [|x a IH]; intros [|y b] Hl; simpl in Hl; [done|lia|lia|].
  rewrite !be_decode_cons. injection Hl as Hl. rewrite Hl. simpl.
  pose proof (be_decode_range a) as Ha. pose proof (be_decode_range b) as Hb. rewrite Hl in Ha.
  set (p := 256 ^ Z.of_nat (length b)) in *.
  destruct (Z.compare_spec (Z_of_byte x) (Z_of_byte y)) as [->|H|H].
  - rewrite IH by done. destruct (Z.leb_spec (be_decode a) (be_decode b)), (Z.leb_spec (Z_of_byte y * p + be_decode a) (Z_of_byte y * p + be_decode b)); lia.
  - symmetry. apply Z.leb_le. nia.
  - symmetry. apply Z.leb_gt. nia.
Qed.

Lemma bytes_le_total a b : bytes_le a b = true \/ bytes_le b a = true.
Proof.
  revert b. induction a as [|x a IH]; intros [|y b]; simpl; auto.
  rewrite (Z.compare_antisym (Z_of_byte x)). destruct (Z_of_byte x ?= Z_of_byte y); simpl; auto.
Qed.
Lemma bytes_le_trans a b c : bytes_le a b = true -> bytes_le b c = true -> bytes_le a c = true.
Proof.
  revert b c. induction a as [|x a IH]; intros [|y b] [|z c]; simpl; try done.
  destruct (Z.compare_spec (Z_of_byte x) (Z_of_byte y)) as [E1|E1|E1], (Z.compare_spec (Z_of_byte y) (Z_of_byte z)) as [E2|E2|E2],
    (Z.compare_spec (Z_of_byte x) (Z_of_byte z)) as [E3|E3|E3]; try done; try lia; eauto.
Qed.
#[export] Instance entry_le_total : Total entry_le.
Proof. intros x y. apply bytes_le_total. Qed.
#[export] Instance entry_le_trans : Transitive entry_le.
Proof. intros x y z. apply bytes_le_trans. Qed.

(** Every key under the index prefix is that of a block and an index. *)
Definition index_key (k : bytes) (h : Z) : Prop := exists i, k = TxIndexKey h i /\ 0 <= h < 2 ^ 63 /\ 0 <= i < 2 ^ 31.
Definition index_wf (db : kv) : Prop :=
  forall k v, db !! ([KeyPrefixTxIndex] ++ k) = Some v -> exists h, index_key ([KeyPrefixTxIndex] ++ k) h.

Lemma index_key_parse k h : index_key k h -> parseBlockNumberFromKey k = Ok h.
Proof.
  intros (i & -> & Hh & Hi). unfold parseBlockNumberFromKey, TxIndexKey.
  assert (is_u64 h) as Hu by (unfold is_u64, MaxUint64; lia).
  rewrite !length_app, !length_Uint64ToBigEndian. change (negb _) with false. cbv iota.
  change (drop 1 ([KeyPrefixTxIndex] ++ ?r)) with r. rewrite take_app_length' by (by rewrite length_Uint64ToBigEndian). rewrite wrap64_id, BigEndianToUint64_round by done.
  unfold int64_of_uint64, MaxInt64. destruct (Z.leb_spec h (2 ^ 63 - 1)); [done|lia].
Qed.

Lemma index_key_le k1 k2 h1 h2 : index_key k1 h1 -> index_key k2 h2 -> bytes_le k1 k2 = true -> h1 <= h2.
Proof.
  intros (i1 & -> & Hh1 & Hi1) (i2 & -> & Hh2 & Hi2). unfold TxIndexKey. rewrite !wrap64_id by (unfold is_u64, MaxUint64; lia).
  rewrite bytes_le_number by (by rewrite !length_app, !length_Uint64ToBigEndian).
  cbn [app]. rewrite !be_decode_cons, !length_app, !length_Uint64ToBigEndian, Z.leb_le.
  assert (forall x y, be_decode (Uint64ToBigEndian x ++ Uint64ToBigEndian y) =
    be_decode (Uint64ToBigEndian x) * 2 ^ 64 + be_decode (Uint64ToBigEndian y)) as Happ.
  { intros x y. generalize (length_Uint64ToBigEndian y). generalize (Uint64ToBigEndian y). intros l Hl.
    induction (Uint64ToBigEndian x) as [|z r IH]; [done|]. cbn [app]. rewrite !be_decode_cons, IH, length_app, Hl.
    rewrite Nat2Z.inj_add, Z.pow_add_r by lia. change (256 ^ Z.of_nat 8) with (2 ^ 64). lia. }
  assert (forall x, 0 <= x < 2 ^ 63 -> be_decode (Uint64ToBigEndian x) = x) as Hdec.
  { intros x Hx. unfold Uint64ToBigEndian. rewrite be_decode_encode. apply Z.mod_small.
    change (256 ^ Z.of_nat 8) with (2 ^ 64). lia. }
  rewrite !Happ, !Hdec by lia. lia.
Qed.

Lemma elem_of_index_range db k v :
  (k, v) ∈ db_range db [KeyPrefixTxIndex] [x03] <->
  db !! k = Some v /\ exists r, k = [KeyPrefixTxIndex] ++ r.
Proof.
  unfold db_range. rewrite merge_sort_Permutation, list_elem_of_filter, elem_of_map_to_list. cbn [fst].
  split.
  - intros [H Hk]. split; [done|]. destruct k as [|b r]; [done|]. exists r. cbn [bytes_le app] in *. f_equal.
    assert (Z_of_byte b = 2) as E.
    { unfold KeyPrefixTxIndex in H. change (Z_of_byte x02) with 2 in H. change (Z_of_byte x03) with 3 in H.
      destruct (Z.compare_spec 2 (Z_of_byte b)), (Z.compare_spec 3 (Z_of_byte b)); cbn in H; try done; lia. }
    by rewrite <- (byte_of_Z_of_byte b), E.
  - intros [Hk [r ->]]. by split.
Qed.

Section Range.
Context {G : Geth} {CT : Codec TxResult}.
Variable TxDecoder : bytes -> res Tx.

(** The indexers that can be reached: from an empty database, blocks are indexed in any
    order, whatever the outcome. *)
Inductive reachable : KVIndexer -> Prop :=
  | reachable_new : reachable (NewKVIndexer ∅)
  | reachable_ready kvi : reachable kvi -> reachable (Ready kvi)
  | reachable_block kvi block results :
      0 < block_Height block < 2 ^ 63 -> Z.of_nat (length (block_Txs block)) < 2 ^ 31 ->
      reachable kvi -> reachable (snd (IndexBlock TxDecoder block results kvi)).

Lemma write_batch_inv batch db k v :
  write_batch batch db !! k = Some v -> (k, v) ∈ batch \/ db !! k = Some v.
Proof.
  induction batch as [|[k1 v1] batch IH] using rev_ind; intros H; [by right|].
  unfold write_batch in H. rewrite foldl_app in H. simpl in H. fold (write_batch batch db) in H.
  apply lookup_insert_Some in H as [[<- <-]|[_ H]]; [left; set_solver|].
  destruct (IH H); [left; set_solver|by right].
Qed.

Lemma reachable_wf kvi : reachable kvi -> index_wf (kvi_db kvi).
Proof.
  induction 1 as [|kvi Hr IH|kvi block results Hh Hl Hr IH]; [intros k v H; cbn [kvi_db NewKVIndexer] in H; by rewrite lookup_empty in H|done|].
  unfold IndexBlock. destruct (index_txs _ _ _ _ _ _ _) as [batch|e|e] eqn:E; [|done|done].
  destruct (index_txs_entries TxDecoder (block_Height block) 0 (block_Txs block) results [] 0 batch) as [Hb _];
    [unfold int32_range; lia|unfold int32_range; lia|lia|exact E|].
  intros k v [Hin|Hin]%write_batch_inv; [|by apply (IH k v)].
  apply Hb in Hin as [Hin%not_elem_of_nil|(i & hash & failed & bz & Hi & _ & [Hkv|Hkv])]; [done|discriminate Hkv|].
  apply pair_equal_spec in Hkv as [-> _]. exists (block_Height block).
  exists (0 + eth_index (zip_with (classify TxDecoder) (block_Txs block) results) i).
  split; [done|]. split; [lia|].
  pose proof (eth_index_range (zip_with (classify TxDecoder) (block_Txs block) results) i) as Hx.
  rewrite length_zip_with in Hx. lia.
Qed.

(** The database has an entry of block [h]. *)
Definition has_block (db : kv) (h : Z) : Prop := exists k v, db !! k = Some v /\ index_key k h.

Lemma index_key_prefix k h : index_key k h -> exists r, k = [KeyPrefixTxIndex] ++ r.
Proof. intros (i & -> & _). by eexists. Qed.

(** [FirstIndexedBlock] and [LastIndexedBlock] are the smallest and the largest height
    with a stored transaction, whatever the order in which blocks were indexed, and -1
    exactly when nothing is stored. *)
Theorem indexed_range (kvi : KVIndexer) (Hreach : reachable kvi) :
  (FirstIndexedBlock kvi = Ok (-1) /\ LastIndexedBlock kvi = Ok (-1) /\ forall h, ~ has_block (kvi_db kvi) h) \/
  exists f l, FirstIndexedBlock kvi = Ok f /\ LastIndexedBlock kvi = Ok l /\
    has_block (kvi_db kvi) f /\ has_block (kvi_db kvi) l /\
    forall h, has_block (kvi_db kvi) h -> f <= h <= l.
Proof.
  apply reachable_wf in Hreach as Hwf. unfold FirstIndexedBlock, LastIndexedBlock, LoadFirstBlock, LoadLastBlock.
  set (db := kvi_db kvi) in *. pose proof (elem_of_index_range db) as Hel.
  assert (StronglySorted entry_le (db_range db [KeyPrefixTxIndex] [x03])) as Hs
    by (apply StronglySorted_merge_sort; apply _).
  destruct (db_range db [KeyPrefixTxIndex] [x03]) as [|[k0 v0] rest] eqn:Er.
  { left. split_and!; [done|done|]. intros h (k & v & Hk & [r ->]%index_key_prefix).
    assert ((([KeyPrefixTxIndex] ++ r, v) : bytes * bytes) ∈ []) as Hin by (apply Hel; eauto).
    by apply not_elem_of_nil in Hin. }
  right. destruct (last ((k0, v0) :: rest)) as [[k1 v1]|] eqn:El; [|by apply last_None in El].
  assert (forall k v, (k, v) ∈ (k0, v0) :: rest -> exists h, index_key k h /\ has_block db h) as Hkey.
  { intros k v (Hk & r & ->)%Hel. destruct (Hwf r v Hk) as [h Hh]. exists h. split; [done|]. by eexists _, _. }
  destruct (Hkey k0 v0) as (f & Hf & Hbf); [left|].
  destruct (Hkey k1 v1) as (l & Hl & Hbl); [apply last_Some_elem_of in El; done|].
  exists f, l. split_and!; [by apply index_key_parse|by apply index_key_parse|done|done|].
  intros h (k & v & Hk & Hh). destruct (index_key_prefix k h Hh) as [r ->].
  assert ((([KeyPrefixTxIndex] ++ r, v) : bytes * bytes) ∈ (k0, v0) :: rest) as Hin by (apply Hel; eauto).
  split.
  - apply (index_key_le k0 ([KeyPrefixTxIndex] ++ r)); [done|done|].
    apply elem_of_cons in Hin as [E|Hin].
    + injection E as <- _. destruct (bytes_le_total ([KeyPrefixTxIndex] ++ r) ([KeyPrefixTxIndex] ++ r)); done.
    + apply StronglySorted_inv in Hs as [_ Hall]. rewrite Forall_forall in Hall. exact (Hall _ Hin).
  - apply (index_key_le ([KeyPrefixTxIndex] ++ r) k1); [done|done|].
    apply last_Some in El as [pre El]. rewrite El in Hs, Hin.
    apply elem_of_app in Hin as [Hin|Hin%list_elem_of_singleton].
    + apply StronglySorted_app in Hs as (Hc & _ & _). apply (Hc _ (k1, v1) Hin). left.
    + injection Hin as <- _. destruct (bytes_le_total ([KeyPrefixTxIndex] ++ r) ([KeyPrefixTxIndex] ++ r)); done.
Qed.
End Range.
