(* ===== verification/IndexerCmd.v ===== *)
(** * Indexing past blocks

    The command index-eth-tx (server/indexer_cmd.go) indexes the blocks before the first
    indexed one (backward) or after the last one (forward), from the databases of the
    stopped node.  Opening the databases and printing the heights are left out. *)

From Stdlib Require Import Strings.Byte.
From stdpp Require Import base gmap list strings.
From S2P Require Import Prelude Sdk Geth EvmTypes TxTypes AnteTx Indexer.

(** CometBFT's stores of blocks and of the results of their execution. *)
Class BlockStores : Type := {
  store_Height : Z;
  LoadBlock : Z -> option Block;
  LoadFinalizeBlockResponse : Z -> res (list ExecTxResult)
}.

Section Command.
Context {G : Geth} {CT : Codec TxResult}.
Variable TxDecoder : bytes -> res Tx.

Definition indexBlock {BS : BlockStores} (height : Z) : M KVIndexer unit :=
  match LoadBlock height with
  | None => err (Errorf "block not found")
  | Some blk =>
      resBlk ← lift_res (LoadFinalizeBlockResponse height);
      IndexBlock TxDecoder blk resBlk
  end.

(** [n] blocks from [i] on, up or down. *)
Fixpoint index_blocks {BS : BlockStores} (step : Z) (n : nat) (i : Z) : M KVIndexer unit :=
  match n with
  | O => mret tt
  | S n' => indexBlock i ;; index_blocks step n' (i + step)
  end.

Definition index_backward {BS : BlockStores} : M KVIndexer unit :=
  first ← (fun kvi => (FirstIndexedBlock kvi, kvi));
  let first := if first =? -1 then store_Height else first in
  index_blocks (-1) (Z.to_nat (first - 1)) (first - 1) ;;
  modify Ready.
Definition index_forward {BS : BlockStores} : M KVIndexer unit :=
  latest ← (fun kvi => (LastIndexedBlock kvi, kvi));
  let latest := if latest =? -1 then 0 else latest in
  index_blocks 1 (Z.to_nat (store_Height - latest)) (latest + 1) ;;
  modify Ready.
Definition NewIndexTxCmd {BS : BlockStores} (direction : string) : M KVIndexer unit :=
  if negb (bool_decide (direction = "backward"%string)) && negb (bool_decide (direction = "forward"%string))
  then err (Errorf "unknown index direction")
  else if decide (direction = "backward"%string) then index_backward
  else index_forward.

(** ** What the command indexes *)

(** The batch of entries of the block at height [h]. *)
Definition entries_of {BS : BlockStores} (h : Z) (batch : list (bytes * bytes)) : Prop :=
  exists blk results, LoadBlock h = Some blk /\ LoadFinalizeBlockResponse h = Ok results /\
    index_txs TxDecoder (block_Height blk) 0 (block_Txs blk) results [] 0 = Ok batch.
Definition has_entry {BS : BlockStores} (h : Z) (k : bytes) : Prop := exists batch v, entries_of h batch /\ (k, v) ∈ batch.

Lemma write_batch_dom (batch : list (bytes * bytes)) (db : kv) (k : bytes) :
  is_Some (write_batch batch db !! k) <-> is_Some (db !! k) \/ exists v, (k, v) ∈ batch.
Proof.
  unfold write_batch. revert db. induction batch as [|[k1 v1] batch IH]; intros db; cbn [foldl].
  { split; [by left|]. intros [H|[v H%not_elem_of_nil]]; done. }
  rewrite IH. cbn [fst snd]. rewrite lookup_insert_is_Some. split.
  - intros [[<-|[_ H]]|[v H]]; [right; exists v1; left|by left|right; exists v; by right].
  - intros [H|[v [[= <- <-]|H]%elem_of_cons]]; [|by left; left|right; by exists v].
    destruct (decide (k1 = k)); [by left; left|left; by right].
Qed.

Lemma indexBlock_exact {BS : BlockStores} h kvi kvi' : indexBlock h kvi = (Ok tt, kvi') ->
  (exists batch, entries_of h batch) /\ forall k, is_Some (kvi_db kvi' !! k) <-> is_Some (kvi_db kvi !! k) \/ has_entry h k.
Proof.
  unfold indexBlock. destruct (LoadBlock h) as [blk|] eqn:Eb; [|done]. intros (results & kvi1 & [Er ->]%lift_inv & H)%bind_ok_inv.
  unfold IndexBlock in H. destruct (index_txs _ _ _ _ _ _ _) as [batch| |] eqn:Ex; try done. injection H as <-.
  assert (entries_of h batch) as He by (by exists blk, results). split; [by exists batch|]. intros k. cbn [kvi_db]. rewrite write_batch_dom.
  split; (intros [H|H]; [by left|right]).
  - destruct H as [v Hv]. by exists batch, v.
  - destruct H as (batch' & v & (blk' & results' & Eb' & Er' & Ex') & Hv). exists v. congruence.
Qed.
Lemma index_blocks_exact {BS : BlockStores} step n i kvi kvi' : index_blocks step n i kvi = (Ok tt, kvi') ->
  (forall j, (j < n)%nat -> exists batch, entries_of (i + step * Z.of_nat j) batch) /\
  forall k, is_Some (kvi_db kvi' !! k) <-> is_Some (kvi_db kvi !! k) \/ exists j, (j < n)%nat /\ has_entry (i + step * Z.of_nat j) k.
Proof.
  revert i kvi. induction n as [|n IH]; intros i kvi; cbn [index_blocks].
  { intros [= <-]. split; [lia|]. intros k. split; [by left|]. intros [H|(j & Hj & _)]; [done|lia]. }
  intros ([] & kvi1 & [H0 Hk]%indexBlock_exact & [Hn Hk']%IH)%bind_ok_inv.
  assert (forall j, i + step + step * Z.of_nat j = i + step * Z.of_nat (S j)) as Hi by (intros; lia).
  assert (i + step * Z.of_nat 0 = i) as Hz by lia. split.
  - intros [|j] Hj; [by rewrite Hz|]. rewrite <- Hi. apply Hn. lia.
  - intros k. rewrite Hk', Hk. split.
    + intros [[H|H]|(j & Hj & H)]; [by left|right; exists 0%nat; rewrite Hz; split; [lia|done]|right; exists (S j); rewrite <- Hi; split; [lia|done]].
    + intros [H|([|j] & Hj & H)]; [by left; left|left; right; by rewrite Hz in H|right; exists j; rewrite Hi; split; [lia|done]].
Qed.

(** The first and the last block the command indexes; on an empty index, a backward run
    begins below the latest block. *)
Definition command_range {BS : BlockStores} (direction : string) (kvi : KVIndexer) : res (Z * Z) :=
  if decide (direction = "backward"%string)
  then first ← FirstIndexedBlock kvi; Ok (1, (if first =? -1 then store_Height else first) - 1)
  else latest ← LastIndexedBlock kvi; Ok ((if latest =? -1 then 0 else latest) + 1, store_Height).

(** The command, when it succeeds, has indexed exactly the blocks of its range: every
    block of it was found, its entries are in the index, nothing is lost and nothing else is
    added; and the indexer is ready. *)
Theorem index_command_exact {BS : BlockStores} (direction : string) (kvi kvi' : KVIndexer)
    (Hrun : NewIndexTxCmd direction kvi = (Ok tt, kvi')) :
  exists from to, command_range direction kvi = Ok (from, to) /\
    (forall h, from <= h <= to -> exists batch, entries_of h batch) /\
    (forall k, is_Some (kvi_db kvi' !! k) <-> is_Some (kvi_db kvi !! k) \/ exists h, from <= h <= to /\ has_entry h k) /\
    IsReady kvi' = true.
Proof.
  unfold NewIndexTxCmd in Hrun. destruct (_ && _); [done|]. unfold command_range. case_decide; unfold index_backward, index_forward in Hrun.
  - apply bind_ok_inv in Hrun as (first & kvi0 & [= Hf <-] & Hrun). apply bind_ok_inv in Hrun as ([] & kvi1 & [Hb Hk]%index_blocks_exact & [= <-]).
    rewrite Hf. cbn [mbind res_bind]. set (f := if first =? -1 then store_Height else first) in *. exists 1, (f - 1). split_and!; [done| | |done].
    + intros h Hh. replace h with (f - 1 + -1 * Z.of_nat (Z.to_nat (f - 1 - h))) by lia. apply Hb. lia.
    + intros k. cbn [kvi_db Ready]. rewrite Hk. split; (intros [H0|H0]; [by left|right]).
      * destruct H0 as (j & Hj & H0). eexists. split; [|exact H0]. lia.
      * destruct H0 as (h & Hh & H0). exists (Z.to_nat (f - 1 - h)). split; [lia|]. by replace (f - 1 + -1 * _) with h by lia.
  - apply bind_ok_inv in Hrun as (latest & kvi0 & [= Hf <-] & Hrun). apply bind_ok_inv in Hrun as ([] & kvi1 & [Hb Hk]%index_blocks_exact & [= <-]).
    rewrite Hf. cbn [mbind res_bind]. set (l := if latest =? -1 then 0 else latest) in *. exists (l + 1), store_Height. split_and!; [done| | |done].
    + intros h Hh. replace h with (l + 1 + 1 * Z.of_nat (Z.to_nat (h - l - 1))) by lia. apply Hb. lia.
    + intros k. cbn [kvi_db Ready]. rewrite Hk. split; (intros [H0|H0]; [by left|right]).
      * destruct H0 as (j & Hj & H0). eexists. split; [|exact H0]. lia.
      * destruct H0 as (h & Hh & H0). exists (Z.to_nat (h - l - 1)). split; [lia|]. by replace (l + 1 + 1 * _) with h by lia.
Qed.
End Command.
