(* ===== verification/IndexerService.v ===== *)
(** * The indexer service

    The service that fetches blocks and hands them to the indexer
    (server/indexer_service.go): the choice of the first block, the two nested loops with
    the goroutine that announces new heads, and the give-up rule for blocks that cannot
    be fetched while the node starts.  The node's RPC client is the environment: any
    call may fail.  Log lines, the waiting times and the quit signal are left out. *)

From Stdlib Require Import Strings.Byte.
From stdpp Require Import base gmap list strings relations sorting.
From S2P Require Import Prelude Sdk Geth EvmTypes TxTypes Staking AnteTx Indexer.

(** ** State *)

(** The head of the outer loop, or the inner loop with its counter. *)
Inductive Pc : Type :=
  | Outer
  | Inner (i : Z).

Record Service : Type := mkService {
  svc_pc : Pc;
  svc_lastIndexedBlock : Z;
  svc_latestBlock : Z;
  svc_isIndexerMarkedReady : bool;
  svc_failures : gmap Z nat;
  svc_txIdxr : KVIndexer
}.

Definition startupIndexBlockFailureThreshold : nat := 10.

(** [markFailedToIndexBlock]: whether the block should be skipped. *)
Definition markFailedToIndexBlock (tracker : gmap Z nat) (h : Z) : bool * gmap Z nat :=
  match tracker !! h with
  | Some cnt => let cnt := (cnt + 1)%nat in
                ((startupIndexBlockFailureThreshold <? cnt)%nat, <[h := cnt]> tracker)
  | None => (false, <[h := 1%nat]> tracker)
  end.

Section Service.
Context {G : Geth} {CT : Codec TxResult}.
Variable TxDecoder : bytes -> res Tx.

(** [OnStart] up to the loop: the status of the node gives the latest and the earliest
    block. *)
Definition OnStart (LatestBlockHeight EarliestBlockHeight : Z) (txIdxr : KVIndexer) : res Service :=
  lastIndexedBlock ← LastIndexedBlock txIdxr;
  let lastIndexedBlock :=
    if lastIndexedBlock =? -1 then LatestBlockHeight
    else if lastIndexedBlock <? EarliestBlockHeight then EarliestBlockHeight
    else lastIndexedBlock in
  Ok (mkService Outer lastIndexedBlock LatestBlockHeight false ∅ txIdxr).

(** A header arrived. *)
Definition new_head (h : Z) (s : Service) : Service :=
  if svc_latestBlock s <? h
  then mkService (svc_pc s) (svc_lastIndexedBlock s) h (svc_isIndexerMarkedReady s) (svc_failures s) (svc_txIdxr s)
  else s.

(** The head of the outer loop. *)
Definition outer (s : Service) : Service :=
  if svc_latestBlock s <=? svc_lastIndexedBlock s
  then mkService Outer (svc_lastIndexedBlock s) (svc_latestBlock s) true (svc_failures s)
         (if svc_isIndexerMarkedReady s then svc_txIdxr s else Ready (svc_txIdxr s))
  else mkService (Inner (svc_lastIndexedBlock s + 1)) (svc_lastIndexedBlock s) (svc_latestBlock s)
         (svc_isIndexerMarkedReady s) (svc_failures s) (svc_txIdxr s).

(** Block [i] or its results could not be fetched: the inner loop is left. *)
Definition fetch_failed (i : Z) (s : Service) : Service :=
  if svc_isIndexerMarkedReady s
  then mkService Outer (svc_lastIndexedBlock s) (svc_latestBlock s) true (svc_failures s) (svc_txIdxr s)
  else let '(shouldSkip, tracker) := markFailedToIndexBlock (svc_failures s) i in
       mkService Outer (if (shouldSkip : bool) then i else svc_lastIndexedBlock s) (svc_latestBlock s) false
         tracker (svc_txIdxr s).

(** Block [i] is handed to the indexer; its error does not stop the loop. *)
Definition fetched (i : Z) (block : Block) (results : list ExecTxResult) (s : Service) : Service :=
  let '(r, txIdxr) := IndexBlock TxDecoder block results (svc_txIdxr s) in
  mkService (Inner (i + 1)) i (svc_latestBlock s) (svc_isIndexerMarkedReady s)
    (if is_ok r && negb (svc_isIndexerMarkedReady s) then delete i (svc_failures s) else svc_failures s) txIdxr.

(** ** Steps

    A label is the height of a block handed to the indexer.  A panic of the indexer ends
    the process: there is no step then. *)
Inductive service_step : option Z -> Service -> Service -> Prop :=
  | step_head h s : svc_latestBlock s < h -> service_step None s (new_head h s)
  | step_outer s : svc_pc s = Outer -> service_step None s (outer s)
  | step_leave i s : svc_pc s = Inner i -> svc_latestBlock s < i ->
      service_step None s
        (mkService Outer (svc_lastIndexedBlock s) (svc_latestBlock s) (svc_isIndexerMarkedReady s)
           (svc_failures s) (svc_txIdxr s))
  | step_failed i s : svc_pc s = Inner i -> i <= svc_latestBlock s -> service_step None s (fetch_failed i s)
  | step_fetched i block results s : svc_pc s = Inner i -> i <= svc_latestBlock s -> block_Height block = i ->
      (forall e kvi, IndexBlock TxDecoder block results (svc_txIdxr s) <> (Panic e, kvi)) ->
      service_step (Some i) s (fetched i block results s).

(** The same steps as a function of what the environment does. *)
Inductive Act : Type :=
  | ActHead (h : Z)
  | ActOuter
  | ActLeave
  | ActFailed
  | ActFetched (block : Block) (results : list ExecTxResult).

Definition act (a : Act) (s : Service) : option (option Z * Service) :=
  match a, svc_pc s with
  | ActHead h, _ => if svc_latestBlock s <? h then Some (None, new_head h s) else None
  | ActOuter, Outer => Some (None, outer s)
  | ActLeave, Inner i =>
      if svc_latestBlock s <? i
      then Some (None, mkService Outer (svc_lastIndexedBlock s) (svc_latestBlock s) (svc_isIndexerMarkedReady s)
                         (svc_failures s) (svc_txIdxr s))
      else None
  | ActFailed, Inner i => if i <=? svc_latestBlock s then Some (None, fetch_failed i s) else None
  | ActFetched block results, Inner i =>
      if (i <=? svc_latestBlock s) && (block_Height block =? i)
      then match fst (IndexBlock TxDecoder block results (svc_txIdxr s)) with
           | Panic _ => None
           | _ => Some (Some i, fetched i block results s)
           end
      else None
  | _, _ => None
  end.

Fixpoint drive (acts : list Act) (l : list Z) (s : Service) : option (list Z * Service) :=
  match acts with
  | [] => Some (l, s)
  | a :: rest => '(o, s) ← act a s; drive rest (l ++ option_list o) s
  end.

Lemma act_step a o s s' : act a s = Some (o, s') -> service_step o s s'.
Proof.
  destruct a as [h| | | |block results]; unfold act; destruct (svc_pc s) as [|i] eqn:Hp; try done.
  1, 2: destruct (Z.ltb_spec (svc_latestBlock s) h); [|done]; intros [= <- <-]; by constructor.
  - intros [= <- <-]. by constructor.
  - destruct (Z.ltb_spec (svc_latestBlock s) i); [|done]. intros [= <- <-]. by eapply step_leave.
  - destruct (Z.leb_spec i (svc_latestBlock s)); [|done]. intros [= <- <-]. by constructor.
  - destruct (Z.leb_spec i (svc_latestBlock s)), (Z.eqb_spec (block_Height block) i); simpl; try done.
    destruct (IndexBlock TxDecoder block results (svc_txIdxr s)) as [[u|e1|e2] kvi] eqn:E; simpl; try done;
      intros [= <- <-]; constructor; try done; rewrite E; intros ? ?; done.
Qed.

Inductive service_run : list Z -> nat -> Service -> Service -> Prop :=
  | run_nil s : service_run [] 0 s s
  | run_step l n o s1 s2 s3 : service_run l n s1 s2 -> service_step o s2 s3 ->
      service_run (l ++ option_list o) (S n) s1 s3.

Lemma drive_run acts l n s0 s l' s' :
  service_run l n s0 s -> drive acts l s = Some (l', s') -> service_run l' (n + length acts) s0 s'.
Proof.
  revert l n s. induction acts as [|a acts IH]; simpl; intros l n s Hrun.
  - intros [= <- <-]. by rewrite Nat.add_0_r.
  - destruct (act a s) as [[o s1]|] eqn:E; simpl; [|done]. intros Hd.
    rewrite <- Nat.add_succ_comm. eapply IH; [|done]. econstructor; [done|by eapply act_step].
Qed.
End Service.

(** ** The blocks that are indexed *)

Section Proofs.
Context {G : Geth} {CT : Codec TxResult}.
Variable TxDecoder : bytes -> res Tx.
Abbreviation step := (service_step TxDecoder).
Abbreviation run := (service_run TxDecoder).

Definition failures (s : Service) (h : Z) : nat := default 0%nat (svc_failures s !! h).

(** The inner loop is at the next block, and no block that is still to be indexed failed
    more often than the threshold. *)
Record service_ok (s : Service) : Prop := {
  ok_pc i : svc_pc s = Inner i -> i = svc_lastIndexedBlock s + 1;
  ok_failures h : svc_lastIndexedBlock s < h -> (failures s h <= startupIndexBlockFailureThreshold)%nat
}.

Lemma OnStart_ok latest earliest txIdxr s : OnStart latest earliest txIdxr = Ok s -> service_ok s /\ svc_isIndexerMarkedReady s = false.
Proof.
  unfold OnStart. munfold. destruct (LastIndexedBlock txIdxr); [|done|done]. intros [= <-]. split; [|done]. split; [done|].
  intros h _. unfold failures. simpl. rewrite lookup_empty. simpl. lia.
Qed.

(** What a failed fetch does while the node starts. *)
Lemma markFailed_spec tracker h :
  let '(skip, tracker') := markFailedToIndexBlock tracker h in
  (forall k, default 0%nat (tracker' !! k) = if decide (k = h) then S (default 0%nat (tracker !! h)) else default 0%nat (tracker !! k)) /\
  ((default 0%nat (tracker !! h) <= startupIndexBlockFailureThreshold)%nat ->
   skip = (default 0%nat (tracker !! h) =? startupIndexBlockFailureThreshold)%nat).
Proof.
  unfold markFailedToIndexBlock, startupIndexBlockFailureThreshold. destruct (tracker !! h) as [cnt|] eqn:E; simpl; split.
  - intros k. rewrite lookup_insert. destruct (decide (h = k)) as [->|Hne]; [rewrite decide_True by done; simpl; lia|].
    by rewrite decide_False by done.
  - intros Hc. destruct (Nat.eqb_spec cnt 10), (Nat.ltb_spec 10 (cnt + 1)); lia.
  - intros k. rewrite lookup_insert. destruct (decide (h = k)) as [->|Hne]; [by rewrite decide_True|].
    by rewrite decide_False by done.
  - done.
Qed.

Lemma step_ok o s s' : step o s s' -> service_ok s -> service_ok s'.
Proof.
  intros Hst [Hpc Hf]. destruct Hst as [h s Hh|s Hp|i s Hp Hi|i s Hp Hi|i block results s Hp Hi Hb Hn].
  - unfold new_head. case_match; split; done.
  - unfold outer. case_match; split; simpl; try done. by intros i [= <-].
  - split; done.
  - apply Hpc in Hp as Ei. unfold fetch_failed. destruct (svc_isIndexerMarkedReady s); [by split|].
    pose proof (markFailed_spec (svc_failures s) i) as Hm. destruct (markFailedToIndexBlock _ i) as [skip tracker].
    destruct Hm as [Hm Hs]. specialize (Hs (Hf i ltac:(lia))).
    split; [done|]. unfold failures in *. simpl. intros h Hh. rewrite Hm. destruct (decide (h = i)) as [->|]; [|apply Hf; destruct skip; lia].
    destruct (Nat.eqb_spec (default 0%nat (svc_failures s !! i)) startupIndexBlockFailureThreshold) as [E|E]; subst skip; [lia|].
    specialize (Hf i ltac:(lia)). unfold startupIndexBlockFailureThreshold in *. lia.
  - apply Hpc in Hp as Ei. unfold fetched. destruct (IndexBlock _ _ _ _) as [r txIdxr]. split; simpl.
    + by intros i' [= <-].
    + intros h Hh. unfold failures in *. simpl. specialize (Hf h ltac:(lia)). case_match; [|done].
      rewrite lookup_delete_ne by lia. done.
Qed.

(** *** Progress *)

Definition pc_weight (s : Service) : Z :=
  match svc_pc s with
  | Outer => if svc_latestBlock s <=? svc_lastIndexedBlock s then 0 else 1
  | Inner _ => if svc_latestBlock s <=? svc_lastIndexedBlock s then 1 else 0
  end.
Ltac cmp_lia :=
  repeat match goal with |- context [?x <=? ?y] => destruct (Z.leb_spec x y) end; lia.
(** What is left to do until the service is ready, when no header above [H] arrives. *)
Definition rank (H : Z) (s : Service) : Z :=
  3 * (H - svc_latestBlock s) +
  Z.max 0 (24 * (H - svc_lastIndexedBlock s) - 2 * Z.of_nat (failures s (svc_lastIndexedBlock s + 1))) +
  pc_weight s.

Lemma step_rank H o s s' :
  step o s s' -> service_ok s -> svc_latestBlock s' <= H -> svc_isIndexerMarkedReady s' = false ->
  rank H s' < rank H s.
Proof.
  intros Hst Hok Hle Hr. destruct Hok as [Hpc Hf].
  destruct Hst as [h s Hh|s Hp|i s Hp Hi|i s Hp Hi|i block results s Hp Hi Hb Hn].
  - unfold new_head in *. destruct (Z.ltb_spec (svc_latestBlock s) h); [|lia]. unfold rank, pc_weight, failures in *. simpl in *.
    destruct (svc_pc s); cmp_lia.
  - unfold outer in *. destruct (Z.leb_spec (svc_latestBlock s) (svc_lastIndexedBlock s)); [done|].
    unfold rank, pc_weight, failures. simpl. rewrite Hp. cmp_lia.
  - apply Hpc in Hp as Ei. unfold rank, pc_weight, failures. simpl. rewrite Hp. cmp_lia.
  - apply Hpc in Hp as Ei. unfold fetch_failed in *. destruct (svc_isIndexerMarkedReady s); [done|].
    pose proof (markFailed_spec (svc_failures s) i) as Hm. destruct (markFailedToIndexBlock _ i) as [skip tracker].
    destruct Hm as [Hm Hs]. pose proof (Hf i ltac:(lia)) as Hfi. specialize (Hs Hfi).
    unfold rank, pc_weight, failures in *. cbn [svc_pc svc_lastIndexedBlock svc_latestBlock svc_failures] in *.
    rewrite Hp. rewrite !Hm. subst i. unfold startupIndexBlockFailureThreshold in *. clear Hf Hm.
    set (c := default 0%nat (svc_failures s !! (svc_lastIndexedBlock s + 1))) in *.
    destruct (Nat.eqb_spec c 10) as [E|E]; subst skip; cbn.
    + destruct (decide (svc_lastIndexedBlock s + 1 + 1 = svc_lastIndexedBlock s + 1)); [lia|]. cmp_lia.
    + rewrite decide_True by done. cmp_lia.
  - apply Hpc in Hp as Ei. unfold fetched in *. destruct (IndexBlock _ _ _ _) as [r txIdxr].
    unfold rank, pc_weight. cbn [svc_pc svc_lastIndexedBlock svc_latestBlock] in *. rewrite Hp. clear Hpc Hb.
    pose proof (Hf i ltac:(lia)) as Hfi. unfold startupIndexBlockFailureThreshold in Hfi. subst i.
    generalize (failures (mkService (Inner (svc_lastIndexedBlock s + 1 + 1)) (svc_lastIndexedBlock s + 1) (svc_latestBlock s)
      (svc_isIndexerMarkedReady s) (if is_ok r && negb (svc_isIndexerMarkedReady s)
        then delete (svc_lastIndexedBlock s + 1) (svc_failures s) else svc_failures s) txIdxr) (svc_lastIndexedBlock s + 1 + 1)).
    intros c. cmp_lia.
Qed.

(** Once ready, always ready; the heads only grow. *)
Lemma step_mono o s s' : step o s s' ->
  svc_latestBlock s <= svc_latestBlock s' /\ (svc_isIndexerMarkedReady s = true -> svc_isIndexerMarkedReady s' = true).
Proof.
  destruct 1 as [h s Hh|s Hp|i s Hp Hi|i s Hp Hi|i block results s Hp Hi Hb Hn].
  - unfold new_head. case_match; simpl; split; auto with lia.
  - unfold outer. case_match; simpl; split; auto with lia.
  - simpl; split; auto with lia.
  - unfold fetch_failed. destruct (svc_isIndexerMarkedReady s); [simpl; split; auto with lia|].
    destruct (markFailedToIndexBlock _ _). simpl; split; auto with lia.
  - unfold fetched. destruct (IndexBlock _ _ _ _). simpl; split; auto with lia.
Qed.

Lemma run_rank H l n s s' :
  run l n s s' -> service_ok s -> svc_latestBlock s' <= H -> svc_isIndexerMarkedReady s' = false ->
  service_ok s' /\ rank H s' + Z.of_nat n <= rank H s.
Proof.
  intros Hrun Hok. induction Hrun as [s|l n o s1 s2 s3 Hrun IH Hst]; intros Hle Hr; [split; [done|lia]|].
  destruct (step_mono o s2 s3 Hst) as [Hm Hrm].
  destruct (svc_isIndexerMarkedReady s2) eqn:Hr2; [by rewrite Hrm in Hr|].
  destruct (IH Hok) as [Hok2 Hrank]; [lia|done|].
  pose proof (step_rank H o s2 s3 Hst Hok2 Hle Hr). split; [by eapply step_ok|lia].
Qed.

Lemma rank_nonneg H s : svc_latestBlock s <= H -> 0 <= rank H s.
Proof. intros Hle. unfold rank, pc_weight. destruct (svc_pc s); cmp_lia. Qed.

(** C24 The service becomes ready: while no header above some height [H] arrives, and
    whatever calls to the node fail, it cannot make more than a fixed number of steps
    without marking the indexer ready, and it is never stuck before that. *)
Theorem service_becomes_ready (latest earliest H : Z) (txIdxr : KVIndexer) (s0 s : Service) (l : list Z) (n : nat)
  (Hstart : OnStart latest earliest txIdxr = Ok s0) (Hrun : run l n s0 s) (Hheads : svc_latestBlock s <= H) :
  (3 * (H - latest) + 24 * Z.max 0 (H - svc_lastIndexedBlock s0) + 1 < Z.of_nat n -> svc_isIndexerMarkedReady s = true) /\
  exists o s', step o s s' /\ svc_latestBlock s' = svc_latestBlock s.
Proof.
  destruct (OnStart_ok _ _ _ _ Hstart) as [Hok _]. split.
  - intros Hn. destruct (svc_isIndexerMarkedReady s) eqn:Hr; [done|].
    destruct (run_rank H l n s0 s Hrun Hok Hheads Hr) as [_ Hrank].
    pose proof (rank_nonneg H s Hheads) as H0.
    assert (svc_latestBlock s0 = latest /\ failures s0 (svc_lastIndexedBlock s0 + 1) = 0%nat) as [El Ef].
    { unfold OnStart in Hstart. munfold. destruct (LastIndexedBlock txIdxr); [|done|done]. injection Hstart as <-.
      unfold failures. simpl. by rewrite lookup_empty. }
    unfold rank in Hrank at 2. unfold pc_weight in Hrank. rewrite El, Ef in Hrank.
    destruct (svc_pc s0); case_match; lia.
  - destruct (svc_pc s) as [|i] eqn:Hp.
    + exists None, (outer s). split; [by constructor|]. unfold outer. by case_match.
    + destruct (Z.lt_ge_cases (svc_latestBlock s) i) as [Hi|Hi].
      * eexists None, _. split; [by eapply step_leave|done].
      * exists None, (fetch_failed i s). split; [by constructor|]. unfold fetch_failed.
        destruct (svc_isIndexerMarkedReady s); [done|]. by destruct (markFailedToIndexBlock _ _).
Qed.

(** *** No block is left out *)

(** How a step moves the last indexed block: by the block that was handed to the indexer,
    or, before the indexer is ready, past a block that failed eleven times.  What is
    recorded about the blocks below stays. *)
Lemma step_advance o s s' : step o s s' -> service_ok s ->
  (forall h, h <= svc_lastIndexedBlock s -> svc_failures s' !! h = svc_failures s !! h) /\
  match o with
  | Some i => i = svc_lastIndexedBlock s + 1 /\ svc_lastIndexedBlock s' = i
  | None => svc_lastIndexedBlock s' = svc_lastIndexedBlock s \/
            (svc_lastIndexedBlock s' = svc_lastIndexedBlock s + 1 /\ svc_isIndexerMarkedReady s = false /\
             svc_failures s' !! svc_lastIndexedBlock s' = Some (S startupIndexBlockFailureThreshold))
  end.
Proof.
  intros Hst [Hpc Hf]. destruct Hst as [h s Hh|s Hp|i s Hp Hi|i s Hp Hi|i block results s Hp Hi Hb Hn].
  - unfold new_head. case_match; split; auto.
  - unfold outer. case_match; split; auto.
  - split; auto.
  - apply Hpc in Hp as Ei. unfold fetch_failed. destruct (svc_isIndexerMarkedReady s); [split; auto|].
    specialize (Hf i ltac:(lia)). unfold failures, startupIndexBlockFailureThreshold in *.
    unfold markFailedToIndexBlock, startupIndexBlockFailureThreshold.
    destruct (svc_failures s !! i) as [cnt|] eqn:E; simpl in *.
    + split; [intros h Hh; by rewrite lookup_insert_ne by lia|].
      destruct (Nat.ltb_spec 10 (cnt + 1)); [right|by left]. rewrite lookup_insert_eq. repeat split; [done|]. f_equal. lia.
    + split; [intros h Hh; by rewrite lookup_insert_ne by lia|by left].
  - apply Hpc in Hp as Ei. unfold fetched. destruct (IndexBlock _ _ _ _) as [r txIdxr]. simpl. split; [|done].
    intros h Hh. case_match; [|done]. by rewrite lookup_delete_ne by lia.
Qed.

Lemma run_ok l n s s' : run l n s s' -> service_ok s -> service_ok s'.
Proof. induction 1; eauto using step_ok. Qed.

(** The blocks of a run: in order, all above the start, and none missing but those that
    failed eleven times. *)
Record covers (s0 : Service) (l : list Z) (s : Service) : Prop := {
  cov_mono : svc_lastIndexedBlock s0 <= svc_lastIndexedBlock s;
  cov_sorted : StronglySorted Z.lt l;
  cov_range h : h ∈ l -> svc_lastIndexedBlock s0 < h <= svc_lastIndexedBlock s;
  cov_all h : svc_lastIndexedBlock s0 < h <= svc_lastIndexedBlock s ->
    h ∈ l \/ svc_failures s !! h = Some (S startupIndexBlockFailureThreshold)
}.

Lemma StronglySorted_snoc (l : list Z) (x : Z) :
  StronglySorted Z.lt l -> (forall y, y ∈ l -> y < x) -> StronglySorted Z.lt (l ++ [x]).
Proof.
  induction 1 as [|y l Hl IH Hy]; intros Hx; simpl; [repeat constructor|]. constructor.
  - apply IH. intros z Hz. apply Hx. by right.
  - apply Forall_app. split; [done|]. repeat constructor. apply Hx. by left.
Qed.

Lemma run_covers l n s s' : run l n s s' -> service_ok s -> covers s l s'.
Proof.
  intros Hrun Hok. induction Hrun as [s|l n o s1 s2 s3 Hrun IH Hst].
  - split; [lia|constructor|by intros h ?%elem_of_nil|lia].
  - destruct (IH Hok) as [Hm Hs Hr Ha]. destruct (step_advance o s2 s3 Hst (run_ok _ _ _ _ Hrun Hok)) as [Hbelow Ho].
    destruct o as [i|]; simpl.
    + destruct Ho as [Ei El]. split; [lia| | |].
      * apply StronglySorted_snoc; [done|]. intros y Hy%Hr. lia.
      * intros h [Hh%Hr| ->%list_elem_of_singleton]%elem_of_app; lia.
      * intros h Hh. rewrite elem_of_app, list_elem_of_singleton. destruct (decide (h = i)) as [->|Hne]; [auto|].
        rewrite Hbelow by lia. destruct (Ha h); [lia|auto|auto].
    + rewrite app_nil_r. split; [lia|done| |].
      * intros h Hh%Hr. lia.
      * intros h Hh. destruct (decide (h <= svc_lastIndexedBlock s2)) as [Hle|Hgt].
        -- rewrite Hbelow by done. apply Ha. lia.
        -- destruct Ho as [Ho|(Ho & _ & Hf)]; [lia|]. right. by replace h with (svc_lastIndexedBlock s3) by lia.
Qed.

(** C25 No block is left out: the blocks handed to the indexer are in strictly increasing
    order, all lie between the starting block and the last indexed one, and every height
    in between was handed over or, before the indexer became ready, failed to be fetched
    eleven times.  Once the indexer is ready the heights follow one another without
    exception. *)
Theorem service_no_gap (latest earliest : Z) (txIdxr : KVIndexer) (s0 s1 s2 : Service) (l1 l2 : list Z) (n1 n2 : nat)
  (Hstart : OnStart latest earliest txIdxr = Ok s0) (Hrun1 : run l1 n1 s0 s1) (Hrun2 : run l2 n2 s1 s2) :
  covers s0 l1 s1 /\
  (svc_isIndexerMarkedReady s1 = true ->
   l2 = seqZ (svc_lastIndexedBlock s1 + 1) (svc_lastIndexedBlock s2 - svc_lastIndexedBlock s1)).
Proof.
  destruct (OnStart_ok _ _ _ _ Hstart) as [Hok0 _]. split; [by eapply run_covers|]. intros Hready.
  assert (service_ok s1) as Hok1 by eauto using run_ok. clear Hstart Hrun1 Hok0.
  enough (svc_isIndexerMarkedReady s2 = true /\ svc_lastIndexedBlock s1 <= svc_lastIndexedBlock s2 /\
    l2 = seqZ (svc_lastIndexedBlock s1 + 1) (svc_lastIndexedBlock s2 - svc_lastIndexedBlock s1)) by tauto.
  induction Hrun2 as [s|l n o s1 s2 s3 Hrun IH Hst]; [rewrite Z.sub_diag; auto with lia|].
  destruct (IH Hready Hok1) as (Hr2 & Hm & ->). destruct (step_mono o s2 s3 Hst) as [_ Hr3].
  destruct (step_advance o s2 s3 Hst (run_ok _ _ _ _ Hrun Hok1)) as [_ Ho]. split; [auto|].
  destruct o as [i|]; simpl.
  - destruct Ho as [-> ->]. split; [lia|].
    replace (svc_lastIndexedBlock s2 + 1 - svc_lastIndexedBlock s1) with (svc_lastIndexedBlock s2 - svc_lastIndexedBlock s1 + 1) by lia.
    rewrite seqZ_app by lia. f_equal.
    by replace (svc_lastIndexedBlock s1 + 1 + (svc_lastIndexedBlock s2 - svc_lastIndexedBlock s1)) with (svc_lastIndexedBlock s2 + 1) by lia.
  - rewrite app_nil_r. destruct Ho as [->|(_ & Hf & _)]; [done|by rewrite Hf in Hr2].
Qed.
End Proofs.
