(* ===== verification/NodeSetup.v ===== *)
(** * Setting up a node

    The configuration of the server and its validation (server/config/config.go), the
    namespaces it serves (rpc/apis.go), and the command that adds a vesting account to the
    genesis (cmd/evmd/genesis/add_vesting_account.go).  Reading and writing of files and
    flags, the JSON of the genesis, and the SDK's parsing of coins are parameters. *)

From Stdlib Require Import Strings.Ascii SpecFloat.
From stdpp Require Import base gmap list strings.
From S2P Require Import Prelude Sdk Geth EvmTypes ChainId Genesis Cpc.

(** ** Configuration *)

Record ServerEVMConfig : Type := mkServerEVMConfig { ec_Tracer : string }.
(** Durations are in nanoseconds; a float is a [spec_float] of binary64. *)
Record JSONRPCConfig : Type := mkJSONRPCConfig {
  jc_API : list string;
  jc_Address : string;
  jc_WsAddress : string;
  jc_GasCap : Z;
  jc_EVMTimeout : Z;
  jc_TxFeeCap : spec_float;
  jc_FilterCap : Z;
  jc_FeeHistoryCap : Z;
  jc_Enable : bool;
  jc_LogsCap : Z;
  jc_BlockRangeCap : Z;
  jc_HTTPTimeout : Z;
  jc_HTTPIdleTimeout : Z;
  jc_AllowInsecureUnlock : bool;
  jc_MaxOpenConnections : Z;
  jc_MetricsAddress : string
}.
Record TLSConfig : Type := mkTLSConfig { tls_CertificatePath : string; tls_KeyPath : string }.

Definition evmTracers : list string := ["json"; "markdown"; "struct"; "access_list"]%string.
Definition EVMConfig_Validate (c : ServerEVMConfig) : res unit :=
  if negb (bool_decide (ec_Tracer c = ""%string)) && negb (bool_decide (ec_Tracer c ∈ evmTracers)) then Err (Errorf "invalid tracer type")
  else Ok tt.

(** The loop over the namespaces with the map of those seen. *)
Fixpoint check_repeated (seenAPIs : gset string) (apis : list string) : res unit :=
  match apis with
  | [] => Ok tt
  | api :: apis' => if decide (api ∈ seenAPIs) then Err (Errorf "repeated API namespace") else check_repeated ({[api]} ∪ seenAPIs) apis'
  end.
Definition JSONRPCConfig_Validate (c : JSONRPCConfig) : res unit :=
  if jc_Enable c && (length (jc_API c) =? 0)%nat then Err (Errorf "cannot enable JSON-RPC without defining any API namespace")
  else if jc_FilterCap c <? 0 then Err (Errorf "JSON-RPC filter-cap cannot be negative")
  else if jc_FeeHistoryCap c <=? 0 then Err (Errorf "JSON-RPC feehistory-cap cannot be negative or 0")
  else if SFltb (jc_TxFeeCap c) (S754_zero false) then Err (Errorf "JSON-RPC tx fee cap cannot be negative")
  else if jc_EVMTimeout c <? 0 then Err (Errorf "JSON-RPC EVM timeout duration cannot be negative")
  else if jc_LogsCap c <? 0 then Err (Errorf "JSON-RPC logs cap cannot be negative")
  else if jc_BlockRangeCap c <? 0 then Err (Errorf "JSON-RPC block range cap cannot be negative")
  else if jc_HTTPTimeout c <? 0 then Err (Errorf "JSON-RPC HTTP timeout duration cannot be negative")
  else if jc_HTTPIdleTimeout c <? 0 then Err (Errorf "JSON-RPC HTTP idle timeout duration cannot be negative")
  else check_repeated ∅ (jc_API c).

(** [path.Ext]: from the last dot of the last element on. *)
Fixpoint ext_of (rev_path suffix : list ascii) : list ascii :=
  match rev_path with
  | [] => []
  | c :: rest => if decide (c = "/"%char) then [] else if decide (c = "."%char) then c :: suffix else ext_of rest (c :: suffix)
  end.
Definition path_Ext (path : string) : string := String.string_of_list_ascii (ext_of (rev (String.list_ascii_of_string path)) []).
Definition TLSConfig_Validate (c : TLSConfig) : res unit :=
  if negb (bool_decide (tls_CertificatePath c = ""%string)) && negb (bool_decide (path_Ext (tls_CertificatePath c) = ".pem"%string))
  then Err (Errorf "invalid extension for certificate path")
  else if negb (bool_decide (tls_KeyPath c = ""%string)) && negb (bool_decide (path_Ext (tls_KeyPath c) = ".pem"%string))
  then Err (Errorf "invalid extension for key path")
  else Ok tt.

(** [sdk_ok] is the validation of the SDK's part. *)
Definition Config_ValidateBasic (evm : ServerEVMConfig) (json : JSONRPCConfig) (tls : TLSConfig) (sdk_ok : res unit) : res unit :=
  wrap_res (Errorf "invalid evm config value") (EVMConfig_Validate evm) ;;
  wrap_res (Errorf "invalid json-rpc config value") (JSONRPCConfig_Validate json) ;;
  wrap_res (Errorf "invalid tls config value") (TLSConfig_Validate tls) ;;
  sdk_ok.

Definition GetDefaultAPINamespaces : list string := ["eth"; "net"; "web3"]%string.
Definition GetAPINamespaces : list string := ["web3"; "eth"; "personal"; "net"; "txpool"; "debug"; "miner"]%string.
Definition Second : Z := 10 ^ 9.
Definition DefaultEVMConfig : ServerEVMConfig := mkServerEVMConfig "".
Definition DefaultJSONRPCConfig : JSONRPCConfig :=
  mkJSONRPCConfig GetDefaultAPINamespaces "127.0.0.1:8545" "127.0.0.1:8546" 25000000 (5 * Second) (binary_normalize 53 1024 1 0 false)
    200 100 true 10000 10000 (30 * Second) (120 * Second) false 0 "127.0.0.1:6065".
Definition DefaultTLSConfig : TLSConfig := mkTLSConfig "" "".

Lemma check_repeated_spec seen apis : check_repeated seen apis = Ok tt <-> NoDup apis /\ forall a, a ∈ apis -> a ∉ seen.
Proof.
  revert seen. induction apis as [|a apis IH]; intros seen; cbn [check_repeated].
  { split; [|done]. intros _. split; [constructor|by intros ? ?%not_elem_of_nil]. }
  rewrite NoDup_cons. case_decide as Hs.
  - split; [done|]. intros [_ H]. by destruct (H a); [left|].
  - rewrite IH. split.
    + intros [Hn H]. split_and!; [intros Ha; apply (H a Ha); set_solver|done|]. intros b [->|Hb]%elem_of_cons; [done|]. specialize (H b Hb). set_solver.
    + intros [[Ha Hn] H]. split; [done|]. intros b Hb. assert (b <> a) by (by intros ->). specialize (H b (list_elem_of_further _ _ _ Hb)). set_solver.
Qed.

(** The configuration of the JSON-RPC server passes its validation exactly if no cap and no
    time-out is negative, the history of fees has a positive cap, and the namespaces,
    of which an enabled server has one, are pairwise different. *)
Theorem json_rpc_config_valid (c : JSONRPCConfig) : JSONRPCConfig_Validate c = Ok tt <->
  (jc_Enable c = true -> jc_API c <> []) /\ NoDup (jc_API c) /\ 0 < jc_FeeHistoryCap c /\ SFltb (jc_TxFeeCap c) (S754_zero false) = false /\
  Forall (fun z => 0 <= z) [jc_FilterCap c; jc_EVMTimeout c; jc_LogsCap c; jc_BlockRangeCap c; jc_HTTPTimeout c; jc_HTTPIdleTimeout c].
Proof.
  unfold JSONRPCConfig_Validate. rewrite !Forall_cons.
  assert (jc_Enable c && (length (jc_API c) =? 0)%nat = false <-> (jc_Enable c = true -> jc_API c <> [])) as He.
  { destruct (jc_Enable c), (jc_API c); cbn; naive_solver. }
  destruct (_ && _); [naive_solver|]. apply proj1 in He. specialize (He eq_refl).
  destruct (Z.ltb_spec (jc_FilterCap c) 0); [split; [done|lia]|]. destruct (Z.leb_spec (jc_FeeHistoryCap c) 0); [split; [done|lia]|].
  destruct (SFltb _ _); [naive_solver|]. destruct (Z.ltb_spec (jc_EVMTimeout c) 0); [split; [done|lia]|].
  destruct (Z.ltb_spec (jc_LogsCap c) 0); [split; [done|lia]|]. destruct (Z.ltb_spec (jc_BlockRangeCap c) 0); [split; [done|lia]|].
  destruct (Z.ltb_spec (jc_HTTPTimeout c) 0); [split; [done|lia]|]. destruct (Z.ltb_spec (jc_HTTPIdleTimeout c) 0); [split; [done|lia]|].
  rewrite check_repeated_spec. split; [|intros (_ & Hn & _); split; [done|set_solver]].
  intros [Hn _]. split_and!; done.
Qed.
Example default_config_valid : Config_ValidateBasic DefaultEVMConfig DefaultJSONRPCConfig DefaultTLSConfig (Ok tt) = Ok tt.
Proof. by vm_compute. Qed.

(** ** Namespaces *)

Inductive ApiService : Type := EthApi | FiltersApi | Web3Api | NetApi | PersonalApi | TxPoolApi | DebugApi | MinerApi.
Record API : Type := mkAPI { api_Namespace : string; api_Service : ApiService; api_Public : bool }.

Definition apiCreators : gmap string (list API) := list_to_map [
  ("eth", [mkAPI "eth" EthApi true; mkAPI "eth" FiltersApi true]);
  ("web3", [mkAPI "web3" Web3Api true]);
  ("net", [mkAPI "net" NetApi true]);
  ("personal", [mkAPI "personal" PersonalApi false]);
  ("txpool", [mkAPI "txpool" TxPoolApi true]);
  ("debug", [mkAPI "debug" DebugApi true]);
  ("miner", [mkAPI "miner" MinerApi false])]%string.
(** An unknown namespace is logged and skipped. *)
Fixpoint GetRPCAPIs (creators : gmap string (list API)) (selectedAPIs : list string) : list API :=
  match selectedAPIs with
  | [] => []
  | ns :: rest => default [] (creators !! ns) ++ GetRPCAPIs creators rest
  end.
Definition RegisterAPINamespace (creators : gmap string (list API)) (ns : string) (creator : list API) : res (gmap string (list API)) :=
  match creators !! ns with
  | Some _ => Err (Errorf "duplicated api namespace")
  | None => Ok (<[ns := creator]> creators)
  end.

(** Every creator makes services of its own namespace, each once. *)
Definition own (creators : gmap string (list API)) : Prop :=
  forall ns l, creators !! ns = Some l -> NoDup l /\ forall api, api ∈ l -> api_Namespace api = ns.
Lemma own_apiCreators : own apiCreators.
Proof.
  intros ns l Hl. unfold apiCreators in Hl. apply elem_of_list_to_map_2 in Hl.
  repeat (apply elem_of_cons in Hl as [[= -> ->]|Hl]; [split; [repeat constructor; rewrite ?elem_of_cons, ?elem_of_nil; intuition congruence|
    intros api Ha; rewrite !elem_of_cons, elem_of_nil in Ha; naive_solver]|]). by apply not_elem_of_nil in Hl.
Qed.
Lemma own_register creators creators' ns creator : own creators -> NoDup creator -> (forall api, api ∈ creator -> api_Namespace api = ns) ->
  RegisterAPINamespace creators ns creator = Ok creators' -> own creators' /\ creators ⊆ creators'.
Proof.
  unfold RegisterAPINamespace. intros Ho Hn Hc. destruct (creators !! ns) eqn:E; [done|]. intros [= <-]. split; [|by apply insert_subseteq].
  intros ns' l [[<- <-]|[_ Hl]]%lookup_insert_Some; [done|by apply Ho].
Qed.

(** With different namespaces selected, as a valid configuration has them, the server offers
    each service of a known selected namespace once, and no other: a private service only if
    its namespace was asked for. *)
Theorem served_apis_exact (creators : gmap string (list API)) (selected : list string) (Hown : own creators) (Hsel : NoDup selected) :
  NoDup (GetRPCAPIs creators selected) /\
  forall api, api ∈ GetRPCAPIs creators selected <->
    api_Namespace api ∈ selected /\ exists l, creators !! api_Namespace api = Some l /\ api ∈ l.
Proof.
  induction Hsel as [|ns selected Hns _ [IHn IH]]; cbn [GetRPCAPIs].
  { split; [constructor|]. intros api. rewrite !elem_of_nil. naive_solver. }
  assert (forall api, api ∈ default [] (creators !! ns) -> api_Namespace api = ns /\ exists l, creators !! ns = Some l /\ api ∈ l) as Hd.
  { intros api. destruct (creators !! ns) as [l|] eqn:E; [|by intros ?%not_elem_of_nil]. intros Ha. split; [by apply (Hown ns l)|eauto]. }
  split.
  - apply NoDup_app. split_and!; [|intros api [Hn _]%Hd [Hin _]%IH; congruence|done].
    destruct (creators !! ns) as [l|] eqn:E; [by apply (Hown ns l)|constructor].
  - intros api. rewrite elem_of_app, IH, elem_of_cons. split.
    + intros [[Hn H]%Hd|[Hin H]]; [|by auto]. rewrite Hn. auto.
    + intros [[Hn|Hin] (l & Hl & Ha)]; [left|right; eauto]. rewrite <- Hn, Hl. done.
Qed.

(** ** Vesting accounts in the genesis *)

Inductive VestingKind : Type := ContinuousVesting (startTime endTime : Z) | DelayedVesting (endTime : Z) | PermanentLocked.
(** [None] for the accounts the command does not make. *)
Record GenAccount : Type := mkGenAccount {
  ga_address : bytes;
  ga_AccountNumber : Z;
  ga_Sequence : Z;
  ga_Vesting : option (Coins * VestingKind)
}.
(** The accounts of auth, the balances and the supply of bank. *)
Record AppGenesis : Type := mkAppGenesis {
  ag_Accounts : list GenAccount;
  ag_Balances : list (string * Coins);
  ag_Supply : Coins
}.

Class GenesisLib : Type := {
  ParseCoinsNormalized : string -> res Coins;
  (** sorted, without repetition, positive; and the sum of such coins *)
  Coins_IsValid : Coins -> bool;
  Coins_Add : Coins -> Coins -> Coins;
  (** what the constructor of the SDK's account says *)
  vesting_Validate : GenAccount -> res unit
}.

Definition Bech32Prefix : string := "evm".
Definition BaseDenom : string := "wei".

Section Vesting.
Context {HX : HexText} {B : Bech32} {GL : GenesisLib}.

Definition trim (s : string) : string := String.string_of_list_ascii (TrimSpace (String.list_ascii_of_string s)).
Definition input_address (arg : string) : res (string * bytes) :=
  let inputAddr := ToLower (trim arg) in
  bech32Addr ← (if String.prefix "0x" inputAddr
                then if negb (IsHexAddress inputAddr) then Err (Errorf "invalid 0x address")
                     else Ok (AccAddressString (farr_bytes (HexToAddress inputAddr)))
                else Ok inputAddr);
  decoded ← wrap_res (Errorf "invalid bech32 address") (DecodeAndConvert bech32Addr);
  let '(hrp, addrBz) := decoded in
  if negb (bool_decide (hrp = Bech32Prefix)) then Err (Errorf "invalid bech32 prefix")
  else if negb (length addrBz =? 20)%nat then Err (Errorf "invalid bech32 address, require 20 bytes address")
  else Ok (bech32Addr, addrBz).
Definition input_amount (arg : string) : res Coins :=
  coins ← wrap_res (Errorf "invalid amount") (ParseCoinsNormalized (trim arg));
  if (length coins =? 0)%nat || negb (forallb (fun c => 0 <? c.2) coins) then Err (Errorf "invalid amount")
  else match coins with
  | [(denom, _)] => if bool_decide (denom = BaseDenom) then Ok coins else Err (Errorf "can only add only one coin of native")
  | _ => Err (Errorf "can only add only one coin of native")
  end.

(** The flags that were given, and the dates of the flags. *)
Record VestingFlags : Type := mkVestingFlags {
  vf_Continuous : bool;
  vf_Delayed : bool;
  vf_Permanent : bool;
  vf_StartDate : res Z;
  vf_EndDate : res Z
}.
Definition sumBool (bs : list bool) : nat := length (filter (fun b => b = true) bs).

Fixpoint highest_number (addrBz : bytes) (accounts : list GenAccount) (highest : Z) : res Z :=
  match accounts with
  | [] => Ok highest
  | account :: accounts' =>
      if bool_decide (ga_address account = addrBz) then Err (Errorf "account already exists")
      else highest_number addrBz accounts' (if highest <? ga_AccountNumber account then ga_AccountNumber account else highest)
  end.
Definition vesting_kind (flags : VestingFlags) : res VestingKind :=
  if vf_Continuous flags then
    startDate ← wrap_res (Errorf "failed to read start date") (vf_StartDate flags);
    endDate ← wrap_res (Errorf "failed to read end date") (vf_EndDate flags);
    if negb (startDate <? endDate) then Err (Errorf "end date must be after start date") else Ok (ContinuousVesting startDate endDate)
  else if vf_Delayed flags then
    endDate ← wrap_res (Errorf "failed to read end date") (vf_EndDate flags);
    Ok (DelayedVesting endDate)
  else if vf_Permanent flags then Ok PermanentLocked
  else Err (Errorf "unknown vesting type").
Fixpoint add_balance (bech32Addr : string) (coins : Coins) (balances : list (string * Coins)) : list (string * Coins) :=
  match balances with
  | [] => [(bech32Addr, coins)]
  | (address, old) :: rest =>
      if bool_decide (address = bech32Addr) then (address, Coins_Add old coins) :: rest
      else (address, old) :: add_balance bech32Addr coins rest
  end.

(** The genesis file is only written when all went well. *)
Definition AddVestingAccount (address amount : string) (flags : VestingFlags) (g : AppGenesis) : res AppGenesis :=
  addr ← input_address address;
  let '(bech32Addr, addrBz) := addr in
  coins ← input_amount amount;
  if negb (sumBool [vf_Continuous flags; vf_Delayed flags; vf_Permanent flags] =? 1)%nat then Err (Errorf "exactly one must be specified")
  else
    highestAccountNumber ← highest_number addrBz (ag_Accounts g) 0;
    kind ← vesting_kind flags;
    let account := mkGenAccount addrBz (add64 highestAccountNumber 1) 0 (Some (coins, kind)) in
    wrap_res (Errorf "failed to create vesting account") (vesting_Validate account) ;;
    Ok (mkAppGenesis (ag_Accounts g ++ [account]) (add_balance bech32Addr coins (ag_Balances g)) (Coins_Add (ag_Supply g) coins)).

(** *** What a genesis promises, and that the command keeps it *)

Definition total (balances : list (string * Coins)) (denom : string) : Z := foldr Z.add 0 ((fun b => AmountOf b.2 denom) <$> balances).
Fixpoint balance_at (balances : list (string * Coins)) (address denom : string) : Z :=
  match balances with
  | [] => 0
  | (a, coins) :: rest => if bool_decide (a = address) then AmountOf coins denom else balance_at rest address denom
  end.
Record genesis_ok (g : AppGenesis) : Prop := {
  go_addresses : NoDup (ga_address <$> ag_Accounts g);
  go_numbers : NoDup (ga_AccountNumber <$> ag_Accounts g);
  go_balances : NoDup ((ag_Balances g).*1);
  go_valid : Forall (fun b => Coins_IsValid b.2 = true) (ag_Balances g) /\ Coins_IsValid (ag_Supply g) = true;
  go_supply denom : AmountOf (ag_Supply g) denom = total (ag_Balances g) denom
}.
(** The SDK adds valid coins denomination by denomination; one positive coin is valid. *)
Definition adds : Prop :=
  (forall x, 0 < x -> Coins_IsValid [(BaseDenom, x)] = true) /\
  forall a b, Coins_IsValid a = true -> Coins_IsValid b = true ->
    Coins_IsValid (Coins_Add a b) = true /\ forall denom, AmountOf (Coins_Add a b) denom = AmountOf a denom + AmountOf b denom.

Lemma highest_number_spec addrBz accounts start highest : highest_number addrBz accounts start = Ok highest ->
  (addrBz ∉ ga_address <$> accounts) /\ start <= highest /\ (forall a, a ∈ accounts -> ga_AccountNumber a <= highest) /\
  (highest = start \/ exists a, a ∈ accounts /\ highest = ga_AccountNumber a).
Proof.
  revert start. induction accounts as [|a accounts IH]; intros start; cbn [highest_number].
  { intros [= ->]. split_and!; [apply not_elem_of_nil|lia|by intros ? ?%not_elem_of_nil|by left]. }
  case_bool_decide as Ha; [done|]. intros (Hn & Hle & Hall & Hex)%IH.
  destruct (Z.ltb_spec start (ga_AccountNumber a)); (split_and!; [cbn; rewrite not_elem_of_cons; split; [congruence|done]|lia| |]).
  1, 3: intros b [->|Hb]%elem_of_cons; [lia|by apply Hall].
  - right. destruct Hex as [->|(b & Hb & ->)]; [exists a|exists b]; split; [by left|done|by right|done].
  - destruct Hex as [->|(b & Hb & ->)]; [by left|right; exists b; split; [by right|done]].
Qed.

Abbreviation valid_balances bs := (Forall (fun b => Coins_IsValid (snd b) = true) bs).
Lemma add_balance_valid (Hadd : adds) addr coins balances : Coins_IsValid coins = true -> valid_balances balances ->
  valid_balances (add_balance addr coins balances).
Proof.
  intros Hc. induction 1 as [|[a old] balances Ho Hb IH]; cbn [add_balance]; [by repeat constructor|].
  case_bool_decide; constructor; try done. by apply Hadd.
Qed.
Lemma add_balance_total (Hadd : adds) addr coins balances denom : Coins_IsValid coins = true -> valid_balances balances ->
  total (add_balance addr coins balances) denom = total balances denom + AmountOf coins denom.
Proof.
  intros Hc. induction 1 as [|[a old] balances Ho Hb IH]; cbn [add_balance]; [cbn; lia|].
  case_bool_decide; cbn; [rewrite (proj2 (proj2 Hadd _ _ Ho Hc)); unfold total; cbn; lia|]. unfold total in IH. cbn in IH. rewrite IH. lia.
Qed.
Lemma add_balance_at (Hadd : adds) addr coins balances address denom : Coins_IsValid coins = true -> valid_balances balances ->
  balance_at (add_balance addr coins balances) address denom = balance_at balances address denom + (if bool_decide (address = addr) then AmountOf coins denom else 0).
Proof.
  intros Hc. induction 1 as [|[a old] balances Ho Hb IH]; cbn [add_balance balance_at].
  { repeat case_bool_decide; subst; done || lia. }
  destruct (bool_decide_reflect (a = addr)) as [->|Ha]; cbn [balance_at].
  - destruct (bool_decide_reflect (addr = address)) as [<-|]; [rewrite bool_decide_eq_true_2 by done; by apply Hadd|].
    rewrite bool_decide_eq_false_2 by congruence. lia.
  - destruct (bool_decide_reflect (a = address)) as [->|]; [rewrite bool_decide_eq_false_2 by done; lia|apply IH].
Qed.
Lemma add_balance_addresses addr coins balances x : x ∈ (add_balance addr coins balances).*1 <-> x ∈ balances.*1 \/ x = addr.
Proof.
  induction balances as [|[a old] balances IH]; cbn [add_balance].
  - cbn. rewrite !elem_of_cons, elem_of_nil. naive_solver.
  - case_bool_decide; cbn [fmap list_fmap fst]; rewrite !elem_of_cons; [naive_solver|]. change (list_fmap _ _ fst ?l) with (l.*1). rewrite IH. naive_solver.
Qed.
Lemma add_balance_nodup addr coins balances : NoDup (balances.*1) -> NoDup ((add_balance addr coins balances).*1).
Proof.
  induction balances as [|[a old] balances IH]; cbn [add_balance]; [intros _; repeat constructor; apply not_elem_of_nil|].
  cbn. intros [Hn Hd]%NoDup_cons. case_bool_decide; cbn; constructor; try done; [|by apply IH]. rewrite (add_balance_addresses addr coins balances a). naive_solver.
Qed.

Lemma input_amount_spec arg coins : input_amount arg = Ok coins -> exists amount, 0 < amount /\ coins = [(BaseDenom, amount)].
Proof.
  unfold input_amount. intros (cs & _ & H)%res_bind_ok_inv. destruct cs as [|[denom amount] [|]]; [done| |by destruct (_ || _)].
  cbn in H. destruct (Z.ltb_spec 0 amount); [|done]. cbn in H. case_bool_decide; [|done]. injection H as <-. subst. eauto.
Qed.

(** The command that adds a vesting account keeps a genesis sound: accounts with distinct
    addresses and numbers, one balance for each address, and a supply that is the sum of the
    balances; it adds one account, which was not there before, with the whole amount
    vesting, gives the amount to its address, and changes nothing else. *)
Theorem vesting_account_keeps_genesis (address amount : string) (flags : VestingFlags) (g g' : AppGenesis) (Hadd : adds) (Hok : genesis_ok g)
    (Hnumbers : forall a, a ∈ ag_Accounts g -> 0 <= ga_AccountNumber a < MaxUint64)
    (Hrun : AddVestingAccount address amount flags g = Ok g') :
  genesis_ok g' /\ exists bech32Addr addrBz x kind number, 0 < x /\ input_address address = Ok (bech32Addr, addrBz) /\
    (addrBz ∉ ga_address <$> ag_Accounts g) /\
    ag_Accounts g' = ag_Accounts g ++ [mkGenAccount addrBz number 0 (Some ([(BaseDenom, x)], kind))] /\
    forall a denom, balance_at (ag_Balances g') a denom =
      balance_at (ag_Balances g) a denom + (if bool_decide (a = bech32Addr) then AmountOf [(BaseDenom, x)] denom else 0).
Proof.
  unfold AddVestingAccount in Hrun. apply res_bind_ok_inv in Hrun as ([bech32Addr addrBz] & Ha & Hrun).
  apply res_bind_ok_inv in Hrun as (coins & (x & Hx & ->)%input_amount_spec & Hrun). destruct (negb _); [done|].
  apply res_bind_ok_inv in Hrun as (highest & (Hnew & Hle & Hall & Hex)%highest_number_spec & Hrun).
  apply res_bind_ok_inv in Hrun as (kind & _ & Hrun). apply res_bind_ok_inv in Hrun as (? & _ & [= <-]).
  assert (add64 highest 1 = highest + 1) as Hn.
  { unfold add64, wrap64. apply Z.mod_small. unfold MaxUint64 in *. destruct Hex as [->|(a & Hin & ->)]; [lia|]. apply Hnumbers in Hin. lia. }
  assert (Coins_IsValid [(BaseDenom, x)] = true) as Hv by (by apply Hadd). destruct Hok as [Hok1 Hok2 Hok3 [Hok4 Hok5] Hok6].
  split; [split; cbn [ag_Accounts ag_Balances ag_Supply]|].
  - rewrite fmap_app. apply NoDup_app. split_and!; [done|intros b Hb ->%list_elem_of_singleton; by apply Hnew|apply NoDup_singleton].
  - rewrite fmap_app. apply NoDup_app. split_and!; [done| |apply NoDup_singleton].
    intros b (a & -> & Hin)%list_elem_of_fmap E%list_elem_of_singleton. cbn in E. rewrite Hn in E. apply Hall in Hin. lia.
  - by apply add_balance_nodup.
  - split; [by apply add_balance_valid|by apply Hadd].
  - intros denom. rewrite (proj2 (proj2 Hadd _ _ Hok5 Hv)), add_balance_total by done. by rewrite Hok6.
  - exists bech32Addr, addrBz, x, kind, (add64 highest 1). split_and!; try done. intros a denom. by apply add_balance_at.
Qed.
End Vesting.
