(* ===== verification/Profiler.v ===== *)
(** * Profiles and runtime traces of the namespace debug

    The handler of the namespace debug that keeps the files of a running CPU profile and of
    a running trace (StartCPUProfile, StopCPUProfile, writeProfile and ExpandHome of
    rpc/namespaces/ethereum/debug/api.go and utils.go, StartGoTrace and StopGoTrace of
    trace.go).  The state is the handler and what it uses of the process: its open files and
    whether the runtime is profiling or tracing.  Whether a file can be created, written
    and closed is an argument of each call. *)

From Stdlib Require Import Strings.Ascii.
From stdpp Require Import base gmap list strings.
From S2P Require Import Prelude.

Record HandlerT : Type := mkHandlerT {
  cpuFilename : string;
  cpuFile : option Z;
  traceFilename : string;
  traceFile : option Z
}.
Record Process : Type := mkProcess {
  handler : HandlerT;
  open_files : gset Z;
  next_file : Z;
  profiling : bool;
  tracing : bool
}.
Definition NewHandler : Process := mkProcess (mkHandlerT "" None "" None) ∅ 0 false false.

(** What the system does in a call. *)
Record SystemCalls : Type := mkSystemCalls {
  create_ok : bool;
  write_ok : bool;
  close_ok : bool
}.
Class FileLib : Type := {
  user_HomeDir : res string;
  filepath_Clean : string -> string;
  (** the flag cpu-profile *)
  cpu_profile_flag : string
}.

Section Profiler.
Context {FL : FileLib}.

Definition ExpandHome (p : string) : res string :=
  if String.prefix "~/" p || String.prefix (String "~" (String (ascii_of_N 92) "")) p
  then home ← user_HomeDir; Ok (filepath_Clean (home ++ String.substring 1 (String.length p - 1) p))
  else Ok (filepath_Clean p).

Definition set_handler (f : HandlerT -> HandlerT) (p : Process) : Process :=
  mkProcess (f (handler p)) (open_files p) (next_file p) (profiling p) (tracing p).
Definition set_runtime (profile trace : bool) (p : Process) : Process :=
  mkProcess (handler p) (open_files p) (next_file p) profile trace.

Definition os_Create (s : SystemCalls) : M Process Z := fun p =>
  if create_ok s
  then (Ok (next_file p), mkProcess (handler p) ({[next_file p]} ∪ open_files p) (next_file p + 1) (profiling p) (tracing p))
  else (Err (Errorf "open failed"), p).
(** A file is closed even if the call reports an error; a closed file cannot be closed. *)
Definition File_Close (s : SystemCalls) (f : Z) : M Process unit := fun p =>
  let p' := mkProcess (handler p) (open_files p ∖ {[f]}) (next_file p) (profiling p) (tracing p) in
  (if bool_decide (f ∈ open_files p) && close_ok s then Ok tt else Err (Errorf "close failed"), p').

Definition isCPUProfileConfigurationActivated : bool := negb (bool_decide (cpu_profile_flag = ""%string)).

(** [pprof.StartCPUProfile] and [trace.Start] fail when the runtime does it already. *)
Definition StartCPUProfile (s : SystemCalls) (file : string) : M Process unit :=
  p ← gets (fun p => p);
  if isCPUProfileConfigurationActivated then err (Errorf "CPU profiling already in progress using the configuration file")
  else if bool_decide (is_Some (cpuFile (handler p))) then err (Errorf "CPU profiling already in progress")
  else
    lift_res (ExpandHome file) ;;
    f ← os_Create s;
    if profiling p then File_Close s f ;; err (Errorf "cpu profiling already in use")
    else
      modify (fun p => set_runtime true (tracing p) p) ;;
      modify (set_handler (fun h => mkHandlerT file (Some f) (traceFilename h) (traceFile h))).

Definition StopCPUProfile (s : SystemCalls) : M Process unit :=
  p ← gets (fun p => p);
  if isCPUProfileConfigurationActivated then err (Errorf "CPU profiling already in progress using the configuration file")
  else match cpuFile (handler p) with
  | Some f =>
      modify (fun p => set_runtime false (tracing p) p) ;;
      File_Close s f ;;
      modify (set_handler (fun h => mkHandlerT "" None (traceFilename h) (traceFile h)))
  | None => err (Errorf "CPU profiling not in progress")
  end.

Definition StartGoTrace (s : SystemCalls) (file : string) : M Process unit :=
  p ← gets (fun p => p);
  if bool_decide (is_Some (traceFile (handler p))) then err (Errorf "trace already in progress")
  else
    lift_res (ExpandHome file) ;;
    f ← os_Create s;
    if tracing p then File_Close s f ;; err (Errorf "tracing is already enabled")
    else
      modify (fun p => set_runtime (profiling p) true p) ;;
      modify (set_handler (fun h => mkHandlerT (cpuFilename h) (cpuFile h) file (Some f))).

Definition StopGoTrace (s : SystemCalls) : M Process unit :=
  modify (fun p => set_runtime (profiling p) false p) ;;
  p ← gets (fun p => p);
  match traceFile (handler p) with
  | None => err (Errorf "trace not in progress")
  | Some f =>
      File_Close s f ;;
      modify (set_handler (fun h => mkHandlerT (cpuFilename h) (cpuFile h) "" None))
  end.

Definition writeProfile (s : SystemCalls) (file : string) : M Process unit :=
  lift_res (ExpandHome file) ;;
  f ← os_Create s;
  if write_ok s then File_Close s f else File_Close s f ;; err (Errorf "write failed").

(** ** Requests *)

Inductive request : Type :=
  | RStartCPU (file : string) | RStopCPU | RStartTrace (file : string) | RStopTrace | RWrite (file : string).
Definition serve (r : request) (s : SystemCalls) : M Process unit :=
  match r with
  | RStartCPU file => StartCPUProfile s file
  | RStopCPU => StopCPUProfile s
  | RStartTrace file => StartGoTrace s file
  | RStopTrace => StopGoTrace s
  | RWrite file => writeProfile s file
  end.
Fixpoint serve_all (l : list (request * SystemCalls)) (p : Process) : Process :=
  match l with
  | [] => p
  | (r, s) :: l' => serve_all l' (snd (serve r s p))
  end.

(** The open files are those of the handler, two different ones; and the runtime profiles and
    traces exactly while the handler has a file for it. *)
Definition held (p : Process) : gset Z :=
  match cpuFile (handler p) with Some f => {[f]} | None => ∅ end ∪ match traceFile (handler p) with Some f => {[f]} | None => ∅ end.
Record handler_ok (p : Process) : Prop := {
  ho_open : open_files p = held p;
  ho_fresh f : f ∈ open_files p -> f < next_file p;
  ho_profiling : profiling p = bool_decide (is_Some (cpuFile (handler p)));
  ho_tracing : tracing p = bool_decide (is_Some (traceFile (handler p)));
  ho_apart f : cpuFile (handler p) = Some f -> traceFile (handler p) <> Some f
}.

Lemma held_lt p f : handler_ok p -> f ∈ held p -> f < next_file p.
Proof. intros H. rewrite <- (ho_open p H). apply (ho_fresh p H). Qed.
Lemma create_close p s : handler_ok p -> close_ok s = true -> forall f p', os_Create s p = (Ok f, p') ->
  f = next_file p /\ (File_Close s f p').1 = Ok tt /\ handler_ok (File_Close s f p').2.
Proof.
  intros H Hc f p'. unfold os_Create. destruct (create_ok s); [|done]. intros [= <- <-]. split; [done|]. unfold File_Close. cbn.
  rewrite bool_decide_eq_true_2 by set_solver. rewrite Hc. split; [done|]. destruct H as [Ho Hf Hp Ht Ha].
  assert (next_file p ∉ open_files p) as Hn by (intros ?%Hf; lia).
  split; cbn; [|intros g ?; assert (g < next_file p) by (apply Hf; set_solver); lia|done..].
  replace (({[next_file p]} ∪ open_files p) ∖ {[next_file p]}) with (open_files p) by set_solver. exact Ho.
Qed.

(** A new file taken for the profile or for the trace; the file of either given back. *)
Lemma start_ok p s (cpu : bool) name f p' : handler_ok p -> os_Create s p = (Ok f, p') ->
  (if cpu then cpuFile (handler p) else traceFile (handler p)) = None ->
  handler_ok (if cpu
    then set_handler (fun h => mkHandlerT name (Some f) (traceFilename h) (traceFile h)) (set_runtime true (tracing p') p')
    else set_handler (fun h => mkHandlerT (cpuFilename h) (cpuFile h) name (Some f)) (set_runtime (profiling p') true p')).
Proof.
  intros [Ho Hf Hp Ht Ha]. unfold os_Create. destruct (create_ok s); [|done]. intros [= <- <-] Hnone.
  assert (next_file p ∉ open_files p) as Hn by (intros ?%Hf; lia). rewrite Ho in Hf, Hn |- *. unfold held in *.
  destruct cpu; rewrite Hnone in *; (split; cbn; unfold held; cbn; rewrite ?Hp, ?Ht; [set_solver| | | |]);
    try (rewrite bool_decide_eq_true_2 by eauto); try done.
  1, 3: intros g [->%elem_of_singleton|Hg]%elem_of_union; [lia|]; apply Hf in Hg; lia.
  - intros g [= <-] Heq. apply Hn. rewrite Heq. set_solver.
  - intros g Hg [= <-]. apply Hn. rewrite Hg. set_solver.
Qed.
Lemma stop_ok p s (cpu : bool) f : handler_ok p -> close_ok s = true ->
  (if cpu then cpuFile (handler p) else traceFile (handler p)) = Some f ->
  let q := if cpu then set_runtime false (tracing p) p else set_runtime (profiling p) false p in
  exists q', File_Close s f q = (Ok tt, q') /\ handler_ok (if cpu
    then set_handler (fun h => mkHandlerT "" None (traceFilename h) (traceFile h)) q'
    else set_handler (fun h => mkHandlerT (cpuFilename h) (cpuFile h) "" None) q').
Proof.
  intros [Ho Hf Hp Ht Ha] Hc Hfile q. assert (f ∈ open_files p) as Hin by (rewrite Ho; unfold held; destruct cpu; rewrite Hfile; set_solver).
  unfold q, File_Close, set_runtime. destruct cpu; cbn; rewrite bool_decide_eq_true_2, Hc by done; (eexists; split; [done|]);
    (split; cbn; unfold held; cbn; [|intros g Hg; apply Hf; set_solver|done|done|done]); rewrite Ho; unfold held; rewrite Hfile.
  - destruct (traceFile (handler p)) as [g|] eqn:Eg; [|set_solver]. assert (g <> f) by (intros ->; by apply (Ha f)). set_solver.
  - destruct (cpuFile (handler p)) as [g|] eqn:Eg; [|set_solver]. assert (g <> f) by (intros ->; by apply (Ha f)). set_solver.
Qed.

Lemma serve_ok r s p : handler_ok p -> close_ok s = true -> handler_ok (snd (serve r s p)).
Proof.
  intros H Hc. pose proof (create_close p s H Hc) as Hcc.
  destruct r as [file| |file| |file]; cbn [serve]; unfold StartCPUProfile, StopCPUProfile, StartGoTrace, StopGoTrace, writeProfile, mbind, M_bind, gets, lift_res, err, modify; cbn beta iota.
  - destruct isCPUProfileConfigurationActivated; [done|]. case_bool_decide as Hn; [done|]. destruct (ExpandHome file); [|done|done].
    destruct (os_Create s p) as [[f| |] p'] eqn:E; [| |]; cycle 1.
    1, 2: unfold os_Create in E; destruct (create_ok s); by simplify_eq.
    assert (profiling p = false) as -> by (rewrite (ho_profiling p H); by apply bool_decide_eq_false_2).
    apply (start_ok p s true file f p' H E). by apply eq_None_not_Some.
  - destruct isCPUProfileConfigurationActivated; [done|]. destruct (cpuFile (handler p)) as [f|] eqn:Ef; [|done].
    destruct (stop_ok p s true f H Hc Ef) as (q & Hq & Hok). by rewrite Hq.
  - case_bool_decide as Hn; [done|]. destruct (ExpandHome file); [|done|done]. destruct (os_Create s p) as [[f| |] p'] eqn:E; [| |]; cycle 1.
    1, 2: unfold os_Create in E; destruct (create_ok s); by simplify_eq.
    assert (tracing p = false) as -> by (rewrite (ho_tracing p H); by apply bool_decide_eq_false_2).
    apply (start_ok p s false file f p' H E). by apply eq_None_not_Some.
  - change (traceFile (handler (set_runtime (profiling p) false p))) with (traceFile (handler p)).
    destruct (traceFile (handler p)) as [f|] eqn:Ef.
    + destruct (stop_ok p s false f H Hc Ef) as (q & Hq & Hok). by rewrite Hq.
    + destruct H as [Ho Hf Hp Ht Ha]. split; cbn; try done. by rewrite Ef.
  - destruct (ExpandHome file); [|done|done]. destruct (os_Create s p) as [[f| |] p'] eqn:E; [| |]; cycle 1.
    1, 2: unfold os_Create in E; destruct (create_ok s); by simplify_eq.
    destruct (Hcc f p' eq_refl) as (_ & Hok & Hh). destruct (write_ok s); [exact Hh|].
    destruct (File_Close s f p') as [? p2]. cbn in Hok, Hh. by rewrite Hok.
Qed.

(** Whatever requests come in whatever order, as long as files can be closed: no file is
    lost and none is closed that the handler still has, and the runtime profiles, or traces,
    exactly while the handler has the file for it. *)
Theorem profile_files_exact (l : list (request * SystemCalls)) (Hclose : Forall (fun rs => close_ok rs.2 = true) l) :
  handler_ok (serve_all l NewHandler).
Proof.
  assert (handler_ok NewHandler) as H by (split; cbn; done || set_solver). revert H. generalize NewHandler.
  induction Hclose as [|[r s] l Hc _ IH]; intros p H; cbn [serve_all]; [done|]. apply IH, serve_ok; done.
Qed.

(** A file that was closed with an error stays in the handler: the profile is over, but
    every later request to start or to stop one fails. *)
Theorem failed_close_ends_profiling (p p' : Process) (s : SystemCalls) (f : Z) (e : gerr) (Hfile : cpuFile (handler p) = Some f)
    (Hflag : cpu_profile_flag = ""%string) (Hrun : StopCPUProfile s p = (Err e, p')) :
  profiling p' = false /\ forall s' file, (exists e, StartCPUProfile s' file p' = (Err e, p')) /\ exists e, StopCPUProfile s' p' = (Err e, p').
Proof.
  assert (isCPUProfileConfigurationActivated = false) as Hact by (unfold isCPUProfileConfigurationActivated; by rewrite Hflag).
  unfold StopCPUProfile in Hrun. rewrite Hact in Hrun. unfold mbind, M_bind, gets, modify, File_Close in Hrun. cbn in Hrun. rewrite Hfile in Hrun.
  destruct (bool_decide _ && _); [done|]. injection Hrun as _ <-. split; [done|]. intros s' file.
  unfold StartCPUProfile, StopCPUProfile. rewrite Hact. unfold mbind, M_bind, gets, modify, File_Close, set_runtime. cbn. rewrite Hfile. cbn.
  split; [by eexists|]. rewrite bool_decide_eq_false_2 by set_solver. cbn. eexists. do 2 f_equal. set_solver.
Qed.
End Profiler.
