(* ===== verification/RpcLogs.v ===== *)
(** * Receipts and logs of the JSON-RPC server

    The text of the receipt event and the receipt that is read back from it
    (x/evm/types/events.go, rpc/backend/utils.go), the block bloom (rpc/types/utils.go), and the
    search for logs (rpc/namespaces/ethereum/eth/filters/utils.go, filters.go, api.go).
    The node's RPC client and the bloom filter of go-ethereum are parameters; an absent
    slice and an empty one are the same list. *)

From Stdlib Require Import Strings.Byte.
From stdpp Require Import base gmap list strings pretty.
From S2P Require Import Prelude Sdk Geth EvmTypes ChainId Genesis EvmStore Staking TxExecution VAuth Indexer.

(** ** Numbers as text *)

Definition parse_digits (l : list Ascii.ascii) : option Z :=
  if bool_decide (l = []) || negb (forallb is_digit l) then None else Some (dec_value l).
(** [strconv.ParseUint(value, 10, 64)] *)
Definition ParseUint64 (value : string) : res Z :=
  match parse_digits (String.list_ascii_of_string value) with
  | None => Err (Errorf "invalid syntax")
  | Some z => if z <=? MaxUint64 then Ok z else Err (Errorf "value out of range")
  end.
(** [new(big.Int).SetString(value, 10)] *)
Definition big_SetString (value : string) : option Z :=
  match String.list_ascii_of_string value with
  | c :: l =>
      if decide (code_of c = 45%N) then Z.opp <$> parse_digits l
      else if decide (code_of c = 43%N) then parse_digits l
      else parse_digits (c :: l)
  | [] => None
  end.

(** [hexutil.Encode] and [hexutil.Decode] *)
Definition hexutil_Encode (b : bytes) : string := String.append "0x" (EncodeToString b).
Definition hexutil_Decode (input : string) : res bytes :=
  if decide (input = ""%string) then Err (Errorf "empty hex string")
  else if has_0x input || String.prefix "0X" input then DecodeString (drop_0x input)
  else Err (Errorf "hex string without 0x prefix").

(** ** Receipts with the fields that are not part of the consensus *)

Record EthLog : Type := mkEthLog {
  el_Log : Log;
  el_BlockNumber : Z;
  el_TxHash : Hash;
  el_TxIndex : Z;
  el_BlockHash : Hash;
  el_Index : Z
}.
Record EthReceipt : Type := mkEthReceipt {
  er_Type : TxType;
  er_Status : Z;
  er_CumulativeGasUsed : Z;
  er_Bloom : bytes;
  er_Logs : list EthLog;
  er_TxHash : Hash;
  er_ContractAddress : Address;
  er_GasUsed : Z;
  er_BlockHash : Hash;
  er_BlockNumber : Z;
  er_TransactionIndex : Z
}.
Record InCompletedEthReceipt : Type := mkInCompletedEthReceipt {
  ic_Receipt : EthReceipt;
  ic_EffectiveGasPrice : Z
}.

Definition AttributeKeyReceiptMarshalled : string := "marshalled".
Definition AttributeKeyReceiptCometBFTTxHash : string := "tmTxHash".
Definition AttributeKeyReceiptContractAddress : string := "contractAddr".
Definition AttributeKeyReceiptGasUsed : string := "gasUsed".
Definition AttributeKeyReceiptEffectiveGasPrice : string := "effectiveGasPrice".
Definition AttributeKeyReceiptBlockNumber : string := "blockNumber".
Definition AttributeKeyReceiptStartLogIndex : string := "logIdx".
Definition EventTypeBlockBloom : string := "block_bloom".
Definition AttributeKeyEthereumBloom : string := "bloom".

Section Receipts.
Context {G : Geth} {HX : HexText}.
(** The text of an error. *)
Variable Error : gerr -> string.

(** The attributes of the event of [GetSdkEventForReceipt]: the first seven are always there. *)
Definition fixed_attributes (bzReceipt : bytes) (ev : ReceiptEvent) : list (string * string) :=
  let contractAddr := match ev_ContractAddress ev with Some a => Address_String a | None => ""%string end in
  [(AttributeKeyReceiptMarshalled, hexutil_Encode bzReceipt);
   (AttributeKeyReceiptEvmTxHash, Hash_String (ev_TxHash ev));
   (AttributeKeyReceiptContractAddress, contractAddr);
   (AttributeKeyReceiptGasUsed, pretty (ev_GasUsed ev));
   (AttributeKeyReceiptEffectiveGasPrice, pretty (ev_EffectiveGasPrice ev));
   (AttributeKeyReceiptBlockNumber, pretty (ev_BlockNumber ev));
   (AttributeKeyReceiptTxIndex, pretty (ev_TxIndex ev))].
Definition receipt_attributes (bzReceipt : bytes) (ev : ReceiptEvent) (cometTxHash : option string) :
    list (string * string) :=
  fixed_attributes bzReceipt ev ++
  match ev_StartLogIndex ev with Some i => [(AttributeKeyReceiptStartLogIndex, pretty i)] | None => [] end ++
  match ev_VmError ev with Some e => [(AttributeKeyReceiptVmError, Error e)] | None => [] end ++
  match cometTxHash with Some h => [(AttributeKeyReceiptCometBFTTxHash, h)] | None => [] end.

Definition receipt_event_text (receipt : Receipt) (ev : ReceiptEvent) (cometTxHash : option string) : res SdkEvent :=
  bzReceipt ← Receipt_MarshalBinary receipt;
  Ok (mkSdkEvent EventTypeTxReceipt (receipt_attributes bzReceipt ev cometTxHash)).

Definition findAttribute (attrs : list (string * string)) (key : string) : option string :=
  snd <$> head (filter (fun attr => attr.1 = key) attrs).

Definition required (attrs : list (string * string)) (key : string) : res string :=
  match findAttribute attrs key with Some v => Ok v | None => Err (Errorf "missing event attribute") end.
Definition required_uint (attrs : list (string * string)) (key : string) : res Z :=
  raw ← required attrs key; wrap_res (Errorf "bad event attribute value") (ParseUint64 raw).

(** The block hash of the receipt and of its logs is missing. *)
Definition ParseTxReceiptFromEvent (event : SdkEvent) : res InCompletedEthReceipt :=
  if negb (bool_decide (event_Type event = EventTypeTxReceipt)) then Panic (Errorf "wrong event")
  else
    let attrs := event_Attributes event in
    marshalledReceiptRaw ← required attrs AttributeKeyReceiptMarshalled;
    bzReceipt ← hexutil_Decode marshalledReceiptRaw;
    receipt ← wrap_res (Errorf "failed to unmarshal receipt") (Receipt_UnmarshalBinary bzReceipt);
    txHashRaw ← required attrs AttributeKeyReceiptEvmTxHash;
    let txHash := HexToHash txHashRaw in
    blockNumber ← required_uint attrs AttributeKeyReceiptBlockNumber;
    txIndex ← required_uint attrs AttributeKeyReceiptTxIndex;
    contractAddrRaw ← required attrs AttributeKeyReceiptContractAddress;
    let contractAddr := if decide (contractAddrRaw = ""%string) then zero_address else HexToAddress contractAddrRaw in
    gasUsed ← required_uint attrs AttributeKeyReceiptGasUsed;
    effectiveGasPriceRaw ← required attrs AttributeKeyReceiptEffectiveGasPrice;
    effectiveGasPrice ← match big_SetString effectiveGasPriceRaw with
                        | Some p => Ok p
                        | None => Err (Errorf "bad event attribute value")
                        end;
    startLogIndex ← match findAttribute attrs AttributeKeyReceiptStartLogIndex with
                    | Some raw => i ← wrap_res (Errorf "bad event attribute value") (ParseUint64 raw); Ok (Some i)
                    | None => Ok None
                    end;
    let index i := match startLogIndex with Some start => add64 start (Z.of_nat i) | None => 0 end in
    Ok (mkInCompletedEthReceipt
          (mkEthReceipt (rcpt_Type receipt) (rcpt_Status receipt) (rcpt_CumulativeGasUsed receipt) (rcpt_Bloom receipt)
             (imap (fun i log => mkEthLog log blockNumber txHash txIndex zero_hash (index i)) (rcpt_Logs receipt))
             txHash contractAddr gasUsed zero_hash blockNumber txIndex)
          effectiveGasPrice).

(** [Fill] the missing fields. *)
Definition InCompletedEthReceipt_Fill (r : InCompletedEthReceipt) (blockHash : Hash) : InCompletedEthReceipt :=
  let e := ic_Receipt r in
  mkInCompletedEthReceipt
    (mkEthReceipt (er_Type e) (er_Status e) (er_CumulativeGasUsed e) (er_Bloom e)
       ((fun l => mkEthLog (el_Log l) (el_BlockNumber l) (el_TxHash l) (el_TxIndex l) blockHash (el_Index l)) <$> er_Logs e)
       (er_TxHash e) (er_ContractAddress e) (er_GasUsed e) blockHash (er_BlockNumber e) (er_TransactionIndex e))
    (ic_EffectiveGasPrice r).

(** The first receipt event, if there is one. *)
Definition TxReceiptFromEvent (events : list SdkEvent) : res (option InCompletedEthReceipt) :=
  match head (filter (fun event => event_Type event = EventTypeTxReceipt) events) with
  | Some event => r ← ParseTxReceiptFromEvent event; Ok (Some r)
  | None => Ok None
  end.

Fixpoint AllTxLogsFromEvents (events : list SdkEvent) : res (list (list EthLog)) :=
  match events with
  | [] => Ok []
  | event :: rest =>
      if decide (event_Type event = EventTypeTxReceipt) then
        icReceipt ← ParseTxReceiptFromEvent event;
        allLogs ← AllTxLogsFromEvents rest;
        Ok (er_Logs (ic_Receipt icReceipt) :: allLogs)
      else AllTxLogsFromEvents rest
  end.

(** [ResultBlockResults]: the height, the results of the transactions and the events of
    the end of the block. *)
Record ResultBlockResults : Type := mkBlockResults {
  br_Height : Z;
  br_TxsResults : list ExecTxResult;
  br_FinalizeBlockEvents : list SdkEvent
}.

Fixpoint logs_of_results (results : list ExecTxResult) : res (list (list EthLog)) :=
  match results with
  | [] => Ok []
  | txResult :: rest =>
      logs ← AllTxLogsFromEvents (result_Events txResult);
      blockLogs ← logs_of_results rest;
      Ok (logs ++ blockLogs)
  end.
Definition GetLogsFromBlockResults (blockRes : ResultBlockResults) : res (list (list EthLog)) :=
  logs_of_results (br_TxsResults blockRes).

(** ** The bloom of a block *)

Definition bloom_event (bloom : bytes) : SdkEvent :=
  mkSdkEvent EventTypeBlockBloom [(AttributeKeyEthereumBloom, EncodeToString (EmitBlockBloomEvent bloom))].

(** [BytesToBloom] panics on more than 256 bytes and fills shorter data from the left. *)
Definition BytesToBloom (bz : bytes) : res bytes :=
  if (256 <? length bz)%nat then Panic (Errorf "bloom bytes too big")
  else Ok (replicate (256 - length bz) x00 ++ bz).

Fixpoint BloomFromEvents (events : list SdkEvent) : res (option bytes) :=
  match events with
  | [] => Ok None
  | event :: rest =>
      if decide (event_Type event = EventTypeBlockBloom) then
        match findAttribute (event_Attributes event) AttributeKeyEthereumBloom with
        | None => BloomFromEvents rest
        | Some bloomHex =>
            if decide (bloomHex = ""%string) then Ok (Some (replicate 256 x00))
            else match DecodeString bloomHex with
                 | Ok bz => bloom ← BytesToBloom bz; Ok (Some bloom)
                 | _ => Ok None
                 end
        end
      else BloomFromEvents rest
  end.

(** [EmptyBlockBloom] is the bloom of no receipt. *)
Definition BlockBloom (blockRes : ResultBlockResults) : res bytes :=
  bloom ← BloomFromEvents (br_FinalizeBlockEvents blockRes);
  Ok (default (CreateBloom []) bloom).
End Receipts.

(** ** Filters *)

(** [ethtypes.BloomLookup] for an address or a topic. *)
Class BloomLib : Type := { BloomLookup : bytes -> bytes -> bool }.
(** The bloom of a list of receipts has the bits of every address and topic of their
    logs, and a bloom has 256 bytes. *)
Class BloomLaws {G : Geth} {BL : BloomLib} : Prop := {
  bloom_length rs : length (CreateBloom rs) = 256%nat;
  bloom_address rs r l : r ∈ rs -> l ∈ rcpt_Logs r -> BloomLookup (CreateBloom rs) (farr_bytes (log_Address l)) = true;
  bloom_topic rs r l t : r ∈ rs -> l ∈ rcpt_Logs r -> t ∈ log_Topics l ->
    BloomLookup (CreateBloom rs) (farr_bytes t) = true
}.

Record FilterCriteria : Type := mkFilterCriteria {
  fc_BlockHash : option Hash;
  fc_FromBlock : option Z;
  fc_ToBlock : option Z;
  fc_Addresses : list Address;
  fc_Topics : list (list Hash)
}.

Definition big_Int64 (z : Z) : Z := int64_of_uint64 (wrap64 z).

Fixpoint includes (addresses : list Address) (a : Address) : bool :=
  match addresses with
  | [] => false
  | addr :: rest => if decide (addr = a) then true else includes rest a
  end.

(** The positions of the topics are compared one by one; there are enough of them. *)
Fixpoint topics_match (topics : list (list Hash)) (log_topics : list Hash) : bool :=
  match topics, log_topics with
  | [], _ => true
  | sub :: topics', t :: log_topics' =>
      ((length sub =? 0)%nat || existsb (fun topic => bool_decide (t = topic)) sub) && topics_match topics' log_topics'
  | _ :: _, [] => false
  end.

Definition log_passes (fromBlock toBlock : option Z) (addresses : list Address) (topics : list (list Hash)) (log : EthLog) : bool :=
  if match fromBlock with Some b => (0 <=? big_Int64 b) && (el_BlockNumber log <? wrap64 b) | None => false end then false
  else if match toBlock with Some b => (0 <=? big_Int64 b) && (wrap64 b <? el_BlockNumber log) | None => false end then false
  else if (0 <? length addresses)%nat && negb (includes addresses (log_Address (el_Log log))) then false
  else if (length (log_Topics (el_Log log)) <? length topics)%nat then false
  else topics_match topics (log_Topics (el_Log log)).

Fixpoint FilterLogs (logs : list EthLog) (fromBlock toBlock : option Z) (addresses : list Address)
    (topics : list (list Hash)) : list EthLog :=
  match logs with
  | [] => []
  | log :: rest =>
      let rest := FilterLogs rest fromBlock toBlock addresses topics in
      if log_passes fromBlock toBlock addresses topics log then log :: rest else rest
  end.

Section Filters.
Context {G : Geth} {HX : HexText} {BL : BloomLib}.

Definition bloomFilter (bloom : bytes) (addresses : list Address) (topics : list (list Hash)) : bool :=
  if (0 <? length addresses)%nat && negb (existsb (fun addr => BloomLookup bloom (farr_bytes addr)) addresses) then false
  else forallb (fun sub => (length sub =? 0)%nat || existsb (fun topic => BloomLookup bloom (farr_bytes topic)) sub) topics.

Definition blockLogs (criteria : FilterCriteria) (blockRes : ResultBlockResults) (bloom : bytes) : res (list EthLog) :=
  if negb (bloomFilter bloom (fc_Addresses criteria) (fc_Topics criteria)) then Ok []
  else
    logsList ← wrap_res (Errorf "failed to fetch logs") (GetLogsFromBlockResults blockRes);
    Ok (FilterLogs (concat logsList) None None (fc_Addresses criteria) (fc_Topics criteria)).

Definition maxToOverhang : Z := 600.

(** The node: the results of a block, the height of a block by its hash, and the number
    of the latest header, [None] when there is none. *)
Variable BlockResults : Z -> res ResultBlockResults.
Variable BlockByHash : Hash -> res Z.
Variable LatestHeader : res (option Z).

(** The loop over the heights [height, ...]; a block that cannot be fetched ends the
    search without logs and without an error. *)
Fixpoint range_logs (criteria : FilterCriteria) (logLimit : Z) (n : nat) (height : Z) (logs : list EthLog) : res (list EthLog) :=
  match n with
  | O => Ok logs
  | S n' =>
      match BlockResults height with
      | Panic e => Panic e
      | Err _ => Ok []
      | Ok blockRes =>
          bloom ← BlockBloom blockRes;
          filtered ← wrap_res (Errorf "failed to fetch block by number") (blockLogs criteria blockRes bloom);
          if logLimit <? Z.of_nat (length logs + length filtered) then Err (Errorf "query returned more results")
          else range_logs criteria logLimit n' (height + 1) (logs ++ filtered)
      end
  end.

(** A bound of the range: negative is the head, zero the first block. *)
Definition range_bound (head b : Z) : Z := if b <? 0 then head else if b =? 0 then 1 else b.

Definition Filter_Logs (criteria : FilterCriteria) (logLimit blockLimit : Z) : res (list EthLog) :=
  match (hash ← fc_BlockHash criteria; if decide (hash = zero_hash) then None else Some hash) with
  | Some hash =>
      height ← wrap_res (Errorf "failed to fetch header by hash") (BlockByHash hash);
      match BlockResults height with
      | Panic e => Panic e
      | Err _ => Ok []
      | Ok blockRes => bloom ← BlockBloom blockRes; blockLogs criteria blockRes bloom
      end
  | None =>
      header ← wrap_res (Errorf "failed to fetch header by number (latest)") LatestHeader;
      match header with
      | None => Ok []
      | Some head =>
          from ← (match fc_FromBlock criteria with Some b => Ok (range_bound head b) | None => Panic NilDereference end);
          to ← (match fc_ToBlock criteria with Some b => Ok (range_bound head b) | None => Panic NilDereference end);
          if blockLimit <? to - from then Err (Errorf "maximum [from, to] blocks distance")
          else if head <? from then Ok []
          else
            let to := if head + maxToOverhang <? to then head + maxToOverhang else to in
            range_logs criteria logLimit (Z.to_nat (to - from + 1)) from []
      end
  end.

Definition NewRangeFilter (begin last : Z) (addresses : list Address) (topics : list (list Hash)) : FilterCriteria :=
  mkFilterCriteria None (Some begin) (Some last) addresses topics.

(** [rpc.LatestBlockNumber] is -1. *)
Definition GetLogs (crit : FilterCriteria) (logLimit blockLimit : Z) : res (list EthLog) :=
  let criteria :=
    match fc_BlockHash crit with
    | Some _ => crit
    | None =>
        let begin := match fc_FromBlock crit with Some b => big_Int64 b | None => -1 end in
        let last := match fc_ToBlock crit with Some b => big_Int64 b | None => -1 end in
        NewRangeFilter begin last (fc_Addresses crit) (fc_Topics crit)
    end in
  Filter_Logs criteria logLimit blockLimit.
End Filters.

(** ** Text that is read back *)

Lemma pretty_digits (x : N) :
  parse_digits (String.list_ascii_of_string (pretty x)) = Some (Z.of_N x) /\
  exists c l, String.list_ascii_of_string (pretty x) = c :: l /\ is_digit c = true.
Proof.
  unfold pretty, pretty_N. case_decide as Hx; [subst; split; [done|]; by eexists _, _|].
  destruct (pretty_go_digits x "") as (ds & E & Hd & Hv & Hne). simpl in E. rewrite app_nil_r in E. rewrite E.
  specialize (Hne ltac:(lia)). unfold parse_digits. rewrite bool_decide_eq_false_2, Hd, Hv by done. split; [done|].
  destruct ds as [|c l]; [done|]. exists c, l. split; [done|]. simpl in Hd. by apply andb_true_iff in Hd as [? _].
Qed.

Lemma pretty_nonneg (z : Z) : 0 <= z -> pretty z = pretty (Z.to_N z).
Proof. intros Hz. destruct z as [|p|p]; [done|done|lia]. Qed.

Lemma ParseUint64_pretty z : is_u64 z -> ParseUint64 (pretty z) = Ok z.
Proof.
  intros Hz. unfold is_u64 in Hz. rewrite pretty_nonneg by lia. unfold ParseUint64. destruct (pretty_digits (Z.to_N z)) as [-> _].
  rewrite Z2N.id by lia. by rewrite (proj2 (Z.leb_le _ _)) by lia.
Qed.

Lemma digit_no_sign c : is_digit c = true -> code_of c <> 45%N /\ code_of c <> 43%N.
Proof. unfold is_digit. intros [H1%N.leb_le H2%N.leb_le]%andb_true_iff. lia. Qed.

Lemma big_SetString_pretty z : big_SetString (pretty z) = Some z.
Proof.
  destruct (Z.le_gt_cases 0 z) as [Hz|Hz].
  - rewrite pretty_nonneg by done. destruct (pretty_digits (Z.to_N z)) as [Hp (c & l & E & Hc)].
    unfold big_SetString. rewrite E in Hp |- *. destruct (digit_no_sign c Hc).
    rewrite decide_False, decide_False by done. rewrite Hp. f_equal. lia.
  - destruct z as [|p|p]; [lia|lia|]. change (pretty (Z.neg p)) with (String.append "-" (pretty (N.pos p))).
    change (Z.opp <$> parse_digits (String.list_ascii_of_string (pretty (N.pos p))) = Some (Z.neg p)).
    destruct (pretty_digits (N.pos p)) as [-> _]. done.
Qed.

Lemma drop_0x_append s : drop_0x (String.append "0x" s) = s.
Proof.
  unfold drop_0x. change (String.substring 2 (String.length s - 0) (String.append "0x" s) = s).
  rewrite Nat.sub_0_r. simpl. induction s as [|c s IH]; [done|]. simpl. by f_equal.
Qed.

Lemma hexutil_round b : hexutil_Decode (hexutil_Encode b) = Ok b.
Proof.
  unfold hexutil_Decode, hexutil_Encode. rewrite decide_False by done.
  assert (has_0x (String.append "0x" (EncodeToString b)) = true) as -> by (by destruct (EncodeToString b)).
  rewrite orb_true_l, drop_0x_append. apply DecodeString_Encode.
Qed.

Lemma findAttribute_here k v l : findAttribute ((k, v) :: l) k = Some v.
Proof. unfold findAttribute. by rewrite filter_cons_True. Qed.
Lemma findAttribute_skip k k' v l : k' <> k -> findAttribute ((k', v) :: l) k = findAttribute l k.
Proof. intros Hne. unfold findAttribute. by rewrite filter_cons_False. Qed.
Lemma findAttribute_app l1 l2 k : findAttribute l1 k = None -> findAttribute (l1 ++ l2) k = findAttribute l2 k.
Proof.
  induction l1 as [|[k' v] l1 IH]; [done|]. simpl. destruct (decide (k' = k)) as [->|Hne].
  - by rewrite findAttribute_here.
  - by rewrite !findAttribute_skip.
Qed.

Section RoundTrip.
Context {G : Geth} {HX : HexText} {HL : HexTextLaws}.
Variable Error : gerr -> string.

Ltac find_attr :=
  repeat first [rewrite findAttribute_here | rewrite findAttribute_skip by done]; simpl.

(** The attributes that are found. *)
Lemma fixed_attribute bz ev cometTxHash k :
  findAttribute (fixed_attributes bz ev) k <> None ->
  findAttribute (receipt_attributes Error bz ev cometTxHash) k = findAttribute (fixed_attributes bz ev) k.
Proof.
  unfold receipt_attributes. generalize (fixed_attributes bz ev). intros l Hl. induction l as [|[k' v] l IH]; [done|].
  cbn [app]. destruct (decide (k' = k)) as [->|Hne]; [by rewrite !findAttribute_here|].
  rewrite findAttribute_skip in Hl |- * by done. rewrite findAttribute_skip by done. by apply IH.
Qed.
Lemma start_index bz ev cometTxHash :
  findAttribute (receipt_attributes Error bz ev cometTxHash) AttributeKeyReceiptStartLogIndex = pretty <$> ev_StartLogIndex ev.
Proof.
  unfold receipt_attributes. rewrite findAttribute_app by (unfold fixed_attributes; by find_attr).
  destruct (ev_StartLogIndex ev); cbn [app]; [by rewrite findAttribute_here|].
  destruct (ev_VmError ev), cometTxHash; cbn [app]; by find_attr.
Qed.

(** What the parser makes of the attributes of an event. *)
Lemma parse_text (receipt : Receipt) (ev : ReceiptEvent) cometTxHash event bz :
  Receipt_MarshalBinary receipt = Ok bz -> Receipt_UnmarshalBinary bz = Ok receipt ->
  is_u64 (ev_GasUsed ev) -> is_u64 (ev_BlockNumber ev) -> is_u64 (ev_TxIndex ev) ->
  (forall i, ev_StartLogIndex ev = Some i -> is_u64 i) ->
  receipt_event_text Error receipt ev cometTxHash = Ok event ->
  ParseTxReceiptFromEvent event =
    Ok (mkInCompletedEthReceipt
      (mkEthReceipt (rcpt_Type receipt) (rcpt_Status receipt) (rcpt_CumulativeGasUsed receipt) (rcpt_Bloom receipt)
         (imap (fun i log => mkEthLog log (ev_BlockNumber ev) (ev_TxHash ev) (ev_TxIndex ev) zero_hash
            match ev_StartLogIndex ev with Some start => add64 start (Z.of_nat i) | None => 0 end) (rcpt_Logs receipt))
         (ev_TxHash ev) (default zero_address (ev_ContractAddress ev)) (ev_GasUsed ev) zero_hash (ev_BlockNumber ev)
         (ev_TxIndex ev))
      (ev_EffectiveGasPrice ev)).
Proof.
  intros Em Hcodec Hg Hb Ht Hi. unfold receipt_event_text. rewrite Em. unfold mbind at 1, res_bind at 1. intros [= <-].
  unfold ParseTxReceiptFromEvent. cbn [event_Type event_Attributes]. rewrite bool_decide_eq_true_2 by done. cbn [negb].
  unfold required_uint, required. rewrite start_index.
  assert (forall k v, findAttribute (fixed_attributes bz ev) k = Some v ->
    findAttribute (receipt_attributes Error bz ev cometTxHash) k = Some v) as Hf
    by (intros k v Hk; by rewrite fixed_attribute, Hk; [|rewrite Hk]).
  rewrite (Hf AttributeKeyReceiptMarshalled (hexutil_Encode bz)) by (unfold fixed_attributes; by find_attr).
  rewrite (Hf AttributeKeyReceiptEvmTxHash (Hash_String (ev_TxHash ev))) by (unfold fixed_attributes; by find_attr).
  rewrite (Hf AttributeKeyReceiptBlockNumber (pretty (ev_BlockNumber ev))) by (unfold fixed_attributes; by find_attr).
  rewrite (Hf AttributeKeyReceiptTxIndex (pretty (ev_TxIndex ev))) by (unfold fixed_attributes; by find_attr).
  rewrite (Hf AttributeKeyReceiptGasUsed (pretty (ev_GasUsed ev))) by (unfold fixed_attributes; by find_attr).
  rewrite (Hf AttributeKeyReceiptEffectiveGasPrice (pretty (ev_EffectiveGasPrice ev))) by (unfold fixed_attributes; by find_attr).
  rewrite (Hf AttributeKeyReceiptContractAddress match ev_ContractAddress ev with Some a => Address_String a | None => ""%string end)
    by (unfold fixed_attributes; by find_attr).
  unfold mbind, res_bind, wrap_res. rewrite hexutil_round, Hcodec, !ParseUint64_pretty by done.
  rewrite big_SetString_pretty, hash_text.
  assert ((if decide (match ev_ContractAddress ev with Some a => Address_String a | None => ""%string end = ""%string)
    then zero_address else HexToAddress match ev_ContractAddress ev with Some a => Address_String a | None => ""%string end) =
    default zero_address (ev_ContractAddress ev)) as ->.
  { destruct (ev_ContractAddress ev) as [a|]; simpl; [|done].
    rewrite decide_False; [apply address_text|]. intros E%(f_equal (fun s => length (String.list_ascii_of_string s))).
    by rewrite address_text_length in E. }
  destruct (ev_StartLogIndex ev) as [i|]; simpl; [|done]. by rewrite ParseUint64_pretty by auto.
Qed.

(** C26 The JSON-RPC server reads from the receipt event what the module wrote: parsing the
    event of a receipt gives back its consensus fields, its logs in order, the hash, the
    address of a new contract, the gas used, the price, the block and the index of the
    transaction.  The logs are numbered from zero in every transaction, since the index
    of the first log is lost in the consensus encoding. *)
Theorem receipt_event_round_trip (receipt : Receipt) (txHash : Hash) (contractAddress : Address)
  (gasUsed effectiveGasPrice blockNumber txIndex : Z) (vmErr : option gerr) (cometTxHash : option string)
  (ev : ReceiptEvent) (event : SdkEvent)
  (Hcodec : forall bz, Receipt_MarshalBinary receipt = Ok bz -> Receipt_UnmarshalBinary bz = Ok receipt)
  (Hbounds : is_u64 gasUsed /\ is_u64 blockNumber /\ is_u64 txIndex)
  (Hlogs : Z.of_nat (length (rcpt_Logs receipt)) <= MaxUint64)
  (Hev : GetSdkEventForReceipt receipt txHash contractAddress gasUsed effectiveGasPrice blockNumber txIndex vmErr = Ok ev)
  (Htext : receipt_event_text Error receipt ev cometTxHash = Ok event) :
  ParseTxReceiptFromEvent event =
    Ok (mkInCompletedEthReceipt
      (mkEthReceipt (rcpt_Type receipt) (rcpt_Status receipt) (rcpt_CumulativeGasUsed receipt) (rcpt_Bloom receipt)
         (imap (fun i log => mkEthLog log blockNumber txHash txIndex zero_hash (Z.of_nat i)) (rcpt_Logs receipt))
         txHash contractAddress gasUsed zero_hash blockNumber txIndex)
      effectiveGasPrice).
Proof.
  unfold GetSdkEventForReceipt in Hev. destruct Hbounds as (Hg & Hb & Ht).
  destruct (Receipt_MarshalBinary receipt) as [bz|e|e] eqn:Em; [|done|done]. unfold mbind, res_bind in Hev. injection Hev as <-.
  eapply parse_text in Htext as ->; [|exact Em|exact (Hcodec bz eq_refl)|done|done|done|].
  - cbn [ev_TxHash ev_ContractAddress ev_GasUsed ev_EffectiveGasPrice ev_BlockNumber ev_TxIndex ev_StartLogIndex].
    do 2 f_equal. f_equal; [|by case_decide].
    apply imap_ext. intros i log Hi%lookup_lt_Some. f_equal. destruct (rcpt_Logs receipt) eqn:El; [simpl in Hi; lia|].
    rewrite <- El in *. unfold add64, wrap64, MaxUint64 in *. rewrite Z.mod_small by lia. lia.
  - intros i. cbn [ev_StartLogIndex]. destruct (rcpt_Logs receipt); [done|]. intros [= <-]. unfold is_u64, MaxUint64. lia.
Qed.
End RoundTrip.

(** ** The search for logs *)

(** A log matches when its address is one of those asked for, if any are, and it has a
    topic at every position that is asked for, one of those given there if any are. *)
Definition matches (addresses : list Address) (topics : list (list Hash)) (l : Log) : Prop :=
  (addresses = [] \/ log_Address l ∈ addresses) /\
  forall i sub, topics !! i = Some sub -> exists t, log_Topics l !! i = Some t /\ (sub = [] \/ t ∈ sub).

Lemma includes_iff addresses a : includes addresses a = true <-> a ∈ addresses.
Proof.
  induction addresses as [|b l IH]; simpl; [split; [done|by intros ?%not_elem_of_nil]|].
  rewrite elem_of_cons. case_decide as Hb; [subst; split; [by left|done]|].
  rewrite IH. split; [by right|intros [->|]; done].
Qed.

Lemma topics_match_iff topics ts : topics_match topics ts = true <->
  forall i sub, topics !! i = Some sub -> exists t, ts !! i = Some t /\ (sub = [] \/ t ∈ sub).
Proof.
  revert ts. induction topics as [|sub topics IH]; intros ts; simpl; [split; [done|done]|].
  destruct ts as [|t ts].
  { split; [done|]. intros Hx. by destruct (Hx 0%nat sub eq_refl) as (t & ? & _). }
  assert ((length sub =? 0)%nat || existsb (fun topic => bool_decide (t = topic)) sub = true <-> sub = [] \/ t ∈ sub) as Hsub.
  { rewrite orb_true_iff, Nat.eqb_eq, existsb_exists. split.
    - intros [Hl|(x & Hx & ->%bool_decide_eq_true)]; [left; by apply nil_length_inv|right; by apply list_elem_of_In].
    - intros [->|Hin]; [by left|right]. exists t. rewrite bool_decide_eq_true_2 by done. by apply list_elem_of_In in Hin. }
  rewrite andb_true_iff, Hsub, IH. split.
  - intros [H1 H2] [|i] s; simpl; [intros [= <-]; eauto|apply H2].
  - intros Hx. split; [destruct (Hx 0%nat sub eq_refl) as (t' & [= <-] & ?); done|].
    intros i s Hs. by apply (Hx (Datatypes.S i)).
Qed.

Lemma log_passes_iff addresses topics l :
  log_passes None None addresses topics l = true <-> matches addresses topics (el_Log l).
Proof.
  unfold log_passes, matches.
  assert ((0 <? length addresses)%nat && negb (includes addresses (log_Address (el_Log l))) = false <->
    addresses = [] \/ log_Address (el_Log l) ∈ addresses) as Ha.
  { rewrite andb_false_iff, negb_false_iff, includes_iff, Nat.ltb_ge. destruct addresses; simpl; [naive_solver lia|].
    split; [intros [|]; [lia|by right]|intros [|]; [done|by right]]. }
  destruct ((0 <? length addresses)%nat && _) eqn:E; [split; [done|]; intros [Hx%Ha _]; done|].
  pose proof (proj1 Ha eq_refl) as Haddr. rewrite <- topics_match_iff. destruct (Nat.ltb_spec (length (log_Topics (el_Log l))) (length topics)) as [Hl|Hl].
  - split; [done|]. intros [_ Hx]. rewrite topics_match_iff in Hx.
    destruct (topics !! length (log_Topics (el_Log l))) as [sub|] eqn:Es; [|apply lookup_ge_None in Es; lia].
    destruct (Hx _ _ Es) as (t & Ht & _). apply lookup_lt_Some in Ht. lia.
  - tauto.
Qed.
#[export] Instance matches_dec addresses topics l : Decision (matches addresses topics l).
Proof.
  destruct (log_passes None None addresses topics (mkEthLog l 0 zero_hash 0 zero_hash 0)) eqn:E.
  - left. by apply log_passes_iff in E.
  - right. intros Hm. apply not_true_iff_false in E. apply E. by apply log_passes_iff.
Defined.

Lemma FilterLogs_spec addresses topics logs :
  FilterLogs logs None None addresses topics = filter (fun l => matches addresses topics (el_Log l)) logs.
Proof.
  induction logs as [|l logs IH]; [done|]. simpl. rewrite IH. destruct (log_passes None None addresses topics l) eqn:E.
  - rewrite filter_cons_True; [done|by apply log_passes_iff].
  - rewrite filter_cons_False; [done|]. intros Hm%log_passes_iff. by rewrite Hm in E.
Qed.

Lemma be_decode_zero l : be_decode l = 0 -> l = replicate (length l) x00.
Proof.
  induction l as [|b l IH]; [done|]. rewrite be_decode_cons. pose proof (Z_of_byte_range b) as Hb. intros E.
  assert (0 <= be_decode l) as Hl by (apply be_decode_range).
  assert (0 < 256 ^ Z.of_nat (length l)) as Hp by (apply Z.pow_pos_nonneg; lia).
  assert (Z_of_byte b = 0 /\ be_decode l = 0) as [E1 E2] by nia.
  simpl. rewrite <- IH by done. f_equal. apply (f_equal byte_of_Z) in E1. by rewrite byte_of_Z_of_byte in E1.
Qed.

Section Search.
Context {G : Geth} {HX : HexText} {BL : BloomLib} {BLL : BloomLaws}.

(** The bloom of receipts never hides a log of theirs that matches. *)
Lemma bloomFilter_complete rs r l addresses topics :
  r ∈ rs -> l ∈ rcpt_Logs r -> matches addresses topics l -> bloomFilter (CreateBloom rs) addresses topics = true.
Proof.
  intros Hr Hl [Ha Ht]. unfold bloomFilter.
  assert ((0 <? length addresses)%nat && negb (existsb (fun addr => BloomLookup (CreateBloom rs) (farr_bytes addr)) addresses) = false) as ->.
  { destruct Ha as [->|Hin]; [done|]. rewrite andb_false_iff, negb_false_iff. right.
    apply existsb_exists. exists (log_Address l). split; [by apply list_elem_of_In|by eapply bloom_address]. }
  apply forallb_forall. intros sub [i Hi]%list_elem_of_In%list_elem_of_lookup.
  destruct (Ht i sub Hi) as (t & Htop & [->|Hin]); [done|]. apply orb_true_iff. right.
  apply existsb_exists. exists t. split; [by apply list_elem_of_In|]. eapply bloom_topic; [done|done|].
  by eapply list_elem_of_lookup_2.
Qed.

(** The bloom that is read from the events is the one that was emitted. *)
Lemma BloomFromEvents_emitted before after rs :
  Forall (fun event => event_Type event <> EventTypeBlockBloom) before ->
  BloomFromEvents (before ++ bloom_event (CreateBloom rs) :: after) = Ok (Some (CreateBloom rs)).
Proof.
  induction 1 as [|event before Hne _ IH]; cbn [app BloomFromEvents]; [|by rewrite decide_False].
  unfold bloom_event. cbn [event_Type event_Attributes]. rewrite decide_True, findAttribute_here by done. unfold EmitBlockBloomEvent. pose proof (bloom_length rs) as Hl.
  destruct (Z.eqb_spec (big_SetBytes (CreateBloom rs)) 0) as [E|E].
  - simpl. apply be_decode_zero in E. by rewrite Hl in E; rewrite E.
  - rewrite decide_False, DecodeString_Encode.
    + unfold BytesToBloom. rewrite Hl. done.
    + destruct (CreateBloom rs); [done|]. done.
Qed.

(** A block whose results are in order: the bloom emitted at its end is that of receipts
    that contain the logs of its transactions. *)
Definition block_in_order (blockRes : ResultBlockResults) (logs : list EthLog) : Prop :=
  exists rs before after logsList,
    br_FinalizeBlockEvents blockRes = before ++ bloom_event (CreateBloom rs) :: after /\
    Forall (fun event => event_Type event <> EventTypeBlockBloom) before /\
    GetLogsFromBlockResults blockRes = Ok logsList /\ logs = concat logsList /\
    forall l, l ∈ logs -> exists r, r ∈ rs /\ el_Log l ∈ rcpt_Logs r.

Abbreviation hits criteria logs :=
  (filter (fun l => matches (fc_Addresses criteria) (fc_Topics criteria) (el_Log l)) logs).

Lemma blockLogs_exact criteria blockRes logs :
  block_in_order blockRes logs ->
  exists bloom, BlockBloom blockRes = Ok bloom /\ blockLogs criteria blockRes bloom = Ok (hits criteria logs).
Proof.
  intros (rs & before & after & logsList & Hev & Hb & Hlogs & -> & Hin). exists (CreateBloom rs).
  unfold BlockBloom. rewrite Hev, BloomFromEvents_emitted by done. split; [done|].
  unfold blockLogs. destruct (bloomFilter (CreateBloom rs) (fc_Addresses criteria) (fc_Topics criteria)) eqn:E; simpl.
  - rewrite Hlogs. simpl. by rewrite FilterLogs_spec.
  - f_equal. symmetry. destruct (hits criteria (concat logsList)) as [|l rest] eqn:Ef; [done|]. exfalso.
    assert (l ∈ hits criteria (concat logsList)) as Hl by (rewrite Ef; left).
    apply list_elem_of_filter in Hl as [Hm Hl]. destruct (Hin l Hl) as (r & Hr & Hlr).
    by rewrite (bloomFilter_complete rs r (el_Log l)) in E.
Qed.

Variable BlockResults : Z -> res ResultBlockResults.
Variable BlockByHash : Hash -> res Z.
Variable LatestHeader : res (option Z).
Variable logs_at : Z -> list EthLog.
Definition fetched_in_order (h : Z) : Prop :=
  exists blockRes, BlockResults h = Ok blockRes /\ block_in_order blockRes (logs_at h).

Lemma range_logs_fetched criteria logLimit n m height logs :
  (forall h, height <= h < height + Z.of_nat n -> fetched_in_order h) -> Z.of_nat (length logs) <= logLimit ->
  let found := hits criteria (concat (logs_at <$> seqZ height (Z.of_nat n))) in
  range_logs BlockResults criteria logLimit (n + m) height logs =
    if logLimit <? Z.of_nat (length (logs ++ found)) then Err (Errorf "query returned more results")
    else range_logs BlockResults criteria logLimit m (height + Z.of_nat n) (logs ++ found).
Proof.
  revert height logs. induction n as [|n IH]; intros height logs Hf Hle; cbv zeta.
  - simpl. rewrite app_nil_r, Z.add_0_r. destruct (Z.ltb_spec logLimit (Z.of_nat (length logs))); [lia|done].
  - destruct (Hf height) as (blockRes & Hr & Hb); [lia|]. destruct (blockLogs_exact criteria blockRes _ Hb) as (bloom & Eb & El).
    cbn [Nat.add range_logs]. rewrite Hr, Eb. unfold mbind, res_bind, wrap_res. rewrite El.
    rewrite (seqZ_cons height) by lia. rewrite fmap_cons, concat_cons, filter_app, app_assoc.
    replace (Z.pred (Z.of_nat (S n))) with (Z.of_nat n) by lia. replace (Z.succ height) with (height + 1) by lia.
    rewrite <- (length_app logs). destruct (Z.ltb_spec logLimit (Z.of_nat (length (logs ++ hits criteria (logs_at height))))) as [Hx|Hx].
    + destruct (Z.ltb_spec logLimit (Z.of_nat (length ((logs ++ hits criteria (logs_at height)) ++
        hits criteria (concat (logs_at <$> seqZ (height + 1) (Z.of_nat n))))))) as [|Hy]; [done|].
      rewrite length_app in Hy. lia.
    + rewrite IH; [|intros h Hh; apply Hf; lia|done]. cbv zeta. case_match; [done|]. f_equal. lia.
Qed.

(** The bounds of a request without a block hash: no bound is the head. *)
Definition request_bound (head : Z) (b : option Z) : Z :=
  range_bound head match b with Some b => big_Int64 b | None => -1 end.

Lemma GetLogs_range crit head logLimit blockLimit :
  fc_BlockHash crit = None -> LatestHeader = Ok (Some head) ->
  let from := request_bound head (fc_FromBlock crit) in
  let to := request_bound head (fc_ToBlock crit) in
  to - from <= blockLimit -> from <= head ->
  GetLogs BlockResults BlockByHash LatestHeader crit logLimit blockLimit =
    range_logs BlockResults
      (NewRangeFilter (match fc_FromBlock crit with Some b => big_Int64 b | None => -1 end)
         (match fc_ToBlock crit with Some b => big_Int64 b | None => -1 end) (fc_Addresses crit) (fc_Topics crit))
      logLimit (Z.to_nat (Z.min to (head + maxToOverhang) - from + 1)) from [].
Proof.
  intros Hh Hl from to Hr Hf. unfold GetLogs, Filter_Logs. rewrite Hh, Hl. unfold mbind, res_bind, option_bind, wrap_res, NewRangeFilter.
  cbn [fc_BlockHash fc_FromBlock fc_ToBlock]. fold (request_bound head (fc_FromBlock crit)) (request_bound head (fc_ToBlock crit)).
  fold from to. destruct (Z.ltb_spec blockLimit (to - from)); [lia|]. destruct (Z.ltb_spec head from); [lia|].
  repeat f_equal. destruct (Z.ltb_spec (head + maxToOverhang) to); lia.
Qed.

(** C27 A search over blocks that exist finds exactly the matching logs: when every block of
    the range is available and its bloom is that of its receipts, the answer is the list
    of all logs of these blocks that match the addresses and topics, in order, or an
    error when they are more than the limit; the bloom filter never loses one. *)
Theorem get_logs_exact (crit : FilterCriteria) (head logLimit blockLimit : Z)
  (Hhash : fc_BlockHash crit = None) (Hhead : LatestHeader = Ok (Some head)) (Hlimit : 0 <= logLimit)
  (Hrange : request_bound head (fc_ToBlock crit) - request_bound head (fc_FromBlock crit) <= blockLimit)
  (Hto : request_bound head (fc_ToBlock crit) <= head)
  (Hblocks : forall h, request_bound head (fc_FromBlock crit) <= h <= request_bound head (fc_ToBlock crit) -> fetched_in_order h) :
  let from := request_bound head (fc_FromBlock crit) in
  let found := hits crit (concat (logs_at <$> seqZ from (request_bound head (fc_ToBlock crit) - from + 1))) in
  GetLogs BlockResults BlockByHash LatestHeader crit logLimit blockLimit =
    if logLimit <? Z.of_nat (length found) then Err (Errorf "query returned more results") else Ok found.
Proof.
  intros from found. destruct (Z.le_gt_cases from head) as [Hf|Hf].
  - rewrite (GetLogs_range crit head) by done. fold from. unfold maxToOverhang. rewrite Z.min_l by lia.
    set (n := Z.to_nat (request_bound head (fc_ToBlock crit) - from + 1)). rewrite <- (Nat.add_0_r n), range_logs_fetched.
    + cbv zeta. cbn [app fc_Addresses fc_Topics NewRangeFilter range_logs].
      assert (seqZ from (Z.of_nat n) = seqZ from (request_bound head (fc_ToBlock crit) - from + 1)) as ->; [|done].
      unfold n. destruct (Z.le_gt_cases 0 (request_bound head (fc_ToBlock crit) - from + 1)); [by rewrite Z2Nat.id|].
      rewrite !seqZ_nil by lia. done.
    + intros h Hh. apply Hblocks. fold from. lia.
    + done.
  - assert (found = []) as ->. { unfold found. by rewrite seqZ_nil by lia. }
    destruct (Z.ltb_spec logLimit (Z.of_nat (length (A:=EthLog) []))); [simpl in *; lia|].
    unfold GetLogs, Filter_Logs. rewrite Hhash, Hhead. unfold mbind, res_bind, option_bind, wrap_res, NewRangeFilter.
    cbn [fc_BlockHash fc_FromBlock fc_ToBlock].
    fold (request_bound head (fc_FromBlock crit)) (request_bound head (fc_ToBlock crit)). fold from.
    destruct (Z.ltb_spec blockLimit (request_bound head (fc_ToBlock crit) - from)); [unfold from in *; lia|].
    by destruct (Z.ltb_spec head from); [|lia].
Qed.

(** A search that reaches beyond the head loses everything: a range that ends above the
    latest block is not cut at the head, the block after the head cannot be fetched,
    and the answer is the empty list without an error, whatever logs the existing
    blocks of the range have. *)
Theorem get_logs_beyond_head (crit : FilterCriteria) (head logLimit blockLimit : Z) (e : gerr)
  (Hhash : fc_BlockHash crit = None) (Hhead : LatestHeader = Ok (Some head))
  (Hrange : request_bound head (fc_ToBlock crit) - request_bound head (fc_FromBlock crit) <= blockLimit)
  (Hfrom : request_bound head (fc_FromBlock crit) <= head) (Hto : head < request_bound head (fc_ToBlock crit))
  (Hblocks : forall h, request_bound head (fc_FromBlock crit) <= h <= head -> fetched_in_order h)
  (Hnext : BlockResults (head + 1) = Err e)
  (Hlimit : Z.of_nat (length (hits crit (concat (logs_at <$>
     seqZ (request_bound head (fc_FromBlock crit)) (head - request_bound head (fc_FromBlock crit) + 1))))) <= logLimit) :
  GetLogs BlockResults BlockByHash LatestHeader crit logLimit blockLimit = Ok [].
Proof.
  set (from := request_bound head (fc_FromBlock crit)) in *. rewrite (GetLogs_range crit head) by done. fold from.
  set (to := request_bound head (fc_ToBlock crit)) in *. unfold maxToOverhang.
  replace (Z.to_nat (Z.min to (head + 600) - from + 1)) with (Z.to_nat (head - from + 1) + Z.to_nat (Z.min to (head + 600) - head))%nat by lia.
  rewrite range_logs_fetched by (try intros h Hh; try apply Hblocks; simpl; lia). cbv zeta. cbn [app fc_Addresses fc_Topics NewRangeFilter].
  rewrite Z2Nat.id by lia. destruct (Z.ltb_spec logLimit (Z.of_nat (length (hits crit (concat (logs_at <$> seqZ from (head - from + 1))))))); [lia|].
  replace (from + (head - from + 1)) with (head + 1) by lia.
  destruct (Z.to_nat (Z.min to (head + 600) - head)) eqn:En; [lia|]. cbn [range_logs]. by rewrite Hnext.
Qed.
End Search.
