(* ===== verification/FilterSystem.v ===== *)
(** * Live filters

    Filters that are installed and polled by clients of the JSON-RPC server
    (rpc/namespaces/ethereum/eth/filters: api.go, filter_system.go, subscription.go) over
    an event bus in memory (rpc/ethereum/pubsub/pubsub.go).  Each critical section is an
    operation on the state; goroutines that wait on a channel are part of the state, and
    a step relation interleaves them.  A channel is a number that is never used again.
    The websocket client of CometBFT and its answers are inputs of the steps. *)

From stdpp Require Import base gmap list strings.
From S2P Require Import Prelude Sdk Geth EvmTypes TxTypes AnteTx Genesis Indexer RpcLogs.

Abbreviation ID := string.
Abbreviation chan := nat.

(** [filters.Type] of go-ethereum: the three kinds that are used. *)
Inductive FilterType : Type := LogsSubscription | BlocksSubscription | PendingTransactionsSubscription.
#[export] Instance FilterType_eq_dec : EqDecision FilterType.
Proof. solve_decision. Defined.
#[export] Instance FilterType_countable : Countable FilterType.
Proof.
  refine (inj_countable' (fun t => match t with LogsSubscription => 0%nat | BlocksSubscription => 1%nat | _ => 2%nat end)
    (fun n => match n with 0%nat => LogsSubscription | 1%nat => BlocksSubscription | _ => PendingTransactionsSubscription end) _).
  by intros [].
Defined.

(** ** The event bus *)

Record EventBus : Type := mkBus {
  topics : gmap string chan;
  subscribers : gmap string (gmap Z chan);
  currentUniqueID : Z;
  (** The goroutines of [publishTopic]. *)
  publishers : list (string * chan);
  (** Channels that were closed, and the next channel that [make] gives. *)
  closed : gset chan;
  next_chan : chan
}.

Definition NewEventBus : EventBus := mkBus ∅ ∅ 0 [] ∅ 0%nat.

Definition ErrCloseClosed : gerr := Errorf "close of closed channel".

Definition make_chan : M EventBus chan := fun b =>
  (Ok (next_chan b), mkBus (topics b) (subscribers b) (currentUniqueID b) (publishers b) (closed b) (S (next_chan b))).

Definition close_chan (ch : chan) : M EventBus unit := fun b =>
  if bool_decide (ch ∈ closed b) then (Panic ErrCloseClosed, b)
  else (Ok tt, mkBus (topics b) (subscribers b) (currentUniqueID b) (publishers b) ({[ch]} ∪ closed b) (next_chan b)).

Definition set_topics (t : gmap string chan) (b : EventBus) : EventBus :=
  mkBus t (subscribers b) (currentUniqueID b) (publishers b) (closed b) (next_chan b).
Definition set_subscribers (s : gmap string (gmap Z chan)) (b : EventBus) : EventBus :=
  mkBus (topics b) s (currentUniqueID b) (publishers b) (closed b) (next_chan b).
Definition set_publishers (p : list (string * chan)) (b : EventBus) : EventBus :=
  mkBus (topics b) (subscribers b) (currentUniqueID b) p (closed b) (next_chan b).

Definition GenUniqueID : M EventBus Z := fun b =>
  let id := add64 (currentUniqueID b) 1 in
  (Ok id, mkBus (topics b) (subscribers b) id (publishers b) (closed b) (next_chan b)).

Definition AddTopic (name : string) (src : chan) : M EventBus unit :=
  known ← gets (fun b => bool_decide (is_Some (topics b !! name)));
  require (negb known) (Errorf "topic already registered") ;;
  modify (fun b => set_topics (<[name := src]> (topics b)) b) ;;
  modify (fun b => set_publishers ((name, src) :: publishers b) b).

Definition RemoveTopic (name : string) : M EventBus unit := modify (fun b => set_topics (delete name (topics b)) b).

Definition Subscribe (name : string) : M EventBus (chan * Z) :=
  known ← gets (fun b => bool_decide (is_Some (topics b !! name)));
  require known (Errorf "topic not found") ;;
  ch ← make_chan;
  id ← GenUniqueID;
  modify (fun b => set_subscribers (<[name := <[id := ch]> (default ∅ (subscribers b !! name))]> (subscribers b)) b) ;;
  mret (ch, id).

Definition unsubscribe (name : string) (id : Z) : M EventBus unit :=
  modify (fun b => set_subscribers (alter (delete id) name (subscribers b)) b).

Definition closeAllSubscribers (name : string) : M EventBus unit :=
  subs ← gets (fun b => default ∅ (subscribers b !! name));
  modify (fun b => set_subscribers (delete name (subscribers b)) b) ;;
  mapM_ (fun kv : Z * chan => close_chan kv.2) (map_to_list subs).

(** [publishTopic] when its source was closed: it ends. *)
Definition publishTopic_end (name : string) (src : chan) : M EventBus unit :=
  closeAllSubscribers name ;;
  modify (fun b => set_topics (delete name (topics b)) b) ;;
  modify (fun b => set_publishers (filter (fun p => p <> (name, src)) (publishers b)) b).

(** ** The event system *)

Record Subscription : Type := mkSubscription {
  sub_id : ID;
  sub_typ : FilterType;
  sub_event : string
}.

(** [uninstall] holds the subscriptions whose goroutines wait to hand them to the event
    loop, [errs] the ids whose error channel is closed. *)
Record EventSystem : Type := mkEventSystem {
  index : gmap (FilterType * ID) Subscription;
  topicChans : gmap string chan;
  uninstall : list Subscription;
  errs : gset ID;
  eventBus : EventBus
}.

Definition NewEventSystem : EventSystem := mkEventSystem ∅ ∅ [] ∅ NewEventBus.

Definition set_bus (b : EventBus) (es : EventSystem) : EventSystem :=
  mkEventSystem (index es) (topicChans es) (uninstall es) (errs es) b.
Definition on_bus {A} (m : M EventBus A) : M EventSystem A := zoom eventBus set_bus m.
Definition set_index (i : gmap (FilterType * ID) Subscription) (es : EventSystem) : EventSystem :=
  mkEventSystem i (topicChans es) (uninstall es) (errs es) (eventBus es).
Definition set_topicChans (t : gmap string chan) (es : EventSystem) : EventSystem :=
  mkEventSystem (index es) t (uninstall es) (errs es) (eventBus es).
Definition set_uninstall (l : list Subscription) (es : EventSystem) : EventSystem :=
  mkEventSystem (index es) (topicChans es) l (errs es) (eventBus es).

Definition txEvents : string := "tm.event='Tx'".
Definition evmEvents : string := "tm.event='Tx' AND message.module='evm'".
Definition headerEvents : string := "tm.event='NewBlockHeader'".

(** The loop's reaction to a subscription that is to be installed; a topic that is
    registered already is only logged. *)
Definition eventLoop_install (f : Subscription) : M EventSystem unit :=
  modify (fun es => set_index (<[(sub_typ f, sub_id f) := f]> (index es)) es) ;;
  ch ← on_bus make_chan;
  added ← (fun es => match on_bus (AddTopic (sub_event f) ch) es with
                     | (Ok _, es') => (Ok true, es')
                     | (Err _, es') => (Ok false, es')
                     | (Panic e, es') => (Panic e, es')
                     end);
  if (added : bool) then modify (fun es => set_topicChans (<[sub_event f := ch]> (topicChans es)) es) else mret tt.

Definition close_err (id : ID) : M EventSystem unit := fun es =>
  if bool_decide (id ∈ errs es) then (Panic ErrCloseClosed, es)
  else (Ok tt, mkEventSystem (index es) (topicChans es) (uninstall es) ({[id]} ∪ errs es) (eventBus es)).

(** ... and to one that is to be uninstalled. *)
Definition eventLoop_uninstall (f : Subscription) : M EventSystem unit :=
  modify (fun es => set_index (delete (sub_typ f, sub_id f) (index es)) es) ;;
  channelInUse ← gets (fun es =>
    existsb (fun kv : FilterType * ID * Subscription => bool_decide (kv.1.1 = sub_typ f) && bool_decide (sub_event kv.2 = sub_event f))
      (map_to_list (index es)));
  (if (channelInUse : bool) then mret tt
   else
     ch ← gets (fun es => topicChans es !! sub_event f);
     match ch with
     | Some ch =>
         on_bus (RemoveTopic (sub_event f)) ;;
         on_bus (close_chan ch) ;;
         modify (fun es => set_topicChans (delete (sub_event f) (topicChans es)) es)
     | None => mret tt
     end) ;;
  close_err (sub_id f).

(** The loop takes a subscription from one of the goroutines that wait. *)
Fixpoint remove_one (s : Subscription) (l : list Subscription) : list Subscription :=
  match l with
  | [] => []
  | s' :: l' => if decide (sub_id s' = sub_id s) then l' else s' :: remove_one s l'
  end.

(** The steps of the goroutines of the event system that take no lock of the filters:
    the loop takes a subscription to uninstall, a publisher sees that its source was
    closed. *)
Inductive internal : Type := Loop (s : Subscription) | PublisherEnd (name : string) (src : chan).
#[export] Instance Subscription_eq_dec : EqDecision Subscription.
Proof. solve_decision. Defined.
Definition internal_enabled (i : internal) (es : EventSystem) : bool :=
  match i with
  | Loop s => bool_decide (s ∈ uninstall es)
  | PublisherEnd name src => bool_decide ((name, src) ∈ publishers (eventBus es)) && bool_decide (src ∈ closed (eventBus es))
  end.
Definition internal_step (i : internal) : M EventSystem unit :=
  match i with
  | Loop s => modify (fun es => set_uninstall (remove_one s (uninstall es)) es) ;; eventLoop_uninstall s
  | PublisherEnd name src => on_bus (publishTopic_end name src)
  end.
Definition interfere (l : list internal) : M EventSystem unit :=
  mapM_ (fun i => on ← gets (internal_enabled i); if (on : bool) then internal_step i else mret tt) l.

(** What happens around a subscription: the error the websocket client answers with, if
    any, and the internal steps that come between its accesses to the event bus. *)
Record around : Type := mkAround { ws_err : option gerr; before : list internal; after : list internal }.

Definition subscribe (sub : Subscription) (ws : around) : M EventSystem (chan * Z) :=
  existing ← gets (fun es => bool_decide (is_Some (topics (eventBus es) !! sub_event sub)));
  interfere (before ws) ;;
  if (existing : bool) then wrap_err (Errorf "failed to subscribe to topic") (on_bus (Subscribe (sub_event sub)))
  else
    match ws_err ws with Some e => err e | None => mret tt end ;;
    eventLoop_install sub ;;
    interfere (after ws) ;;
    wrap_err (Errorf "failed to subscribe to topic after installed") (on_bus (Subscribe (sub_event sub))).

Definition LatestBlockNumber : Z := -1.
Definition SubscribeLogs (id : ID) (crit : FilterCriteria) (ws : around) : M EventSystem (Subscription * (chan * Z)) :=
  let from := match fc_FromBlock crit with None => LatestBlockNumber | Some b => big_Int64 b end in
  let to := match fc_ToBlock crit with None => LatestBlockNumber | Some b => big_Int64 b end in
  if ((from =? LatestBlockNumber) && (to =? LatestBlockNumber)) || ((0 <=? from) && (0 <=? to) && (from <=? to)) ||
     ((0 <=? from) && (to =? LatestBlockNumber))
  then let sub := mkSubscription id LogsSubscription evmEvents in r ← subscribe sub ws; mret (sub, r)
  else err (Errorf "invalid from and to block combination").
Definition SubscribeNewHeads (id : ID) (ws : around) : M EventSystem (Subscription * (chan * Z)) :=
  let sub := mkSubscription id BlocksSubscription headerEvents in r ← subscribe sub ws; mret (sub, r).
Definition SubscribePendingTxs (id : ID) (ws : around) : M EventSystem (Subscription * (chan * Z)) :=
  let sub := mkSubscription id PendingTransactionsSubscription txEvents in r ← subscribe sub ws; mret (sub, r).

(** ** The filters *)

(** [fired] says that the timer of the deadline went off. *)
Record api_filter : Type := mkFilter {
  f_typ : FilterType;
  f_fired : bool;
  f_hashes : list Hash;
  f_crit : FilterCriteria;
  f_logs : list EthLog;
  f_s : Subscription
}.

(** [cmttypes.EventDataTx]: the transaction and the data of its result;
    [EventDataNewBlockHeader]: the hash of the header. *)
Inductive EventData : Type :=
  | EventDataTx (tx data : bytes)
  | EventDataNewBlockHeader (hash : bytes)
  | OtherEventData.

(** A goroutine that listens for the events of a filter: its channel and its id at the
    bus, and the event it has taken and not handled yet. *)
Record listener : Type := mkListener {
  l_typ : FilterType;
  l_crit : FilterCriteria;
  l_topic : string;
  l_ch : chan;
  l_uid : Z;
  l_got : option EventData
}.

Record PublicFilterAPI : Type := mkAPI {
  filters : gmap ID api_filter;
  events : EventSystem;
  listeners : gmap ID listener
}.

Definition NewPublicAPI : PublicFilterAPI := mkAPI ∅ NewEventSystem ∅.

Definition set_filters (fs : gmap ID api_filter) (api : PublicFilterAPI) : PublicFilterAPI := mkAPI fs (events api) (listeners api).
Definition set_listeners (ls : gmap ID listener) (api : PublicFilterAPI) : PublicFilterAPI := mkAPI (filters api) (events api) ls.
Definition on_events {A} (m : M EventSystem A) : M PublicFilterAPI A :=
  zoom events (fun es api => mkAPI (filters api) es (listeners api)) m.

Definition no_criteria : FilterCriteria := mkFilterCriteria None None None [] [].

(** The common part of the three constructors: the filter and its listener. *)
Definition install_filter (typ : FilterType) (crit : FilterCriteria) (s : Subscription) (ch : chan) (uid : Z) :
    M PublicFilterAPI unit :=
  modify (fun api => set_filters (<[sub_id s := mkFilter typ false [] crit [] s]> (filters api)) api) ;;
  modify (fun api => set_listeners (<[sub_id s := mkListener typ crit (sub_event s) ch uid None]> (listeners api)) api).

Section Filters.
Context {G : Geth} {HX : HexText} {BL : BloomLib}.
(** [RPCFilterCap] *)
Variable cap : Z.

Definition below_cap (e : gerr) : M PublicFilterAPI unit :=
  n ← gets (fun api => Z.of_nat (size (filters api)));
  require (negb (cap <=? n)) e.

(** [id] is what [rpc.NewID] gives. *)
Definition NewFilter (criteria : FilterCriteria) (id : ID) (ws : around) : M PublicFilterAPI ID :=
  below_cap (Errorf "error creating filter: max limit reached") ;;
  '(s, (ch, uid)) ← on_events (SubscribeLogs id criteria ws);
  install_filter LogsSubscription criteria s ch uid ;;
  mret id.

(** These two put the error into the id. *)
Definition NewBlockFilter (id : ID) (ws : around) : M PublicFilterAPI ID :=
  catch_err (
    below_cap (Errorf "error creating block filter: max limit reached") ;;
    '(s, (ch, uid)) ← on_events (SubscribeNewHeads id ws);
    install_filter BlocksSubscription no_criteria s ch uid ;;
    mret id) (fun _ => mret "error creating block filter"%string).
Definition NewPendingTransactionFilter (id : ID) (ws : around) : M PublicFilterAPI ID :=
  catch_err (
    below_cap (Errorf "error creating pending tx filter: max limit reached") ;;
    '(s, (ch, uid)) ← on_events (SubscribePendingTxs id ws);
    install_filter PendingTransactionsSubscription no_criteria s ch uid ;;
    mret id) (fun _ => mret "error creating pending tx filter"%string).

(** The goroutine of [Unsubscribe] starts to wait. *)
Definition Unsubscribe (s : Subscription) : M EventSystem unit :=
  modify (fun es => set_uninstall (s :: uninstall es) es).

Definition UninstallFilter (id : ID) : M PublicFilterAPI bool :=
  f ← gets (fun api => filters api !! id);
  match f with
  | None => mret false
  | Some f =>
      modify (fun api => set_filters (delete id (filters api)) api) ;;
      on_events (Unsubscribe (f_s f)) ;;
      mret true
  end.

(** A tick of [timeoutLoop]. *)
Definition timeout_filter (idf : ID * api_filter) : M PublicFilterAPI unit :=
  if f_fired idf.2 then
    on_events (Unsubscribe (f_s idf.2)) ;;
    modify (fun api => set_filters (delete idf.1 (filters api)) api)
  else mret tt.
Definition timeoutLoop_tick : M PublicFilterAPI unit :=
  fs ← gets (fun api => map_to_list (filters api));
  mapM_ timeout_filter fs.

Inductive FilterChanges : Type := Hashes (l : list Hash) | Logs (l : list EthLog).

Definition GetFilterChanges (id : ID) : M PublicFilterAPI FilterChanges :=
  f ← gets (fun api => filters api !! id);
  match f with
  | None => err (Errorf "filter not found")
  | Some f =>
      match f_typ f with
      | PendingTransactionsSubscription | BlocksSubscription =>
          modify (fun api => set_filters (<[id := mkFilter (f_typ f) false [] (f_crit f) (f_logs f) (f_s f)]> (filters api)) api) ;;
          mret (Hashes (f_hashes f))
      | LogsSubscription =>
          modify (fun api => set_filters (<[id := mkFilter (f_typ f) false (f_hashes f) (f_crit f) [] (f_s f)]> (filters api)) api) ;;
          mret (Logs (f_logs f))
      end
  end.

(** The search of [eth_getLogs] with the criteria of a filter. *)
Definition GetFilterLogs (BlockResults : Z -> res ResultBlockResults) (BlockByHash : Hash -> res Z)
    (LatestHeader : res (option Z)) (id : ID) (logLimit blockLimit : Z) : M PublicFilterAPI (list EthLog) :=
  f ← gets (fun api => filters api !! id);
  match f with
  | None => err (Errorf "filter not found")
  | Some f =>
      require (bool_decide (f_typ f = LogsSubscription)) (Errorf "filter doesn't have a LogsSubscription type") ;;
      lift_res (GetLogs BlockResults BlockByHash LatestHeader (f_crit f) logLimit blockLimit)
  end.

(** ** The listeners *)

(** [DecodeTxResponse]: the protobuf codec of the response is a parameter. *)
Variable DecodeTxResponse : bytes -> res MsgEthereumTxResponse.
Variable TxDecoder : bytes -> res Tx.

(** The logs of a receipt that was decoded: only the consensus fields are there. *)
Definition decoded_logs (receipt : Receipt) : list EthLog :=
  map (fun log => mkEthLog log 0 zero_hash 0 zero_hash 0) (rcpt_Logs receipt).

(** The end of a listener, with the deferred [cancelSubs]. *)
Definition listener_end (id : ID) (l : listener) : M PublicFilterAPI unit :=
  modify (fun api => set_listeners (delete id (listeners api)) api) ;;
  on_events (on_bus (unsubscribe (l_topic l) (l_uid l))).
Definition listener_wait (id : ID) (l : listener) : M PublicFilterAPI unit :=
  modify (fun api => set_listeners (<[id := mkListener (l_typ l) (l_crit l) (l_topic l) (l_ch l) (l_uid l) None]> (listeners api)) api).

(** [if f, found := api.filters[id]; found { ... }] *)
Definition update_filter (id : ID) (g : api_filter -> api_filter) : M PublicFilterAPI unit :=
  modify (fun api => set_filters (alter g id (filters api)) api).
Definition append_to (hashes : list Hash) (logs : list EthLog) (f : api_filter) : api_filter :=
  mkFilter (f_typ f) (f_fired f) (f_hashes f ++ hashes) (f_crit f) (f_logs f ++ logs) (f_s f).

(** What a listener makes of an event: nothing, hashes or logs for its filter, or its end. *)
Inductive reaction : Type :=
  | Continue
  | Append (hashes : list Hash) (logs : list EthLog)
  | Return
  | Crash (e : gerr).

Definition logs_reaction (crit : FilterCriteria) (ev : EventData) : reaction :=
  match ev with
  | EventDataTx _ data =>
      match DecodeTxResponse data with
      | Ok txResponse =>
          match Receipt_UnmarshalBinary (resp_MarshalledReceipt txResponse) with
          | Ok receipt =>
              Append [] (FilterLogs (decoded_logs receipt) (fc_FromBlock crit) (fc_ToBlock crit)
                           (fc_Addresses crit) (fc_Topics crit))
          | _ => Return
          end
      | _ => Return
      end
  | _ => Continue
  end.
Definition blocks_reaction (ev : EventData) : reaction :=
  match ev with EventDataNewBlockHeader hash => Append [BytesToHash hash] [] | _ => Continue end.
Definition pending_reaction (ev : EventData) : reaction :=
  match ev with
  | EventDataTx tx _ =>
      match TxDecoder tx with
      | Ok tx =>
          match GetMsgs tx with
          | [] => Crash IndexOutOfRange
          | EthMsg m :: _ =>
              match MsgEthereumTx_AsTransaction m with
              | Ok ethTx => Append [Transaction_Hash ethTx] []
              | _ => Crash (Errorf "failed to unmarshal transaction")
              end
          | _ => Continue
          end
      | _ => Continue
      end
  | _ => Continue
  end.
Definition react (l : listener) (ev : EventData) : reaction :=
  match l_typ l with
  | LogsSubscription => logs_reaction (l_crit l) ev
  | BlocksSubscription => blocks_reaction ev
  | PendingTransactionsSubscription => pending_reaction ev
  end.

Definition listen_event (id : ID) (l : listener) (ev : EventData) : M PublicFilterAPI unit :=
  match react l ev with
  | Continue => listener_wait id l
  | Append hashes logs => update_filter id (append_to hashes logs) ;; listener_wait id l
  | Return => listener_end id l
  | Crash e =>
      (** The messages are looked at only when the filter is found. *)
      found ← gets (fun api => bool_decide (is_Some (filters api !! id)));
      if (found : bool) then panic e else listener_wait id l
  end.

(** The channel of the events was closed. *)
Definition listen_closed (id : ID) (l : listener) : M PublicFilterAPI unit :=
  modify (fun api => set_filters (delete id (filters api)) api) ;; listener_end id l.

(** The error channel was closed; the listener of pending transactions does not return. *)
Definition listen_err (id : ID) (l : listener) : M PublicFilterAPI unit :=
  modify (fun api => set_filters (delete id (filters api)) api) ;;
  match l_typ l with
  | PendingTransactionsSubscription => mret tt
  | _ => listener_end id l
  end.

(** An event of the websocket client: [consumeEvents] looks for the channel of the query,
    and [publishAllSubscribers] hands it to the listeners that are ready to take it. *)
Definition take_event (ev : EventData) (l : listener) : listener :=
  mkListener (l_typ l) (l_crit l) (l_topic l) (l_ch l) (l_uid l) (Some ev).
Definition publish (query : string) (ev : EventData) (ready : gset ID) (api : PublicFilterAPI) : PublicFilterAPI :=
  match topicChans (events api) !! query with
  | None => api
  | Some ch =>
      match list_find (fun p => p.2 = ch) (publishers (eventBus (events api))) with
      | None => api
      | Some (_, (name, _)) =>
          let subs := default ∅ (subscribers (eventBus (events api)) !! name) in
          set_listeners (map_imap (fun id l =>
            Some (if bool_decide (id ∈ ready) && bool_decide (subs !! l_uid l = Some (l_ch l)) && bool_decide (l_got l = None)
                  then take_event ev l else l)) (listeners api)) api
      end
  end.

(** ** The system *)

Inductive action : Type :=
  | ANewFilter (crit : FilterCriteria) (id : ID) (ws : around)
  | ANewBlockFilter (id : ID) (ws : around)
  | ANewPendingTransactionFilter (id : ID) (ws : around)
  | AUninstall (id : ID)
  | APoll (id : ID)
  | AFire (id : ID)
  | ATimeout
  | AInternal (i : internal)
  | APublish (query : string) (ev : EventData) (ready : gset ID)
  | AListen (id : ID)
  | AClosed (id : ID)
  | AErr (id : ID).

(** What can be seen of a step. *)
Inductive outcome : Type :=
  | Nothing
  | Delivered (id : ID) (hashes : list Hash) (logs : list EthLog)
  | Polled (id : ID) (c : FilterChanges).

(** [rpc.NewID] is random: an id that is not in use. *)
Definition fresh (id : ID) (api : PublicFilterAPI) : Prop :=
  filters api !! id = None /\ listeners api !! id = None /\ (id ∉ errs (events api)) /\
  id ∉ map sub_id (uninstall (events api)).

Definition enabled (a : action) (api : PublicFilterAPI) : Prop :=
  match a with
  | ANewFilter _ id _ | ANewBlockFilter id _ | ANewPendingTransactionFilter id _ => fresh id api
  | AUninstall _ | APoll _ | AFire _ | ATimeout | APublish _ _ _ => True
  | AInternal i => internal_enabled i (events api) = true
  | AListen id => exists l, listeners api !! id = Some l /\ l_got l <> None
  | AClosed id => exists l, listeners api !! id = Some l /\ l_got l = None /\ l_ch l ∈ closed (eventBus (events api))
  | AErr id => exists l, listeners api !! id = Some l /\ l_got l = None /\ id ∈ errs (events api)
  end.

Definition fire (f : api_filter) : api_filter := mkFilter (f_typ f) true (f_hashes f) (f_crit f) (f_logs f) (f_s f).

Definition quietly {A} (m : M PublicFilterAPI A) : M PublicFilterAPI outcome := m ;; mret Nothing.
Definition with_listener (id : ID) (k : listener -> M PublicFilterAPI outcome) : M PublicFilterAPI outcome :=
  l ← gets (fun api => listeners api !! id);
  match l with Some l => k l | None => mret Nothing end.

Definition perform (a : action) : M PublicFilterAPI outcome :=
  match a with
  | ANewFilter crit id ws => quietly (NewFilter crit id ws)
  | ANewBlockFilter id ws => quietly (NewBlockFilter id ws)
  | ANewPendingTransactionFilter id ws => quietly (NewPendingTransactionFilter id ws)
  | AUninstall id => quietly (UninstallFilter id)
  | APoll id => c ← GetFilterChanges id; mret (Polled id c)
  | AFire id => quietly (update_filter id fire)
  | ATimeout => quietly timeoutLoop_tick
  | AInternal i => quietly (on_events (internal_step i))
  | APublish query ev ready => quietly (modify (publish query ev ready))
  | AListen id =>
      with_listener id (fun l =>
        match l_got l with
        | None => mret Nothing
        | Some ev =>
            listen_event id l ev ;;
            mret (match react l ev with Append hashes logs => Delivered id hashes logs | _ => Nothing end)
        end)
  | AClosed id => with_listener id (fun l => quietly (listen_closed id l))
  | AErr id => with_listener id (fun l => quietly (listen_err id l))
  end.

(** A step returns, with a result or an error for the client; a panic ends the process. *)
Inductive steps : PublicFilterAPI -> list (action * outcome) -> PublicFilterAPI -> Prop :=
  | steps_refl api : steps api [] api
  | steps_ok api a o api' tr api'' :
      enabled a api -> perform a api = (Ok o, api') -> steps api' tr api'' -> steps api ((a, o) :: tr) api''
  | steps_err api a e api' tr api'' :
      enabled a api -> perform a api = (Err e, api') -> steps api' tr api'' -> steps api ((a, Nothing) :: tr) api''.

Definition api_reachable (api : PublicFilterAPI) : Prop := exists tr, steps NewPublicAPI tr api.
End Filters.

(** ** What happens to a filter *)

Definition delivered_hashes (id : ID) (o : outcome) : list Hash :=
  match o with Delivered id' hashes _ => if decide (id' = id) then hashes else [] | _ => [] end.
Definition delivered_logs (id : ID) (o : outcome) : list EthLog :=
  match o with Delivered id' _ logs => if decide (id' = id) then logs else [] | _ => [] end.
Definition polled_hashes (id : ID) (o : outcome) : list Hash :=
  match o with Polled id' (Hashes l) => if decide (id' = id) then l else [] | _ => [] end.
Definition polled_logs (id : ID) (o : outcome) : list EthLog :=
  match o with Polled id' (Logs l) => if decide (id' = id) then l else [] | _ => [] end.

Definition outcome_of (r : res outcome) : outcome := match r with Ok o => o | _ => Nothing end.

(** What comes in and what goes out. *)
Definition balanced (id : ID) (o : outcome) (f f' : api_filter) : Prop :=
  f_typ f' = f_typ f /\ f_crit f' = f_crit f /\ f_s f' = f_s f /\
  f_hashes f ++ delivered_hashes id o = polled_hashes id o ++ f_hashes f' /\
  f_logs f ++ delivered_logs id o = polled_logs id o ++ f_logs f'.

(** The filter a constructor makes. *)
Definition new_filter (a : action) : option (ID * api_filter) :=
  match a with
  | ANewFilter crit id _ => Some (id, mkFilter LogsSubscription false [] crit [] (mkSubscription id LogsSubscription evmEvents))
  | ANewBlockFilter id _ =>
      Some (id, mkFilter BlocksSubscription false [] no_criteria [] (mkSubscription id BlocksSubscription headerEvents))
  | ANewPendingTransactionFilter id _ =>
      Some (id, mkFilter PendingTransactionsSubscription false [] no_criteria []
                  (mkSubscription id PendingTransactionsSubscription txEvents))
  | _ => None
  end.

Section Proofs.
Context {G : Geth} {HX : HexText} {BL : BloomLib}.
Variable cap : Z.
Variable DecodeTxResponse : bytes -> res MsgEthereumTxResponse.
Variable TxDecoder : bytes -> res Tx.
Abbreviation run := (perform cap DecodeTxResponse TxDecoder).
Abbreviation paths := (steps cap DecodeTxResponse TxDecoder).

Lemma on_events_frame {A} (m : M EventSystem A) api :
  on_events m api = (fst (m (events api)), mkAPI (filters api) (snd (m (events api))) (listeners api)).
Proof. unfold on_events, zoom. by destruct (m (events api)). Qed.

(** A filter that is kept is balanced, a new one comes from a constructor below the cap. *)
Definition filter_step (a : action) (api : PublicFilterAPI) (o : outcome) (api' : PublicFilterAPI) (id : ID) : Prop :=
  match filters api' !! id with
  | None => True
  | Some f' =>
      (exists f, filters api !! id = Some f /\ balanced id o f f') \/
      (new_filter a = Some (id, f') /\ Z.of_nat (size (filters api)) < cap /\ delete id (filters api') = filters api)
  end.

Lemma balanced_same id f : balanced id Nothing f f.
Proof. unfold balanced; simpl. by rewrite !app_nil_r. Qed.
Lemma step_shrink a api api' id : filters api' ⊆ filters api -> filter_step a api Nothing api' id.
Proof.
  intros E. unfold filter_step. destruct (filters api' !! id) as [f|] eqn:Ef; [|done]. left.
  exists f. split; [by eapply lookup_weaken|apply balanced_same].
Qed.
Lemma step_insert a api api' id k f : filters api !! k = None -> new_filter a = Some (k, f) ->
  Z.of_nat (size (filters api)) < cap -> filters api' = <[k := f]> (filters api) -> filter_step a api Nothing api' id.
Proof.
  intros Hk Hn Hc E. unfold filter_step. rewrite E. destruct (decide (id = k)) as [->|Hne].
  - rewrite lookup_insert_eq. right. split_and!; [done|done|]. by rewrite delete_insert_id.
  - rewrite lookup_insert_ne by done. destruct (filters api !! id) as [f'|] eqn:Ef; [|done]. left.
    exists f'. split; [done|apply balanced_same].
Qed.

Lemma below_cap_eq e api :
  below_cap cap e api = (if cap <=? Z.of_nat (size (filters api)) then Err e else Ok tt, api).
Proof. unfold below_cap, require, gets, mbind, M_bind. by destruct (_ <=? _). Qed.

(** The common shape of the constructors. *)
Lemma construct_step a api (e : gerr) (sub : M EventSystem (Subscription * (chan * Z))) typ crit id event r api' k :
  filters api !! id = None ->
  (forall es s c es', sub es = (Ok (s, c), es') -> s = mkSubscription id typ event) ->
  new_filter a = Some (id, mkFilter typ false [] crit [] (mkSubscription id typ event)) ->
  (below_cap cap e ;; '(s, (ch, uid)) ← on_events sub; install_filter typ crit s ch uid ;; mret id) api = (r, api') ->
  filter_step a api Nothing api' k.
Proof.
  intros Hid Hsub Hn. unfold mbind, M_bind. rewrite below_cap_eq.
  destruct (Z.leb_spec cap (Z.of_nat (size (filters api)))) as [Hc|Hc].
  { intros [= <- <-]. by apply step_shrink. }
  rewrite on_events_frame.
  destruct (sub (events api)) as [[[s [ch uid]]|e'|e'] es'] eqn:Es; cbn [fst snd];
    [|by intros [= <- <-]; apply step_shrink|by intros [= <- <-]; apply step_shrink].
  apply Hsub in Es as ->. intros [= <- <-]. by eapply step_insert.
Qed.

Lemma SubscribeLogs_sub id crit ws es s c es' :
  SubscribeLogs id crit ws es = (Ok (s, c), es') -> s = mkSubscription id LogsSubscription evmEvents.
Proof.
  unfold SubscribeLogs. case_match; [|done]. intros (r & es1 & _ & E)%bind_ok_inv. by injection E.
Qed.
Lemma SubscribeNewHeads_sub id ws es s c es' :
  SubscribeNewHeads id ws es = (Ok (s, c), es') -> s = mkSubscription id BlocksSubscription headerEvents.
Proof. unfold SubscribeNewHeads. intros (r & es1 & _ & E)%bind_ok_inv. by injection E. Qed.
Lemma SubscribePendingTxs_sub id ws es s c es' :
  SubscribePendingTxs id ws es = (Ok (s, c), es') -> s = mkSubscription id PendingTransactionsSubscription txEvents.
Proof. unfold SubscribePendingTxs. intros (r & es1 & _ & E)%bind_ok_inv. by injection E. Qed.

Lemma quietly_inv {A} (m : M PublicFilterAPI A) api r api' :
  quietly m api = (r, api') -> exists r0, m api = (r0, api') /\ outcome_of r = Nothing.
Proof. unfold quietly, mbind, M_bind. destruct (m api) as [[]]; intros [= <- <-]; eauto. Qed.
Lemma catch_err_inv {A} (m : M PublicFilterAPI A) x api r api' :
  catch_err m (fun _ => mret x) api = (r, api') -> exists r0, m api = (r0, api').
Proof. unfold catch_err. destruct (m api) as [[]]; intros [= <- <-]; eauto. Qed.

(** Operations that remove filters or leave them alone. *)
Definition shrinks {A} (m : M PublicFilterAPI A) : Prop := forall api, filters (snd (m api)) ⊆ filters api.
Lemma shrinks_bind {A B} (m : M PublicFilterAPI A) (k : A -> M PublicFilterAPI B) :
  shrinks m -> (forall a, shrinks (k a)) -> shrinks (m ≫= k).
Proof.
  intros Hm Hk api. unfold mbind, M_bind. specialize (Hm api). destruct (m api) as [[a|e|e] api1]; [|done|done].
  etrans; [apply Hk|exact Hm].
Qed.
Lemma shrinks_on_events {A} (m : M EventSystem A) : shrinks (on_events m).
Proof. intros api. by rewrite on_events_frame. Qed.
Lemma shrinks_listeners (g : PublicFilterAPI -> gmap ID listener) : shrinks (modify (fun api => set_listeners (g api) api)).
Proof. by intros api. Qed.
Lemma shrinks_delete id : shrinks (modify (fun api => set_filters (delete id (filters api)) api)).
Proof. intros api. apply delete_subseteq. Qed.
Lemma shrinks_pure {A} (r : res A) : shrinks (fun api => (r, api)).
Proof. by intros api. Qed.
Lemma shrinks_mapM {A} (f : A -> M PublicFilterAPI unit) l : (forall x, shrinks (f x)) -> shrinks (mapM_ f l).
Proof.
  intros Hf. induction l as [|x l IH]; [apply (shrinks_pure (Ok tt))|]. simpl. apply shrinks_bind; auto.
Qed.
Create HintDb filters.
#[local] Hint Resolve shrinks_on_events shrinks_listeners shrinks_delete shrinks_pure : filters.
#[local] Hint Extern 2 (shrinks (_ ≫= _)) => apply shrinks_bind; [|intros ?] : filters.
#[local] Hint Extern 1 (shrinks (mret ?x)) => apply (shrinks_pure (Ok x)) : filters.
#[local] Hint Extern 1 (shrinks (panic ?x)) => apply (shrinks_pure (Panic x)) : filters.
#[local] Hint Extern 1 (shrinks (gets _)) => intros ?; reflexivity : filters.

Lemma listener_end_shrinks id l : shrinks (listener_end id l).
Proof. unfold listener_end. auto with filters. Qed.
Lemma listener_wait_shrinks id l : shrinks (listener_wait id l).
Proof. unfold listener_wait. apply (shrinks_listeners (fun api => <[id := _]> (listeners api))). Qed.
#[local] Hint Resolve listener_end_shrinks listener_wait_shrinks : filters.

Lemma shrinks_step {A} (m : M PublicFilterAPI A) a api r api' id :
  shrinks m -> m api = (r, api') -> filter_step a api Nothing api' id.
Proof. intros Hm E. apply step_shrink. specialize (Hm api). by rewrite E in Hm. Qed.

Lemma UninstallFilter_shrinks id : shrinks (UninstallFilter id).
Proof. unfold UninstallFilter. apply shrinks_bind; [auto with filters|]. intros [f|]; auto with filters. Qed.
Lemma timeout_shrinks : shrinks timeoutLoop_tick.
Proof.
  unfold timeoutLoop_tick. apply shrinks_bind; [auto with filters|]. intros fs. apply shrinks_mapM. intros [k f].
  unfold timeout_filter. case_match; auto with filters.
Qed.
Lemma listen_closed_shrinks id l : shrinks (listen_closed id l).
Proof. unfold listen_closed. auto with filters. Qed.
Lemma listen_err_shrinks id l : shrinks (listen_err id l).
Proof. unfold listen_err. apply shrinks_bind; [auto with filters|]. intros _. destruct (l_typ l); auto with filters. Qed.
Lemma publish_filters query ev ready api : filters (publish query ev ready api) = filters api.
Proof. unfold publish. repeat case_match; done. Qed.

Lemma poll_step id api r api' k : GetFilterChanges id api = (r, api') ->
  filter_step (APoll id) api (match r with Ok c => Polled id c | _ => Nothing end) api' k.
Proof.
  unfold GetFilterChanges, gets, mbind, M_bind. destruct (filters api !! id) as [f|] eqn:Ef.
  2:{ intros [= <- <-]. by apply step_shrink. }
  assert (forall hs ls c, balanced id (Polled id c) f (mkFilter (f_typ f) false hs (f_crit f) ls (f_s f)) ->
    filter_step (APoll id) api (Polled id c)
      (set_filters (<[id := mkFilter (f_typ f) false hs (f_crit f) ls (f_s f)]> (filters api)) api) k) as Hins.
  { intros hs ls c Hb. unfold filter_step. cbn [filters set_filters]. destruct (decide (k = id)) as [->|Hne].
    - rewrite lookup_insert_eq. left. by exists f.
    - rewrite lookup_insert_ne by done. destruct (filters api !! k) as [f'|] eqn:Ek; [|done]. left. exists f'.
      split; [done|]. unfold balanced, delivered_hashes, delivered_logs, polled_hashes, polled_logs.
      destruct c; rewrite decide_False by done; by rewrite !app_nil_r. }
  unfold modify, mret, M_ret.
  destruct (f_typ f) eqn:Et; intros [= <- <-]; apply Hins; unfold balanced; simpl; rewrite decide_True by done;
    by rewrite !app_nil_r.
Qed.

Lemma deliver_step a id hashes logs api api' k : filters api' = alter (append_to hashes logs) id (filters api) ->
  filter_step a api (Delivered id hashes logs) api' k.
Proof.
  intros E. unfold filter_step. rewrite E. destruct (decide (k = id)) as [->|Hne].
  - rewrite lookup_alter_eq. destruct (filters api !! id) as [f|]; [|done]. left. exists f. split; [done|].
    unfold balanced. simpl. rewrite !decide_True by done. done.
  - rewrite lookup_alter_ne by done. destruct (filters api !! k) as [f|]; [|done]. left. exists f. split; [done|].
    unfold balanced. simpl. rewrite !decide_False by done. by rewrite !app_nil_r.
Qed.

Lemma with_listener_inv id k api r api' : with_listener id k api = (r, api') ->
  (listeners api !! id = None /\ r = Ok Nothing /\ api' = api) \/
  exists l, listeners api !! id = Some l /\ k l api = (r, api').
Proof.
  unfold with_listener, gets, mbind, M_bind. destruct (listeners api !! id) as [l|]; [by eauto|].
  intros [= <- <-]. auto.
Qed.

Lemma listen_step id l ev api r api' k : listen_event DecodeTxResponse TxDecoder id l ev api = (r, api') ->
  filter_step (AListen id) api
    (match react DecodeTxResponse TxDecoder l ev with Append hashes logs => Delivered id hashes logs | _ => Nothing end) api' k.
Proof.
  unfold listen_event. destruct (react _ _ l ev) as [|hashes logs| |e].
  - apply shrinks_step. auto with filters.
  - intros E. apply deliver_step. unfold update_filter, listener_wait, modify, mbind, M_bind in E. by injection E as _ <-.
  - apply shrinks_step. auto with filters.
  - apply shrinks_step. apply shrinks_bind; [auto with filters|]. intros []; auto with filters.
Qed.

Lemma perform_step a api r api' id : enabled a api -> run a api = (r, api') -> filter_step a api (outcome_of r) api' id.
Proof.
  intros Hen. destruct a; cbn [perform].
  - intros (r0 & E & ->)%quietly_inv. destruct Hen as [Hid _]. eapply construct_step; [exact Hid| |done|exact E].
    intros *. apply SubscribeLogs_sub.
  - intros (r0 & E & ->)%quietly_inv. apply catch_err_inv in E as [r1 E]. destruct Hen as [Hid _].
    eapply construct_step; [exact Hid| |done|exact E]. intros *. apply SubscribeNewHeads_sub.
  - intros (r0 & E & ->)%quietly_inv. apply catch_err_inv in E as [r1 E]. destruct Hen as [Hid _].
    eapply construct_step; [exact Hid| |done|exact E]. intros *. apply SubscribePendingTxs_sub.
  - intros (r0 & E & ->)%quietly_inv. revert E. apply shrinks_step, UninstallFilter_shrinks.
  - unfold mbind, M_bind. destruct (GetFilterChanges id0 api) as [[c|e|e] api1] eqn:E; intros [= <- <-];
      exact (poll_step _ _ _ _ id E).
  - intros (r0 & E & ->)%quietly_inv. unfold update_filter, modify in E. injection E as _ <-.
    unfold filter_step. cbn [filters set_filters]. destruct (decide (id = id0)) as [->|Hne].
    + rewrite lookup_alter_eq. destruct (filters api !! id0) as [f|]; [|done]. left. exists f. split; [done|].
      unfold balanced. simpl. by rewrite !app_nil_r.
    + rewrite lookup_alter_ne by done. destruct (filters api !! id) as [f|]; [|done]. left. exists f.
      split; [done|apply balanced_same].
  - intros (r0 & E & ->)%quietly_inv. revert E. apply shrinks_step, timeout_shrinks.
  - intros (r0 & E & ->)%quietly_inv. revert E. apply shrinks_step. auto with filters.
  - intros (r0 & E & ->)%quietly_inv. unfold modify in E. injection E as _ <-. apply step_shrink. by rewrite publish_filters.
  - intros [(_ & -> & ->)|(l & _ & E)]%with_listener_inv; [by apply step_shrink|].
    destruct (l_got l) as [ev|]; [|injection E as <- <-; by apply step_shrink].
    unfold mbind, M_bind in E. destruct (listen_event _ _ id0 l ev api) as [[u|e|e] api1] eqn:El; injection E as <- <-.
    + exact (listen_step _ _ _ _ _ _ id El).
    + pose proof (listen_step _ _ _ _ _ _ id El) as H. unfold listen_event in El.
      destruct (react _ _ l ev); [exact H| |exact H|exact H]. unfold update_filter, listener_wait, modify, mbind, M_bind in El. done.
    + pose proof (listen_step _ _ _ _ _ _ id El) as H. unfold listen_event in El.
      destruct (react _ _ l ev); [exact H| |exact H|exact H]. unfold update_filter, listener_wait, modify, mbind, M_bind in El. done.
  - intros [(_ & -> & ->)|(l & _ & (r0 & E & ->)%quietly_inv)]%with_listener_inv; [by apply step_shrink|].
    revert E. apply shrinks_step, listen_closed_shrinks.
  - intros [(_ & -> & ->)|(l & _ & (r0 & E & ->)%quietly_inv)]%with_listener_inv; [by apply step_shrink|].
    revert E. apply shrinks_step, listen_err_shrinks.
Qed.

(** ** What is polled is what was delivered *)

Definition not_created (id : ID) (tr : list (action * outcome)) : Prop :=
  Forall (fun ao => fst <$> new_filter ao.1 <> Some id) tr.
Definition balance (id : ID) (tr : list (action * outcome)) (f f' : api_filter) : Prop :=
  f_hashes f ++ concat (map (fun ao => delivered_hashes id ao.2) tr) =
    concat (map (fun ao => polled_hashes id ao.2) tr) ++ f_hashes f' /\
  f_logs f ++ concat (map (fun ao => delivered_logs id ao.2) tr) =
    concat (map (fun ao => polled_logs id ao.2) tr) ++ f_logs f'.

Lemma step_back a api r api' id f' : enabled a api -> run a api = (r, api') ->
  fst <$> new_filter a <> Some id -> filters api' !! id = Some f' ->
  exists f, filters api !! id = Some f /\ balanced id (outcome_of r) f f'.
Proof.
  intros He E Hn Hf. pose proof (perform_step _ _ _ _ id He E) as H. unfold filter_step in H. rewrite Hf in H.
  destruct H as [H|(Hnew & _)]; [exact H|]. by rewrite Hnew in Hn.
Qed.

Lemma steps_back api tr api' id f' : paths api tr api' -> not_created id tr -> filters api' !! id = Some f' ->
  exists f, filters api !! id = Some f /\ balance id tr f f'.
Proof.
  induction 1 as [api|api a o api1 tr api' He E _ IH|api a e api1 tr api' He E _ IH]; intros Hn Hf.
  - exists f'. unfold balance. simpl. by rewrite !app_nil_r.
  - apply Forall_cons in Hn as [Ha Hn]. destruct (IH Hn Hf) as (f1 & Hf1 & B1 & B2).
    destruct (step_back _ _ _ _ _ _ He E Ha Hf1) as (f & Hf0 & _ & _ & _ & C1 & C2).
    exists f. split; [done|]. unfold balance. simpl in *. rewrite !app_assoc, C1, C2, <- !app_assoc, B1, B2. done.
  - apply Forall_cons in Hn as [Ha Hn]. destruct (IH Hn Hf) as (f1 & Hf1 & B1 & B2).
    destruct (step_back _ _ _ _ _ _ He E Ha Hf1) as (f & Hf0 & _ & _ & _ & C1 & C2).
    exists f. split; [done|]. unfold balance. simpl in *. rewrite !app_nil_r in C1, C2. by rewrite C1, C2.
Qed.

(** C34 However clients, the event loop, publishers and listeners interleave: as long as a
    filter lives, what the polls of it have answered, in order, followed by what it still
    holds is what it held at first followed by all that was delivered to it: no hash or log
    is lost, repeated or reordered by polling. *)
Theorem polls_are_exact (api api' : PublicFilterAPI) (tr : list (action * outcome)) (id : ID) (f f' : api_filter)
    (Hrun : steps cap DecodeTxResponse TxDecoder api tr api')
    (Hkept : not_created id tr)
    (Hf : filters api !! id = Some f)
    (Hf' : filters api' !! id = Some f') :
  f_hashes f ++ concat (map (fun ao => delivered_hashes id ao.2) tr) =
    concat (map (fun ao => polled_hashes id ao.2) tr) ++ f_hashes f' /\
  f_logs f ++ concat (map (fun ao => delivered_logs id ao.2) tr) =
    concat (map (fun ao => polled_logs id ao.2) tr) ++ f_logs f'.
Proof. destruct (steps_back _ _ _ _ _ Hrun Hkept Hf') as (f0 & Hf0 & B). simplify_eq. exact B. Qed.

(** ** The cap *)

Lemma size_step a api r api' : enabled a api -> run a api = (r, api') ->
  (size (filters api') <= size (filters api))%nat \/
  (Z.of_nat (size (filters api)) < cap /\ size (filters api') = S (size (filters api))).
Proof.
  intros He E. assert (forall id, filter_step a api (outcome_of r) api' id) as H by (intros id; by eapply perform_step).
  destruct (set_choose_or_empty (dom (filters api') ∖ dom (filters api))) as [[k Hk]|Hno].
  - right. apply elem_of_difference in Hk as [[f' Hf']%elem_of_dom Hk%not_elem_of_dom]. specialize (H k).
    unfold filter_step in H. rewrite Hf' in H. destruct H as [(f & Hf & _)|(_ & Hc & Hd)]; [congruence|]. split; [exact Hc|].
    rewrite <- Hd, <- (insert_delete_id _ _ _ Hf') at 1. rewrite map_size_insert_None; [done|apply lookup_delete_eq].
  - left. rewrite <- !size_dom. apply subseteq_size. set_solver.
Qed.

(** There are never more filters than [RPCFilterCap] allows. *)
Theorem filters_within_cap (api : PublicFilterAPI) (Hr : api_reachable cap DecodeTxResponse TxDecoder api) :
  Z.of_nat (size (filters api)) <= Z.max 0 cap.
Proof.
  destruct Hr as [tr Hr].
  assert (forall a0, paths a0 tr api -> Z.of_nat (size (filters a0)) <= Z.max 0 cap ->
    Z.of_nat (size (filters api)) <= Z.max 0 cap) as Hind.
  { clear Hr. intros a0 Hr. induction Hr as [|? ? ? ? ? ? He E _ IH|? ? ? ? ? ? He E _ IH]; intros H0; [done| |];
      apply IH; destruct (size_step _ _ _ _ He E) as [|[]]; lia. }
  apply (Hind _ Hr). cbn [filters NewPublicAPI]. rewrite map_size_empty. lia.
Qed.
End Proofs.
