(* ===== verification/FilterSafety.v ===== *)
(** * Live filters: no channel is closed twice, and two filters that do not work

    The event loop closes the source of a topic and the error channel of a subscription,
    a publisher closes the channels of the subscribers; closing a closed channel would end
    the process.  The invariant gives every channel that may be closed exactly one owner. *)

From stdpp Require Import base gmap list strings.
From S2P Require Import Prelude Sdk Geth EvmTypes TxTypes AnteTx Genesis Indexer RpcLogs FilterSystem.

(** ** Computations that keep an invariant and never close a channel twice *)

Definition calm {S A} (I : S -> Prop) (m : M S A) : Prop :=
  forall s, I s -> I (snd (m s)) /\ fst (m s) <> Panic ErrCloseClosed.

Section Calm.
Context {S : Type} (I : S -> Prop).
Lemma calm_res {A} (r : res A) : r <> Panic ErrCloseClosed -> calm I (fun s => (r, s)).
Proof. by intros Hr s Hs. Qed.
Lemma calm_ret {A} (a : A) : calm I (mret a).
Proof. by apply calm_res. Qed.
Lemma calm_err {A} e : calm I (err e : M S A).
Proof. by apply calm_res. Qed.
Lemma calm_require b e : calm I (require b e).
Proof. destruct b; [apply calm_ret|apply calm_err]. Qed.
Lemma calm_gets {A} (f : S -> A) : calm I (gets f).
Proof. by intros s Hs. Qed.
Lemma calm_modify (f : S -> S) : (forall s, I s -> I (f s)) -> calm I (modify f).
Proof. intros Hf s Hs. split; [by apply Hf|done]. Qed.
Lemma calm_bind {A B} (m : M S A) (k : A -> M S B) : calm I m -> (forall a, calm I (k a)) -> calm I (m ≫= k).
Proof.
  intros Hm Hk s Hs. unfold mbind, M_bind. destruct (Hm s Hs) as [H1 H2].
  destruct (m s) as [[a|e|e] s']; cbn [fst snd] in *; [by apply Hk|done|].
  split; [done|]. intros [= ->]. by apply H2.
Qed.
Lemma calm_wrap_err {A} e (m : M S A) : calm I m -> calm I (wrap_err e m).
Proof. intros Hm s Hs. destruct (Hm s Hs). unfold wrap_err. by destruct (m s) as [[] s']. Qed.
Lemma calm_catch {A} (m : M S A) h : calm I m -> (forall e, calm I (h e)) -> calm I (catch_err m h).
Proof.
  intros Hm Hh s Hs. destruct (Hm s Hs). unfold catch_err.
  destruct (m s) as [[a|e|e] s']; cbn [fst snd] in *; [done|apply Hh; done|done].
Qed.
Lemma calm_mapM {A} (f : A -> M S unit) l : (forall a, calm I (f a)) -> calm I (mapM_ f l).
Proof. intros Hf. induction l as [|x l IH]; simpl; [apply calm_ret|]. apply calm_bind; [done|]. by intros _. Qed.
End Calm.
Create HintDb calm.
#[export] Hint Resolve calm_ret calm_err calm_require calm_gets calm_bind calm_wrap_err calm_catch calm_mapM : calm.

(** ** The owners of the channels *)

Inductive slot : Type := Source (name : string) | Receiver (name : string) (id : Z).
Definition slots_ok (own : slot -> option chan) (closed : gset chan) (next : chan) : Prop :=
  (forall s1 s2 c, own s1 = Some c -> own s2 = Some c -> s1 = s2) /\
  (forall s c, own s = Some c -> (c ∉ closed) /\ (c < next)%nat) /\
  (forall c, c ∈ closed -> (c < next)%nat).

Lemma slots_mono own own' cl n : slots_ok own cl n -> (forall s c, own' s = Some c -> own s = Some c) -> slots_ok own' cl n.
Proof. intros (H1 & H2 & H3) H. split_and!; [eauto|eauto|done]. Qed.
Lemma slots_new own own' cl n s0 : slots_ok own cl n ->
  (forall s c, own' s = Some c -> own s = Some c \/ (s = s0 /\ c = n)) -> slots_ok own' cl (S n).
Proof.
  intros (H1 & H2 & H3) H. split_and!.
  - intros s1 s2 c [E1|[-> ->]]%H [E2|[-> E2]]%H; [eauto| | |done].
    + subst. apply H2 in E1. lia.
    + apply H2 in E2. lia.
  - intros s c [E|[-> ->]]%H.
    + apply H2 in E as [? ?]. split; [done|lia].
    + split; [|lia]. intros ?%H3. lia.
  - intros c ?%H3. lia.
Qed.
Lemma slots_skip own cl n : slots_ok own cl n -> slots_ok own cl (S n).
Proof. intros H. eapply (slots_new _ _ _ _ (Source "")); [exact H|]. auto. Qed.
Lemma slots_close own own' cl n (d : gset chan) : slots_ok own cl n ->
  (forall c, c ∈ d -> exists s, own s = Some c) ->
  (forall s c, own' s = Some c -> own s = Some c /\ c ∉ d) -> slots_ok own' (d ∪ cl) n.
Proof.
  intros (H1 & H2 & H3) Hd H. split_and!.
  - intros s1 s2 c [? _]%H [? _]%H. eauto.
  - intros s c [E Hn]%H. apply H2 in E as [? ?]. split; [set_solver|done].
  - intros c [[s E]%Hd|?%H3]%elem_of_union; [apply H2 in E; apply E|done].
Qed.

Definition owner (es : EventSystem) (s : slot) : option chan :=
  match s with
  | Source name => topicChans es !! name
  | Receiver name id => subscribers (eventBus es) !! name ≫= (fun m => m !! id)
  end.

(** The ids of the filters that live, of those that wait to be uninstalled and of those
    whose error channel is closed. *)
Definition ids_ok (live : gset ID) (es : EventSystem) : Prop :=
  NoDup (map sub_id (uninstall es)) /\
  (forall id, id ∈ map sub_id (uninstall es) -> id ∉ errs es) /\
  (forall id, id ∈ live -> (id ∉ errs es) /\ id ∉ map sub_id (uninstall es)).
Definition es_ok (live : gset ID) (es : EventSystem) : Prop :=
  slots_ok (owner es) (closed (eventBus es)) (next_chan (eventBus es)) /\ ids_ok live es.

Lemma close_all (l : list (Z * chan)) b : NoDup l.*2 -> (forall c, c ∈ l.*2 -> c ∉ closed b) ->
  mapM_ (fun kv : Z * chan => close_chan kv.2) l b =
  (Ok tt, mkBus (topics b) (subscribers b) (currentUniqueID b) (publishers b) (list_to_set l.*2 ∪ closed b) (next_chan b)).
Proof.
  revert b. induction l as [|[k c] l IH]; intros b Hnd Hc; simpl.
  - rewrite union_empty_l_L. by destruct b.
  - apply NoDup_cons in Hnd as [Hn Hnd]. unfold mbind, M_bind, close_chan at 1. cbn [snd].
    rewrite bool_decide_eq_false_2 by (apply Hc; by left). rewrite IH; [| done|].
    + cbn. rewrite (assoc_L (∪)), (comm_L (∪) (list_to_set _)). done.
    + intros c' Hc'. cbn [closed]. specialize (Hc c'). set_solver.
Qed.

Section Calmness.
Variable live : gset ID.
Abbreviation J := (es_ok live).

Lemma publishTopic_end_calm name src : calm J (on_bus (publishTopic_end name src)).
Proof.
  intros es [(H1 & H2 & H3) Hids]. set (b := eventBus es) in *. set (subs := default ∅ (subscribers b !! name)).
  assert (forall k c, (k, c) ∈ map_to_list subs -> owner es (Receiver name k) = Some c) as Hown.
  { intros k c Hk%elem_of_map_to_list. subst subs. cbn [owner]. fold b. by destruct (subscribers b !! name) as [m|]. }
  assert (NoDup (map_to_list subs).*2) as Hnd.
  { apply NoDup_fmap_2_strong; [|apply NoDup_map_to_list]. intros [k1 c1] [k2 c2] E1%Hown E2%Hown Ec. simpl in Ec. subst c2.
    specialize (H1 _ _ _ E1 E2). congruence. }
  assert (forall c, c ∈ (map_to_list subs).*2 -> exists s, owner es s = Some c) as Hin.
  { intros c ([k c'] & -> & Hk)%list_elem_of_fmap. eauto. }
  unfold on_bus, zoom, publishTopic_end, closeAllSubscribers, gets, modify, mbind, M_bind. fold b. fold subs.
  rewrite close_all; [|done|intros c [s Es]%Hin; apply H2 in Es; apply Es].
  cbn [fst snd]. split; [|done]. split; [|exact Hids]. cbn [eventBus set_bus closed next_chan set_topics set_publishers set_subscribers].
  eapply slots_close; [exact (conj H1 (conj H2 H3))|intros c Hc; apply Hin; by apply elem_of_list_to_set in Hc|].
  intros s c Es.
  assert (owner es s = Some c /\ forall k, s <> Receiver name k) as [Es' Hne].
  { destruct s as [n|n k]; cbn in Es |- *; [done|]. fold b. fold b in Es. destruct (decide (n = name)) as [->|Hn].
    - by rewrite lookup_delete_eq in Es.
    - rewrite lookup_delete_ne in Es by done. split; [done|]. by intros k' [= -> _]. }
  split; [done|]. intros ([k c'] & -> & Hk%Hown)%elem_of_list_to_set%list_elem_of_fmap. by apply (Hne k), (H1 _ _ c').
Qed.

Lemma Subscribe_calm name : calm J (on_bus (Subscribe name)).
Proof.
  intros es [Hs Hids]. unfold on_bus, zoom, Subscribe, require, make_chan, GenUniqueID, gets, modify, mret, M_ret, mbind, M_bind.
  destruct (bool_decide _); cbn [err fst snd]; [|split; [|done]; by destruct es].
  split; [|done]. split; [|exact Hids].
  eapply (slots_new _ _ _ _ (Receiver name (add64 (currentUniqueID (eventBus es)) 1))); [exact Hs|].
  intros [n|n k] c; cbn; [by left|]. destruct (decide (n = name)) as [->|Hn].
  - rewrite lookup_insert_eq. cbn. destruct (decide (k = add64 (currentUniqueID (eventBus es)) 1)) as [->|Hk].
    + rewrite lookup_insert_eq. intros [= <-]. by right.
    + rewrite lookup_insert_ne by done. left. by destruct (subscribers (eventBus es) !! name).
  - rewrite lookup_insert_ne by done. by left.
Qed.

Lemma unsubscribe_calm name id : calm J (on_bus (unsubscribe name id)).
Proof.
  intros es [Hs Hids]. split; [|done]. split; [|exact Hids]. eapply slots_mono; [exact Hs|].
  intros [n|n k] c; cbn; [done|]. destruct (decide (n = name)) as [->|Hn].
  - rewrite lookup_alter_eq. destruct (subscribers (eventBus es) !! name) as [m|]; [|done]. cbn.
    destruct (decide (k = id)) as [->|Hk]; [by rewrite lookup_delete_eq|by rewrite lookup_delete_ne].
  - by rewrite lookup_alter_ne.
Qed.

Lemma eventLoop_install_calm f : calm J (eventLoop_install f).
Proof.
  intros es [Hs Hids].
  unfold eventLoop_install, on_bus, zoom, AddTopic, require, make_chan, gets, modify, mret, M_ret, mbind, M_bind.
  cbn [eventBus set_bus set_index topics]. destruct (bool_decide _); cbn; (split; [|done]); (split; [|exact Hids]); cbn.
  - eapply slots_skip, slots_mono; [exact Hs|]. by intros [n|n k] c.
  - eapply (slots_new _ _ _ _ (Source (sub_event f))); [exact Hs|]. intros [n|n k] c; cbn; [|by left].
    destruct (decide (n = sub_event f)) as [->|Hn].
    + rewrite lookup_insert_eq. intros [= <-]. by right.
    + rewrite lookup_insert_ne by done. by left.
Qed.

Lemma remove_one_ids s l : sub_id s ∈ map sub_id l -> NoDup (map sub_id l) ->
  NoDup (map sub_id (remove_one s l)) /\ (sub_id s ∉ map sub_id (remove_one s l)) /\
  (forall id, id ∈ map sub_id (remove_one s l) -> id ∈ map sub_id l).
Proof.
  induction l as [|s' l IH]; simpl; [by intros ?%elem_of_nil|].
  rewrite NoDup_cons, elem_of_cons. intros Hin [Hn Hnd]. destruct (decide (sub_id s' = sub_id s)) as [E|Hne].
  - rewrite <- E. split_and!; [done|done|]. intros id. by right.
  - destruct Hin as [?|Hin]; [congruence|]. destruct (IH Hin Hnd) as (I1 & I2 & I3). simpl.
    rewrite NoDup_cons, !not_elem_of_cons. split_and!; [by intros ?%I3|done|done|done|].
    intros id. rewrite !elem_of_cons. intros [?|?%I3]; auto.
Qed.

(** The source of a topic is closed by its one owner. *)
Lemma close_source_calm event :
  calm J (ch ← gets (fun es => topicChans es !! event);
    match ch with
    | Some ch =>
        on_bus (RemoveTopic event) ;; on_bus (close_chan ch) ;;
        modify (fun es => set_topicChans (delete event (topicChans es)) es)
    | None => mret tt
    end).
Proof.
  intros es [Hs Hids]. unfold gets, mbind, M_bind. destruct (topicChans es !! event) as [ch|] eqn:Ech; [|done].
  unfold on_bus, zoom, RemoveTopic, close_chan, modify. cbn [eventBus set_bus set_topics closed].
  pose proof Hs as (H1 & H2 & _). rewrite bool_decide_eq_false_2 by (by apply (H2 (Source event))).
  cbn [fst snd]. split; [|done]. split; [|exact Hids]. cbn. eapply slots_close; [exact Hs| |].
  - intros c ->%elem_of_singleton. by exists (Source event).
  - intros s c Es. assert (owner es s = Some c /\ s <> Source event) as [Es' Hne].
    { destruct s as [n|n k]; cbn in Es |- *; [|done]. destruct (decide (n = event)) as [->|Hn].
      - by rewrite lookup_delete_eq in Es.
      - rewrite lookup_delete_ne in Es by done. split; [done|congruence]. }
    split; [done|]. intros ->%elem_of_singleton. by apply Hne, (H1 _ _ ch).
Qed.

End Calmness.

(** The last step of a computation may give up a part of the invariant. *)
Lemma calm_then {S A B} (I J : S -> Prop) (m : M S A) (k : M S B) s : calm I m -> (forall s, I s -> J s) ->
  (forall s, I s -> J (snd (k s)) /\ fst (k s) <> Panic ErrCloseClosed) ->
  I s -> J (snd ((m ;; k) s)) /\ fst ((m ;; k) s) <> Panic ErrCloseClosed.
Proof.
  intros Hm HIJ Hk Hs. unfold mbind, M_bind. destruct (Hm s Hs) as [H1 H2].
  destruct (m s) as [[a|e|e] s']; cbn [fst snd] in *; [by apply Hk|by auto|].
  split; [by auto|]. intros [= ->]. by apply H2.
Qed.

Lemma es_ok_weaken live live' es : live ⊆ live' -> es_ok live' es -> es_ok live es.
Proof. intros Hl [Hs (I1 & I2 & I3)]. split; [done|]. split_and!; [done|done|]. intros id Hid. apply I3. set_solver. Qed.

Lemma close_err_calm live id es : id ∉ live -> es_ok ({[id]} ∪ live) es ->
  es_ok live (snd (close_err id es)) /\ fst (close_err id es) <> Panic ErrCloseClosed.
Proof.
  intros Hl [Hs (I1 & I2 & I3)]. destruct (I3 id) as [He Hu]; [set_solver|].
  unfold close_err. rewrite bool_decide_eq_false_2 by done. split; [|done]. split; [exact Hs|]. cbn. split_and!; [done| |].
  - intros id' Hid'. specialize (I2 id' Hid'). set_solver.
  - intros id' Hid'. destruct (I3 id') as [He' Hu']; [set_solver|]. split; [set_solver|done].
Qed.

Lemma eventLoop_uninstall_calm live s es : sub_id s ∉ live -> es_ok ({[sub_id s]} ∪ live) es ->
  es_ok live (snd (eventLoop_uninstall s es)) /\ fst (eventLoop_uninstall s es) <> Panic ErrCloseClosed.
Proof.
  intros Hl. unfold eventLoop_uninstall.
  apply (calm_then (es_ok ({[sub_id s]} ∪ live))); [by apply calm_modify|intros ?; apply es_ok_weaken; set_solver|].
  intros es1. unfold gets at 1, mbind at 1, M_bind at 1.
  apply (calm_then (es_ok ({[sub_id s]} ∪ live))); [|intros ?; apply es_ok_weaken; set_solver|intros ?; by apply close_err_calm].
  case_match; [apply calm_ret|apply close_source_calm].
Qed.

Lemma internal_calm live i es : internal_enabled i es = true -> es_ok live es ->
  es_ok live (snd (internal_step i es)) /\ fst (internal_step i es) <> Panic ErrCloseClosed.
Proof.
  destruct i as [s|name src]; cbn [internal_enabled]; [|intros _; apply publishTopic_end_calm].
  intros Hin%bool_decide_eq_true [Hs (I1 & I2 & I3)].
  assert (sub_id s ∈ map sub_id (uninstall es)) as Hid by (by apply list_elem_of_fmap_2).
  destruct (remove_one_ids s _ Hid I1) as (R1 & R2 & R3).
  unfold internal_step. unfold modify at 1, mbind at 1, M_bind at 1.
  apply eventLoop_uninstall_calm; [by intros [_ ?]%I3|]. split; [exact Hs|]. split_and!; [exact R1| |].
  - intros id ?%R3. by apply I2.
  - intros id [->%elem_of_singleton|[? Hn]%I3]%elem_of_union; [split; [by apply I2|done]|].
    split; [done|]. by intros ?%R3.
Qed.
Lemma interfere_calm live l : calm (es_ok live) (interfere l).
Proof.
  apply calm_mapM. intros i es Hes. unfold gets, mbind, M_bind.
  destruct (internal_enabled i es) eqn:E; [by apply internal_calm|done].
Qed.
#[export] Hint Resolve publishTopic_end_calm Subscribe_calm unsubscribe_calm eventLoop_install_calm interfere_calm : calm.

Lemma subscribe_calm live sub ws : calm (es_ok live) (subscribe sub ws).
Proof.
  unfold subscribe. apply calm_bind; [auto with calm|]. intros existing. apply calm_bind; [auto with calm|]. intros _.
  destruct existing; [auto with calm|]. apply calm_bind; [destruct (ws_err ws); auto with calm|]. auto with calm.
Qed.
#[export] Hint Resolve subscribe_calm : calm.

(** ** The invariant of the API *)

Definition api_ok (api : PublicFilterAPI) : Prop :=
  es_ok (dom (filters api)) (events api) /\ forall id f, filters api !! id = Some f -> sub_id (f_s f) = id.

Lemma on_events_calm {A} (m : M EventSystem A) : (forall live, calm (es_ok live) m) -> calm api_ok (on_events m).
Proof. intros Hm api [Hes Hf]. rewrite on_events_frame. destruct (Hm _ _ Hes). split; [by split|done]. Qed.
Lemma filters_shrink api fs : fs ⊆ filters api -> api_ok api -> api_ok (set_filters fs api).
Proof.
  intros Hsub [Hes Hf]. split; cbn [filters events set_filters].
  - eapply es_ok_weaken; [|exact Hes]. by apply subseteq_dom.
  - intros id f Hid. eapply Hf, lookup_weaken; eassumption.
Qed.
Lemma delete_filter_calm id : calm api_ok (modify (fun api => set_filters (delete id (filters api)) api)).
Proof. apply calm_modify. intros api. apply filters_shrink, delete_subseteq. Qed.
Lemma listeners_calm (g : PublicFilterAPI -> gmap ID listener) : calm api_ok (modify (fun api => set_listeners (g api) api)).
Proof. apply calm_modify. by intros api [Hes Hf]. Qed.
Lemma update_filter_calm id g : (forall f, f_s (g f) = f_s f) -> calm api_ok (update_filter id g).
Proof.
  intros Hg. apply calm_modify. intros api [Hes Hf]. split; cbn [filters events set_filters].
  - by rewrite dom_alter_L.
  - intros id' f. destruct (decide (id' = id)) as [->|Hne].
    + rewrite lookup_alter_eq. destruct (filters api !! id) as [f0|] eqn:E; [|done]. intros [= <-]. rewrite Hg. by apply Hf.
    + rewrite lookup_alter_ne by done. apply Hf.
Qed.
#[export] Hint Resolve on_events_calm delete_filter_calm listeners_calm : calm.

(** A constructor: its id is reserved until the filter is there. *)
Lemma construct_calm (cap : Z) e (sub : M EventSystem (Subscription * (chan * Z))) typ crit id event api :
  fresh id api -> api_ok api -> (forall live, calm (es_ok live) sub) ->
  (forall es s c es', sub es = (Ok (s, c), es') -> s = mkSubscription id typ event) ->
  let m := (below_cap cap e ;; '(s, (ch, uid)) ← on_events sub; install_filter typ crit s ch uid ;; mret id) in
  api_ok (snd (m api)) /\ fst (m api) <> Panic ErrCloseClosed.
Proof.
  intros (Hn & _ & Hne & Hnu) [[Hs (I1 & I2 & I3)] Hf] Hcalm Hsub m. subst m. unfold mbind, M_bind. rewrite below_cap_eq.
  destruct (cap <=? _); [done|]. rewrite on_events_frame.
  assert (es_ok ({[id]} ∪ dom (filters api)) (events api)) as Hes.
  { split; [exact Hs|]. split_and!; [done|done|]. intros id' [->%elem_of_singleton|?]%elem_of_union; [done|by apply I3]. }
  destruct (Hcalm _ _ Hes) as [H1 H2].
  destruct (sub (events api)) as [[[s [ch uid]]|e'|e'] es'] eqn:Es; cbn [fst snd] in *.
  - apply Hsub in Es as ->. unfold install_filter, modify, mret, M_ret, mbind, M_bind. cbn [sub_id set_filters set_listeners filters].
    split; [|done]. split; cbn [filters events set_filters set_listeners snd].
    + by rewrite dom_insert_L.
    + intros id' f'. destruct (decide (id' = id)) as [->|Hne']; [rewrite lookup_insert_eq; by intros [= <-]|].
      rewrite lookup_insert_ne by done. apply Hf.
  - split; [|done]. split; [|exact Hf]. eapply es_ok_weaken; [|exact H1]. set_solver.
  - split; [|intros [= ->]; by apply H2]. split; [|exact Hf]. eapply es_ok_weaken; [|exact H1]. set_solver.
Qed.

(** A filter that is dropped hands its subscription over. *)
Lemma handover api id f : filters api !! id = Some f -> api_ok api ->
  api_ok (mkAPI (delete id (filters api)) (set_uninstall (f_s f :: uninstall (events api)) (events api)) (listeners api)).
Proof.
  intros Hid [[Hs (I1 & I2 & I3)] Hf]. pose proof (Hf _ _ Hid) as Es.
  assert (id ∈ dom (filters api)) as Hd by (apply elem_of_dom; eauto). destruct (I3 id Hd) as [He Hu].
  split; cbn [filters events].
  - split; [exact Hs|]. unfold ids_ok. cbn [uninstall errs set_uninstall map]. rewrite Es, dom_delete_L. split_and!.
    + by constructor.
    + intros id' [->|?]%elem_of_cons; [done|by apply I2].
    + intros id' [Hd' Hn]%elem_of_difference. destruct (I3 id' Hd'). split; [done|].
      rewrite not_elem_of_cons. split; [set_solver|done].
  - intros id' f' Hl. eapply Hf, lookup_weaken; [exact Hl|apply delete_subseteq].
Qed.
Lemma UninstallFilter_calm id : calm api_ok (UninstallFilter id).
Proof.
  intros api Hok. unfold UninstallFilter, gets, mbind, M_bind. destruct (filters api !! id) as [f|] eqn:E; [|done].
  split; [|done]. exact (handover _ _ _ E Hok).
Qed.
Lemma timeout_filter_eq k f api : timeout_filter (k, f) api =
  (Ok tt, if f_fired f then mkAPI (delete k (filters api)) (set_uninstall (f_s f :: uninstall (events api)) (events api)) (listeners api)
          else api).
Proof. unfold timeout_filter. cbn [fst snd]. by destruct (f_fired f). Qed.
Lemma timeout_calm : calm api_ok timeoutLoop_tick.
Proof.
  intros api Hok. unfold timeoutLoop_tick, gets, mbind, M_bind.
  assert (forall p, p ∈ map_to_list (filters api) -> filters api !! p.1 = Some p.2) as Hin.
  { intros [k f]. apply elem_of_map_to_list. }
  pose proof (NoDup_fst_map_to_list (filters api)) as Hnd.
  revert Hin Hnd. generalize (map_to_list (filters api)) as l. intros l. revert api Hok.
  induction l as [|[k f] l IH]; intros api Hok Hin Hnd; [done|]. apply NoDup_cons in Hnd as [Hk Hnd].
  assert (filters api !! k = Some f) as Hkf by (apply (Hin (k, f)); left).
  cbn [mapM_]. unfold mbind, M_bind. rewrite timeout_filter_eq.
  destruct (f_fired f); apply IH; try done; [exact (handover _ _ _ Hkf Hok)| |intros p Hp; apply Hin; by right].
  intros [k' f'] Hp. cbn [filters fst snd]. rewrite lookup_delete_ne; [apply (Hin (k', f')); by right|].
  intros ->. apply Hk. by apply (list_elem_of_fmap_2 fst) in Hp.
Qed.

Section Safety.
Context {G : Geth} {HX : HexText} {BL : BloomLib}.
Variable cap : Z.
Variable DecodeTxResponse : bytes -> res MsgEthereumTxResponse.
Variable TxDecoder : bytes -> res Tx.

Lemma GetFilterChanges_calm id : calm api_ok (GetFilterChanges id).
Proof.
  intros api [Hes Hf]. unfold GetFilterChanges, gets, mbind, M_bind.
  destruct (filters api !! id) as [f|] eqn:E; [|done].
  assert (forall f', f_s f' = f_s f -> api_ok (set_filters (<[id := f']> (filters api)) api)) as Hins.
  { intros f' Ef. split; cbn [filters events set_filters].
    - rewrite dom_insert_lookup_L; [exact Hes|eauto].
    - intros k fk. destruct (decide (k = id)) as [->|Hne].
      + rewrite lookup_insert_eq. intros [= <-]. rewrite Ef. by apply Hf.
      + rewrite lookup_insert_ne by done. apply Hf. }
  destruct (f_typ f); (split; [by apply Hins|done]).
Qed.
Lemma listener_end_calm id l : calm api_ok (listener_end id l).
Proof. unfold listener_end. auto with calm. Qed.
Lemma listener_wait_calm id l : calm api_ok (listener_wait id l).
Proof. apply (listeners_calm (fun api => <[id := _]> (listeners api))). Qed.
#[local] Hint Resolve listener_end_calm listener_wait_calm : calm.

Lemma react_crash l ev e : react DecodeTxResponse TxDecoder l ev = Crash e -> e <> ErrCloseClosed.
Proof.
  unfold react, logs_reaction, blocks_reaction, pending_reaction. repeat case_match; by intros [= <-].
Qed.
Lemma listen_event_calm id l ev : calm api_ok (listen_event DecodeTxResponse TxDecoder id l ev).
Proof.
  unfold listen_event. destruct (react _ _ l ev) as [| | |e] eqn:E; [auto with calm| |auto with calm|].
  - apply calm_bind; [by apply update_filter_calm|auto with calm].
  - apply calm_bind; [auto with calm|]. intros []; [|auto with calm]. apply calm_res. intros [= ->]. by eapply react_crash.
Qed.
Lemma with_listener_calm id k : (forall l, calm api_ok (k l)) -> calm api_ok (with_listener id k).
Proof. intros Hk. unfold with_listener. apply calm_bind; [auto with calm|]. intros [l|]; auto with calm. Qed.
Lemma publish_ok query ev ready api : api_ok api -> api_ok (publish query ev ready api).
Proof. unfold publish. by repeat case_match. Qed.
Lemma quietly_calm {A} (m : M PublicFilterAPI A) api : (api_ok (snd (m api)) /\ fst (m api) <> Panic ErrCloseClosed) ->
  api_ok (snd (quietly m api)) /\ fst (quietly m api) <> Panic ErrCloseClosed.
Proof. unfold quietly, mbind, M_bind. destruct (m api) as [[a|e|e] api']; cbn; [by intros [? _]|by intros [? _]|]. intros [? H]. split; [done|]. intros [= ->]. by apply H. Qed.
Lemma catch_calm {A} (m : M PublicFilterAPI A) x api : (api_ok (snd (m api)) /\ fst (m api) <> Panic ErrCloseClosed) ->
  api_ok (snd (catch_err m (fun _ => mret x) api)) /\ fst (catch_err m (fun _ => mret x) api) <> Panic ErrCloseClosed.
Proof. unfold catch_err. by destruct (m api) as [[a|e|e] api']; cbn; [|intros [? _]|]. Qed.

Lemma perform_calm a api : enabled a api -> api_ok api ->
  api_ok (snd (perform cap DecodeTxResponse TxDecoder a api)) /\
  fst (perform cap DecodeTxResponse TxDecoder a api) <> Panic ErrCloseClosed.
Proof.
  intros Hen Hok. destruct a; cbn [perform].
  - apply quietly_calm. eapply construct_calm; [exact Hen|exact Hok| |intros *; apply SubscribeLogs_sub].
    intros live. unfold SubscribeLogs. case_match; auto with calm.
  - apply quietly_calm, catch_calm. eapply construct_calm; [exact Hen|exact Hok| |intros *; apply SubscribeNewHeads_sub].
    intros live. unfold SubscribeNewHeads. auto with calm.
  - apply quietly_calm, catch_calm. eapply construct_calm; [exact Hen|exact Hok| |intros *; apply SubscribePendingTxs_sub].
    intros live. unfold SubscribePendingTxs. auto with calm.
  - by apply quietly_calm, UninstallFilter_calm.
  - revert api Hen Hok. intros api _. apply (calm_bind api_ok); [apply GetFilterChanges_calm|]. auto with calm.
  - apply quietly_calm. by apply update_filter_calm.
  - by apply quietly_calm, timeout_calm.
  - apply quietly_calm. rewrite on_events_frame. destruct Hok as [Hes Hf].
    destruct (internal_calm _ _ _ Hen Hes). split; [by split|done].
  - apply quietly_calm. split; [|done]. by apply publish_ok.
  - revert Hok. apply with_listener_calm. intros l. destruct (l_got l); [|auto with calm].
    apply calm_bind; [apply listen_event_calm|auto with calm].
  - revert Hok. apply with_listener_calm. intros l api0 H0. apply quietly_calm. revert H0.
    unfold listen_closed. apply calm_bind; auto with calm.
  - revert Hok. apply with_listener_calm. intros l api0 H0. apply quietly_calm. revert H0.
    unfold listen_err. apply calm_bind; [auto with calm|]. intros _. destruct (l_typ l); auto with calm.
Qed.

Lemma NewPublicAPI_ok : api_ok NewPublicAPI.
Proof.
  split; [split; [split_and!|split_and!]|].
  - intros [n|n k] s2 c; cbn; by rewrite lookup_empty.
  - intros [n|n k] c; cbn; by rewrite lookup_empty.
  - intros c. cbn. set_solver.
  - constructor.
  - intros id. cbn. set_solver.
  - intros id. cbn [filters NewPublicAPI]. set_solver.
  - intros id f. cbn. by rewrite lookup_empty.
Qed.
Lemma steps_ok_inv api tr api' : steps cap DecodeTxResponse TxDecoder api tr api' -> api_ok api -> api_ok api'.
Proof.
  induction 1 as [|? ? ? ? ? ? He E _ IH|? ? ? ? ? ? He E _ IH]; intros Hok; [done| |];
    apply IH; destruct (perform_calm _ _ He Hok) as [H _]; by rewrite E in H.
Qed.

(** C33 The server never closes a channel twice, which would end the process: not the source
    of a topic, not the channel of a subscriber, not the error channel of a subscription,
    however the clients' calls, time-outs, the event loop, the publishers and the listeners
    interleave. *)
Theorem no_channel_closed_twice (api : PublicFilterAPI) (a : action)
    (Hr : api_reachable cap DecodeTxResponse TxDecoder api)
    (Hen : enabled a api) :
  fst (perform cap DecodeTxResponse TxDecoder a api) <> Panic ErrCloseClosed.
Proof. destruct Hr as [tr Hr]. apply perform_calm; [done|]. eapply steps_ok_inv; [exact Hr|apply NewPublicAPI_ok]. Qed.

(** ** A filter from a block on *)

(** The listener of a filter has the kind and the criteria of the filter. *)
Definition listener_of (api : PublicFilterAPI) (id : ID) (l : listener) : Prop :=
  exists l0, listeners api !! id = Some l0 /\ l_typ l = l_typ l0 /\ l_crit l = l_crit l0.
Definition from_listeners (api0 api : PublicFilterAPI) : Prop :=
  forall id l, listeners api !! id = Some l -> listener_of api0 id l.
Definition matched (api : PublicFilterAPI) : Prop :=
  forall id f l, filters api !! id = Some f -> listeners api !! id = Some l -> l_crit l = f_crit f.

Lemma on_events_from {A} api0 (m : M EventSystem A) : preserves (from_listeners api0) (on_events m).
Proof. intros api H. by rewrite on_events_frame. Qed.
Lemma filters_from api0 (g : PublicFilterAPI -> gmap ID api_filter) :
  preserves (from_listeners api0) (modify (fun api => set_filters (g api) api)).
Proof. by intros api H. Qed.
Lemma delete_listener_from api0 id : preserves (from_listeners api0) (modify (fun api => set_listeners (delete id (listeners api)) api)).
Proof. intros api H id' l Hl. eapply H, lookup_weaken; [exact Hl|apply delete_subseteq]. Qed.
Lemma listener_wait_from api0 id l : listener_of api0 id l -> preserves (from_listeners api0) (listener_wait id l).
Proof.
  intros Hl api H id' l'. cbn. destruct (decide (id' = id)) as [->|Hne].
  - rewrite lookup_insert_eq. intros [= <-]. exact Hl.
  - rewrite lookup_insert_ne by done. apply H.
Qed.
#[local] Hint Resolve on_events_from filters_from delete_listener_from : evermint.
Lemma listener_end_from api0 id l : preserves (from_listeners api0) (listener_end id l).
Proof. unfold listener_end. auto with evermint. Qed.
Lemma update_filter_from api0 id g : preserves (from_listeners api0) (update_filter id g).
Proof. apply (filters_from _ (fun api => alter g id (filters api))). Qed.
#[local] Hint Resolve listener_end_from update_filter_from : evermint.
Lemma listen_event_from api0 id l ev : listener_of api0 id l ->
  preserves (from_listeners api0) (listen_event DecodeTxResponse TxDecoder id l ev).
Proof.
  intros Hl. pose proof (listener_wait_from _ _ _ Hl). unfold listen_event. destruct (react _ _ l ev); [done|auto with evermint..|].
  apply preserves_bind; [auto with evermint|]. intros []; auto with evermint.
Qed.
Lemma publish_from api0 query ev ready api : from_listeners api0 api -> from_listeners api0 (publish query ev ready api).
Proof.
  intros H. unfold publish. repeat case_match; [|done..]. intros id l. cbn [listeners set_listeners].
  rewrite map_lookup_imap. destruct (listeners api !! id) as [l0|] eqn:E; [|done]. cbn. intros [= <-].
  specialize (H _ _ E). by case_match.
Qed.
Lemma UninstallFilter_from api0 id : preserves (from_listeners api0) (UninstallFilter id).
Proof. unfold UninstallFilter. apply preserves_bind; [auto with evermint|]. intros [f|]; auto with evermint. Qed.
Lemma timeout_from api0 : preserves (from_listeners api0) timeoutLoop_tick.
Proof.
  unfold timeoutLoop_tick. apply preserves_bind; [auto with evermint|]. intros fs. apply preserves_mapM. intros [k f].
  unfold timeout_filter. case_match; auto with evermint.
Qed.
Lemma GetFilterChanges_from api0 id : preserves (from_listeners api0) (GetFilterChanges id).
Proof.
  unfold GetFilterChanges. apply preserves_bind; [auto with evermint|]. intros [f|]; [|auto with evermint].
  destruct (f_typ f); apply preserves_bind; auto with evermint.
Qed.
Lemma with_listener_from api0 id k : (forall l, listener_of api0 id l -> preserves (from_listeners api0) (k l)) ->
  preserves (from_listeners api0) (with_listener id k).
Proof.
  intros Hk api H. unfold with_listener, gets, mbind, M_bind. destruct (listeners api !! id) as [l|] eqn:E; [|done].
  apply Hk; [by apply H|done].
Qed.

(** Only a constructor adds a listener. *)
Lemma construct_from api (e : gerr) (sub : M EventSystem (Subscription * (chan * Z))) typ crit id event :
  (forall es s c es', sub es = (Ok (s, c), es') -> s = mkSubscription id typ event) ->
  let api' := snd ((below_cap cap e ;; '(s, (ch, uid)) ← on_events sub; install_filter typ crit s ch uid ;; mret id) api) in
  from_listeners api (set_listeners (delete id (listeners api')) api') /\
  forall f l, filters api' !! id = Some f -> listeners api' !! id = Some l -> listeners api !! id = None -> l_crit l = f_crit f.
Proof.
  intros Hsub api'. subst api'. unfold mbind, M_bind. rewrite below_cap_eq.
  assert (forall es, from_listeners api (set_listeners (delete id (listeners api)) (mkAPI (filters api) es (listeners api)))) as Hsame.
  { intros es id' l Hl. exists l. split; [|done]. eapply lookup_weaken; [exact Hl|apply delete_subseteq]. }
  destruct (cap <=? _); [split; [destruct api; apply Hsame|cbn; congruence]|]. rewrite on_events_frame.
  destruct (sub (events api)) as [[[s [ch uid]]|e'|e'] es'] eqn:Es; cbn [fst snd]; [|split; [apply Hsame|cbn; congruence]..].
  apply Hsub in Es as ->. unfold install_filter, modify, mret, M_ret, mbind, M_bind.
  cbn [snd listeners filters set_listeners set_filters events sub_id sub_event]. split.
  - intros id' l. cbn [listeners set_listeners]. destruct (decide (id' = id)) as [->|Hne]; [by rewrite lookup_delete_eq|].
    rewrite lookup_delete_ne, lookup_insert_ne by done. intros Hl. by exists l.
  - intros f l. rewrite !lookup_insert_eq. by intros [= <-] [= <-].
Qed.

Lemma construct_matched a api (e : gerr) (sub : M EventSystem (Subscription * (chan * Z))) typ crit id event r api' :
  fresh id api -> matched api ->
  (forall es s c es', sub es = (Ok (s, c), es') -> s = mkSubscription id typ event) ->
  new_filter a = Some (id, mkFilter typ false [] crit [] (mkSubscription id typ event)) ->
  (below_cap cap e ;; '(s, (ch, uid)) ← on_events sub; install_filter typ crit s ch uid ;; mret id) api = (r, api') ->
  matched api'.
Proof.
  intros (Hn & Hnl & _) Hm Hsub Hnew E id' f l Hf Hl.
  pose proof (construct_step cap _ _ _ _ _ _ _ _ _ _ id' Hn Hsub Hnew E) as Hs.
  pose proof (construct_from api e sub typ crit id event Hsub) as [Hfrom Hself]. rewrite E in Hfrom, Hself. cbn [snd] in *.
  destruct (decide (id' = id)) as [->|Hne]; [by apply Hself|].
  destruct (Hfrom id' l) as (l0 & Hl0 & _ & ->); [cbn [listeners set_listeners]; by rewrite lookup_delete_ne|].
  unfold filter_step in Hs. rewrite Hf in Hs. destruct Hs as [(f0 & Hf0 & _ & -> & _)|[Hc _]]; [by apply (Hm id')|].
  rewrite Hnew in Hc. congruence.
Qed.
Lemma from_matched a api r api' : enabled a api -> new_filter a = None ->
  perform cap DecodeTxResponse TxDecoder a api = (r, api') -> from_listeners api api' -> matched api -> matched api'.
Proof.
  intros Hen Hno E Hfrom Hm id f l Hf Hl. destruct (Hfrom _ _ Hl) as (l0 & Hl0 & _ & ->).
  pose proof (perform_step cap _ _ _ _ _ _ id Hen E) as Hs. unfold filter_step in Hs. rewrite Hf in Hs.
  destruct Hs as [(f0 & Hf0 & _ & -> & _)|[Hc _]]; [by apply (Hm id)|congruence].
Qed.

Lemma quietly_from {A} api0 (m : M PublicFilterAPI A) : preserves (from_listeners api0) m -> preserves (from_listeners api0) (quietly m).
Proof. intros Hm. unfold quietly. auto with evermint. Qed.
Lemma perform_from a api : new_filter a = None -> from_listeners api (snd (perform cap DecodeTxResponse TxDecoder a api)).
Proof.
  intros Hn. assert (from_listeners api api) as Hself by (intros id l Hl; by exists l).
  destruct a; try discriminate Hn; cbn [perform]; revert Hself.
  - apply quietly_from, UninstallFilter_from.
  - apply preserves_bind; [apply GetFilterChanges_from|auto with evermint].
  - apply quietly_from, update_filter_from.
  - apply quietly_from, timeout_from.
  - apply quietly_from, on_events_from.
  - apply quietly_from, preserves_modify. apply publish_from.
  - apply with_listener_from. intros l Hl. destruct (l_got l); [|auto with evermint].
    apply preserves_bind; [by apply listen_event_from|auto with evermint].
  - apply with_listener_from. intros l Hl. apply quietly_from. unfold listen_closed. apply preserves_bind; auto with evermint.
  - apply with_listener_from. intros l Hl. apply quietly_from. unfold listen_err.
    apply preserves_bind; [auto with evermint|]. intros _. destruct (l_typ l); auto with evermint.
Qed.
Lemma perform_matched a api r api' : enabled a api -> perform cap DecodeTxResponse TxDecoder a api = (r, api') ->
  matched api -> matched api'.
Proof.
  intros Hen E Hm. destruct (new_filter a) eqn:Hn.
  - destruct a; try discriminate Hn; cbn [perform] in E; apply quietly_inv in E as (r0 & E & _).
    + eapply (construct_matched (ANewFilter crit id ws)); [exact Hen|exact Hm| |done|exact E]. intros *. apply SubscribeLogs_sub.
    + apply catch_err_inv in E as [r1 E]. eapply (construct_matched (ANewBlockFilter id ws)); [exact Hen|exact Hm| |done|exact E].
      intros *. apply SubscribeNewHeads_sub.
    + apply catch_err_inv in E as [r1 E].
      eapply (construct_matched (ANewPendingTransactionFilter id ws)); [exact Hen|exact Hm| |done|exact E].
      intros *. apply SubscribePendingTxs_sub.
  - eapply from_matched; [exact Hen|exact Hn|exact E| |exact Hm]. pose proof (perform_from a api Hn) as H. by rewrite E in H.
Qed.

(** The logs of a receipt that was decoded have the block number 0. *)
Lemma decoded_logs_dropped receipt b to addresses topics : 1 <= b < 2 ^ 63 ->
  FilterLogs (decoded_logs receipt) (Some b) to addresses topics = [].
Proof.
  intros Hb. unfold decoded_logs. induction (rcpt_Logs receipt) as [|l ls IH]; [done|]. simpl. rewrite IH.
  unfold log_passes. cbn [el_BlockNumber]. unfold big_Int64. rewrite wrap64_id by (unfold is_u64, MaxUint64; lia).
  unfold int64_of_uint64, MaxInt64. rewrite (proj2 (Z.leb_le b _)) by lia.
  rewrite (proj2 (Z.leb_le 0 b)), (proj2 (Z.ltb_lt 0 b)) by lia. done.
Qed.

Definition from_block (f : api_filter) (b : Z) : Prop := fc_FromBlock (f_crit f) = Some b /\ 1 <= b < 2 ^ 63.
Definition silent (api : PublicFilterAPI) : Prop :=
  matched api /\ forall id f b, filters api !! id = Some f -> from_block f b -> f_logs f = [].

(** What is delivered comes from a listener with the criteria of the filter. *)
Lemma delivered_silent a api r api' id f b : perform cap DecodeTxResponse TxDecoder a api = (r, api') -> matched api ->
  filters api !! id = Some f -> from_block f b -> delivered_logs id (outcome_of r) = [].
Proof.
  intros E Hm Hf [Hb Hr]. destruct a; cbn [perform] in E;
    try (apply quietly_inv in E as (r0 & _ & ->); done).
  - unfold mbind, M_bind in E. destruct (GetFilterChanges _ api) as [[]]; by injection E as <- <-.
  - apply with_listener_inv in E as [(_ & -> & ->)|(l & Hl & E)]; [done|].
    destruct (l_got l) as [ev|]; [|by injection E as <- <-].
    unfold mbind, M_bind in E. destruct (listen_event _ _ _ l ev api) as [[u|e|e] api1]; [|by injection E as <- <-..].
    injection E as <- <-. cbn [outcome_of]. unfold react.
    destruct (l_typ l); [|by (unfold blocks_reaction; repeat case_match; simplify_eq/=; try case_decide)..|];
      [unfold logs_reaction|unfold pending_reaction]; repeat case_match; simplify_eq/=; try done; case_decide; try done.
    subst. rewrite (Hm _ _ _ Hf Hl), Hb. by apply decoded_logs_dropped.
  - apply with_listener_inv in E as [(_ & -> & ->)|(l & Hl & (r0 & _ & ->)%quietly_inv)]; done.
  - apply with_listener_inv in E as [(_ & -> & ->)|(l & Hl & (r0 & _ & ->)%quietly_inv)]; done.
Qed.

Lemma perform_silent a api r api' : enabled a api -> perform cap DecodeTxResponse TxDecoder a api = (r, api') ->
  silent api -> silent api'.
Proof.
  intros Hen E [Hm Hs]. split; [by eapply perform_matched|]. intros id f' b Hf' Hb.
  pose proof (perform_step cap _ _ _ _ _ _ id Hen E) as Hst. unfold filter_step in Hst. rewrite Hf' in Hst.
  destruct Hst as [(f & Hf & _ & Hc & _ & _ & Hl)|[Hnew _]].
  - assert (from_block f b) as Hbf by (unfold from_block; by rewrite <- Hc).
    rewrite (Hs _ _ _ Hf Hbf), (delivered_silent _ _ _ _ _ _ _ E Hm Hf Hbf) in Hl. by destruct (polled_logs id _), (f_logs f').
  - destruct a; try discriminate Hnew; by injection Hnew as <- <-.
Qed.

(** A log filter with a first block of at least 1 never holds a log, whatever is
    published: the receipt in an event is decoded from its consensus encoding, which has no
    block numbers, so every log of it counts as one of block 0 and is filtered out. *)
Theorem from_block_filter_is_silent (api : PublicFilterAPI) (id : ID) (f : api_filter) (b : Z)
    (Hr : api_reachable cap DecodeTxResponse TxDecoder api)
    (Hf : filters api !! id = Some f)
    (Hb : fc_FromBlock (f_crit f) = Some b)
    (Hrange : 1 <= b < 2 ^ 63) :
  f_logs f = [].
Proof.
  destruct Hr as [tr Hr]. assert (silent api) as [_ Hs]; [|by apply (Hs id f b)].
  assert (silent NewPublicAPI) as H0 by (split; intros id' f'; intros *; cbn [filters NewPublicAPI]; by rewrite lookup_empty).
  revert H0. induction Hr as [|? ? ? ? ? ? He E _ IH|? ? ? ? ? ? He E _ IH]; intros H0; [done| |]; eauto using perform_silent.
Qed.
End Safety.

(** ** Two filters on one topic *)

Section Shared.
Context {G : Geth} {HX : HexText} {BL : BloomLib}.
Variable cap : Z.
Variable DecodeTxResponse : bytes -> res MsgEthereumTxResponse.
Variable TxDecoder : bytes -> res Tx.

Definition undisturbed : around := mkAround None [] [].
Definition latest (addresses : list Address) (topics : list (list Hash)) : FilterCriteria :=
  mkFilterCriteria None None None addresses topics.
Definition logs_sub (id : ID) : Subscription := mkSubscription id LogsSubscription evmEvents.
Definition logs_filter (id : ID) (crit : FilterCriteria) : api_filter := mkFilter LogsSubscription false [] crit [] (logs_sub id).
Definition logs_listener (crit : FilterCriteria) (ch : chan) (uid : Z) : listener :=
  mkListener LogsSubscription crit evmEvents ch uid None.

(** The states of the run below. *)
Definition one_filter (id : ID) (crit : FilterCriteria) : PublicFilterAPI :=
  mkAPI {[id := logs_filter id crit]}
    (mkEventSystem {[(LogsSubscription, id) := logs_sub id]} {[evmEvents := 0%nat]} [] ∅
       (mkBus {[evmEvents := 0%nat]} {[evmEvents := {[1 := 1%nat]}]} 1 [(evmEvents, 0%nat)] ∅ 2%nat))
    {[id := logs_listener crit 1%nat 1]}.
Definition two_filters (id1 id2 : ID) (crit1 crit2 : FilterCriteria) (uninstall : list Subscription) : PublicFilterAPI :=
  mkAPI (<[id2 := logs_filter id2 crit2]> (if uninstall is [] then {[id1 := logs_filter id1 crit1]} else ∅))
    (mkEventSystem {[(LogsSubscription, id1) := logs_sub id1]} {[evmEvents := 0%nat]} uninstall ∅
       (mkBus {[evmEvents := 0%nat]} {[evmEvents := <[2 := 2%nat]> {[1 := 1%nat]}]} 2 [(evmEvents, 0%nat)] ∅ 3%nat))
    (<[id2 := logs_listener crit2 2%nat 2]> {[id1 := logs_listener crit1 1%nat 1]}).

Abbreviation run := (perform cap DecodeTxResponse TxDecoder).
Variables (id1 id2 : ID) (a1 a2 : list Address) (t1 t2 : list (list Hash)).
Hypothesis Hcap : 2 <= cap.
Hypothesis Hne : id1 <> id2.
Abbreviation crit1 := (latest a1 t1).
Abbreviation crit2 := (latest a2 t2).

Lemma first_filter : run (ANewFilter crit1 id1 undisturbed) NewPublicAPI = (Ok Nothing, one_filter id1 crit1).
Proof.
  cbn [perform]. unfold quietly, NewFilter, mbind, M_bind. rewrite below_cap_eq.
  cbn [filters NewPublicAPI]. rewrite map_size_empty. destruct (Z.leb_spec cap (Z.of_nat 0)); [lia|]. reflexivity.
Qed.
Lemma second_filter : run (ANewFilter crit2 id2 undisturbed) (one_filter id1 crit1) = (Ok Nothing, two_filters id1 id2 crit1 crit2 []).
Proof.
  cbn [perform]. unfold quietly, NewFilter, mbind, M_bind. rewrite below_cap_eq.
  cbn [filters one_filter]. rewrite map_size_singleton. destruct (Z.leb_spec cap (Z.of_nat 1)); [lia|]. reflexivity.
Qed.
Lemma first_uninstalled : run (AUninstall id1) (two_filters id1 id2 crit1 crit2 []) =
  (Ok Nothing, two_filters id1 id2 crit1 crit2 [logs_sub id1]).
Proof.
  cbn [perform]. unfold quietly, UninstallFilter, gets, mbind, M_bind, two_filters. cbn [filters].
  rewrite lookup_insert_ne, lookup_singleton_eq by done. unfold modify, set_filters. cbn [filters].
  rewrite delete_insert_ne, delete_singleton_eq by done. reflexivity.
Qed.

(** The topic is given up although the second filter uses it: it is not in the index. *)
Definition topic_closed : PublicFilterAPI :=
  mkAPI {[id2 := logs_filter id2 crit2]}
    (mkEventSystem ∅ ∅ [] ({[id1]} ∪ ∅)
       (mkBus ∅ {[evmEvents := <[2 := 2%nat]> {[1 := 1%nat]}]} 2 [(evmEvents, 0%nat)] {[0%nat]} 3%nat))
    (<[id2 := logs_listener crit2 2%nat 2]> {[id1 := logs_listener crit1 1%nat 1]}).
Lemma loop_uninstalls : run (AInternal (Loop (logs_sub id1))) (two_filters id1 id2 crit1 crit2 [logs_sub id1]) = (Ok Nothing, topic_closed).
Proof.
  cbn [perform]. unfold quietly, mbind, M_bind. rewrite on_events_frame. cbn [events two_filters internal_step].
  unfold eventLoop_uninstall, modify, gets, mbind, M_bind. cbn [uninstall remove_one]. rewrite decide_True by done.
  cbn [set_index set_uninstall index sub_typ sub_id logs_sub]. rewrite delete_singleton_eq, map_to_list_empty.
  reflexivity.
Qed.

Definition all_closed : PublicFilterAPI :=
  mkAPI {[id2 := logs_filter id2 crit2]}
    (mkEventSystem ∅ ∅ [] ({[id1]} ∪ ∅) (mkBus ∅ ∅ 2 [] {[0%nat; 1%nat; 2%nat]} 3%nat))
    (<[id2 := logs_listener crit2 2%nat 2]> {[id1 := logs_listener crit1 1%nat 1]}).
Lemma publisher_ends : run (AInternal (PublisherEnd evmEvents 0%nat)) topic_closed = (Ok Nothing, all_closed).
Proof.
  cbn [perform]. unfold quietly, mbind, M_bind. rewrite on_events_frame. cbn [events topic_closed internal_step].
  unfold on_bus, zoom. cbn [eventBus].
  assert (publishTopic_end evmEvents 0%nat
    (mkBus ∅ {[evmEvents := <[2 := 2%nat]> {[1 := 1%nat]}]} 2 [(evmEvents, 0%nat)] {[0%nat]} 3%nat) =
    (Ok tt, mkBus ∅ ∅ 2 [] {[0%nat; 1%nat; 2%nat]} 3%nat)) as -> by (vm_compute; reflexivity).
  reflexivity.
Qed.
Lemma second_closed : exists api, run (AClosed id2) all_closed = (Ok Nothing, api) /\ filters api = ∅.
Proof.
  cbn [perform]. unfold with_listener, gets, mbind, M_bind. cbn [listeners all_closed]. rewrite lookup_insert_eq.
  eexists. split; [reflexivity|]. cbn. apply delete_singleton_eq.
Qed.
End Shared.

(** Uninstalling one log filter destroys another: of two filters for new logs the second
    joins the topic of the first without an entry in the index of the event system.  When
    the first is uninstalled the loop finds no other user of the topic and closes it; the
    second filter is deleted, though nobody uninstalled it and its time is not over. *)
Theorem second_filter_is_lost `{G : Geth} `{HX : HexText} `{BL : BloomLib} (cap : Z)
    (DecodeTxResponse : bytes -> res MsgEthereumTxResponse) (TxDecoder : bytes -> res Tx)
    (id1 id2 : ID) (a1 a2 : list Address) (t1 t2 : list (list Hash))
    (Hcap : 2 <= cap) (Hne : id1 <> id2) :
  exists api api' : PublicFilterAPI,
    steps cap DecodeTxResponse TxDecoder NewPublicAPI
      [(ANewFilter (latest a1 t1) id1 undisturbed, Nothing); (ANewFilter (latest a2 t2) id2 undisturbed, Nothing)] api /\
    dom (filters api) = {[id1; id2]} /\
    steps cap DecodeTxResponse TxDecoder api
      [(AUninstall id1, Nothing); (AInternal (Loop (logs_sub id1)), Nothing);
       (AInternal (PublisherEnd evmEvents 0%nat), Nothing); (AClosed id2, Nothing)] api' /\
    filters api' = ∅.
Proof.
  destruct (second_closed cap DecodeTxResponse TxDecoder id1 id2 a1 a2 t1 t2) as (api' & E & Hf).
  exists (two_filters id1 id2 (latest a1 t1) (latest a2 t2) []), api'. split_and!; [| | |exact Hf].
  - eapply steps_ok; [|by apply first_filter|]; [by split_and!; [..|set_solver|set_solver]|].
    eapply steps_ok; [|by apply second_filter|constructor]. split_and!; cbn.
    + by rewrite lookup_singleton_ne.
    + by rewrite lookup_singleton_ne.
    + set_solver.
    + set_solver.
  - cbn [filters two_filters]. rewrite dom_insert_L, dom_singleton_L. set_solver.
  - eapply steps_ok; [done|by apply first_uninstalled|].
    eapply steps_ok; [|by apply loop_uninstalls|]; [apply bool_decide_eq_true_2; left|].
    eapply steps_ok; [|by apply publisher_ends|]; [by vm_compute|].
    eapply steps_ok; [|exact E|constructor]. eexists. split_and!; [apply lookup_insert_eq|done|]. by apply (bool_decide_unpack _); vm_compute.
Qed.
