(* ===== verification/Ante.v ===== *)
(** * The ante handler

    The decorators that run before a transaction is executed and their order
    (app/antedl/ante.go): those that split the two lanes (duallane), those of Ethereum
    transactions (evmlane) and those of Cosmos transactions (cosmoslane).  The SDK's own
    decorators, which the Cosmos lane calls, are parameters: functions on handlers. *)

From Stdlib Require Import Strings.Byte.
From stdpp Require Import base gmap list strings.
From S2P Require Import Prelude Sdk Geth EvmTypes ChainId GasMeter EvmStore AccessList StateDB SnapshotStack.
From S2P Require Import Programs StateDBEffects FeeMarket Cpc CpcContracts Eip712 Staking Contracts TxTypes StateTransition.
From S2P Require Import TxExecution VAuth AnteTx.

(** [LatestSignerForChainID(chainId)]: the sender it recovers, and [tx.AsMessage]. *)
Class LatestSigner : Type := {
  Latest_Sender : Z -> Transaction -> res Address;
  Latest_AsMessage : Z -> Transaction -> Z -> res Message
}.

(** The gas meter of a context. *)
Inductive AnteMeter : Type :=
  | SdkMeter
  | InfiniteMeter
  | LimitMeter (g : infiniteGasMeterWithLimit).

(** What the handlers change: the stores, the gas meter and the gas configuration of the
    context, and the events of Ethereum transactions (hash and index). *)
Record AnteState (H : Type) : Type := mkAnteState {
  an_heap : H;
  an_meter : AnteMeter;
  an_zeroGasConfig : bool;
  an_events : list (Hash * Z)
}.
Arguments mkAnteState {H}.
Arguments an_heap {H}.
Arguments an_meter {H}.
Arguments an_zeroGasConfig {H}.
Arguments an_events {H}.

Definition AnteHandler (H : Type) : Type := Tx -> bool -> M (AnteState H) unit.
Definition AnteDecorator (H : Type) : Type := AnteHandler H -> AnteHandler H.

(** The SDK's decorators. *)
Record SdkAnte (H : Type) : Type := mkSdkAnte {
  sdk_SetUpContext : AnteDecorator H;
  sdk_ExtensionOptions : AnteDecorator H;
  sdk_ValidateBasic : AnteDecorator H;
  sdk_TxTimeoutHeight : AnteDecorator H;
  sdk_ValidateMemo : AnteDecorator H;
  sdk_ConsumeGasForTxSize : AnteDecorator H;
  sdk_DeductFee : AnteDecorator H;
  sdk_SetPubKey : AnteDecorator H;
  sdk_ValidateSigCount : AnteDecorator H;
  sdk_SigGasConsume : AnteDecorator H;
  sdk_SigVerification : AnteDecorator H;
  sdk_IncrementSequence : AnteDecorator H;
  ibc_RedundantRelay : AnteDecorator H
}.
Arguments sdk_SetUpContext {H}.
Arguments sdk_ExtensionOptions {H}.
Arguments sdk_ValidateBasic {H}.
Arguments sdk_TxTimeoutHeight {H}.
Arguments sdk_ValidateMemo {H}.
Arguments sdk_ConsumeGasForTxSize {H}.
Arguments sdk_DeductFee {H}.
Arguments sdk_SetPubKey {H}.
Arguments sdk_ValidateSigCount {H}.
Arguments sdk_SigGasConsume {H}.
Arguments sdk_SigVerification {H}.
Arguments sdk_IncrementSequence {H}.
Arguments ibc_RedundantRelay {H}.

Section Ante.
Context {S : Type} {K : SdkKeepers S} {G : Geth} {B : Bech32} {E : EvmEngine S} {LS : LatestSigner}.
Context {P : Codec EvmParams} {FP : Codec FmParams}.
Context {SK : StakingKeepers S} {E712 : Eip712Lib} {CP : Codec CpcParams} {CM : Codec CustomPrecompiledContractMeta}.
Context {JE : Json Erc20CustomPrecompiledContractMeta} {JS : Json StakingCustomPrecompiledContractMeta}.
Context {H C : Type} {X : CacheCtx H C (World S)}.
Variable legacy_params : S -> FmParams.
Variables Erc20CpcInfo Bech32CpcInfo : CustomPrecompiledContractInfo.
Variable StakingCpcInfo : CustomPrecompiledContractInfo.
Variable sdk : SdkAnte H.
Variable disabledNestedMsgs : list string.
(** The context the transaction is checked in. *)
Variable ctx : Ctx.
Variable c : C.
Implicit Types (w : World S) (tx : Tx) (next : AnteHandler H).

(** Reads and writes of the stores of the context. *)
Definition in_heap {A} (m : M H A) : M (AnteState H) A :=
  zoom an_heap (fun h s => mkAnteState h (an_meter s) (an_zeroGasConfig s) (an_events s)) m.
Definition ante_read {A} (f : World S -> res A) : M (AnteState H) A := in_heap (read_ctx c f).
Definition ante_write (f : World S -> World S) : M (AnteState H) unit := in_heap (write_ctx c f).
Definition with_meter (g : AnteMeter) : M (AnteState H) unit :=
  modify (fun s => mkAnteState (an_heap s) g (an_zeroGasConfig s) (an_events s)).
Definition UseZeroGasConfig : M (AnteState H) unit :=
  modify (fun s => mkAnteState (an_heap s) (an_meter s) true (an_events s)).
Definition ante_emit (e : Hash * Z) : M (AnteState H) unit :=
  modify (fun s => mkAnteState (an_heap s) (an_meter s) (an_zeroGasConfig s) (an_events s ++ [e])).

(** Most decorators of the dual lane: Cosmos transactions go to the SDK's decorator. *)
Definition dual (cd : AnteDecorator H) (eth : AnteDecorator H) : AnteDecorator H := fun next tx simulate =>
  if negb (HasSingleEthereumMessage tx) then cd next tx simulate else eth next tx simulate.
Definition pass : AnteDecorator H := fun next => next.

(** 01: the context of an Ethereum transaction has no gas costs of its own; the flags of
    a previous run are reset. *)
Definition DLSetupContext : AnteDecorator H := dual (sdk_SetUpContext sdk) (fun next tx simulate =>
  require (tx_IsGasTx tx) ErrInvalidType ;;
  with_meter InfiniteMeter ;;
  UseZeroGasConfig ;;
  ante_write (fun w => SetFlagSenderNonceIncreasedByAnteHandle w false) ;;
  ante_write (fun w => SetFlagSenderPaidTxFeeInAnteHandle w false) ;;
  next tx simulate).

(** 02 *)
Definition DLExtensionOptions : AnteDecorator H := dual (sdk_ExtensionOptions sdk) (fun next tx simulate =>
  require (IsEthereumTx tx) ErrUnknownExtensionOptions ;; next tx simulate).
Definition OnlyAllowExtensionOptionDynamicFeeTxForCosmosTxs (opt : ExtOpt) : bool :=
  bool_decide (is_Some (opt_DynamicFee opt)).

(** 03: the checks of the wrapping transaction, of the message and of the inner
    transaction; the declared fee and gas are those of the inner transaction. *)
Definition check_eth_tx w tx : res unit :=
  (match tx_ValidateBasic tx with
   | Err e => if bool_decide (e = ErrNoSignatures) then Ok tt else Err e
   | r => r
   end) ;;
  if negb (tx_IsProtoTx tx) then Err ErrUnknownRequest
  else if (0 <? tx_SignerInfos tx)%nat then Err ErrInvalidRequest
  else if negb (bool_decide (tx_FeePayer tx = ""%string)) || negb (bool_decide (tx_FeeGranter tx = ""%string))
  then Err ErrInvalidRequest
  else if (0 <? tx_Signatures tx)%nat then Err ErrInvalidRequest
  else
    msgEthTx ← first_eth tx;
    MsgEthereumTx_ValidateBasic msgEthTx ;;
    evmParams ← Keeper_GetParams w;
    chainId ← Keeper_GetEip155ChainId w;
    baseFee ← Keeper_GetBaseFee legacy_params w;
    ethTx ← MsgEthereumTx_AsTransaction msgEthTx;
    wrap_res ErrInvalidRequest (Latest_AsMessage chainId ethTx baseFee) ;;
    (if negb (EnableCreate evmParams) && bool_decide (tx_To ethTx = None) then Err ErrCreateDisabled
     else if negb (EnableCall evmParams) && negb (bool_decide (tx_To ethTx = None)) then Err ErrCallDisabled
     else Ok tt) ;;
    (if tx_Protected ethTx then Ok tt else Err ErrNotSupported) ;;
    feeAmount ← NewIntFromBigInt (EthTxFee ethTx);
    ethTxFee ← NewCoins1 (EvmDenom evmParams) feeAmount;
    if negb (bool_decide (tx_Fee tx = ethTxFee)) then Err ErrInvalidRequest
    else if negb (tx_GasLimit tx =? tx_Gas ethTx) then Err ErrInvalidRequest
    else Ok tt.

Definition DLValidateBasic : AnteDecorator H := fun next tx simulate =>
  if ctx_IsReCheckTx ctx then next tx simulate
  else if negb (HasSingleEthereumMessage tx) then
    if existsb isEthMsg (GetMsgs tx) then err ErrLogic else sdk_ValidateBasic sdk next tx simulate
  else
    require (IsEthereumTx tx) ErrInvalidRequest ;;
    ante_read (fun w => check_eth_tx w tx) ;;
    next tx simulate.

(** 03e: the sender has no code. *)
Definition ELValidateBasicEoa : AnteDecorator H := fun next tx simulate =>
  if negb (HasSingleEthereumMessage tx) then next tx simulate
  else
    msgEthTx ← lift_res (first_eth tx);
    from ← lift_res (MsgEthereumTx_GetFrom msgEthTx);
    require (negb (length from =? 0)%nat) ErrInvalidAddress ;;
    codeHash ← ante_read (fun w => Ok (Keeper_GetCodeHash w from));
    require (IsEmptyCodeHash codeHash) ErrInvalidType ;;
    next tx simulate.

(** 04 and 05: no timeout height and no memo. *)
Definition DLTxTimeoutHeight : AnteDecorator H := dual (sdk_TxTimeoutHeight sdk) (fun next tx simulate =>
  must (tx_IsProtoTx tx) (Errorf "interface conversion") ;;
  require (tx_TimeoutHeight tx =? 0) ErrInvalidRequest ;; next tx simulate).
Definition DLValidateMemo : AnteDecorator H := dual (sdk_ValidateMemo sdk) (fun next tx simulate =>
  must (tx_IsProtoTx tx) (Errorf "interface conversion") ;;
  require (bool_decide (tx_Memo tx = ""%string)) ErrInvalidRequest ;; next tx simulate).

(** 06, 08, 09, 10 and 13 do nothing for Ethereum transactions. *)
Definition DLConsumeTxSizeGas : AnteDecorator H := dual (sdk_ConsumeGasForTxSize sdk) pass.
Definition DLSetPubKey : AnteDecorator H := dual (sdk_SetPubKey sdk) pass.
Definition DLValidateSigCount : AnteDecorator H := dual (sdk_ValidateSigCount sdk) pass.
Definition DLSigGasConsume : AnteDecorator H := dual (sdk_SigGasConsume sdk) pass.
Definition DLRedundantRelay : AnteDecorator H := dual (ibc_RedundantRelay sdk) pass.

(** 07: the flag is set, and the SDK deducts the fee its checker computes, in both
    lanes. *)
Definition DLDeductFee : AnteDecorator H := fun next tx simulate =>
  (if HasSingleEthereumMessage tx then ante_write (fun w => SetFlagSenderPaidTxFeeInAnteHandle w true)
   else mret tt) ;;
  sdk_DeductFee sdk next tx simulate.

(** 11: the recovered sender is the one the message names, and the nonce is the
    sequence of its account. *)
Definition DLSigVerification : AnteDecorator H := dual (sdk_SigVerification sdk) (fun next tx simulate =>
  chainID ← ante_read (fun w => Keeper_GetEip155ChainId w);
  msgEthTx ← lift_res (first_eth tx);
  ethTx ← lift_res (MsgEthereumTx_AsTransaction msgEthTx);
  sender ← lift_res (wrap_res ErrorInvalidSigner (Latest_Sender chainID ethTx));
  require (bool_decide (msgtx_From msgEthTx = AccAddressString (farr_bytes sender))) ErrorInvalidSigner ;;
  from ← lift_res (MsgEthereumTx_GetFrom msgEthTx);
  acc ← ante_read (fun w => match GetAccount (w_sdk w) from with
                            | Some acc => Ok acc
                            | None => Panic ErrUnknownAddress
                            end);
  require (tx_Nonce ethTx =? acc_sequence acc) ErrInvalidSequence ;;
  next tx simulate).

(** 12: the nonce is increased here, and taken back before the execution. *)
Definition increaseSequence (from : bytes) : M (World S) unit := fun w =>
  match GetAccount (w_sdk w) from with
  | None => (Panic ErrUnknownAddress, w)
  | Some acc =>
      (Ok tt, SetFlagSenderNonceIncreasedByAnteHandle
                (set_sdk (SetAccount (w_sdk w) (with_sequence (add64 (acc_sequence acc) 1) acc)) w) true)
  end.
Definition DLIncrementSequence : AnteDecorator H := dual (sdk_IncrementSequence sdk) (fun next tx simulate =>
  msgEthTx ← lift_res (first_eth tx);
  from ← lift_res (MsgEthereumTx_GetFrom msgEthTx);
  in_heap (on_ctx c (increaseSequence from)) ;;
  next tx simulate).

(** 991e: transaction count, failed receipt and the gas meter of the execution. *)
Definition ELSetupExecution : AnteDecorator H := fun next tx simulate =>
  if negb (HasSingleEthereumMessage tx) then next tx simulate
  else
    msgEthTx ← lift_res (first_eth tx);
    ethTx ← lift_res (MsgEthereumTx_AsTransaction msgEthTx);
    UseZeroGasConfig ;;
    g ← in_heap (on_ctx c (SetupExecutionContext ctx ethTx));
    with_meter (LimitMeter g) ;;
    next tx simulate.

(** 992e *)
Definition ELEmitEvent : AnteDecorator H := fun next tx simulate =>
  if negb (HasSingleEthereumMessage tx) then next tx simulate
  else
    txIndex ← ante_read (fun w => Ok (sub64 (GetTxCountTransient w) 1));
    msgEthTx ← lift_res (first_eth tx);
    ethTx ← lift_res (MsgEthereumTx_AsTransaction msgEthTx);
    ante_emit (Transaction_Hash ethTx, txIndex) ;;
    next tx simulate.

(** 993e: in the mempool and in simulations the message is run on a branch of the
    context that is never written back.  The nonce is taken back there first. *)
Definition rollback_nonce (from : bytes) : M (World S) unit := fun w =>
  if IsSenderNonceIncreasedByAnteHandle w then
    match GetAccount (w_sdk w) from with
    | None => (Panic NilDereference, w)
    | Some acc =>
        (Ok tt, SetFlagSenderNonceIncreasedByAnteHandle
                  (set_sdk (SetAccount (w_sdk w) (with_sequence (sub64 (acc_sequence acc) 1) acc)) w) false)
    end
  else (Ok tt, w).

Definition simulate_message (from : bytes) (msg : Message) (baseFee : Z) : M H unit := fun h =>
  let '(simulationCtx, h) := CacheContext h c in
  (on_ctx simulationCtx (rollback_nonce from) ;;
   evmParams ← read_ctx simulationCtx Keeper_GetParams;
   chainId ← read_ctx c (fun w => Keeper_GetEip155ChainId w);
   ethCfg ← lift_res (ChainConfig_EthereumConfig (params_ChainConfig evmParams) (Some chainId));
   let evmCfg := mkEVMConfig evmParams ethCfg zero_address baseFee false in
   env ← read_ctx simulationCtx (fun w => NewStateDB_env ctx w zero_address);
   d0 ← (fun h => let '(d, h') := NewStateDB simulationCtx h in (Ok d, h'));
   evm ← read_ctx simulationCtx (fun w => NewEVM Erc20CpcInfo Bech32CpcInfo StakingCpcInfo ctx w msg evmCfg);
   paid ← gets (fun h => IsSenderPaidTxFeeInAnteHandle (view h simulationCtx));
   _ ← wrap_err ErrLogic (runTransition env evm msg paid d0);
   mret tt) h.

Definition ELExecWithoutError : AnteDecorator H := fun next tx simulate =>
  if negb (ctx_IsCheckTx ctx || ctx_IsReCheckTx ctx || simulate) then next tx simulate
  else if negb (HasSingleEthereumMessage tx) then next tx simulate
  else
    baseFee ← ante_read (Keeper_GetBaseFee legacy_params);
    chainId ← ante_read (fun w => Keeper_GetEip155ChainId w);
    ethMsg ← lift_res (first_eth tx);
    ethTx ← lift_res (MsgEthereumTx_AsTransaction ethMsg);
    ethCoreMsg ← lift_res (must_res (Latest_AsMessage chainId ethTx baseFee));
    from ← lift_res (MsgEthereumTx_GetFrom ethMsg);
    in_heap (simulate_message from ethCoreMsg baseFee) ;;
    next tx simulate.

(** 991c, 992c and 993c: the Cosmos lane. *)
Definition CLRejectEthereumMsgs : AnteDecorator H := fun next tx simulate =>
  if HasSingleEthereumMessage tx then next tx simulate
  else require (negb (existsb isEthMsg (GetMsgs tx))) ErrInvalidType ;; next tx simulate.

Definition CLRejectAuthzMsgs : AnteDecorator H := fun next tx simulate =>
  if HasSingleEthereumMessage tx then next tx simulate
  else
    lift_res (wrap_res ErrUnauthorized (checkDisabledMsgs disabledNestedMsgs (GetMsgs tx) 1)) ;;
    next tx simulate.

Fixpoint vesting_authorized w (msgs : list Msg) : res unit :=
  match msgs with
  | [] => Ok tt
  | VestingAccountMsg _ account :: msgs' =>
      addr ← must_res (AccAddressFromBech32 account);
      if HasProofExternalOwnedAccount w addr then vesting_authorized w msgs' else Err ErrUnauthorized
  | _ :: msgs' => vesting_authorized w msgs'
  end.
Definition CLVestingMessagesAuthorization : AnteDecorator H := fun next tx simulate =>
  if HasSingleEthereumMessage tx then next tx simulate
  else ante_read (fun w => vesting_authorized w (GetMsgs tx)) ;; next tx simulate.

(** ** The chain *)

Definition anteDecorators : list (AnteDecorator H) :=
  [DLSetupContext; DLExtensionOptions; DLValidateBasic; ELValidateBasicEoa; DLTxTimeoutHeight; DLValidateMemo;
   DLConsumeTxSizeGas; DLDeductFee; DLSetPubKey; DLValidateSigCount; DLSigGasConsume; DLSigVerification;
   DLIncrementSequence; DLRedundantRelay; ELSetupExecution; ELEmitEvent; ELExecWithoutError;
   CLRejectEthereumMsgs; CLRejectAuthzMsgs; CLVestingMessagesAuthorization].

(** [sdk.ChainAnteDecorators]: the last handler does nothing. *)
Definition terminator : AnteHandler H := fun _ _ => mret tt.
Definition ChainAnteDecorators (l : list (AnteDecorator H)) : AnteHandler H :=
  foldr (fun d next => d next) terminator l.
Definition NewAnteHandler : AnteHandler H := ChainAnteDecorators anteDecorators.
End Ante.

(** ** Lanes *)

Section AnteProofs.
Context {S : Type} {K : SdkKeepers S} {G : Geth} {B : Bech32} {E : EvmEngine S} {LS : LatestSigner}.
Context {P : Codec EvmParams} {FP : Codec FmParams}.
Context {SK : StakingKeepers S} {E712 : Eip712Lib} {CP : Codec CpcParams} {CM : Codec CustomPrecompiledContractMeta}.
Context {JE : Json Erc20CustomPrecompiledContractMeta} {JS : Json StakingCustomPrecompiledContractMeta}.
Context {H C : Type} {X : CacheCtx H C (World S)} {XL : CacheCtxLaws H C (World S)}.
Variable legacy_params : S -> FmParams.
Variables Erc20CpcInfo Bech32CpcInfo : CustomPrecompiledContractInfo.
Variable StakingCpcInfo : CustomPrecompiledContractInfo.
Variable sdk : SdkAnte H.
Variable disabledNestedMsgs : list string.
Variable ctx : Ctx.
Variable c : C.
Implicit Types (w : World S) (tx : Tx) (next : AnteHandler H) (st : AnteState H).

Abbreviation ante := (NewAnteHandler legacy_params Erc20CpcInfo Bech32CpcInfo StakingCpcInfo sdk
  disabledNestedMsgs ctx c).

(** A decorator succeeds only by calling the next handler, and ends as that does. *)
Definition calls_next (d : AnteDecorator H) : Prop :=
  forall next tx sim st st', d next tx sim st = (Ok tt, st') -> exists st1, next tx sim st1 = (Ok tt, st').

(** The SDK's decorators are such decorators. *)
Record SdkAnteLaws : Prop := {
  law_setup : calls_next (sdk_SetUpContext sdk);
  law_ext : calls_next (sdk_ExtensionOptions sdk);
  law_basic : calls_next (sdk_ValidateBasic sdk);
  law_timeout : calls_next (sdk_TxTimeoutHeight sdk);
  law_memo : calls_next (sdk_ValidateMemo sdk);
  law_size : calls_next (sdk_ConsumeGasForTxSize sdk);
  law_fee : calls_next (sdk_DeductFee sdk);
  law_pubkey : calls_next (sdk_SetPubKey sdk);
  law_sigcount : calls_next (sdk_ValidateSigCount sdk);
  law_siggas : calls_next (sdk_SigGasConsume sdk);
  law_sig : calls_next (sdk_SigVerification sdk);
  law_seq : calls_next (sdk_IncrementSequence sdk);
  law_relay : calls_next (ibc_RedundantRelay sdk)
}.

Lemma calls_next_dual cd eth : calls_next cd -> calls_next eth -> calls_next (dual cd eth).
Proof. intros Hc He next tx sim st st'. unfold dual. destruct (negb _); [apply Hc|apply He]. Qed.
Lemma calls_next_pass : calls_next pass.
Proof. intros next tx sim st st' Hok. by exists st. Qed.

Ltac to_next :=
  intros next tx sim st st'; repeat case_match; try (by eauto); try done;
  repeat (let Hx := fresh in intros Hx; apply bind_ok_inv in Hx as (? & ? & _ & Hx); revert Hx); eauto.

Lemma decorators_call_next : SdkAnteLaws ->
  Forall calls_next (anteDecorators legacy_params Erc20CpcInfo Bech32CpcInfo StakingCpcInfo sdk
    disabledNestedMsgs ctx c).
Proof.
  intros L. unfold anteDecorators. repeat apply Forall_cons_2; [..|by apply Forall_nil].
  all: try (apply calls_next_dual; [apply L|apply calls_next_pass]).
  all: try (apply calls_next_dual; [apply L|to_next]).
  - unfold DLValidateBasic. intros next tx sim st st'. destruct (ctx_IsReCheckTx ctx); [eauto|].
    destruct (negb _); [destruct (existsb _ _); [done|apply L]|]. revert next tx sim st st'. to_next.
  - unfold ELValidateBasicEoa. to_next.
  - unfold DLDeductFee. intros next tx sim st st' Hx. apply bind_ok_inv in Hx as (? & ? & _ & Hx). by apply L in Hx.
  - unfold ELSetupExecution. to_next.
  - unfold ELEmitEvent. to_next.
  - unfold ELExecWithoutError. to_next.
  - unfold CLRejectEthereumMsgs. to_next.
  - unfold CLRejectAuthzMsgs. to_next.
  - unfold CLVestingMessagesAuthorization. to_next.
Qed.

(** Every decorator of a chain that succeeds was run, and succeeded. *)
Lemma chain_reaches (l1 l2 : list (AnteDecorator H)) (d : AnteDecorator H) tx sim st st' :
  Forall calls_next l1 -> ChainAnteDecorators (l1 ++ d :: l2) tx sim st = (Ok tt, st') ->
  exists st1, d (ChainAnteDecorators l2) tx sim st1 = (Ok tt, st').
Proof.
  intros Hl. revert st. induction Hl as [|d1 l1 Hd _ IH]; intros st; [intros Hok; by exists st|].
  intros Hok. apply Hd in Hok as [st1 Hok]. by apply IH in Hok.
Qed.

(** The messages of a transaction of the Cosmos lane, with the proofs stored in [w]. *)
Record cosmos_messages_ok w (msgs : list Msg) : Prop := {
  no_eth_message lvl m : message_at lvl (EthMsg m) msgs -> False;
  nested_allowed lvl m : message_at lvl m msgs -> allowed_at disabledNestedMsgs lvl m;
  vesting_proven kind account : VestingAccountMsg kind account ∈ msgs ->
    exists addr, AccAddressFromBech32 account = Ok addr /\ HasProofExternalOwnedAccount w addr = true
}.

Lemma vesting_authorized_ok w msgs : vesting_authorized w msgs = Ok tt ->
  forall kind account, VestingAccountMsg kind account ∈ msgs ->
    exists addr, AccAddressFromBech32 account = Ok addr /\ HasProofExternalOwnedAccount w addr = true.
Proof.
  induction msgs as [|m msgs IH]; intros Hv kind account; [set_solver|].
  destruct m; cbn [vesting_authorized] in Hv;
    try (intros [Heq|Hin]%elem_of_cons; [done|by eapply IH]).
  unfold must_res, mbind, res_bind in Hv. destruct (AccAddressFromBech32 _) as [addr|e|e] eqn:Ea; [|done|done].
  destruct (HasProofExternalOwnedAccount w addr) eqn:Eh; [|done].
  intros [[= -> ->]|Hin]%elem_of_cons; [eauto|by eapply IH].
Qed.

(** C6 The lanes are separate: a transaction that passes the ante handler, in any mode,
    either carries exactly one Ethereum message with no foreign extension, or no Ethereum
    message at all, at any depth of nested messages; in the second case no nested or
    granted message is of a disabled type and every vesting account it creates at the
    top level has a stored proof of external ownership. *)
Theorem lane_separation (tx : Tx) (sim : bool) (st st' : AnteState H)
  (Hsdk : SdkAnteLaws) (Hdisabled : EthMsgUrl ∈ disabledNestedMsgs)
  (Hok : ante tx sim st = (Ok tt, st')) :
  (exists m, GetMsgs tx = [EthMsg m] /\ IsEthereumTx tx = true) \/
  cosmos_messages_ok (view (an_heap st') c) (GetMsgs tx).
Proof.
  pose proof (decorators_call_next Hsdk) as Hall. unfold NewAnteHandler in Hok. set (l := anteDecorators _ _ _ _ _ _ _ _) in *.
  assert (forall n d, l !! n = Some d ->
    exists st1, d (ChainAnteDecorators (drop (Datatypes.S n) l)) tx sim st1 = (Ok tt, st')) as Hrun.
  { intros n d Hn. rewrite <- (take_drop_middle _ _ _ Hn) in Hok. eapply chain_reaches in Hok as [st1 Hok]; [by eauto|].
    by apply Forall_take. }
  destruct (HasSingleEthereumMessage tx) eqn:Es.
  - left. destruct (Hrun 1%nat _ eq_refl) as (st1 & H1).
    unfold DLExtensionOptions, dual in H1. rewrite Es in H1. simpl in H1.
    apply bind_ok_inv in H1 as (? & ? & H1 & _). pose proof Es as Es'. apply HasSingleEthereumMessage_iff in Es' as [m Em].
    exists m. split; [done|]. unfold require in H1. by destruct (IsEthereumTx tx).
  - right.
    destruct (Hrun 17%nat _ eq_refl) as (s1 & H1). destruct (Hrun 18%nat _ eq_refl) as (s2 & H2).
    destruct (Hrun 19%nat _ eq_refl) as (s3 & H3). clear Hrun. cbn [l drop anteDecorators] in H3.
    unfold CLRejectEthereumMsgs in H1. unfold CLRejectAuthzMsgs in H2. unfold CLVestingMessagesAuthorization in H3.
    rewrite Es in H1, H2, H3.
    apply bind_ok_inv in H1 as (? & ? & H1 & _). apply bind_ok_inv in H2 as (? & ? & H2 & _).
    apply bind_ok_inv in H3 as (? & st3 & H3 & Hlast). injection Hlast as ->.
    assert (forall lvl m, message_at lvl m (GetMsgs tx) -> allowed_at disabledNestedMsgs lvl m) as Hn.
    { apply checkDisabledMsgs_iff. unfold lift_res, wrap_res in H2. destruct (checkDisabledMsgs _ _ _) as [[]|e|e]; done. }
    split; [|done|].
    + intros lvl m Hat. pose proof (message_at_pos _ _ _ Hat) as Hp. destruct (decide (lvl = 1)) as [->|].
      * assert (existsb isEthMsg (GetMsgs tx) = true) as He.
        { apply existsb_exists. exists (EthMsg m). split; [|done]. apply list_elem_of_In.
          inversion Hat as [|l0 ? ? ? ? Hat0]; subst; [done|]. pose proof (message_at_pos _ _ _ Hat0). lia. }
        rewrite He in H1. done.
      * destruct (Hn _ _ Hat) as [_ Hu]. apply Hu; [lia|done].
    + apply vesting_authorized_ok. unfold ante_read, in_heap, read_ctx, zoom in H3.
      destruct (vesting_authorized _ _) as [[]|e|e] eqn:Ev in H3; [|done|done]. by injection H3 as _ <-.
Qed.
End AnteProofs.

(** ** The nonce before and after *)

Section NonceProofs.
Context {S : Type} {K : SdkKeepers S} {G : Geth} {L : SdkLaws S}.
Implicit Types w : World S.

Lemma flag_get_set w key b : genericGetBoolFlagTransient (genericSetBoolFlagTransient w key b) key = b.
Proof.
  unfold genericGetBoolFlagTransient, genericSetBoolFlagTransient. destruct b; simpl.
  - by rewrite kv_get_set_eq.
  - by rewrite kv_get_delete_eq.
Qed.
Lemma flag_get_set_ne w key key' b :
  key <> key' -> genericGetBoolFlagTransient (genericSetBoolFlagTransient w key' b) key =
                 genericGetBoolFlagTransient w key.
Proof.
  intros Hne. unfold genericGetBoolFlagTransient, genericSetBoolFlagTransient. destruct b; simpl.
  - by rewrite kv_get_set_ne.
  - by rewrite kv_get_delete_ne.
Qed.

Lemma with_sequence_id n acc : acc_sequence acc = n -> with_sequence n acc = acc.
Proof. destruct acc. simpl. by intros ->. Qed.

(** The nonce of an Ethereum transaction is increased by the ante handler and taken
    back before the execution: for a transaction whose nonce is the sequence of the
    sender's account, the two steps succeed and leave every account, every balance and
    the supply exactly as they were, with the flag cleared; if the account's sequence
    changed in between, the second step panics. *)
Theorem nonce_round_trip (from : bytes) (nonce : Z) (acc : Account) (w : World S)
  (Hacc : GetAccount (w_sdk w) from = Some acc) (Hnonce : acc_sequence acc = nonce) (Hrange : is_u64 nonce) :
  exists w1 w2, increaseSequence from w = (Ok tt, w1) /\
    GetAccount (w_sdk w1) from = Some (with_sequence (add64 nonce 1) acc) /\
    IsSenderNonceIncreasedByAnteHandle w1 = true /\
    restoreNonce from nonce w1 = (Ok tt, w2) /\
    (forall a, GetAccount (w_sdk w2) a = GetAccount (w_sdk w) a) /\
    same_balances (w_sdk w) (w_sdk w2) /\ IsSenderNonceIncreasedByAnteHandle w2 = false /\
    IsSenderPaidTxFeeInAnteHandle w2 = IsSenderPaidTxFeeInAnteHandle w /\
    forall seq, seq <> add64 nonce 1 ->
      fst (restoreNonce from nonce (set_sdk (SetAccount (w_sdk w1) (with_sequence seq acc)) w1)) =
        Panic (Errorf "expected account nonce increased by 1 at this point").
Proof.
  pose proof (get_account_addr _ _ _ Hacc) as Haddr.
  unfold increaseSequence. rewrite Hacc, Hnonce.
  set (s1 := SetAccount (w_sdk w) (with_sequence (add64 nonce 1) acc)).
  set (w1 := SetFlagSenderNonceIncreasedByAnteHandle (set_sdk s1 w) true).
  assert (IsSenderNonceIncreasedByAnteHandle w1 = true) as Hf by apply flag_get_set.
  assert (w_sdk w1 = s1) as Hw1 by done.
  assert (forall acc' a, GetAccount (SetAccount s1 acc') a =
    if decide (acc_addr acc' = a) then Some acc' else if decide (from = a) then Some (with_sequence (add64 nonce 1) acc)
      else GetAccount (w_sdk w) a) as Hs1.
  { intros acc' a. rewrite get_set_account. case_decide; [done|]. unfold s1. rewrite get_set_account. simpl. by rewrite Haddr. }
  assert (GetAccount s1 from = Some (with_sequence (add64 nonce 1) acc)) as Ha1.
  { unfold s1. rewrite get_set_account. simpl. by rewrite Haddr, decide_True. }
  assert (restoreNonce from nonce w1 = (Ok tt, SetFlagSenderNonceIncreasedByAnteHandle (set_sdk (SetAccount s1 acc) w1) false)) as Er.
  { unfold restoreNonce. rewrite Hf, Hw1, Ha1. simpl. rewrite Z.eqb_refl.
    assert (sub64 (add64 nonce 1) 1 = nonce) as ->.
    { unfold sub64, add64, wrap64. rewrite Zminus_mod_idemp_l. replace (nonce + 1 - 1) with nonce by lia.
      apply Z.mod_small. unfold is_u64, MaxUint64 in Hrange. lia. }
    change (with_sequence nonce (with_sequence (add64 nonce 1) acc)) with (with_sequence nonce acc).
    by rewrite (with_sequence_id nonce acc). }
  exists w1, (SetFlagSenderNonceIncreasedByAnteHandle (set_sdk (SetAccount s1 acc) w1) false).
  split; [done|]. rewrite Hw1. split; [done|]. split; [done|]. split; [exact Er|].
  split_and!.
  - intros a. change (GetAccount (SetAccount s1 acc) a = GetAccount (w_sdk w) a). rewrite Hs1, Haddr.
    repeat case_decide; congruence.
  - change (same_balances (w_sdk w) (SetAccount s1 acc)). unfold s1.
    destruct (set_account_bank (w_sdk w) (with_sequence (add64 nonce 1) acc)) as [Hb Hp].
    destruct (set_account_bank s1 acc) as [Hb' Hp']. split; intros; [by rewrite Hb', Hb|intros d; by rewrite Hp', Hp].
  - apply flag_get_set.
  - unfold IsSenderPaidTxFeeInAnteHandle. unfold SetFlagSenderNonceIncreasedByAnteHandle at 1.
    rewrite flag_get_set_ne by done.
    change (genericGetBoolFlagTransient w1 KeyTransientSenderPaidFee = genericGetBoolFlagTransient w KeyTransientSenderPaidFee).
    unfold w1, SetFlagSenderNonceIncreasedByAnteHandle. by rewrite flag_get_set_ne.
  - intros seq Hseq. unfold restoreNonce.
    assert (IsSenderNonceIncreasedByAnteHandle (set_sdk (SetAccount s1 (with_sequence seq acc)) w1) = true) as -> by exact Hf.
    cbn [w_sdk set_sdk]. rewrite Hs1. simpl. rewrite Haddr, decide_True by done. simpl.
    by rewrite (proj2 (Z.eqb_neq _ _) Hseq).
Qed.
End NonceProofs.

(** ** Simulation and the Ethereum lane *)

Section EthLane.
Context {S : Type} {K : SdkKeepers S} {G : Geth} {B : Bech32} {E : EvmEngine S} {LS : LatestSigner}.
Context {P : Codec EvmParams} {FP : Codec FmParams}.
Context {SK : StakingKeepers S} {E712 : Eip712Lib} {CP : Codec CpcParams} {CM : Codec CustomPrecompiledContractMeta}.
Context {JE : Json Erc20CustomPrecompiledContractMeta} {JS : Json StakingCustomPrecompiledContractMeta}.
Context {H C : Type} {X : CacheCtx H C (World S)} {XL : CacheCtxLaws H C (World S)}.
Variable legacy_params : S -> FmParams.
Variables Erc20CpcInfo Bech32CpcInfo : CustomPrecompiledContractInfo.
Variable StakingCpcInfo : CustomPrecompiledContractInfo.
Variable sdk : SdkAnte H.
Variable disabledNestedMsgs : list string.
Variable ctx : Ctx.
Variable c : C.
Implicit Types (w : World S) (tx : Tx) (next : AnteHandler H) (st : AnteState H).

(** A computation on the stores that no context above [q] can see. *)
Definition below {A} (q : C) (m : M H A) : Prop :=
  forall h, ctx_valid h q -> ancestor h c q ->
    let h' := snd (m h) in ctx_valid h' q /\ ancestor h' c q /\ view h' c = view h c.

Lemma below_read {A} q q' (f : World S -> res A) : below q (read_ctx q' f).
Proof. by intros h Hv Ha. Qed.
Lemma below_lift {A} q (r : res A) : below q (lift_res r).
Proof. by intros h Hv Ha. Qed.
Lemma below_gets {A} q (f : H -> A) : below q (gets f).
Proof. by intros h Hv Ha. Qed.
Lemma below_on_ctx {A} q (m : M (World S) A) : below q (on_ctx q m).
Proof.
  intros h Hv Ha. unfold on_ctx. destruct (m (view h q)) as [r w]. simpl. split_and!.
  - by apply valid_update.
  - destruct Ha as [p0 q0 Hb|p0 q1 q0 Hb Hp].
    + apply ancestor_one, branch_update; [done|]. apply ancestor_ne with h. by apply ancestor_one.
    + eapply ancestor_step.
      * apply branch_update; [exact Hb|]. apply ancestor_ne with h. by apply ancestor_one.
      * apply ancestor_update; [done|by apply ancestor_one].
  - by apply view_update_ancestor.
Qed.

Lemma below_transition q (env : SdbEnv) (get_evm : World S -> res (EVM S)) (msg : Message) (h : H) :
  ctx_valid h q -> ancestor h c q ->
  let h' := snd ((d0 ← (fun h => let '(d, h') := NewStateDB q h in (Ok d, h'));
    evm ← read_ctx q get_evm;
    paid ← gets (fun h => IsSenderPaidTxFeeInAnteHandle (view h q));
    _ ← wrap_err ErrLogic (runTransition env evm msg paid d0); mret tt) h) in
  view h' c = view h c.
Proof.
  intros Hv Ha. unfold mbind, M_bind, read_ctx, gets, wrap_err, mret, M_ret.
  destruct (NewStateDB q h) as [d0 h0] eqn:E0.
  pose proof (refines_new q h d0 h0 Hv E0) as R0. pose proof (NewStateDB_original _ _ _ _ E0) as Eo.
  assert (ancestor h0 c q /\ view h0 c = view h c) as [Ha0 Ev0].
  { revert E0. unfold NewStateDB, newStateDbSnapshotFromStateDb. destruct (CacheContext h q) as [c1 h1] eqn:Ec.
    intros [= _ <-]. split; [by eapply ancestor_branch|].
    eapply view_branch_old; [exact Hv|by eapply ancestor_valid|exact Ec]. }
  destruct (get_evm (view h0 q)) as [evm|e|e]; [|done|done]. unfold runTransition.
  destruct (sdb_run env _ (d0, h0)) as [r1 [d1 h1]] eqn:Er.
  rewrite <- Eo in Ha0. destruct (sdb_run_frame _ _ _ _ _ _ _ _ _ R0 Ha0 Er) as [_ Ev].
  destruct r1 as [[[result|e|e] s1]|e|e]; simpl; by rewrite Ev, Ev0.
Qed.

(** The simulation of the mempool changes nothing: whatever the message does, and
    however its execution ends, the stores of the context are read as before. *)
Theorem simulation_changes_nothing (from : bytes) (msg : Message) (baseFee : Z) (h : H) (Hctx : ctx_valid h c) :
  view (snd (simulate_message Erc20CpcInfo Bech32CpcInfo StakingCpcInfo ctx c from msg baseFee h)) c = view h c.
Proof.
  unfold simulate_message. destruct (CacheContext h c) as [q h0] eqn:Ec.
  assert (ctx_valid h0 q /\ ancestor h0 c q /\ view h0 c = view h c) as (Hv & Ha & <-).
  { pose proof (branch_new _ _ _ _ Hctx Ec) as Hb. split_and!; [by eapply branch_valid in Hb as [? _]|by apply ancestor_one|].
    by eapply view_branch_old. }
  clear Ec Hctx h.
  assert (forall A (m : M H A) (f : A -> M H unit) h, below q m -> ctx_valid h q -> ancestor h c q ->
    (forall a h1, ctx_valid h1 q -> ancestor h1 c q -> view (snd (f a h1)) c = view h1 c) ->
    view (snd ((m ≫= f) h)) c = view h c) as Hstep.
  { intros A m f h Hm Hvh Hah Hf. unfold mbind, M_bind. destruct (Hm h Hvh Hah) as (Hv1 & Ha1 & E1).
    destruct (m h) as [[a|e|e] h1]; simpl in *; [|done|done]. rewrite Hf by done. done. }
  apply Hstep; [apply below_on_ctx|done|done|]. intros [] h1 V1 A1.
  apply Hstep; [apply below_read|done|done|]. intros p h2 V2 A2.
  apply Hstep; [apply below_read|done|done|]. intros i h3 V3 A3.
  apply Hstep; [apply below_lift|done|done|]. intros cfg h4 V4 A4. cbv zeta.
  apply Hstep; [apply below_read|done|done|]. intros env h5 V5 A5.
  by apply below_transition.
Qed.

(** *** States of the ante handler, as the context reads them *)
Record at_state st w (g : AnteMeter) (z : bool) (ev : list (Hash * Z)) : Prop := {
  at_valid : ctx_valid (an_heap st) c;
  at_view : view (an_heap st) c = w;
  at_meter : an_meter st = g;
  at_zero : an_zeroGasConfig st = z;
  at_events : an_events st = ev
}.

Lemma at_write f st w g z ev r st' :
  at_state st w g z ev -> ante_write c f st = (r, st') -> at_state st' (f w) g z ev.
Proof.
  intros [V W M Z0 Ev]. unfold ante_write, in_heap, write_ctx, zoom, modify. intros [= _ <-].
  split; simpl; [by apply valid_update|by rewrite view_update, W|done|done|done].
Qed.
Lemma at_on_ctx {A} (m : M (World S) A) st w g z ev r st' :
  at_state st w g z ev -> in_heap (on_ctx c m) st = (r, st') -> exists w', m w = (r, w') /\ at_state st' w' g z ev.
Proof.
  intros [V W M Z0 Ev]. unfold in_heap, on_ctx, zoom. rewrite W. destruct (m w) as [r1 w'] eqn:Em.
  intros [= <- <-]. exists w'. split; [done|].
  split; simpl; [by apply valid_update|by rewrite view_update|done|done|done].
Qed.
Lemma at_read {A} (f : World S -> res A) st w g z ev a st' :
  at_state st w g z ev -> ante_read c f st = (Ok a, st') -> f w = Ok a /\ st' = st.
Proof.
  intros [V W M Z0 Ev]. unfold ante_read, in_heap, read_ctx, zoom. rewrite W. intros [= Hf <-].
  split; [done|]. by destruct st.
Qed.
Lemma require_inv (b : bool) (e : gerr) st a st' : require b e st = (Ok a, st') -> b = true /\ st' = st.
Proof. unfold require. destruct b; by intros [=]. Qed.
Lemma must_inv (b : bool) (e : gerr) st a st' : must b e st = (Ok a, st') -> b = true /\ st' = st.
Proof. unfold must. destruct b; by intros [=]. Qed.

(** *** The SDK's fee deduction, in the execution of a block

    Documented behaviour of [DeductFeeDecorator] with a fee checker: the payer must have
    an account; the fee of the checker is sent from it to the fee collector; nothing else
    changes but that the account of the collector may be created. *)
Variable FeePayer : Tx -> bytes.
Definition FeeCollectorName : string := "fee_collector".
Definition deduct_law : Prop :=
  forall next tx st st' w g z ev, at_state st w g z ev -> sdk_DeductFee sdk next tx false st = (Ok tt, st') ->
    exists st1 s' fee priority, next tx false st1 = (Ok tt, st') /\ at_state st1 (set_sdk s' w) g z ev /\
      DualLaneFeeChecker legacy_params ctx w tx = Ok (fee, priority) /\
      is_Some (GetAccount (w_sdk w) (FeePayer tx)) /\
      coins_moved (w_sdk w) s' (FeePayer tx) (GetModuleAddress FeeCollectorName) fee /\
      accounts_kept ModuleAccount (w_sdk w) s' (GetModuleAddress FeeCollectorName) /\
      same_supply (w_sdk w) s'.

(** The hash of the block is stored under its height if it was not, and then the one of
    256 blocks before goes; nothing else of the store changes. *)
Definition block_hash_stored (m m' : kv) : Prop :=
  let height := ctx_BlockHeight ctx in
  forall k, m' !! k =
    if decide (height = 0 \/ is_Some (m !! BlockHashKey (wrap64 height))) then m !! k
    else if decide (k = BlockHashKey (wrap64 height)) then Some (ctx_HeaderHash ctx)
    else if decide (256 < height /\ k = BlockHashKey (wrap64 (height - 256))) then None
    else m !! k.

(** The receipt that is stored in advance, with what the counter of logs gave. *)
Definition failed_receipt (ethTx : Transaction) (cumulative : Z) : Receipt :=
  let r := mkReceipt (tx_Type ethTx) ReceiptStatusFailed cumulative [] [] in
  mkReceipt (tx_Type ethTx) ReceiptStatusFailed cumulative (CreateBloom [r]) [].

(** A transaction is entered in the records of the block as if it had failed: it is
    counted, under its index are its gas limit and the receipt of a failure, and of the
    transient store nothing else changes but the keys [flags]. *)
Record tx_entered (flags : list bytes) w w' (ethTx : Transaction) (idx : Z) : Prop := {
  te_count : GetRawTxCountTransient w' = add64 (GetRawTxCountTransient w) 1;
  te_index : idx = sub64 (GetTxCountTransient w') 1;
  te_gas : kv_get (w_tevm w') (TxGasTransientKey idx) = Uint64ToBigEndian (tx_Gas ethTx);
  te_receipt : Receipt_MarshalBinary (failed_receipt ethTx (GetCumulativeLogCountTransient w' false)) =
    Ok (kv_get (w_tevm w') (TxReceiptTransientKey idx));
  te_others k : k ∉ KeyTransientTxCount :: TxGasTransientKey idx :: TxReceiptTransientKey idx :: flags ->
    w_tevm w' !! k = w_tevm w !! k
}.

Lemma BlockHashKey_old height : BlockHashKey (wrap64 (height - 256)) <> BlockHashKey (wrap64 height).
Proof.
  intros Hk%BlockHashKey_inj; [|apply is_u64_wrap64..]. revert Hk. unfold wrap64.
  pose proof (Z.div_mod height (2 ^ 64)). pose proof (Z.div_mod (height - 256) (2 ^ 64)). lia.
Qed.
Lemma block_hash_stored_ok w : block_hash_stored (w_evm w) (w_evm (SetBlockHashForCurrentBlockAndPruneOld ctx w)).
Proof.
  unfold block_hash_stored, SetBlockHashForCurrentBlockAndPruneOld, kv_has. cbv zeta. set (h := ctx_BlockHeight ctx). intros k.
  destruct (Z.eqb_spec h 0); [by rewrite decide_True by auto|]. case_bool_decide; [by rewrite decide_True by auto|].
  rewrite decide_False by naive_solver. pose proof (BlockHashKey_old h) as Hne.
  destruct (Z.ltb_spec 0 (h - 256)); cbn [w_evm set_evm]; unfold kv_delete, kv_set.
  - destruct (decide (k = BlockHashKey (wrap64 (h - 256)))) as [->|].
    + rewrite lookup_delete_eq, decide_False, decide_True by (done || (split; [lia|done])). done.
    + rewrite lookup_delete_ne by done. rewrite (decide_False (P := 256 < h /\ _)) by naive_solver.
      rewrite lookup_insert. do 2 case_decide; congruence.
  - rewrite (decide_False (P := 256 < h /\ _)) by lia. rewrite lookup_insert. do 2 case_decide; congruence.
Qed.

(** The receipts do not enter the counter of logs. *)
Lemma sum_log_counts_receipt w bz count n : forall i total,
  sum_log_counts (SetTxReceiptForCurrentTxTransient w bz) false count n i total = sum_log_counts w false count n i total.
Proof.
  induction n as [|n IH]; intros i t; [done|]. cbn [sum_log_counts andb]. rewrite IH.
  unfold SetTxReceiptForCurrentTxTransient at 1. cbn [w_tevm set_tevm]. by rewrite kv_get_set_ne.
Qed.
Lemma log_count_receipt w bz : GetCumulativeLogCountTransient (SetTxReceiptForCurrentTxTransient w bz) false =
  GetCumulativeLogCountTransient w false.
Proof.
  unfold GetCumulativeLogCountTransient. rewrite sum_log_counts_receipt.
  unfold GetTxCountTransient, GetRawTxCountTransient, SetTxReceiptForCurrentTxTransient. cbn [w_tevm set_tevm].
  by rewrite kv_get_set_ne.
Qed.

Lemma SetupExecutionContext_ok ethTx w g w' :
  SetupExecutionContext ctx ethTx w = (Ok g, w') ->
  g = NewInfiniteGasMeterWithLimit (tx_Gas ethTx) /\ w_sdk w' = w_sdk w /\
  block_hash_stored (w_evm w) (w_evm w') /\ tx_entered [] w w' ethTx (sub64 (GetTxCountTransient w') 1) /\
  w_feemarket w' = w_feemarket w /\ w_cpc w' = w_cpc w /\ w_vauth w' = w_vauth w.
Proof.
  unfold SetupExecutionContext, or_panic. munfold.
  pose proof (block_hash_stored_ok w) as Hh. set (w0 := SetBlockHashForCurrentBlockAndPruneOld ctx w) in *.
  set (w1 := IncreaseTxCountTransient w0).
  set (w2 := SetGasUsedForCurrentTxTransient w1 (tx_Gas ethTx)).
  destruct (Receipt_MarshalBinary (failedReceipt w2 ethTx)) as [bz|e|e] eqn:Em; [|done|done]. intros [= <- <-].
  assert (w_sdk w0 = w_sdk w /\ w_tevm w0 = w_tevm w /\ w_feemarket w0 = w_feemarket w /\ w_cpc w0 = w_cpc w /\ w_vauth w0 = w_vauth w)
    as (Es & Et & Efm & Ec & Ev) by (unfold w0, SetBlockHashForCurrentBlockAndPruneOld; by repeat case_match).
  split_and!; try done.
  set (w' := SetTxReceiptForCurrentTxTransient w2 bz). set (idx := sub64 (GetTxCountTransient w1) 1).
  assert (GetTxCountTransient w2 = GetTxCountTransient w1) as E2.
  { unfold GetTxCountTransient, GetRawTxCountTransient, w2, SetGasUsedForCurrentTxTransient. cbn [w_tevm set_tevm]. by rewrite kv_get_set_ne. }
  assert (GetTxCountTransient w' = GetTxCountTransient w1) as E1.
  { rewrite <- E2. unfold GetTxCountTransient, GetRawTxCountTransient, w', SetTxReceiptForCurrentTxTransient. cbn [w_tevm set_tevm]. by rewrite kv_get_set_ne. }
  assert (w_tevm w' = kv_set (kv_set (kv_set (w_tevm w) KeyTransientTxCount (Uint64ToBigEndian (add64 (GetRawTxCountTransient w) 1)))
    (TxGasTransientKey idx) (Uint64ToBigEndian (tx_Gas ethTx))) (TxReceiptTransientKey idx) bz) as Ew.
  { assert (GetRawTxCountTransient w0 = GetRawTxCountTransient w) as E0 by (unfold GetRawTxCountTransient; by rewrite Et).
    assert (w_tevm w1 = kv_set (w_tevm w) KeyTransientTxCount (Uint64ToBigEndian (add64 (GetRawTxCountTransient w) 1))) as <-
      by (rewrite <- E0, <- Et; done).
    unfold w', SetTxReceiptForCurrentTxTransient. by rewrite E2. }
  rewrite E1. fold idx. split.
  - unfold GetRawTxCountTransient at 1. rewrite Ew, !kv_get_set_ne, kv_get_set_eq by done. apply BigEndianToUint64_round, is_u64_add64.
  - by rewrite E1.
  - by rewrite Ew, kv_get_set_ne, kv_get_set_eq.
  - rewrite Ew, kv_get_set_eq. unfold w'. by rewrite log_count_receipt.
  - intros k Hk. rewrite Ew. unfold kv_set. rewrite !lookup_insert_ne; [done|set_solver..].
Qed.

(** *** The decorators of an Ethereum transaction, one by one *)

Ltac open_bind H :=
  let H' := fresh "Hc" in apply bind_ok_inv in H as (? & ? & H' & H);
  repeat match goal with u : unit |- _ => destruct u end.

Section OneTx.
Variables (tx : Tx) (msg : MsgEthereumTx) (ethTx : Transaction).
Hypothesis Hmsgs : GetMsgs tx = [EthMsg msg].
Hypothesis Htx : MsgEthereumTx_AsTransaction msg = Ok ethTx.

Lemma eth_single : HasSingleEthereumMessage tx = true.
Proof. apply HasSingleEthereumMessage_iff. eauto. Qed.
Lemma eth_first : first_eth tx = Ok msg.
Proof. unfold first_eth. by rewrite Hmsgs. Qed.

Lemma setup_inv next st st' w g z ev :
  at_state st w g z ev -> DLSetupContext sdk c next tx false st = (Ok tt, st') ->
  exists st1, next tx false st1 = (Ok tt, st') /\
    at_state st1 (SetFlagSenderPaidTxFeeInAnteHandle (SetFlagSenderNonceIncreasedByAnteHandle w false) false)
      InfiniteMeter true ev.
Proof.
  intros [V W Me Z0 Ev]. unfold DLSetupContext, dual. rewrite eth_single. cbn [negb]. intros Hx.
  open_bind Hx. apply require_inv in Hc as [_ ->].
  open_bind Hx. injection Hc as <-. open_bind Hx. injection Hc as <-. simpl in Hx.
  assert (at_state (mkAnteState (an_heap st) InfiniteMeter true (an_events st)) w InfiniteMeter true ev) as At by done.
  open_bind Hx. eapply at_write in Hc; [|exact At]. open_bind Hx. eapply at_write in Hc0; [|exact Hc]. eauto.
Qed.

Lemma basic_inv next st st' w g z ev :
  ctx_IsReCheckTx ctx = false -> at_state st w g z ev ->
  DLValidateBasic legacy_params sdk ctx c next tx false st = (Ok tt, st') ->
  next tx false st = (Ok tt, st') /\ check_eth_tx legacy_params w tx = Ok tt.
Proof.
  intros Hr At. unfold DLValidateBasic. rewrite Hr, eth_single. cbn [negb]. intros Hx.
  open_bind Hx. apply require_inv in Hc as [_ ->]. open_bind Hx. apply (at_read _ _ _ _ _ _ _ _ At) in Hc as [Hc ->].
  done.
Qed.

Lemma eoa_inv next st st' w g z ev :
  at_state st w g z ev -> ELValidateBasicEoa c next tx false st = (Ok tt, st') ->
  exists from, AccAddressFromBech32 (msgtx_From msg) = Ok from /\ next tx false st = (Ok tt, st') /\
    IsEmptyCodeHash (Keeper_GetCodeHash w from) = true.
Proof.
  intros At. unfold ELValidateBasicEoa. rewrite eth_single, eth_first. cbn [negb]. intros Hx.
  open_bind Hx. apply lift_inv in Hc as [[= <-] ->]. open_bind Hx. apply lift_inv in Hc as [Hfrom ->].
  open_bind Hx. apply require_inv in Hc as [_ ->]. open_bind Hx. apply (at_read _ _ _ _ _ _ _ _ At) in Hc as [[= <-] ->].
  open_bind Hx. apply require_inv in Hc as [Hcode ->]. eexists. split; [|done].
  revert Hfrom. unfold MsgEthereumTx_GetFrom, must_res. destruct (AccAddressFromBech32 (msgtx_From msg)); by intros [= <-].
Qed.

Lemma sig_inv next st st' w g z ev from :
  AccAddressFromBech32 (msgtx_From msg) = Ok from -> at_state st w g z ev ->
  DLSigVerification sdk c next tx false st = (Ok tt, st') ->
  next tx false st = (Ok tt, st') /\
  exists chainId sender acc, Keeper_GetEip155ChainId w = Ok chainId /\ Latest_Sender chainId ethTx = Ok sender /\
    msgtx_From msg = AccAddressString (farr_bytes sender) /\
    GetAccount (w_sdk w) from = Some acc /\ tx_Nonce ethTx = acc_sequence acc.
Proof.
  intros Hfrom At. unfold DLSigVerification, dual. rewrite eth_single, eth_first. cbn [negb]. intros Hx.
  open_bind Hx. apply (at_read _ _ _ _ _ _ _ _ At) in Hc as [Hid ->].
  open_bind Hx. apply lift_inv in Hc as [[= <-] ->]. open_bind Hx. apply lift_inv in Hc as [Ht ->].
  rewrite Htx in Ht. injection Ht as <-.
  open_bind Hx. apply lift_inv in Hc as [Hs ->]. open_bind Hx. apply require_inv in Hc as [Hb ->].
  open_bind Hx. apply lift_inv in Hc as [Hf ->]. open_bind Hx. apply (at_read _ _ _ _ _ _ _ _ At) in Hc as [Ha ->].
  open_bind Hx. apply require_inv in Hc as [Hn ->]. split; [done|].
  unfold MsgEthereumTx_GetFrom in Hf. rewrite Hfrom in Hf. injection Hf as <-.
  destruct (GetAccount (w_sdk w) from) as [acc|] eqn:Eacc; [|done]. injection Ha as <-.
  unfold wrap_res in Hs. destruct (Latest_Sender _ ethTx) as [sender|e|e] eqn:Es; [|done|done]. injection Hs as <-.
  apply bool_decide_eq_true in Hb. apply Z.eqb_eq in Hn. by eexists _, sender, acc.
Qed.

Lemma seq_inv next st st' w g z ev from :
  AccAddressFromBech32 (msgtx_From msg) = Ok from -> at_state st w g z ev ->
  DLIncrementSequence sdk c next tx false st = (Ok tt, st') ->
  exists st1 w1, next tx false st1 = (Ok tt, st') /\ increaseSequence from w = (Ok tt, w1) /\ at_state st1 w1 g z ev.
Proof.
  intros Hfrom At. unfold DLIncrementSequence, dual. rewrite eth_single, eth_first. cbn [negb]. intros Hx.
  open_bind Hx. apply lift_inv in Hc as [[= <-] ->]. open_bind Hx. apply lift_inv in Hc as [Hf ->].
  unfold MsgEthereumTx_GetFrom in Hf. rewrite Hfrom in Hf. injection Hf as <-.
  open_bind Hx. apply (at_on_ctx _ _ _ _ _ _ _ _ At) in Hc as (w1 & Hi & At1). eauto.
Qed.

Lemma exec_setup_inv next st st' w g z ev :
  at_state st w g z ev -> ELSetupExecution ctx c next tx false st = (Ok tt, st') ->
  exists st1 w1 m, next tx false st1 = (Ok tt, st') /\ SetupExecutionContext ctx ethTx w = (Ok m, w1) /\
    at_state st1 w1 (LimitMeter m) true ev.
Proof.
  intros [V W Me Z0 Ev]. unfold ELSetupExecution. rewrite eth_single, eth_first. cbn [negb]. intros Hx.
  open_bind Hx. apply lift_inv in Hc as [[= <-] ->]. open_bind Hx. apply lift_inv in Hc as [Ht ->].
  rewrite Htx in Ht. injection Ht as <-. open_bind Hx. injection Hc as <-.
  assert (at_state (mkAnteState (an_heap st) (an_meter st) true (an_events st)) w g true ev) as At by done.
  open_bind Hx. apply (at_on_ctx _ _ _ _ _ _ _ _ At) in Hc as (w1 & Hi & [V1 W1 M1 Z1 E1]).
  open_bind Hx. injection Hc as <-. eexists _, w1, _. by split_and!.
Qed.

Lemma event_inv next st st' w g z ev :
  at_state st w g z ev -> ELEmitEvent c next tx false st = (Ok tt, st') ->
  exists st1, next tx false st1 = (Ok tt, st') /\
    at_state st1 w g z (ev ++ [(Transaction_Hash ethTx, sub64 (GetTxCountTransient w) 1)]).
Proof.
  intros At. unfold ELEmitEvent. rewrite eth_single, eth_first. cbn [negb]. intros Hx.
  open_bind Hx. apply (at_read _ _ _ _ _ _ _ _ At) in Hc as [[= <-] ->].
  open_bind Hx. apply lift_inv in Hc as [[= <-] ->]. open_bind Hx. apply lift_inv in Hc as [Ht ->].
  rewrite Htx in Ht. injection Ht as <-. open_bind Hx. injection Hc as <-.
  destruct At as [V W Me Z0 Ev]. eexists. split; [exact Hx|]. split; simpl; try done. by rewrite Ev.
Qed.
End OneTx.

Context {L : SdkLaws S}.

Abbreviation ante := (NewAnteHandler legacy_params Erc20CpcInfo Bech32CpcInfo StakingCpcInfo sdk
  disabledNestedMsgs ctx c).

(** What the ante handler checked of an Ethereum transaction. *)
Record eth_checked w tx (msg : MsgEthereumTx) (ethTx : Transaction) (from : bytes) (acc : Account) : Prop := {
  ec_msgs : GetMsgs tx = [EthMsg msg];
  ec_tx : MsgEthereumTx_AsTransaction msg = Ok ethTx;
  ec_basic : check_eth_tx legacy_params w tx = Ok tt;
  ec_from : AccAddressFromBech32 (msgtx_From msg) = Ok from;
  ec_eoa : IsEmptyCodeHash (Keeper_GetCodeHash w from) = true;
  ec_signed : exists chainId sender, Keeper_GetEip155ChainId w = Ok chainId /\
    Latest_Sender chainId ethTx = Ok sender /\ msgtx_From msg = AccAddressString (farr_bytes sender);
  ec_account : GetAccount (w_sdk w) from = Some acc;
  ec_nonce : tx_Nonce ethTx = acc_sequence acc
}.

(** The two flags of the ante handler. *)
Definition ante_flags : list bytes := [KeyTransientFlagIncreasedSenderNonce; KeyTransientSenderPaidFee].

(** What it changed, store by store. *)
Record eth_prepared w w' tx (ethTx : Transaction) (from : bytes) (acc : Account) : Prop := {
  ep_fee : exists fee priority, EthereumTxFeeChecker legacy_params ctx w tx = Ok (fee, priority) /\
    coins_moved (w_sdk w) (w_sdk w') from (GetModuleAddress FeeCollectorName) fee;
  ep_supply : same_supply (w_sdk w) (w_sdk w');
  ep_account : GetAccount (w_sdk w') from = Some (with_sequence (add64 (tx_Nonce ethTx) 1) acc);
  ep_others a : a <> from -> a <> GetModuleAddress FeeCollectorName \/ is_Some (GetAccount (w_sdk w) a) ->
    GetAccount (w_sdk w') a = GetAccount (w_sdk w) a;
  ep_collector new : GetAccount (w_sdk w) (GetModuleAddress FeeCollectorName) = None ->
    GetAccount (w_sdk w') (GetModuleAddress FeeCollectorName) = Some new ->
    acc_kind new = ModuleAccount /\ acc_sequence new = 0;
  ep_flags : IsSenderNonceIncreasedByAnteHandle w' = true /\ IsSenderPaidTxFeeInAnteHandle w' = true;
  ep_entered : tx_entered ante_flags w w' ethTx (sub64 (GetTxCountTransient w') 1);
  ep_block_hash : block_hash_stored (w_evm w) (w_evm w');
  ep_stores : w_feemarket w' = w_feemarket w /\ w_cpc w' = w_cpc w /\ w_vauth w' = w_vauth w
}.

Lemma basic_tx w tx msg : check_eth_tx legacy_params w tx = Ok tt -> GetMsgs tx = [EthMsg msg] ->
  exists ethTx, MsgEthereumTx_AsTransaction msg = Ok ethTx.
Proof.
  unfold check_eth_tx, first_eth. intros Hb Hm. rewrite Hm in Hb. revert Hb. unfold mbind, res_bind.
  destruct (match tx_ValidateBasic tx with Ok _ => _ | Err _ => _ | Panic _ => _ end) as [[]|e|e]; [|done|done].
  repeat (case_match; try done). intros _. eauto.
Qed.

(** The flags in the order the decorators write them. *)
Definition flagged w : World S :=
  SetFlagSenderPaidTxFeeInAnteHandle
    (SetFlagSenderPaidTxFeeInAnteHandle (SetFlagSenderNonceIncreasedByAnteHandle w false) false) true.

Lemma flagged_paid w : IsSenderPaidTxFeeInAnteHandle (flagged w) = true.
Proof. apply flag_get_set. Qed.
(** Writing a flag leaves every other key. *)
Lemma flag_lookup w key b k : k <> key -> w_tevm (genericSetBoolFlagTransient w key b) !! k = w_tevm w !! k.
Proof.
  intros Hk. unfold genericSetBoolFlagTransient, kv_set, kv_delete.
  destruct b; cbn [w_tevm set_tevm]; [by rewrite lookup_insert_ne|by rewrite lookup_delete_ne].
Qed.
Lemma flagged_others w k : k ∉ ante_flags -> w_tevm (flagged w) !! k = w_tevm w !! k.
Proof.
  intros Hk. unfold ante_flags in Hk.
  unfold flagged, SetFlagSenderPaidTxFeeInAnteHandle, SetFlagSenderNonceIncreasedByAnteHandle.
  rewrite !flag_lookup by set_solver. done.
Qed.
Lemma tx_entered_flags w w1 w' ethTx idx : (forall k, k ∉ ante_flags -> w_tevm w1 !! k = w_tevm w !! k) ->
  tx_entered [] w1 w' ethTx idx -> tx_entered ante_flags w w' ethTx idx.
Proof.
  intros Hf [H1 H2 H3 H4 H5]. split; [|done..|].
  - rewrite H1. unfold GetRawTxCountTransient, kv_get. by rewrite Hf by (unfold ante_flags; set_solver).
  - intros k Hk. rewrite H5 by set_solver. apply Hf. set_solver.
Qed.
(** The flags are no records, so an entry leaves them. *)
Lemma entered_flag w w' ethTx idx key : tx_entered [] w w' ethTx idx -> key ∈ ante_flags ->
  genericGetBoolFlagTransient w' key = genericGetBoolFlagTransient w key.
Proof.
  intros [_ _ _ _ Ho] Hk. unfold genericGetBoolFlagTransient, kv_get. rewrite Ho; [done|].
  unfold ante_flags in Hk. rewrite !elem_of_cons in Hk.
  rewrite !not_elem_of_cons. destruct Hk as [->|[->|[]%elem_of_nil]]; split_and!; (done || apply not_elem_of_nil).
Qed.

Lemma eth_prepared_intro w tx ethTx from acc s' fee priority w3 m w4 :
  HasSingleEthereumMessage tx = true ->
  DualLaneFeeChecker legacy_params ctx (flagged w) tx = Ok (fee, priority) ->
  coins_moved (w_sdk w) s' from (GetModuleAddress FeeCollectorName) fee ->
  accounts_kept ModuleAccount (w_sdk w) s' (GetModuleAddress FeeCollectorName) -> same_supply (w_sdk w) s' ->
  GetAccount (w_sdk w) from = Some acc -> tx_Nonce ethTx = acc_sequence acc ->
  increaseSequence from (set_sdk s' (flagged w)) = (Ok tt, w3) -> SetupExecutionContext ctx ethTx w3 = (Ok m, w4) ->
  eth_prepared w w4 tx ethTx from acc.
Proof.
  intros Hs Hfee Hmove Hkept Hsup Hacc Hn Hinc Hset.
  assert (GetAccount s' from = Some acc) as Ha by (rewrite (kept_others _ _ _ _ Hkept); eauto).
  pose proof (get_account_addr _ _ _ Ha) as Haddr.
  unfold increaseSequence in Hinc. cbn [w_sdk set_sdk] in Hinc. rewrite Ha in Hinc.
  set (acc' := with_sequence (add64 (acc_sequence acc) 1) acc) in *.
  assert (w3 = SetFlagSenderNonceIncreasedByAnteHandle (set_sdk (SetAccount s' acc') (set_sdk s' (flagged w))) true) as ->
    by (by injection Hinc).
  apply SetupExecutionContext_ok in Hset as (_ & Es & Eh & Ht & Est).
  change (w_sdk w4 = SetAccount s' acc') in Es. destruct (set_account_bank s' acc') as [Hb Hp].
  split; rewrite ?Es; try done.
  - exists fee, priority. unfold DualLaneFeeChecker in Hfee. rewrite Hs in Hfee. split; [exact Hfee|].
    intros a d. by rewrite Hb.
  - intros d. by rewrite Hp.
  - rewrite get_set_account, decide_True, Hn by done. done.
  - intros a Ha1 Ha2. rewrite get_set_account. unfold acc'. cbn [acc_addr with_sequence]. rewrite Haddr, decide_False by done.
    by apply (kept_others _ _ _ _ Hkept).
  - intros new Hnone. rewrite get_set_account. unfold acc'. cbn [acc_addr with_sequence]. rewrite Haddr, decide_False by congruence.
    intros Hnew. by destruct (kept_new _ _ _ _ Hkept new Hnone Hnew) as (? & ? & _).
  - unfold IsSenderNonceIncreasedByAnteHandle, IsSenderPaidTxFeeInAnteHandle.
    rewrite !(entered_flag _ _ _ _ _ Ht) by (unfold ante_flags; set_solver). split; [apply flag_get_set|].
    unfold SetFlagSenderNonceIncreasedByAnteHandle at 1. rewrite flag_get_set_ne by done. apply flagged_paid.
  - eapply tx_entered_flags; [|exact Ht]. intros k Hk. unfold SetFlagSenderNonceIncreasedByAnteHandle.
    rewrite flag_lookup by (unfold ante_flags in Hk; set_solver). by apply flagged_others.
Qed.

(** The decorators in their order: what was checked, and the states between the writes. *)
Record eth_lane_run tx (st' : AnteState H) w (ev : list (Hash * Z)) (msg : MsgEthereumTx) (ethTx : Transaction) (acc : Account)
    (s' : S) (fee : Coins) (priority : Z) (w3 w4 : World S) (m : infiniteGasMeterWithLimit) : Prop := {
  er_checked : eth_checked w tx msg ethTx (FeePayer tx) acc;
  er_fee : DualLaneFeeChecker legacy_params ctx (flagged w) tx = Ok (fee, priority);
  er_moved : coins_moved (w_sdk w) s' (FeePayer tx) (GetModuleAddress FeeCollectorName) fee;
  er_kept : accounts_kept ModuleAccount (w_sdk w) s' (GetModuleAddress FeeCollectorName);
  er_supply : same_supply (w_sdk w) s';
  er_sequence : increaseSequence (FeePayer tx) (set_sdk s' (flagged w)) = (Ok tt, w3);
  er_setup : SetupExecutionContext ctx ethTx w3 = (Ok m, w4);
  er_state : at_state st' w4 (LimitMeter m) true (ev ++ [(Transaction_Hash ethTx, sub64 (GetTxCountTransient w4) 1)])
}.
Lemma ethereum_lane_steps (tx : Tx) (st st' : AnteState H) w (g : AnteMeter) (z : bool) (ev : list (Hash * Z)) :
  deduct_law -> at_state st w g z ev -> ctx_IsCheckTx ctx = false -> ctx_IsReCheckTx ctx = false -> HasSingleEthereumMessage tx = true ->
  (forall msg, GetMsgs tx = [EthMsg msg] -> AccAddressFromBech32 (msgtx_From msg) = Ok (FeePayer tx)) ->
  ante tx false st = (Ok tt, st') ->
  exists msg ethTx acc s' fee priority w3 w4 m, eth_lane_run tx st' w ev msg ethTx acc s' fee priority w3 w4 m.
Proof.
  intros Hdeduct Hstate Hcheck Hrecheck Heth Hpayer Hok.
  destruct (proj1 (HasSingleEthereumMessage_iff tx) Heth) as [msg Hm]. specialize (Hpayer msg Hm).
  set (from := FeePayer tx) in *.
  assert (forall cd next, dual cd pass next tx false = next tx false) as Hpass by (intros; unfold dual; by rewrite Heth).
  unfold NewAnteHandler, ChainAnteDecorators, anteDecorators in Hok. cbn [foldr] in Hok.
  apply (setup_inv tx msg Hm _ _ _ _ _ _ _ Hstate) in Hok as (st1 & Hok & At1).
  unfold DLExtensionOptions, dual in Hok. rewrite Heth in Hok. cbn [negb] in Hok.
  open_bind Hok. apply require_inv in Hc as [_ ->].
  apply (basic_inv tx msg Hm _ _ _ _ _ _ _ Hrecheck At1) in Hok as [Hok Hbasic].
  change (check_eth_tx legacy_params w tx = Ok tt) in Hbasic.
  destruct (basic_tx _ _ _ Hbasic Hm) as [ethTx Htx].
  apply (eoa_inv tx msg Hm _ _ _ _ _ _ _ At1) in Hok as (from' & Hf & Hok & Hcode).
  rewrite Hpayer in Hf. injection Hf as <-. change (IsEmptyCodeHash (Keeper_GetCodeHash w from) = true) in Hcode.
  unfold DLTxTimeoutHeight, dual in Hok. rewrite Heth in Hok. cbn [negb] in Hok.
  open_bind Hok. apply must_inv in Hc as [_ ->].
  open_bind Hok. apply require_inv in Hc as [_ ->].
  unfold DLValidateMemo, dual in Hok. rewrite Heth in Hok. cbn [negb] in Hok.
  open_bind Hok. apply must_inv in Hc as [_ ->].
  open_bind Hok. apply require_inv in Hc as [_ ->].
  unfold DLConsumeTxSizeGas in Hok. rewrite Hpass in Hok.
  unfold DLDeductFee in Hok. rewrite Heth in Hok.
  open_bind Hok. eapply at_write in Hc; [|exact At1].
  apply (Hdeduct _ _ _ _ _ _ _ _ Hc) in Hok as (st2 & s' & fee & prio & Hok & At2 & Hfee & [acc0 Hacc0] & Hmove & Hkept & Hsup).
  unfold DLSetPubKey, DLValidateSigCount, DLSigGasConsume in Hok. rewrite !Hpass in Hok.
  apply (sig_inv tx msg ethTx Hm Htx _ _ _ _ _ _ _ from Hpayer At2) in Hok as [Hok (chainId & sender & acc & Hid & Hs & Hfs & Hacc & Hn)].
  cbn [w_sdk set_sdk] in Hacc. change (GetAccount (w_sdk w) from = Some acc0) in Hacc0.
  rewrite (kept_others _ _ _ _ Hkept) in Hacc by (right; eauto). change (GetAccount (w_sdk w) from = Some acc) in Hacc.
  apply (seq_inv tx msg Hm _ _ _ _ _ _ _ from Hpayer At2) in Hok as (st3 & w3 & Hok & Hinc & At3).
  unfold DLRedundantRelay in Hok. rewrite Hpass in Hok.
  apply (exec_setup_inv tx msg ethTx Hm Htx _ _ _ _ _ _ _ At3) in Hok as (st4 & w4 & m & Hok & Hset & At4).
  apply (event_inv tx msg ethTx Hm Htx _ _ _ _ _ _ _ At4) in Hok as (st5 & Hok & At5).
  unfold ELExecWithoutError in Hok. rewrite Hcheck, Hrecheck in Hok. cbn [negb orb] in Hok.
  unfold CLRejectEthereumMsgs in Hok. rewrite Heth in Hok.
  unfold CLRejectAuthzMsgs in Hok. rewrite Heth in Hok.
  unfold CLVestingMessagesAuthorization in Hok. rewrite Heth in Hok. injection Hok as <-.
  exists msg, ethTx, acc, s', fee, prio, w3, w4, m. split; try done.
  split; try done. exists chainId, sender. by split_and!.
Qed.

(** C4 The Ethereum lane, when a block is executed: a transaction that passes carries one
    message whose inner transaction is signed by the account the message names, which has
    no code and whose sequence is the nonce; its declared fee and gas are those of the
    inner transaction.  After it, store by store: the fee the checker computed has moved
    from that account to the fee collector with the supply unchanged, its sequence is one
    higher and no other account changed, but that the collector's may have been created;
    both flags are set, the transaction is counted, and under its index are its gas limit
    and the receipt of a failure, with no other key of the transient store changed; of the
    EVM's store only the hash of the block may have been stored and the oldest one
    removed; the stores of the fee market, of the custom precompiles and of vauth are as
    they were.  The context has a fresh gas meter with the gas limit of the transaction
    and no gas costs of its own. *)
Theorem ethereum_lane_spec (tx : Tx) (st st' : AnteState H) (w : World S) (g : AnteMeter) (z : bool)
  (ev : list (Hash * Z))
  (Hdeduct : deduct_law) (Hstate : at_state st w g z ev)
  (Hcheck : ctx_IsCheckTx ctx = false) (Hrecheck : ctx_IsReCheckTx ctx = false)
  (Heth : HasSingleEthereumMessage tx = true)
  (Hpayer : forall msg, GetMsgs tx = [EthMsg msg] -> AccAddressFromBech32 (msgtx_From msg) = Ok (FeePayer tx))
  (Hok : ante tx false st = (Ok tt, st')) :
  exists msg ethTx acc w',
    eth_checked w tx msg ethTx (FeePayer tx) acc /\ eth_prepared w w' tx ethTx (FeePayer tx) acc /\
    at_state st' w' (LimitMeter (NewInfiniteGasMeterWithLimit (tx_Gas ethTx))) true
      (ev ++ [(Transaction_Hash ethTx, sub64 (GetTxCountTransient w') 1)]).
Proof.
  destruct (ethereum_lane_steps tx st st' w g z ev) as (msg & ethTx & acc & s' & fee & prio & w3 & w4 & m & []); try done.
  pose proof (SetupExecutionContext_ok _ _ _ _ er_setup0) as (-> & _). exists msg, ethTx, acc, w4. destruct er_checked0.
  split_and!; [done|by eapply eth_prepared_intro|done].
Qed.
(** *** The other direction: what passes *)

Lemma read_run {A} (f : World S -> res A) st w g z ev : at_state st w g z ev -> ante_read c f st = (f w, st).
Proof. intros [V W _ _ _]. unfold ante_read, in_heap, read_ctx, zoom. rewrite W. by destruct st. Qed.
Lemma on_ctx_run {A} (m : M (World S) A) st w g z ev : at_state st w g z ev ->
  exists st', in_heap (on_ctx c m) st = (fst (m w), st') /\ at_state st' (snd (m w)) g z ev.
Proof.
  intros At. destruct (in_heap (on_ctx c m) st) as [r st'] eqn:Em. destruct (at_on_ctx m st w g z ev r st' At Em) as (w' & -> & At').
  by exists st'.
Qed.
Lemma write_run f st w g z ev : at_state st w g z ev -> exists st', ante_write c f st = (Ok tt, st') /\ at_state st' (f w) g z ev.
Proof.
  intros At. destruct (ante_write c f st) as [r st'] eqn:Em. exists st'. split; [|by eapply at_write].
  revert Em. unfold ante_write, in_heap, write_ctx, zoom, modify. by intros [= <- <-].
Qed.

(** Documented behaviour of [DeductFeeDecorator]: an account that can spend what the checker
    computed pays it to the fee collector, whose address is not taken, and the next handler
    is called. *)
Definition deduct_pays_law : Prop :=
  forall next tx st w g z ev fee priority, at_state st w g z ev -> DualLaneFeeChecker legacy_params ctx w tx = Ok (fee, priority) ->
    is_Some (GetAccount (w_sdk w) (FeePayer tx)) -> coins_valid fee -> can_spend (w_sdk w) (FeePayer tx) fee ->
    module_free (w_sdk w) FeeCollectorName ->
    exists st1 s', sdk_DeductFee sdk next tx false st = next tx false st1 /\ at_state st1 (set_sdk s' w) g z ev /\
      accounts_kept ModuleAccount (w_sdk w) s' (GetModuleAddress FeeCollectorName).

(** The form of the wrapping transaction. *)
Record eth_wrapper tx : Prop := {
  ew_ethereum : IsEthereumTx tx = true;
  ew_gas_tx : tx_IsGasTx tx = true;
  ew_proto : tx_IsProtoTx tx = true;
  ew_timeout : tx_TimeoutHeight tx = 0;
  ew_memo : tx_Memo tx = ""%string
}.

(** Runs the steps whose result is known. *)
Ltac run_known :=
  unfold first_eth, MsgEthereumTx_GetFrom, must_res, mbind, M_bind, lift_res, require, must, err, panic, wrap_res, with_meter,
    UseZeroGasConfig, ante_emit, modify; unfold mret, M_ret;
  repeat match goal with
    | Hs : ?b = true |- context [?b] => rewrite Hs
    | Hs : ?b = false |- context [?b] => rewrite Hs
    | Hs : ?r = Ok _ |- context [?r] => rewrite Hs
    | Hs : GetMsgs _ = _ |- context [GetMsgs _] => rewrite Hs
    end; cbn [negb orb andb an_heap an_meter an_zeroGasConfig an_events fst snd].

(** The decorators before the fee is deducted. *)
Lemma lane_before_fee next tx msg ethTx from acc st w g z ev : at_state st w g z ev -> ctx_IsReCheckTx ctx = false -> eth_wrapper tx ->
  eth_checked w tx msg ethTx from acc -> from <> [] ->
  exists st1, DLSetupContext sdk c (DLExtensionOptions sdk (DLValidateBasic legacy_params sdk ctx c (ELValidateBasicEoa c
    (DLTxTimeoutHeight sdk (DLValidateMemo sdk (DLConsumeTxSizeGas sdk (DLDeductFee sdk c next))))))) tx false st =
    sdk_DeductFee sdk next tx false st1 /\ at_state st1 (flagged w) InfiniteMeter true ev.
Proof.
  intros [V W Me Z0 Ev] Hr [He Hg Hp Ht Hmemo] [Hm Htx Hb Hf Hcode _ _ _] Hne.
  assert (HasSingleEthereumMessage tx = true) as Hs by (apply HasSingleEthereumMessage_iff; eauto).
  assert ((length from =? 0)%nat = false) as Hl by (by destruct from).
  assert ((tx_TimeoutHeight tx =? 0) = true) as Ht' by (by rewrite Ht). pose proof (bool_decide_eq_true_2 _ Hmemo) as Hmemo'.
  unfold DLSetupContext, dual. run_known.
  set (st0 := mkAnteState (an_heap st) InfiniteMeter true (an_events st)).
  assert (at_state st0 w InfiniteMeter true ev) as At by done.
  destruct (write_run (fun w => SetFlagSenderNonceIncreasedByAnteHandle w false) _ _ _ _ _ At) as (s1 & -> & At1).
  destruct (write_run (fun w => SetFlagSenderPaidTxFeeInAnteHandle w false) _ _ _ _ _ At1) as (s2 & -> & At2).
  unfold DLExtensionOptions, dual. run_known. unfold DLValidateBasic. run_known.
  rewrite (read_run _ _ _ _ _ _ At2). change (check_eth_tx legacy_params _ tx) with (check_eth_tx legacy_params w tx). rewrite Hb.
  unfold ELValidateBasicEoa. run_known.
  rewrite (read_run _ _ _ _ _ _ At2). change (Keeper_GetCodeHash _ from) with (Keeper_GetCodeHash w from) at 1. rewrite Hcode.
  unfold DLTxTimeoutHeight, dual. run_known. unfold DLValidateMemo, dual. run_known. unfold DLConsumeTxSizeGas, dual, pass. run_known.
  unfold DLDeductFee. run_known.
  destruct (write_run (fun w => SetFlagSenderPaidTxFeeInAnteHandle w true) _ _ _ _ _ At2) as (s3 & -> & At3). eauto.
Qed.

(** The decorators after it. *)
Lemma lane_after_fee tx msg ethTx from acc st w w0 g z ev : at_state st w g z ev -> ctx_IsCheckTx ctx = false -> ctx_IsReCheckTx ctx = false ->
  eth_checked w0 tx msg ethTx from acc -> w_evm w = w_evm w0 -> GetAccount (w_sdk w) from = Some acc ->
  (forall r, exists bz, Receipt_MarshalBinary r = Ok bz) ->
  exists st', DLSetPubKey sdk (DLValidateSigCount sdk (DLSigGasConsume sdk (DLSigVerification sdk c (DLIncrementSequence sdk c
    (DLRedundantRelay sdk (ELSetupExecution ctx c (ELEmitEvent c (ELExecWithoutError legacy_params Erc20CpcInfo Bech32CpcInfo StakingCpcInfo ctx c
    (CLRejectEthereumMsgs (CLRejectAuthzMsgs disabledNestedMsgs (CLVestingMessagesAuthorization c terminator))))))))))) tx false st = (Ok tt, st').
Proof.
  intros At Hck Hrc [Hm Htx _ Hf _ (chainId & sender & Hid & Hsend & Hfs) _ Hn] Hevm Hacc Hrec.
  assert (HasSingleEthereumMessage tx = true) as Hs by (apply HasSingleEthereumMessage_iff; eauto).
  pose proof (bool_decide_eq_true_2 _ Hfs) as Hfs'. assert ((tx_Nonce ethTx =? acc_sequence acc) = true) as Hn' by (by rewrite Hn, Z.eqb_refl).
  assert (Keeper_GetEip155ChainId w = Ok chainId) as Hid' by (revert Hid; unfold Keeper_GetEip155ChainId; by rewrite Hevm).
  unfold DLSetPubKey, DLValidateSigCount, DLSigGasConsume, DLSigVerification, dual, pass. run_known.
  rewrite (read_run _ _ _ _ _ _ At), Hid'. run_known. rewrite (read_run _ _ _ _ _ _ At), Hacc. run_known.
  unfold DLIncrementSequence, dual. run_known.
  destruct (on_ctx_run (increaseSequence from) _ _ _ _ _ At) as (s1 & -> & At1). unfold increaseSequence at 1. rewrite Hacc.
  unfold DLRedundantRelay, dual, pass, ELSetupExecution. run_known.
  set (s1' := mkAnteState (an_heap s1) (an_meter s1) true (an_events s1)).
  assert (at_state s1' (snd (increaseSequence from w)) g true ev) as At1' by (by destruct At1).
  destruct (on_ctx_run (SetupExecutionContext ctx ethTx) _ _ _ _ _ At1') as (s2 & -> & At2).
  assert (exists m, fst (SetupExecutionContext ctx ethTx (snd (increaseSequence from w))) = Ok m) as [m Em].
  { unfold SetupExecutionContext, or_panic. munfold. match goal with |- context [Receipt_MarshalBinary ?r] => destruct (Hrec r) as [bz ->] end.
    by eexists. }
  unfold ELEmitEvent. run_known.
  set (s3 := mkAnteState _ _ _ _). assert (at_state s3 (snd (SetupExecutionContext ctx ethTx (snd (increaseSequence from w)))) (LimitMeter m) true ev) as At3.
  { destruct At2. by split. }
  rewrite (read_run _ _ _ _ _ _ At3). run_known.
  unfold ELExecWithoutError. run_known.
  unfold CLRejectEthereumMsgs, CLRejectAuthzMsgs, CLVestingMessagesAuthorization. run_known. by eexists.
Qed.

(** A transaction that meets the conditions of the Ethereum lane and whose sender can pay
    what the checker computes passes when a block is executed. *)
Theorem ethereum_lane_accepts (tx : Tx) (msg : MsgEthereumTx) (ethTx : Transaction) (acc : Account) (st : AnteState H) (w : World S)
  (g : AnteMeter) (z : bool) (ev : list (Hash * Z)) (fee : Coins) (priority : Z)
  (Hdeduct : deduct_pays_law) (Hstate : at_state st w g z ev)
  (Hcheck : ctx_IsCheckTx ctx = false) (Hrecheck : ctx_IsReCheckTx ctx = false)
  (Hwrapper : eth_wrapper tx) (Hchecked : eth_checked w tx msg ethTx (FeePayer tx) acc) (Hpayer : FeePayer tx <> [])
  (Hfee : EthereumTxFeeChecker legacy_params ctx w tx = Ok (fee, priority)) (Hspend : can_spend (w_sdk w) (FeePayer tx) fee)
  (Hfree : module_free (w_sdk w) FeeCollectorName)
  (Hreceipts : forall r, exists bz, Receipt_MarshalBinary r = Ok bz) :
  exists st', ante tx false st = (Ok tt, st').
Proof.
  unfold NewAnteHandler, ChainAnteDecorators, anteDecorators. cbn [foldr].
  destruct (lane_before_fee (DLSetPubKey sdk (DLValidateSigCount sdk (DLSigGasConsume sdk (DLSigVerification sdk c (DLIncrementSequence sdk c
    (DLRedundantRelay sdk (ELSetupExecution ctx c (ELEmitEvent c (ELExecWithoutError legacy_params Erc20CpcInfo Bech32CpcInfo StakingCpcInfo ctx c
    (CLRejectEthereumMsgs (CLRejectAuthzMsgs disabledNestedMsgs (CLVestingMessagesAuthorization c terminator))))))))))))
    tx msg ethTx (FeePayer tx) acc st w g z ev Hstate Hrecheck Hwrapper Hchecked Hpayer) as (st1 & -> & At1).
  assert (HasSingleEthereumMessage tx = true) as Hs.
  { apply HasSingleEthereumMessage_iff. destruct Hchecked. eauto. }
  assert (DualLaneFeeChecker legacy_params ctx (flagged w) tx = Ok (fee, priority)) as Hfee'.
  { unfold DualLaneFeeChecker. rewrite Hs. exact Hfee. }
  pose proof (ec_account _ _ _ _ _ _ Hchecked) as Hacc.
  edestruct Hdeduct as (st2 & s' & -> & At2 & Hkept); [exact At1|exact Hfee'|by eexists|by eapply fee_checker_valid|exact Hspend|exact Hfree|].
  eapply lane_after_fee; try done. cbn [w_sdk set_sdk]. rewrite (kept_others _ _ _ _ Hkept); [exact Hacc|]. right. by eexists.
Qed.
End EthLane.
