(* ===== verification/Blocks.v ===== *)
(** * Blocks

    How the parts work together on the Ethereum transactions of a block: the ante handler
    counts a transaction and stores the receipt it would have if it were aborted, the
    execution replaces that record by its own, and the end of the block collects the
    records (x/evm/keeper/keeper.go, state_transition.go, msg_server.go, abci.go).  The
    records are in a transient store that nothing else writes, whatever the EVM and the
    custom precompiled contracts do. *)

From Stdlib Require Import Strings.Byte.
From stdpp Require Import base gmap list strings.
From S2P Require Import Prelude Sdk Geth EvmTypes ChainId GasMeter EvmStore AccessList StateDB SnapshotStack.
From S2P Require Import Programs StateDBEffects FeeMarket Cpc CpcContracts Eip712 Staking Contracts TxTypes StateTransition.
From S2P Require Import TxExecution VAuth AnteTx Ante.

(** ** The transient store during an execution *)

Section Transient.
Context {S : Type} {K : SdkKeepers S} {G : Geth}.

Definition tevm_is (t : kv) (l : Live S) : Prop := w_tevm (l_world l) = t.
(** The computation leaves the transient store alone. *)
Abbreviation untouched m := (forall t, preserves (tevm_is t) m).

Lemma ut_bank f : untouched (bank f).
Proof.
  intros t. apply preserves_run_upd. intros l l'. destruct (f (w_sdk (l_world l))); simpl; [|done|done]. by intros [= <-].
Qed.
Lemma ut_world f : (forall w, w_tevm (f w) = w_tevm w) -> untouched (modify (on_world f)).
Proof. intros Hf t. apply preserves_modify. intros l. unfold tevm_is. cbn. by rewrite Hf. Qed.
Lemma ut_sdk f : untouched (modify (on_sdk f)).
Proof. intros t. by apply preserves_modify. Qed.
Lemma ut_rev f : untouched (modify (on_rev f)).
Proof. intros t. by apply preserves_modify. Qed.
Lemma ut_create a : untouched (createAccountIfNotExists a).
Proof. intros t l Hl. unfold createAccountIfNotExists. case_match; [done|]. by case_match. Qed.
Lemma ut_touch a : untouched (touch a).
Proof. apply ut_rev. Qed.
Hint Resolve ut_bank ut_sdk ut_rev ut_create ut_touch : evermint.

Ltac ut_auto :=
  repeat first
    [ progress cbv zeta
    | match goal with |- preserves _ (_ ≫= _) => apply preserves_bind; [|intros ?] end
    | case_match ];
  eauto with evermint.

Lemma tevm_SetState w a k v : w_tevm (Keeper_SetState (S := S) w a k v) = w_tevm w.
Proof. by destruct (Keeper_SetState_rest w a k v) as [m ->]. Qed.
Lemma tevm_clear a (l : list (Hash * Hash)) (w0 w : World S) :
  w_tevm w0 = w_tevm w -> w_tevm (iterate (fun kv w' => (true, Keeper_SetState (S := S) w' a kv.1 [])) l w0) = w_tevm w.
Proof. revert w0. induction l as [|x l IH]; intros w0 Hw; [done|]. cbn. apply IH. by rewrite tevm_SetState. Qed.

Lemma ut_burn a c : untouched (burnCoins a c).
Proof. intros t. unfold burnCoins. ut_auto. Qed.
Lemma ut_mint a c : untouched (mintCoins a c).
Proof. intros t. unfold mintCoins. ut_auto. Qed.
Hint Resolve ut_burn ut_mint : evermint.
Lemma ut_destroy now a : untouched (cStateDb_DestroyAccount now a).
Proof.
  intros t. unfold cStateDb_DestroyAccount. ut_auto.
  - by apply ut_world.
  - apply ut_world. intros w. by apply tevm_clear.
Qed.
Lemma ut_sub_balance env a b : untouched (cStateDb_SubBalance env a b).
Proof. intros t. unfold cStateDb_SubBalance. ut_auto. Qed.
Hint Resolve ut_destroy ut_sub_balance : evermint.
Lemma ut_suicide env a : untouched (cStateDb_Suicide env a).
Proof. intros t. unfold cStateDb_Suicide. ut_auto. Qed.
Hint Resolve ut_suicide : evermint.

(** A native call that leaves the store alone. *)
Definition native_quiet (f : World S -> res bytes * World S) : Prop := forall w, w_tevm (snd (f w)) = w_tevm w.
Definition op_quiet (o : sdbop S) : Prop := match o with ONative f => native_quiet f | _ => True end.

Lemma live_step_untouched env orig o : op_quiet o -> untouched (live_step env orig o).
Proof.
  intros Ho t. destruct o; cbn [live_step op_quiet] in *;
    unfold cStateDb_CreateAccount, cStateDb_AddBalance, cStateDb_SetNonce, cStateDb_SetCode, cStateDb_AddRefund,
      cStateDb_SubRefund, cStateDb_SetState, cStateDb_SetTransientState, cStateDb_Selfdestruct6780,
      cStateDb_AddAddressToAccessList, cStateDb_AddSlotToAccessList, cStateDb_PrepareAccessList, prepareByGoEthereum,
      cStateDb_AddLog; ut_auto.
  - apply ut_world. intros w. unfold Keeper_SetCode. by repeat case_match.
  - apply ut_world. intros w. unfold Keeper_SetCodeHash. by repeat case_match.
  - apply ut_world. intros w. apply tevm_SetState.
  - intros l Hl. cbv beta. pose proof (Ho (l_world l)). destruct (f (l_world l)) as [r w]. unfold tevm_is in *. cbn in *. congruence.
Qed.
End Transient.

(** ** Programs of the EVM *)

Section Calls.
Context {S : Type} {K : SdkKeepers S} {G : Geth} {E : EvmEngine S}.

(** All calls of a program, whatever is answered. *)
Fixpoint prog_ops {A} (P : sdbop S -> Prop) (p : Prog S A) : Prop :=
  match p with
  | Ret _ => True
  | Call o k => P o /\ forall ans, prog_ops P (k ans)
  end.

Lemma prog_ops_bind {A B} (P : sdbop S -> Prop) (p : Prog S A) (f : A -> Prog S B) :
  prog_ops P p -> (forall a, prog_ops P (f a)) -> prog_ops P (prog_bind p f).
Proof. intros Hp Hf. induction p as [a|o k IH]; [apply Hf|]. destruct Hp as [Ho Hk]. split; [done|]. intros ans. by apply IH. Qed.
Lemma prog_ops_impl {A} (P Q : sdbop S -> Prop) (p : Prog S A) : (forall o, P o -> Q o) -> prog_ops P p -> prog_ops Q p.
Proof. intros H. induction p as [a|o k IH]; [done|]. intros [Ho Hk]. split; [by apply H|]. intros ans. by apply IH. Qed.

(** The store in the current state and in all saved ones. *)
Definition astate_tevm (t : kv) (s : AState S) : Prop := tevm_is t (as_cur s) /\ Forall (tevm_is t) (as_saves s).
Lemma astate_run_tevm {A} env (p : Prog S A) t : prog_ops op_quiet p -> preserves (astate_tevm t) (astate_run env p).
Proof.
  induction p as [a|o k IH]; [intros _ s Hs; exact Hs|]. intros [Ho Hk] s Hs. cbn [astate_run].
  assert (astate_tevm t (snd (astate_step env o s))) as H1.
  { destruct Hs as [Hc Hv].
    assert (astate_tevm t (snd (on_cur (live_step env (as_base s) o) s))) as Hon.
    { unfold on_cur. pose proof (live_step_untouched env (as_base s) o Ho t _ Hc) as H. destruct (live_step _ _ _ _). by split. }
    destruct o; cbv beta iota delta [astate_step]; try exact Hon.
    - split; [done|]. apply Forall_app. by split; [|constructor].
    - destruct (id <? 0); [by split|]. destruct (as_saves s !! Z.to_nat id) as [l|] eqn:El; [|by split].
      split; [by eapply Forall_lookup_1 in El|by apply Forall_take]. }
  destruct (astate_step env o s) as [[ans|e|e] s1]; [by apply IH|done|done].
Qed.

(** What the EVM runs natively: a method of a contract it was given. *)
Inductive contract_call (evm : EVM S) : (World S -> res bytes * World S) -> Prop :=
  | contract_call_method c sig gas ro m caller self input r :
      c ∈ evm_CustomContracts evm -> (sig, gas, ro, m) ∈ custom_Methods c ->
      contract_call evm (fun w => let '(x, l) := m caller self input (mkLive w r) in (x, l_world l)).
Definition own_call (evm : EVM S) (o : sdbop S) : Prop := match o with ONative f => contract_call evm f | _ => True end.

(** Documented behaviour: besides the methods of the StateDB, the EVM runs nothing but the
    contracts of its configuration. *)
Class EngineCalls : Prop := {
  call_ops evm a b data gas v : prog_ops (own_call evm) (evm_Call evm a b data gas v);
  create_ops evm a code gas v : prog_ops (own_call evm) (evm_Create evm a code gas v);
  transfer_ops evm a v : prog_ops (own_call evm) (CanTransfer a v)
}.

(** The transition itself makes no native call. *)
Definition stm_ops {A} (P : sdbop S -> Prop) (m : STM S A) : Prop := forall st, prog_ops P (m st).
Lemma stm_ops_bind {A B} P (m : STM S A) (f : A -> STM S B) : stm_ops P m -> (forall a, stm_ops P (f a)) -> stm_ops P (m ≫= f).
Proof. intros Hm Hf st. apply prog_ops_bind; [apply Hm|]. intros [[a|e|e] st']; [apply Hf|done|done]. Qed.
Lemma stm_ops_prog {A} P (p : Prog S A) : prog_ops P p -> stm_ops P (st_prog p).
Proof. intros Hp st. by apply prog_ops_bind. Qed.
Lemma stm_ops_call P o : P o -> stm_ops P (st_call o).
Proof. intros Ho. by apply stm_ops_prog. Qed.

Lemma transition_ops {EC : EngineCalls} evm msg gp before : prog_ops (own_call evm) (ApplyMessage_core evm msg gp before).
Proof.
  unfold ApplyMessage_core. generalize (before (NewStateTransition msg gp)). change (stm_ops (own_call evm) (TransitionDb evm)).
  unfold TransitionDb, preCheck, checkNonceAndSender, checkFeeCaps, buyGas, execute, refundGas, st_call_Z, st_call_Hash.
  repeat first
    [ progress cbv zeta
    | apply stm_ops_bind; [|intros ?]
    | case_match
    | by apply stm_ops_call
    | by intros ? ].
  all: apply stm_ops_prog; first [apply call_ops|apply create_ops|apply transfer_ops].
Qed.
End Calls.
Arguments EngineCalls S {E}.

(** ** Contracts *)

Section ContractCalls.
Context {S : Type} {K : SdkKeepers S} {G : Geth} {B : Bech32} {SK : StakingKeepers S} {E712 : Eip712Lib}.
Context {CP : Codec CpcParams} {CM : Codec CustomPrecompiledContractMeta}.
Context {JE : Json Erc20CustomPrecompiledContractMeta} {JS : Json StakingCustomPrecompiledContractMeta}.
Variables Erc20CpcInfo Bech32CpcInfo StakingCpcInfo : CustomPrecompiledContractInfo.

Abbreviation untouched m := (forall t, preserves (tevm_is (S := S) t) m).
(** No method of the contract writes the transient store of x/evm. *)
Definition contract_quiet (c : CustomPrecompiledContract S) : Prop :=
  Forall (fun e => forall caller self input env, untouched (Execute e caller self input env)) (GetMethodExecutors c).

Lemma ut_allowance owner spender v : untouched (in_world (SetErc20CpcAllowance owner spender v)).
Proof.
  intros t l Hl. unfold in_world, zoom, SetErc20CpcAllowance, must, mbind, M_bind, modify. unfold tevm_is in *.
  destruct (Z.sgn v) as [|[]|]; cbn; try done. by destruct (negb _).
Qed.
Lemma ut_log log : untouched (cStateDb_AddLog log).
Proof. apply ut_rev. Qed.
#[local] Hint Resolve ut_allowance ut_log ut_bank : evermint.
Ltac ut_steps :=
  repeat first
    [ progress cbv zeta
    | match goal with |- preserves _ (_ ≫= _) => apply preserves_bind; [|intros ?] end
    | case_match ];
  eauto with evermint.

(** The code of a method. *)
Ltac open_method := lazymatch goal with |- context [Execute ?m] => let m' := eval hnf in m in change m with m' end; cbn [Execute].

Lemma ut_spend owner spender v : untouched (erc20_spendAllowance owner spender v).
Proof. intros t. unfold erc20_spendAllowance. ut_steps. Qed.
Lemma ut_move md from to v a : untouched (erc20_move md from to v a).
Proof. intros t. unfold erc20_move. ut_steps. Qed.
#[local] Hint Resolve ut_spend ut_move : evermint.

Lemma erc20_quiet md : contract_quiet (NewErc20CustomPrecompiledContract Erc20CpcInfo md).
Proof.
  repeat (apply Forall_cons_2; [intros caller self input env t; open_method|]); [..|by apply Forall_nil].
  all: unfold erc20_name, erc20_symbol, erc20_decimals, erc20_totalSupply, erc20_balanceOf, erc20_transferFrom, erc20_transfer,
    erc20_approve, erc20_allowance, erc20_burnFrom, erc20_burn; ut_steps.
Qed.
Lemma bech32_quiet md : contract_quiet (NewBech32CustomPrecompiledContract Bech32CpcInfo md).
Proof.
  repeat (apply Forall_cons_2; [intros caller self input env t; open_method|]); [..|by apply Forall_nil].
  all: unfold bech32_encodeAddress, bech32_encode32BytesAddress, bech32_encodeBytes, bech32_decode, bech32_prefix; ut_steps.
Qed.
Lemma only_steps_tevm R P (l l' : Live S) : only_steps R P l l' -> w_tevm (l_world l') = w_tevm (l_world l).
Proof. intros (_ & -> & _). done. Qed.
Lemma staking_quiet md : contract_quiet (NewStakingCustomPrecompiledContract StakingCpcInfo md).
Proof.
  apply Forall_forall. intros e He caller self input env t l Hl.
  pose proof (staking_methods_only_caller StakingCpcInfo md e caller self input env l He) as H. unfold tevm_is in *. rewrite <- Hl.
  destruct (ReadOnly e); by apply only_steps_tevm in H.
Qed.

Lemma all_quiet w cs : GetAllCustomPrecompiledContracts Erc20CpcInfo Bech32CpcInfo StakingCpcInfo w = Ok cs -> Forall contract_quiet cs.
Proof.
  unfold GetAllCustomPrecompiledContracts. intros H. apply res_bind_ok_inv in H as (metas & _ & H).
  assert (Forall contract_quiet []) as H0 by constructor. revert H0 H. generalize ([] : list (CustomPrecompiledContract S)).
  induction metas as [|md metas IH]; intros acc Hacc; [by intros [= <-]|]. cbn [build_contracts].
  intros H. apply res_bind_ok_inv in H as (c & Hc & H). apply (IH _) in H; [done|]. apply Forall_app. split; [done|]. constructor; [|done].
  unfold NewCustomPrecompiledContract in Hc. repeat case_match; try done; injection Hc as <-; auto using erc20_quiet, staking_quiet, bech32_quiet.
Qed.

Definition methods_quiet (c : EvmCustomContract S) : Prop :=
  forall sig gas ro m caller self input, (sig, gas, ro, m) ∈ custom_Methods c -> untouched (m caller self input).
Lemma evm_contracts_quiet v cfg cs acc r : Forall contract_quiet cs -> Forall methods_quiet acc ->
  evm_contracts v cfg cs acc = Ok r -> Forall methods_quiet r.
Proof.
  intros Hcs. revert acc. induction Hcs as [|c cs Hc _ IH]; intros acc Hacc; cbn [evm_contracts]; [by intros [= <-]|].
  case_decide; [done|]. cbv zeta. apply IH. apply Forall_app. split; [done|]. constructor; [|done].
  intros sig gas ro m caller self input. cbn [custom_Methods]. intros (e & [= -> -> -> ->] & He)%list_elem_of_fmap t.
  unfold contract_quiet in Hc. rewrite Forall_forall in Hc. unfold Cpc_Execute. repeat case_match; eauto with evermint.
Qed.

Lemma NewEVM_quiet ctx w msg cfg evm : NewEVM Erc20CpcInfo Bech32CpcInfo StakingCpcInfo ctx w msg cfg = Ok evm ->
  Forall methods_quiet (evm_CustomContracts evm).
Proof.
  unfold NewEVM. intros H. apply res_bind_ok_inv in H as (v & _ & H). apply res_bind_ok_inv in H as (cs & Hcs & H).
  apply res_bind_ok_inv in H as (l & Hl & H). injection H as <-. cbn [evm_CustomContracts].
  eapply evm_contracts_quiet; [by eapply all_quiet|constructor|exact Hl].
Qed.

Lemma own_call_quiet evm o : Forall methods_quiet (evm_CustomContracts evm) -> own_call evm o -> op_quiet o.
Proof.
  intros He. destruct o; try done. cbn. intros [c sig gas ro m caller self input r Hc Hm] w. rewrite Forall_forall in He.
  pose proof (He c Hc sig gas ro m caller self input Hm (w_tevm w) (mkLive w r) eq_refl) as H. unfold tevm_is in H.
  by destruct (m caller self input (mkLive w r)) as [x l].
Qed.
End ContractCalls.

(** ** The record of an execution *)

Section Records.
Context {S : Type} {K : SdkKeepers S} {G : Geth} {B : Bech32} {E : EvmEngine S} {EL : EvmEngineLaws S} {EC : EngineCalls S}.
Context {P : Codec EvmParams} {FP : Codec FmParams}.
Context {SK : StakingKeepers S} {E712 : Eip712Lib} {CP : Codec CpcParams} {CM : Codec CustomPrecompiledContractMeta}.
Context {JE : Json Erc20CustomPrecompiledContractMeta} {JS : Json StakingCustomPrecompiledContractMeta}.
Variables Erc20CpcInfo Bech32CpcInfo StakingCpcInfo : CustomPrecompiledContractInfo.
Variable now : Z.
Variable map_order : AccountTracker -> list Address.
Implicit Types w : World S.

Abbreviation spec_apply := (spec_ApplyMessage Erc20CpcInfo Bech32CpcInfo StakingCpcInfo now map_order).

(** The receipt of an executed transaction. *)
Definition executed_receipt w (txType : TxType) (txIndex : Z) (resp : MsgEthereumTxResponse) (logs : list Log) : Receipt :=
  execution_receipt txType (add_previous_gas w (Z.to_nat txIndex) 0 (resp_GasUsed resp)) logs (resp_VmError resp).

Lemma record_tevm w w1 n gas bz : w_tevm w1 = w_tevm w -> w_tevm (record_tx w1 n gas bz) = w_tevm (record_tx w n gas bz).
Proof.
  unfold record_tx, SetTxReceiptForCurrentTxTransient, SetGasUsedForCurrentTxTransient, SetLogCountForCurrentTxTransient,
    GetTxCountTransient, GetRawTxCountTransient. cbn [w_tevm set_tevm]. by intros ->.
Qed.

Lemma commit_tevm order de (s s' : AState S) r t : astate_tevm t s -> w_tevm (as_base s) = t ->
  astate_commit now order de s = (r, s') -> w_tevm (as_base s') = t.
Proof.
  intros [Hc Hv] Hb. unfold astate_commit. munfold. destruct (as_committed s); cbn [negb]; [by intros [= _ <-]|].
  unfold on_cur. cbn [as_cur as_base as_saves as_committed].
  assert (preserves (tevm_is t) (destroy_all now de order)) as Hd.
  { apply preserves_mapM. intros a. unfold destroy_touched. apply preserves_bind; [apply preserves_gets|intros ?].
    apply preserves_bind; [apply preserves_gets|intros ?]. case_match; [apply ut_destroy|apply preserves_ret]. }
  specialize (Hd _ Hc). destruct (destroy_all now de order (as_cur s)) as [[[]|e|e] l]; intros [= _ <-]; done.
Qed.

Lemma executed_records ctx msg cfg txConfig w resp w' : spec_apply ctx msg true cfg txConfig w = (Ok resp, w') ->
  exists txType logs, txc_TxType txConfig = Some txType /\ resp_Hash resp = txc_TxHash txConfig /\
    Receipt_MarshalBinary (executed_receipt w txType (txc_TxIndex txConfig) resp logs) = Ok (resp_MarshalledReceipt resp) /\
    w_tevm w' = w_tevm (record_tx w (length logs) (resp_GasUsed resp) (resp_MarshalledReceipt resp)).
Proof.
  unfold spec_ApplyMessage. do 2 (case_match; [done|]).
  destruct (NewStateDB_env ctx w _) as [env|e|e]; cbn; [|done|done].
  destruct (NewEVM _ _ _ ctx w msg cfg) as [evm|e|e] eqn:Evm; cbn; [|done|done].
  apply NewEVM_quiet in Evm. set (p := ApplyMessage_core evm msg (msg_Gas msg) _).
  assert (prog_ops op_quiet p) as Hp by (eapply prog_ops_impl; [|apply transition_ops]; intros o; by apply own_call_quiet).
  pose proof (astate_run_tevm env p (w_tevm w) Hp (astate_new w) (conj eq_refl (Forall_nil_2 _))) as Ht.
  destruct (astate_run env p (astate_new w)) as [[[[result|e|e] st]|e|e] s] eqn:Es; try done. cbn [snd] in Ht.
  pose proof (astate_run_base _ _ _ _ _ Es) as [Eb _]. cbn in Eb.
  unfold spec_finish. destruct (txc_TxType txConfig) as [txType|]; [|done]. cbv zeta. rewrite Eb.
  destruct (astate_commit now _ true s) as [rc s2] eqn:Ec. apply (commit_tevm _ _ _ _ _ (w_tevm w)) in Ec; [|done|by rewrite Eb].
  destruct rc as [[]|e|e]; try done. destruct (Receipt_MarshalBinary _) as [bz|e|e] eqn:Em; try done. intros [= <- <-].
  eexists txType, _. split_and!; [done|done|exact Em|by apply record_tevm].
Qed.
End Records.

(** ** The records of a block *)

(** What the transient store holds of a transaction: the gas it used, the number of its
    logs and its encoded receipt. *)
Record TxRecord : Type := mkTxRecord { rec_gas : Z; rec_logs : Z; rec_receipt : bytes }.
Definition total (f : TxRecord -> Z) (rs : list TxRecord) : Z := foldr (fun r n => f r + n) 0 rs.

Lemma total_app f l1 l2 : total f (l1 ++ l2) = total f l1 + total f l2.
Proof. unfold total. induction l1 as [|r l1 IH]; cbn; [done|]. rewrite IH. lia. Qed.
Lemma total_take_S f rs i r : rs !! i = Some r -> total f (take (Datatypes.S i) rs) = total f (take i rs) + f r.
Proof. intros Hi. rewrite (take_S_r _ _ _ Hi), total_app. cbn. lia. Qed.
Lemma add64_wrap a b : add64 (wrap64 a) b = wrap64 (a + b).
Proof. unfold add64, wrap64. by rewrite Zplus_mod_idemp_l. Qed.
Lemma BigEndian_wrap z : BigEndianToUint64 (Uint64ToBigEndian z) = wrap64 z.
Proof.
  unfold BigEndianToUint64, Uint64ToBigEndian. rewrite be_decode_encode. change (256 ^ Z.of_nat 8) with (2 ^ 64).
  unfold wrap64. by rewrite Zmod_mod.
Qed.

Section Store.
Context {S : Type} {K : SdkKeepers S} {G : Geth}.
Implicit Types (w : World S) (rs : list TxRecord).

Definition stored w (i : Z) : TxRecord :=
  mkTxRecord (GetGasUsedForTdxIndexTransient w i) (BigEndianToUint64 (kv_get (w_tevm w) (TxLogCountTransientKey i)))
    (kv_get (w_tevm w) (TxReceiptTransientKey i)).
Definition current w : Z := sub64 (GetTxCountTransient w) 1.
(** The store holds exactly these records, and no logs of transactions to come. *)
Record records w rs : Prop := {
  rc_count : GetRawTxCountTransient w = Z.of_nat (length rs);
  rc_stored i r : rs !! i = Some r -> stored w (Z.of_nat i) = r;
  rc_fresh i : Z.of_nat (length rs) <= i <= MaxUint64 -> rec_logs (stored w i) = 0
}.

(** Only the keys of records matter. *)
Definition record_key (k : bytes) : Prop := exists b k', k = b :: k' /\ b ∈ [x05; x06; x07; x08].
Lemma records_ext w w' rs : (forall k, record_key k -> kv_get (w_tevm w') k = kv_get (w_tevm w) k) -> records w rs -> records w' rs.
Proof.
  intros Hk [H1 H2 H3]. assert (forall i, stored w' i = stored w i) as Hs.
  { intros i. unfold stored, GetGasUsedForTdxIndexTransient. rewrite !Hk; [done|..].
    all: eexists _, _; split; [reflexivity|]; set_solver. }
  split; [|intros i r; rewrite Hs; apply H2|intros i; rewrite Hs; apply H3].
  rewrite <- H1. unfold GetRawTxCountTransient. rewrite Hk; [done|]. eexists _, _. split; [reflexivity|]. set_solver.
Qed.
Lemma records_tevm w w' rs : w_tevm w' = w_tevm w -> records w rs -> records w' rs.
Proof. intros Hw. apply records_ext. by rewrite Hw. Qed.
Lemma records_flag w key b rs : hd x00 key ∈ [x09; x0a; x0b] -> records w rs -> records (genericSetBoolFlagTransient w key b) rs.
Proof.
  intros Hf. apply records_ext. intros k (c & k' & -> & Hc). unfold genericSetBoolFlagTransient.
  assert (key <> c :: k') as Hne by (intros ->; cbn in Hf; set_solver).
  destruct b; cbn [w_tevm set_tevm]; [by rewrite kv_get_set_ne|by rewrite kv_get_delete_ne].
Qed.

Lemma current_count w n : GetRawTxCountTransient w = Z.of_nat n + 1 -> Z.of_nat n < MaxUint64 -> current w = Z.of_nat n.
Proof.
  intros Hn Hb. unfold current, GetTxCountTransient. rewrite Hn. destruct (Z.ltb_spec (Z.of_nat n + 1) 1); [lia|].
  rewrite sub64_id by (unfold is_u64, MaxUint64 in *; lia). lia.
Qed.
Lemma is_u64_current w : is_u64 (current w).
Proof. apply is_u64_sub64. Qed.

(** The three writes. *)
Lemma kv_get_indexed m p v i j : is_u64 i -> is_u64 j ->
  kv_get (kv_set m (p ++ Uint64ToBigEndian i) v) (p ++ Uint64ToBigEndian j) = if decide (j = i) then v else kv_get m (p ++ Uint64ToBigEndian j).
Proof.
  intros Hi Hj. case_decide as Hd; [subst j; by rewrite kv_get_set_eq|]. rewrite kv_get_set_ne; [done|].
  intros H%app_inv_head%Uint64ToBigEndian_inj; [by apply Hd|done|done].
Qed.
Ltac write_record :=
  unfold SetGasUsedForCurrentTxTransient, SetLogCountForCurrentTxTransient, SetTxReceiptForCurrentTxTransient, stored,
    GetGasUsedForTdxIndexTransient;
  match goal with |- context [sub64 (GetTxCountTransient ?w) 1] => fold (current w) end; cbn [w_tevm set_tevm rec_gas rec_logs rec_receipt];
  unfold TxGasTransientKey, TxLogCountTransientKey, TxReceiptTransientKey;
  rewrite kv_get_indexed by first [apply is_u64_current|done]; rewrite !kv_get_set_ne by done; case_decide; rewrite ?BigEndian_wrap; done.

Lemma stored_gas w g i : is_u64 i -> stored (SetGasUsedForCurrentTxTransient w g) i =
  if decide (i = current w) then mkTxRecord (wrap64 g) (rec_logs (stored w i)) (rec_receipt (stored w i)) else stored w i.
Proof. intros Hi. write_record. Qed.
Lemma stored_logs w n i : is_u64 i -> stored (SetLogCountForCurrentTxTransient w n) i =
  if decide (i = current w) then mkTxRecord (rec_gas (stored w i)) (wrap64 n) (rec_receipt (stored w i)) else stored w i.
Proof. intros Hi. write_record. Qed.
Lemma stored_receipt w bz i : is_u64 i -> stored (SetTxReceiptForCurrentTxTransient w bz) i =
  if decide (i = current w) then mkTxRecord (rec_gas (stored w i)) (rec_logs (stored w i)) bz else stored w i.
Proof. intros Hi. write_record. Qed.

(** None of them changes the count. *)
Lemma count_gas w g : GetRawTxCountTransient (SetGasUsedForCurrentTxTransient w g) = GetRawTxCountTransient w.
Proof. unfold GetRawTxCountTransient, SetGasUsedForCurrentTxTransient. cbn [w_tevm set_tevm]. by rewrite kv_get_set_ne. Qed.
Lemma count_logs w n : GetRawTxCountTransient (SetLogCountForCurrentTxTransient w n) = GetRawTxCountTransient w.
Proof. unfold GetRawTxCountTransient, SetLogCountForCurrentTxTransient. cbn [w_tevm set_tevm]. by rewrite kv_get_set_ne. Qed.
Lemma count_receipt w bz : GetRawTxCountTransient (SetTxReceiptForCurrentTxTransient w bz) = GetRawTxCountTransient w.
Proof. unfold GetRawTxCountTransient, SetTxReceiptForCurrentTxTransient. cbn [w_tevm set_tevm]. by rewrite kv_get_set_ne. Qed.

(** *** Sums over the records *)

Lemma sum_logs w count rs i t : (forall k r, rs !! k = Some r -> stored w (Z.of_nat (i + k)) = r) ->
  Z.of_nat (i + length rs) <= MaxUint64 ->
  sum_log_counts w false count (length rs) (Z.of_nat i) (wrap64 t) = wrap64 (t + total rec_logs rs).
Proof.
  revert i t. induction rs as [|r rs IH]; intros i t Hs Hb; cbn [length sum_log_counts andb]; [f_equal; cbn; lia|].
  cbn [length] in Hb. rewrite add64_wrap, add64_id by lia. replace (Z.of_nat i + 1) with (Z.of_nat (Datatypes.S i)) by lia.
  rewrite IH; [|intros k r' Hk; specialize (Hs (Datatypes.S k) r' Hk); by rewrite <- Nat.add_succ_comm in Hs|lia].
  specialize (Hs 0%nat r eq_refl). rewrite Nat.add_0_r in Hs. f_equal. cbn [total foldr]. fold (total rec_logs rs).
  replace (BigEndianToUint64 _) with (rec_logs r); [lia|]. by rewrite <- Hs.
Qed.
Lemma sum_gas w rs i t : (forall k r, rs !! k = Some r -> stored w (Z.of_nat (i + k)) = r) ->
  Z.of_nat (i + length rs) <= MaxUint64 ->
  add_previous_gas w (length rs) (Z.of_nat i) (wrap64 t) = wrap64 (t + total rec_gas rs).
Proof.
  revert i t. induction rs as [|r rs IH]; intros i t Hs Hb; cbn [length add_previous_gas]; [f_equal; cbn; lia|].
  cbn [length] in Hb. rewrite add64_wrap, add64_id by lia. replace (Z.of_nat i + 1) with (Z.of_nat (Datatypes.S i)) by lia.
  rewrite IH; [|intros k r' Hk; specialize (Hs (Datatypes.S k) r' Hk); by rewrite <- Nat.add_succ_comm in Hs|lia].
  specialize (Hs 0%nat r eq_refl). rewrite Nat.add_0_r in Hs. f_equal. cbn [total foldr]. fold (total rec_gas rs).
  replace (GetGasUsedForTdxIndexTransient w (Z.of_nat i)) with (rec_gas r); [lia|]. by rewrite <- Hs.
Qed.

(** *** A transaction is counted *)

Lemma counted_records w rs : records w rs -> Z.of_nat (length rs) < MaxUint64 ->
  GetRawTxCountTransient (IncreaseTxCountTransient w) = Z.of_nat (length rs) + 1 /\
  forall i, stored (IncreaseTxCountTransient w) i = stored w i.
Proof.
  intros [H1 _ _] Hb. unfold GetRawTxCountTransient in H1. unfold IncreaseTxCountTransient, GetRawTxCountTransient. rewrite H1. split.
  - cbn [w_tevm set_tevm]. rewrite kv_get_set_eq, BigEndian_wrap, add64_id by lia. apply wrap64_id. unfold is_u64. lia.
  - intros i. unfold stored, GetGasUsedForTdxIndexTransient. cbn [w_tevm set_tevm]. by rewrite !kv_get_set_ne.
Qed.

Lemma setup_records ctx ethTx w rs m w' : records w rs -> Z.of_nat (length rs) < MaxUint64 -> is_u64 (tx_Gas ethTx) ->
  SetupExecutionContext ctx ethTx w = (Ok m, w') ->
  exists bz, Receipt_MarshalBinary (failed_receipt ethTx (wrap64 (total rec_logs rs))) = Ok bz /\
    records w' (rs ++ [mkTxRecord (tx_Gas ethTx) 0 bz]).
Proof.
  intros Hr Hb Hg. unfold SetupExecutionContext, or_panic. munfold. set (w0 := SetBlockHashForCurrentBlockAndPruneOld ctx w).
  assert (records w0 rs) as Hr0.
  { eapply records_tevm; [|exact Hr]. unfold w0, SetBlockHashForCurrentBlockAndPruneOld. by repeat case_match. }
  destruct (counted_records w0 rs Hr0 Hb) as [Hc Hs]. set (w1 := IncreaseTxCountTransient w0) in *.
  set (n := length rs) in *. pose proof (current_count w1 n Hc Hb) as Hcur. set (w2 := SetGasUsedForCurrentTxTransient w1 (tx_Gas ethTx)).
  assert (GetRawTxCountTransient w2 = Z.of_nat n + 1) as Hc2 by (unfold w2; by rewrite count_gas).
  assert (forall i, is_u64 i -> stored w2 i = if decide (i = Z.of_nat n) then mkTxRecord (tx_Gas ethTx) (rec_logs (stored w0 i)) (rec_receipt (stored w0 i))
                                              else stored w0 i) as Hs2.
  { intros i Hi. unfold w2. rewrite stored_gas, Hcur, Hs, wrap64_id by done. done. }
  assert (GetCumulativeLogCountTransient w2 false = wrap64 (total rec_logs rs)) as Hl.
  { unfold GetCumulativeLogCountTransient. unfold GetTxCountTransient at 2. rewrite Hc2. destruct (Z.ltb_spec (Z.of_nat n + 1) 1); [lia|].
    set (r := stored w2 (Z.of_nat n)). replace (Z.to_nat (Z.of_nat n + 1)) with (length (rs ++ [r])) by (rewrite length_app; cbn; lia).
    change 0 with (Z.of_nat 0) at 1. change 0 with (wrap64 0). rewrite sum_logs.
    - assert (rec_logs r = 0) as Hz.
      { unfold r. rewrite Hs2, decide_True by (done || unfold is_u64; lia). apply (rc_fresh _ _ Hr0). fold n. lia. }
      rewrite total_app. cbn [total foldr]. rewrite Hz. f_equal. fold (total rec_logs rs). lia.
    - intros k x Hk. cbn [Nat.add]. apply lookup_snoc_Some in Hk as [[Hk Hx]|[-> <-]]; [|done]. fold n in Hk.
      rewrite Hs2, decide_False by (unfold is_u64; lia). by apply (rc_stored _ _ Hr0).
    - rewrite length_app. cbn. fold n. lia. }
  unfold failedReceipt. rewrite Hl. cbn [rcpt_Type rcpt_Status rcpt_CumulativeGasUsed rcpt_Logs]. fold (failed_receipt ethTx (wrap64 (total rec_logs rs))).
  destruct (Receipt_MarshalBinary _) as [bz|e|e]; [|done|done]. intros [= _ <-]. exists bz. split; [done|].
  assert (current w2 = Z.of_nat n) as Hcur2 by (by apply current_count).
  split; [rewrite count_receipt, Hc2, length_app; cbn; fold n; lia| |].
  - intros i r Hi. rewrite stored_receipt by (apply lookup_lt_Some in Hi; rewrite length_app in Hi; cbn in Hi; unfold is_u64; lia).
    rewrite Hcur2. apply lookup_snoc_Some in Hi as [[Hk Hx]|[-> <-]].
    + fold n in Hk. rewrite decide_False, Hs2, decide_False by (unfold is_u64; lia). by apply (rc_stored _ _ Hr0).
    + fold n. rewrite decide_True, Hs2, decide_True by (done || unfold is_u64; lia). cbn [rec_gas rec_logs].
      rewrite (rc_fresh _ _ Hr0); [done|fold n; lia].
  - intros i Hi. rewrite length_app in Hi. cbn in Hi. fold n in Hi. rewrite stored_receipt, Hcur2, decide_False by (unfold is_u64; lia).
    rewrite Hs2, decide_False by (unfold is_u64; lia). apply (rc_fresh _ _ Hr0). fold n. lia.
Qed.

(** *** An execution replaces the last record *)
Lemma record_records w rs r n gas bz : records w (rs ++ [r]) -> Z.of_nat (length rs) < MaxUint64 ->
  records (record_tx w n gas bz) (rs ++ [mkTxRecord (wrap64 gas) (wrap64 (Z.of_nat n)) bz]).
Proof.
  intros Hr Hb. pose proof (rc_count _ _ Hr) as Hc. rewrite length_app in Hc. cbn in Hc. set (k := length rs) in *.
  assert (forall w', GetRawTxCountTransient w' = GetRawTxCountTransient w -> current w' = Z.of_nat k) as Hcur
    by (intros w' Hw; apply current_count; [rewrite Hw; lia|done]).
  assert (forall i, is_u64 i -> stored (record_tx w n gas bz) i =
    if decide (i = Z.of_nat k) then mkTxRecord (wrap64 gas) (wrap64 (Z.of_nat n)) bz else stored w i) as Hs.
  { intros i Hi. unfold record_tx. rewrite stored_receipt, stored_gas, stored_logs by done.
    rewrite !Hcur by (by rewrite ?count_gas, ?count_logs). by case_decide. }
  split.
  - unfold record_tx. rewrite count_receipt, count_gas, count_logs, length_app. cbn. lia.
  - intros i x Hi. pose proof (lookup_lt_Some _ _ _ Hi) as Hlt. rewrite length_app in Hlt. cbn in Hlt. fold k in Hlt.
    rewrite Hs by (unfold is_u64; lia). apply lookup_snoc_Some in Hi as [[Hk Hx]|[-> <-]]; [|by rewrite decide_True].
    fold k in Hk. rewrite decide_False by lia. apply (rc_stored _ _ Hr). by rewrite lookup_app_l.
  - intros i Hi. rewrite length_app in Hi. cbn in Hi. fold k in Hi. rewrite Hs, decide_False by (unfold is_u64; lia).
    apply (rc_fresh _ _ Hr). rewrite length_app. cbn. fold k. lia.
Qed.

(** *** The end of the block *)
Lemma collect_records w rs receipts i acc : (forall k r, rs !! k = Some r -> stored w (Z.of_nat (i + k)) = r) ->
  Z.of_nat (i + length rs) <= MaxUint64 ->
  Forall2 (fun r rc => rec_receipt r <> [] /\ Receipt_UnmarshalBinary (rec_receipt r) = Ok rc) rs receipts ->
  collect_receipts w (length rs) (Z.of_nat i) acc = Ok (acc ++ receipts).
Proof.
  intros Hs Hb HF. revert i acc Hs Hb. induction HF as [|r rc rs receipts [Hn Hu] _ IH]; intros i acc Hs Hb; cbn [length collect_receipts].
  { by rewrite app_nil_r. }
  pose proof (Hs 0%nat r eq_refl) as H0. rewrite Nat.add_0_r in H0.
  change (kv_get (w_tevm w) (TxReceiptTransientKey (Z.of_nat i))) with (rec_receipt (stored w (Z.of_nat i))). rewrite H0.
  rewrite decide_False by (intros ?%nil_length_inv; done). rewrite Hu. cbn [length] in Hb.
  rewrite add64_id by lia. replace (Z.of_nat i + 1) with (Z.of_nat (Datatypes.S i)) by lia. rewrite IH; [by rewrite <- app_assoc| |lia].
  intros k r' Hk. specialize (Hs (Datatypes.S k) r' Hk). by rewrite <- Nat.add_succ_comm in Hs.
Qed.
Lemma end_of_block w rs receipts : records w rs -> Z.of_nat (length rs) <= MaxUint64 ->
  Forall2 (fun r rc => rec_receipt r <> [] /\ Receipt_UnmarshalBinary (rec_receipt r) = Ok rc) rs receipts ->
  Keeper_EndBlock w = (Ok (EmitBlockBloomEvent (CreateBloom receipts)), w).
Proof.
  intros Hr Hb HF. unfold Keeper_EndBlock, GetTxReceiptsTransient. munfold. rewrite (rc_count _ _ Hr), Nat2Z.id.
  change 0 with (Z.of_nat 0). rewrite (collect_records w rs receipts); [done|apply (rc_stored _ _ Hr)|done|done].
Qed.
End Store.

(** ** The transactions of a block *)

(** What became of a transaction that passed the ante handler: its message was executed, or
    its writes were dropped. *)
Inductive outcome : Type :=
  | Executed (resp : MsgEthereumTxResponse) (event : ReceiptEvent)
  | Aborted.
(** [bt_index] is the index in the event of the ante handler. *)
Record BlockTx : Type := mkBlockTx { bt_tx : Transaction; bt_index : Z; bt_outcome : outcome }.

Section Block.
Context {S : Type} {K : SdkKeepers S} {L : SdkLaws S} {G : Geth} {B : Bech32} {E : EvmEngine S} {EL : EvmEngineLaws S} {EC : EngineCalls S}.
Context {LS : LatestSigner} {P : Codec EvmParams} {FP : Codec FmParams}.
Context {SK : StakingKeepers S} {E712 : Eip712Lib} {CP : Codec CpcParams} {CM : Codec CustomPrecompiledContractMeta}.
Context {JE : Json Erc20CustomPrecompiledContractMeta} {JS : Json StakingCustomPrecompiledContractMeta}.
Context {H C : Type} {X : CacheCtx H C (World S)} {XL : CacheCtxLaws H C (World S)}.
Variable legacy_params : S -> FmParams.
Variable GetValidatorByConsAddr : S -> bytes -> res string.
Variable ValidatorStringToBytes : string -> res bytes.
Variables Erc20CpcInfo Bech32CpcInfo StakingCpcInfo : CustomPrecompiledContractInfo.
Variable now : Z.
Variable map_order : AccountTracker -> list Address.
(** The SDK's decorators, by the context they get. *)
Variable sdk : C -> SdkAnte H.
Variable disabledNestedMsgs : list string.
Variable ctx : Ctx.
Variable FeePayer : Tx -> bytes.
Implicit Types (w : World S) (rs : list TxRecord).

Abbreviation ante c := (NewAnteHandler legacy_params Erc20CpcInfo Bech32CpcInfo StakingCpcInfo (sdk c) disabledNestedMsgs ctx c).
Abbreviation handler := (EthereumTx legacy_params GetValidatorByConsAddr ValidatorStringToBytes Erc20CpcInfo Bech32CpcInfo StakingCpcInfo
  now map_order ctx).

(** The message after the ante handler has left [st]; [w'] is what the context then reads. *)
Inductive message_run (c : C) (msg : MsgEthereumTx) (st : AnteState H) : outcome -> World S -> Prop :=
  | message_executed gm resp event h' gm' :
      an_meter st = LimitMeter gm -> handler c msg (an_heap st, gm) = (Ok (resp, event), (h', gm')) ->
      message_run c msg st (Executed resp event) (view h' c)
  | message_dropped : message_run c msg st Aborted (view (an_heap st) c).

(** A block: the transient store is empty at its beginning; Ethereum transactions pass the
    ante handler and then run; all else leaves the store alone. *)
Inductive block_run : list BlockTx -> World S -> Prop :=
  | block_begin w : w_tevm w = ∅ -> block_run [] w
  | block_other l w w' : block_run l w -> w_tevm w' = w_tevm w -> block_run l w'
  | block_eth l w c tx msg ethTx st st' g z ev e o w' :
      block_run l w -> at_state c st w g z ev ->
      GetMsgs tx = [EthMsg msg] -> AccAddressFromBech32 (msgtx_From msg) = Ok (FeePayer tx) -> MsgEthereumTx_AsTransaction msg = Ok ethTx ->
      ante c tx false st = (Ok tt, st') -> an_events st' = ev ++ [e] -> message_run c msg st' o w' ->
      block_run (l ++ [mkBlockTx ethTx (snd e) o]) w'.

(** *** The message *)

Lemma restore_records sender nonce w w1 rs : restoreNonce sender nonce w = (Ok tt, w1) -> records w rs -> records w1 rs.
Proof.
  unfold restoreNonce. repeat case_match; try done; intros [= <-]; [|done]. intros Hr.
  apply (records_flag (set_sdk _ w) KeyTransientFlagIncreasedSenderNonce false); [set_solver|]. by eapply records_tevm; [|exact Hr].
Qed.

Lemma on_ctx_ok {A} c (m : M (World S) A) h a h' : ctx_valid h c -> on_ctx c m h = (Ok a, h') ->
  exists w', m (view h c) = (Ok a, w') /\ ctx_valid h' c /\ view h' c = w'.
Proof.
  intros Hv. unfold on_ctx. destruct (m (view h c)) as [r w'] eqn:Em. intros [= -> <-]. exists w'.
  split_and!; [done|by apply valid_update|by rewrite view_update].
Qed.
Lemma in_store_inv {A} (m : M H A) s a s' : in_store m s = (Ok a, s') -> m (fst s) = (Ok a, fst s') /\ snd s' = snd s.
Proof. unfold in_store, zoom. destruct (m (fst s)) as [r h]. by intros [= -> <-]. Qed.

(** Of go-ethereum: the gas limit is a 64-bit integer and is the one of the message, and a
    receipt that was encoded can be decoded. *)
Hypothesis tx_gas : forall msg tx, MsgEthereumTx_AsTransaction msg = Ok tx -> is_u64 (tx_Gas tx).
Hypothesis message_gas : forall cfg n tx b m, Transaction_AsMessage cfg n tx b = Ok m -> msg_Gas m = tx_Gas tx.
Hypothesis receipt_codec : forall r bz, Receipt_MarshalBinary r = Ok bz -> bz <> [] /\ exists rc, Receipt_UnmarshalBinary bz = Ok rc.

(** The handler succeeds only through the application of the message. *)
Lemma handler_inv c msg h gm resp event h' gm' : ctx_valid h c -> is_u64 (gm_consumed gm) -> is_u64 (gm_limit gm) ->
  handler c msg (h, gm) = (Ok (resp, event), (h', gm')) ->
  exists ethTx sender w1 cfg m, MsgEthereumTx_AsTransaction msg = Ok ethTx /\ restoreNonce sender (tx_Nonce ethTx) (view h c) = (Ok tt, w1) /\
    Transaction_AsMessage (cfg_ChainConfig cfg) (ctx_BlockHeight ctx) ethTx (cfg_BaseFee cfg) = Ok m /\
    spec_ApplyMessage Erc20CpcInfo Bech32CpcInfo StakingCpcInfo now map_order ctx m true cfg (NewTxConfig ctx w1 (Some ethTx)) w1
      = (Ok resp, view h' c) /\ ev_TxIndex event = current w1 /\ 0 <= resp_GasUsed resp <= tx_Gas ethTx.
Proof.
  intros Hv Hc Hl. unfold EthereumTx. intros Hx.
  apply bind_ok_inv in Hx as (sender & s1 & [Hs ->]%lift_inv & Hx). apply bind_ok_inv in Hx as (ethTx & s2 & [Ht ->]%lift_inv & Hx).
  apply bind_ok_inv in Hx as ([] & [h1 gm1] & [Hr Hg1]%in_store_inv & Hx). cbn [fst snd] in *. subst gm1.
  apply (on_ctx_ok _ _ _ _ _ Hv) in Hr as (w1 & Hr & Hv1 & Hw1).
  apply bind_ok_inv in Hx as (idx & [h2 gm2] & [Hi Hg2]%in_store_inv & Hx). cbn [fst snd] in *. subst gm2. injection Hi as <- <-.
  apply bind_ok_inv in Hx as (resp' & [h3 gm3] & Ha & Hx). unfold ApplyTransaction in Ha.
  apply bind_ok_inv in Ha as (cfg & [h4 gm4] & [Hcfg Hg4]%in_store_inv & Ha). cbn [fst snd] in *. subst gm4. injection Hcfg as Hcfg <-.
  apply bind_ok_inv in Ha as (txc & [h5 gm5] & [Htx Hg5]%in_store_inv & Ha). cbn [fst snd] in *. subst gm5. injection Htx as <- <-.
  apply bind_ok_inv in Ha as (m & s6 & [Hmsg ->]%lift_inv & Ha).
  pose proof (apply_message_spec Erc20CpcInfo Bech32CpcInfo StakingCpcInfo now map_order ctx c m true cfg (NewTxConfig ctx (view h1 c) (Some ethTx)) h1 Hv1) as Hspec.
  pose proof (spec_ApplyMessage_gas Erc20CpcInfo Bech32CpcInfo StakingCpcInfo now map_order ctx m true cfg (NewTxConfig ctx (view h1 c) (Some ethTx)) (view h1 c)) as Hgas.
  pose proof (message_gas _ _ _ _ _ Hmsg) as Hmg. rewrite Hmg in Hgas. pose proof (tx_gas _ _ Ht) as Hu.
  rewrite settle_gas_spec in Ha; [|done|done|].
  - destruct (ApplyMessageWithConfig _ _ _ _ _ ctx c m true cfg _ h1) as [r h6].
    destruct (spec_ApplyMessage _ _ _ _ _ ctx m true cfg _ (view h1 c)) as [r2 w2] eqn:E2. destruct Hspec as [-> Ev].
    destruct r2 as [resp2|e|e]; try done. injection Ha as -> <- <-.
    apply bind_ok_inv in Hx as (bf & [h7 gm7] & [Hbf Hg7]%in_store_inv & Hx). cbn [fst snd] in *. injection Hbf as _ <-.
    apply bind_ok_inv in Hx as (receipt & s8 & [_ ->]%lift_inv & Hx). apply bind_ok_inv in Hx as (ev & s9 & [Hev ->]%lift_inv & Hx).
    injection Hx as -> -> <- _. exists ethTx, sender, w1, cfg, m. rewrite Hw1 in *. rewrite Ev.
    split_and!; try done; [|by eapply Hgas..]. unfold GetSdkEventForReceipt in Hev. apply res_bind_ok_inv in Hev as (? & _ & [= <-]). done.
  - intros resp2 h6 E6. rewrite E6 in Hspec. destruct (spec_ApplyMessage _ _ _ _ _ ctx m true cfg _ (view h1 c)) as [r2 w2] eqn:E2.
    destruct Hspec as [<- _]. specialize (Hgas w2 resp2 Hu eq_refl). unfold is_u64 in *. lia.
Qed.

(** *** The records *)

(** What is recorded of the transaction at index [i] after the records [prev]. *)
Definition record_of (prev : list TxRecord) (i : nat) (bt : BlockTx) (r : TxRecord) : Prop :=
  bt_index bt = Z.of_nat i /\
  match bt_outcome bt with
  | Executed resp event =>
      ev_TxIndex event = Z.of_nat i /\ rec_gas r = resp_GasUsed resp /\ rec_gas r <= tx_Gas (bt_tx bt) /\
      resp_Hash resp = Transaction_Hash (bt_tx bt) /\ rec_receipt r = resp_MarshalledReceipt resp /\
      exists logs, rec_logs r = wrap64 (Z.of_nat (length logs)) /\
        Receipt_MarshalBinary (execution_receipt (tx_Type (bt_tx bt)) (wrap64 (total rec_gas prev + rec_gas r)) logs (resp_VmError resp))
          = Ok (rec_receipt r)
  | Aborted =>
      rec_gas r = tx_Gas (bt_tx bt) /\ rec_logs r = 0 /\
      Receipt_MarshalBinary (failed_receipt (bt_tx bt) (wrap64 (total rec_logs prev))) = Ok (rec_receipt r)
  end.
Definition block_records (l : list BlockTx) rs : Prop :=
  length rs = length l /\ forall i bt r, l !! i = Some bt -> rs !! i = Some r -> record_of (take i rs) i bt r.

Lemma block_records_snoc l rs bt r : block_records l rs -> record_of rs (length l) bt r -> block_records (l ++ [bt]) (rs ++ [r]).
Proof.
  intros [Hl Hr] Hn. split; [rewrite !length_app; cbn; lia|]. intros i bt' r' Hi Hj.
  apply lookup_snoc_Some in Hi as [[Hlt Hi]|[-> <-]].
  - rewrite lookup_app_l in Hj by lia. rewrite take_app_le by lia. by apply Hr.
  - rewrite <- Hl, list_lookup_middle in Hj by done. injection Hj as <-. by rewrite <- Hl, take_app_length, Hl.
Qed.

(** The ante handler adds the record of an aborted transaction. *)
Lemma ante_records c tx msg ethTx st st' g z ev e w rs : deduct_law legacy_params (sdk c) ctx c FeePayer ->
  ctx_IsCheckTx ctx = false -> ctx_IsReCheckTx ctx = false -> records w rs -> Z.of_nat (length rs) < MaxUint64 ->
  at_state c st w g z ev -> GetMsgs tx = [EthMsg msg] -> AccAddressFromBech32 (msgtx_From msg) = Ok (FeePayer tx) ->
  MsgEthereumTx_AsTransaction msg = Ok ethTx -> ante c tx false st = (Ok tt, st') -> an_events st' = ev ++ [e] ->
  exists bz, Receipt_MarshalBinary (failed_receipt ethTx (wrap64 (total rec_logs rs))) = Ok bz /\
    records (view (an_heap st') c) (rs ++ [mkTxRecord (tx_Gas ethTx) 0 bz]) /\ ctx_valid (an_heap st') c /\
    an_meter st' = LimitMeter (NewInfiniteGasMeterWithLimit (tx_Gas ethTx)) /\ snd e = Z.of_nat (length rs).
Proof.
  intros Hd Hck Hrc Hr Hb Hst Hm Hp Ht Ha He.
  destruct (ethereum_lane_steps legacy_params Erc20CpcInfo Bech32CpcInfo StakingCpcInfo (sdk c) disabledNestedMsgs ctx c FeePayer tx st st' w g z ev)
    as (msg' & ethTx' & acc & s' & fee & prio & w3 & w4 & m & [Hck' _ _ _ _ Hseq Hset [Hv Hview Hmeter _ Hev]]); try done.
  { apply HasSingleEthereumMessage_iff. eauto. }
  { intros msg0 Hm0. rewrite Hm in Hm0. by injection Hm0 as <-. }
  destruct Hck' as [Hm' Ht' _ _ _ _ _ _]. rewrite Hm in Hm'. injection Hm' as <-. rewrite Ht in Ht'. injection Ht' as <-.
  assert (records w3 rs) as Hr3.
  { unfold increaseSequence in Hseq. case_match; [|done].
    assert (w3 = genericSetBoolFlagTransient (set_sdk (SetAccount (w_sdk (set_sdk s' (flagged w))) (with_sequence (add64 (acc_sequence a) 1) a))
              (set_sdk s' (flagged w))) KeyTransientFlagIncreasedSenderNonce true) as -> by (by injection Hseq).
    apply records_flag; [set_solver|]. apply (records_tevm (flagged w)); [done|]. unfold flagged, SetFlagSenderPaidTxFeeInAnteHandle, SetFlagSenderNonceIncreasedByAnteHandle.
    do 3 (apply records_flag; [set_solver|]). exact Hr. }
  destruct (setup_records ctx ethTx w3 rs m w4 Hr3 Hb (tx_gas _ _ Ht) Hset) as (bz & Hbz & Hr4).
  pose proof (SetupExecutionContext_ok ctx _ _ _ _ Hset) as [-> _]. exists bz. rewrite Hview. split_and!; try done.
  rewrite Hev in He. apply app_inj_tail in He as [_ <-]. cbn [snd]. apply current_count; [|done].
  rewrite (rc_count _ _ Hr4), length_app. cbn. lia.
Qed.

(** The execution replaces it by its own. *)
Lemma message_records c msg ethTx st o w' (l : list BlockTx) rs bz idx : records (view (an_heap st) c) (rs ++ [mkTxRecord (tx_Gas ethTx) 0 bz]) ->
  Z.of_nat (length rs) < MaxUint64 -> ctx_valid (an_heap st) c -> MsgEthereumTx_AsTransaction msg = Ok ethTx -> length rs = length l ->
  an_meter st = LimitMeter (NewInfiniteGasMeterWithLimit (tx_Gas ethTx)) -> idx = Z.of_nat (length rs) ->
  Receipt_MarshalBinary (failed_receipt ethTx (wrap64 (total rec_logs rs))) = Ok bz ->
  message_run c msg st o w' -> exists r, records w' (rs ++ [r]) /\ record_of rs (length l) (mkBlockTx ethTx idx o) r.
Proof.
  intros Hr Hb Hv Ht Hl Hmeter -> Hbz Hm. rewrite <- Hl. inversion Hm as [gm resp event h' gm' Hg Hx Ho Hw|Ho Hw]; subst; [|by eexists].
  rewrite Hmeter in Hg. injection Hg as <-.
  apply handler_inv in Hx as (ethTx' & sender & w1 & cfg & m & Ht' & Hn & _ & Hspec & Hi & Hgas);
    [|done|by split|by apply (tx_gas msg)]. rewrite Ht in Ht'. injection Ht' as <-.
  apply (restore_records _ _ _ _ _ Hn) in Hr. pose proof (rc_count _ _ Hr) as Hc. rewrite length_app in Hc. cbn in Hc.
  assert (current w1 = Z.of_nat (length rs)) as Hcur by (apply current_count; [lia|done]).
  apply executed_records in Hspec as (txType & logs & [= <-] & Hh & Hrc & Hw). cbn [txc_TxIndex NewTxConfig] in Hrc.
  change (sub64 (GetTxCountTransient w1) 1) with (current w1) in Hrc. unfold executed_receipt in Hrc. rewrite Hcur, Nat2Z.id in Hrc.
  pose proof (tx_gas _ _ Ht) as Hu. assert (wrap64 (resp_GasUsed resp) = resp_GasUsed resp) as Hwrap by (apply wrap64_id; unfold is_u64 in *; lia).
  rewrite <- Hwrap in Hrc at 1. change 0 with (Z.of_nat 0) in Hrc. rewrite sum_gas in Hrc.
  - eexists. split; [eapply records_tevm; [exact Hw|]; eapply record_records; [exact Hr|done]|].
    split; [done|]. cbn [bt_outcome bt_tx rec_gas rec_logs rec_receipt]. rewrite Hwrap. split_and!; try done; [congruence|lia|].
    exists logs. split; [done|]. by rewrite Z.add_comm.
  - intros k r Hk. cbn [Nat.add]. apply (rc_stored _ _ Hr). rewrite lookup_app_l; [done|by eapply lookup_lt_Some].
  - cbn. lia.
Qed.

Lemma block_run_records l w : (forall c, deduct_law legacy_params (sdk c) ctx c FeePayer) -> ctx_IsCheckTx ctx = false -> ctx_IsReCheckTx ctx = false ->
  block_run l w -> Z.of_nat (length l) <= MaxUint64 -> exists rs, records w rs /\ block_records l rs.
Proof.
  intros Hd Hck Hrc Hrun. induction Hrun as [w Hw|l w w' Hrun IH Hw|l w c tx msg ethTx st st' g z ev e o w' Hrun IH Hst Hm Hp Ht Ha He Ho]; intros Hb.
  - exists []. split; [|by split]. unfold stored, GetRawTxCountTransient. split; [|done|].
    + unfold GetRawTxCountTransient. by rewrite Hw.
    + intros i _. unfold stored. by rewrite Hw.
  - destruct (IH Hb) as (rs & Hr & Hl). exists rs. split; [by eapply records_tevm|done].
  - rewrite length_app in Hb. cbn in Hb. destruct IH as (rs & Hr & Hl); [lia|]. pose proof (proj1 Hl) as Hlen.
    destruct (ante_records c tx msg ethTx st st' g z ev e w rs) as (bz & Hbz & Hr' & Hv & Hg & Hi); try done; [lia|].
    destruct (message_records c msg ethTx st' o w' l rs bz (snd e)) as (r & Hr2 & Hof); try done; [lia|].
    exists (rs ++ [r]). split; [done|]. by apply block_records_snoc.
Qed.

(** C5 The Ethereum transactions of a block, from the ante handler to the end of the block:
    whatever contracts run, whatever fails and whatever other modules do in between, the
    transactions are numbered from zero in the order in which they passed the ante handler,
    in the events of the ante handler and of the execution alike; each has one record: an
    executed one the gas and the receipt of its response, whose cumulative gas is the sum
    of the gas recorded so far, an aborted one its whole gas limit and a failed receipt,
    whose cumulative gas is the number of logs so far; and the end of the block finds all
    the receipts, in order, and emits the bloom of exactly these. *)
Theorem block_records_exact (l : list BlockTx) (w : World S)
  (Hdeduct : forall c, deduct_law legacy_params (sdk c) ctx c FeePayer)
  (Hcheck : ctx_IsCheckTx ctx = false) (Hrecheck : ctx_IsReCheckTx ctx = false)
  (Hrun : block_run l w) (Hcount : Z.of_nat (length l) <= MaxUint64) :
  GetRawTxCountTransient w = Z.of_nat (length l) /\
  exists rs receipts, block_records l rs /\ (forall i r, rs !! i = Some r -> stored w (Z.of_nat i) = r) /\
    mapM (fun r => Receipt_UnmarshalBinary (rec_receipt r)) rs = Ok receipts /\
    Keeper_EndBlock w = (Ok (EmitBlockBloomEvent (CreateBloom receipts)), w).
Proof.
  destruct (block_run_records l w Hdeduct Hcheck Hrecheck Hrun Hcount) as (rs & Hr & Hl). pose proof (proj1 Hl) as Hlen.
  split; [by rewrite (rc_count _ _ Hr), Hlen|].
  assert (exists receipts, Forall2 (fun r rc => rec_receipt r <> [] /\ Receipt_UnmarshalBinary (rec_receipt r) = Ok rc) rs receipts) as [receipts HF].
  { apply Forall_exists_Forall2_l, Forall_lookup. intros i r Hi. destruct (lookup_lt_is_Some_2 l i) as [bt Hbt].
    { rewrite <- Hlen. by eapply lookup_lt_Some. }
    pose proof (proj2 Hl i bt r Hbt Hi) as [_ Hof]. assert (exists x, Receipt_MarshalBinary x = Ok (rec_receipt r)) as [x Hx].
    { destruct (bt_outcome bt); [destruct Hof as (_ & _ & _ & _ & _ & logs & _ & Hx)|destruct Hof as (_ & _ & Hx)]; eauto. }
    destruct (receipt_codec _ _ Hx) as [Hne [rc Hu]]. by exists rc. }
  exists rs, receipts. split_and!; [done|apply (rc_stored _ _ Hr)| |].
  - clear -HF. induction HF as [|r rc rs receipts [_ Hu] _ IH]; [done|]. cbn. rewrite Hu. cbn. by rewrite IH.
  - eapply end_of_block; [exact Hr|by rewrite Hlen|done].
Qed.
End Block.
