(* ===== verification/RpcBlocks.v ===== *)
(** * Blocks, transactions and receipts of the JSON-RPC server

    Block numbers (rpc/types/block.go), and what the server answers about blocks,
    transactions and receipts (rpc/backend/blocks.go, tx_info.go, rpc/types/utils.go).
    The CometBFT node and the gRPC queries of the chain are the functions of [Node], the
    transaction index is the indexer of Indexer.v; go-ethereum's signers and Merkle roots
    are parameters.  A nil answer is [None]. *)

From Stdlib Require Import Strings.Byte.
From stdpp Require Import base gmap list strings.
From S2P Require Import Prelude Sdk Geth EvmTypes ChainId GasMeter TxTypes Genesis Staking AnteTx Indexer RpcLogs.

(** ** Block numbers *)

Abbreviation BlockNumber := Z.
Definition EthPendingBlockNumber : BlockNumber := -2.
Definition EthLatestBlockNumber : BlockNumber := -1.
Definition EthEarliestBlockNumber : BlockNumber := 0.

Definition BlockParamEarliest : string := "earliest".
Definition BlockParamLatest : string := "latest".
Definition BlockParamFinalized : string := "finalized".
Definition BlockParamSafe : string := "safe".
Definition BlockParamPending : string := "pending".

Definition NewBlockNumber (n : Z) : BlockNumber :=
  if (- 2 ^ 63 <=? n) && (n <=? MaxInt64) then n else EthLatestBlockNumber.

(** [hexutil.DecodeUint64] with the missing prefix apart, and [cast.ToUint64], which gives
    zero for what is not a number. *)
Class NumberText : Type := {
  DecodeUint64 : string -> option (res Z);
  cast_ToUint64 : string -> Z;
  (** [Hash.UnmarshalText] *)
  Hash_UnmarshalText : string -> res Hash
}.

Definition quote : Ascii.ascii := Ascii.ascii_of_N 34.
(** The text without a pair of quotes around it. *)
Definition unquote (l : chars) : chars :=
  match l with
  | c :: (_ :: _) as l' => if decide (c = quote /\ last l' = Some quote) then removelast (tail l) else l
  | _ => l
  end.

Section Numbers.
Context {NT : NumberText}.

Definition BlockNumber_UnmarshalJSON (data : chars) : res BlockNumber :=
  let input := String.string_of_list_ascii (unquote (TrimSpace data)) in
  if decide (input = BlockParamEarliest) then Ok EthEarliestBlockNumber
  else if decide (input = BlockParamLatest \/ input = BlockParamFinalized \/ input = BlockParamSafe) then Ok EthLatestBlockNumber
  else if decide (input = BlockParamPending) then Ok EthPendingBlockNumber
  else
    blckNum ← match DecodeUint64 input with
              | None => Ok (cast_ToUint64 input)
              | Some r => r
              end;
    if MaxInt64 <? blckNum then Err (Errorf "block number larger than int64") else Ok blckNum.

Definition BlockNumber_Int64 (bn : BlockNumber) : Z :=
  if bn <? 0 then 0 else if bn =? 0 then 1 else bn.
Definition CometBftHeight (bn : BlockNumber) : option Z :=
  if bn <? 0 then None else Some (BlockNumber_Int64 bn).

Record BlockNumberOrHash : Type := mkBlockNumberOrHash {
  bnh_BlockNumber : option BlockNumber;
  bnh_BlockHash : option Hash
}.
Definition checkUnmarshal (e : BlockNumberOrHash) : res BlockNumberOrHash :=
  if bool_decide (is_Some (bnh_BlockNumber e)) && bool_decide (is_Some (bnh_BlockHash e))
  then Err (Errorf "cannot specify both BlockHash and BlockNumber, choose one or the other") else Ok e.
Definition decodeFromString (input : string) : res BlockNumberOrHash :=
  let number bn := Ok (mkBlockNumberOrHash (Some bn) None) in
  if decide (input = BlockParamEarliest) then number EthEarliestBlockNumber
  else if decide (input = BlockParamLatest \/ input = BlockParamFinalized) then number EthLatestBlockNumber
  else if decide (input = BlockParamPending) then number EthPendingBlockNumber
  else if decide (length (String.list_ascii_of_string input) = 66%nat) then
    hash ← Hash_UnmarshalText input; Ok (mkBlockNumberOrHash None (Some hash))
  else
    blockNumber ← match DecodeUint64 input with Some r => r | None => Err (Errorf "hex string without 0x prefix") end;
    bnInt ← SafeInt64 blockNumber;
    number bnInt.
(** The JSON is an object with the two fields, a text, or neither. *)
Definition BlockNumberOrHash_UnmarshalJSON (data : BlockNumberOrHash + option string) : res BlockNumberOrHash :=
  match data with
  | inl e => checkUnmarshal e
  | inr (Some input) => decodeFromString input
  | inr None => Err (Errorf "cannot unmarshal")
  end.
End Numbers.

(** ** The node *)

Record CometHeader : Type := mkCometHeader {
  ch_Height : Z;
  ch_Time : Z;
  ch_LastBlockID : bytes;
  ch_ProposerAddress : bytes;
  ch_AppHash : bytes;
  ch_DataHash : bytes;
  (** [header.Hash()] *)
  ch_Hash : bytes
}.
Record ResultBlock : Type := mkResultBlock {
  rb_BlockID : bytes;
  rb_Header : CometHeader;
  rb_Txs : list bytes;
  rb_Size : Z
}.
Definition rb_Height (b : ResultBlock) : Z := ch_Height (rb_Header b).

(** The clients of the node and of the modules; the number is the height of the query. *)
Class Node : Type := {
  node_Block : Z -> res (option ResultBlock);
  node_BlockByHash : Hash -> res (option ResultBlock);
  node_BlockResults : Z -> res ResultBlockResults;
  node_BaseFee : Z -> res Z;
  node_MaxGas : Z -> res Z;
  node_ValidatorAccount : Z -> bytes -> res string;
  node_UnconfirmedTxs : res (list bytes);
  node_TxDecoder : bytes -> res Tx
}.

(** [ethtypes.Sender] with the latest signer for a chain id, or the homestead signer, and
    the roots of go-ethereum's tries. *)
Class RpcGeth : Type := {
  Sender_ForChain : option Z -> Transaction -> res Address;
  RawSignatureValues : Transaction -> Z * Z * Z;
  DeriveSha_Transactions : list Transaction -> Hash;
  DeriveSha_Receipts : list EthReceipt -> Hash;
  EmptyRootHash : Hash;
  EmptyUncleHash : Hash
}.

Record EthHeader : Type := mkEthHeader {
  eh_ParentHash : Hash;
  eh_UncleHash : Hash;
  eh_Coinbase : Address;
  eh_Root : Hash;
  eh_TxHash : Hash;
  eh_ReceiptHash : Hash;
  eh_Bloom : bytes;
  eh_Difficulty : Z;
  eh_Number : Z;
  eh_GasLimit : Z;
  eh_GasUsed : Z;
  eh_Time : Z;
  eh_BaseFee : option Z
}.

Record RPCTransaction : Type := mkRPCTransaction {
  rt_BlockHash : option Hash;
  rt_BlockNumber : option Z;
  rt_From : Address;
  rt_Gas : Z;
  rt_GasPrice : Z;
  rt_GasFeeCap : option Z;
  rt_GasTipCap : option Z;
  rt_Hash : Hash;
  rt_Input : bytes;
  rt_Nonce : Z;
  rt_To : option Address;
  rt_TransactionIndex : option Z;
  rt_Value : Z;
  rt_Type : TxType;
  rt_Accesses : option EthAccessList;
  rt_ChainID : Z;
  rt_Signature : Z * Z * Z
}.

Record RPCReceipt : Type := mkRPCReceipt {
  rr_Status : Z;
  rr_CumulativeGasUsed : Z;
  rr_Bloom : bytes;
  rr_Logs : list EthLog;
  rr_TransactionHash : Hash;
  rr_ContractAddress : option Address;
  rr_GasUsed : Z;
  rr_BlockHash : Hash;
  rr_BlockNumber : Z;
  rr_TransactionIndex : Z;
  rr_Type : TxType;
  rr_From : Address;
  rr_To : option Address;
  rr_EffectiveGasPrice : Z
}.

Inductive TxEntry : Type := EntryHash (h : Hash) | EntryFull (t : RPCTransaction).

(** The map that describes a block; the constant entries are left out. *)
Record RPCBlock : Type := mkRPCBlock {
  blk_number : Z;
  blk_hash : bytes;
  blk_parentHash : Hash;
  blk_logsBloom : bytes;
  blk_stateRoot : bytes;
  blk_miner : Address;
  blk_size : Z;
  blk_gasLimit : Z;
  blk_gasUsed : Z;
  blk_timestamp : Z;
  blk_transactionsRoot : Hash;
  blk_receiptsRoot : Hash;
  blk_transactions : list TxEntry;
  blk_baseFeePerGas : option Z
}.

Section Backend.
Context {G : Geth} {HX : HexText} {B : Bech32} {CT : Codec TxResult} {N : Node} {RG : RpcGeth}.
(** The indexer and the EIP-155 chain id of the backend. *)
Variable kvi : KVIndexer.
Variable chainID : Z.

(** ** rpc/types/utils.go *)

Fixpoint eth_messages (msgs : list Msg) : res (list MsgEthereumTx) :=
  match msgs with
  | [] => Ok []
  | EthMsg m :: msgs' => ms ← eth_messages msgs'; Ok (m :: ms)
  | _ => Err (Errorf "invalid message type")
  end.
Definition RawTxToEthTx (txBz : bytes) : res (list MsgEthereumTx) :=
  tx ← wrap_res (Errorf "failed to decode") (node_TxDecoder txBz); eth_messages (GetMsgs tx).

Definition EthHeaderFromCometBFT (header : CometHeader) (bloom : bytes) (baseFee : option Z) : EthHeader :=
  let txHash := if (length (ch_DataHash header) =? 0)%nat then BytesToHash (ch_DataHash header) else EmptyRootHash in
  mkEthHeader (BytesToHash (ch_LastBlockID header)) EmptyUncleHash (BytesToAddress (ch_ProposerAddress header))
    (BytesToHash (ch_AppHash header)) txHash EmptyRootHash bloom 0 (ch_Height header) 0 0 (wrap64 (ch_Time header)) baseFee.

Definition defaultGasLimit : Z := 2 ^ 32 - 1.
Definition BlockMaxGasFromConsensusParams (blockHeight : Z) : res Z :=
  gasLimit ← node_MaxGas blockHeight;
  Ok (if gasLimit =? -1 then defaultGasLimit else gasLimit).

Definition NewRPCTransaction (tx : Transaction) (blockHash : Hash) (blockNumber index : Z) (baseFee : option Z) : RPCTransaction :=
  let signer := if tx_Protected tx then Some (tx_ChainId tx) else None in
  let from := match Sender_ForChain signer tx with Ok a => a | _ => zero_address end in
  let mined := negb (bool_decide (blockHash = zero_hash)) in
  let located {A} (x : A) : option A := if mined then Some x else None in
  let gasPrice :=
    match tx_Type tx, baseFee with
    | DynamicFeeTxType, Some baseFee => if mined then Z.min (tx_GasTipCap tx + baseFee) (tx_GasFeeCap tx) else tx_GasFeeCap tx
    | DynamicFeeTxType, None => tx_GasFeeCap tx
    | _, _ => tx_GasPrice tx
    end in
  let dynamic {A} (x : A) : option A := match tx_Type tx with DynamicFeeTxType => Some x | _ => None end in
  let typed {A} (x : A) : option A := match tx_Type tx with LegacyTxType => None | _ => Some x end in
  mkRPCTransaction (located blockHash) (located blockNumber) from (tx_Gas tx) gasPrice
    (dynamic (tx_GasFeeCap tx)) (dynamic (tx_GasTipCap tx)) (Transaction_Hash tx) (tx_Data tx) (tx_Nonce tx) (tx_To tx)
    (located index) (tx_Value tx) (tx_Type tx) (typed (tx_AccessList tx)) (default chainID (typed (tx_ChainId tx)))
    (RawSignatureValues tx).
Definition NewTransactionFromMsg (msg : MsgEthereumTx) (blockHash : Hash) (blockNumber index : Z) (baseFee : option Z) :
    res RPCTransaction :=
  tx ← MsgEthereumTx_AsTransaction msg; Ok (NewRPCTransaction tx blockHash blockNumber index baseFee).

Definition NewRPCReceiptFromReceipt (ethMsg : MsgEthereumTx) (ethReceipt : EthReceipt) (effectiveGasPrice : Z) : res RPCReceipt :=
  from ← must_res (AccAddressFromBech32 (msgtx_From ethMsg));
  ethTx ← MsgEthereumTx_AsTransaction ethMsg;
  Ok (mkRPCReceipt (er_Status ethReceipt) (er_CumulativeGasUsed ethReceipt) (er_Bloom ethReceipt) (er_Logs ethReceipt)
        (Transaction_Hash ethTx)
        (if decide (er_ContractAddress ethReceipt = zero_address) then None else Some (er_ContractAddress ethReceipt))
        (er_GasUsed ethReceipt) (er_BlockHash ethReceipt) (wrap64 (er_BlockNumber ethReceipt)) (er_TransactionIndex ethReceipt)
        (er_Type ethReceipt) (BytesToAddress from) (tx_To ethTx) effectiveGasPrice).

Definition FormatBlock (header : CometHeader) (size gasLimit gasUsed : Z) (baseFee : option Z)
    (transactions : list Transaction) (fullTx : bool) (receipts : list EthReceipt) (bloom : bytes) (validatorAddr : Address) : RPCBlock :=
  let transactionsRoot := match transactions with [] => EmptyRootHash | _ => DeriveSha_Transactions transactions end in
  let receiptsRoot := match receipts with [] => EmptyRootHash | _ => DeriveSha_Receipts receipts end in
  let txsList := imap (fun txIndex tx =>
    if fullTx then EntryFull (NewRPCTransaction tx (BytesToHash (ch_Hash header)) (wrap64 (ch_Height header)) (Z.of_nat txIndex) baseFee)
    else EntryHash (Transaction_Hash tx)) transactions in
  mkRPCBlock (wrap64 (ch_Height header)) (ch_Hash header) (BytesToHash (ch_LastBlockID header)) bloom (ch_AppHash header)
    validatorAddr (wrap64 size) (wrap64 gasLimit) gasUsed (wrap64 (ch_Time header)) transactionsRoot receiptsRoot txsList baseFee.

(** ** rpc/backend/blocks.go *)

Definition Backend_BlockNumber : res Z :=
  height ← GetLastRequestIndexedBlock kvi;
  if height <? 1 then Err (Errorf "no block indexed yet") else Ok height.

Definition CometBFTBlockByNumber (blockNum : BlockNumber) : res (option ResultBlock) :=
  let height := BlockNumber_Int64 blockNum in
  height ← (if height <=? 0 then Backend_BlockNumber else Ok height);
  node_Block height.
Definition CometBFTBlockResultByNumber (height : Z) : res ResultBlockResults := node_BlockResults height.
Definition CometBFTBlockByHash (blockHash : Hash) : res (option ResultBlock) := node_BlockByHash blockHash.

Definition BlockNumberFromCometBFTByHash (blockHash : Hash) : res Z :=
  resBlock ← CometBFTBlockByHash blockHash;
  match resBlock with
  | None => Err (Errorf "block not found for hash")
  | Some resBlock => Ok (rb_Height resBlock)
  end.
Definition BlockNumberFromCometBFT (blockNrOrHash : BlockNumberOrHash) : res BlockNumber :=
  match bnh_BlockHash blockNrOrHash, bnh_BlockNumber blockNrOrHash with
  | None, None => Err (Errorf "types BlockHash and BlockNumber cannot be both nil")
  | Some hash, _ => blockNumber ← BlockNumberFromCometBFTByHash hash; Ok (NewBlockNumber blockNumber)
  | None, Some number => Ok number
  end.

Fixpoint eth_msgs (txs : list bytes) (results : list ExecTxResult) : res (list MsgEthereumTx) :=
  match txs with
  | [] => Ok []
  | tx :: txs' =>
      match results with
      | [] => Panic IndexOutOfRange
      | result :: results' =>
          if TxWasDroppedPreAnteHandleDueToBlockGasExcess result then eth_msgs txs' results'
          else match node_TxDecoder tx with
          | Panic e => Panic e
          | Err _ => eth_msgs txs' results'
          | Ok tx =>
              rest ← eth_msgs txs' results';
              Ok (match GetMsgs tx with [EthMsg ethMsg] => ethMsg :: rest | _ => rest end)
          end
      end
  end.
Definition EthMsgsFromCometBFTBlock (resBlock : ResultBlock) (blockRes : ResultBlockResults) : res (list MsgEthereumTx) :=
  eth_msgs (rb_Txs resBlock) (br_TxsResults blockRes).

Definition Backend_BaseFee (blockRes : ResultBlockResults) : res Z := node_BaseFee (br_Height blockRes).

Definition header_of (resBlock : ResultBlock) : res EthHeader :=
  blockRes ← wrap_res (Errorf "block result not found") (CometBFTBlockResultByNumber (rb_Height resBlock));
  bloom ← BlockBloom blockRes;
  baseFee ← wrap_res (Errorf "failed to fetch base fee") (Backend_BaseFee blockRes);
  Ok (EthHeaderFromCometBFT (rb_Header resBlock) bloom (Some baseFee)).
Definition HeaderByNumber (blockNum : BlockNumber) : res EthHeader :=
  resBlock ← CometBFTBlockByNumber blockNum;
  match resBlock with None => Err (Errorf "block not found for height") | Some resBlock => header_of resBlock end.
Definition HeaderByHash (blockHash : Hash) : res EthHeader :=
  resBlock ← CometBFTBlockByHash blockHash;
  match resBlock with None => Err (Errorf "block not found for hash") | Some resBlock => header_of resBlock end.

(** The receipt of a transaction that was aborted for the gas of the block. *)
Definition aborted_receipt (tx : Transaction) (cumulativeGasUsed : Z) (blockHash : Hash) (height index : Z) : EthReceipt :=
  let bloom := CreateBloom [mkReceipt (tx_Type tx) ReceiptStatusFailed cumulativeGasUsed (replicate 256 x00) []] in
  mkEthReceipt (tx_Type tx) ReceiptStatusFailed cumulativeGasUsed bloom [] (Transaction_Hash tx) zero_address (tx_Gas tx)
    blockHash height index.

Definition index_at {A} (l : list A) (i : Z) : res A :=
  match l !! Z.to_nat i with Some x => Ok x | None => Panic IndexOutOfRange end.

Fixpoint block_receipts (blockRes : ResultBlockResults) (blockHash : Hash) (height : Z) (ethMsgs : list MsgEthereumTx)
    (transactions : list Transaction) (receipts : list EthReceipt) : res (list Transaction * list EthReceipt) :=
  match ethMsgs with
  | [] => Ok (transactions, receipts)
  | ethMsg :: ethMsgs' =>
      transaction ← MsgEthereumTx_AsTransaction ethMsg;
      let transactions := transactions ++ [transaction] in
      indexedTxByHash ← GetByTxHash kvi (Transaction_Hash transaction);
      txResult ← index_at (br_TxsResults blockRes) (txr_TxIndex indexedTxByHash);
      if TxWasDroppedPreAnteHandleDueToBlockGasExcess txResult
      then block_receipts blockRes blockHash height ethMsgs' transactions receipts
      else
        icReceipt ← wrap_res (Errorf "failed to parse receipt from events") (TxReceiptFromEvent (result_Events txResult));
        let receipt :=
          match icReceipt with
          | None =>
              let cumulativeGasUsed := foldl (fun sum prev => add64 sum (er_GasUsed prev)) (tx_Gas transaction) receipts in
              aborted_receipt transaction cumulativeGasUsed blockHash height (Z.of_nat (length receipts))
          | Some icReceipt => ic_Receipt (InCompletedEthReceipt_Fill icReceipt blockHash)
          end in
        block_receipts blockRes blockHash height ethMsgs' transactions (receipts ++ [receipt])
  end.

Definition validator_address (height : Z) (proposer : bytes) : res bytes :=
  match node_ValidatorAccount height proposer with
  | Panic e => Panic e
  | Err _ => Ok (farr_bytes zero_address)
  | Ok account => AccAddressFromBech32 account
  end.

Definition RPCBlockFromCometBFTBlock (resBlock : ResultBlock) (blockRes : ResultBlockResults) (fullTx : bool) : res RPCBlock :=
  let height := rb_Height resBlock in
  let blockHash := BytesToHash (rb_BlockID resBlock) in
  validatorAccAddr ← validator_address height (ch_ProposerAddress (rb_Header resBlock));
  let validatorAddr := BytesToAddress validatorAccAddr in
  gasLimit ← wrap_res (Errorf "failed to query consensus params") (BlockMaxGasFromConsensusParams height);
  baseFee ← wrap_res (Errorf "failed to fetch base fee") (Backend_BaseFee blockRes);
  ethMsgs ← EthMsgsFromCometBFTBlock resBlock blockRes;
  '(transactions, receipts) ← block_receipts blockRes blockHash height ethMsgs [] [];
  let blockGasUsed := match last receipts with Some r => er_CumulativeGasUsed r | None => 0 end in
  bloom ← BlockBloom blockRes;
  Ok (FormatBlock (rb_Header resBlock) (rb_Size resBlock) gasLimit blockGasUsed (Some baseFee) transactions fullTx receipts
        bloom validatorAddr).

(** An error of a query is a missing block, one of the conversion is an error. *)
Definition GetBlockByNumber (blockNum : BlockNumber) (fullTx : bool) : res (option RPCBlock) :=
  match CometBFTBlockByNumber blockNum with
  | Panic e => Panic e
  | Err _ | Ok None => Ok None
  | Ok (Some resBlock) =>
      match CometBFTBlockResultByNumber (rb_Height resBlock) with
      | Panic e => Panic e
      | Err _ => Ok None
      | Ok blockRes => Some <$> RPCBlockFromCometBFTBlock resBlock blockRes fullTx
      end
  end.
Definition GetBlockByHash (hash : Hash) (fullTx : bool) : res (option RPCBlock) :=
  resBlock ← CometBFTBlockByHash hash;
  match resBlock with
  | None => Ok None
  | Some resBlock =>
      match CometBFTBlockResultByNumber (rb_Height resBlock) with
      | Panic e => Panic e
      | Err _ => Ok None
      | Ok blockRes => Some <$> RPCBlockFromCometBFTBlock resBlock blockRes fullTx
      end
  end.

Definition GetBlockTransactionCount (block : ResultBlock) : res (option Z) :=
  match CometBFTBlockResultByNumber (rb_Height block) with
  | Panic e => Panic e
  | Err _ => Ok None
  | Ok blockRes => ethMsgs ← EthMsgsFromCometBFTBlock block blockRes; Ok (Some (Z.of_nat (length ethMsgs)))
  end.
Definition GetBlockTransactionCountByHash (hash : Hash) : res (option Z) :=
  match node_BlockByHash hash with
  | Panic e => Panic e
  | Err _ | Ok None => Ok None
  | Ok (Some block) => GetBlockTransactionCount block
  end.
(** A block that is not there is dereferenced. *)
Definition GetBlockTransactionCountByNumber (blockNum : BlockNumber) : res (option Z) :=
  match CometBFTBlockByNumber blockNum with
  | Panic e => Panic e
  | Err _ => Ok None
  | Ok None => Panic NilDereference
  | Ok (Some block) => GetBlockTransactionCount block
  end.

(** ** rpc/backend/tx_info.go *)

(** The index of the transaction, looked for among the messages of the block if the index
    does not have it. *)
Fixpoint find_hash (hash : Hash) (msgs : list MsgEthereumTx) (i : Z) : res Z :=
  match msgs with
  | [] => Ok (-1)
  | msg :: msgs' =>
      tx ← MsgEthereumTx_AsTransaction msg;
      if decide (Transaction_Hash tx = hash) then Ok i else find_hash hash msgs' (i + 1)
  end.
Definition int32 (z : Z) : Z := add32 z 0.

Fixpoint decode_all (txs : list bytes) : res (list Tx) :=
  match txs with
  | [] => Ok []
  | txBz :: txs' => tx ← node_TxDecoder txBz; rest ← decode_all txs'; Ok (tx :: rest)
  end.
Definition PendingTransactions : res (list Tx) := txs ← node_UnconfirmedTxs; decode_all txs.

(** An Ethereum transaction with another hash is not found; other transactions are skipped. *)
Fixpoint pending_by_hash (txHash : Hash) (txs : list Tx) : res (option RPCTransaction) :=
  match txs with
  | [] => Ok None
  | tx :: txs' =>
      match GetMsgs tx with
      | [EthMsg msg] =>
          ethTx ← MsgEthereumTx_AsTransaction msg;
          if decide (Transaction_Hash ethTx = txHash)
          then Some <$> NewTransactionFromMsg msg zero_hash 0 0 None
          else pending_by_hash txHash txs'
      | _ => pending_by_hash txHash txs'
      end
  end.
Definition getTransactionByHashPending (txHash : Hash) : res (option RPCTransaction) :=
  match PendingTransactions with
  | Panic e => Panic e
  | Err _ => Ok None
  | Ok txs => pending_by_hash txHash txs
  end.

Definition first_message (tx : Tx) (e : gerr) : res MsgEthereumTx :=
  match GetMsgs tx with
  | [] => Panic IndexOutOfRange
  | EthMsg msg :: _ => Ok msg
  | _ => Err e
  end.

Definition GetTransactionByHash (txHash : Hash) : res (option RPCTransaction) :=
  match GetByTxHash kvi txHash with
  | Panic e => Panic e
  | Err _ => getTransactionByHashPending txHash
  | Ok r =>
      block ← CometBFTBlockByNumber (txr_Height r);
      block ← match block with Some block => Ok block | None => Panic NilDereference end;
      txBz ← index_at (rb_Txs block) (txr_TxIndex r);
      tx ← node_TxDecoder txBz;
      msg ← first_message tx (Errorf "invalid ethereum tx");
      match CometBFTBlockResultByNumber (rb_Height block) with
      | Panic e => Panic e
      | Err _ => Ok None
      | Ok blockRes =>
          ethTxIndex ← (if txr_EthTxIndex r =? -1
                        then msgs ← EthMsgsFromCometBFTBlock block blockRes;
                             i ← find_hash txHash msgs 0;
                             if 2 ^ 31 - 1 <? i then Err (Errorf "tx index overflow") else Ok i
                        else Ok (txr_EthTxIndex r));
          if ethTxIndex =? -1 then Err (Errorf "can't find index of ethereum tx")
          else
            baseFee ← wrap_res (Errorf "failed to fetch base fee") (Backend_BaseFee blockRes);
            Some <$> NewTransactionFromMsg msg (BytesToHash (rb_BlockID block)) (wrap64 (txr_Height r)) (wrap64 ethTxIndex)
                       (Some baseFee)
      end
  end.

(** The gas of the Ethereum transactions before: what their receipts say, or their limit. *)
Fixpoint previous_gas (txs : list (bytes * ExecTxResult)) (cumulativeGasUsed : Z) : res Z :=
  match txs with
  | [] => Ok cumulativeGasUsed
  | (prevTx, result) :: txs' =>
      match node_TxDecoder prevTx with
      | Panic e => Panic e
      | Err _ => previous_gas txs' cumulativeGasUsed
      | Ok prevCosmosTx =>
          match GetMsgs prevCosmosTx with
          | [EthMsg prevEthMsg] =>
              match TxReceiptFromEvent (result_Events result) with
              | Panic e => Panic e
              | Err _ => previous_gas txs' cumulativeGasUsed
              | Ok None =>
                  prev ← MsgEthereumTx_AsTransaction prevEthMsg;
                  previous_gas txs' (add64 cumulativeGasUsed (tx_Gas prev))
              | Ok (Some prevReceipt) => previous_gas txs' (add64 cumulativeGasUsed (er_GasUsed (ic_Receipt prevReceipt)))
              end
          | _ => previous_gas txs' cumulativeGasUsed
          end
      end
  end.

Definition GetTransactionReceipt (hash : Hash) : res (option RPCReceipt) :=
  match GetByTxHash kvi hash with
  | Panic e => Panic e
  | Err _ => Ok None
  | Ok r =>
      match CometBFTBlockByNumber (txr_Height r) with
      | Panic e => Panic e
      | Err _ => Ok None
      | Ok resBlock =>
          match CometBFTBlockResultByNumber (txr_Height r) with
          | Panic e => Panic e
          | Err _ => Ok None
          | Ok blockRes =>
              resBlock ← match resBlock with Some b => Ok b | None => Panic NilDereference end;
              let blockHash := BytesToHash (rb_BlockID resBlock) in
              ethTxIndex ← (if txr_EthTxIndex r =? -1
                            then msgs ← EthMsgsFromCometBFTBlock resBlock blockRes; i ← find_hash hash msgs 0; Ok (int32 i)
                            else Ok (txr_EthTxIndex r));
              if ethTxIndex =? -1 then Err (Errorf "can't find index of ethereum tx")
              else
                txResult ← index_at (br_TxsResults blockRes) (txr_TxIndex r);
                if TxWasDroppedPreAnteHandleDueToBlockGasExcess txResult then Ok None
                else
                  txBz ← index_at (rb_Txs resBlock) (txr_TxIndex r);
                  cosmosTx ← wrap_res (Errorf "failed to decode tx") (node_TxDecoder txBz);
                  ethMsg ← first_eth cosmosTx;
                  icReceipt ← wrap_res (Errorf "failed to parse receipt from events") (TxReceiptFromEvent (result_Events txResult));
                  match icReceipt with
                  | Some icReceipt =>
                      let icReceipt := InCompletedEthReceipt_Fill icReceipt blockHash in
                      Some <$> NewRPCReceiptFromReceipt ethMsg (ic_Receipt icReceipt) (ic_EffectiveGasPrice icReceipt)
                  | None =>
                      ethTx ← MsgEthereumTx_AsTransaction ethMsg;
                      cumulativeGasUsed ←
                        (if 0 <? ethTxIndex
                         then previous_gas (zip (take (Z.to_nat (txr_TxIndex r)) (rb_Txs resBlock)) (br_TxsResults blockRes)) (tx_Gas ethTx)
                         else Ok (tx_Gas ethTx));
                      let receipt := aborted_receipt ethTx cumulativeGasUsed blockHash (br_Height blockRes) (wrap64 ethTxIndex) in
                      baseFee ← (if decide (tx_Type ethTx = DynamicFeeTxType)
                                 then wrap_res (Errorf "failed to fetch base fee") (Backend_BaseFee blockRes) else Ok 0);
                      Some <$> NewRPCReceiptFromReceipt ethMsg receipt (EthTxEffectiveGasPrice ethTx baseFee)
                  end
          end
      end
  end.

Definition GetTxByTxIndex (height index : Z) : res TxResult := GetByBlockAndIndex kvi height (int32 index).

Definition GetTransactionByBlockAndIndex (block : ResultBlock) (idx : Z) : res (option RPCTransaction) :=
  match CometBFTBlockResultByNumber (rb_Height block) with
  | Panic e => Panic e
  | Err _ => Ok None
  | Ok blockRes =>
      msg ← match GetTxByTxIndex (rb_Height block) idx with
            | Panic e => Panic e
            | Ok r =>
                txBz ← index_at (rb_Txs block) (txr_TxIndex r);
                match node_TxDecoder txBz with
                | Panic e => Panic e
                | Err _ => Ok None
                | Ok tx => match GetMsgs tx with
                           | [] => Panic IndexOutOfRange
                           | EthMsg msg :: _ => Ok (Some msg)
                           | _ => Ok None
                           end
                end
            | Err _ =>
                ethMsgs ← EthMsgsFromCometBFTBlock block blockRes;
                let i := int64_of_uint64 idx in
                if i <? 0 then Panic IndexOutOfRange else Ok (ethMsgs !! Z.to_nat i)
            end;
      match msg with
      | None => Ok None
      | Some msg =>
          baseFee ← wrap_res (Errorf "failed to fetch base fee") (Backend_BaseFee blockRes);
          Some <$> NewTransactionFromMsg msg (BytesToHash (ch_Hash (rb_Header block))) (wrap64 (rb_Height block)) idx (Some baseFee)
      end
  end.
Definition GetTransactionByBlockHashAndIndex (hash : Hash) (idx : Z) : res (option RPCTransaction) :=
  match node_BlockByHash hash with
  | Panic e => Panic e
  | Err _ | Ok None => Ok None
  | Ok (Some block) => GetTransactionByBlockAndIndex block idx
  end.
Definition GetTransactionByBlockNumberAndIndex (blockNum : BlockNumber) (idx : Z) : res (option RPCTransaction) :=
  match CometBFTBlockByNumber blockNum with
  | Panic e => Panic e
  | Err _ => Ok None
  | Ok None => Panic NilDereference
  | Ok (Some block) => GetTransactionByBlockAndIndex block idx
  end.
End Backend.

(** ** The receipts of a block *)

Section Receipts.
Context {G : Geth} {HX : HexText} {B : Bech32} {CT : Codec TxResult} {N : Node} {RG : RpcGeth}.
Variable kvi : KVIndexer.
Variable chainID : Z.

(** The Ethereum message at a position of a block. *)
Definition eth_message (tx : bytes) : option MsgEthereumTx :=
  match node_TxDecoder tx with
  | Ok t => match GetMsgs t with [EthMsg m] => Some m | _ => None end
  | _ => None
  end.
Definition eth_at (x : bytes * ExecTxResult) : option MsgEthereumTx :=
  if TxWasDroppedPreAnteHandleDueToBlockGasExcess x.2 then None else eth_message x.1.
(** The number of Ethereum transactions in a list. *)
Definition eth_count (l : list (bytes * ExecTxResult)) : nat := length (omap eth_at l).

Lemma eth_msgs_omap txs results msgs : eth_msgs txs results = Ok msgs -> msgs = omap eth_at (zip txs results).
Proof.
  revert results msgs. induction txs as [|tx txs IH]; intros [|r results] msgs; simpl; try (by intros [= <-]).
  unfold eth_at at 1, eth_message. cbn [fst snd]. destruct (TxWasDroppedPreAnteHandleDueToBlockGasExcess r); [apply IH|].
  destruct (node_TxDecoder tx) as [t|e|e]; [|apply IH|done].
  unfold mbind, res_bind. destruct (eth_msgs txs results) as [rest|e|e] eqn:E; [|done|done]. intros [= <-].
  apply IH in E as ->. by destruct (GetMsgs t) as [|[] []].
Qed.

(** What the transaction of a position used, for the sum of those before another. *)
Definition gas_at (x : bytes * ExecTxResult) : option Z :=
  m ← eth_at x;
  match TxReceiptFromEvent (result_Events x.2), MsgEthereumTx_AsTransaction m with
  | Ok (Some ic), _ => Some (er_GasUsed (ic_Receipt ic))
  | Ok None, Ok t => Some (tx_Gas t)
  | _, _ => None
  end.
Definition gas_before (start : Z) (l : list (bytes * ExecTxResult)) : Z := foldl add64 start (omap gas_at l).

Variable resBlock : ResultBlock.
Variable blockRes : ResultBlockResults.
Abbreviation xs := (zip (rb_Txs resBlock) (br_TxsResults blockRes)).
Abbreviation blockHash := (BytesToHash (rb_BlockID resBlock)).
Abbreviation height := (rb_Height resBlock).

(** The index has the transactions of the block at their positions. *)
Definition indexed : Prop := forall p x m t,
  xs !! p = Some x -> eth_at x = Some m -> MsgEthereumTx_AsTransaction m = Ok t ->
  exists failed, GetByTxHash kvi (Transaction_Hash t) = Ok (mkTxResult height (Z.of_nat p) (Z.of_nat (eth_count (take p xs))) failed).

(** The receipt of the transaction at position [p]. *)
Definition receipt_at (p : nat) (x : bytes * ExecTxResult) (t : Transaction) (r : EthReceipt) : Prop :=
  exists ic, TxReceiptFromEvent (result_Events x.2) = Ok ic /\
    r = match ic with
        | Some ic => ic_Receipt (InCompletedEthReceipt_Fill ic blockHash)
        | None => aborted_receipt t (gas_before (tx_Gas t) (take p xs)) blockHash height (Z.of_nat (eth_count (take p xs)))
        end.

(** Among the receipts of the block it is at the index of the transaction. *)
Definition listed_at (rs : list EthReceipt) (p : nat) (x : bytes * ExecTxResult) (m : MsgEthereumTx) : Prop :=
  exists t r, MsgEthereumTx_AsTransaction m = Ok t /\ rs !! eth_count (take p xs) = Some r /\ receipt_at p x t r /\ is_Some (gas_at x).

Lemma zip_result p x : xs !! p = Some x -> br_TxsResults blockRes !! p = Some x.2 /\ rb_Txs resBlock !! p = Some x.1.
Proof. rewrite lookup_zip_with. intros (tx & -> & (r & -> & [= <-])%bind_Some)%bind_Some. done. Qed.
Lemma index_at_nat {A} (l : list A) (p : nat) x : l !! p = Some x -> index_at l (Z.of_nat p) = Ok x.
Proof. intros H. unfold index_at. by rewrite Nat2Z.id, H. Qed.

Lemma foldl_gas (receipts : list EthReceipt) s :
  foldl (fun sum prev => add64 sum (er_GasUsed prev)) s receipts = foldl add64 s (map er_GasUsed receipts).
Proof. revert s. induction receipts as [|r receipts IH]; intros s; simpl; [done|]. apply IH. Qed.

Lemma block_receipts_spec (Hidx : indexed) pre suf txs0 acc txs' rs' :
  xs = pre ++ suf -> length acc = eth_count pre -> map er_GasUsed acc = omap gas_at pre ->
  block_receipts kvi blockRes blockHash height (omap eth_at suf) txs0 acc = Ok (txs', rs') ->
  (exists rs, rs' = acc ++ rs) /\
  forall i x m, suf !! i = Some x -> eth_at x = Some m -> listed_at rs' (length pre + i) x m.
Proof.
  revert pre txs0 acc. induction suf as [|x suf IH]; intros pre txs0 acc Exs Hlen Hgas.
  { simpl. intros [= <- <-]. split; [exists []; by rewrite app_nil_r|]. by intros i x m. }
  assert (xs = (pre ++ [x]) ++ suf) as Exs' by (by rewrite <- app_assoc).
  assert (xs !! length pre = Some x) as Hx by (rewrite Exs; by apply list_lookup_middle).
  assert (take (length pre) xs = pre) as Htake by (rewrite Exs; apply take_app_length).
  assert (forall rs, (forall i y m, suf !! i = Some y -> eth_at y = Some m -> listed_at rs (length (pre ++ [x]) + i) y m) ->
    forall i y m, (x :: suf) !! S i = Some y -> eth_at y = Some m -> listed_at rs (length pre + S i) y m) as Hshift.
  { intros rs H i y m Hi Hm. specialize (H i y m Hi Hm). rewrite length_app in H. simpl in H.
    by replace (length pre + 1 + i)%nat with (length pre + S i)%nat in H by lia. }
  destruct (eth_at x) as [m|] eqn:Em; simpl; rewrite Em.
  2:{ intros E. destruct (IH (pre ++ [x]) txs0 acc) as [Happ HIH]; [exact Exs'| | |exact E|].
      - rewrite Hlen. unfold eth_count. rewrite omap_app. simpl. by rewrite Em, app_nil_r.
      - rewrite Hgas, omap_app. simpl. unfold gas_at at 3. rewrite Em. cbn. by rewrite app_nil_r.
      - split; [done|]. intros [|i] y my Hy Hmy; [simpl in Hy; congruence|]. by eapply Hshift. }
  cbn [block_receipts]. unfold mbind, res_bind. destruct (MsgEthereumTx_AsTransaction m) as [t|e|e] eqn:Et; [|done|done].
  destruct (Hidx _ _ _ _ Hx Em Et) as [failed ->]. cbn [txr_TxIndex].
  rewrite (index_at_nat _ _ _ (proj1 (zip_result _ _ Hx))).
  assert (TxWasDroppedPreAnteHandleDueToBlockGasExcess x.2 = false) as ->.
  { unfold eth_at in Em. by destruct (TxWasDroppedPreAnteHandleDueToBlockGasExcess x.2). }
  destruct (TxReceiptFromEvent (result_Events x.2)) as [ic|e|e] eqn:Eic; cbn [wrap_res]; [|done|done].
  set (r := match ic with Some _ => _ | None => _ end).
  assert (gas_at x = Some (er_GasUsed r)) as Hg.
  { unfold gas_at. rewrite Em. cbn. rewrite Eic, Et. by destruct ic. }
  intros E. destruct (IH (pre ++ [x]) (txs0 ++ [t]) (acc ++ [r])) as [[rs ->] HIH]; [exact Exs'| | |exact E|].
  { rewrite length_app, Hlen. unfold eth_count. rewrite omap_app, length_app. simpl. by rewrite Em. }
  { rewrite map_app, omap_app, Hgas. simpl. by rewrite Hg. }
  split; [exists ([r] ++ rs); by rewrite app_assoc|]. intros [|i] y my Hy Hmy; [|by eapply Hshift].
  simpl in Hy. injection Hy as <-. rewrite Em in Hmy. injection Hmy as <-. rewrite Nat.add_0_r. exists t, r. rewrite Htake.
  split_and!; [done| | |by rewrite Hg].
  - rewrite <- Hlen, <- app_assoc. by apply list_lookup_middle.
  - exists ic. split; [done|]. subst r. destruct ic as [ic|]; [done|]. by rewrite foldl_gas, Hgas, Hlen, Htake.
Qed.

(** The decoder returns errors. *)
Definition decoder_returns : Prop := forall b e, node_TxDecoder b <> Panic e.
(** The block dropped no Ethereum transaction of a list before the ante handler. *)
Definition none_dropped (l : list (bytes * ExecTxResult)) : Prop := forall x,
  x ∈ l -> is_Some (eth_message x.1) -> TxWasDroppedPreAnteHandleDueToBlockGasExcess x.2 = false.
(** What the query for one receipt counts: also the gas limit of dropped transactions. *)
Definition counted_at (x : bytes * ExecTxResult) : option Z :=
  m ← eth_message x.1;
  match TxReceiptFromEvent (result_Events x.2), MsgEthereumTx_AsTransaction m with
  | Ok (Some ic), _ => Some (er_GasUsed (ic_Receipt ic))
  | Ok None, Ok t => Some (tx_Gas t)
  | _, _ => None
  end.
Definition counted_before (start : Z) (l : list (bytes * ExecTxResult)) : Z := foldl add64 start (omap counted_at l).

Lemma counted_gas x : none_dropped [x] -> counted_at x = gas_at x.
Proof.
  intros Hd. unfold counted_at, gas_at, eth_at. destruct (eth_message x.1) eqn:Em.
  - by rewrite (Hd x) by (left || by rewrite Em).
  - by destruct (TxWasDroppedPreAnteHandleDueToBlockGasExcess x.2).
Qed.
Lemma counted_gas_before c l : none_dropped l -> counted_before c l = gas_before c l.
Proof.
  intros Hd. unfold counted_before, gas_before. f_equal. induction l as [|x l IH]; [done|]. simpl.
  specialize (IH (fun y Hy => Hd y (list_elem_of_further _ _ _ Hy))).
  rewrite counted_gas by (intros y ->%list_elem_of_singleton; apply Hd; left). destruct (gas_at x); [f_equal|]; exact IH.
Qed.

Lemma previous_gas_sum l c c' : previous_gas l c = Ok c' -> c' = counted_before c l.
Proof.
  revert c. induction l as [|[tx r] l IH]; intros c; cbn [previous_gas]; [by intros [= <-]|].
  unfold counted_before, counted_at, eth_message. simpl. destruct (node_TxDecoder tx) as [t|e|e]; [|apply IH|done].
  destruct (GetMsgs t) as [|[m| | | | |] [|m' ms]]; try apply IH. simpl.
  destruct (TxReceiptFromEvent (result_Events r)) as [[ic|]|e|e]; [apply IH| |apply IH|done].
  destruct (MsgEthereumTx_AsTransaction m) as [prev|e|e]; [apply IH|done|done].
Qed.
Lemma previous_gas_total l c : decoder_returns -> (forall x m, x ∈ l -> eth_message x.1 = Some m -> is_Some (counted_at x)) ->
  exists c', previous_gas l c = Ok c'.
Proof.
  intros Hdec. revert c. induction l as [|[tx r] l IH]; intros c Hgas; [by eexists|].
  assert (forall c', exists c'', previous_gas l c' = Ok c'') as IH' by (intros c'; apply IH; intros x m Hx; apply Hgas; by right).
  specialize (Hgas (tx, r)). cbn [previous_gas]. unfold counted_at, eth_message in Hgas. cbn [fst snd] in Hgas.
  destruct (node_TxDecoder tx) as [t|e|e] eqn:Et; [|apply IH'|by apply Hdec in Et].
  destruct (GetMsgs t) as [|[m| | | | |] [|m' ms]]; try apply IH'. destruct (Hgas m) as [g Hg]; [left|done|]. revert Hg. simpl.
  destruct (TxReceiptFromEvent (result_Events r)) as [[ic|]|e|e]; [| |done|done]; [intros _; apply IH'|].
  destruct (MsgEthereumTx_AsTransaction m) as [prev|e|e]; [intros _; apply IH'|done|done].
Qed.

(** The node has the block and its results under its height. *)
Definition stored : Prop :=
  1 <= height /\ node_Block height = Ok (Some resBlock) /\ node_BlockResults height = Ok blockRes /\ br_Height blockRes = height.

Lemma block_by_number : stored -> CometBFTBlockByNumber kvi height = Ok (Some resBlock).
Proof.
  intros (Hh & Hb & _). unfold CometBFTBlockByNumber, BlockNumber_Int64.
  destruct (Z.ltb_spec height 0); [lia|]. destruct (Z.eqb_spec height 0); [lia|].
  destruct (Z.leb_spec height 0); [lia|]. exact Hb.
Qed.

(** What serving a block has computed. *)
Lemma served_inv full blk : RPCBlockFromCometBFTBlock kvi chainID resBlock blockRes full = Ok blk ->
  exists baseFee transactions receipts, Backend_BaseFee blockRes = Ok baseFee /\
    eth_msgs (rb_Txs resBlock) (br_TxsResults blockRes) = Ok (omap eth_at xs) /\
    block_receipts kvi blockRes blockHash height (omap eth_at xs) [] [] = Ok (transactions, receipts) /\
    blk_receiptsRoot blk = (match receipts with [] => EmptyRootHash | _ => DeriveSha_Receipts receipts end) /\
    blk_gasUsed blk = (match last receipts with Some r => er_CumulativeGasUsed r | None => 0 end) /\
    blk_transactions blk = imap (fun i tx =>
      if full then EntryFull (NewRPCTransaction chainID tx (BytesToHash (ch_Hash (rb_Header resBlock))) (wrap64 height) (Z.of_nat i) (Some baseFee))
      else EntryHash (Transaction_Hash tx)) transactions.
Proof.
  unfold RPCBlockFromCometBFTBlock, mbind, res_bind. destruct (validator_address _ _) as [v|e|e]; [|done|done].
  destruct (BlockMaxGasFromConsensusParams _) as [g|e|e]; cbn [wrap_res]; [|done|done].
  destruct (Backend_BaseFee blockRes) as [baseFee|e|e]; cbn [wrap_res]; [|done|done].
  unfold EthMsgsFromCometBFTBlock. destruct (eth_msgs _ _) as [msgs|e|e] eqn:Em; [|done|done].
  pose proof (eth_msgs_omap _ _ _ Em) as ->.
  destruct (block_receipts _ _ _ _ _ _ _) as [[txs rs]|e|e] eqn:Er; [|done|done].
  destruct (BlockBloom blockRes) as [bloom|e|e]; [|done|done]. intros [= <-]. by exists baseFee, txs, rs.
Qed.

Lemma eth_count_le l : (eth_count l <= length l)%nat.
Proof.
  induction l as [|x l IH]; [done|].
  change (eth_count (x :: l)) with (length (match eth_at x with Some y => y :: omap eth_at l | None => omap eth_at l end)).
  fold (eth_count l) in IH. unfold eth_count in IH. destruct (eth_at x); simpl; lia.
Qed.

Lemma gas_before_none c l : eth_count l = 0%nat -> gas_before c l = c.
Proof.
  unfold eth_count, gas_before. induction l as [|x l IH]; [done|]. simpl. unfold gas_at at 1.
  destruct (eth_at x); [done|]. exact IH.
Qed.
Lemma zip_take {A C} p (l : list A) (k : list C) : take p (zip l k) = zip (take p l) k.
Proof. revert l k. induction p as [|p IH]; intros [|a l] [|b k]; simpl; try done. by rewrite IH. Qed.

Lemma eth_at_message x m : eth_at x = Some m -> TxWasDroppedPreAnteHandleDueToBlockGasExcess x.2 = false /\
  exists t, node_TxDecoder x.1 = Ok t /\ GetMsgs t = [EthMsg m].
Proof.
  unfold eth_at, eth_message. destruct (TxWasDroppedPreAnteHandleDueToBlockGasExcess x.2); [done|].
  destruct (node_TxDecoder x.1) as [t|e|e]; [|done|done]. intros H. split; [done|]. exists t. split; [done|].
  destruct (GetMsgs t) as [|[] []]; by simplify_eq.
Qed.

(** Whether a transaction was executed: it has a receipt of its own. *)
Definition was_executed (x : bytes * ExecTxResult) : Prop := exists ic, TxReceiptFromEvent (result_Events x.2) = Ok (Some ic).

(** What the query computes for the transaction at a position of the block. *)
Lemma receipt_of_query p x m t ic failed baseFee : stored -> decoder_returns -> xs !! p = Some x -> eth_at x = Some m ->
  MsgEthereumTx_AsTransaction m = Ok t -> Backend_BaseFee blockRes = Ok baseFee ->
  Z.of_nat (length (rb_Txs resBlock)) <= MaxInt64 ->
  GetByTxHash kvi (Transaction_Hash t) = Ok (mkTxResult height (Z.of_nat p) (Z.of_nat (eth_count (take p xs))) failed) ->
  TxReceiptFromEvent (result_Events x.2) = Ok ic ->
  GetTransactionReceipt kvi (Transaction_Hash t) =
    match ic with
    | Some ic => Some <$> NewRPCReceiptFromReceipt m (ic_Receipt (InCompletedEthReceipt_Fill ic blockHash))
        (ic_EffectiveGasPrice (InCompletedEthReceipt_Fill ic blockHash))
    | None =>
        cumulative ← (if (eth_count (take p xs) =? 0)%nat then Ok (tx_Gas t) else previous_gas (take p xs) (tx_Gas t));
        Some <$> NewRPCReceiptFromReceipt m (aborted_receipt t cumulative blockHash height (Z.of_nat (eth_count (take p xs))))
          (EthTxEffectiveGasPrice t (if decide (tx_Type t = DynamicFeeTxType) then baseFee else 0))
    end.
Proof.
  intros Hstored Hdec Hx Hm Et Hbase Hcount Hi Eic. destruct (eth_at_message _ _ Hm) as (Hnd & tx & Etx & Emsgs).
  destruct (zip_result _ _ Hx) as [Hresult Htx].
  pose proof (eth_count_le (take p xs)) as Hle. rewrite length_take in Hle. apply lookup_lt_Some in Htx as Hlt.
  unfold GetTransactionReceipt. rewrite Hi. cbn [txr_Height txr_TxIndex txr_EthTxIndex].
  rewrite block_by_number by done. destruct Hstored as (Hh & _ & Hres & Hbr). unfold CometBFTBlockResultByNumber. rewrite Hres.
  unfold mbind, res_bind. destruct (Z.eqb_spec (Z.of_nat (eth_count (take p xs))) (-1)); [lia|].
  rewrite (proj2 (Z.eqb_neq _ _)) by lia. rewrite (index_at_nat _ _ _ Hresult), Hnd, (index_at_nat _ _ _ Htx), Etx.
  cbn [wrap_res]. unfold first_eth. rewrite Emsgs, Eic. cbn [wrap_res]. destruct ic as [ic|]; [done|]. rewrite Et.
  rewrite wrap64_id by (unfold is_u64, MaxUint64, MaxInt64 in *; lia). rewrite Hbr, Hbase, Nat2Z.id, <- zip_take.
  assert ((0 <? Z.of_nat (eth_count (take p xs))) = negb (eth_count (take p xs) =? 0)%nat) as ->.
  { destruct (Z.ltb_spec 0 (Z.of_nat (eth_count (take p xs)))), (Nat.eqb_spec (eth_count (take p xs)) 0); (done || lia). }
  destruct (eth_count (take p xs) =? 0)%nat; cbn [negb]; [by case_decide|]. destruct (previous_gas _ _); [by case_decide|done|done].
Qed.

(** C35 Receipts are the same from both sides: for a block that is stored, indexed and
    served, the receipt that eth_getTransactionReceipt answers for the transaction at an
    index is the receipt at that index of the list whose root and gas the block shows, if
    the transaction was executed, and also if it was aborted and its receipt is made up,
    provided the block dropped no Ethereum transaction before it: status, cumulative gas,
    logs, index and block agree.  With such a dropped transaction both sides still make up
    the same receipt but for the cumulative gas: the query for one receipt counts what was
    dropped, the block does not, unless the transaction is the first Ethereum transaction
    of the block. *)
Theorem receipts_agree (full : bool) (blk : RPCBlock)
    (Hdec : decoder_returns) (Hstored : stored) (Hidx : indexed)
    (Hcount : Z.of_nat (length (rb_Txs resBlock)) <= MaxInt64)
    (Hserved : RPCBlockFromCometBFTBlock kvi chainID resBlock blockRes full = Ok blk) :
  exists receipts, 
    blk_receiptsRoot blk = (match receipts with [] => EmptyRootHash | _ => DeriveSha_Receipts receipts end) /\
    blk_gasUsed blk = (match last receipts with Some r => er_CumulativeGasUsed r | None => 0 end) /\
    forall p x m, xs !! p = Some x -> eth_at x = Some m ->
      exists t r price, MsgEthereumTx_AsTransaction m = Ok t /\ receipts !! eth_count (take p xs) = Some r /\
        (was_executed x \/ none_dropped (take p xs) \/ eth_count (take p xs) = 0%nat ->
           GetTransactionReceipt kvi (Transaction_Hash t) = Some <$> NewRPCReceiptFromReceipt m r price) /\
        (~ was_executed x -> forall answer, GetTransactionReceipt kvi (Transaction_Hash t) = Ok answer ->
           let made_up gas := aborted_receipt t gas blockHash height (Z.of_nat (eth_count (take p xs))) in
           r = made_up (gas_before (tx_Gas t) (take p xs)) /\
           exists gas, (gas = gas_before (tx_Gas t) (take p xs) \/ gas = counted_before (tx_Gas t) (take p xs)) /\
             Some <$> NewRPCReceiptFromReceipt m (made_up gas) price = Ok answer).
Proof.
  destruct (served_inv _ _ Hserved) as (baseFee & txs & receipts & Hbase & _ & Hr & Hroot & Hgas & _).
  exists receipts. split_and!; [done|done|]. intros p x m Hx Hm.
  destruct (block_receipts_spec Hidx [] xs [] [] txs receipts) as [_ Hall]; [done|done|done|exact Hr|].
  destruct (Hall p x m Hx Hm) as (t & r & Et & Hk & (ic & Eic & ->) & _). clear Hr Hroot Hgas.
  destruct (Hidx _ _ _ _ Hx Hm Et) as [failed Hi].
  pose proof (receipt_of_query p x m t ic failed baseFee Hstored Hdec Hx Hm Et Hbase Hcount Hi Eic) as Hget.
  destruct ic as [ic|]; eexists t, _, _; (split_and!; [done|exact Hk|..]).
  - intros _. exact Hget.
  - intros Hno. destruct Hno. by exists ic.
  - intros [[ic Hic]|Hcase]; [congruence|]. rewrite Hget. destruct (Nat.eqb_spec (eth_count (take p xs)) 0) as [H0|H0].
    { by rewrite gas_before_none. }
    destruct Hcase as [Hnone|]; [|done]. destruct (previous_gas_total (take p xs) (tx_Gas t) Hdec) as [c Hc].
    { intros y my Hy Hmy. rewrite counted_gas by (intros z ->%list_elem_of_singleton; by apply Hnone).
      assert (exists q, xs !! q = Some y) as [q Hq].
      { apply list_elem_of_lookup in Hy as [q Hq]. rewrite lookup_take in Hq. case_decide; [by eauto|done]. }
      destruct (Hall q y my Hq) as (_ & _ & _ & _ & _ & ?); [|done]. unfold eth_at. by rewrite Hnone by (done || by rewrite Hmy). }
    rewrite Hc. apply previous_gas_sum in Hc as ->. by rewrite counted_gas_before.
  - intros _ answer Hanswer. cbv zeta. split; [done|]. rewrite Hget in Hanswer.
    destruct (Nat.eqb_spec (eth_count (take p xs)) 0) as [H0|H0]; apply res_bind_ok_inv in Hanswer as (gas & Hg & Hanswer); exists gas.
    + injection Hg as <-. rewrite gas_before_none by done. auto.
    + apply previous_gas_sum in Hg. auto.
Qed.

(** ** The transactions of a block *)

Lemma block_transactions bh h msgs txs0 acc txs' rs' : block_receipts kvi blockRes bh h msgs txs0 acc = Ok (txs', rs') ->
  exists ts, txs' = txs0 ++ ts /\ Forall2 (fun m t => MsgEthereumTx_AsTransaction m = Ok t) msgs ts.
Proof.
  revert txs0 acc. induction msgs as [|m msgs IH]; intros txs0 acc; simpl.
  { intros [= <- _]. exists []. split; [by rewrite app_nil_r|constructor]. }
  unfold mbind, res_bind. destruct (MsgEthereumTx_AsTransaction m) as [t|e|e] eqn:Et; [|done|done].
  assert (forall acc', block_receipts kvi blockRes bh h msgs (txs0 ++ [t]) acc' = Ok (txs', rs') ->
    exists ts, txs' = txs0 ++ ts /\ Forall2 (fun m t => MsgEthereumTx_AsTransaction m = Ok t) (m :: msgs) ts) as Hnext.
  { intros acc' (ts & -> & Hts)%IH. exists (t :: ts). split; [by rewrite <- app_assoc|by constructor]. }
  destruct (GetByTxHash kvi _) as [r|e|e]; [|done|done]. destruct (index_at _ _) as [result|e|e]; [|done|done].
  destruct (TxWasDroppedPreAnteHandleDueToBlockGasExcess result); [apply Hnext|].
  destruct (wrap_res _ _) as [ic|e|e]; [apply Hnext|done|done].
Qed.
Lemma omap_eth_at (l : list (bytes * ExecTxResult)) p x m : l !! p = Some x -> eth_at x = Some m -> omap eth_at l !! eth_count (take p l) = Some m.
Proof.
  intros Hx Hm. assert (omap eth_at l = omap eth_at (take p l) ++ m :: omap eth_at (drop (S p) l)) as ->.
  { rewrite <- (take_drop_middle _ _ _ Hx) at 1. rewrite omap_app. simpl. by rewrite Hm. }
  by apply list_lookup_middle.
Qed.

(** The index by position has the entry of the transaction, or none. *)
Definition index_consistent : Prop := forall p x m t,
  xs !! p = Some x -> eth_at x = Some m -> MsgEthereumTx_AsTransaction m = Ok t ->
  match GetByBlockAndIndex kvi height (Z.of_nat (eth_count (take p xs))) with
  | Ok r => GetByTxHash kvi (Transaction_Hash t) = Ok r
  | Err _ => True
  | Panic _ => False
  end.

Lemma int32_nat n : Z.of_nat n < 2 ^ 31 -> int32 (Z.of_nat n) = Z.of_nat n.
Proof. intros H. unfold int32, add32. rewrite Z.mod_small by lia. lia. Qed.

(** A transaction is the same wherever it is asked for: in a block that is stored,
    indexed and served with full transactions, the transaction at an index of the block is
    what eth_getTransactionByHash answers for its hash and what
    eth_getTransactionByBlockNumberAndIndex answers for its index, with the same block,
    index, sender and effective price, and the block counts exactly these transactions. *)
Theorem transactions_agree (blk : RPCBlock)
    (Hstored : stored) (Hidx : indexed) (Hcons : index_consistent)
    (Hhash : rb_BlockID resBlock = ch_Hash (rb_Header resBlock))
    (Hcount : Z.of_nat (length (rb_Txs resBlock)) < 2 ^ 31)
    (Hheight : height <= MaxInt64)
    (Hserved : RPCBlockFromCometBFTBlock kvi chainID resBlock blockRes true = Ok blk) :
  GetBlockTransactionCountByNumber kvi height = Ok (Some (Z.of_nat (length (blk_transactions blk)))) /\
  forall p x m, xs !! p = Some x -> eth_at x = Some m ->
    exists t rpcTx, MsgEthereumTx_AsTransaction m = Ok t /\
      blk_transactions blk !! eth_count (take p xs) = Some (EntryFull rpcTx) /\
      rt_Hash rpcTx = Transaction_Hash t /\
      GetTransactionByHash kvi chainID (Transaction_Hash t) = Ok (Some rpcTx) /\
      GetTransactionByBlockNumberAndIndex kvi chainID height (Z.of_nat (eth_count (take p xs))) = Ok (Some rpcTx).
Proof.
  destruct (served_inv _ _ Hserved) as (baseFee & txs & receipts & Hbase & Hmsgs & Hr & _ & _ & Htxs).
  apply block_transactions in Hr as (ts & -> & Hts). cbn [app] in Htxs. pose proof (block_by_number Hstored) as Hbn.
  pose proof Hstored as (Hh & _ & Hres & Hbr). split.
  { unfold GetBlockTransactionCountByNumber. rewrite Hbn. unfold GetBlockTransactionCount, CometBFTBlockResultByNumber.
    rewrite Hres. unfold EthMsgsFromCometBFTBlock. rewrite Hmsgs. cbn. rewrite Htxs, length_imap.
    by rewrite (Forall2_length _ _ _ Hts). }
  intros p x m Hx Hm. pose proof (omap_eth_at _ _ _ _ Hx Hm) as Hk.
  destruct (Forall2_lookup_l _ _ _ _ _ Hts Hk) as (t & Ht & Et). destruct (Hidx _ _ _ _ Hx Hm Et) as [failed Hi].
  destruct (eth_at_message _ _ Hm) as (Hnd & tx & Etx & Emsgs). destruct (zip_result _ _ Hx) as [Hresult Htx].
  pose proof (eth_count_le (take p xs)) as Hle. rewrite length_take in Hle. apply lookup_lt_Some in Htx as Hlt.
  set (k := eth_count (take p xs)) in *.
  set (rpcTx := NewRPCTransaction chainID t (BytesToHash (ch_Hash (rb_Header resBlock))) (wrap64 height) (Z.of_nat k) (Some baseFee)).
  exists t, rpcTx. split_and!; [done|by rewrite Htxs, list_lookup_imap, Ht|done| |].
  - unfold GetTransactionByHash. rewrite Hi. cbn [txr_Height txr_TxIndex txr_EthTxIndex]. rewrite Hbn. unfold mbind, res_bind.
    rewrite (index_at_nat _ _ _ Htx), Etx. unfold first_message. rewrite Emsgs. unfold CometBFTBlockResultByNumber. rewrite Hres.
    destruct (Z.eqb_spec (Z.of_nat k) (-1)); [lia|]. rewrite (proj2 (Z.eqb_neq _ _)) by lia. rewrite Hbase. cbn [wrap_res].
    unfold NewTransactionFromMsg, mbind, res_bind. rewrite Et. cbn. rewrite Hhash.
    rewrite (wrap64_id (Z.of_nat k)) by (unfold is_u64, MaxUint64; lia). done.
  - unfold GetTransactionByBlockNumberAndIndex. rewrite Hbn. unfold GetTransactionByBlockAndIndex, CometBFTBlockResultByNumber.
    rewrite Hres. unfold GetTxByTxIndex. rewrite int32_nat by lia. specialize (Hcons _ _ _ _ Hx Hm Et). fold k in Hcons.
    assert (forall msg, msg = Some m -> match msg with
      | None => Ok None
      | Some msg => baseFee ← wrap_res (Errorf "failed to fetch base fee") (Backend_BaseFee blockRes);
          Some <$> NewTransactionFromMsg chainID msg (BytesToHash (ch_Hash (rb_Header resBlock))) (wrap64 height) (Z.of_nat k) (Some baseFee)
      end = Ok (Some rpcTx)) as Hend.
    { intros _ ->. rewrite Hbase. cbn. unfold NewTransactionFromMsg, mbind, res_bind. by rewrite Et. }
    destruct (GetByBlockAndIndex kvi height (Z.of_nat k)) as [r|e|e]; [| |done].
    + rewrite Hi in Hcons. injection Hcons as <-. cbn [txr_TxIndex]. unfold mbind, res_bind.
      rewrite (index_at_nat _ _ _ Htx), Etx, Emsgs. exact (Hend _ eq_refl).
    + unfold EthMsgsFromCometBFTBlock. rewrite Hmsgs. unfold mbind, res_bind. unfold int64_of_uint64.
      destruct (Z.leb_spec (Z.of_nat k) MaxInt64) as [_|Hbig]; [|unfold MaxInt64 in Hbig; lia].
      destruct (Z.ltb_spec (Z.of_nat k) 0); [lia|]. rewrite Nat2Z.id. rewrite Hk; exact (Hend _ eq_refl).
Qed.
End Receipts.
