(* ===== verification/Notifier.v ===== *)
(** * Subscriptions over the notifier of an RPC connection

    NewPendingTransactions, NewHeads and Logs of
    rpc/namespaces/ethereum/eth/filters/api.go: a subscription at the event system and a
    goroutine that sends what the events hold to the client, until the channel of the
    events, the subscription or the connection is closed.  A step of the goroutine is one
    of these arrivals; the error of a notification is ignored by the code. *)

From stdpp Require Import base gmap list strings.
From S2P Require Import Prelude Sdk Geth EvmTypes TxTypes Genesis Staking AnteTx Indexer RpcLogs FilterSystem RpcBlocks.

(** An event of the node: whether it has the key of Ethereum messages, and its data, which
    may be a whole block with the events of its end. *)
Inductive NotifyData : Type :=
  | NewBlockData (header : CometHeader) (finalizeEvents : list SdkEvent)
  | PlainData (ev : EventData).
Record ResultEvent : Type := mkResultEvent {
  re_isMsgEthereumTx : bool;
  re_Data : NotifyData
}.
Inductive arrival : Type := Arrives (ev : ResultEvent) | ChannelClosed | SubscriptionErr | ConnectionClosed.
Inductive Notice : Type := NoticeHash (h : Hash) | NoticeHeader (h : EthHeader) | NoticeLog (l : EthLog).

Record Notifier : Type := mkNotifier {
  nt_typ : FilterType;
  nt_crit : FilterCriteria;
  nt_s : Subscription;
  nt_uid : Z
}.

Definition EventTypeFeeMarket : string := "fee_market".
Definition AttributeKeyBaseFee : string := "base_fee".

Section Notify.
Context {G : Geth} {HX : HexText} {BL : BloomLib} {RG : RpcGeth}.
Variable DecodeTxResponse : bytes -> res MsgEthereumTxResponse.
Variable TxDecoder : bytes -> res Tx.

Fixpoint BaseFeeFromEvents (events : list SdkEvent) : option Z :=
  match events with
  | [] => None
  | event :: rest =>
      if decide (event_Type event = EventTypeFeeMarket) then
        match findAttribute (event_Attributes event) AttributeKeyBaseFee with
        | Some value => big_SetString value
        | None => BaseFeeFromEvents rest
        end
      else BaseFeeFromEvents rest
  end.

(** ** Creation; the notifier of the context may be missing *)

Definition ErrNotificationsUnsupported : gerr := Errorf "notifications not supported".
Definition NewHeads (supported : bool) (id : ID) (ws : around) : M PublicFilterAPI Notifier :=
  require supported ErrNotificationsUnsupported ;;
  '(s, (_, uid)) ← on_events (SubscribeNewHeads id ws);
  mret (mkNotifier BlocksSubscription no_criteria s uid).
Definition NewPendingTransactions (supported : bool) (id : ID) (ws : around) : M PublicFilterAPI Notifier :=
  require supported ErrNotificationsUnsupported ;;
  '(s, (_, uid)) ← on_events (SubscribePendingTxs id ws);
  mret (mkNotifier PendingTransactionsSubscription no_criteria s uid).
Definition Logs (supported : bool) (crit : FilterCriteria) (id : ID) (ws : around) : M PublicFilterAPI Notifier :=
  require supported ErrNotificationsUnsupported ;;
  '(s, (_, uid)) ← on_events (SubscribeLogs id crit ws);
  mret (mkNotifier LogsSubscription crit s uid).

(** ** The goroutine: what an event makes it send, and whether it goes on *)

Definition heads_notice (ev : ResultEvent) : res (list Notice * bool) :=
  match re_Data ev with
  | NewBlockData header events =>
      bloom ← BloomFromEvents events;
      Ok ([NoticeHeader (EthHeaderFromCometBFT header (default (CreateBloom []) bloom) (BaseFeeFromEvents events))], true)
  | PlainData _ => Ok ([], true)
  end.
Definition pending_notice (ev : ResultEvent) : res (list Notice * bool) :=
  match re_Data ev with
  | PlainData (EventDataTx tx _) =>
      match TxDecoder tx with
      | Ok tx =>
          match GetMsgs tx with
          | [] => Panic IndexOutOfRange
          | EthMsg m :: _ =>
              match MsgEthereumTx_AsTransaction m with
              | Ok ethTx => Ok ([NoticeHash (Transaction_Hash ethTx)], true)
              | _ => Panic (Errorf "failed to unmarshal transaction")
              end
          | _ => Ok ([], true)
          end
      | _ => Ok ([], true)
      end
  | _ => Ok ([], true)
  end.
Definition logs_notice (crit : FilterCriteria) (ev : ResultEvent) : res (list Notice * bool) :=
  if negb (re_isMsgEthereumTx ev) then Ok ([], false)
  else match re_Data ev with
  | PlainData (EventDataTx _ data) =>
      match DecodeTxResponse data with
      | Ok txResponse =>
          match Receipt_UnmarshalBinary (resp_MarshalledReceipt txResponse) with
          | Ok receipt =>
              Ok (NoticeLog <$> FilterLogs (decoded_logs receipt) (fc_FromBlock crit) (fc_ToBlock crit) (fc_Addresses crit) (fc_Topics crit), true)
          | _ => Ok ([], false)
          end
      | _ => Ok ([], false)
      end
  | _ => Ok ([], true)
  end.
Definition notice (n : Notifier) (ev : ResultEvent) : res (list Notice * bool) :=
  match nt_typ n with
  | BlocksSubscription => heads_notice ev
  | PendingTransactionsSubscription => pending_notice ev
  | LogsSubscription => logs_notice (nt_crit n) ev
  end.

(** [defer cancelSubs()] *)
Definition cancelSubs (n : Notifier) : M PublicFilterAPI unit := on_events (on_bus (unsubscribe (sub_event (nt_s n)) (nt_uid n))).
Definition notify_step (n : Notifier) (a : arrival) : M PublicFilterAPI (list Notice * bool) :=
  match a with
  | Arrives ev =>
      '(notices, goes_on) ← lift_res (notice n ev);
      (if (goes_on : bool) then mret tt else cancelSubs n) ;;
      mret (notices, goes_on)
  | ChannelClosed =>
      (match nt_typ n with
       | PendingTransactionsSubscription => modify (fun api => set_filters (delete (sub_id (nt_s n)) (filters api)) api)
       | _ => on_events (Unsubscribe (nt_s n))
       end) ;;
      cancelSubs n ;; mret ([], false)
  | SubscriptionErr | ConnectionClosed => on_events (Unsubscribe (nt_s n)) ;; cancelSubs n ;; mret ([], false)
  end.
(** What the client was sent after the arrivals. *)
Fixpoint notify_all (n : Notifier) (l : list arrival) : M PublicFilterAPI (list Notice) :=
  match l with
  | [] => mret []
  | a :: l' =>
      '(notices, goes_on) ← notify_step n a;
      if (goes_on : bool) then rest ← notify_all n l'; mret (notices ++ rest) else mret notices
  end.

(** ** Properties *)

(** The end of a goroutine sends nothing. *)
Ltac step_end :=
  match goal with
  | H : (_ ≫= _) _ = (Ok _, _) |- _ =>
      let H' := fresh in pose proof H as H'; apply bind_ok_inv in H' as ([] & ? & _ & H'); apply bind_ok_inv in H' as ([] & ? & _ & H'); by injection H' as <- _ _
  end.

(** What a polled filter would hold of an event, as notices. *)
Definition polled (r : reaction) : list Notice :=
  match r with Append hashes logs => (NoticeHash <$> hashes) ++ (NoticeLog <$> logs) | _ => [] end.
Definition polled_goes_on (r : reaction) : bool := match r with Return | Crash _ => false | _ => true end.

(** For a transaction, a subscription sends what a polled filter of the same kind and
    criteria would append, and its goroutine stops where that of the filter stops, but a log
    subscription also stops at the first event without an Ethereum message. *)
Theorem notices_agree_with_polls (n : Notifier) (ev : EventData) (is_eth : bool) (Htyp : nt_typ n <> BlocksSubscription) (ns : list Notice) (goes_on : bool)
    (Hrun : notice n (mkResultEvent is_eth (PlainData ev)) = Ok (ns, goes_on)) :
  let r := react DecodeTxResponse TxDecoder (mkListener (nt_typ n) (nt_crit n) (sub_event (nt_s n)) 0 (nt_uid n) None) ev in
  (nt_typ n = LogsSubscription -> is_eth = false -> ns = [] /\ goes_on = false) /\
  (nt_typ n = LogsSubscription -> is_eth = true -> ns = polled r /\ goes_on = polled_goes_on r) /\
  (nt_typ n = PendingTransactionsSubscription -> ns = polled r /\ goes_on = polled_goes_on r).
Proof.
  unfold notice, react in *. cbn [l_typ l_crit] in *. destruct (nt_typ n) eqn:Et; try done.
  - unfold logs_notice in Hrun. cbn [re_isMsgEthereumTx re_Data] in Hrun. split_and!; try done.
    + intros _ ->. by injection Hrun as <- <-.
    + intros _ ->. cbn [negb] in Hrun. unfold logs_reaction. repeat case_match; try done; by injection Hrun as <- <-.
  - split_and!; try done. intros _. unfold pending_notice in Hrun. cbn [re_Data] in Hrun. unfold pending_reaction. repeat case_match; try done; by injection Hrun as <- <-.
Qed.

(** The events of the topic of new heads carry headers, not blocks, so a subscription to
    heads is never sent anything, whatever happens. *)
Definition header_arrival (a : arrival) : Prop := match a with Arrives ev => exists hash, re_Data ev = PlainData (EventDataNewBlockHeader hash) | _ => True end.
Theorem heads_are_never_sent (n : Notifier) (l : list arrival) (api api' : PublicFilterAPI) (ns : list Notice)
    (Htyp : nt_typ n = BlocksSubscription) (Htopic : Forall header_arrival l) (Hrun : notify_all n l api = (Ok ns, api')) : ns = [].
Proof.
  revert api api' ns Hrun. induction Htopic as [|a l Ha _ IH]; intros api api' ns; cbn [notify_all]; [by intros [= <-]|].
  intros ([notices goes_on] & api1 & Hs & H)%bind_ok_inv. assert (notices = []) as ->.
  { destruct a as [ev| | |]; cbn [notify_step] in Hs.
    - apply bind_ok_inv in Hs as ([ns1 g1] & api2 & [Hn ->]%lift_inv & Hs). apply bind_ok_inv in Hs as ([] & ? & _ & Hs). injection Hs as <- _ _.
      unfold notice in Hn. rewrite Htyp in Hn. unfold heads_notice in Hn. destruct Ha as [hash Hd]. rewrite Hd in Hn. by injection Hn as <- _.
    - step_end.
    - step_end.
    - step_end. }
  destruct goes_on; [|by injection H as <- _]. apply bind_ok_inv in H as (rest & api2 & Hrest & [= <- _]). by apply IH in Hrest.
Qed.
End Notify.
