(* ===== verification/RpcFees.v ===== *)
(** * Fees of the JSON-RPC server

    Suggested prices and the history of fees (rpc/backend/chain_info.go, the function
    processBlock of utils.go and GasPrice of call_tx.go).  Numbers of type float64 are
    binary64 values of the Standard Library's SpecFloat; the conversion of one outside of
    the range of uint64 is left open by Go.  [sort.Sort] is any function that sorts,
    [misc.CalcBaseFee] and [EffectiveGasTipValue] are go-ethereum's. *)

From Stdlib Require Import SpecFloat.
From stdpp Require Import base gmap list sorting strings.
From S2P Require Import Prelude Sdk Geth EvmTypes TxTypes Genesis AnteTx EvmStore FeeMarket Indexer RpcLogs RpcBlocks.

(** ** float64 *)

Abbreviation float64 := spec_float.
(** The nearest float, ties to even. *)
Definition float64_of (z : Z) : float64 := binary_normalize 53 1024 z 0 false.
Definition float_mul (x y : float64) : float64 := SFmul 53 1024 x y.
Definition float_div (x y : float64) : float64 := SFdiv 53 1024 x y.
(** Truncation of a float between 0 and 2^64. *)
Definition float_trunc (x : float64) : option Z :=
  match x with
  | S754_zero _ => Some 0
  | S754_finite s m e =>
      let z := if 0 <=? e then Zpos m * 2 ^ e else Zpos m / 2 ^ (- e) in
      if s then (if z =? 0 then Some 0 else None) else if z <=? MaxUint64 then Some z else None
  | _ => None
  end.

(** [int64] addition. *)
Definition add_int64 (a b : Z) : Z := int64_of_uint64 (wrap64 (a + b)).

Record txGasAndReward : Type := mkGasAndReward { gr_gasUsed : Z; gr_reward : Z }.
Definition reward_le (a b : txGasAndReward) : Prop := gr_reward a <= gr_reward b.

Record OneFeeHistory : Type := mkOneFeeHistory {
  ofh_BaseFee : Z;
  ofh_NextBaseFee : Z;
  ofh_Reward : list Z;
  ofh_GasUsedRatio : float64
}.
Record FeeHistoryResult : Type := mkFeeHistoryResult {
  fh_OldestBlock : Z;
  fh_Reward : option (list (list Z));
  fh_BaseFee : list (option Z);
  fh_GasUsedRatio : list float64
}.

(** The queries of the parameters of the modules. *)
Class FeeNode : Type := {
  node_ChainConfig : res EthChainConfig;
  (** A decimal, scaled by 10^18. *)
  node_MinGasPrice : res Z;
  CalcBaseFee : EthChainConfig -> FeeHeader -> Z;
  EffectiveGasTipValue : Transaction -> Z -> Z;
  (** [JSONRPC.FeeHistoryCap] *)
  FeeHistoryCap : Z;
  (** [GasUsed] of the results of a block, which [ResultBlockResults] leaves out. *)
  node_ResultsGasUsed : Z -> list Z;
  sort_Sort : list txGasAndReward -> list txGasAndReward;
  (** The conversion of a float that does not fit. *)
  uint64_unspecified : float64 -> Z
}.

Section Fees.
Context {G : Geth} {HX : HexText} {B : Bech32} {CT : Codec TxResult} {N : Node} {RG : RpcGeth} {FN : FeeNode}.
Variable kvi : KVIndexer.
Variable chainID : Z.

Definition uint64_of_float (x : float64) : Z :=
  match float_trunc x with Some z => z | None => wrap64 (uint64_unspecified x) end.

(** nil if the query fails. *)
Definition Backend_ChainConfig : res (option EthChainConfig) :=
  match node_ChainConfig with Ok c => Ok (Some c) | Err _ => Ok None | Panic e => Panic e end.
Definition CurrentHeader : res (option EthHeader) :=
  match HeaderByNumber kvi EthLatestBlockNumber with Ok h => Ok (Some h) | Err _ => Ok None | Panic e => Panic e end.

(** The next base fee from the latest header, whose limit and use of gas are 0. *)
Definition next_base_fee : res Z :=
  cfg ← Backend_ChainConfig;
  header ← CurrentHeader;
  match cfg, header with
  | Some cfg, Some h =>
      match eh_BaseFee h with
      | Some baseFee => Ok (CalcBaseFee cfg (mkFeeHeader (eh_Number h) (eh_GasLimit h) (eh_GasUsed h) baseFee))
      | None => Panic NilDereference
      end
  | _, _ => Panic NilDereference
  end.

Fixpoint message_rewards (msgs : list Msg) (txGasUsed blockBaseFee : Z) : res (list txGasAndReward) :=
  match msgs with
  | [] => Ok []
  | EthMsg ethMsg :: msgs' =>
      tx ← MsgEthereumTx_AsTransaction ethMsg;
      rest ← message_rewards msgs' txGasUsed blockBaseFee;
      Ok (mkGasAndReward txGasUsed (EffectiveGasTipValue tx blockBaseFee) :: rest)
  | _ :: msgs' => message_rewards msgs' txGasUsed blockBaseFee
  end.
(** [GasUsed] of the results of the transactions comes beside them. *)
Fixpoint tx_rewards (txs : list bytes) (gasUsed : list Z) (blockBaseFee : Z) : res (list txGasAndReward) :=
  match txs with
  | [] => Ok []
  | eachCometTx :: txs' =>
      match gasUsed with
      | [] => Panic IndexOutOfRange
      | gas :: gasUsed' =>
          match node_TxDecoder eachCometTx with
          | Panic e => Panic e
          | Err _ => tx_rewards txs' gasUsed' blockBaseFee
          | Ok tx =>
              rewards ← message_rewards (GetMsgs tx) (wrap64 gas) blockBaseFee;
              rest ← tx_rewards txs' gasUsed' blockBaseFee;
              Ok (rewards ++ rest)
          end
      end
  end.

(** From position [txIndex] on, until the threshold is reached or one transaction is left;
    the transactions that remain have [txIndex] at the head. *)
Fixpoint advance (sumGasUsed thresholdGasUsed : Z) (remaining : list txGasAndReward) : Z * list txGasAndReward :=
  match remaining with
  | _ :: (next :: _) as remaining' =>
      if sumGasUsed <? thresholdGasUsed then advance (add64 sumGasUsed (gr_gasUsed next)) thresholdGasUsed remaining'
      else (sumGasUsed, remaining)
  | _ => (sumGasUsed, remaining)
  end.
Fixpoint percentile_rewards (blockGasUsed : float64) (rewardPercentiles : list float64) (sumGasUsed : Z)
    (remaining : list txGasAndReward) : list Z :=
  match rewardPercentiles with
  | [] => []
  | p :: rewardPercentiles' =>
      let thresholdGasUsed := uint64_of_float (float_div (float_mul blockGasUsed p) (float64_of 100)) in
      let '(sumGasUsed, remaining) := advance sumGasUsed thresholdGasUsed remaining in
      match remaining with tx :: _ => gr_reward tx | [] => 0 end :: percentile_rewards blockGasUsed rewardPercentiles' sumGasUsed remaining
  end.

(** [gasUsed] is the gas used of each result of the block. *)
Definition processBlock (cometBlock : ResultBlock) (ethBlock : RPCBlock) (rewardPercentiles : list float64)
    (cometBlockResult : ResultBlockResults) (gasUsed : list Z) : res OneFeeHistory :=
  blockBaseFee ← Backend_BaseFee cometBlockResult;
  nextBaseFee ← next_base_fee;
  let gasusedfloat := float64_of (blk_gasUsed ethBlock) in
  if blk_gasLimit ethBlock <=? 0 then Err (Errorf "gasLimit should be bigger than 0")
  else
    let gasUsedRatio := float_div gasusedfloat (float64_of (blk_gasLimit ethBlock)) in
    sorter ← tx_rewards (rb_Txs cometBlock) gasUsed blockBaseFee;
    let reward :=
      match sort_Sort sorter with
      | [] => replicate (length rewardPercentiles) 0
      | (first :: _) as sorter => percentile_rewards gasusedfloat rewardPercentiles (gr_gasUsed first) sorter
      end in
    Ok (mkOneFeeHistory blockBaseFee nextBaseFee reward gasUsedRatio).

(** ** The history *)

(** [make] panics on a negative length. *)
Definition make_slice {A} (n : Z) (x : A) : res (list A) :=
  if n <? 0 then Panic (Errorf "makeslice: len out of range") else Ok (replicate (Z.to_nat n) x).
Definition assign {A} (l : list A) (i : Z) (x : A) : res (list A) :=
  if (0 <=? i) && (i <? Z.of_nat (length l)) then Ok (<[Z.to_nat i := x]> l) else Panic IndexOutOfRange.

(** nil without an error, as [None]. *)
Definition fetch_history (blockID : Z) (rewardPercentiles : list float64) : res (option OneFeeHistory) :=
  cometBlock ← CometBFTBlockByNumber kvi blockID;
  match cometBlock with
  | None => Ok None
  | Some cometBlock =>
      ethBlock ← GetBlockByNumber kvi chainID blockID true;
      match ethBlock with
      | None => Ok None
      | Some ethBlock =>
          cometBlockResult ← CometBFTBlockResultByNumber (rb_Height cometBlock);
          Some <$> processBlock cometBlock ethBlock rewardPercentiles cometBlockResult (node_ResultsGasUsed (rb_Height cometBlock))
      end
  end.

(** [n] blocks are to come. *)
Fixpoint history_loop (n : nat) (blockID blockStart : Z) (rewardPercentiles : list float64)
    (reward : list (list Z)) (thisBaseFee : list (option Z)) (thisGasUsedRatio : list float64) :
    res (option (list (list Z) * list (option Z) * list float64)) :=
  match n with
  | O => Ok (Some (reward, thisBaseFee, thisGasUsedRatio))
  | S n' =>
      let index := add32 (blockID - blockStart) 0 in
      one ← fetch_history blockID rewardPercentiles;
      match one with
      | None => Ok None
      | Some one =>
          thisBaseFee ← assign thisBaseFee index (Some (ofh_BaseFee one));
          thisBaseFee ← assign thisBaseFee (add32 index 1) (Some (ofh_NextBaseFee one));
          thisGasUsedRatio ← assign thisGasUsedRatio index (ofh_GasUsedRatio one);
          reward ← assign reward index (ofh_Reward one);
          history_loop n' (add_int64 blockID 1) blockStart rewardPercentiles reward thisBaseFee thisGasUsedRatio
      end
  end.

Definition FeeHistory (userBlockCount lastBlock : Z) (rewardPercentiles : list float64) : res (option FeeHistoryResult) :=
  blockEnd ← (if lastBlock <? 0 then Backend_BlockNumber kvi else Ok lastBlock);
  let blocks := int64_of_uint64 userBlockCount in
  if FeeHistoryCap <? blocks then Err (Errorf "FeeHistory user block count higher than the cap")
  else
    let blocks := if add_int64 blockEnd 1 <? blocks then add_int64 blockEnd 1 else blocks in
    let blockStart := add_int64 (add_int64 blockEnd 1) (- blocks) in
    reward ← make_slice blocks [];
    thisBaseFee ← make_slice (add_int64 blocks 1) None;
    thisGasUsedRatio ← make_slice blocks (S754_zero false);
    r ← history_loop (Z.to_nat (blockEnd - blockStart + 1)) blockStart blockStart rewardPercentiles reward thisBaseFee thisGasUsedRatio;
    match r with
    | None => Ok None
    | Some (reward, thisBaseFee, thisGasUsedRatio) =>
        let calculateRewards := negb (length rewardPercentiles =? 0)%nat in
        Ok (Some (mkFeeHistoryResult blockStart (if calculateRewards then Some reward else None) thisBaseFee thisGasUsedRatio))
    end.

(** ** Suggestions *)

(** [ElasticityMultiplier - 1] is 1 and [BaseFeeChangeDenominator] is 8. *)
Definition SuggestGasTipCap (baseFee : Z) : Z :=
  let maxDelta := Z.quot (int64_of_uint64 (wrap64 (big_Int64 baseFee * 1))) 8 in
  if maxDelta <? 0 then 0 else maxDelta.

Definition GlobalMinGasPrice : res Z := node_MinGasPrice.

(** [rpcMinGasPrice] is the setting of the node. *)
Definition GasPrice (rpcMinGasPrice : Z) : res Z :=
  head ← CurrentHeader;
  match head with
  | None => Err (Errorf "failed to get current block header")
  | Some head =>
      let result := match eh_BaseFee head with
                    | Some baseFee => SuggestGasTipCap baseFee + baseFee
                    | None => rpcMinGasPrice
                    end in
      minGasPrice ← GlobalMinGasPrice;
      let minGasPriceInt := TruncateInt minGasPrice in
      Ok (if result <? minGasPriceInt then minGasPriceInt else result)
  end.
End Fees.

(** ** Rewards *)

Section FeeProofs.
Context {G : Geth} {HX : HexText} {B : Bech32} {CT : Codec TxResult} {N : Node} {RG : RpcGeth} {FN : FeeNode}.
Variable kvi : KVIndexer.
Variable chainID : Z.

(** The contract of [sort.Sort]. *)
Definition sorts : Prop := forall l, sort_Sort l ≡ₚ l /\ Sorted reward_le (sort_Sort l).

Lemma advance_suffix s th l : l <> [] -> exists pre l', (advance s th l).2 = l' /\ l = pre ++ l' /\ l' <> [].
Proof.
  revert s. induction l as [|x [|y l] IH]; intros s Hl; [done|by exists [], [x]|].
  cbn [advance]. destruct (s <? th); [|by exists [], (x :: y :: l)].
  destruct (IH (add64 s (gr_gasUsed y))) as (pre & l' & E & El & Hne); [done|]. exists (x :: pre), l'.
  split_and!; [exact E|by rewrite El|done].
Qed.

Lemma percentile_rewards_sorted used ps s l : Sorted reward_le l -> l <> [] ->
  let rs := percentile_rewards used ps s l in
  length rs = length ps /\ Sorted Z.le rs /\ Forall (fun r => r ∈ map gr_reward l) rs /\
  forall x, head l = Some x -> Forall (fun r => gr_reward x <= r) rs.
Proof.
  revert s l. induction ps as [|p ps IH]; intros s l Hs Hl; cbn [percentile_rewards].
  { split_and!; [done|constructor|constructor|constructor]. }
  destruct (advance_suffix s (uint64_of_float (float_div (float_mul used p) (float64_of 100))) l Hl) as (pre & l' & E & -> & Hne).
  destruct (advance _ _ _) as [s' l'']. cbn [snd] in E. subst l''.
  assert (Sorted reward_le l') as Hs'.
  { clear -Hs. induction pre as [|y pre IH]; [done|]. apply IH. by apply Sorted_inv in Hs as [Hs _]. }
  destruct (IH s' l' Hs' Hne) as (H1 & H2 & H3 & H4). clear IH. destruct l' as [|x l']; [done|].
  specialize (H4 x eq_refl). cbn [length].
  assert (forall y, head (pre ++ x :: l') = Some y -> gr_reward y <= gr_reward x) as Hhead.
  { intros y Hy. destruct pre as [|z pre]; simpl in Hy; injection Hy as ->; [done|].
    apply Sorted_StronglySorted in Hs; [|intros a b c; unfold reward_le; lia].
    apply StronglySorted_inv in Hs as [_ Hs]. rewrite Forall_app, Forall_cons in Hs. by destruct Hs as [_ [? _]]. }
  split_and!.
  - by rewrite H1.
  - constructor; [done|]. destruct (percentile_rewards used ps s' (x :: l')) as [|r rs]; constructor. by apply Forall_cons in H4 as [? _].
  - constructor; [apply list_elem_of_fmap; exists x; split; [done|set_solver]|].
    eapply Forall_impl; [exact H3|]. intros r. rewrite map_app, elem_of_app. by right.
  - intros y Hy. specialize (Hhead y Hy). constructor; [done|]. eapply Forall_impl; [exact H4|]. intros r. simpl. lia.
Qed.

Definition block_tips (txs : list bytes) (gasUsed : list Z) (baseFee : Z) : list Z :=
  match tx_rewards txs gasUsed baseFee with Ok l => map gr_reward l | _ => [] end.

Lemma Sorted_replicate_0 n : Sorted Z.le (replicate n 0).
Proof. induction n as [|n IH]; simpl; constructor; [done|]. by destruct n; constructor. Qed.

Lemma processBlock_inv block eth ps br gas one : sorts -> processBlock kvi block eth ps br gas = Ok one ->
  Backend_BaseFee br = Ok (ofh_BaseFee one) /\ next_base_fee kvi = Ok (ofh_NextBaseFee one) /\
  length (ofh_Reward one) = length ps /\ Sorted Z.le (ofh_Reward one) /\
  Forall (fun r => r = 0 \/ r ∈ block_tips (rb_Txs block) gas (ofh_BaseFee one)) (ofh_Reward one).
Proof.
  intros Hsort. unfold processBlock, mbind, res_bind. destruct (Backend_BaseFee br) as [b|e|e]; [|done|done].
  destruct (next_base_fee kvi) as [n|e|e]; [|done|done]. destruct (blk_gasLimit eth <=? 0); [done|].
  destruct (tx_rewards _ _ _) as [l|e|e] eqn:El; [|done|done]. intros [= <-]. cbn [ofh_BaseFee ofh_NextBaseFee ofh_Reward].
  split; [done|]. split; [done|]. unfold block_tips. rewrite El. destruct (Hsort l) as [Hp Hs].
  destruct (sort_Sort l) as [|x l'].
  - split_and!; [apply length_replicate|apply Sorted_replicate_0|]. apply Forall_replicate. by left.
  - destruct (percentile_rewards_sorted (float64_of (blk_gasUsed eth)) ps (gr_gasUsed x) (x :: l')) as (H1 & H2 & H3 & _); [done|done|].
    split_and!; [done|done|]. eapply Forall_impl; [exact H3|]. intros r (y & -> & Hy)%list_elem_of_fmap.
    right. apply list_elem_of_fmap. exists y. split; [done|]. by rewrite <- Hp.
Qed.

(** ** The history of fees *)

Lemma assign_ok {A} (l : list A) i x l' : assign l i x = Ok l' -> 0 <= i /\ l' = <[Z.to_nat i := x]> l /\ (Z.to_nat i < length l)%nat.
Proof.
  unfold assign. destruct (Z.leb_spec 0 i), (Z.ltb_spec i (Z.of_nat (length l))); simpl; try done. intros [= <-]. split_and!; [done|done|lia].
Qed.

(** The rows of the blocks from index [k] on. *)
Definition filled (k : nat) (ones : list OneFeeHistory) (reward : list (list Z)) (baseFee : list (option Z)) (ratio : list float64) : Prop :=
  forall i one, ones !! i = Some one ->
    reward !! (k + i)%nat = Some (ofh_Reward one) /\ baseFee !! (k + i)%nat = Some (Some (ofh_BaseFee one)) /\
    ratio !! (k + i)%nat = Some (ofh_GasUsedRatio one).

Lemma history_loop_spec n blockID blockStart ps rw bf ra rw' bf' ra' k :
  blockID = blockStart + Z.of_nat k -> 0 <= blockStart -> Z.of_nat (k + n) < 2 ^ 31 -> blockID + Z.of_nat n <= MaxInt64 ->
  history_loop kvi chainID n blockID blockStart ps rw bf ra = Ok (Some (rw', bf', ra')) ->
  exists ones, length ones = n /\ length rw' = length rw /\ length bf' = length bf /\ length ra' = length ra /\
    (forall i one, ones !! i = Some one -> fetch_history kvi chainID (blockID + Z.of_nat i) ps = Ok (Some one)) /\
    filled k ones rw' bf' ra' /\
    (forall i, (i < k)%nat -> rw' !! i = rw !! i /\ bf' !! i = bf !! i /\ ra' !! i = ra !! i) /\
    bf' !! (k + n)%nat = (match last ones with Some one => Some (Some (ofh_NextBaseFee one)) | None => bf !! k end).
Proof.
  revert blockID rw bf ra k. induction n as [|n IH]; intros blockID rw bf ra k Hid Hst Hk Hmax; cbn [history_loop].
  { intros [= <- <- <-]. exists []. split_and!; try done. by rewrite Nat.add_0_r. }
  unfold mbind, res_bind. destruct (fetch_history kvi chainID blockID ps) as [[one|]|e|e] eqn:Ef; [|done|done|done].
  assert (add32 (blockID - blockStart) 0 = Z.of_nat k) as ->.
  { unfold add32. rewrite Z.mod_small by lia. lia. }
  assert (add32 (Z.of_nat k) 1 = Z.of_nat (S k)) as ->.
  { unfold add32. rewrite Z.mod_small by lia. lia. }
  destruct (assign bf _ _) as [bf1|e|e] eqn:E1; [|done|done]. destruct (assign bf1 _ _) as [bf2|e|e] eqn:E2; [|done|done].
  destruct (assign ra _ _) as [ra1|e|e] eqn:E3; [|done|done]. destruct (assign rw _ _) as [rw1|e|e] eqn:E4; [|done|done].
  apply assign_ok in E1 as (_ & -> & L1), E2 as (_ & -> & L2), E3 as (_ & -> & L3), E4 as (_ & -> & L4).
  rewrite !Nat2Z.id. rewrite Nat2Z.id in L1, L2, L3, L4. rewrite length_insert in L2.
  assert (add_int64 blockID 1 = blockID + 1) as ->.
  { unfold add_int64. rewrite wrap64_id by (unfold is_u64, MaxUint64, MaxInt64 in *; lia). unfold int64_of_uint64, MaxInt64 in *.
    destruct (Z.leb_spec (blockID + 1) (2 ^ 63 - 1)); lia. }
  intros E. apply (IH _ _ _ _ (S k)) in E as (ones & Hn & Hrw & Hbf & Hra & Hfetch & Hfill & Hkeep & Hlast); [|lia..].
  rewrite !length_insert in *. exists (one :: ones). split_and!; [simpl; lia|done|done|done| | | |].
  - intros [|i] o; simpl; [intros [= <-]; by rewrite Z.add_0_r|]. intros Ho. rewrite <- (Hfetch _ _ Ho). f_equal. lia.
  - intros [|i] o; simpl.
    + intros [= <-]. rewrite Nat.add_0_r. destruct (Hkeep k) as (-> & -> & ->); [lia|].
      rewrite !list_lookup_insert_eq by lia. split_and!; [done| |done].
      rewrite list_lookup_insert_ne by lia. by rewrite list_lookup_insert_eq.
    + intros Ho. replace (k + S i)%nat with (S k + i)%nat by lia. by apply Hfill.
  - intros i Hi. destruct (Hkeep i) as (-> & -> & ->); [lia|]. by rewrite !list_lookup_insert_ne by lia.
  - replace (k + S n)%nat with (S k + n)%nat by lia. rewrite Hlast. destruct ones as [|o ones]; [|change (last (one :: o :: ones)) with (last (o :: ones)); destruct (last (o :: ones)) eqn:El; [done|by apply last_None in El]].
    cbn [last]. rewrite list_lookup_insert_eq; [done|rewrite length_insert; lia].
Qed.

Lemma fetch_inv blockID ps one : sorts -> fetch_history kvi chainID blockID ps = Ok (Some one) ->
  next_base_fee kvi = Ok (ofh_NextBaseFee one) /\ length (ofh_Reward one) = length ps /\ Sorted Z.le (ofh_Reward one).
Proof.
  intros Hs. unfold fetch_history, mbind, res_bind. destruct (CometBFTBlockByNumber kvi blockID) as [[b|]|e|e]; try done.
  destruct (GetBlockByNumber kvi chainID blockID true) as [[eb|]|e|e]; try done.
  destruct (CometBFTBlockResultByNumber (rb_Height b)) as [br|e|e]; try done.
  destruct (processBlock _ _ _ _ _ _) as [o|e|e] eqn:E; try done. intros [= <-].
  by destruct (processBlock_inv _ _ _ _ _ _ Hs E) as (_ & ? & ? & ? & _).
Qed.

Lemma fetch_next blockID ps one : fetch_history kvi chainID blockID ps = Ok (Some one) -> next_base_fee kvi = Ok (ofh_NextBaseFee one).
Proof.
  unfold fetch_history, processBlock, mbind, res_bind. intros E. repeat case_match; simplify_eq/=; try done.
Qed.
Lemma header_no_gas n h : HeaderByNumber kvi n = Ok h -> eh_GasUsed h = 0 /\ eh_GasLimit h = 0.
Proof.
  unfold HeaderByNumber, header_of, mbind, res_bind. intros E. repeat case_match; by simplify_eq/=.
Qed.
Lemma fee_history_inv userBlockCount lastBlock ps r :
  FeeHistoryCap < 2 ^ 31 - 1 -> 0 <= lastBlock < MaxInt64 -> 0 <= userBlockCount <= MaxInt64 ->
  FeeHistory kvi chainID userBlockCount lastBlock ps = Ok (Some r) ->
  exists (blocks : nat) (ones : list OneFeeHistory),
    Z.of_nat blocks = Z.min userBlockCount (lastBlock + 1) /\ Z.of_nat blocks <= FeeHistoryCap /\ length ones = blocks /\
    fh_OldestBlock r = lastBlock + 1 - Z.of_nat blocks /\
    (forall i one, ones !! i = Some one -> fetch_history kvi chainID (fh_OldestBlock r + Z.of_nat i) ps = Ok (Some one)) /\
    length (fh_BaseFee r) = S blocks /\ take blocks (fh_BaseFee r) = (fun one => Some (ofh_BaseFee one)) <$> ones /\
    fh_GasUsedRatio r = ofh_GasUsedRatio <$> ones /\
    fh_Reward r = (if decide (ps = []) then None else Some (ofh_Reward <$> ones)) /\
    fh_BaseFee r !! blocks = (match last ones with Some one => Some (Some (ofh_NextBaseFee one)) | None => Some None end).
Proof.
  intros Hcap Hlast Hu. unfold FeeHistory, mbind, res_bind. destruct (Z.ltb_spec lastBlock 0); [lia|].
  assert (forall z, 0 <= z <= MaxInt64 -> int64_of_uint64 z = z) as Hid.
  { intros z Hz. unfold int64_of_uint64. by rewrite (proj2 (Z.leb_le z MaxInt64)) by lia. }
  assert (forall a b, 0 <= a + b <= MaxInt64 -> add_int64 a b = a + b) as Hadd.
  { intros a b Hab. unfold add_int64. rewrite wrap64_id by (unfold is_u64, MaxUint64, MaxInt64 in *; lia). by apply Hid. }
  rewrite Hid by lia. destruct (Z.ltb_spec FeeHistoryCap userBlockCount); [done|].
  rewrite (Hadd lastBlock 1) by lia. set (b := if lastBlock + 1 <? userBlockCount then _ else _).
  assert (b = Z.min userBlockCount (lastBlock + 1)) as Hb by (subst b; destruct (Z.ltb_spec (lastBlock + 1) userBlockCount); lia).
  clearbody b. rewrite (Hadd (lastBlock + 1) (- b)) by lia. rewrite (Hadd b 1) by (unfold MaxInt64 in *; lia).
  unfold make_slice. rewrite !(proj2 (Z.ltb_ge _ _)) by lia. set (n := Z.to_nat b).
  replace (Z.to_nat (lastBlock - (lastBlock + 1 + - b) + 1)) with n by lia. replace (Z.to_nat (b + 1)) with (S n) by lia.
  destruct (history_loop _ _ _ _ _ _ _ _ _) as [[[[rw bf] ra]|]|e|e] eqn:E; [|by intros [=]|done|done]. intros [= <-].
  apply (history_loop_spec n _ _ _ _ _ _ _ _ _ 0%nat) in E as (ones & Hn & Hrw & Hbf & Hra & Hfetch & Hfill & _ & Hl); [|lia..].
  rewrite !length_replicate in *. exists n, ones. cbn [fh_OldestBlock fh_BaseFee fh_GasUsedRatio fh_Reward].
  assert (forall {A} (l : list A) (f : OneFeeHistory -> A), length l = n ->
    (forall i one, ones !! i = Some one -> l !! i = Some (f one)) -> l = f <$> ones) as Heq.
  { intros A l f Hlen Hf. apply list_eq_same_length with n; [by rewrite length_fmap|done|]. intros i x y Hi Hx Hy.
    rewrite list_lookup_fmap in Hy. destruct (ones !! i) as [one|] eqn:Eo; [|done]. apply Hf in Eo. simpl in Hy. congruence. }
  split_and!; [lia|lia|done|lia|exact Hfetch|done| | | |].
  - apply Heq; [rewrite length_take; lia|]. intros i one Ho. rewrite lookup_take, decide_True; [by apply Hfill|].
    apply lookup_lt_Some in Ho. lia.
  - apply Heq; [done|]. intros i one Ho. by apply Hfill.
  - destruct ps as [|p0 ps]; [done|]. cbn [length Nat.eqb negb]. rewrite decide_False by done. f_equal. apply Heq; [done|].
    intros i one Ho. by apply Hfill.
  - cbn in Hl. rewrite Hl. by destruct (last ones).
Qed.

(** An answer of eth_feeHistory has the shape the standard asks for: for the blocks up to
    the last one asked for, as many as asked for but none before block 0 and not more than
    the cap, it lists the base fee and the used share of the gas of each block in order
    and one more base fee; with percentiles there is a row for each block with one
    reward for each percentile, in ascending order. *)
Theorem fee_history_exact (userBlockCount lastBlock : Z) (ps : list float64) (r : FeeHistoryResult)
    (Hsort : sorts) (Hcap : FeeHistoryCap < 2 ^ 31 - 1)
    (Hlast : 0 <= lastBlock < MaxInt64) (Hu : 0 <= userBlockCount <= MaxInt64)
    (Hok : FeeHistory kvi chainID userBlockCount lastBlock ps = Ok (Some r)) :
  exists (blocks : nat) (ones : list OneFeeHistory),
    Z.of_nat blocks = Z.min userBlockCount (lastBlock + 1) /\ Z.of_nat blocks <= FeeHistoryCap /\ length ones = blocks /\
    fh_OldestBlock r = lastBlock + 1 - Z.of_nat blocks /\
    (forall i one, ones !! i = Some one -> fetch_history kvi chainID (fh_OldestBlock r + Z.of_nat i) ps = Ok (Some one)) /\
    length (fh_BaseFee r) = S blocks /\ take blocks (fh_BaseFee r) = (fun one => Some (ofh_BaseFee one)) <$> ones /\
    fh_GasUsedRatio r = ofh_GasUsedRatio <$> ones /\
    fh_Reward r = (if decide (ps = []) then None else Some (ofh_Reward <$> ones)) /\
    Forall (fun one => length (ofh_Reward one) = length ps /\ Sorted Z.le (ofh_Reward one)) ones.
Proof.
  destruct (fee_history_inv _ _ _ _ Hcap Hlast Hu Hok) as (blocks & ones & H1 & H2 & H3 & H4 & Hfetch & H5 & H6 & H7 & H8 & _).
  exists blocks, ones. split_and!; [done..|]. apply Forall_lookup. intros i one Ho%Hfetch.
  by apply (fetch_inv _ _ _ Hsort) in Ho as (_ & ? & ?).
Qed.

(** The base fee that eth_feeHistory gives for the next block is the one the latest block
    had itself, however much gas that block used: it is computed from a header whose gas
    limit and gas used are zero, and for these the formula of EIP-1559 keeps the fee. *)
Theorem fee_history_next_base_fee (userBlockCount lastBlock : Z) (ps : list float64) (r : FeeHistoryResult) (head : EthHeader) (baseFee : Z)
    (Hcalc : forall cfg h, node_ChainConfig = Ok cfg -> hdr_GasUsed h = hdr_GasLimit h / 2 -> CalcBaseFee cfg h = hdr_BaseFee h)
    (Hcap : FeeHistoryCap < 2 ^ 31 - 1)
    (Hlast : 0 <= lastBlock < MaxInt64) (Hu : 1 <= userBlockCount <= MaxInt64)
    (Hhead : HeaderByNumber kvi EthLatestBlockNumber = Ok head) (Hbase : eh_BaseFee head = Some baseFee)
    (Hok : FeeHistory kvi chainID userBlockCount lastBlock ps = Ok (Some r)) :
  last (fh_BaseFee r) = Some (Some baseFee).
Proof.
  assert (0 <= userBlockCount <= MaxInt64) as Hu0 by lia.
  destruct (fee_history_inv _ _ _ _ Hcap Hlast Hu0 Hok) as (blocks & ones & H1 & _ & H3 & _ & Hfetch & H5 & _ & _ & _ & Hl).
  assert (next_base_fee kvi = Ok baseFee \/ forall b, next_base_fee kvi <> Ok b) as Hnext.
  { unfold next_base_fee, CurrentHeader, mbind, res_bind. rewrite Hhead, Hbase.
    unfold Backend_ChainConfig. destruct node_ChainConfig as [cfg|e|e]; [|by right..]. left. rewrite (Hcalc cfg); [done|done|].
    apply header_no_gas in Hhead as [-> ->]. done. }
  rewrite last_lookup, H5. cbn [Nat.pred]. rewrite Hl. destruct (last ones) as [one|] eqn:El.
  2:{ apply last_None in El. subst ones. cbn in H3. lia. }
  rewrite last_lookup in El. apply Hfetch, fetch_next in El. destruct Hnext as [Hnext|Hno]; [congruence|by apply Hno in El].
Qed.

(** A block count of 2^63 or more makes eth_feeHistory panic: the number becomes negative
    as a signed one, passes the check against the cap, and a slice of negative length is
    made. *)
Theorem fee_history_huge_count (userBlockCount lastBlock : Z) (ps : list float64)
    (Hcap : 0 <= FeeHistoryCap) (Hlast : 0 <= lastBlock < MaxInt64) (Hu : MaxInt64 < userBlockCount <= MaxUint64) :
  exists e, FeeHistory kvi chainID userBlockCount lastBlock ps = Panic e.
Proof.
  unfold FeeHistory, mbind, res_bind. destruct (Z.ltb_spec lastBlock 0); [lia|].
  assert (int64_of_uint64 userBlockCount < 0) as Hneg.
  { unfold int64_of_uint64. rewrite (proj2 (Z.leb_gt _ _)) by lia. unfold MaxUint64, MaxInt64 in *. lia. }
  rewrite (proj2 (Z.ltb_ge _ _)) by lia.
  assert (add_int64 lastBlock 1 = lastBlock + 1) as ->.
  { unfold add_int64. rewrite wrap64_id by (unfold is_u64, MaxUint64, MaxInt64 in *; lia).
    unfold int64_of_uint64. by rewrite (proj2 (Z.leb_le _ _)) by lia. }
  rewrite (proj2 (Z.ltb_ge (lastBlock + 1) _)) by lia. unfold make_slice. rewrite (proj2 (Z.ltb_lt _ 0)) by done. by eexists.
Qed.

(** A suggested price is the base fee and an eighth of it, and not below the minimum. *)
Lemma SuggestGasTipCap_eighth baseFee : 0 <= baseFee <= MaxInt64 -> SuggestGasTipCap baseFee = baseFee / 8.
Proof.
  intros Hb. unfold SuggestGasTipCap, big_Int64.
  assert (int64_of_uint64 (wrap64 baseFee) = baseFee) as E.
  { rewrite wrap64_id by (unfold is_u64, MaxUint64, MaxInt64 in *; lia). unfold int64_of_uint64. by rewrite (proj2 (Z.leb_le _ _)) by lia. }
  rewrite E, Z.mul_1_r, E, Z.quot_div_nonneg by lia. rewrite (proj2 (Z.ltb_ge _ _)); [done|]. apply Z.div_pos; lia.
Qed.
End FeeProofs.
