(* ===== verification/Websockets.v ===== *)
(** * The websocket server

    rpc/websockets.go: connections that read requests one after the other, answer
    eth_subscribe and eth_unsubscribe themselves and hand all other requests to the HTTP
    server, and the goroutines that write the notifications of subscriptions.  The events
    come from an event system of its own (FilterSystem.v).  Connections, listeners, the
    event loop and the node's events interleave: a subscription takes several steps, since
    nothing keeps two connections from subscribing at the same time. *)

From Stdlib Require Import Strings.Byte Floats.SpecFloat.
From stdpp Require Import base gmap list strings.
From S2P Require Import Prelude Sdk Geth EvmTypes TxTypes AnteTx Genesis Indexer RpcLogs FilterSystem RpcBlocks RpcFees.

(** ** Requests *)

(** A value of type interface{} that came out of encoding/json. *)
Inductive GoVal : Type :=
  | GoNil
  | GoBool (b : bool)
  | GoFloat (f : float64)
  | GoString (s : string)
  | GoSlice (l : list GoVal)
  | GoMap (m : list (string * GoVal)).
Abbreviation GoMembers := (list (string * GoVal)).

(** [m[k]]: nil when there is no such key. *)
Fixpoint map_get (m : GoMembers) (k : string) : GoVal :=
  match m with
  | [] => GoNil
  | (k', v) :: m' => if decide (k' = k) then v else map_get m' k
  end.

(** encoding/json into a map or into any value, strconv.ParseFloat, and the HTTP server. *)
Class WsLib : Type := {
  Unmarshal_map : bytes -> res GoMembers;
  Unmarshal_any : bytes -> res GoVal;
  ParseFloat : string -> res float64;
  http_Post : bytes -> res bytes
}.

Fixpoint isBatch (raw : bytes) : bool :=
  match raw with
  | [] => false
  | c :: raw' =>
      if bool_decide (c = x20) || bool_decide (c = x09) || bool_decide (c = x0a) || bool_decide (c = x0d)
      then isBatch raw' else bool_decide (c = x5b)
  end.

(** ** What is written to a connection *)

Inductive NotifyResult : Type := NewHead (h : EthHeader) | NewLog (l : EthLog) | NewTxHash (h : string).
Inductive Frame : Type :=
  | ErrorResponse (e : gerr)
  | SubscriptionResponse (id : float64) (result : ID)
  | UnsubscriptionResponse (id : float64) (result : bool)
  | Forwarded (v : GoVal)
  | Notification (subscription : ID) (result : NotifyResult).

(** A connection whose peer is gone ([closeSent]: the error of a write is then
    [websocket.ErrCloseSent]) or that was closed takes no more writes. *)
Inductive link : Type := Live | Broken (closeSent : bool) | Closed.

(** Where the read loop is while it serves eth_subscribe: the topic exists and is to be
    joined; the node's client is asked for it; the event loop is to install it; it is to be
    joined after that; the answer is to be written. *)
Inductive stage : Type := Joining | Dialing | Installing | Installed | Answering.
Record Pending : Type := mkPending {
  p_stage : stage;
  p_connID : float64;
  p_subID : ID;
  p_crit : FilterCriteria;
  p_sub : Subscription
}.

(** [cn_subscriptions] holds the topic and the number that the unsubscribe function of the
    event bus closes over; [cn_reading]: the read loop runs. *)
Record Conn : Type := mkConn {
  cn_link : link;
  cn_reading : bool;
  cn_pending : option Pending;
  cn_subscriptions : gmap ID (string * Z);
  cn_out : list Frame
}.
Definition NewConn : Conn := mkConn Live true None ∅ [].

Inductive WsEvent : Type :=
  | WsEventTx (tx data : bytes)
  | WsEventNewBlockHeader (header : CometHeader)
  | WsEventOther.

(** A goroutine of a subscription; [wl_got] is the event it has taken. *)
Record wsListener : Type := mkWsListener {
  wl_conn : nat;
  wl_typ : FilterType;
  wl_crit : FilterCriteria;
  wl_topic : string;
  wl_uid : Z;
  wl_ch : chan;
  wl_got : option WsEvent;
  wl_running : bool
}.

Record Server : Type := mkServer {
  ws_events : EventSystem;
  ws_conns : gmap nat Conn;
  ws_listeners : gmap ID wsListener
}.
Definition NewServer : Server := mkServer NewEventSystem ∅ ∅.

Definition in_events {A} (m : M EventSystem A) : M Server A :=
  zoom ws_events (fun es s => mkServer es (ws_conns s) (ws_listeners s)) m.
Definition on_conn (c : nat) (f : Conn -> Conn) : M Server unit :=
  modify (fun s => mkServer (ws_events s) (alter f c (ws_conns s)) (ws_listeners s)).
Definition set_link (l : link) (cn : Conn) : Conn := mkConn l (cn_reading cn) (cn_pending cn) (cn_subscriptions cn) (cn_out cn).
Definition set_pending (p : option Pending) (cn : Conn) : Conn :=
  mkConn (cn_link cn) (cn_reading cn) p (cn_subscriptions cn) (cn_out cn).
Definition set_subscriptions (m : gmap ID (string * Z)) (cn : Conn) : Conn :=
  mkConn (cn_link cn) (cn_reading cn) (cn_pending cn) m (cn_out cn).
Definition add_frame (f : Frame) (cn : Conn) : Conn :=
  match cn_link cn with
  | Live => mkConn Live (cn_reading cn) (cn_pending cn) (cn_subscriptions cn) (cn_out cn ++ [f])
  | _ => cn
  end.
Definition set_ws_listeners (ls : gmap ID wsListener) : M Server unit :=
  modify (fun s => mkServer (ws_events s) (ws_conns s) ls).

(** [wsConn.WriteJSON]: whether it succeeded. *)
Definition WriteJSON (c : nat) (f : Frame) : M Server bool :=
  on_conn c (add_frame f) ;;
  gets (fun s => match ws_conns s !! c with Some cn => match cn_link cn with Live => true | _ => false end | None => false end).

Definition sendErrResponse (c : nat) (e : gerr) : M Server unit := WriteJSON c (ErrorResponse e) ;; mret tt.

Section Websockets.
Context {G : Geth} {HX : HexText} {B : Bech32} {N : Node} {RG : RpcGeth} {WL : WsLib}.

(** ** The criteria of a log subscription *)

Definition parse_address (v : GoVal) : res Address :=
  match v with GoString s => Ok (HexToAddress s) | _ => Err (Errorf "invalid address") end.
Definition parse_addresses (v : GoVal) : res (list Address) :=
  match v with
  | GoNil => Ok []
  | GoString s => Ok [HexToAddress s]
  | GoSlice l => mapM parse_address l
  | _ => Err (Errorf "invalid addresses; must be address or array of addresses")
  end.
Definition parse_topic (v : GoVal) : res Hash :=
  match v with GoString s => Ok (HexToHash s) | _ => Err (Errorf "invalid subtopic") end.
Definition parse_subtopics (v : GoVal) : res (list Hash) :=
  match v with
  | GoNil => Ok []
  | GoString s => Ok [HexToHash s]
  | GoSlice l => mapM parse_topic l
  | _ => Err (Errorf "invalid subtopics")
  end.
Definition parse_topics (v : GoVal) : res (list (list Hash)) :=
  match v with
  | GoNil => Ok []
  | GoSlice l => mapM parse_subtopics l
  | _ => Err (Errorf "invalid topics")
  end.
Definition criteria_of (extra : GoVal) : res FilterCriteria :=
  match extra with
  | GoNil => Ok no_criteria
  | GoMap params =>
      addresses ← parse_addresses (map_get params "address");
      topics ← parse_topics (map_get params "topics");
      Ok (mkFilterCriteria None None None addresses topics)
  | _ => Err (Errorf "invalid criteria")
  end.

(** ** The read loop *)

Definition tcpGetAndSendResponse (c : nat) (mb : bytes) : M Server unit :=
  body ← wrap_err (Errorf "Could not perform request") (lift_res (http_Post mb));
  wsSend ← wrap_err (Errorf "failed to unmarshal rest-server response") (lift_res (Unmarshal_any body));
  ok ← WriteJSON c (Forwarded wsSend);
  require ok (Errorf "write failed").
Definition forward (c : nat) (mb : bytes) : M Server unit := catch_err (tcpGetAndSendResponse c mb) (sendErrResponse c).

(** The parameters, or the error. *)
Definition getParamsAndCheckValid (msg : GoMembers) : res (GoVal * list GoVal) :=
  match map_get msg "params" with
  | GoSlice [] => Err (Errorf "empty parameters")
  | GoSlice (p :: params) => Ok (p, params)
  | _ => Err (Errorf "invalid parameters")
  end.
Definition conn_id (v : GoVal) : res float64 :=
  match v with
  | GoString id => ParseFloat id
  | GoFloat id => Ok id
  | _ => Err (Errorf "unknown type")
  end.

(** What a subscription is to: its type, its topic and its criteria.  The criteria have no
    block numbers, so that [SubscribeLogs] accepts all of them. *)
Definition subscription_of (p : GoVal) (params : list GoVal) : res (FilterType * string * FilterCriteria) :=
  match p with
  | GoString method =>
      if decide (method = "newHeads"%string) then Ok (BlocksSubscription, headerEvents, no_criteria)
      else if decide (method = "logs"%string) then
        crit ← criteria_of (match params with extra :: _ => extra | [] => GoNil end);
        Ok (LogsSubscription, evmEvents, crit)
      else if decide (method = "newPendingTransactions"%string) then Ok (PendingTransactionsSubscription, txEvents, no_criteria)
      else if decide (method = "syncing"%string) then Err (Errorf "syncing subscription is not implemented")
      else Err (Errorf "unsupported method")
  | _ => Err (Errorf "invalid parameters")
  end.

(** The first look at the topics of the event bus; [subID] and [id] are what [rpc.NewID]
    gives here and in the event system. *)
Definition begin_subscribe (c : nat) (connID : float64) (subID id : ID) (sub : FilterType * string * FilterCriteria) : M Server unit :=
  let '(typ, event, crit) := sub in
  existing ← gets (fun s => bool_decide (is_Some (topics (eventBus (ws_events s)) !! event)));
  on_conn c (set_pending (Some (mkPending (if (existing : bool) then Joining else Dialing) connID subID crit (mkSubscription id typ event)))).

Definition unsubscribe_entry (k : string * Z) : M Server unit := in_events (on_bus (unsubscribe k.1 k.2)).
Definition eth_unsubscribe (c : nat) (connID : float64) (p : GoVal) : M Server unit :=
  match p with
  | GoString subID =>
      cn ← gets (fun s => ws_conns s !! c);
      let unsubFn := cn ≫= (fun cn => cn_subscriptions cn !! subID) in
      match unsubFn with
      | Some k => on_conn c (fun cn => set_subscriptions (delete subID (cn_subscriptions cn)) cn) ;; unsubscribe_entry k
      | None => mret tt
      end ;;
      WriteJSON c (UnsubscriptionResponse connID (bool_decide (is_Some unsubFn))) ;;
      mret tt
  | _ => sendErrResponse c (Errorf "invalid parameters")
  end.

(** One turn of the loop, up to the first wait of a subscription. *)
Definition handle_message (c : nat) (mb : bytes) (subID id : ID) : M Server unit :=
  if isBatch mb then forward c mb
  else
    match Unmarshal_map mb with
    | Panic e => panic e
    | Err e => sendErrResponse c e
    | Ok msg =>
        match map_get msg "method" with
        | GoString method =>
            match conn_id (map_get msg "id") with
            | Panic e => panic e
            | Err _ => sendErrResponse c (Errorf "invalid type for connection ID")
            | Ok connID =>
                if decide (method = "eth_subscribe"%string) then
                  match getParamsAndCheckValid msg with
                  | Ok (p, params) =>
                      match subscription_of p params with
                      | Ok sub => begin_subscribe c connID subID id sub
                      | Err e => sendErrResponse c e
                      | Panic e => panic e
                      end
                  | Err e => sendErrResponse c e
                  | Panic e => panic e
                  end
                else if decide (method = "eth_unsubscribe"%string) then
                  match getParamsAndCheckValid msg with
                  | Ok (p, _) => eth_unsubscribe c connID p
                  | Err e => sendErrResponse c e
                  | Panic e => panic e
                  end
                else forward c mb
            end
        | _ => forward c mb
        end
    end.

(** The steps of a subscription; [dialed] is the error of the node's client, if any. *)
Definition fail_subscribe (c : nat) (e : gerr) : M Server unit :=
  on_conn c (set_pending None) ;; sendErrResponse c e.
Definition to_stage (c : nat) (p : Pending) (st : stage) : M Server unit :=
  on_conn c (set_pending (Some (mkPending st (p_connID p) (p_subID p) (p_crit p) (p_sub p)))).
Definition join (c : nat) (p : Pending) (e : gerr) : M Server unit :=
  catch_err (
    '(ch, uid) ← in_events (on_bus (Subscribe (sub_event (p_sub p))));
    ls ← gets ws_listeners;
    set_ws_listeners (<[p_subID p := mkWsListener c (sub_typ (p_sub p)) (p_crit p) (sub_event (p_sub p)) uid ch None true]> ls) ;;
    on_conn c (fun cn => set_subscriptions (<[p_subID p := (sub_event (p_sub p), uid)]> (cn_subscriptions cn)) cn) ;;
    to_stage c p Answering) (fun _ => fail_subscribe c e).
Definition proceed (c : nat) (p : Pending) (dialed : option gerr) : M Server unit :=
  match p_stage p with
  | Joining => join c p (Errorf "failed to subscribe to topic")
  | Dialing => match dialed with Some e => fail_subscribe c e | None => to_stage c p Installing end
  | Installing => in_events (eventLoop_install (p_sub p)) ;; to_stage c p Installed
  | Installed => join c p (Errorf "failed to subscribe to topic after installed")
  | Answering =>
      on_conn c (set_pending None) ;;
      WriteJSON c (SubscriptionResponse (p_connID p) (p_subID p)) ;; mret tt
  end.

(** A read failed: the connection is closed and the deferred function cancels every
    subscription. *)
Definition end_readLoop (c : nat) : M Server unit :=
  cn ← gets (fun s => ws_conns s !! c);
  on_conn c (fun cn => mkConn Closed false (cn_pending cn) ∅ (cn_out cn)) ;;
  match cn with
  | Some cn => mapM_ unsubscribe_entry (map_to_list (cn_subscriptions cn)).*2
  | None => mret tt
  end.

(** ** The listeners *)

Variable DecodeTxResponse : bytes -> res MsgEthereumTxResponse.
Definition InitialBaseFee : Z := 1000000000.

Inductive ws_reaction : Type := Skip | Notify (l : list NotifyResult) | Stop | WsCrash (e : gerr).
Definition heads_reaction (ev : WsEvent) : ws_reaction :=
  match ev with
  | WsEventNewBlockHeader header => Notify [NewHead (EthHeaderFromCometBFT header (replicate 256 x00) (Some InitialBaseFee))]
  | _ => Skip
  end.
Definition ws_logs_reaction (crit : FilterCriteria) (ev : WsEvent) : ws_reaction :=
  match ev with
  | WsEventTx _ data =>
      match DecodeTxResponse data with
      | Ok txResponse =>
          match Receipt_UnmarshalBinary (resp_MarshalledReceipt txResponse) with
          | Ok receipt => Notify (NewLog <$> FilterLogs (decoded_logs receipt) (fc_FromBlock crit) (fc_ToBlock crit)
                                               (fc_Addresses crit) (fc_Topics crit))
          | _ => Stop
          end
      | _ => Stop
      end
  | _ => Skip
  end.
Definition HashStr (m : MsgEthereumTx) : res string :=
  ethTx ← MsgEthereumTx_AsTransaction m; Ok (Hash_String (Transaction_Hash ethTx)).
Definition txs_reaction (ev : WsEvent) : ws_reaction :=
  match ev with
  | WsEventTx tx _ =>
      match RawTxToEthTx tx with
      | Ok ethTxs =>
          match mapM HashStr ethTxs with
          | Ok hashes => Notify (NewTxHash <$> hashes)
          | Err e | Panic e => WsCrash e
          end
      | Err _ => Skip
      | Panic e => WsCrash e
      end
  | _ => Skip
  end.
Definition ws_react (l : wsListener) (ev : WsEvent) : ws_reaction :=
  match wl_typ l with
  | BlocksSubscription => heads_reaction ev
  | LogsSubscription => ws_logs_reaction (wl_crit l) ev
  | PendingTransactionsSubscription => txs_reaction ev
  end.

(** A failed write closes the connection, unless a close was sent already. *)
Definition close_after_failure (cn : Conn) : Conn :=
  match cn_link cn with Broken false => set_link Closed cn | _ => cn end.
Definition notify (c : nat) (subID : ID) (r : NotifyResult) : M Server unit :=
  ok ← WriteJSON c (Notification subID r);
  if (ok : bool) then mret tt else on_conn c close_after_failure.

Definition after_event (running : bool) (l : wsListener) : wsListener :=
  mkWsListener (wl_conn l) (wl_typ l) (wl_crit l) (wl_topic l) (wl_uid l) (wl_ch l) None running.
Definition ws_listen (subID : ID) (l : wsListener) (ev : WsEvent) : M Server unit :=
  ls ← gets ws_listeners;
  match ws_react l ev with
  | Skip => set_ws_listeners (<[subID := after_event true l]> ls)
  | Stop => set_ws_listeners (<[subID := after_event false l]> ls)
  | Notify rs => set_ws_listeners (<[subID := after_event true l]> ls) ;; mapM_ (notify (wl_conn l) subID) rs
  | WsCrash e => panic e
  end.

(** An event of the node: the channel of its query, the publisher that reads it, and the
    listeners that are ready to take the event. *)
Definition give_event (ev : WsEvent) (l : wsListener) : wsListener :=
  mkWsListener (wl_conn l) (wl_typ l) (wl_crit l) (wl_topic l) (wl_uid l) (wl_ch l) (Some ev) (wl_running l).
Definition ws_publish (query : string) (ev : WsEvent) (ready : gset ID) (s : Server) : Server :=
  match topicChans (ws_events s) !! query with
  | None => s
  | Some ch =>
      match list_find (fun p => p.2 = ch) (publishers (eventBus (ws_events s))) with
      | None => s
      | Some (_, (name, _)) =>
          let subs := default ∅ (subscribers (eventBus (ws_events s)) !! name) in
          mkServer (ws_events s) (ws_conns s) (map_imap (fun id l =>
            Some (if bool_decide (id ∈ ready) && bool_decide (subs !! wl_uid l = Some (wl_ch l)) && bool_decide (wl_got l = None) && wl_running l
                  then give_event ev l else l)) (ws_listeners s))
      end
  end.

(** ** The server *)

Inductive ws_action : Type :=
  | WConnect (c : nat)
  | WPeerGone (c : nat) (closeSent : bool)
  | WMessage (c : nat) (mb : bytes) (subID id : ID)
  | WProceed (c : nat) (dialed : option gerr)
  | WReadError (c : nat)
  | WPublish (query : string) (ev : WsEvent) (ready : gset ID)
  | WListen (subID : ID).

(** [rpc.NewID] is random: ids that are not in use. *)
Definition fresh_id (subID : ID) (s : Server) : Prop :=
  ws_listeners s !! subID = None /\
  forall c cn, ws_conns s !! c = Some cn ->
    cn_subscriptions cn !! subID = None /\ forall p, cn_pending cn = Some p -> p_subID p <> subID.

Definition ws_enabled (a : ws_action) (s : Server) : Prop :=
  match a with
  | WConnect c => ws_conns s !! c = None
  | WPeerGone c _ => exists cn, ws_conns s !! c = Some cn /\ cn_link cn = Live
  | WMessage c _ subID _ =>
      (exists cn, ws_conns s !! c = Some cn /\ cn_reading cn = true /\ cn_pending cn = None /\ cn_link cn <> Closed) /\ fresh_id subID s
  | WProceed c _ => exists cn p, ws_conns s !! c = Some cn /\ cn_pending cn = Some p
  | WReadError c => exists cn, ws_conns s !! c = Some cn /\ cn_reading cn = true /\ cn_pending cn = None
  | WPublish _ _ _ => True
  | WListen subID => exists l ev, ws_listeners s !! subID = Some l /\ wl_got l = Some ev
  end.

Definition ws_perform (a : ws_action) : M Server unit :=
  match a with
  | WConnect c => modify (fun s => mkServer (ws_events s) (<[c := NewConn]> (ws_conns s)) (ws_listeners s))
  | WPeerGone c closeSent => on_conn c (set_link (Broken closeSent))
  | WMessage c mb subID id => handle_message c mb subID id
  | WProceed c dialed =>
      p ← gets (fun s => ws_conns s !! c ≫= cn_pending);
      match p with Some p => proceed c p dialed | None => mret tt end
  | WReadError c => end_readLoop c
  | WPublish query ev ready => modify (ws_publish query ev ready)
  | WListen subID =>
      l ← gets (fun s => ws_listeners s !! subID);
      match l with
      | Some l => match wl_got l with Some ev => ws_listen subID l ev | None => mret tt end
      | None => mret tt
      end
  end.

(** A panic ends the process. *)
Inductive ws_steps : Server -> list ws_action -> Server -> Prop :=
  | ws_refl s : ws_steps s [] s
  | ws_step s tr s' a s'' : ws_steps s tr s' -> ws_enabled a s' -> ws_perform a s' = (Ok tt, s'') -> ws_steps s (tr ++ [a]) s''.
End Websockets.

(** ** What each step does to the server *)

Definition upd (s : Server) (c : nat) (cn : Conn) : Server := mkServer (ws_events s) (<[c := cn]> (ws_conns s)) (ws_listeners s).

Lemma alter_at {A} (m : gmap nat A) c x f : m !! c = Some x -> alter f c m = <[c := f x]> m.
Proof.
  intros E. apply map_eq. intros k. destruct (decide (k = c)) as [->|Hk].
  - by rewrite lookup_alter_eq, lookup_insert_eq, E.
  - by rewrite lookup_alter_ne, lookup_insert_ne by congruence.
Qed.
Lemma on_conn_at c f s cn : ws_conns s !! c = Some cn -> on_conn c f s = (Ok tt, upd s c (f cn)).
Proof. intros E. unfold on_conn, modify, upd. by rewrite (alter_at _ _ cn). Qed.
Lemma upd_at s c cn : ws_conns (upd s c cn) !! c = Some cn.
Proof. apply lookup_insert_eq. Qed.
Lemma upd_upd s c x y : upd (upd s c x) c y = upd s c y.
Proof. unfold upd. simpl. by rewrite insert_insert_eq. Qed.
Lemma upd_same s c cn : ws_conns s !! c = Some cn -> upd s c cn = s.
Proof. intros E. unfold upd. rewrite insert_id by done. by destruct s. Qed.

Definition is_live (l : link) : bool := match l with Live => true | _ => false end.
Lemma add_frame_link f cn : cn_link (add_frame f cn) = cn_link cn.
Proof. unfold add_frame. by destruct (cn_link cn) eqn:E. Qed.
Lemma WriteJSON_at c f s cn : ws_conns s !! c = Some cn ->
  WriteJSON c f s = (Ok (is_live (cn_link cn)), upd s c (add_frame f cn)).
Proof.
  intros E. unfold WriteJSON, mbind, M_bind. rewrite (on_conn_at _ _ _ cn) by done. unfold gets. rewrite upd_at, add_frame_link. by destruct (cn_link cn).
Qed.
Lemma sendErr_at c e s cn : ws_conns s !! c = Some cn -> sendErrResponse c e s = (Ok tt, upd s c (add_frame (ErrorResponse e) cn)).
Proof. intros E. unfold sendErrResponse, mbind, M_bind. by rewrite (WriteJSON_at _ _ _ cn). Qed.

Section Proofs.
Context {G : Geth} {HX : HexText} {B : Bech32} {N : Node} {RG : RpcGeth} {WL : WsLib}.
Variable DecodeTxResponse : bytes -> res MsgEthereumTxResponse.
Abbreviation perform := (ws_perform DecodeTxResponse).
Abbreviation runs := (ws_steps DecodeTxResponse).

(** A request of the websocket server's own. *)
Definition own_request (mb : bytes) (method : string) (connID : float64) (msg : GoMembers) : Prop :=
  isBatch mb = false /\ Unmarshal_map mb = Ok msg /\ map_get msg "method" = GoString method /\ conn_id (map_get msg "id") = Ok connID.
Definition subscribe_request (mb : bytes) (connID : float64) (sub : FilterType * string * FilterCriteria) : Prop :=
  exists msg p params, own_request mb "eth_subscribe" connID msg /\ getParamsAndCheckValid msg = Ok (p, params) /\
    subscription_of p params = Ok sub.
Definition unsubscribe_request (mb : bytes) (connID : float64) (subID : ID) : Prop :=
  exists msg params, own_request mb "eth_unsubscribe" connID msg /\ getParamsAndCheckValid msg = Ok (GoString subID, params).
(** What cannot be served: no JSON object, no usable id, or bad parameters. *)
Definition malformed (mb : bytes) : Prop :=
  isBatch mb = false /\
  ((exists e, Unmarshal_map mb = Err e) \/
   exists msg method, Unmarshal_map mb = Ok msg /\ map_get msg "method" = GoString method /\
     ((exists e, conn_id (map_get msg "id") = Err e) \/
      (method = "eth_subscribe"%string \/ method = "eth_unsubscribe"%string) /\ (exists e, getParamsAndCheckValid msg = Err e) \/
      (exists p params e, method = "eth_subscribe"%string /\ getParamsAndCheckValid msg = Ok (p, params) /\ subscription_of p params = Err e) \/
      (exists p params, method = "eth_unsubscribe"%string /\ getParamsAndCheckValid msg = Ok (p, params) /\ forall id, p <> GoString id))).
Definition served (mb : bytes) (v : GoVal) : Prop := exists body, http_Post mb = Ok body /\ Unmarshal_any body = Ok v.

(** Which answers a request may have. *)
Definition answer_ok (mb : bytes) (f : Frame) : Prop :=
  match f with
  | Notification _ _ => False
  | Forwarded v => served mb v
  | SubscriptionResponse connID _ => exists sub, subscribe_request mb connID sub
  | UnsubscriptionResponse connID _ => exists subID, unsubscribe_request mb connID subID
  | ErrorResponse _ => malformed mb \/ (exists connID sub, subscribe_request mb connID sub) \/ (forall v, ~ served mb v)
  end.

Lemma forward_at c mb s s' cn : ws_conns s !! c = Some cn -> forward c mb s = (Ok tt, s') ->
  exists f, answer_ok mb f /\ s' = upd s c (add_frame f cn).
Proof.
  intros E. unfold forward, tcpGetAndSendResponse, catch_err, wrap_err, lift_res, require, mbind, M_bind.
  destruct (http_Post mb) as [body|e|e] eqn:Hh; [|rewrite (sendErr_at _ _ _ cn) by done; intros [= <-]|done].
  2: { eexists. split; [|done]. right. right. intros v (b & Hb & _). congruence. }
  destruct (Unmarshal_any body) as [v|e|e] eqn:Hu; [|rewrite (sendErr_at _ _ _ cn) by done; intros [= <-]|done].
  2: { eexists. split; [|done]. right. right. intros v (b & Hb & Hv). congruence. }
  rewrite (WriteJSON_at _ _ _ cn) by done. assert (answer_ok mb (Forwarded v)) as Ha by (eexists; eauto).
  destruct (is_live (cn_link cn)) eqn:El; cbn.
  - intros [= <-]. eauto.
  - rewrite (sendErr_at _ _ _ (add_frame (Forwarded v) cn)) by apply upd_at. intros [= <-]. exists (Forwarded v). split; [done|].
    rewrite upd_upd. f_equal. unfold add_frame. destruct (cn_link cn) eqn:Ec; [done|by rewrite Ec|by rewrite Ec].
Qed.

(** A request is answered, or a subscription begins. *)
Lemma handle_message_cases c mb subID id s s' cn : ws_conns s !! c = Some cn -> handle_message c mb subID id s = (Ok tt, s') ->
  (exists f, answer_ok mb f /\ s' = upd s c (add_frame f cn)) \/
  (exists st connID sub, subscribe_request mb connID sub /\ st <> Answering /\
     (st = Joining -> is_Some (topics (eventBus (ws_events s)) !! sub.1.2)) /\ st <> Installed /\
     s' = upd s c (set_pending (Some (mkPending st connID subID sub.2 (mkSubscription id sub.1.1 sub.1.2))) cn)) \/
  (exists f id' k, answer_ok mb f /\ cn_subscriptions cn !! id' = Some k /\
     s' = mkServer (snd (on_bus (unsubscribe k.1 k.2) (ws_events s)))
       (<[c := add_frame f (set_subscriptions (delete id' (cn_subscriptions cn)) cn)]> (ws_conns s)) (ws_listeners s)).
Proof.
  intros E. unfold handle_message. destruct (isBatch mb) eqn:Hb; [intros H; left; by eapply forward_at|].
  destruct (Unmarshal_map mb) as [msg|e|e] eqn:Hm; [|rewrite (sendErr_at _ _ _ cn) by done; intros [= <-]|done].
  2: { left. eexists. split; [|done]. left. split; [done|]. left. eauto. }
  destruct (map_get msg "method") as [| | |method| |] eqn:Hmeth; try (intros H; left; by eapply forward_at).
  assert (forall R, (exists e, R = ErrorResponse e /\ malformed mb) -> answer_ok mb R) as Hbad by (intros ? (e & -> & ?); by left).
  destruct (conn_id (map_get msg "id")) as [connID|e|e] eqn:Hid; [|rewrite (sendErr_at _ _ _ cn) by done; intros [= <-]|done].
  2: { left. eexists. split; [|done]. apply Hbad. eexists. split; [done|]. split; [done|]. right. eauto 10. }
  destruct (decide (method = "eth_subscribe"%string)) as [->|Hns].
  - destruct (getParamsAndCheckValid msg) as [[p params]|e|e] eqn:Hp; [|rewrite (sendErr_at _ _ _ cn) by done; intros [= <-]|done].
    2: { left. eexists. split; [|done]. apply Hbad. eexists. split; [done|]. split; [done|]. right. eauto 10. }
    destruct (subscription_of p params) as [[[typ event] crit]|e|e] eqn:Hs; [|rewrite (sendErr_at _ _ _ cn) by done; intros [= <-]|done].
    2: { left. eexists. split; [|done]. apply Hbad. eexists. split; [done|]. split; [done|]. right.
         exists msg, "eth_subscribe"%string. split_and!; [done|done|]. right. right. left. by exists p, params, e. }
    unfold begin_subscribe, gets, mbind, M_bind. rewrite (on_conn_at _ _ _ cn) by done. intros [= <-]. right. left.
    eexists _, connID, (typ, event, crit). split_and!; [exists msg, p, params; by split_and!| | | |reflexivity];
      case_bool_decide; done.
  - destruct (decide (method = "eth_unsubscribe"%string)) as [->|Hnu]; [|intros H; left; by eapply forward_at].
    destruct (getParamsAndCheckValid msg) as [[p params]|e|e] eqn:Hp; [|rewrite (sendErr_at _ _ _ cn) by done; intros [= <-]|done].
    2: { left. eexists. split; [|done]. apply Hbad. eexists. split; [done|]. split; [done|]. right. eauto 10. }
    unfold eth_unsubscribe. destruct p as [| | |sid| |];
      try (rewrite (sendErr_at _ _ _ cn) by done; intros [= <-]; left; eexists; split; [|done]; apply Hbad; eexists; split; [done|];
        split; [done|]; right; exists msg, "eth_unsubscribe"%string; split_and!; [done|done|]; right; right; right; by eexists _, params).
    unfold gets, mbind, M_bind. rewrite E. cbn [option_bind].
    assert (forall b, answer_ok mb (UnsubscriptionResponse connID b)) as Ha by (intros b; exists sid, msg, params; by split_and!).
    destruct (cn_subscriptions cn !! sid) as [k|] eqn:Ek.
    + rewrite (on_conn_at _ _ _ cn) by done. unfold unsubscribe_entry, in_events, zoom. cbn [ws_events upd ws_conns ws_listeners].
      destruct (on_bus (unsubscribe k.1 k.2) (ws_events s)) as [r es] eqn:Eu.
      assert (r = Ok tt) as -> by (unfold on_bus, zoom, unsubscribe, modify in Eu; congruence).
      rewrite (WriteJSON_at _ _ _ (set_subscriptions (delete sid (cn_subscriptions cn)) cn)) by apply lookup_insert_eq.
      intros [= <-]. right. right. eexists _, sid, k. split_and!; [apply Ha|done|]. rewrite Eu. cbn [snd]. unfold upd. cbn. by rewrite insert_insert_eq.
    + unfold mret, M_ret. rewrite (WriteJSON_at _ _ _ cn) by done. intros [= <-]. left. eauto.
Qed.

(** The bus gives a new channel and the next number to a subscriber of a known topic. *)
Lemma Subscribe_eq name b : Subscribe name b =
  (if bool_decide (is_Some (topics b !! name)) then Ok (next_chan b, add64 (currentUniqueID b) 1) else Err (Errorf "topic not found"),
   if bool_decide (is_Some (topics b !! name))
   then mkBus (topics b) (<[name := <[add64 (currentUniqueID b) 1 := next_chan b]> (default ∅ (subscribers b !! name))]> (subscribers b))
          (add64 (currentUniqueID b) 1) (publishers b) (closed b) (S (next_chan b))
   else b).
Proof. unfold Subscribe, gets, require, mbind, M_bind. by case_bool_decide. Qed.

Definition staged (st : stage) (p : Pending) : Pending := mkPending st (p_connID p) (p_subID p) (p_crit p) (p_sub p).
(** The server after a subscription joined its topic. *)
Definition joined (c : nat) (cn : Conn) (p : Pending) (s : Server) : Server :=
  let b := eventBus (ws_events s) in
  let event := sub_event (p_sub p) in
  let uid := add64 (currentUniqueID b) 1 in
  mkServer (set_bus (snd (Subscribe event b)) (ws_events s))
    (<[c := set_pending (Some (staged Answering p)) (set_subscriptions (<[p_subID p := (event, uid)]> (cn_subscriptions cn)) cn)]> (ws_conns s))
    (<[p_subID p := mkWsListener c (sub_typ (p_sub p)) (p_crit p) event uid (next_chan b) None true]> (ws_listeners s)).

Lemma fail_at c e s cn : ws_conns s !! c = Some cn ->
  fail_subscribe c e s = (Ok tt, upd s c (add_frame (ErrorResponse e) (set_pending None cn))).
Proof.
  intros E. unfold fail_subscribe, mbind, M_bind. rewrite (on_conn_at _ _ _ cn) by done.
  rewrite (sendErr_at _ _ _ (set_pending None cn)) by apply upd_at. by rewrite upd_upd.
Qed.
Lemma join_at c p e s cn : ws_conns s !! c = Some cn ->
  join c p e s = (Ok tt, if bool_decide (is_Some (topics (eventBus (ws_events s)) !! sub_event (p_sub p))) then joined c cn p s
                         else upd s c (add_frame (ErrorResponse e) (set_pending None cn))).
Proof.
  intros E. unfold join, catch_err, in_events, on_bus, zoom, mbind, M_bind. rewrite Subscribe_eq. case_bool_decide as Ht.
  - unfold gets, set_ws_listeners, modify, to_stage.
    rewrite (on_conn_at _ _ _ cn) by done. erewrite on_conn_at by apply upd_at. rewrite upd_upd. unfold joined, upd. cbn.
    rewrite Subscribe_eq. by rewrite bool_decide_true.
  - assert (set_bus (eventBus (ws_events s)) (ws_events s) = ws_events s) as -> by (by destruct s as [[] ? ?]).
    assert (mkServer (ws_events s) (ws_conns s) (ws_listeners s) = s) as -> by (by destruct s). by apply fail_at.
Qed.

Lemma install_eq f es : exists es', eventLoop_install f es = (Ok tt, es').
Proof.
  unfold eventLoop_install, on_bus, zoom, make_chan, AddTopic, gets, modify, require, mbind, M_bind. cbn. case_bool_decide; eauto.
Qed.

Lemma proceed_cases c p dialed s s' cn : ws_conns s !! c = Some cn -> proceed c p dialed s = (Ok tt, s') ->
  (p_stage p <> Answering /\ exists e, s' = upd s c (add_frame (ErrorResponse e) (set_pending None cn)) /\
     ((exists e', p_stage p = Dialing /\ dialed = Some e') \/
      (p_stage p = Joining \/ p_stage p = Installed) /\ ~ is_Some (topics (eventBus (ws_events s)) !! sub_event (p_sub p)))) \/
  (p_stage p = Dialing /\ s' = upd s c (set_pending (Some (staged Installing p)) cn)) \/
  (p_stage p = Installing /\ exists es', eventLoop_install (p_sub p) (ws_events s) = (Ok tt, es') /\
     s' = mkServer es' (<[c := set_pending (Some (staged Installed p)) cn]> (ws_conns s)) (ws_listeners s)) \/
  ((p_stage p = Joining \/ p_stage p = Installed) /\ is_Some (topics (eventBus (ws_events s)) !! sub_event (p_sub p)) /\ s' = joined c cn p s) \/
  (p_stage p = Answering /\ s' = upd s c (add_frame (SubscriptionResponse (p_connID p) (p_subID p)) (set_pending None cn))).
Proof.
  intros E. unfold proceed. destruct (p_stage p) eqn:Est.
  - rewrite (join_at _ _ _ _ cn) by done. case_bool_decide; intros [= <-]; [right; right; right; left; auto|left; split; [done|]; eauto 8].
  - destruct dialed as [e|].
    + rewrite (fail_at _ _ _ cn) by done. intros [= <-]. left. split; [done|]. eauto 8.
    + unfold to_stage. rewrite (on_conn_at _ _ _ cn) by done. intros [= <-]. by right; left.
  - unfold in_events, zoom, to_stage, mbind, M_bind. destruct (install_eq (p_sub p) (ws_events s)) as [es' Hes]. rewrite Hes.
    rewrite (on_conn_at _ _ _ cn) by done. intros [= <-]. right. right. left. split; [done|]. exists es'. by split.
  - rewrite (join_at _ _ _ _ cn) by done. case_bool_decide; intros [= <-]; [right; right; right; left; auto|left; split; [done|]; eauto 8].
  - unfold mbind, M_bind. rewrite (on_conn_at _ _ _ cn) by done.
    erewrite WriteJSON_at by apply upd_at. rewrite upd_upd. intros [= <-]. by right; right; right; right.
Qed.

(** A listener writes all results, or none when the peer is gone. *)
Definition notified (subID : ID) (rs : list NotifyResult) (cn : Conn) : Conn :=
  match cn_link cn with
  | Live => mkConn Live (cn_reading cn) (cn_pending cn) (cn_subscriptions cn) (cn_out cn ++ (Notification subID <$> rs))
  | Broken false => match rs with [] => cn | _ => set_link Closed cn end
  | _ => cn
  end.
Lemma notified_cons subID r rs cn :
  notified subID rs (if is_live (cn_link cn) then add_frame (Notification subID r) cn else close_after_failure cn) = notified subID (r :: rs) cn.
Proof.
  destruct cn as [[|[]|] rd pd sb out]; cbn; [|by destruct rs|by destruct rs|by destruct rs]. by rewrite <- app_assoc.
Qed.
Lemma notify_at c subID r s cn : ws_conns s !! c = Some cn ->
  notify c subID r s = (Ok tt, upd s c (if is_live (cn_link cn) then add_frame (Notification subID r) cn else close_after_failure cn)).
Proof.
  intros E. unfold notify, mbind, M_bind. rewrite (WriteJSON_at _ _ _ cn) by done. destruct (is_live (cn_link cn)) eqn:El; [done|].
  erewrite on_conn_at by apply upd_at. rewrite upd_upd. do 3 f_equal. unfold add_frame. by destruct (cn_link cn).
Qed.
Lemma notify_none c subID r s : ws_conns s !! c = None -> notify c subID r s = (Ok tt, s).
Proof.
  intros E. assert (forall f, on_conn c f s = (Ok tt, s)) as Hf.
  { intros f. unfold on_conn, modify. rewrite alter_id by (intros x Hx; congruence). by destruct s. }
  unfold notify, WriteJSON, mbind, M_bind. rewrite Hf. cbn. by rewrite E, Hf.
Qed.
Lemma notify_all c subID rs s cn : ws_conns s !! c = Some cn ->
  mapM_ (notify c subID) rs s = (Ok tt, upd s c (notified subID rs cn)).
Proof.
  revert s cn. induction rs as [|r rs IH]; intros s cn E; cbn [mapM_].
  - unfold mret, M_ret. f_equal. rewrite upd_same; [done|]. rewrite E. f_equal. destruct cn as [[|[]|] ? ? ? out]; try done.
    unfold notified. cbn. by rewrite app_nil_r.
  - unfold mbind, M_bind. rewrite (notify_at _ _ _ _ cn) by done. erewrite IH by apply upd_at. by rewrite upd_upd, notified_cons.
Qed.
Lemma notify_all_none c subID rs s : ws_conns s !! c = None -> mapM_ (notify c subID) rs s = (Ok tt, s).
Proof. intros E. induction rs as [|r rs IH]; cbn [mapM_]; [done|]. unfold mbind, M_bind. by rewrite notify_none. Qed.
Lemma ws_listen_conns subID l ev s s' : ws_listen DecodeTxResponse subID l ev s = (Ok tt, s') ->
  ws_events s' = ws_events s /\
  (exists r, ws_listeners s' = <[subID := after_event r l]> (ws_listeners s)) /\
  (ws_conns s' = ws_conns s \/ exists cn rs, ws_conns s !! wl_conn l = Some cn /\ ws_react DecodeTxResponse l ev = Notify rs /\
     ws_conns s' = <[wl_conn l := notified subID rs cn]> (ws_conns s)).
Proof.
  unfold ws_listen, gets, set_ws_listeners, modify, mbind, M_bind.
  destruct (ws_react DecodeTxResponse l ev) as [|rs| |e] eqn:Er; [intros [= <-]; cbn; eauto| |intros [= <-]; cbn; eauto|done].
  destruct (ws_conns s !! wl_conn l) as [cn|] eqn:Ec.
  - erewrite notify_all by exact Ec. intros [= <-]. cbn. eauto 10.
  - rewrite notify_all_none by exact Ec. intros [= <-]. cbn. eauto.
Qed.

(** ** Requests and answers *)

Definition is_answer (f : Frame) : bool := match f with Notification _ _ => false | _ => true end.
Definition answers (cn : Conn) : list Frame := List.filter is_answer (cn_out cn).
Definition sent_to (c : nat) (a : ws_action) : option bytes :=
  match a with WMessage c' mb _ _ => if decide (c' = c) then Some mb else None | _ => None end.
Definition messages (c : nat) (tr : list ws_action) : list bytes := omap (sent_to c) tr.

(** What a step does to a connection that takes writes. *)
Definition conn_step (a : ws_action) (c : nat) (cn cn' : Conn) : Prop :=
  cn_link cn' = Live -> cn_link cn = Live /\
  match sent_to c a with
  | Some mb => cn_pending cn = None /\
      ((exists f, answer_ok mb f /\ cn_pending cn' = None /\ answers cn' = answers cn ++ [f]) \/
       (exists p sub, subscribe_request mb (p_connID p) sub /\ cn_pending cn' = Some p /\ answers cn' = answers cn))
  | None =>
      (answers cn' = answers cn /\ p_connID <$> cn_pending cn' = p_connID <$> cn_pending cn) \/
      (exists p f, cn_pending cn = Some p /\ cn_pending cn' = None /\ answers cn' = answers cn ++ [f] /\
         ((exists e, f = ErrorResponse e) \/ f = SubscriptionResponse (p_connID p) (p_subID p)))
  end.

Lemma answers_add_frame f cn : cn_link cn = Live -> is_answer f = true -> answers (add_frame f cn) = answers cn ++ [f].
Proof. intros E Hf. unfold answers, add_frame. rewrite E. cbn. rewrite List.filter_app. cbn. by rewrite Hf. Qed.
Lemma add_frame_pending f cn : cn_pending (add_frame f cn) = cn_pending cn.
Proof. unfold add_frame. by destruct (cn_link cn). Qed.
Lemma answer_ok_is mb f : answer_ok mb f -> is_answer f = true.
Proof. by destruct f. Qed.
Lemma answers_notified subID rs cn : answers (notified subID rs cn) = answers cn.
Proof.
  unfold answers, notified. destruct (cn_link cn) as [|[]|]; [|done|by destruct rs|done]. cbn. rewrite List.filter_app.
  replace (List.filter is_answer (Notification subID <$> rs)) with (@nil Frame); [by rewrite app_nil_r|].
  induction rs; [done|by cbn].
Qed.
Lemma notified_fields subID rs cn : cn_pending (notified subID rs cn) = cn_pending cn /\
  cn_subscriptions (notified subID rs cn) = cn_subscriptions cn /\ cn_reading (notified subID rs cn) = cn_reading cn /\
  (cn_link (notified subID rs cn) = Live -> cn_link cn = Live).
Proof. unfold notified. destruct (cn_link cn) as [|[]|] eqn:E; try destruct rs; cbn; try rewrite E; done. Qed.
Lemma conn_step_none a c cn cn' : sent_to c a = None -> (cn_link cn' = Live -> cn_link cn = Live) -> answers cn' = answers cn ->
  p_connID <$> cn_pending cn' = p_connID <$> cn_pending cn -> conn_step a c cn cn'.
Proof. intros Hs Hl Ha Hp Hlive. rewrite Hs. split; [auto|left; done]. Qed.
Lemma conn_step_same a c cn : sent_to c a = None -> conn_step a c cn cn.
Proof. intros Hs. by apply conn_step_none. Qed.

Lemma unsubscribe_entry_eq k s :
  unsubscribe_entry k s = (Ok tt, mkServer (snd (on_bus (unsubscribe k.1 k.2) (ws_events s))) (ws_conns s) (ws_listeners s)).
Proof. done. Qed.
Lemma unsubscribe_all l s : exists es', mapM_ unsubscribe_entry l s = (Ok tt, mkServer es' (ws_conns s) (ws_listeners s)).
Proof.
  revert s. induction l as [|k l IH]; intros s; cbn [mapM_]; [exists (ws_events s); by destruct s|].
  unfold mbind, M_bind. rewrite unsubscribe_entry_eq. destruct (IH (mkServer (snd (on_bus (unsubscribe k.1 k.2) (ws_events s))) (ws_conns s) (ws_listeners s)))
    as [es' ->]. by exists es'.
Qed.

(** What a step leaves of every connection. *)
Lemma step_conn a s s' c : ws_enabled a s -> perform a s = (Ok tt, s') ->
  match ws_conns s !! c with
  | Some cn => exists cn', ws_conns s' !! c = Some cn' /\ conn_step a c cn cn'
  | None => sent_to c a = None /\ (ws_conns s' !! c = None \/ ws_conns s' !! c = Some NewConn)
  end.
Proof.
  assert (forall c0 cn' (m : gmap nat Conn) cn0, m !! c0 = Some cn0 -> conn_step a c0 cn0 cn' -> (c0 <> c -> sent_to c a = None) ->
    match m !! c with
    | Some cn => exists cn2, <[c0 := cn']> m !! c = Some cn2 /\ conn_step a c cn cn2
    | None => sent_to c a = None /\ (<[c0 := cn']> m !! c = None \/ <[c0 := cn']> m !! c = Some NewConn)
    end) as Hset.
  { intros c0 cn' m cn0 E0 Hst Hs. destruct (decide (c0 = c)) as [->|Hne].
    - rewrite E0, lookup_insert_eq. eauto.
    - rewrite lookup_insert_ne by done. destruct (m !! c) as [cn|]; [|auto]. exists cn. split; [done|]. apply conn_step_same. auto. }
  assert (sent_to c a = None -> match ws_conns s !! c with
    | Some cn => exists cn', ws_conns s !! c = Some cn' /\ conn_step a c cn cn'
    | None => sent_to c a = None /\ (ws_conns s !! c = None \/ ws_conns s !! c = Some NewConn) end) as Hkeep.
  { intros Hs. destruct (ws_conns s !! c) as [cn|] eqn:E; [|auto]. exists cn. split; [done|]. by apply conn_step_same. }
  destruct a as [c0|c0 cl|c0 mb subID id|c0 dl|c0|q ev rd|subID]; cbn [ws_enabled ws_perform].
  - intros Hn [= <-]. cbn. destruct (decide (c0 = c)) as [->|Hne].
    + rewrite Hn, lookup_insert_eq. auto.
    + rewrite lookup_insert_ne by done. by apply Hkeep.
  - intros (cn & E & Hl). rewrite (on_conn_at _ _ _ cn) by done. intros [= <-]. cbn. eapply Hset; [done| |done]. by apply conn_step_none.
  - intros [(cn & E & _ & Hp & _) _] Hh. assert (c0 <> c -> sent_to c (WMessage c0 mb subID id) = None) as Hs by (intros; cbn; by rewrite decide_False).
    destruct (handle_message_cases _ _ _ _ _ _ _ E Hh) as [(f & Hf & ->)|[(st & connID & sub & Hsub & _ & _ & _ & ->)|(f & id' & k & Hf & _ & ->)]];
      cbn [ws_conns upd]; (eapply Hset; [done| |done]); intros Hl; rewrite ?add_frame_link in Hl; cbn in Hl; (split; [done|]); cbn [sent_to]; rewrite decide_True by done;
      (split; [done|]).
    + left. exists f. split_and!; [done|by rewrite add_frame_pending|]. apply answers_add_frame; [done|by eapply answer_ok_is].
    + right. eexists _, sub. split_and!; [|reflexivity|done]. done.
    + left. exists f. split_and!; [done|by rewrite add_frame_pending|]. rewrite answers_add_frame; [done|done|by eapply answer_ok_is].
  - intros (cn & p & E & Hp). unfold gets, mbind, M_bind. rewrite E. cbn [option_bind]. rewrite Hp. intros Hpr.
    destruct (proceed_cases _ _ _ _ _ _ E Hpr) as [(_ & e & -> & _)|[(_ & ->)|[(_ & es' & _ & ->)|[(_ & _ & ->)|(_ & ->)]]]];
      cbn [ws_conns upd joined]; (eapply Hset; [done| |done]).
    + intros Hl. rewrite add_frame_link in Hl. cbn in Hl. split; [done|]. right. exists p, (ErrorResponse e).
      rewrite add_frame_pending, answers_add_frame by done. split_and!; eauto.
    + apply conn_step_none; try done. cbn. by rewrite Hp.
    + apply conn_step_none; try done. cbn. by rewrite Hp.
    + apply conn_step_none; try done. cbn. by rewrite Hp.
    + intros Hl. rewrite add_frame_link in Hl. cbn in Hl. split; [done|]. right. exists p, (SubscriptionResponse (p_connID p) (p_subID p)).
      rewrite add_frame_pending, answers_add_frame by done. split_and!; eauto.
  - intros (cn & E & _). unfold end_readLoop, gets, mbind, M_bind. rewrite E, (on_conn_at _ _ _ cn) by done.
    destruct (unsubscribe_all (map_to_list (cn_subscriptions cn)).*2 (upd s c0 (mkConn Closed false (cn_pending cn) ∅ (cn_out cn)))) as [es' ->].
    intros [= <-]. cbn. eapply Hset; [done| |done]. by apply conn_step_none.
  - intros _ [= <-]. assert (ws_conns (ws_publish q ev rd s) = ws_conns s) as ->; [|by apply Hkeep].
    unfold ws_publish. destruct (topicChans _ !! q); [|done]. by destruct (list_find _ _) as [[? []]|].
  - intros (l & ev & E & Hg). unfold gets, mbind, M_bind. rewrite E, Hg. intros (_ & _ & [->|(cn & rs & Ec & _ & ->)])%ws_listen_conns; [by apply Hkeep|].
    destruct (notified_fields subID rs cn) as (H1 & _ & _ & H4). eapply Hset; [done| |done]. apply conn_step_none; [done|done|apply answers_notified|by rewrite H1].
Qed.

Definition balanced_answers (tr : list ws_action) (c : nat) (cn : Conn) : Prop :=
  match cn_pending cn with
  | None => Forall2 answer_ok (messages c tr) (answers cn)
  | Some p => exists ms mb sub, messages c tr = ms ++ [mb] /\ Forall2 answer_ok ms (answers cn) /\ subscribe_request mb (p_connID p) sub
  end.
Lemma answers_invariant tr s : runs NewServer tr s -> forall c,
  match ws_conns s !! c with
  | None => messages c tr = []
  | Some cn => cn_link cn = Live -> balanced_answers tr c cn
  end.
Proof.
  intros Hr. remember NewServer as s0 eqn:H0. induction Hr as [s0|s0 tr s a s' Hr IH Hen Hp]; intros c; subst s0.
  { cbn. by rewrite lookup_empty. }
  specialize (IH eq_refl c). pose proof (step_conn a s s' c Hen Hp) as Hs.
  assert (messages c (tr ++ [a]) = messages c tr ++ omap (sent_to c) [a]) as Hm by (unfold messages; by rewrite omap_app).
  destruct (ws_conns s !! c) as [cn|].
  - destruct Hs as (cn' & -> & Hst). intros Hl. destruct (Hst Hl) as [Hl0 Hst']. specialize (IH Hl0). unfold balanced_answers in *.
    cbn [omap list_omap] in Hm. destruct (sent_to c a) as [mb|] eqn:Ha; rewrite Hm.
    + destruct Hst' as [Hpn [(f & Hf & -> & ->)|(p & sub & Hsub & -> & ->)]]; rewrite Hpn in IH.
      * apply Forall2_app; [done|]. by constructor.
      * by exists (messages c tr), mb, sub.
    + rewrite app_nil_r. destruct Hst' as [[-> Hpp]|(p & f & Hp0 & -> & -> & Hf)].
      * destruct (cn_pending cn) as [p|], (cn_pending cn') as [p'|]; try done. by injection Hpp as ->.
      * rewrite Hp0 in IH. destruct IH as (ms & mb & sub & -> & HF & Hsub). apply Forall2_app; [done|]. constructor; [|done].
        destruct Hf as [[e ->]| ->]; cbn; [right; left; eauto|eauto].
  - destruct Hs as [Hn Hs]. cbn [omap list_omap] in Hm. rewrite Hn, app_nil_r, IH in Hm. destruct Hs as [-> | ->]; [done|].
    intros _. unfold balanced_answers. cbn. rewrite Hm. constructor.
Qed.

End Proofs.
