(* ===== verification/WebsocketsSafety.v ===== *)
(** * The websocket server: subscriptions and notifications

    An invariant of all interleavings: the subscribers at the event bus are the
    subscriptions of the open connections, and a notification goes to the connection that
    subscribed and fits what it asked for.  And the criteria of a log subscription are read
    as they were written. *)

From Stdlib Require Import Strings.Byte Floats.SpecFloat.
From stdpp Require Import base gmap list strings.
From S2P Require Import Prelude Sdk Geth EvmTypes TxTypes AnteTx Genesis Indexer RpcLogs FilterSystem RpcBlocks RpcFees Websockets.

(** The subscriber with a number at a topic. *)
Definition sub_at (es : EventSystem) (name : string) (uid : Z) : option chan := subscribers (eventBus es) !! name ≫= (fun m => m !! uid).
Definition has_topic (es : EventSystem) (name : string) : Prop := is_Some (topics (eventBus es) !! name).

(** What stays the same of a listener. *)
Record info : Type := mkInfo {
  i_conn : nat;
  i_typ : FilterType;
  i_crit : FilterCriteria;
  i_topic : string;
  i_uid : Z;
  i_ch : chan
}.
Definition info_of (l : wsListener) : info := mkInfo (wl_conn l) (wl_typ l) (wl_crit l) (wl_topic l) (wl_uid l) (wl_ch l).
Definition infos (s : Server) (id : ID) : option info := info_of <$> ws_listeners s !! id.

Definition entry (conns : gmap nat Conn) (c : nat) (id : ID) (k : string * Z) : Prop :=
  exists cn, conns !! c = Some cn /\ cn_subscriptions cn !! id = Some k.
Definition plain (crit : FilterCriteria) : Prop := fc_FromBlock crit = None /\ fc_ToBlock crit = None.

(** A result is of the kind that was subscribed to, and a log matches the criteria. *)
Definition fits (i : info) (r : NotifyResult) : Prop :=
  match r with
  | NewHead _ => i_typ i = BlocksSubscription
  | NewLog l => i_typ i = LogsSubscription /\ matches (fc_Addresses (i_crit i)) (fc_Topics (i_crit i)) (el_Log l)
  | NewTxHash _ => i_typ i = PendingTransactionsSubscription
  end.
Definition note_ok (s : Server) (c : nat) (f : Frame) : Prop :=
  match f with
  | Notification id r => exists i, infos s id = Some i /\ i_conn i = c /\ fits i r
  | _ => True
  end.

Definition pending_ok (s : Server) (c : nat) (cn : Conn) (p : Pending) : Prop :=
  cn_reading cn = true /\ plain (p_crit p) /\ (p_stage p <> Answering -> infos s (p_subID p) = None) /\
  (p_stage p = Joining \/ p_stage p = Installed -> has_topic (ws_events s) (sub_event (p_sub p))) /\
  forall c2 cn2 p2, ws_conns s !! c2 = Some cn2 -> cn_pending cn2 = Some p2 -> p_subID p2 = p_subID p -> c2 = c.

Record ws_inv (n : nat) (s : Server) : Prop := mkInv {
  inv_entry c id k : entry (ws_conns s) c id k ->
    exists i, infos s id = Some i /\ i_conn i = c /\ (i_topic i, i_uid i) = k /\ sub_at (ws_events s) k.1 k.2 = Some (i_ch i) /\
      1 <= k.2 <= currentUniqueID (eventBus (ws_events s));
  inv_sub name uid ch : sub_at (ws_events s) name uid = Some ch -> exists c id, entry (ws_conns s) c id (name, uid);
  inv_uid c1 id1 k1 c2 id2 k2 : entry (ws_conns s) c1 id1 k1 -> entry (ws_conns s) c2 id2 k2 -> k1.2 = k2.2 -> id1 = id2;
  inv_pending c cn p : ws_conns s !! c = Some cn -> cn_pending cn = Some p -> pending_ok s c cn p;
  inv_ended c cn : ws_conns s !! c = Some cn -> cn_reading cn = false -> cn_subscriptions cn = ∅;
  inv_cur : 0 <= currentUniqueID (eventBus (ws_events s)) <= Z.of_nat n;
  inv_plain id i : infos s id = Some i -> plain (i_crit i);
  inv_notes c cn f : ws_conns s !! c = Some cn -> f ∈ cn_out cn -> note_ok s c f
}.

Lemma entry_insert_same conns c cn cn' c1 id k : conns !! c = Some cn -> cn_subscriptions cn' = cn_subscriptions cn ->
  entry (<[c := cn']> conns) c1 id k <-> entry conns c1 id k.
Proof.
  intros E Hs. unfold entry. destruct (decide (c1 = c)) as [->|Hne].
  - rewrite lookup_insert_eq, E. split; intros (x & [= <-] & H); eexists; (split; [done|]); congruence.
  - by rewrite lookup_insert_ne by done.
Qed.

(** A step that changes neither subscriptions nor the bus. *)
Lemma inv_same n s s' : ws_inv n s -> ws_conns s' = ws_conns s -> (forall id, infos s' id = infos s id) -> ws_events s' = ws_events s ->
  ws_inv (S n) s'.
Proof.
  intros [H1 H2 H3 H4 H5 H6 H7 H8] Hc Hi He.
  split; unfold pending_ok in *; rewrite ?Hc, ?He; [|done|done| |done|lia| |].
  - intros c id k. rewrite Hi. apply H1.
  - intros c cn p. rewrite Hi. apply H4.
  - intros id i. rewrite Hi. apply H7.
  - intros c cn [| | | |id r]; try done. cbn. rewrite Hi. apply (H8 c cn (Notification id r)).
Qed.

Lemma inv_update n s s' c cn cn' : ws_inv n s -> ws_conns s !! c = Some cn -> ws_conns s' = <[c := cn']> (ws_conns s) ->
  (forall id, infos s' id = infos s id) -> (forall name uid, sub_at (ws_events s') name uid = sub_at (ws_events s) name uid) ->
  currentUniqueID (eventBus (ws_events s')) = currentUniqueID (eventBus (ws_events s)) ->
  (forall name, has_topic (ws_events s) name -> has_topic (ws_events s') name) ->
  cn_subscriptions cn' = cn_subscriptions cn -> cn_reading cn' = cn_reading cn ->
  (forall f, f ∈ cn_out cn' -> f ∈ cn_out cn \/ note_ok s c f) ->
  (forall p, cn_pending cn' = Some p -> pending_ok s' c cn' p) -> ws_inv (S n) s'.
Proof.
  intros [H1 H2 H3 H4 H5 H6 H7 H8] E Hc Hi Hsub Hcur Htop Hs Hr Hf Hp.
  assert (forall f c', note_ok s' c' f <-> note_ok s c' f) as Hnote by (intros [| | | |id r] c'; cbn; [..|by rewrite Hi]; done).
  split; rewrite ?Hc.
  - intros c1 id k. rewrite (entry_insert_same _ _ cn) by done. rewrite Hi, Hsub, Hcur. apply H1.
  - intros name uid ch. rewrite Hsub. intros (c1 & id & Hen)%H2. exists c1, id. by rewrite (entry_insert_same _ _ cn).
  - intros c1 id1 k1 c2 id2 k2. rewrite !(entry_insert_same _ _ cn) by done. apply H3.
  - intros c1 cn1 p. destruct (decide (c1 = c)) as [->|Hne]; [rewrite lookup_insert_eq; intros [= <-]; apply Hp|].
    rewrite lookup_insert_ne by done. intros E1 Hp1. destruct (H4 _ _ _ E1 Hp1) as (P1 & P2 & P3 & P4 & P5). unfold pending_ok. rewrite Hi.
    split_and!; [done|done|done|auto|]. intros c2 cn2 p2. rewrite Hc. destruct (decide (c2 = c)) as [->|Hne2].
    + rewrite lookup_insert_eq. intros [= <-] Hp2 Hid. destruct (Hp _ Hp2) as (_ & _ & _ & _ & Hd). symmetry.
      eapply Hd; [rewrite Hc, lookup_insert_ne by done; exact E1|exact Hp1|done].
    + rewrite lookup_insert_ne by done. apply P5.
  - intros c1 cn1. destruct (decide (c1 = c)) as [->|Hne]; [rewrite lookup_insert_eq; intros [= <-]|rewrite lookup_insert_ne by done; apply H5].
    rewrite Hr, Hs. by apply H5 with c.
  - rewrite Hcur. lia.
  - intros id i. rewrite Hi. apply H7.
  - intros c1 cn1 f. rewrite Hnote. destruct (decide (c1 = c)) as [->|Hne]; [rewrite lookup_insert_eq; intros [= <-] Hin|rewrite lookup_insert_ne by done; apply H8].
    destruct (Hf _ Hin) as [Hin'|]; [|done]. by eapply H8.
Qed.

(** A step that ends subscriptions of one connection, at the connection and at the bus. *)
Lemma inv_remove n s s' c cn cn' : ws_inv n s -> ws_conns s !! c = Some cn -> ws_conns s' = <[c := cn']> (ws_conns s) ->
  (forall id, infos s' id = infos s id) ->
  (forall id k, cn_subscriptions cn' !! id = Some k -> cn_subscriptions cn !! id = Some k) ->
  (forall name uid ch, sub_at (ws_events s') name uid = Some ch <-> sub_at (ws_events s) name uid = Some ch /\
     forall id, cn_subscriptions cn !! id = Some (name, uid) -> cn_subscriptions cn' !! id = Some (name, uid)) ->
  currentUniqueID (eventBus (ws_events s')) = currentUniqueID (eventBus (ws_events s)) ->
  topics (eventBus (ws_events s')) = topics (eventBus (ws_events s)) ->
  cn_pending cn' = None -> (cn_reading cn' = false -> cn_subscriptions cn' = ∅) ->
  (forall f, f ∈ cn_out cn' -> f ∈ cn_out cn \/ note_ok s c f) -> ws_inv (S n) s'.
Proof.
  intros Hinv E Hc Hi Hsubset Hsub Hcur Htop Hp Hr Hf. pose proof Hinv as [H1 H2 H3 H4 H5 H6 H7 H8].
  assert (forall c1 id k, entry (ws_conns s') c1 id k -> entry (ws_conns s) c1 id k) as Hmono.
  { intros c1 id k (x & Ex & Hx). rewrite Hc in Ex. destruct (decide (c1 = c)) as [->|Hne].
    - rewrite lookup_insert_eq in Ex. injection Ex as <-. exists cn. auto.
    - rewrite lookup_insert_ne in Ex by done. by exists x. }
  split.
  - intros c1 id [name uid] Hen. destruct (H1 _ _ _ (Hmono _ _ _ Hen)) as (i & Ei & Hci & Hk & Hs & Hu). exists i. rewrite Hi, Hcur.
    split_and!; try done; [|lia|lia]. apply Hsub. split; [done|]. intros id2 Hid2. cbn [fst snd] in *.
    assert (id2 = id) as ->.
    { eapply (H3 c id2 (name, uid) c1 id (name, uid)); [by exists cn|by apply Hmono|done]. }
    assert (c1 = c) as ->.
    { destruct (H1 c id (name, uid)) as (i2 & Ei2 & Hc2 & _); [by exists cn|]. congruence. }
    destruct Hen as (x & Ex & Hx). rewrite Hc, lookup_insert_eq in Ex. by injection Ex as <-.
  - intros name uid ch (Hs & Hkeep)%Hsub. destruct (H2 _ _ _ Hs) as (c1 & id & x & Ex & Hx). exists c1, id. unfold entry. rewrite Hc.
    destruct (decide (c1 = c)) as [->|Hne]; [rewrite lookup_insert_eq; exists cn'; split; [done|]; apply Hkeep; congruence|].
    rewrite lookup_insert_ne by done. by exists x.
  - intros c1 id1 k1 c2 id2 k2 ?%Hmono ?%Hmono. eauto.
  - intros c1 cn1 p. rewrite Hc. destruct (decide (c1 = c)) as [->|Hne]; [rewrite lookup_insert_eq; intros [= <-]; by rewrite Hp|].
    rewrite lookup_insert_ne by done. intros E1 Hp1. destruct (H4 _ _ _ E1 Hp1) as (P1 & P2 & P3 & P4 & P5). unfold pending_ok, has_topic. rewrite Hi, Htop.
    split_and!; try done. intros c2 cn2 p2. rewrite Hc. destruct (decide (c2 = c)) as [->|Hne2]; [rewrite lookup_insert_eq; intros [= <-]; by rewrite Hp|].
    rewrite lookup_insert_ne by done. apply P5.
  - intros c1 cn1. rewrite Hc. destruct (decide (c1 = c)) as [->|Hne]; [rewrite lookup_insert_eq; intros [= <-]; auto|rewrite lookup_insert_ne by done; apply H5].
  - rewrite Hcur. lia.
  - intros id i. rewrite Hi. apply H7.
  - intros c1 cn1 f. assert (note_ok s' c1 f <-> note_ok s c1 f) as -> by (destruct f as [| | | |id r]; cbn; [..|by rewrite Hi]; done).
    rewrite Hc. destruct (decide (c1 = c)) as [->|Hne]; [rewrite lookup_insert_eq; intros [= <-] Hin|rewrite lookup_insert_ne by done; apply H8].
    destruct (Hf _ Hin) as [Hin'|]; [|done]. by eapply H8.
Qed.

Lemma sub_at_unsubscribe es name uid name' uid' : sub_at (snd (on_bus (unsubscribe name uid) es)) name' uid' =
  if decide ((name', uid') = (name, uid)) then None else sub_at es name' uid'.
Proof.
  unfold sub_at. cbn. destruct (decide (name' = name)) as [->|Hn].
  - rewrite lookup_alter_eq. destruct (subscribers (eventBus es) !! name) as [m|]; cbn; [|by case_decide].
    destruct (decide (uid' = uid)) as [->|Hu]; [by rewrite lookup_delete_eq, decide_True|].
    rewrite lookup_delete_ne by done. by rewrite decide_False by congruence.
  - rewrite lookup_alter_ne by done. by rewrite decide_False by congruence.
Qed.
Lemma sub_at_unsubscribe_all l s s' : mapM_ unsubscribe_entry l s = (Ok tt, s') ->
  (forall name uid, sub_at (ws_events s') name uid = if decide ((name, uid) ∈ l) then None else sub_at (ws_events s) name uid) /\
  currentUniqueID (eventBus (ws_events s')) = currentUniqueID (eventBus (ws_events s)) /\
  topics (eventBus (ws_events s')) = topics (eventBus (ws_events s)).
Proof.
  revert s. induction l as [|k l IH]; intros s; cbn [mapM_].
  { intros [= <-]. split_and!; [|done|done]. intros. rewrite decide_False; [done|]. by apply not_elem_of_nil. }
  unfold mbind, M_bind. rewrite unsubscribe_entry_eq. intros (H1 & H2 & H3)%IH. split_and!; [|by rewrite H2|by rewrite H3].
  intros name uid. rewrite H1. cbn [ws_events]. rewrite sub_at_unsubscribe. destruct k as [kn ku]. cbn [fst snd].
  destruct (decide ((name, uid) ∈ l)) as [Hin|Hin]; [rewrite decide_True; [done|by right]|].
  case_decide as Hk; [rewrite decide_True; [done|]; rewrite Hk; by left|].
  rewrite decide_False; [done|]. by intros [?|?]%elem_of_cons.
Qed.

(** The new entry of a subscription that joins its topic. *)
Lemma sub_at_subscribe es name : has_topic es name ->
  (forall name' uid', sub_at (set_bus (snd (Subscribe name (eventBus es))) es) name' uid' =
    if decide ((name', uid') = (name, add64 (currentUniqueID (eventBus es)) 1)) then Some (next_chan (eventBus es)) else sub_at es name' uid') /\
  currentUniqueID (snd (Subscribe name (eventBus es))) = add64 (currentUniqueID (eventBus es)) 1 /\
  topics (snd (Subscribe name (eventBus es))) = topics (eventBus es).
Proof.
  intros Ht. rewrite Subscribe_eq, bool_decide_true by exact Ht. split_and!; [|done|done]. intros name' uid'. unfold sub_at. cbn.
  destruct (decide (name' = name)) as [->|Hn].
  - rewrite lookup_insert_eq. cbn. destruct (decide (uid' = add64 (currentUniqueID (eventBus es)) 1)) as [->|Hu].
    + by rewrite lookup_insert_eq, decide_True.
    + rewrite lookup_insert_ne by done. rewrite decide_False by congruence. destruct (subscribers (eventBus es) !! name); cbn; [done|apply lookup_empty].
  - rewrite lookup_insert_ne by done. by rewrite decide_False by congruence.
Qed.

Section Joined.
Variables (n : nat) (s : Server) (c : nat) (cn : Conn) (p : Pending).
Hypotheses (Hinv : ws_inv n s) (Hn : Z.of_nat n < MaxUint64) (E : ws_conns s !! c = Some cn) (Hp : cn_pending cn = Some p)
  (Hst : p_stage p <> Answering) (Ht : has_topic (ws_events s) (sub_event (p_sub p))).
Abbreviation cur := (currentUniqueID (eventBus (ws_events s))).
Abbreviation s' := (joined c cn p s).

Lemma next_uid : add64 cur 1 = cur + 1.
Proof. pose proof (inv_cur _ _ Hinv). apply add64_id; unfold is_u64, MaxUint64 in *; lia. Qed.
Lemma new_id : infos s (p_subID p) = None.
Proof. destruct (inv_pending _ _ Hinv _ _ _ E Hp) as (_ & _ & H & _). by apply H. Qed.
Lemma joined_lookup c1 cn1 : ws_conns s' !! c1 = Some cn1 ->
  (c1 = c /\ cn1 = set_pending (Some (staged Answering p)) (set_subscriptions (<[p_subID p := (sub_event (p_sub p), cur + 1)]> (cn_subscriptions cn)) cn)) \/
  (c1 <> c /\ ws_conns s !! c1 = Some cn1).
Proof.
  cbn [joined ws_conns]. rewrite next_uid. destruct (decide (c1 = c)) as [->|Hne].
  - rewrite lookup_insert_eq. intros [= <-]. auto.
  - rewrite lookup_insert_ne by done. auto.
Qed.
Lemma joined_entry c1 id k : entry (ws_conns s') c1 id k <->
  (c1 = c /\ id = p_subID p /\ k = (sub_event (p_sub p), cur + 1)) \/ (id <> p_subID p /\ entry (ws_conns s) c1 id k).
Proof.
  unfold entry. split.
  - intros (x & [[-> ->]|[Hne Ex]]%joined_lookup & Hx).
    + cbn in Hx. destruct (decide (id = p_subID p)) as [->|Hid]; [rewrite lookup_insert_eq in Hx; injection Hx as <-; auto|].
      rewrite lookup_insert_ne in Hx by done. right. split; [done|]. by exists cn.
    + right. split; [|by exists x]. intros ->. destruct (inv_entry _ _ Hinv c1 (p_subID p) k) as (i & Ei & _); [by exists x|]. rewrite new_id in Ei. done.
  - cbn [joined ws_conns]. rewrite next_uid. intros [(-> & -> & ->)|(Hid & x & Ex & Hx)].
    + rewrite lookup_insert_eq. eexists. split; [done|]. cbn. apply lookup_insert_eq.
    + destruct (decide (c1 = c)) as [->|Hne]; [|rewrite lookup_insert_ne by done; by exists x].
      rewrite lookup_insert_eq. eexists. split; [done|]. cbn. rewrite lookup_insert_ne by done. congruence.
Qed.
Lemma joined_infos id : infos s' id = if decide (id = p_subID p)
  then Some (mkInfo c (sub_typ (p_sub p)) (p_crit p) (sub_event (p_sub p)) (cur + 1) (next_chan (eventBus (ws_events s)))) else infos s id.
Proof.
  unfold infos. cbn [joined ws_listeners]. rewrite next_uid. case_decide as Hid; [subst; by rewrite lookup_insert_eq|by rewrite lookup_insert_ne].
Qed.
Lemma joined_events : (forall name uid, sub_at (ws_events s') name uid =
    if decide ((name, uid) = (sub_event (p_sub p), cur + 1)) then Some (next_chan (eventBus (ws_events s))) else sub_at (ws_events s) name uid) /\
  currentUniqueID (eventBus (ws_events s')) = cur + 1 /\ forall name, has_topic (ws_events s') name <-> has_topic (ws_events s) name.
Proof.
  destruct (sub_at_subscribe _ _ Ht) as (H1 & H2 & H3). rewrite next_uid in *. cbn [joined ws_events]. split_and!; [done|done|].
  intros name. unfold has_topic. cbn [set_bus eventBus]. by rewrite H3.
Qed.
Lemma joined_pending c1 cn1 p1 : ws_conns s' !! c1 = Some cn1 -> cn_pending cn1 = Some p1 -> pending_ok s' c1 cn1 p1.
Proof.
  destruct joined_events as (_ & _ & Htop). destruct (inv_pending _ _ Hinv _ _ _ E Hp) as (P1 & P2 & _ & _ & P5).
  intros [[-> ->]|[Hne E1]]%joined_lookup Hp1.
  - cbn in Hp1. injection Hp1 as <-. unfold pending_ok. split_and!; [done|done|done|by intros [?|?]|].
    intros c2 cn2 p2 [[-> _]|[_ E2]]%joined_lookup; [done|]. apply (P5 _ _ _ E2).
  - destruct (inv_pending _ _ Hinv _ _ _ E1 Hp1) as (Q1 & Q2 & Q3 & Q4 & Q5).
    assert (p_subID p1 <> p_subID p) as Hid by (intros Hx; by apply Hne, (P5 c1 cn1 p1)).
    unfold pending_ok. rewrite joined_infos, decide_False, Htop by done. split_and!; [done..|].
    intros c2 cn2 p2 [[-> ->]|[_ E2]]%joined_lookup Hp2 Hid2; [|eauto]. cbn in Hp2. injection Hp2 as <-. cbn in Hid2. congruence.
Qed.
Lemma inv_join : ws_inv (S n) s'.
Proof.
  destruct joined_events as (Hsub & Hcur & Htop). pose proof Hinv as [H1 H2 H3 H4 H5 H6 H7 H8].
  assert (forall c1 id k, entry (ws_conns s) c1 id k -> id <> p_subID p) as Hold.
  { intros c1 id k He ->. destruct (H1 _ _ _ He) as (i & Ei & _). rewrite new_id in Ei. done. }
  assert (forall c1 id k, entry (ws_conns s) c1 id k -> 1 <= k.2 <= cur) as Hle by (intros c1 id k He; by destruct (H1 _ _ _ He) as (? & _ & _ & _ & _ & ?)).
  split.
  - intros c1 id k [(-> & -> & ->)|(Hid & He)]%joined_entry; rewrite joined_infos, Hsub, Hcur.
    + rewrite !decide_True by done. eexists. split_and!; [done..|cbn; lia|cbn; lia].
    + rewrite decide_False by done. destruct (H1 _ _ _ He) as (i & Ei & Hci & Hk & Hs & Hu). exists i.
      rewrite decide_False by (destruct k; intros [= _ Hx]; cbn in *; lia). split_and!; try done; lia.
  - intros name uid ch. rewrite Hsub. case_decide as Hk; [intros _; exists c, (p_subID p); apply joined_entry; auto|].
    intros (c1 & id & He)%H2. exists c1, id. apply joined_entry. right. eauto.
  - intros c1 id1 k1 c2 id2 k2 [(-> & -> & ->)|(? & He1)]%joined_entry [(-> & -> & ->)|(? & He2)]%joined_entry Hk; [done| | |eauto]; cbn in Hk.
    + specialize (Hle _ _ _ He2). lia.
    + specialize (Hle _ _ _ He1). lia.
  - apply joined_pending.
  - intros c1 cn1 [[-> ->]|[_ E1]]%joined_lookup; [|eauto]. cbn. destruct (H4 _ _ _ E Hp) as (P1 & _). congruence.
  - rewrite Hcur. lia.
  - intros id i. rewrite joined_infos. case_decide; [intros [= <-]; by destruct (H4 _ _ _ E Hp) as (_ & ? & _)|apply H7].
  - intros c1 cn1 f E1 Hf. assert (note_ok s c1 f) as Hok.
    { apply joined_lookup in E1 as [[-> ->]|[_ E1]]; eauto. }
    destruct f as [| | | |id r]; try done. destruct Hok as (i & Ei & ?). exists i. rewrite joined_infos, decide_False; [done|]. intros ->. rewrite new_id in Ei. done.
Qed.
End Joined.

Section Proofs.
Context {G : Geth} {HX : HexText} {B : Bech32} {N : Node} {RG : RpcGeth} {WL : WsLib}.
Variable DecodeTxResponse : bytes -> res MsgEthereumTxResponse.
Abbreviation perform := (ws_perform DecodeTxResponse).
Abbreviation runs := (ws_steps DecodeTxResponse).

Lemma criteria_plain extra crit : criteria_of extra = Ok crit -> plain crit.
Proof.
  destruct extra as [| | | | |m]; cbn; [by intros [= <-]|done..|]. unfold mbind, res_bind.
  destruct (parse_addresses _); [|done..]. destruct (parse_topics _); [|done..]. by intros [= <-].
Qed.
Lemma subscription_plain p params sub : subscription_of p params = Ok sub -> plain sub.2.
Proof.
  unfold subscription_of. destruct p as [| | |method| |]; try done. repeat case_decide; try done; try by intros [= <-].
  unfold mbind, res_bind. destruct (criteria_of _) as [crit| |] eqn:Ec; [|done..]. intros [= <-]. by apply criteria_plain in Ec.
Qed.

Lemma install_events f es es' : eventLoop_install f es = (Ok tt, es') ->
  (forall name uid, sub_at es' name uid = sub_at es name uid) /\ currentUniqueID (eventBus es') = currentUniqueID (eventBus es) /\
  has_topic es' (sub_event f) /\ forall name, has_topic es name -> has_topic es' name.
Proof.
  unfold eventLoop_install, on_bus, zoom, make_chan, AddTopic, gets, modify, require, mbind, M_bind, sub_at, has_topic. cbn.
  case_bool_decide as Ht; cbn; intros [= <-]; cbn; [by split_and!|]. split_and!; [done|done|by rewrite lookup_insert_eq|].
  intros name [x Hx]. destruct (decide (name = sub_event f)) as [->|Hne]; [by rewrite lookup_insert_eq|rewrite lookup_insert_ne by done; eauto].
Qed.

Lemma reaction_fits l ev rs r : plain (wl_crit l) -> ws_react DecodeTxResponse l ev = Notify rs -> r ∈ rs -> fits (info_of l) r.
Proof.
  intros [Hf Ht]. unfold ws_react. destruct (wl_typ l) eqn:Et.
  - unfold ws_logs_reaction. destruct ev as [tx data| |]; try done. destruct (DecodeTxResponse data) as [resp| |]; try done.
    destruct (Receipt_UnmarshalBinary _) as [rcpt| |]; try done. rewrite Hf, Ht, FilterLogs_spec. intros [= <-] (lg & -> & Hin)%list_elem_of_fmap.
    apply list_elem_of_filter in Hin as [Hm _]. by split.
  - unfold heads_reaction. destruct ev; try done. intros [= <-] ->%list_elem_of_singleton. done.
  - unfold txs_reaction. destruct ev as [tx data| |]; try done. destruct (RawTxToEthTx tx) as [ms| |]; try done.
    destruct (mapM HashStr ms) as [hs| |]; try done. intros [= <-] (h & -> & _)%list_elem_of_fmap. done.
Qed.

Lemma out_frame f cn s c g : is_answer f = true -> g ∈ cn_out (add_frame f cn) -> g ∈ cn_out cn \/ note_ok s c g.
Proof.
  intros Hf. unfold add_frame. destruct (cn_link cn); try (by left). cbn. intros [?| ->%list_elem_of_singleton]%elem_of_app; [by left|]. right. by destruct f.
Qed.
Lemma add_frame_fields f cn : cn_subscriptions (add_frame f cn) = cn_subscriptions cn /\ cn_reading (add_frame f cn) = cn_reading cn /\
  cn_pending (add_frame f cn) = cn_pending cn.
Proof. unfold add_frame. by destruct (cn_link cn). Qed.

Lemma message_inv n c mb subID id s s' : ws_inv n s -> ws_enabled (WMessage c mb subID id) s -> handle_message c mb subID id s = (Ok tt, s') ->
  ws_inv (S n) s'.
Proof.
  intros Hinv [(cn & E & Hr & Hp & _) [Hfresh1 Hfresh2]] Hh.
  destruct (handle_message_cases _ _ _ _ _ _ _ E Hh)
    as [(f & Hf & ->)|[(st & connID & sub & Hsub & Hna & Hj & Hni & ->)|(f & id' & k & Hf & Hk & ->)]].
  - destruct (add_frame_fields f cn) as (F1 & F2 & F3). eapply (inv_update n s _ c cn (add_frame f cn)); try done.
    + intros g. apply out_frame. by eapply answer_ok_is.
    + intros p. by rewrite F3, Hp.
  - eapply (inv_update n s _ c cn); try done; [by left|]. intros p. cbn. intros [= <-]. unfold pending_ok. cbn. split_and!.
    + done.
    + destruct Hsub as (msg & q & params & _ & _ & Hs). by eapply subscription_plain.
    + intros _. unfold infos. cbn. by rewrite Hfresh1.
    + intros [Hx|Hx]; [by apply Hj|done].
    + intros c2 cn2 p2. destruct (decide (c2 = c)) as [->|Hne]; [done|]. rewrite lookup_insert_ne by done. intros E2 Hp2 Hid.
      destruct (Hfresh2 _ _ E2) as [_ Hx]. by apply Hx in Hp2.
  - destruct (add_frame_fields f (set_subscriptions (delete id' (cn_subscriptions cn)) cn)) as (F1 & F2 & F3).
    eapply (inv_remove n s _ c cn); try done.
    + intros id2 k2. rewrite F1. cbn. intros H%lookup_delete_Some. apply H.
    + intros name uid ch. cbn [ws_events]. rewrite sub_at_unsubscribe, F1. cbn [cn_subscriptions set_subscriptions]. destruct k as [kn ku]. cbn [fst snd].
      case_decide as Hd.
      * injection Hd as -> ->. split; [done|]. intros [_ Hx]. specialize (Hx _ Hk). by rewrite lookup_delete_eq in Hx.
      * split; [intros H; split; [done|]|by intros [? _]]. intros id2 Hid2. rewrite lookup_delete_ne; [done|]. intros ->. congruence.
    + by rewrite F3.
    + rewrite F2. cbn. congruence.
    + intros g. apply (out_frame f (set_subscriptions (delete id' (cn_subscriptions cn)) cn)). by eapply answer_ok_is.
Qed.

Lemma proceed_inv n c dialed s s' : ws_inv n s -> Z.of_nat n < MaxUint64 -> ws_enabled (WProceed c dialed) s ->
  perform (WProceed c dialed) s = (Ok tt, s') -> ws_inv (S n) s'.
Proof.
  intros Hinv Hn (cn & p & E & Hp). cbn. unfold gets, mbind, M_bind. rewrite E. cbn [option_bind]. rewrite Hp. intros Hpr.
  pose proof (inv_pending _ _ Hinv _ _ _ E Hp) as (P1 & P2 & P3 & P4 & P5).
  assert (forall st es ls, st <> Answering -> p_stage p <> Answering -> (st = Joining \/ st = Installed -> has_topic es (sub_event (p_sub p))) ->
    (forall id, info_of <$> ls !! id = infos s id) ->
    forall q, cn_pending (set_pending (Some (staged st p)) cn) = Some q ->
      pending_ok (mkServer es (<[c := set_pending (Some (staged st p)) cn]> (ws_conns s)) ls) c (set_pending (Some (staged st p)) cn) q) as Hst.
  { intros st es ls H1 H2 H3 Hls q. cbn. intros [= <-]. unfold pending_ok, infos. cbn. rewrite Hls. split_and!; [done|done|auto|done|].
    intros c2 cn2 p2. destruct (decide (c2 = c)) as [->|Hne]; [done|]. rewrite lookup_insert_ne by done. apply P5. }
  destruct (proceed_cases _ _ _ _ _ _ E Hpr) as [(_ & e & -> & _)|[(Hs & ->)|[(Hs & es' & Hi & ->)|[(Hs & Ht & ->)|(_ & ->)]]]].
  - destruct (add_frame_fields (ErrorResponse e) (set_pending None cn)) as (F1 & F2 & F3). eapply (inv_update n s _ c cn); try done.
    + intros g. by apply (out_frame _ (set_pending None cn)).
    + intros q. by rewrite F3.
  - eapply (inv_update n s _ c cn); try done; [by left|]. apply Hst; [done|by rewrite Hs|by intros [?|?]|done].
  - destruct (install_events _ _ _ Hi) as (I1 & I2 & I3 & I4). eapply (inv_update n s _ c cn); try done; [by left|]. apply Hst; [done|by rewrite Hs|done|done].
  - apply inv_join; try done. destruct Hs as [-> | ->]; done.
  - destruct (add_frame_fields (SubscriptionResponse (p_connID p) (p_subID p)) (set_pending None cn)) as (F1 & F2 & F3). eapply (inv_update n s _ c cn); try done.
    + intros g. by apply (out_frame _ (set_pending None cn)).
    + intros q. by rewrite F3.
Qed.

Lemma end_inv n c s s' : ws_inv n s -> ws_enabled (WReadError c) s -> end_readLoop c s = (Ok tt, s') -> ws_inv (S n) s'.
Proof.
  intros Hinv (cn & E & Hr & Hp). unfold end_readLoop, gets, mbind, M_bind. rewrite E, (on_conn_at _ _ _ cn) by done.
  set (s1 := upd _ _ _). intros Hu. destruct (sub_at_unsubscribe_all _ _ _ Hu) as (U1 & U2 & U3).
  destruct (unsubscribe_all (map_to_list (cn_subscriptions cn)).*2 s1) as [es' Hu']. rewrite Hu' in Hu. injection Hu as <-.
  eapply (inv_remove n s _ c cn (mkConn Closed false (cn_pending cn) ∅ (cn_out cn))); try done; [|by left].
  intros name uid ch. rewrite U1. cbn [cn_subscriptions]. case_decide as Hin.
  - split; [done|]. intros [_ Hx]. apply list_elem_of_fmap in Hin as ([id k] & Hk & Hin%elem_of_map_to_list). cbn in Hk. subst k.
    by specialize (Hx _ Hin).
  - split; [|by intros [? _]]. intros Hs. split; [done|]. intros id Hid. exfalso. apply Hin. apply list_elem_of_fmap.
    exists (id, (name, uid)). split; [done|]. by apply elem_of_map_to_list.
Qed.

Lemma infos_publish q ev rd s id : infos (ws_publish q ev rd s) id = infos s id.
Proof.
  unfold infos, ws_publish. destruct (topicChans _ !! q); [|done]. destruct (list_find _ _) as [[? []]|]; [|done]. cbn.
  rewrite map_lookup_imap. destruct (ws_listeners s !! id) as [l|]; [|done]. cbn. by destruct (_ && _).
Qed.
Lemma listen_inv n subID s s' : ws_inv n s -> ws_enabled (WListen subID) s -> perform (WListen subID) s = (Ok tt, s') -> ws_inv (S n) s'.
Proof.
  intros Hinv (l & ev & E & Hg). cbn. unfold gets, mbind, M_bind. rewrite E, Hg.
  intros (He & (r & Hl) & Hc)%ws_listen_conns.
  assert (forall id, infos s' id = infos s id) as Hi.
  { intros id. unfold infos. rewrite Hl. destruct (decide (id = subID)) as [->|Hne]; [by rewrite lookup_insert_eq, E|by rewrite lookup_insert_ne]. }
  destruct Hc as [Hc|(cn & rs & Ec & Hr & Hc)]; [by eapply inv_same|].
  assert (infos s subID = Some (info_of l)) as Hil by (unfold infos; by rewrite E).
  destruct (notified_fields subID rs cn) as (F1 & F2 & F3 & _). eapply (inv_update n s s' (wl_conn l) cn); rewrite ?He; try done.
  - intros f. unfold notified. destruct (cn_link cn) as [|[]|]; [|by left| |by left]; [|destruct rs; by left].
    cbn. intros [?|(x & -> & Hx)%list_elem_of_fmap]%elem_of_app; [by left|right]. cbn. eexists. split_and!; [done|done|].
    eapply reaction_fits; [|done|done]. by apply (inv_plain _ _ Hinv) in Hil.
  - intros p. rewrite F1. intros Hp. pose proof (inv_pending _ _ Hinv _ _ _ Ec Hp) as (P1 & P2 & P3 & P4 & P5). unfold pending_ok. rewrite F3, Hi, He.
    split_and!; try done. intros c2 cn2 p2. rewrite Hc. destruct (decide (c2 = wl_conn l)) as [->|Hne]; [done|]. rewrite lookup_insert_ne by done. apply P5.
Qed.

Lemma connect_inv n c s : ws_inv n s -> ws_conns s !! c = None -> ws_inv (S n) (mkServer (ws_events s) (<[c := NewConn]> (ws_conns s)) (ws_listeners s)).
Proof.
  intros [H1 H2 H3 H4 H5 H6 H7 H8] E.
  assert (forall c1 cn, <[c := NewConn]> (ws_conns s) !! c1 = Some cn -> (c1 = c /\ cn = NewConn) \/ ws_conns s !! c1 = Some cn) as Hl.
  { intros c1 cn. destruct (decide (c1 = c)) as [->|Hne]; [rewrite lookup_insert_eq; intros [= <-]; auto|rewrite lookup_insert_ne by done; auto]. }
  assert (forall c1 id k, entry (<[c := NewConn]> (ws_conns s)) c1 id k <-> entry (ws_conns s) c1 id k) as Hen.
  { intros c1 id k. unfold entry. split; [intros (x & [[-> ->]|Ex]%Hl & Hx); [done|by exists x]|].
    intros (x & Ex & Hx). exists x. rewrite lookup_insert_ne; [done|]. congruence. }
  split; unfold pending_ok; cbn [ws_events ws_conns]; intros.
  - apply H1, Hen. done.
  - setoid_rewrite Hen. eauto.
  - rewrite Hen in *. eauto.
  - apply Hl in H as [[-> ->]|H]; [done|]. destruct (H4 _ _ _ H H0) as (? & ? & ? & ? & P5). split_and!; try done.
    intros c2 cn2 p2 [[-> ->]|E2]%Hl; [done|eauto].
  - apply Hl in H as [[-> ->]|H]; [done|eauto].
  - lia.
  - eauto.
  - apply Hl in H as [[-> ->]|H]; [by apply not_elem_of_nil in H0|]. eapply H8; eauto.
Qed.

Lemma step_inv n a s s' : ws_inv n s -> Z.of_nat n < MaxUint64 -> ws_enabled a s -> perform a s = (Ok tt, s') -> ws_inv (S n) s'.
Proof.
  intros Hinv Hn Hen. destruct a as [c|c cl|c mb subID id|c dl|c|q ev rd|subID].
  - intros [= <-]. by apply connect_inv.
  - destruct Hen as (cn & E & Hl). cbn. rewrite (on_conn_at _ _ _ cn) by done. intros [= <-]. eapply (inv_update n s _ c cn); try done; [by left|].
    intros p Hp. pose proof (inv_pending _ _ Hinv _ _ _ E Hp) as (P1 & P2 & P3 & P4 & P5). unfold pending_ok. split_and!; try done.
    intros c2 cn2 p2. cbn. destruct (decide (c2 = c)) as [->|Hne]; [done|]. rewrite lookup_insert_ne by done. apply P5.
  - by apply message_inv.
  - by apply proceed_inv.
  - by apply end_inv.
  - intros [= <-]. eapply inv_same; [done| |intros; apply infos_publish|];
      unfold ws_publish; (destruct (topicChans _ !! q); [|done]); by destruct (list_find _ _) as [[? []]|].
  - by apply listen_inv.
Qed.
Lemma reachable_inv tr s : runs NewServer tr s -> Z.of_nat (length tr) <= MaxUint64 -> ws_inv (length tr) s.
Proof.
  intros Hr. remember NewServer as s0 eqn:H0. induction Hr as [s0|s0 tr s a s' Hr IH Hen Hp]; subst s0; intros Hn.
  { split; unfold entry, infos, sub_at; cbn; try done; try (intros; rewrite lookup_empty in *; done).
    - intros c id k (x & Ex & _). by rewrite lookup_empty in Ex.
    - intros c1 id1 k1 c2 id2 k2 (x & Ex & _). by rewrite lookup_empty in Ex. }
  rewrite length_app in *. cbn in *. rewrite Nat.add_1_r in *. eapply step_inv; [apply IH; [done|lia]|lia|done|done].
Qed.

(** C38 Subscriptions of websockets, over all interleavings of connections, listeners, the
    event loop and the node: the subscribers at the event bus are exactly the subscriptions
    in the tables of the connections, each with the channel of the listener that writes to
    that connection; the table of a connection whose read loop has ended is empty, so
    nothing stays behind at the bus; and no subscription fails for a missing topic, even
    when several connections subscribe to the same topic at once. *)
Theorem ws_subscribers_exact (tr : list ws_action) (s : Server) (Hrun : runs NewServer tr s) (Hcount : Z.of_nat (length tr) <= MaxUint64) :
  (forall name uid ch, sub_at (ws_events s) name uid = Some ch <->
     exists c cn id l, ws_conns s !! c = Some cn /\ cn_subscriptions cn !! id = Some (name, uid) /\
       ws_listeners s !! id = Some l /\ wl_conn l = c /\ wl_topic l = name /\ wl_uid l = uid /\ wl_ch l = ch) /\
  (forall c cn, ws_conns s !! c = Some cn -> cn_reading cn = false -> cn_subscriptions cn = ∅) /\
  (forall c cn p, ws_conns s !! c = Some cn -> cn_pending cn = Some p -> p_stage p = Joining \/ p_stage p = Installed ->
     is_Some (topics (eventBus (ws_events s)) !! sub_event (p_sub p))).
Proof.
  destruct (reachable_inv tr s Hrun Hcount) as [H1 H2 H3 H4 H5 H6 H7 H8]. split_and!; [|done|].
  - intros name uid ch. split.
    + intros Hs. destruct (H2 _ _ _ Hs) as (c & id & cn & Ec & Hid). destruct (H1 c id (name, uid)) as (i & Hi & Hc & Hk & Hs' & _); [by exists cn|].
      unfold infos in Hi. apply fmap_Some in Hi as (l & El & ->). cbn in *. injection Hk as ? ?. exists c, cn, id, l. split_and!; congruence.
    + intros (c & cn & id & l & Ec & Hid & El & Hc & Ht & Hu & Hch). destruct (H1 c id (name, uid)) as (i & Hi & _ & _ & Hs & _); [by exists cn|].
      unfold infos in Hi. rewrite El in Hi. injection Hi as <-. cbn in Hs. congruence.
  - intros c cn p Ec Hp Hst. destruct (H4 _ _ _ Ec Hp) as (_ & _ & _ & H & _). by apply H.
Qed.

(** Notifications of websockets: over all interleavings, everything a connection is
    notified of under a subscription comes from a listener that was started for that
    connection, is of the kind subscribed to, and a log matches the addresses and topics
    that were asked for. *)
Theorem ws_notifications_fit (tr : list ws_action) (s : Server) (c : nat) (cn : Conn) (id : ID) (r : NotifyResult)
    (Hrun : runs NewServer tr s) (Hcount : Z.of_nat (length tr) <= MaxUint64)
    (Hconn : ws_conns s !! c = Some cn) (Hnote : Notification id r ∈ cn_out cn) :
  exists l, ws_listeners s !! id = Some l /\ wl_conn l = c /\
    match r with
    | NewHead _ => wl_typ l = BlocksSubscription
    | NewLog log => wl_typ l = LogsSubscription /\ matches (fc_Addresses (wl_crit l)) (fc_Topics (wl_crit l)) (el_Log log)
    | NewTxHash _ => wl_typ l = PendingTransactionsSubscription
    end.
Proof.
  destruct (inv_notes _ _ (reachable_inv tr s Hrun Hcount) _ _ _ Hconn Hnote) as (i & Hi & Hc & Hf).
  unfold infos in Hi. apply fmap_Some in Hi as (l & El & ->). exists l. split_and!; [done|done|]. exact Hf.
Qed.

(** ** Criteria *)

(** The criteria as a client writes them. *)
Definition write_criteria (addresses : list Address) (topics : list (list Hash)) : GoVal :=
  GoMap [("address"%string, GoSlice (GoString ∘ Address_String <$> addresses));
         ("topics"%string, GoSlice ((fun sub => match sub with [] => GoNil | _ => GoSlice (GoString ∘ Hash_String <$> sub) end) <$> topics))].

Lemma mapM_res {X Y Z} (f : X -> res Y) (g : Z -> X) (h : Z -> Y) (l : list Z) : (forall x, f (g x) = Ok (h x)) -> mapM f (g <$> l) = Ok (h <$> l).
Proof. intros Hf. induction l as [|x l IH]; [done|]. cbn. rewrite Hf. cbn. by rewrite IH. Qed.

(** The criteria of a log subscription are read as they were written: addresses and
    topics in order, with nothing in a position that asks for nothing. *)
Theorem ws_criteria_round_trip `{HL : !HexTextLaws} (addresses : list Address) (topics : list (list Hash)) :
  criteria_of (write_criteria addresses topics) = Ok (mkFilterCriteria None None None addresses topics).
Proof.
  unfold write_criteria, criteria_of. set (a := GoSlice _). set (t := GoSlice _).
  change (map_get [("address"%string, a); ("topics"%string, t)] "address") with a.
  change (map_get [("address"%string, a); ("topics"%string, t)] "topics") with t. subst a t. cbn [parse_addresses parse_topics].
  rewrite (mapM_res parse_address _ id) by (intros a; cbn; by rewrite address_text). cbn [mbind res_bind].
  rewrite (mapM_res parse_subtopics _ id), !list_fmap_id; [done|]. intros [|h sub]; [done|]. unfold parse_subtopics.
  rewrite (mapM_res parse_topic _ id); [by rewrite list_fmap_id|]. intros x. cbn. by rewrite hash_text.
Qed.
End Proofs.
