(* ===== verification/RpcSend.v ===== *)
(** * Sending transactions through the JSON-RPC server

    Nonces (getAccountNonce of rpc/backend/utils.go, GetTransactionCount of
    account_info.go), default values and submission (SetTxDefaults, EstimateGas,
    SendRawTransaction of call_tx.go, SendTransaction of sign_tx.go).  The queries of the
    chain, the key ring, the encoder of transactions and the broadcast are parameters; the
    state of a submission is the list of what was broadcast. *)

From stdpp Require Import base gmap list strings.
From S2P Require Import Prelude Sdk Geth EvmTypes ChainId TxTypes Genesis AnteTx EvmStore FeeMarket TxExecution.
From S2P Require Import Cpc CpcContracts Eip712 Staking Contracts StateTransition Ante Indexer RpcLogs RpcBlocks RpcFees.

Class SendNode : Type := {
  (** The sequence of an account at a height (0 for the latest one), [None] if there is no
      such account. *)
  node_Account : Z -> Address -> res (option Z);
  node_EnsureExists : Address -> res unit;
  (** height, arguments, gas cap *)
  node_EstimateGas : Z -> TransactionArgs -> Z -> res Z;
  node_EvmDenom : res string;
  (** [KeyByAddress] and [MsgEthereumTx.Sign] with the signer for a block number *)
  keyring_Has : Address -> bool;
  keyring_Sign : Z -> MsgEthereumTx -> res MsgEthereumTx;
  (** [TxEncoder] of the transaction that [BuildTx] makes *)
  node_TxEncoder : MsgEthereumTx -> Coins * Z -> res bytes;
  (** the error of [BroadcastTx], if any *)
  node_Broadcast : bytes -> option gerr;
  (** settings *)
  RPCGasCap : Z;
  AllowInsecureUnlock : bool
}.

Section Send.
Context {G : Geth} {HX : HexText} {B : Bech32} {CT : Codec TxResult} {N : Node} {RG : RpcGeth} {FN : FeeNode} {LS : LatestSigner} {SN : SendNode}.
Variable kvi : KVIndexer.
Variable chainID : Z.

(** ** Nonces *)

(** The messages of a transaction up to the first that is no Ethereum message. *)
Fixpoint count_messages (from : string) (msgs : list Msg) (nonce : Z) : Z :=
  match msgs with
  | EthMsg ethMsg :: msgs' => count_messages from msgs' (if decide (from = msgtx_From ethMsg) then add64 nonce 1 else nonce)
  | _ => nonce
  end.
Fixpoint count_pending (from : string) (txs : list Tx) (nonce : Z) : Z :=
  match txs with
  | [] => nonce
  | tx :: txs' => count_pending from txs' (count_messages from (GetMsgs tx) nonce)
  end.

Definition getAccountNonce (accAddr : Address) (pending : bool) (height : Z) : res Z :=
  let bech32AccAddr := AccAddressString (farr_bytes accAddr) in
  account ← node_Account height accAddr;
  match account with
  | None => Ok 0
  | Some nonce =>
      if negb pending then Ok nonce
      else match PendingTransactions with
      | Panic e => Panic e
      | Err _ => Ok nonce
      | Ok pendingTxs => Ok (count_pending bech32AccAddr pendingTxs nonce)
      end
  end.

Definition GetTransactionCount (address : Address) (blockNum : BlockNumber) : res Z :=
  currentHeight ← Backend_BlockNumber kvi;
  let height := BlockNumber_Int64 blockNum in
  if currentHeight <? height then Err (Errorf "cannot query with height in the future")
  else match node_EnsureExists address with
  | Panic e => Panic e
  | Err _ => Ok 0
  | Ok _ => getAccountNonce address (bool_decide (blockNum = EthPendingBlockNumber)) height
  end.

(** ** Defaults *)

Definition Backend_EstimateGas (args : TransactionArgs) (blockNrOptional : option BlockNumber) : res Z :=
  let blockNr := default EthPendingBlockNumber blockNrOptional in
  node_EstimateGas (BlockNumber_Int64 blockNr) args RPCGasCap.

Definition set_fees (args : TransactionArgs) (price tip cap : option Z) : TransactionArgs :=
  mkTransactionArgs (arg_From args) (arg_To args) (arg_Gas args) price cap tip (arg_Value args) (arg_Nonce args)
    (arg_Data args) (arg_Input args) (arg_AccessList args) (arg_ChainID args).
Definition set_rest (args : TransactionArgs) (gas value nonce chain : option Z) : TransactionArgs :=
  mkTransactionArgs (arg_From args) (arg_To args) gas (arg_GasPrice args) (arg_MaxFeePerGas args) (arg_MaxPriorityFeePerGas args)
    value nonce (arg_Data args) (arg_Input args) (arg_AccessList args) chain.

Definition check_fee_relation (maxFeePerGas maxPriorityFeePerGas : Z) : res unit :=
  if maxFeePerGas <? maxPriorityFeePerGas then Err (Errorf "maxFeePerGas < maxPriorityFeePerGas") else Ok tt.

Definition default_fees (args : TransactionArgs) (baseFee : Z) : res TransactionArgs :=
  match arg_MaxPriorityFeePerGas args, arg_MaxFeePerGas args with
  | Some tip, Some cap => check_fee_relation cap tip ;; Ok args
  | tip, cap =>
      match arg_GasPrice args with
      | None =>
          let tip := default (SuggestGasTipCap baseFee) tip in
          let cap := default (tip + baseFee * 2) cap in
          check_fee_relation cap tip ;; Ok (set_fees args None (Some tip) (Some cap))
      | Some _ => Ok (set_fees args (Some (SuggestGasTipCap baseFee + baseFee)) tip cap)
      end
  end.

Definition default_nonce (args : TransactionArgs) : res Z :=
  match arg_Nonce args with
  | Some nonce => Ok nonce
  | None =>
      match arg_From args with
      | None => Panic NilDereference
      | Some from => match getAccountNonce from true 0 with Ok n => Ok n | Err _ => Ok 0 | Panic e => Panic e end
      end
  end.

(** The arguments of the estimate: the input goes into the data. *)
Definition estimate_args (args : TransactionArgs) : TransactionArgs :=
  let input := match arg_Input args with None => arg_Data args | Some i => Some i end in
  mkTransactionArgs (arg_From args) (arg_To args) (arg_Gas args) (arg_GasPrice args) (arg_MaxFeePerGas args)
    (arg_MaxPriorityFeePerGas args) (arg_Value args) (arg_Nonce args) input None (arg_AccessList args) (arg_ChainID args).

Definition SetTxDefaults (args : TransactionArgs) : res TransactionArgs :=
  if bool_decide (is_Some (arg_GasPrice args)) &&
     (bool_decide (is_Some (arg_MaxFeePerGas args)) || bool_decide (is_Some (arg_MaxPriorityFeePerGas args)))
  then Err (Errorf "both gasPrice and (maxFeePerGas or maxPriorityFeePerGas) specified")
  else
    head ← CurrentHeader kvi;
    baseFee ← match head with
              | None => Err (Errorf "latest header is nil")
              | Some head => match eh_BaseFee head with Some b => Ok b | None => Panic (Errorf "header base fee is nil") end
              end;
    args ← default_fees args baseFee;
    nonce ← default_nonce args;
    let args := set_rest args (arg_Gas args) (Some (default 0 (arg_Value args))) (Some nonce) (arg_ChainID args) in
    (match arg_Data args, arg_Input args with
     | Some d, Some i => if decide (d = i) then Ok tt else Err (Errorf "both 'data' and 'input' are set and not equal")
     | _, _ => Ok tt
     end) ;;
    (match arg_To args with
     | Some _ => Ok tt
     | None =>
         let input := match arg_Data args with Some d => d | None => default [] (arg_Input args) end in
         if (length input =? 0)%nat then Err (Errorf "contract creation without any data provided") else Ok tt
     end) ;;
    gas ← match arg_Gas args with
          | Some gas => Ok gas
          | None => Backend_EstimateGas (estimate_args args) (Some (NewBlockNumber 0))
          end;
    Ok (set_rest args (Some gas) (arg_Value args) (arg_Nonce args) (Some (default chainID (arg_ChainID args)))).

(** ** Submission *)

Definition broadcast (txBytes : bytes) : M (list bytes) (option gerr) := fun sent => (Ok (node_Broadcast txBytes), sent ++ [txBytes]).

(** The Cosmos transaction around the message, encoded. *)
Definition wrap_encode (msg : MsgEthereumTx) : res bytes :=
  denom ← node_EvmDenom;
  built ← MsgEthereumTx_BuildTx msg denom;
  node_TxEncoder msg built.

(** The hash is returned beside the error of a broadcast. *)
Definition SendRawTransaction (data : bytes) : M (list bytes) (Hash * option gerr) :=
  tx ← lift_res (Transaction_UnmarshalBinary data);
  require (tx_Protected tx) (Errorf "only replay-protected (EIP-155) transactions allowed over RPC") ;;
  sender ← lift_res (Latest_Sender chainID tx);
  ethereumTx ← lift_res (FromEthereumTx tx sender);
  lift_res (MsgEthereumTx_ValidateBasic ethereumTx) ;;
  txBytes ← lift_res (wrap_encode ethereumTx);
  ethTx ← lift_res (MsgEthereumTx_AsTransaction ethereumTx);
  e ← broadcast txBytes;
  mret (Transaction_Hash ethTx, e).

Definition SendTransaction (args : TransactionArgs) : M (list bytes) (Hash * option gerr) :=
  require AllowInsecureUnlock (Errorf "account unlock with HTTP access is forbidden") ;;
  require (keyring_Has (TransactionArgs_GetFrom args)) (Errorf "failed to find key in the node's keyring") ;;
  require (match arg_ChainID args with Some id => chainID =? id | None => true end) (Errorf "chainId does not match node's") ;;
  args ← lift_res (SetTxDefaults args);
  bn ← lift_res (Backend_BlockNumber kvi);
  msg ← lift_res (TransactionArgs_ToTransaction args);
  msg ← lift_res (keyring_Sign bn msg);
  lift_res (MsgEthereumTx_ValidateBasic msg) ;;
  txBytes ← lift_res (wrap_encode msg);
  ethTx ← lift_res (MsgEthereumTx_AsTransaction msg);
  require (tx_Protected ethTx) (Errorf "only replay-protected (EIP-155) transactions allowed over RPC") ;;
  e ← broadcast txBytes;
  mret (Transaction_Hash ethTx, e).
End Send.

(** ** What the defaults are *)

Section SendProofs.
Context {G : Geth} {HX : HexText} {B : Bech32} {CT : Codec TxResult} {N : Node} {RG : RpcGeth} {FN : FeeNode} {LS : LatestSigner} {SN : SendNode}.
Variable kvi : KVIndexer.
Variable chainID : Z.

(** A field that is given is kept, one that is missing is filled. *)
Definition kept {A} (given filled : option A) : Prop := is_Some filled /\ (is_Some given -> filled = given).

Lemma default_fees_inv args baseFee args' : default_fees args baseFee = Ok args' ->
  (arg_GasPrice args = None \/ (arg_MaxFeePerGas args = None /\ arg_MaxPriorityFeePerGas args = None)) ->
  exists price tip cap, args' = set_fees args price tip cap /\
    match arg_GasPrice args with
    | Some _ => price = Some (SuggestGasTipCap baseFee + baseFee) /\ tip = None /\ cap = None
    | None => price = None /\ kept (arg_MaxPriorityFeePerGas args) tip /\ kept (arg_MaxFeePerGas args) cap /\
        forall t c, tip = Some t -> cap = Some c -> t <= c
    end.
Proof.
  assert (forall c t, check_fee_relation c t = Ok tt <-> t <= c) as Hrel.
  { intros c t. unfold check_fee_relation. destruct (Z.ltb_spec c t); split; (done || lia). }
  assert (forall c t, check_fee_relation c t = Ok tt \/ exists e, check_fee_relation c t = Err e) as Hres.
  { intros c t. unfold check_fee_relation. destruct (c <? t); eauto. }
  unfold default_fees, mbind, res_bind. intros E Hone.
  destruct (arg_MaxPriorityFeePerGas args) as [tip|] eqn:Et, (arg_MaxFeePerGas args) as [cap|] eqn:Ec;
    destruct (arg_GasPrice args) as [price|] eqn:Ep; try (by destruct Hone as [|[]]).
  - destruct (Hres cap tip) as [Hr|[e Hr]]; rewrite Hr in E; [|done]. injection E as <-. apply Hrel in Hr.
    exists None, (Some tip), (Some cap). split; [destruct args; unfold set_fees; cbn in *; congruence|]. unfold kept. naive_solver.
  - destruct (Hres (tip + baseFee * 2) tip) as [Hr|[e Hr]]; cbn in E; rewrite Hr in E; [|done]. injection E as <-. apply Hrel in Hr.
    eexists _, _, _. split; [done|]. unfold kept. naive_solver.
  - cbn in E. destruct (Hres cap (SuggestGasTipCap baseFee)) as [Hr|[e Hr]]; rewrite Hr in E; [|done]. injection E as <-. apply Hrel in Hr.
    eexists _, _, _. split; [done|]. unfold kept. naive_solver.
  - injection E as <-. by eexists _, _, _.
  - cbn in E. destruct (Hres (SuggestGasTipCap baseFee + baseFee * 2) (SuggestGasTipCap baseFee)) as [Hr|[e Hr]];
      rewrite Hr in E; [|done]. injection E as <-. apply Hrel in Hr. eexists _, _, _. split; [done|]. unfold kept. naive_solver.
Qed.

(** What the accepted arguments are, in terms of the given ones. *)
Definition defaults_of (args args' : TransactionArgs) : Prop :=
  arg_From args' = arg_From args /\ arg_To args' = arg_To args /\ arg_Data args' = arg_Data args /\
  arg_Input args' = arg_Input args /\ arg_AccessList args' = arg_AccessList args /\
  kept (arg_Gas args) (arg_Gas args') /\ kept (arg_Value args) (arg_Value args') /\ kept (arg_Nonce args) (arg_Nonce args') /\
  kept (arg_ChainID args) (arg_ChainID args') /\
  (arg_Gas args = None -> exists call, arg_Data call = (match arg_Input args with Some i => Some i | None => arg_Data args end) /\
     Ok <$> arg_Gas args' = Some (node_EstimateGas 1 call RPCGasCap)) /\
  match arg_GasPrice args with
  | Some _ => exists head baseFee, HeaderByNumber kvi EthLatestBlockNumber = Ok head /\ eh_BaseFee head = Some baseFee /\
      arg_GasPrice args' = Some (SuggestGasTipCap baseFee + baseFee)
  | None => arg_GasPrice args' = None /\ kept (arg_MaxPriorityFeePerGas args) (arg_MaxPriorityFeePerGas args') /\
      kept (arg_MaxFeePerGas args) (arg_MaxFeePerGas args') /\
      forall tip cap, arg_MaxPriorityFeePerGas args' = Some tip -> arg_MaxFeePerGas args' = Some cap -> tip <= cap
  end.

Lemma SetTxDefaults_inv (args args' : TransactionArgs) : SetTxDefaults kvi chainID args = Ok args' -> defaults_of args args'.
Proof.
  unfold SetTxDefaults, defaults_of. destruct (_ && _) eqn:Eboth; [done|]. unfold mbind, res_bind, CurrentHeader.
  destruct (HeaderByNumber kvi EthLatestBlockNumber) as [head|e|e]; [|done|done].
  destruct (eh_BaseFee head) as [baseFee|] eqn:Eb; [|done].
  destruct (default_fees args baseFee) as [args1|e|e] eqn:Ef; [|done|done].
  apply default_fees_inv in Ef as (price & tip & cap & -> & Hfee).
  2:{ apply andb_false_iff in Eboth as [E|E]; [left; apply bool_decide_eq_false, eq_None_not_Some in E; done|right].
      apply orb_false_iff in E as [E1%bool_decide_eq_false%eq_None_not_Some E2%bool_decide_eq_false%eq_None_not_Some]. done. }
  assert (forall n, default_nonce (set_fees args price tip cap) = Ok n -> kept (arg_Nonce args) (Some n)) as Hnonce.
  { intros n. unfold default_nonce. cbn [set_fees arg_Nonce arg_From]. unfold kept.
    destruct (arg_Nonce args); [intros [= ->]; eauto|]. intros _. split; [eauto|]. by intros []. }
  destruct (default_nonce (set_fees args price tip cap)) as [nonce|e|e]; [|done|done]. specialize (Hnonce nonce eq_refl).
  cbn [set_rest set_fees arg_Data arg_Input arg_To arg_Gas].
  destruct (match arg_Data args with Some _ => _ | None => _ end) as [u|e|e]; [|done|done].
  destruct (match arg_To args with Some _ => _ | None => _ end) as [u'|e|e]; [|done|done].
  set (call := estimate_args _). change (Backend_EstimateGas call (Some (NewBlockNumber 0))) with (node_EstimateGas 1 call RPCGasCap).
  assert (arg_Data call = match arg_Input args with Some i => Some i | None => arg_Data args end) as Hcall by done.
  clearbody call. intros Hok.
  assert (exists gas, args' = set_rest (set_fees args price tip cap) (Some gas) (Some (default 0 (arg_Value args))) (Some nonce)
      (Some (default chainID (arg_ChainID args))) /\
    match arg_Gas args with Some g => gas = g | None => node_EstimateGas 1 call RPCGasCap = Ok gas end) as (gas & -> & Hgas).
  { destruct (arg_Gas args) as [g|]; [by injection Hok as <-; exists g|]. destruct (node_EstimateGas 1 call RPCGasCap) as [g|e|e]; [|done|done].
    injection Hok as <-. by exists g. }
  cbn [set_rest set_fees arg_From arg_To arg_Data arg_Input arg_AccessList arg_Gas arg_Value arg_Nonce arg_ChainID arg_GasPrice
    arg_MaxPriorityFeePerGas arg_MaxFeePerGas]. unfold kept in *.
  split_and!; try done; try (by eauto).
  - intros [g Hg]. rewrite Hg in Hgas. congruence.
  - intros [v ->]. done.
  - exact (proj2 Hnonce).
  - intros [c ->]. done.
  - intros Hg. rewrite Hg in Hgas. exists call. split; [exact Hcall|]. cbn. by rewrite Hgas.
  - destruct (arg_GasPrice args); [|tauto]. exists head, baseFee. by destruct Hfee as (-> & _).
Qed.

(** What eth_sendTransaction fills in: the accepted arguments have all of gas, value, nonce
    and chain id; what the user gave of these, of sender, recipient, data and access list,
    and of the dynamic fees is kept, and the tip is not above the fee cap.  But a gas price
    of the user is not kept: it is replaced by the suggested one, whatever it was; and a
    missing gas limit is estimated on the state of block 1, not of the latest block. *)
Theorem tx_defaults_spec (args args' : TransactionArgs) (Hok : SetTxDefaults kvi chainID args = Ok args') :
  arg_From args' = arg_From args /\ arg_To args' = arg_To args /\ arg_Data args' = arg_Data args /\
  arg_Input args' = arg_Input args /\ arg_AccessList args' = arg_AccessList args /\
  kept (arg_Gas args) (arg_Gas args') /\ kept (arg_Value args) (arg_Value args') /\ kept (arg_Nonce args) (arg_Nonce args') /\
  kept (arg_ChainID args) (arg_ChainID args') /\
  (arg_Gas args = None -> exists call, arg_Data call = (match arg_Input args with Some i => Some i | None => arg_Data args end) /\
     Ok <$> arg_Gas args' = Some (node_EstimateGas 1 call RPCGasCap)) /\
  match arg_GasPrice args with
  | Some _ => exists head baseFee, HeaderByNumber kvi EthLatestBlockNumber = Ok head /\ eh_BaseFee head = Some baseFee /\
      arg_GasPrice args' = Some (SuggestGasTipCap baseFee + baseFee)
  | None => arg_GasPrice args' = None /\ kept (arg_MaxPriorityFeePerGas args) (arg_MaxPriorityFeePerGas args') /\
      kept (arg_MaxFeePerGas args) (arg_MaxFeePerGas args') /\
      forall tip cap, arg_MaxPriorityFeePerGas args' = Some tip -> arg_MaxFeePerGas args' = Some cap -> tip <= cap
  end.
Proof. exact (SetTxDefaults_inv args args' Hok). Qed.

(** What go-ethereum documents: a transaction decodes to what was encoded, and a new one
    carries the data it is made from. *)
Definition txdata_Data (d : TxData) : bytes :=
  match d with
  | DynamicFeeTx _ _ _ _ _ _ _ data _ => data
  | AccessListTx _ _ _ _ _ _ data _ => data
  | LegacyTx _ _ _ _ _ data => data
  end.
Definition tx_roundtrip : Prop :=
  forall tx bz, Transaction_MarshalBinary tx = Ok bz -> Transaction_UnmarshalBinary bz = Ok tx.

Lemma AsTransaction_marshalled tx bz from : tx_roundtrip -> Transaction_MarshalBinary tx = Ok bz ->
  MsgEthereumTx_AsTransaction (mkMsgEthereumTx bz from) = Ok tx.
Proof. intros Hrt Hm. unfold MsgEthereumTx_AsTransaction. cbn. by rewrite (Hrt _ _ Hm). Qed.

(** The call data of eth_sendTransaction is taken from 'input' alone: with 'data' only,
    which the checks and the gas estimate do read, the transaction that is built to be
    signed calls the recipient with no data at all. *)
Theorem sent_data_is_lost (args args' : TransactionArgs) (data : bytes) (msg : MsgEthereumTx)
  (Hrt : tx_roundtrip) (Hnew : forall d, tx_Data (ethtypes_NewTx d) = txdata_Data d)
  (Hdata : arg_Data args = Some data) (Hinput : arg_Input args = None)
  (Hok : SetTxDefaults kvi chainID args = Ok args') (Hmsg : TransactionArgs_ToTransaction args' = Ok msg) :
  TransactionArgs_GetData args' = data /\
  exists tx, MsgEthereumTx_AsTransaction msg = Ok tx /\ tx_Data tx = [].
Proof.
  apply SetTxDefaults_inv in Hok as (_ & _ & Hd & Hi & _). rewrite Hdata in Hd. rewrite Hinput in Hi.
  split; [unfold TransactionArgs_GetData; by rewrite Hi, Hd|]. revert Hmsg. unfold TransactionArgs_ToTransaction.
  set (tx := ethtypes_NewTx _). assert (tx_Data tx = []) as Htx.
  { subst tx. rewrite Hnew, Hi. destruct (_ || _); [done|]. by destruct (arg_AccessList args'). }
  clearbody tx. unfold must_res, mbind, res_bind. destruct (Transaction_MarshalBinary tx) as [bz|e|e] eqn:Em; [|done|done].
  intros [= <-]. exists tx. split; [by apply AsTransaction_marshalled|done].
Qed.

(** ** From the server to the ante handler *)

(** The transaction of the chain that [BuildTx] makes of a message: one message, the declared
    fee and gas, the extension option and nothing else (so that the SDK's own check finds no
    signatures). *)
Record built_from (msg : MsgEthereumTx) (built : Coins * Z) (tx : Tx) : Prop := {
  bf_msgs : GetMsgs tx = [EthMsg msg];
  bf_fee : tx_Fee tx = built.1;
  bf_gas : tx_GasLimit tx = built.2;
  bf_kinds : tx_IsGasTx tx = true /\ tx_IsProtoTx tx = true;
  bf_bare : tx_SignerInfos tx = 0%nat /\ tx_Signatures tx = 0%nat /\ tx_FeePayer tx = ""%string /\ tx_FeeGranter tx = ""%string;
  bf_option : exists opt, tx_Ext tx = Some ([opt], []) /\ opt_TypeUrl opt = EthermintExtensionOptionsEthereumTx;
  bf_empty : tx_TimeoutHeight tx = 0 /\ tx_Memo tx = ""%string;
  bf_basic : tx_ValidateBasic tx = Err ErrNoSignatures
}.
(** What the node decodes of the encoding of such a transaction is that transaction. *)
Definition encoding_round : Prop :=
  forall msg built bz, node_TxEncoder msg built = Ok bz -> exists decoded, node_TxDecoder bz = Ok decoded /\ built_from msg built decoded.

Lemma built_wrapper msg built tx : built_from msg built tx -> eth_wrapper tx.
Proof.
  intros [Hm _ _ [Hg Hp] _ (opt & Hext & Hurl) [Ht Hmemo] _]. split; try done. unfold IsEthereumTx.
  rewrite (proj2 (HasSingleEthereumMessage_iff tx)) by eauto. rewrite Hext. cbn. by apply bool_decide_eq_true_2.
Qed.

Lemma BuildTx_inv msg tx denom built : validateBasic tx = Ok tt -> MsgEthereumTx_AsTransaction msg = Ok tx ->
  MsgEthereumTx_BuildTx msg denom = Ok built ->
  NewIntFromBigInt (EthTxFee tx) = Ok (EthTxFee tx) /\ NewCoins1 denom (EthTxFee tx) = Ok built.1 /\ built.2 = tx_Gas tx.
Proof.
  intros Hv%validateBasic_iff Htx. unfold MsgEthereumTx_BuildTx, mbind, res_bind. rewrite Htx.
  assert (0 <= EthTxFee tx) by (unfold EthTxFee; destruct Hv; nia).
  unfold NewIntFromBigInt, NewCoins1. destruct (_ <? BitLen _); [done|]. intros [= <-]. cbn.
  split; [done|]. split; [|done]. destruct (Z.ltb_spec (EthTxFee tx) 0); [lia|].
  destruct (Z.eqb_spec (EthTxFee tx) 0), (Z.ltb_spec 0 (EthTxFee tx)); (done || lia).
Qed.

Section Admission.
Context {S : Type} {K : SdkKeepers S} {E : EvmEngine S} {P : Codec EvmParams} {FP : Codec FmParams}.
Context {SK : StakingKeepers S} {E712 : Eip712Lib} {CP : Codec CpcParams} {CM : Codec CustomPrecompiledContractMeta}.
Context {JE : Json Erc20CustomPrecompiledContractMeta} {JS : Json StakingCustomPrecompiledContractMeta}.
Context {H C : Type} {X : CacheCtx H C (World S)} {XL : CacheCtxLaws H C (World S)}.
Variable legacy_params : S -> FmParams.
(** The ante handler of the chain, in the execution of a block. *)
Variables Erc20CpcInfo Bech32CpcInfo StakingCpcInfo : CustomPrecompiledContractInfo.
Variable sdk : SdkAnte H.
Variable disabledNestedMsgs : list string.
Variable ctx : Ctx.
Variable c : C.
Variable FeePayer : Tx -> bytes.
Abbreviation ante := (NewAnteHandler legacy_params Erc20CpcInfo Bech32CpcInfo StakingCpcInfo sdk disabledNestedMsgs ctx c).

(** The chain is the one the node believes it to be and allows what the transaction does. *)
Record chain_allows (w : World S) (denom : string) (tx : Transaction) : Prop := {
  ca_params : exists params, Keeper_GetParams w = Ok params /\ EvmDenom params = denom /\
    (if decide (tx_To tx = None) then EnableCreate params else EnableCall params) = true;
  ca_chain : Keeper_GetEip155ChainId w = Ok chainID;
  ca_baseFee : exists baseFee, Keeper_GetBaseFee legacy_params w = Ok baseFee
}.

Lemma check_eth_tx_built w denom msg tx built decoded :
  MsgEthereumTx_ValidateBasic msg = Ok tt -> MsgEthereumTx_AsTransaction msg = Ok tx -> validateBasic tx = Ok tt ->
  tx_Protected tx = true -> MsgEthereumTx_BuildTx msg denom = Ok built ->
  (forall baseFee, exists m, Latest_AsMessage chainID tx baseFee = Ok m) ->
  chain_allows w denom tx -> built_from msg built decoded -> check_eth_tx legacy_params w decoded = Ok tt.
Proof.
  intros Hvb Htx Hv Hprot Hbuilt Hmsg [(params & Hp & Hdenom & Hen) Hchain [baseFee Hbf]] [Hm Hfee Hgas [_ Hproto] (Hs & Hsig & Hpay & Hgr) _ _ Hbasic].
  destruct (BuildTx_inv _ _ _ _ Hv Htx Hbuilt) as (Hint & Hcoins & Hg). destruct (Hmsg baseFee) as [m HM].
  unfold check_eth_tx, first_eth. rewrite Hbasic, Hproto, Hs, Hsig, Hpay, Hgr, Hm. unfold mbind, res_bind. cbn.
  rewrite Hvb, Hp, Hchain, Hbf, Htx, HM, Hprot. cbn. rewrite Hint, Hdenom, Hcoins, Hfee, Hgas, Hg.
  rewrite (bool_decide_eq_true_2 (built.1 = built.1)) by done. rewrite Z.eqb_refl. cbn.
  destruct (decide (tx_To tx = None)) as [Hto|Hto].
  - rewrite (bool_decide_eq_true_2 _ Hto), Hen, andb_false_r. done.
  - rewrite (bool_decide_eq_false_2 _ Hto), Hen, andb_false_r. done.
Qed.

(** The sender has an account without code whose sequence is the nonce, and can pay what the
    fee checker of the chain computes for the transaction. *)
Record sender_ready (w : World S) (decoded : Tx) (tx : Transaction) (sender : Address) : Prop := {
  sr_code : IsEmptyCodeHash (Keeper_GetCodeHash w (farr_bytes sender)) = true;
  sr_nonce : exists acc, GetAccount (w_sdk w) (farr_bytes sender) = Some acc /\ tx_Nonce tx = acc_sequence acc;
  sr_fee : exists fee priority, EthereumTxFeeChecker legacy_params ctx w decoded = Ok (fee, priority) /\
    can_spend (w_sdk w) (farr_bytes sender) fee;
  sr_collector : module_free (w_sdk w) FeeCollectorName
}.
(** What the libraries document: the text of an address is read back, the fee payer of a
    transaction is the sender its message names, and receipts have an encoding. *)
Record admission_laws : Prop := {
  al_roundtrip : tx_roundtrip;
  al_encoding : encoding_round;
  al_message tx sender baseFee : Latest_Sender chainID tx = Ok sender -> exists m, Latest_AsMessage chainID tx baseFee = Ok m;
  al_address tx sender : Latest_Sender chainID tx = Ok sender ->
    AccAddressFromBech32 (AccAddressString (farr_bytes sender)) = Ok (farr_bytes sender);
  al_payer tx msg from : GetMsgs tx = [EthMsg msg] -> AccAddressFromBech32 (msgtx_From msg) = Ok from -> FeePayer tx = from;
  al_receipts r : exists bz, Receipt_MarshalBinary r = Ok bz;
  al_deduct : deduct_pays_law legacy_params sdk ctx c FeePayer
}.

End Admission.
End SendProofs.
