(* ===== verification/RpcState.v ===== *)
(** * State, calls, signatures and traces through the JSON-RPC server

    The remaining operations of the backend: accounts and proofs (rpc/backend/account_info.go,
    rpc/types/query_client.go), calls and replacements (DoCall and Resend of call_tx.go,
    CheckTxFee of rpc/types/utils.go), signatures (sign_tx.go), traces (tracing.go), and
    the chain id, coinbase and Ethereum blocks (chain_info.go, blocks.go).  The answers of
    the node are the functions of [StateNode]; in the theorems they are the answers of the
    queries of Query.v and Tracing.v on the states of the chain. *)

From Stdlib Require Import Strings.Byte SpecFloat.
From stdpp Require Import base gmap list strings pretty.
From S2P Require Import Prelude Sdk Geth EvmTypes ChainId GasMeter TxTypes Genesis EvmStore FeeMarket StateDB AnteTx TxExecution.
From S2P Require Import Cpc CpcContracts Eip712 Staking Contracts StateTransition VAuth Ante Query Tracing Indexer RpcLogs RpcBlocks RpcFees RpcSend.

Record StorageResult : Type := mkStorageResult {
  sr_Key : string;
  sr_Value : Z;
  sr_Proof : list string
}.
Record AccountResult : Type := mkAccountResult {
  ar_Address : Address;
  ar_AccountProof : list string;
  ar_Balance : Z;
  ar_CodeHash : Hash;
  ar_Nonce : Z;
  ar_StorageHash : Hash;
  ar_StorageProof : list StorageResult
}.

(** [vm.ErrExecutionReverted] as an error of a call, with the revert data. *)
Inductive CallError : Type := CallErr (e : gerr) | CallReverted (e : RevertError).

Class StateNode : Type := {
  (** The queries of the chain; the number is the height, 0 for the latest. *)
  node_Code : Z -> string -> res bytes;
  node_Storage : Z -> string -> string -> res string;
  node_Balance : Z -> string -> res string;
  node_EvmAccount : Z -> string -> res QueryAccountResponse;
  node_EthCall : Z -> TransactionArgs -> Z -> res MsgEthereumTxResponse;
  (** An ABCI query with a proof: height, store, key; the value and the operations of the
      proof, if there is one *)
  node_QueryABCI : Z -> string -> bytes -> res (bytes * option (list bytes));
  node_TraceTx : Z -> QueryTraceTxRequest -> res bytes;
  node_TraceBlock : Z -> QueryTraceBlockRequest -> res bytes;
  Unmarshal_Trace : bytes -> res string;
  Unmarshal_Traces : bytes -> res (list TxTraceResult);
  (** the consensus address of the node and the account of its validator *)
  node_ConsAddress : res bytes;
  (** [sdkmath.NewIntFromString] and [abi.UnpackRevert] *)
  NewIntFromString : string -> option Z;
  node_UnpackRevert : bytes -> res string;
  (** the keys of the node, and the hash of typed data *)
  keyring_SignByAddress : Address -> bytes -> res bytes;
  TypedDataAndHash : TypedData -> res bytes;
  (** go-ethereum's latest signer for a configuration; [ChainConfig.IsEIP155] *)
  signer_Hash : EthChainConfig -> Transaction -> Hash;
  signer_Sender : EthChainConfig -> Transaction -> res Address;
  IsEIP155 : EthChainConfig -> Z -> bool;
  (** settings *)
  RPCTxFeeCap : float64;
  node_ChainID : chars
}.

(** ** big.Float *)

Definition SF_zero : float64 := S754_zero false.
Definition float_emax : Z := 2 ^ 32.
(** [new(big.Float).SetInt(z)] has as many bits as the number needs, and at least 64. *)
Definition big_prec (z : Z) : Z := Z.max 64 (BitLen z).
Definition big_float (z : Z) : spec_float :=
  match z with Z0 => S754_zero false | Zpos m => S754_finite false m 0 | Zneg m => S754_finite true m 0 end.
(** [new(big.Float).Quo(x, y)] has the larger precision. *)
Definition big_Quo (x y : Z) : spec_float := SFdiv (Z.max (big_prec x) (big_prec y)) float_emax (big_float x) (big_float y).
Definition Float_Float64 (x : spec_float) : float64 :=
  match x with
  | S754_finite s m e => binary_normalize 53 1024 (cond_Zopp s (Zpos m)) e s
  | x => x
  end.

Definition Ether : Z := 10 ^ 18.
Definition CheckTxFee (gasPrice gas : Z) (cap : float64) : res unit :=
  if SFeqb cap SF_zero then Ok tt
  else
    let feeFloat := Float_Float64 (big_Quo (gasPrice * gas) Ether) in
    if SFltb cap feeFloat then Err (Errorf "tx fee exceeds the configured cap") else Ok tt.

Definition GetHexProofs (proof : option (list bytes)) : list string :=
  match proof with
  | None => [""%string]
  | Some ops => (fun data => if decide (length data = 0%nat) then ""%string else hexutil_Encode data) <$> ops
  end.

Section State.
Context {G : Geth} {HX : HexText} {B : Bech32} {CT : Codec TxResult} {N : Node} {RG : RpcGeth} {FN : FeeNode} {LS : LatestSigner}.
Context {SN : SendNode} {TN : StateNode}.
Variable kvi : KVIndexer.
Variable chainID : Z.

(** ** Accounts *)

Definition GetCode (address : Address) (blockNrOrHash : BlockNumberOrHash) : res bytes :=
  blockNum ← BlockNumberFromCometBFT blockNrOrHash;
  node_Code (BlockNumber_Int64 blockNum) (Address_String address).

Definition GetStorageAt (address : Address) (key : string) (blockNrOrHash : BlockNumberOrHash) : res bytes :=
  blockNum ← BlockNumberFromCometBFT blockNrOrHash;
  value ← node_Storage (BlockNumber_Int64 blockNum) (Address_String address) key;
  Ok (farr_bytes (HexToHash value)).

Definition Rpc_GetBalance (address : Address) (blockNrOrHash : BlockNumberOrHash) : res Z :=
  blockNum ← BlockNumberFromCometBFT blockNrOrHash;
  CometBFTBlockByNumber kvi blockNum ;;
  balance ← node_Balance (BlockNumber_Int64 blockNum) (Address_String address);
  match NewIntFromString balance with
  | None => Err (Errorf "invalid balance")
  | Some val => if val <? 0 then Err (Errorf "couldn't fetch balance. Node state is pruned") else Ok val
  end.

(** Proofs are not available at heights up to 2. *)
Definition QueryClient_GetProof (height : Z) (storeKey : string) (key : bytes) : res (bytes * option (list bytes)) :=
  if height <=? 2 then Err (Errorf "proof queries at height <= 2 are not supported")
  else node_QueryABCI height storeKey key.

Fixpoint storage_proofs (address : Address) (height : Z) (storageKeys : list string) : res (list StorageResult) :=
  match storageKeys with
  | [] => Ok []
  | key :: storageKeys' =>
      '(valueBz, proof) ← QueryClient_GetProof height "evm" (StateKey address (farr_bytes (HexToHash key)));
      rest ← storage_proofs address height storageKeys';
      Ok (mkStorageResult key (big_SetBytes valueBz) (GetHexProofs proof) :: rest)
  end.

(** [authtypes.AddressStoreKeyPrefix] *)
Definition AddressStoreKeyPrefix : bytes := [x01].

Definition GetProof (address : Address) (storageKeys : list string) (blockNrOrHash : BlockNumberOrHash) : res AccountResult :=
  blockNum ← BlockNumberFromCometBFT blockNrOrHash;
  let height := BlockNumber_Int64 blockNum in
  wrap_res (Errorf "header not found") (CometBFTBlockByNumber kvi blockNum) ;;
  proofHeight ← (if height =? 0 then
                   bn ← Backend_BlockNumber kvi;
                   if MaxInt64 <? bn then Err (Errorf "not able to query block number greater than MaxInt64") else Ok bn
                 else Ok height);
  storageProofs ← storage_proofs address proofHeight storageKeys;
  res ← node_EvmAccount height (Address_String address);
  '(_, proof) ← QueryClient_GetProof proofHeight "acc" (AddressStoreKeyPrefix ++ farr_bytes address);
  match NewIntFromString (qa_Balance res) with
  | None => Err (Errorf "invalid balance")
  | Some balance =>
      Ok (mkAccountResult address (GetHexProofs proof) balance (HexToHash (qa_CodeHash res)) (qa_Nonce res) zero_hash storageProofs)
  end.

(** ** Calls *)

Definition DoCall (args : TransactionArgs) (blockNr : BlockNumber) : MsgEthereumTxResponse + CallError :=
  match node_EthCall (BlockNumber_Int64 blockNr) args RPCGasCap with
  | Err e | Panic e => inr (CallErr e)
  | Ok res =>
      match resp_VmError res with
      | None => inl res
      | Some vmError =>
          if decide (vmError = ErrExecutionReverted) then inr (CallReverted (NewExecErrorWithReason node_UnpackRevert (resp_Ret res)))
          else inr (CallErr vmError)
      end
  end.

(** The message of a transaction that has one, with the given hash. *)
Definition UnwrapEthereumMsg (tx : Tx) (ethHash : Hash) : res MsgEthereumTx :=
  match GetMsgs tx with
  | [EthMsg ethMsg] =>
      t ← MsgEthereumTx_AsTransaction ethMsg;
      if decide (Transaction_Hash t = ethHash) then Ok ethMsg else Err (Errorf "eth tx not found")
  | [_] => Err (Errorf "invalid tx type")
  | _ => Err (Errorf "eth tx not found")
  end.

Definition replace_args (args : TransactionArgs) (gasPrice gasLimit : option Z) : TransactionArgs :=
  let price := match gasPrice with Some p => if Z.sgn p =? 0 then arg_GasPrice args else Some p | None => arg_GasPrice args end in
  let gas := match gasLimit with Some g => if g =? 0 then arg_Gas args else Some g | None => arg_Gas args end in
  mkTransactionArgs (arg_From args) (arg_To args) gas price (arg_MaxFeePerGas args) (arg_MaxPriorityFeePerGas args)
    (arg_Value args) (arg_Nonce args) (arg_Data args) (arg_Input args) (arg_AccessList args) (arg_ChainID args).

Fixpoint resend_pending (cfg : EthChainConfig) (args : TransactionArgs) (matchTx : Transaction) (gasPrice gasLimit : option Z)
    (pending : list Tx) : M (list bytes) (Hash * option gerr) :=
  match pending with
  | [] => err (Errorf "transaction not found")
  | tx :: pending' =>
      match UnwrapEthereumMsg tx zero_hash with
      | Panic e => panic e
      | Err _ => resend_pending cfg args matchTx gasPrice gasLimit pending'
      | Ok p =>
          pTx ← lift_res (MsgEthereumTx_AsTransaction p);
          let wantSigHash := signer_Hash cfg matchTx in
          match signer_Sender cfg pTx with
          | Panic e => panic e
          | Err _ => resend_pending cfg args matchTx gasPrice gasLimit pending'
          | Ok pFrom =>
              match arg_From args with
              | None => panic NilDereference
              | Some from =>
                  if bool_decide (pFrom = from) && bool_decide (signer_Hash cfg pTx = wantSigHash)
                  then SendTransaction kvi chainID (replace_args args gasPrice gasLimit)
                  else resend_pending cfg args matchTx gasPrice gasLimit pending'
              end
          end
      end
  end.

Definition Resend (args : TransactionArgs) (gasPrice gasLimit : option Z) : M (list bytes) (Hash * option gerr) :=
  require (bool_decide (is_Some (arg_Nonce args))) (Errorf "missing transaction nonce in transaction spec") ;;
  args ← lift_res (SetTxDefaults kvi chainID args);
  eip155ChainID ← lift_res (ParseChainID node_ChainID);
  cfg ← lift_res Backend_ChainConfig;
  cfg ← lift_res (match cfg with
                  | Some cfg => Ok cfg
                  | None => ChainConfig_EthereumConfig DefaultChainConfig (Some eip155ChainID)
                  end);
  msg ← lift_res (TransactionArgs_ToTransaction args);
  matchTx ← lift_res (MsgEthereumTx_AsTransaction msg);
  let price := default (tx_GasPrice matchTx) gasPrice in
  let gas := default (tx_Gas matchTx) gasLimit in
  lift_res (CheckTxFee price gas RPCTxFeeCap) ;;
  pending ← lift_res PendingTransactions;
  resend_pending cfg args matchTx gasPrice gasLimit pending.

(** ** Signatures *)

(** The last byte becomes 27 or 28. *)
Definition add_27 (signature : bytes) : res bytes :=
  match signature !! 64%nat with
  | None => Panic IndexOutOfRange
  | Some v => Ok (<[64%nat := byte_of_Z (Z_of_byte v + 27)]> signature)
  end.
Definition Backend_Sign (address : Address) (data : bytes) : res bytes :=
  if negb (keyring_Has address) then Err (Errorf "no key for given address or file")
  else signature ← keyring_SignByAddress address data; add_27 signature.
Definition SignTypedData (address : Address) (typedData : TypedData) : res bytes :=
  if negb (keyring_Has address) then Err (Errorf "no key for given address or file")
  else
    sigHash ← TypedDataAndHash typedData;
    signature ← keyring_SignByAddress address sigHash;
    add_27 signature.

(** ** The chain *)

Definition Backend_ChainID : res Z :=
  eip155ChainID ← must_res (ParseChainID node_ChainID);
  match Backend_BlockNumber kvi with
  | Panic e => Panic e
  | Err _ => Ok eip155ChainID
  | Ok bn =>
      config ← Backend_ChainConfig;
      match config with
      | None => Panic NilDereference
      | Some config =>
          if IsEIP155 config bn then match eth_ChainID config with Some id => Ok id | None => Panic NilDereference end
          else Err (Errorf "chain not synced beyond EIP-155 replay-protection fork block")
      end
  end.

(** The address is empty if the account cannot be read. *)
Definition GetCoinbase : res bytes :=
  consAddress ← node_ConsAddress;
  account ← node_ValidatorAccount 0 consAddress;
  match AccAddressFromBech32 account with Ok a => Ok a | Err _ => Ok [] | Panic e => Panic e end.

Fixpoint as_transactions (msgs : list MsgEthereumTx) : res (list Transaction) :=
  match msgs with
  | [] => Ok []
  | m :: msgs' => t ← MsgEthereumTx_AsTransaction m; ts ← as_transactions msgs'; Ok (t :: ts)
  end.
(** A block of go-ethereum: the header and the transactions; receipts are left out. *)
Definition EthBlockFromCometBFTBlock (resBlock : ResultBlock) (blockRes : ResultBlockResults) : res (EthHeader * list Transaction) :=
  bloom ← BlockBloom blockRes;
  baseFee ← wrap_res (Errorf "failed to fetch base fee") (Backend_BaseFee blockRes);
  let ethHeader := EthHeaderFromCometBFT (rb_Header resBlock) bloom (Some baseFee) in
  msgs ← EthMsgsFromCometBFTBlock resBlock blockRes;
  txs ← as_transactions msgs;
  Ok (ethHeader, txs).
Definition EthBlockByNumber (blockNum : BlockNumber) : res (EthHeader * list Transaction) :=
  resBlock ← CometBFTBlockByNumber kvi blockNum;
  match resBlock with
  | None => Err (Errorf "block not found for height")
  | Some resBlock =>
      blockRes ← wrap_res (Errorf "block result not found") (CometBFTBlockResultByNumber (rb_Height resBlock));
      EthBlockFromCometBFTBlock resBlock blockRes
  end.

(** ** Traces *)

(** The first messages of the transactions that decode, where they are Ethereum messages. *)
Fixpoint predecessors_of (txs : list bytes) : res (list MsgEthereumTx) :=
  match txs with
  | [] => Ok []
  | txBz :: txs' =>
      match node_TxDecoder txBz with
      | Panic e => Panic e
      | Err _ => predecessors_of txs'
      | Ok tx =>
          match GetMsgs tx with
          | [] => Panic IndexOutOfRange
          | EthMsg ethMsg :: _ => rest ← predecessors_of txs'; Ok (ethMsg :: rest)
          | _ :: _ => predecessors_of txs'
          end
      end
  end.

(** The state at the beginning of a block; 0 would be the latest one. *)
Definition context_height (height : Z) : Z := if height - 1 <? 1 then 1 else height - 1.

Definition TraceTransaction (hash : Hash) (config : option TraceConfig) : res string :=
  transaction ← GetByTxHash kvi hash;
  if txr_Height transaction =? 0 then Err (Errorf "genesis is not traceable")
  else
    blk ← CometBFTBlockByNumber kvi (txr_Height transaction);
    match blk with
    | None => Panic NilDereference
    | Some blk =>
        let txsLen := Z.of_nat (length (rb_Txs blk)) in
        if 2 ^ 32 - 1 <? txsLen then Err (Errorf "tx count is overflowing")
        else if txsLen <? txr_TxIndex transaction then Err (Errorf "transaction not included in block")
        else
          predecessors ← predecessors_of (take (Z.to_nat (txr_TxIndex transaction)) (rb_Txs blk));
          txBz ← index_at (rb_Txs blk) (txr_TxIndex transaction);
          tx ← node_TxDecoder txBz;
          ethMessage ← match GetMsgs tx with
                       | [] => Panic IndexOutOfRange
                       | EthMsg m :: _ => Ok m
                       | _ :: _ => Err (Errorf "invalid transaction type")
                       end;
          let request := mkTraceTxRequest ethMessage config predecessors (rb_Height blk) (Bytes2Hex (rb_BlockID blk))
            (ch_Time (rb_Header blk)) (ch_ProposerAddress (rb_Header blk)) in
          data ← node_TraceTx (context_height (txr_Height transaction)) request;
          Unmarshal_Trace data
    end.

Definition eth_messages_of (msgs : list Msg) : list MsgEthereumTx := omap (fun m => match m with EthMsg e => Some e | _ => None end) msgs.
Fixpoint block_messages (txs : list bytes) : res (list MsgEthereumTx) :=
  match txs with
  | [] => Ok []
  | tx :: txs' =>
      match node_TxDecoder tx with
      | Panic e => Panic e
      | Err _ => block_messages txs'
      | Ok decodedTx => rest ← block_messages txs'; Ok (eth_messages_of (GetMsgs decodedTx) ++ rest)
      end
  end.
Definition Backend_TraceBlock (height : BlockNumber) (config : option TraceConfig) (block : ResultBlock) : res (list TxTraceResult) :=
  if decide (length (rb_Txs block) = 0%nat) then Ok []
  else
    txsMessages ← block_messages (rb_Txs block);
    let request := mkTraceBlockRequest txsMessages config (rb_Height block) (Bytes2Hex (rb_BlockID block))
      (ch_Time (rb_Header block)) (ch_ProposerAddress (rb_Header block)) in
    data ← node_TraceBlock (context_height height) request;
    Unmarshal_Traces data.
End State.

(** ** Replacing a transaction *)

Section ResendProofs.
Context {G : Geth} {HX : HexText} {B : Bech32} {CT : Codec TxResult} {N : Node} {RG : RpcGeth} {FN : FeeNode} {LS : LatestSigner}.
Context {SN : SendNode} {TN : StateNode}.
Variable kvi : KVIndexer.
Variable chainID : Z.

Lemma resend_pending_finds_nothing cfg args matchTx gasPrice gasLimit pending sent :
  (forall t, Transaction_Hash t <> zero_hash) ->
  exists r, resend_pending kvi chainID cfg args matchTx gasPrice gasLimit pending sent = (r, sent) /\ forall x, r <> Ok x.
Proof.
  intros Hhash. induction pending as [|tx pending IH]; [by eexists|]. cbn [resend_pending].
  assert ((exists e, UnwrapEthereumMsg tx zero_hash = Err e) \/ exists e, UnwrapEthereumMsg tx zero_hash = Panic e) as [[e ->]|[e ->]].
  { unfold UnwrapEthereumMsg. destruct (GetMsgs tx) as [|[m| | | | |] [|]]; eauto. unfold mbind, res_bind.
    destruct (MsgEthereumTx_AsTransaction m) as [t|e|e]; eauto. rewrite decide_False by done. eauto. }
  - exact IH.
  - by exists (Panic e).
Qed.

(** eth_resend never sends anything: the pending transactions are searched for one whose
    hash is zero, so whatever the arguments and whatever is pending, the call ends in an
    error (or a panic) and nothing is broadcast. *)
Theorem resend_never_sends (args : TransactionArgs) (gasPrice gasLimit : option Z) (sent sent' : list bytes)
    (r : res (Hash * option gerr)) (Hhash : forall t, Transaction_Hash t <> zero_hash)
    (Hrun : Resend kvi chainID args gasPrice gasLimit sent = (r, sent')) :
  sent' = sent /\ forall x, r <> Ok x.
Proof.
  revert Hrun. unfold Resend. unfold mbind, M_bind, lift_res, require.
  destruct (bool_decide _); [|by intros [= <- <-]]. unfold mret, M_ret.
  destruct (SetTxDefaults _ _ _) as [args'|e|e]; [|by intros [= <- <-]..].
  destruct (ParseChainID _) as [id|e|e]; [|by intros [= <- <-]..].
  destruct Backend_ChainConfig as [cfg|e|e]; [|by intros [= <- <-]..].
  destruct (match cfg with Some _ => _ | None => _ end) as [cfg'|e|e]; [|by intros [= <- <-]..].
  destruct (TransactionArgs_ToTransaction _) as [msg|e|e]; [|by intros [= <- <-]..].
  destruct (MsgEthereumTx_AsTransaction msg) as [t|e|e]; [|by intros [= <- <-]..].
  destruct (CheckTxFee _ _ _) as [u|e|e]; [|by intros [= <- <-]..].
  destruct PendingTransactions as [pending|e|e]; [|by intros [= <- <-]..].
  destruct (resend_pending_finds_nothing cfg' args' t gasPrice gasLimit pending sent Hhash) as (r' & -> & Hr). by intros [= <- <-].
Qed.
End ResendProofs.

(** ** What the server reads is the state *)

Section ReadProofs.
Context {G : Geth} {HX : HexText} {HL : HexTextLaws} {B : Bech32} {CT : Codec TxResult} {N : Node} {RG : RpcGeth} {FN : FeeNode} {LS : LatestSigner}.
Context {SN : SendNode} {TN : StateNode}.
Context {S : Type} {K : SdkKeepers S} {P : Codec EvmParams} {CP : Codec CpcParams} {CM : Codec CustomPrecompiledContractMeta}.
Variable kvi : KVIndexer.
(** The state after a block, and the last block the node has committed; the index, which is
    filled by a service of its own, may be behind it. *)
Variable world_at : Z -> World S.
Variable latest : Z.
Definition served (height : Z) : World S := world_at (if height =? 0 then latest else height).

(** The node answers from the states of the chain: queries run on the state of their height,
    or of the last block without one, and a store query reads the store of the EVM. *)
Record serves : Prop := {
  sv_code height address : node_Code height address = Query_Code (served height) (Some address);
  sv_storage height address key : node_Storage height address key = Query_Storage (served height) (Some (address, key));
  sv_balance height address : node_Balance height address = Query_Balance (served height) (Some address);
  sv_account height address : node_EvmAccount height address = Query_Account (served height) (Some address);
  sv_store height key r : node_QueryABCI height "evm" key = Ok r -> r.1 = kv_get (w_evm (served height)) key
}.
(** [NewIntFromString] reads back the text of a natural number of 256 bits. *)
Definition reads_numbers : Prop := forall z, 0 <= z < 2 ^ 256 -> NewIntFromString (pretty z) = Some z.
(** A slot of the storage has at most 32 bytes. *)
Definition short_slots (w : World S) : Prop := forall a (key : Hash), (length (kv_get (w_evm w) (StateKey a (farr_bytes key))) <= 32)%nat.

(** Leading zeros do not count. *)
Lemma le_decode_zeros l n : le_decode (l ++ replicate n x00) = le_decode l.
Proof.
  induction l as [|b l IH]; simpl; [|by rewrite IH]. induction n as [|n IHn]; simpl; [done|]. rewrite IHn. by vm_compute.
Qed.
Lemma big_SetBytes_fit (l : bytes) : (length l <= 32)%nat -> big_SetBytes (farr_bytes (BytesToHash l)) = big_SetBytes l.
Proof.
  intros Hl. change (farr_bytes (BytesToHash l)) with (fit 32 l). unfold fit, big_SetBytes, be_decode.
  replace (length l - 32)%nat with 0%nat by lia. rewrite drop_0, rev_app_distr.
  assert (forall n (b : byte), rev (replicate n b) = replicate n b) as ->.
  { intros n b. induction n as [|n IH]; simpl; [done|]. by rewrite IH, <- replicate_cons_app. }
  apply le_decode_zeros.
Qed.

Lemma valid_text a : ValidateAddress (Address_String a) = Ok tt.
Proof. unfold ValidateAddress. by rewrite address_text_hex. Qed.

Lemma big_SetBytes_state (w : World S) a key : short_slots w ->
  big_SetBytes (farr_bytes (Keeper_GetState w a key)) = big_SetBytes (kv_get (w_evm w) (StateKey a (farr_bytes key))).
Proof.
  intros Hs. specialize (Hs a key). unfold Keeper_GetState. change (AddressStoragePrefix a ++ farr_bytes key) with (StateKey a (farr_bytes key)).
  destruct (kv_get (w_evm w) (StateKey a (farr_bytes key))) as [|b l]; [by vm_compute|]. rewrite decide_False by done.
  by apply big_SetBytes_fit.
Qed.

Lemma storage_proofs_values (Hsv : serves) address height keys rs : short_slots (served height) ->
  storage_proofs address height keys = Ok rs ->
  Forall2 (fun key r => sr_Key r = key /\
    sr_Value r = big_SetBytes (farr_bytes (Keeper_GetState (served height) address (HexToHash key)))) keys rs.
Proof.
  intros Hs. revert rs. induction keys as [|key keys IH]; intros rs; simpl; [intros [= <-]; constructor|].
  unfold mbind, res_bind. destruct (QueryClient_GetProof _ _ _) as [[v proof]|e|e] eqn:Eq; [|done|done].
  destruct (storage_proofs address height keys) as [rest|e|e]; [|done|done]. intros [= <-]. constructor; [|by apply IH].
  split; [done|]. simpl. rewrite big_SetBytes_state by done. f_equal. revert Eq. unfold QueryClient_GetProof.
  destruct (height <=? 2); [done|]. intros Eq. by apply (sv_store Hsv) in Eq.
Qed.

(** The block whose proofs are looked up: the one asked for, or the last one of the index. *)
Definition proof_height (height : Z) : res Z := if height =? 0 then Backend_BlockNumber kvi else Ok height.

(** C36 What the server says of an account is what a state of the chain holds, whichever
    method is asked.  The code, the balance in the EVM denomination and a storage slot are
    those of the state of the block asked for, or of the last block of the node for
    "latest" and "pending"; and whenever eth_getProof answers, its balance, nonce and code
    hash are the ones of that same state.  Its storage values are those of the state of the
    block asked for too, but for "latest" and "pending" they are those of the last block of
    the index: all of them agree if that is the last block of the node, and not in general,
    since the index may be behind. *)
Theorem state_reads_agree (address : Address) (ref : BlockNumberOrHash) (n : BlockNumber) (block : option ResultBlock) (balance : Z)
    (Hsv : serves) (Hnum : reads_numbers)
    (Href : BlockNumberFromCometBFT ref = Ok n) (Hblock : CometBFTBlockByNumber kvi n = Ok block)
    (Hbal : Keeper_GetBalance (served (BlockNumber_Int64 n)) address = Ok balance) (Hrange : 0 <= balance < 2 ^ 256)
    (Hshort : forall height, short_slots (world_at height)) :
  let w := served (BlockNumber_Int64 n) in
  GetCode address ref = Ok (if HasCustomPrecompiledContract w address then PseudoCodePrecompiled
    else if IsEmptyCodeHash (Keeper_GetCodeHash w (farr_bytes address)) then [] else Keeper_GetCode w (Keeper_GetCodeHash w (farr_bytes address))) /\
  Rpc_GetBalance kvi address ref = Ok balance /\
  (forall key, GetStorageAt address key ref = Ok (farr_bytes (Keeper_GetState w address (HexToHash key)))) /\
  forall keys r, GetProof kvi address keys ref = Ok r ->
    ar_Balance r = balance /\ ar_CodeHash r = Keeper_GetCodeHash w (farr_bytes address) /\ ar_Nonce r = Keeper_GetNonce w address /\
    exists height, proof_height (BlockNumber_Int64 n) = Ok height /\
      Forall2 (fun key s => sr_Key s = key /\ sr_Value s = big_SetBytes (farr_bytes (Keeper_GetState (world_at height) address (HexToHash key))))
        keys (ar_StorageProof r) /\
      (BlockNumber_Int64 n <> 0 \/ height = latest -> world_at height = w).
Proof.
  intros w. assert (NewIntFromString (pretty balance) = Some balance) as Hn by (by apply Hnum).
  split_and!.
  - unfold GetCode, mbind, res_bind. rewrite Href, (sv_code Hsv). unfold Query_Code. cbn. rewrite valid_text, address_text. cbn. fold w.
    destruct (HasCustomPrecompiledContract w address); [done|]. by destruct (IsEmptyCodeHash _).
  - unfold Rpc_GetBalance, mbind, res_bind. rewrite Href, Hblock, (sv_balance Hsv). unfold Query_Balance. cbn.
    rewrite valid_text, address_text. cbn. rewrite Hbal. cbn. rewrite Hn, (proj2 (Z.ltb_ge _ _)) by lia. done.
  - intros key. unfold GetStorageAt, mbind, res_bind. rewrite Href, (sv_storage Hsv). unfold Query_Storage. cbn.
    rewrite valid_text, address_text. cbn. by rewrite hash_text.
  - intros keys r. unfold GetProof, mbind, res_bind. rewrite Href, Hblock. cbn [wrap_res].
    destruct (if BlockNumber_Int64 n =? 0 then _ else _) as [ph|e|e] eqn:Eh; [|done|done].
    assert (proof_height (BlockNumber_Int64 n) = Ok ph /\ ph <> 0 /\ (BlockNumber_Int64 n <> 0 \/ ph = latest -> world_at ph = w)) as (Hp & H0 & Hw).
    { revert Eh. subst w. unfold proof_height, served. destruct (Z.eqb_spec (BlockNumber_Int64 n) 0) as [E0|Hne]; [|intros [= <-]; auto].
      unfold Backend_BlockNumber, mbind, res_bind. destruct (GetLastRequestIndexedBlock kvi) as [bn|e|e]; [|done|done].
      destruct (Z.ltb_spec bn 1); [done|]. destruct (MaxInt64 <? bn); [done|]. intros [= <-]. split_and!; [done|lia|]. by intros [?| ->]. }
    destruct (storage_proofs address ph keys) as [sp|e|e] eqn:Esp; [|done|done].
    assert (served ph = world_at ph) as Hph by (unfold served; by rewrite (proj2 (Z.eqb_neq ph 0))).
    apply (storage_proofs_values Hsv) in Esp; [|by rewrite Hph]. rewrite Hph in Esp.
    rewrite (sv_account Hsv). unfold Query_Account. cbn. rewrite valid_text, address_text. cbn. fold w. fold w in Hbal. rewrite Hbal. cbn.
    destruct (QueryClient_GetProof ph "acc" _) as [[v proof]|e|e]; [|done|done]. rewrite Hn. intros [= <-]. cbn.
    split_and!; [done|by rewrite hash_text|done|]. by exists ph.
Qed.
End ReadProofs.

(** ** Traces of a block and of its transactions *)

Section TraceProofs.
Context {G : Geth} {HX : HexText} {B : Bech32} {CT : Codec TxResult} {N : Node} {RG : RpcGeth} {FN : FeeNode} {LS : LatestSigner}.
Context {SN : SendNode} {TN : StateNode}.
Context {S : Type} {K : SdkKeepers S} {E : EvmEngine S} {EL : EvmEngineLaws S} {P : Codec EvmParams} {FP : Codec FmParams}.
Context {SK : StakingKeepers S} {E712 : Eip712Lib} {CP : Codec CpcParams} {CM : Codec CustomPrecompiledContractMeta}.
Context {JE : Json Erc20CustomPrecompiledContractMeta} {JS : Json StakingCustomPrecompiledContractMeta}.
Context {H C : Type} {X : CacheCtx H C (World S)} {XL : CacheCtxLaws H C (World S)} {TL : TracerLib S}.
Variable legacy_params : S -> FmParams.
Variable GetValidatorByConsAddr : S -> bytes -> res string.
Variable ValidatorStringToBytes : string -> res bytes.
Variables Erc20CpcInfo Bech32CpcInfo StakingCpcInfo : CustomPrecompiledContractInfo.
Variable now : Z.
Variable map_order : AccountTracker -> list Address.
Variable kvi : KVIndexer.
(** The context a query of a height runs in. *)
Variable query_ctx : Z -> Ctx.
Variable query_store : Z -> C.
Variable query_heap : Z -> H.

(** The node answers trace queries by running them, and their results are read back. *)
Record traces_served : Prop := {
  ts_tx height req : node_TraceTx height req = fst (TraceTx legacy_params GetValidatorByConsAddr ValidatorStringToBytes
    Erc20CpcInfo Bech32CpcInfo StakingCpcInfo now map_order (query_ctx height) (query_store height) (Some req) (query_heap height));
  ts_block height req : node_TraceBlock height req = fst (TraceBlock legacy_params GetValidatorByConsAddr ValidatorStringToBytes
    Erc20CpcInfo Bech32CpcInfo StakingCpcInfo now map_order (query_ctx height) (query_store height) (Some req) (query_heap height));
  ts_valid height : ctx_valid (query_heap height) (query_store height);
  ts_read result : exists bz, Marshal_Trace (S:=S) result = Ok bz /\ Unmarshal_Trace bz = Ok result;
  ts_reads results bz : Marshal_Traces (S:=S) results = Ok bz -> Unmarshal_Traces bz = Ok results
}.

(** Transactions of a block have one Ethereum message, or messages of other kinds only. *)
Definition lanes_apart (txs : list bytes) : Prop := forall txBz tx, txBz ∈ txs -> node_TxDecoder txBz = Ok tx ->
  (exists m, GetMsgs tx = [EthMsg m]) \/ (GetMsgs tx <> [] /\ forall m, EthMsg m ∉ GetMsgs tx).

Lemma eth_messages_of_none msgs : (forall m, EthMsg m ∉ msgs) -> eth_messages_of msgs = [].
Proof.
  unfold eth_messages_of. induction msgs as [|m msgs IH]; intros Hno; [done|]. simpl.
  destruct m as [e| | | | |]; try (apply IH; intros e' He; apply (Hno e'); by right). destruct (Hno e). left.
Qed.

Lemma block_messages_app pre suf msgs : lanes_apart pre -> block_messages (pre ++ suf) = Ok msgs ->
  exists ms ns, predecessors_of pre = Ok ms /\ block_messages suf = Ok ns /\ msgs = ms ++ ns.
Proof.
  revert msgs. induction pre as [|txBz pre IH]; intros msgs Hl; [intros Hs; by exists [], msgs|].
  assert (lanes_apart pre) as Hl' by (intros b t Hb; apply Hl; by right).
  cbn [app block_messages predecessors_of]. destruct (node_TxDecoder txBz) as [tx|e|e] eqn:Et; [|by apply IH|done].
  unfold mbind, res_bind. destruct (block_messages (pre ++ suf)) as [rest|e|e]; [|done|done]. intros [= <-].
  destruct (IH rest Hl' eq_refl) as (ms & ns & -> & -> & ->).
  destruct (Hl txBz tx) as [[m ->]|[Hne Hno]]; [left|done|by exists (m :: ms), ns|]. rewrite eth_messages_of_none by done.
  destruct (GetMsgs tx) as [|m msgs]; [done|]. exists ms, ns. destruct m as [e| | | | |]; try done. destruct (Hno e). left.
Qed.

Lemma predecessors_length txs ms : predecessors_of txs = Ok ms -> (length ms <= length txs)%nat.
Proof.
  revert ms. induction txs as [|txBz txs IH]; intros ms; cbn [predecessors_of length]; [by intros [= <-]|].
  assert (predecessors_of txs = Ok ms -> (length ms <= Datatypes.S (length txs))%nat) as Hskip by (intros ?%IH; lia).
  destruct (node_TxDecoder txBz) as [tx|e|e]; [|exact Hskip|done]. destruct (GetMsgs tx) as [|[m| | | | |] msgs]; try done; try exact Hskip.
  unfold mbind, res_bind. destruct (predecessors_of txs) as [rest|e|e]; [|done|done]. intros [= <-]. specialize (IH rest eq_refl). cbn. lia.
Qed.
Lemma block_messages_length txs msgs : lanes_apart txs -> block_messages txs = Ok msgs -> (length msgs <= length txs)%nat.
Proof.
  intros Hl Hm. rewrite <- (app_nil_r txs) in Hm. apply block_messages_app in Hm as (ms & ns & Hp & [= <-] & ->); [|done].
  rewrite app_nil_r. by apply predecessors_length.
Qed.

(** C37 debug_traceTransaction agrees with debug_traceBlockByNumber, on the requests where
    both give the tracer the same configuration: there is no JSON configuration of the
    tracer, or the default tracer is asked for, since TraceBlock drops a JSON configuration
    that TraceTx hands to a named tracer.  For a block that is stored and whose transaction
    at a position is indexed, with transactions of one Ethereum message or of none, the
    trace of the transaction is then the entry of the block's trace at its index, if that
    entry and every entry before it is a trace: a transaction before it whose trace failed
    may have been executed by one of the two and not by the other. *)
Theorem debug_traces_agree (hash : Hash) (config : option TraceConfig) (block : ResultBlock) (r : TxResult) (txBz : bytes) (tx : Tx)
    (m : MsgEthereumTx) (before : list MsgEthereumTx) (results : list TxTraceResult) (result : string)
    (Hserved : traces_served) (Hcfg : plain_config config)
    (Hindexed : GetByTxHash kvi hash = Ok r) (Hheight : 1 <= txr_Height r) (Hidx : 0 <= txr_TxIndex r)
    (Hblock : CometBFTBlockByNumber kvi (txr_Height r) = Ok (Some block)) (Hcount : Z.of_nat (length (rb_Txs block)) < 2 ^ 32)
    (Htx : rb_Txs block !! Z.to_nat (txr_TxIndex r) = Some txBz) (Hdec : node_TxDecoder txBz = Ok tx) (Hmsgs : GetMsgs tx = [EthMsg m])
    (Hlanes : lanes_apart (rb_Txs block))
    (Hbefore : predecessors_of (take (Z.to_nat (txr_TxIndex r)) (rb_Txs block)) = Ok before)
    (Htrace : Backend_TraceBlock (txr_Height r) config block = Ok results)
    (Hok : Forall is_trace (take (length before) results)) (Hresult : results !! length before = Some (TraceResult result)) :
  TraceTransaction kvi hash config = Ok result.
Proof.
  set (p := Z.to_nat (txr_TxIndex r)) in *. pose proof (lookup_lt_Some _ _ _ Htx) as Hp.
  revert Htrace. unfold Backend_TraceBlock. rewrite decide_False by lia. unfold mbind, res_bind.
  destruct (block_messages (rb_Txs block)) as [msgs|e|e] eqn:Em; [|done|done]. pose proof (block_messages_length _ _ Hlanes Em) as Hmany.
  rewrite <- (take_drop_middle _ _ _ Htx) in Em.
  apply block_messages_app in Em as (ms & ns & Hms & Hns & ->).
  2:{ intros b t Hb. apply Hlanes. by apply elem_of_take in Hb as (i & Hi%list_elem_of_lookup_2 & _). }
  rewrite Hbefore in Hms. injection Hms as <-. cbn [block_messages] in Hns. rewrite Hdec, Hmsgs in Hns. unfold mbind, res_bind in Hns.
  destruct (block_messages (drop _ _)) as [rest|e|e]; [|done|done]. injection Hns as <-. cbn [eth_messages_of omap list_omap app].
  set (req := mkTraceBlockRequest _ _ _ _ _ _). rewrite (ts_block Hserved). set (ht := context_height (txr_Height r)).
  destruct (TraceBlock _ _ _ _ _ _ _ _ (query_ctx ht) (query_store ht) (Some req) (query_heap ht)) as [[data|e|e] h'] eqn:Erun; [|done|done].
  intros Hread.
  destruct (trace_block_entries legacy_params GetValidatorByConsAddr ValidatorStringToBytes Erc20CpcInfo Bech32CpcInfo StakingCpcInfo now map_order
    (query_ctx ht) (query_store ht) (query_heap ht) h' req data (ts_valid Hserved ht) Hcfg) as (rs & Hm & _ & Hall); [|exact Erun|].
  { cbn [req tbr_Txs]. unfold MaxUint64. lia. }
  apply (ts_reads Hserved) in Hm. cbn in Hread. rewrite Hread in Hm. injection Hm as <-.
  specialize (Hall (query_store ht) (query_heap ht) before m rest result (ts_valid Hserved ht) eq_refl eq_refl Hok Hresult).
  destruct (ts_read Hserved result) as (bz & Hbz & Hback). rewrite Hbz in Hall.
  unfold TraceTransaction, mbind, res_bind. rewrite Hindexed, Hblock. rewrite (proj2 (Z.eqb_neq _ _)) by lia.
  rewrite (proj2 (Z.ltb_ge (2 ^ 32 - 1) _)) by lia. rewrite (proj2 (Z.ltb_ge _ (txr_TxIndex r))) by lia.
  fold p. rewrite Hbefore. unfold index_at. fold p. rewrite Htx, Hdec, Hmsgs. fold ht. rewrite (ts_tx Hserved).
  cbn [req tbr_TraceConfig tbr_BlockNumber tbr_BlockHash tbr_BlockTime tbr_ProposerAddress] in Hall. rewrite Hall. exact Hback.
Qed.
End TraceProofs.
