(* ===== verification/RpcApi.v ===== *)
(** * The namespaces of the JSON-RPC server and the settings of the node

    What the namespaces eth and personal do themselves (rpc/namespaces/ethereum/eth/api.go,
    personal/api.go, debug/api.go; their other methods only call the backend), the logs of a
    block (rpc/backend/filters.go), and the accounts and settings of the node
    (rpc/backend/node_info.go).  The key ring of the node is the state of the operations
    on it; the configuration file, the SDK's transaction factory and go-ethereum's
    recovery of keys are parameters. *)

From Stdlib Require Import Strings.Byte.
From stdpp Require Import base gmap list strings pretty.
From S2P Require Import Prelude Sdk Geth EvmTypes ChainId GasMeter TxTypes Genesis EvmStore FeeMarket StateDB AnteTx TxExecution Keys Wallets.
From S2P Require Import Cpc CpcContracts Eip712 Staking Contracts StateTransition VAuth Ante Query Tracing Indexer RpcLogs RpcBlocks RpcFees RpcSend RpcState.

(** ** The key ring *)

(** A record of the key ring: its name, and the address of its public key, which may fail
    to decode. *)
Record KeyRecord : Type := mkKeyRecord {
  kr_Name : string;
  kr_Address : res bytes
}.

Class Keyring (R : Type) : Type := {
  ring_List : R -> res (list KeyRecord);
  ring_KeyByAddress : R -> bytes -> res KeyRecord;
  (** name, armored key, passphrase *)
  ring_ImportPrivKey : string -> string -> string -> M R unit;
  (** name, path, passphrase *)
  ring_NewMnemonic : string -> string -> string -> M R KeyRecord;
  EncryptArmorPrivKey : bytes -> string -> string;
  UnarmorDecryptPrivKey : string -> string -> res bytes
}.

(** The address of a private key. *)
Definition key_address {C : Curve} (privKey : bytes) : option bytes := PubKey_Address <$> PrivKey_PubKey privKey.

(** The key ring of the SDK: a key is found by its address exactly if a record of the list
    has it; an import needs a free name and a key that decrypts, and adds one record; a
    failing import changes nothing. *)
Class KeyringLaws {C : Curve} (R : Type) {KR : Keyring R} : Prop := {
  ring_found r l addr : ring_List r = Ok l ->
    (exists k, ring_KeyByAddress r addr = Ok k) <-> exists k, k ∈ l /\ kr_Address k = Ok addr;
  ring_imported r l name armor pass key addr : ring_List r = Ok l -> name ∉ kr_Name <$> l ->
    UnarmorDecryptPrivKey armor pass = Ok key -> key_address key = Some addr ->
    exists r' l', ring_ImportPrivKey name armor pass r = (Ok tt, r') /\ ring_List r' = Ok l' /\ l' ≡ₚ mkKeyRecord name (Ok addr) :: l;
  ring_taken r l name armor pass : ring_List r = Ok l -> name ∈ kr_Name <$> l ->
    exists e, ring_ImportPrivKey name armor pass r = (Err e, r);
  armor_opens key pass : UnarmorDecryptPrivKey (EncryptArmorPrivKey key pass) pass = Ok key
}.

(** A coin of the minimum gas prices; the amount is a decimal. *)
Abbreviation DecCoins := (list (string * Z)).

(** The transaction that sets the withdraw address. *)
Record EtherbaseTx : Type := mkEtherbaseTx {
  et_Delegator : string;
  et_Withdraw : string;
  et_Fee : string * Z;
  et_Gas : Z
}.

Class ApiNode : Type := {
  (** [crypto.HexToECDSA] *)
  HexToECDSA : forall {C : Curve}, string -> res ECDSA;
  (** [accounts.TextHash]: the hash of the text with Ethereum's prefix *)
  TextHash : bytes -> Hash;
  SigToPub : forall {C : Curve}, bytes -> bytes -> res Point;
  (** the sync state of the node: catching up, earliest and latest height *)
  node_Status : res (bool * Z * Z);
  (** [GetMinGasPrices] of the configuration *)
  MinGasPrices : DecCoins;
  ValidateDenom : string -> bool;
  (** [SetMsgs] of the transaction builder, for delegator and withdraw address; [None] for
      a builder of another type *)
  node_SetMsgs : option (string -> string -> res unit);
  (** [CalculateGas] with a sequence *)
  node_CalculateGas : Z -> string -> string -> res Z;
  (** [Sign] with the key of a name and a sequence, then [TxEncoder] *)
  node_SignTx : string -> Z -> EtherbaseTx -> res EtherbaseTx;
  node_EncodeTx : EtherbaseTx -> res bytes;
  (** [config.GetConfig], for the minimum gas prices, and [sdk.GetBaseDenom] *)
  node_GetConfig : res DecCoins;
  GetBaseDenom : res string
}.

Section Api.
Context {G : Geth} {HX : HexText} {B : Bech32} {CT : Codec TxResult} {N : Node} {RG : RpcGeth} {FN : FeeNode} {LS : LatestSigner}.
Context {SN : SendNode} {TN : StateNode} {AN : ApiNode} {C : Curve}.
Variable kvi : KVIndexer.
Variable chainID : Z.

(** ** eth *)

Definition Eth_GetTransactionCount (address : Address) (blockNrOrHash : BlockNumberOrHash) : res Z :=
  blockNum ← BlockNumberFromCometBFT blockNrOrHash;
  GetTransactionCount kvi address blockNum.

(** The data is empty beside an error. *)
Definition Eth_Call (args : TransactionArgs) (blockNrOrHash : BlockNumberOrHash) : bytes + CallError :=
  match BlockNumberFromCometBFT blockNrOrHash with
  | Err e | Panic e => inr (CallErr e)
  | Ok blockNum => match DoCall args blockNum with inl data => inl (resp_Ret data) | inr e => inr e end
  end.

Definition MaxPriorityFeePerGas : res Z :=
  head ← CurrentHeader kvi;
  match head with
  | None => Panic NilDereference
  | Some head => match eh_BaseFee head with Some b => Ok (SuggestGasTipCap b) | None => Panic NilDereference end
  end.

Definition Coinbase : res Address := coinbase ← GetCoinbase; Ok (BytesToAddress coinbase).

(** [None] is nil: of a failed transaction, and of a dropped one, where a nil error is
    wrapped. *)
Definition GetTransactionLogs (txHash : Hash) : res (option (list EthLog)) :=
  r ← wrap_res (Errorf "tx not found") (GetByTxHash kvi txHash);
  if txr_Failed r then Ok None
  else
    resBlockResult ← wrap_res (Errorf "block result not found") (CometBFTBlockResultByNumber (txr_Height r));
    txResult ← index_at (br_TxsResults resBlockResult) (txr_TxIndex r);
    if TxWasDroppedPreAnteHandleDueToBlockGasExcess txResult then Ok None
    else
      resBlock ← wrap_res (Errorf "block not found") (CometBFTBlockByNumber kvi (txr_Height r));
      icReceipt ← wrap_res (Errorf "failed to get receipt from event") (TxReceiptFromEvent (result_Events txResult));
      match icReceipt with
      | None => Ok (Some [])
      | Some icReceipt =>
          match resBlock with
          | None => Panic NilDereference
          | Some resBlock => Ok (Some (er_Logs (ic_Receipt (InCompletedEthReceipt_Fill icReceipt (BytesToHash (rb_BlockID resBlock))))))
          end
      end.

Definition FillTransaction (args : TransactionArgs) : res (bytes * Transaction) :=
  args ← SetTxDefaults kvi chainID args;
  msg ← TransactionArgs_ToTransaction args;
  tx ← MsgEthereumTx_AsTransaction msg;
  data ← Transaction_MarshalBinary tx;
  Ok (data, tx).

(** The loop ends at the first transaction that is no Ethereum one; the chain id of the
    configuration is the backend's. *)
Fixpoint pending_list (txs : list Tx) : res (list RPCTransaction) :=
  match txs with
  | [] => Ok []
  | tx :: txs' =>
      match GetMsgs tx with
      | [] => Panic IndexOutOfRange
      | EthMsg ethMsg :: _ =>
          config ← Backend_ChainConfig;
          match config with
          | None => Panic NilDereference
          | Some _ =>
              rpctx ← NewTransactionFromMsg chainID ethMsg zero_hash 0 0 None;
              rest ← pending_list txs';
              Ok (rpctx :: rest)
          end
      | _ => Ok []
      end
  end.
Definition GetPendingTransactions : res (list RPCTransaction) := txs ← PendingTransactions; pending_list txs.

(** ** Traces by block *)

Definition TraceBlockByNumber (height : BlockNumber) (config : option TraceConfig) : res (list TxTraceResult) :=
  if height =? 0 then Err (Errorf "genesis is not traceable")
  else
    resBlock ← CometBFTBlockByNumber kvi height;
    match resBlock with
    | None => Panic NilDereference
    | Some resBlock => Backend_TraceBlock (rb_Height resBlock) config resBlock
    end.
Definition TraceBlockByHash (hash : Hash) (config : option TraceConfig) : res (list TxTraceResult) :=
  resBlock ← CometBFTBlockByHash hash;
  match resBlock with
  | None => Err (Errorf "block not found")
  | Some resBlock => Backend_TraceBlock (rb_Height resBlock) config resBlock
  end.

(** ** Logs of a block *)

Definition GetLogsByHeight (height : Z) : res (list (list EthLog)) :=
  blockRes ← CometBFTBlockResultByNumber height;
  GetLogsFromBlockResults blockRes.
Definition Backend_GetLogs (hash : Hash) : res (list (list EthLog)) :=
  resBlock ← CometBFTBlockByHash hash;
  match resBlock with
  | None => Err (Errorf "block not found for hash")
  | Some resBlock => GetLogsByHeight (rb_Height resBlock)
  end.

(** ** personal *)

Definition EcRecover (data sig : bytes) : res Address :=
  if negb (length sig =? SignatureLength)%nat then Err (Errorf "signature must be 65 bytes long")
  else match sig !! RecoveryIDOffset with
  | None => Panic IndexOutOfRange
  | Some v =>
      if negb (Z_of_byte v =? 27) && negb (Z_of_byte v =? 28) then Err (Errorf "invalid Ethereum signature (V is not 27 or 28)")
      else
        let sig := <[RecoveryIDOffset := byte_of_Z (Z_of_byte v - 27)]> sig in
        pubkey ← SigToPub (farr_bytes (TextHash data)) sig;
        Ok (Point_Address pubkey)
  end.

(** ** Accounts of the node *)

Section Ring.
Context {R : Type} {KR : Keyring R}.

Fixpoint ring_addresses (infos : list KeyRecord) : res (list Address) :=
  match infos with
  | [] => Ok []
  | info :: infos' =>
      addressBytes ← kr_Address info;
      addresses ← ring_addresses infos';
      Ok (BytesToAddress addressBytes :: addresses)
  end.
Definition Backend_Accounts (r : R) : res (list Address) :=
  if negb AllowInsecureUnlock then Err (Errorf "account unlock with HTTP access is forbidden")
  else infos ← ring_List r; ring_addresses infos.
Definition ListAccounts (r : R) : res (list Address) :=
  if negb AllowInsecureUnlock then Err (Errorf "account unlock with HTTP access is forbidden")
  else list ← ring_List r; ring_addresses list.

Definition personal_name (n : nat) : string := ("personal_" ++ pretty n)%string.

(** The error of the list is ignored. *)
Definition ImportRawKey (privkey password : string) : M R Address :=
  priv ← lift_res (HexToECDSA privkey);
  let privKey := FromECDSA priv in
  addr ← lift_res (match key_address privKey with Some a => Ok a | None => Panic NilDereference end);
  let ethereumAddr := BytesToAddress addr in
  r ← gets (fun r => r);
  match ring_KeyByAddress r addr with
  | Panic e => panic e
  | Ok _ => mret ethereumAddr
  | Err _ =>
      list ← lift_res (match ring_List r with Ok l => Ok l | Err _ => Ok [] | Panic e => Panic e end);
      let privKeyName := personal_name (length list) in
      let armor := EncryptArmorPrivKey privKey password in
      ring_ImportPrivKey privKeyName armor password ;;
      mret ethereumAddr
  end.

Definition Backend_NewMnemonic (uid hdPath bip39Passphrase : string) : M R KeyRecord := ring_NewMnemonic uid hdPath bip39Passphrase.
(** The name holds the time, the path comes from the iterator of Ledger paths. *)
Definition NewAccount (name hdPath password : string) : M R Address :=
  info ← Backend_NewMnemonic name hdPath password;
  address ← lift_res (kr_Address info);
  mret (BytesToAddress address).
End Ring.

(** ** Settings *)

(** [None] is false: not syncing. *)
Definition Syncing : res (option (Z * Z)) :=
  status ← node_Status;
  let '(catchingUp, earliest, latest) := status in
  if negb catchingUp then Ok None else Ok (Some (wrap64 earliest, wrap64 latest)).

(** [Ceil], [TruncateInt] and [Uint64] of a decimal. *)
Definition Dec_Ceil (d : Z) : Z := let q := TruncateInt d in if 0 <? Z.rem d dec_precision then q + 1 else q.
Definition Int_Uint64 (z : Z) : res Z := if (0 <=? z) && (z <=? MaxUint64) then Ok z else Panic (Errorf "Int64() out of bounds").

(** The result is whether all went well; a builder of another type has the error read of a
    nil error. *)
Definition false_on_error {R A} (m : M R A) (k : A -> M R bool) : M R bool := fun r =>
  match m r with
  | (Ok a, r') => k a r'
  | (Err _, r') => (Ok false, r')
  | (Panic e, r') => (Panic e, r')
  end.
Definition SetEtherbase {R} {KR : Keyring R} (ring : R) (etherbase : Address) : M (list bytes) bool :=
  if negb AllowInsecureUnlock then mret false
  else
    false_on_error (lift_res GetCoinbase) (fun delAddr =>
    let delegator := AccAddressString delAddr in
    let withdraw := AccAddressString (farr_bytes etherbase) in
    match node_SetMsgs with
    | None => panic NilDereference
    | Some SetMsgs =>
        false_on_error (lift_res (SetMsgs delegator withdraw)) (fun _ =>
        match MinGasPrices with
        | [] => mret false
        | (denom, minGasPriceValue) :: _ =>
            false_on_error (lift_res (GetTransactionCount kvi (BytesToAddress delAddr) EthPendingBlockNumber)) (fun nonce =>
            false_on_error (lift_res (node_CalculateGas nonce delegator withdraw)) (fun gas =>
            price ← lift_res (Int_Uint64 (Dec_Ceil minGasPriceValue));
            let value := wrap64 (gas * price) in
            if negb (ValidateDenom denom) then panic (Errorf "invalid denom")
            else
              let tx := mkEtherbaseTx delegator withdraw (denom, value) gas in
              false_on_error (lift_res (ring_KeyByAddress ring delAddr)) (fun keyInfo =>
              false_on_error (lift_res (node_SignTx (kr_Name keyInfo) nonce tx)) (fun tx =>
              false_on_error (lift_res (node_EncodeTx tx)) (fun txBytes =>
              e ← broadcast txBytes;
              mret match e with Some _ => false | None => true end)))))
        end)
    end).

(** The state is what the configuration file holds as minimum gas prices. *)
Definition SetGasPrice (gasPrice : Z) : M DecCoins bool :=
  false_on_error (lift_res node_GetConfig) (fun minGasPrices =>
  false_on_error (lift_res (match minGasPrices with [] => GetBaseDenom | (denom, _) :: _ => Ok denom end)) (fun unit =>
  if negb (ValidateDenom unit) || (gasPrice <? 0) || (256 <? BitLen gasPrice) then panic (Errorf "invalid coin")
  else modify (fun _ => [(unit, gasPrice * dec_precision)]) ;; mret true)).

(** The setter of the setting; the backend is the rest of the node. *)
Definition set_AllowInsecureUnlock (allow : bool) : SendNode :=
  if Bool.eqb AllowInsecureUnlock allow then SN
  else Build_SendNode node_Account node_EnsureExists node_EstimateGas node_EvmDenom keyring_Has keyring_Sign node_TxEncoder node_Broadcast RPCGasCap allow.

Definition DefaultGasPrice : Z := 20.
Definition RPCMinGasPrice : res Z :=
  match node_EvmDenom with
  | Panic e => Panic e
  | Err _ => Ok DefaultGasPrice
  | Ok evmDenom =>
      let amt := TruncateInt (AmountOf MinGasPrices evmDenom) in
      if negb (ValidateDenom evmDenom) then Panic (Errorf "invalid denom")
      else if negb (IsInt64 amt) then Panic (Errorf "Int64() out of bound")
      else if amt =? 0 then Ok DefaultGasPrice else Ok amt
  end.
End Api.

(** ** What the namespaces answer *)

Section ApiProofs.
Context {G : Geth} {HX : HexText} {B : Bech32} {CT : Codec TxResult} {N : Node} {RG : RpcGeth} {FN : FeeNode} {LS : LatestSigner}.
Context {SN : SendNode} {TN : StateNode} {AN : ApiNode} {C : Curve}.
Variable kvi : KVIndexer.
Variable chainID : Z.

Lemma fmap_ok_inv {A A'} (f : A -> A') (r : res A) b : f <$> r = Ok b -> exists a, r = Ok a /\ b = f a.
Proof. destruct r; try done. intros [= <-]. eauto. Qed.

Lemma receipt_logs ethMsg r price receipt : NewRPCReceiptFromReceipt ethMsg r price = Ok receipt -> rr_Logs receipt = er_Logs r.
Proof.
  unfold NewRPCReceiptFromReceipt. intros (? & _ & H)%res_bind_ok_inv. repeat (apply res_bind_ok_inv in H as (? & _ & H)). by injection H as <-.
Qed.

(** The logs of a transaction are the logs of its receipt: whenever the server has a
    receipt for the hash of a transaction that did not fail, it answers a request for the
    logs, and with these. *)
Theorem transaction_logs_agree (hash : Hash) (r : TxResult) (receipt : RPCReceipt)
    (Hindex : GetByTxHash kvi hash = Ok r) (Hok : txr_Failed r = false)
    (Hreceipt : GetTransactionReceipt kvi hash = Ok (Some receipt)) :
  GetTransactionLogs kvi hash = Ok (Some (rr_Logs receipt)).
Proof.
  unfold GetTransactionReceipt in Hreceipt. unfold GetTransactionLogs. rewrite Hindex in Hreceipt |- *. cbn [wrap_res mbind res_bind]. rewrite Hok.
  destruct (CometBFTBlockByNumber kvi (txr_Height r)) as [[block|]| |] eqn:Eb; try done;
    (destruct (CometBFTBlockResultByNumber (txr_Height r)) as [blockRes| |] eqn:Er; try done); cbn [mbind res_bind wrap_res] in *.
  apply res_bind_ok_inv in Hreceipt as (i & _ & Hreceipt). destruct (i =? -1); [done|].
  apply res_bind_ok_inv in Hreceipt as (txResult & -> & Hreceipt). cbn [mbind res_bind].
  destruct (TxWasDroppedPreAnteHandleDueToBlockGasExcess txResult); [done|].
  apply res_bind_ok_inv in Hreceipt as (txBz & _ & Hreceipt). apply res_bind_ok_inv in Hreceipt as (tx & _ & Hreceipt).
  apply res_bind_ok_inv in Hreceipt as (m & _ & Hreceipt). apply res_bind_ok_inv in Hreceipt as (ic & Hic & Hreceipt).
  destruct (TxReceiptFromEvent (result_Events txResult)) as [ic'| |]; try done. injection Hic as ->. cbn [wrap_res mbind res_bind].
  destruct ic as [ic|].
  - apply fmap_ok_inv in Hreceipt as (rc & Hrc & [= <-]). by rewrite (receipt_logs _ _ _ _ Hrc).
  - apply res_bind_ok_inv in Hreceipt as (t & _ & Hreceipt). apply res_bind_ok_inv in Hreceipt as (g & _ & Hreceipt).
    apply res_bind_ok_inv in Hreceipt as (b & _ & Hreceipt). apply fmap_ok_inv in Hreceipt as (rc & Hrc & [= <-]).
    by rewrite (receipt_logs _ _ _ _ Hrc).
Qed.

(** A transaction of the pool whose first message is an Ethereum one, and its hash. *)
Definition pool_hash (tx : Tx) (h : Hash) : Prop :=
  exists m msgs t, GetMsgs tx = EthMsg m :: msgs /\ MsgEthereumTx_AsTransaction m = Ok t /\ h = Transaction_Hash t.
(** The first message of another transaction. *)
Definition foreign (tx : Tx) : Prop := exists m msgs, GetMsgs tx = m :: msgs /\ forall e, m <> EthMsg e.

Lemma pending_list_prefix txs l : pending_list chainID txs = Ok l ->
  exists pre suf, txs = pre ++ suf /\ Forall2 pool_hash pre (rt_Hash <$> l) /\ (suf = [] \/ exists tx rest, suf = tx :: rest /\ foreign tx).
Proof.
  revert l. induction txs as [|tx txs IH]; intros l; cbn [pending_list].
  { intros [= <-]. exists [], []. split_and!; [done|constructor|by left]. }
  destruct (GetMsgs tx) as [|m msgs] eqn:Em; [done|].
  destruct m; try (intros [= <-]; exists [], (tx :: txs); split_and!; [done|constructor|right; exists tx, txs; split; [done|]; by eexists _, _]).
  intros ([cfg|] & _ & H)%res_bind_ok_inv; [|done]. apply res_bind_ok_inv in H as (rt & Hrt & H).
  apply res_bind_ok_inv in H as (rest & Hrest & [= <-]). apply IH in Hrest as (pre & suf & -> & Hpre & Hsuf).
  apply res_bind_ok_inv in Hrt as (t & Ht & [= <-]). exists (tx :: pre), suf. split_and!; [done| |done].
  cbn. constructor; [|done]. by eexists _, _, t.
Qed.

(** The answer to a request for pending transactions: the transactions of the pool, in
    order, up to the first whose first message is no Ethereum one; those behind it are
    not shown. *)
Theorem pending_transactions_prefix (l : list RPCTransaction) (Hrun : GetPendingTransactions chainID = Ok l) :
  exists txs pre suf, PendingTransactions = Ok txs /\ txs = pre ++ suf /\ Forall2 pool_hash pre (rt_Hash <$> l) /\
    (suf = [] \/ exists tx rest, suf = tx :: rest /\ foreign tx).
Proof.
  unfold GetPendingTransactions in Hrun. apply res_bind_ok_inv in Hrun as (txs & Htxs & Hrun).
  apply pending_list_prefix in Hrun as (pre & suf & H). by exists txs, pre, suf.
Qed.

(** ** Etherbase *)

Section EtherbaseProofs.
Context {R : Type} {KR : Keyring R}.

Lemma false_on_error_inv {T A} (m : res A) (k : A -> M T bool) s b s' :
  false_on_error (lift_res m) k s = (Ok b, s') -> (b = false /\ s' = s) \/ exists a, m = Ok a /\ k a s = (Ok b, s').
Proof. unfold false_on_error, lift_res. destruct m as [a| |]; [right; by exists a|intros [= <- <-]; by left|done]. Qed.

(** Setting the etherbase broadcasts nothing, and says no, or one transaction: it sets the
    withdraw address of the validator's account, is signed by the key of that account
    with its pending nonce, pays the estimated gas at the minimum price rounded up, the
    product taken modulo 2^64, and the answer is whether the node took it. *)
Theorem etherbase_broadcasts (ring : R) (etherbase : Address) (b : bool) (sent sent' : list bytes)
    (Hrun : SetEtherbase kvi ring etherbase sent = (Ok b, sent')) :
  (b = false /\ sent' = sent) \/
  (AllowInsecureUnlock = true /\ exists delAddr key nonce gas denom price prices tx txBytes,
    GetCoinbase = Ok delAddr /\ ring_KeyByAddress ring delAddr = Ok key /\ MinGasPrices = (denom, price) :: prices /\
    GetTransactionCount kvi (BytesToAddress delAddr) EthPendingBlockNumber = Ok nonce /\
    node_CalculateGas nonce (AccAddressString delAddr) (AccAddressString (farr_bytes etherbase)) = Ok gas /\
    node_SignTx (kr_Name key) nonce
      (mkEtherbaseTx (AccAddressString delAddr) (AccAddressString (farr_bytes etherbase)) (denom, wrap64 (gas * Dec_Ceil price)) gas) = Ok tx /\
    node_EncodeTx tx = Ok txBytes /\ sent' = sent ++ [txBytes] /\ b = bool_decide (node_Broadcast txBytes = None)).
Proof.
  unfold SetEtherbase in Hrun. destruct AllowInsecureUnlock eqn:Ea; cbn [negb] in Hrun; [|injection Hrun as <- <-; by left].
  apply false_on_error_inv in Hrun as [?|(delAddr & Hd & Hrun)]; [by left|]. destruct node_SetMsgs as [SetMsgs|]; [|done].
  apply false_on_error_inv in Hrun as [?|(u & _ & Hrun)]; [by left|]. destruct MinGasPrices as [|[denom price] prices] eqn:Em.
  { injection Hrun as <- <-. by left. }
  apply false_on_error_inv in Hrun as [?|(nonce & Hn & Hrun)]; [by left|]. apply false_on_error_inv in Hrun as [?|(gas & Hg & Hrun)]; [by left|].
  apply bind_ok_inv in Hrun as (p & s1 & [Hp ->]%lift_inv & Hrun). destruct (ValidateDenom denom); [|done]. cbn [negb] in Hrun.
  apply false_on_error_inv in Hrun as [?|(key & Hk & Hrun)]; [by left|]. apply false_on_error_inv in Hrun as [?|(tx & Ht & Hrun)]; [by left|].
  apply false_on_error_inv in Hrun as [?|(txBytes & Hb & Hrun)]; [by left|]. apply bind_ok_inv in Hrun as (e & s2 & He & Hrun).
  injection He as He <-. injection Hrun as <- <-. right. split; [done|]. exists delAddr, key, nonce, gas, denom, price, prices, tx, txBytes.
  assert (p = Dec_Ceil price) as -> by (unfold Int_Uint64 in Hp; case_match; [by injection Hp|done]).
  split_and!; try done. rewrite He. by destruct e.
Qed.
End EtherbaseProofs.

(** ** The keys of the node *)

Section RingProofs.
Context {CL : CurveLaws} {R : Type} {KR : Keyring R} {KL : KeyringLaws R}.

(** No name from [personal_n] on is taken. *)
Definition names_free (l : list KeyRecord) : Prop := forall n, (length l <= n)%nat -> personal_name n ∉ kr_Name <$> l.
Definition holds (l : list KeyRecord) (a : Address) : Prop := exists k, k ∈ l /\ kr_Address k = Ok (farr_bytes a).

Lemma key_address_from key : key_address (FromECDSA key) = Some (farr_bytes (Point_Address (PublicKey key))).
Proof. unfold key_address, PrivKey_PubKey, PrivKey_ToECDSA. rewrite to_from. cbn. unfold PubKey_Address. by rewrite decompress_compress. Qed.

Lemma names_free_cons l addr : names_free l -> names_free (mkKeyRecord (personal_name (length l)) addr :: l).
Proof.
  intros Hf n Hn [Heq|H]%elem_of_cons; [|by apply (Hf n); [cbn in Hn; lia|]].
  cbn in Heq. unfold personal_name in Heq. apply (inj (String.append "personal_")) in Heq. apply (inj pretty) in Heq. cbn in Hn. lia.
Qed.
Lemma names_free_perm l l' : l' ≡ₚ l -> names_free l -> names_free l'.
Proof. intros Hp Hf n. rewrite Hp. apply Hf. Qed.

Lemma import_raw_key_run r l privkey password priv : HexToECDSA privkey = Ok priv -> ring_List r = Ok l -> names_free l ->
  (forall addr e, ring_KeyByAddress r addr <> Panic e) ->
  let a := Point_Address (PublicKey priv) in
  exists r' l', ImportRawKey privkey password r = (Ok a, r') /\ ring_List r' = Ok l' /\ names_free l' /\ holds l' a /\
    (r' = r \/ ~ holds l a /\ l' ≡ₚ mkKeyRecord (personal_name (length l)) (Ok (farr_bytes a)) :: l).
Proof.
  intros Hk Hl Hf Hnp a. unfold ImportRawKey. rewrite Hk. unfold mbind, M_bind, lift_res, gets. cbn beta iota. rewrite key_address_from. cbn beta iota. fold a.
  assert (BytesToAddress (farr_bytes a) = a) as Ha by apply farr_of_bytes. rewrite Ha.
  destruct (ring_KeyByAddress r (farr_bytes a)) as [k|e|e] eqn:Er; [| |by eapply Hnp in Er].
  - exists r, l. split_and!; try done; [|by left]. apply (ring_found r l); [done|]. by exists k.
  - rewrite Hl. cbn beta iota. destruct (ring_imported r l (personal_name (length l)) (EncryptArmorPrivKey (FromECDSA priv) password) password
      (FromECDSA priv) (farr_bytes a)) as (r' & l' & Hi & Hl' & Hp); [done|by apply Hf|apply armor_opens|apply key_address_from|].
    exists r', l'. rewrite Hi. split_and!; [done|done| | |].
    + by eapply names_free_perm, names_free_cons.
    + eexists. rewrite Hp. split; [apply elem_of_cons; by left|done].
    + right. split; [|done]. intros Hh. apply (ring_found r l) in Hh as [k Hk']; [congruence|done].
Qed.

(** The name of an imported key is made from the number of keys only: when it is taken, as it
    is after another key was deleted, a new key is refused, and the ring stays as it was. *)
Theorem import_refused_on_taken_name (r : R) (l : list KeyRecord) (privkey password : string) (priv : ECDSA)
    (Hk : HexToECDSA privkey = Ok priv) (Hlist : ring_List r = Ok l) (Htaken : personal_name (length l) ∈ kr_Name <$> l)
    (Hnew : ~ holds l (Point_Address (PublicKey priv))) (Hring : forall addr e, ring_KeyByAddress r addr <> Panic e) :
  exists e, ImportRawKey privkey password r = (Err e, r).
Proof.
  unfold ImportRawKey. rewrite Hk. unfold mbind, M_bind, lift_res, gets. cbn beta iota. rewrite key_address_from. cbn beta iota.
  destruct (ring_KeyByAddress r _) as [k|e|e] eqn:Er; [|rewrite Hlist; cbn beta iota|by eapply Hring in Er].
  - destruct Hnew. apply (ring_found r l); [done|]. by exists k.
  - destruct (ring_taken r l _ (EncryptArmorPrivKey (FromECDSA priv) password) password Hlist Htaken) as [e' ->]. by exists e'.
Qed.

(** Requests to import keys, one after the other. *)
Fixpoint import_all (keys : list (string * string)) : M R unit :=
  match keys with
  | [] => mret tt
  | (privkey, password) :: keys' => ImportRawKey privkey password ;; import_all keys'
  end.

Lemma ring_addresses_elem l addrs a : ring_addresses l = Ok addrs -> holds l a -> a ∈ addrs.
Proof.
  revert addrs. induction l as [|k l IH]; intros addrs; cbn [ring_addresses]; [by intros _ (? & []%not_elem_of_nil & _)|].
  intros (b & Hb & H)%res_bind_ok_inv (k' & Hin & Ha). apply res_bind_ok_inv in H as (addrs' & H' & [= <-]).
  apply elem_of_cons in Hin as [->|Hin]; apply elem_of_cons; [left|right; apply (IH addrs'); [done|by exists k']].
  assert (b = farr_bytes a) as -> by congruence. symmetry. apply farr_of_bytes.
Qed.
Lemma ring_addresses_total l : (forall k, k ∈ l -> exists b, kr_Address k = Ok b) -> exists addrs, ring_addresses l = Ok addrs.
Proof.
  induction l as [|k l IH]; intros H; cbn [ring_addresses]; [eauto|].
  destruct (H k) as [b ->]; [by left|]. destruct IH as [addrs ->]; [intros; apply H; by right|]. eauto.
Qed.

(** Raw keys imported one after the other into a key ring in which the names from
    personal_n on are free, n the number of its keys: every import succeeds, no key is
    lost, every imported key is there, each address at most once if it was so before, and the
    list of accounts shows them all. *)
Theorem imports_are_listed (keys : list (string * string)) (privs : list ECDSA) (r : R) (l : list KeyRecord)
    (Hkeys : Forall2 (fun key priv => HexToECDSA key.1 = Ok priv) keys privs)
    (Hlist : ring_List r = Ok l) (Hfree : names_free l) (Hread : forall k, k ∈ l -> exists b, kr_Address k = Ok b)
    (Hring : forall r addr e, ring_KeyByAddress r addr <> Panic e) (Hunlock : AllowInsecureUnlock = true) :
  exists r' l' addrs, import_all keys r = (Ok tt, r') /\ ring_List r' = Ok l' /\ l ⊆ l' /\
    (NoDup (kr_Address <$> l) -> NoDup (kr_Address <$> l')) /\
    Backend_Accounts r' = Ok addrs /\ ListAccounts r' = Ok addrs /\ forall priv, priv ∈ privs -> Point_Address (PublicKey priv) ∈ addrs.
Proof.
  enough (exists r' l', import_all keys r = (Ok tt, r') /\ ring_List r' = Ok l' /\ l ⊆ l' /\ (NoDup (kr_Address <$> l) -> NoDup (kr_Address <$> l')) /\
    (forall k, k ∈ l' -> exists b, kr_Address k = Ok b) /\ forall priv, priv ∈ privs -> holds l' (Point_Address (PublicKey priv)))
    as (r' & l' & Hrun & Hl' & Hsub & Hdup & Hread' & Hh).
  { destruct (ring_addresses_total l' Hread') as [addrs Ha]. exists r', l', addrs. unfold Backend_Accounts, ListAccounts. rewrite Hunlock, Hl'. cbn [negb mbind res_bind].
    split_and!; try done. intros priv Hp. eapply ring_addresses_elem; [done|by apply Hh]. }
  revert r l Hlist Hfree Hread. induction Hkeys as [|[privkey password] priv keys privs Hk _ IH]; intros r l Hlist Hfree Hread.
  { exists r, l. split_and!; try done. by intros ? ?%not_elem_of_nil. }
  destruct (import_raw_key_run r l privkey password priv) as (r1 & l1 & Hrun & Hl1 & Hf1 & Hh1 & Hstep); [done|done|done|apply Hring|].
  assert (l ⊆ l1 /\ (NoDup (kr_Address <$> l) -> NoDup (kr_Address <$> l1)) /\ forall k, k ∈ l1 -> exists b, kr_Address k = Ok b) as (Hsub & Hdup & Hread1).
  { destruct Hstep as [->|[Hnew Hp]]; [assert (l1 = l) as -> by congruence; done|]. split_and!.
    - intros k Hk'. rewrite Hp. by right.
    - intros Hd. rewrite Hp. cbn. constructor; [|done]. intros (k & Hka & Hin)%list_elem_of_fmap. apply Hnew. by exists k.
    - intros k. rewrite Hp. intros [->|Hin]%elem_of_cons; [by eexists|by apply Hread]. }
  destruct (IH r1 l1 Hl1 Hf1 Hread1) as (r' & l' & Hrun' & Hl' & Hsub' & Hdup' & Hread' & Hh'). exists r', l'. split_and!; auto.
  - cbn [import_all]. unfold mbind at 1, M_bind at 1. by rewrite Hrun.
  - etrans; [exact Hsub|exact Hsub'].
  - intros p [->|Hp]%elem_of_cons; [|by apply Hh']. destruct Hh1 as (k & Hin & Ha). exists k. split; [by apply Hsub'|done].
Qed.
End RingProofs.

(** ** Recovery of signatures *)

Section RecoverProofs.
Context {CL : CurveLaws}.

(** go-ethereum's recovery: the public key of the key that signed, and a recovery byte of
    0 or 1. *)
Definition recovers : Prop := forall digest key sig, curve_Sign digest key = Ok sig ->
  SigToPub digest sig = Ok (PublicKey key) /\ exists v, sig !! RecoveryIDOffset = Some v /\ 0 <= Z_of_byte v <= 1.
(** The key ring signs with the key of the address. *)
Definition signs_with (address : Address) (key : ECDSA) : Prop :=
  Point_Address (PublicKey key) = address /\ forall data, keyring_SignByAddress address data = PrivKey_Sign (FromECDSA key) data.

(** The signature that the node gives for the hash of a prefixed text is recovered, for the
    text, to the address of the key.  The hash must be the request: the server signs what
    it is given and adds no prefix. *)
Theorem signed_text_recovers (address : Address) (key : ECDSA) (data sig : bytes) (Hrecover : recovers) (Hkey : signs_with address key)
    (Hsign : Backend_Sign address (farr_bytes (TextHash data)) = Ok sig) : EcRecover data sig = Ok address.
Proof.
  unfold Backend_Sign in Hsign. destruct (keyring_Has address); [|done]. cbn [negb] in Hsign. destruct Hkey as [Ha Hs]. rewrite Hs in Hsign.
  apply res_bind_ok_inv in Hsign as (s & Hk & Hadd). unfold PrivKey_Sign in Hk. rewrite (proj2 (Nat.eqb_eq _ _)) in Hk by apply farr_length.
  apply res_bind_ok_inv in Hk as (k & Hto & Hk). unfold PrivKey_ToECDSA in Hto. rewrite to_from in Hto. injection Hto as <-.
  destruct (Hrecover _ _ _ Hk) as [Hpub (v & Hv & Hv01)]. destruct (sign_verify _ _ _ Hk) as [Hl _].
  unfold add_27 in Hadd. unfold RecoveryIDOffset in Hv. rewrite Hv in Hadd. injection Hadd as <-.
  unfold EcRecover, RecoveryIDOffset. rewrite length_insert, (proj2 (Nat.eqb_eq _ _)) by done. cbn [negb].
  rewrite list_lookup_insert_eq by (rewrite Hl; unfold SignatureLength; lia). rewrite list_insert_insert_eq.
  assert (Z_of_byte (byte_of_Z (Z_of_byte v + 27)) = Z_of_byte v + 27) as E by (rewrite Z_of_byte_of_Z, Z.mod_small; lia).
  rewrite E. replace (Z_of_byte v + 27 - 27) with (Z_of_byte v) by lia. rewrite byte_of_Z_of_byte, (list_insert_id _ _ _ Hv).
  assert ((Z_of_byte v + 27 =? 27) || (Z_of_byte v + 27 =? 28) = true) as Hor by (destruct (Z.eqb_spec (Z_of_byte v + 27) 27), (Z.eqb_spec (Z_of_byte v + 27) 28); done || lia).
  rewrite <- negb_orb, Hor. cbn [negb]. rewrite Hpub. cbn. by rewrite Ha.
Qed.
End RecoverProofs.

End ApiProofs.
