(* ===== verification/Models.v ===== *)
(** * Concrete instances of the remaining interfaces

    Codecs, addresses, an EVM, a signer and the SDK's decorators, for the evaluation of
    the theorems on concrete states: together with SdkModel.v they show that the
    hypotheses of the properties can hold at once. *)

From Stdlib Require Import Strings.Byte.
From stdpp Require Import base gmap list strings countable.
From S2P Require Import Prelude Sdk Geth SdkModel EvmTypes ChainId GasMeter EvmStore Genesis AccessList StateDB.
From S2P Require Import SnapshotStack Programs StateDBEffects FeeMarket Cpc CpcContracts Eip712 Staking Contracts TxTypes.
From S2P Require Import StateTransition TxExecution VAuth AnteTx Ante.

(** ** Codecs *)

(** A codec that knows finitely many messages. *)
Definition list_codec {T} `{EqDecision T} (known : list T) (zero : T) : Codec T := {|
  Marshal p := match list_find (eq p) known with
               | Some (i, _) => if (i <? 255)%nat then Ok [byte_of_Z (Z.of_nat i + 1)] else Err ErrInvalidType
               | None => Err ErrInvalidType
               end;
  Unmarshal bz := match bz with
                  | [] => Ok zero
                  | b :: _ => match known !! Z.to_nat (Z_of_byte b - 1) with
                              | Some p => Ok p
                              | None => Err ErrInvalidType
                              end
                  end;
  zero_msg := zero
|}.

Lemma list_codec_laws {T} `{EqDecision T} (known : list T) (zero : T) : @CodecLaws T (list_codec known zero).
Proof.
  split; [|done]. intros p bz. simpl. destruct (list_find (eq p) known) as [[i q]|] eqn:Ef; [|done].
  destruct (Nat.ltb_spec i 255) as [Hi|]; [|done]. intros [= <-].
  apply list_find_Some in Ef as (Hl & <- & _).
  rewrite Z_of_byte_of_Z, Z.mod_small by lia. replace (Z.of_nat i + 1 - 1) with (Z.of_nat i) by lia.
  by rewrite Nat2Z.id, Hl.
Qed.

(** A codec for every message of a countable type. *)
Definition countable_codec {T} `{Countable T} (zero : T) : Codec T := {|
  Marshal p := Ok (x01 :: big_Bytes (Zpos (encode p)));
  Unmarshal bz := match bz with
                  | [] => Ok zero
                  | _ :: l => match decode (Z.to_pos (big_SetBytes l)) with
                              | Some p => Ok p
                              | None => Err ErrInvalidType
                              end
                  end;
  zero_msg := zero
|}.

Lemma countable_codec_laws {T} `{Countable T} (zero : T) : @CodecLaws T (countable_codec zero).
Proof.
  split; [|done]. intros p bz [= <-]. cbn [Unmarshal countable_codec].
  rewrite big_SetBytes_Bytes by lia. simpl. by rewrite decode_encode.
Qed.

#[export] Instance ChainConfig_eq_dec : EqDecision ChainConfig.
Proof. solve_decision. Defined.
#[export] Instance EvmParams_eq_dec : EqDecision EvmParams.
Proof. solve_decision. Defined.
#[export] Instance CpcParams_eq_dec : EqDecision CpcParams.
Proof. solve_decision. Defined.
#[export] Instance CpcMeta_eq_dec : EqDecision CustomPrecompiledContractMeta.
Proof. solve_decision. Defined.
#[export] Instance Proof_eq_dec : EqDecision ProofExternalOwnedAccount.
Proof. solve_decision. Defined.
#[export] Instance FmParams_eq_dec : EqDecision FmParams.
Proof. solve_decision. Defined.
#[export] Instance FmParams_countable : Countable FmParams.
Proof.
  refine (inj_countable' (fun p => (BaseFee p, MinGasPrice p)) (fun x => mkFmParams x.1 x.2) _). by intros [].
Defined.

(** ** The messages that are used *)

Definition alice : Address := farr_of 20 [xaa].
Definition bob : Address := farr_of 20 [xbb].
Definition carol : Address := farr_of 20 [xcc].

Definition deployer : string := "deployer".
Definition cpc_params : CpcParams := mkCpcParams 1 [deployer].
Definition token_meta : Erc20CustomPrecompiledContractMeta := mkErc20Meta "TOK" 6 "token".
Definition zero_cpc_meta : CustomPrecompiledContractMeta := mkCpcMeta [] 0 "" "" false.
(** The first dynamic contract address of the module. *)
Definition token_address : Address := CreateAddress (CpcModuleAddress (S:=sdk_state)) 0.
Definition token_cpc_meta : CustomPrecompiledContractMeta :=
  mkCpcMeta (farr_bytes token_address) CpcTypeErc20 "Token" "{}" false.

#[export] Instance evm_params_codec : Codec EvmParams := list_codec [DefaultParams] DefaultParams.
#[export] Instance evm_params_laws : CodecLaws EvmParams := list_codec_laws _ _.
#[export] Instance fm_params_codec : Codec FmParams := countable_codec (mkFmParams None None).
#[export] Instance fm_params_laws : CodecLaws FmParams := countable_codec_laws _.
#[export] Instance cpc_params_codec : Codec CpcParams := list_codec [cpc_params] (mkCpcParams 0 []).
#[export] Instance cpc_params_laws : CodecLaws CpcParams := list_codec_laws _ _.
#[export] Instance cpc_meta_codec : Codec CustomPrecompiledContractMeta := list_codec [token_cpc_meta] zero_cpc_meta.
#[export] Instance cpc_meta_laws : CodecLaws CustomPrecompiledContractMeta := list_codec_laws _ _.
#[export] Instance erc20_json : Json Erc20CustomPrecompiledContractMeta :=
  {| json_Marshal _ := Ok "{}"; json_Unmarshal _ := Ok token_meta |}.
#[export] Instance staking_json : Json StakingCustomPrecompiledContractMeta :=
  {| json_Marshal _ := Ok "{}"; json_Unmarshal _ := Err ErrInvalidType |}.

(** ** Addresses as text *)

#[export] Instance bech32_model : Bech32 := {|
  AccAddressFromBech32 s :=
    if decide (s = "alice") then Ok (farr_bytes alice)
    else if decide (s = "bob") then Ok (farr_bytes bob)
    else if decide (s = deployer) then Ok (farr_bytes carol)
    else Err ErrInvalidAddress;
  AccAddressString a :=
    if decide (a = farr_bytes alice) then "alice"
    else if decide (a = farr_bytes bob) then "bob" else "other";
  ConvertAndEncode hrp b := Ok (String.append hrp "1");
  DecodeAndConvert s := Err ErrInvalidAddress;
  sdk_config := mkBech32Prefixes "evm" "evmvaloper" "evmvalcons" "evmpub" "evmvaloperpub" "evmvalconspub"
|}.

(** *** Hexadecimal text *)

#[export] Instance hex_model : HexText := {|
  Address_String a := text_0x (farr_bytes a);
  HexToAddress s := farr_of 20 (FromHex s);
  IsHexAddress s := true;
  Hash_String h := text_0x (farr_bytes h);
  Bytes2Hex b := text_0x b;
  Hex2Bytes s := FromHex s
|}.

(** Nothing is trimmed from a text that starts and ends with a digit. *)
Definition other_head (c : Ascii.ascii) (p : list Ascii.ascii) : bool :=
  match p with [] => false | d :: _ => negb (bool_decide (d = c)) end.
Lemma trim_left_id n ps c (l : list Ascii.ascii) : forallb (other_head c) ps = true -> trim_left n ps (c :: l) = c :: l.
Proof.
  intros Hps. destruct n as [|n]; [done|]. simpl.
  destruct (list_find _ ps) as [[i p]|] eqn:E; [|done]. apply list_find_Some in E as (Hp & Hpre & _).
  rewrite forallb_forall in Hps. specialize (Hps p (proj1 (list_elem_of_In _ _) (list_elem_of_lookup_2 _ _ _ Hp))).
  destruct p as [|d p]; [done|]. destruct Hpre as [k Hk]. simplify_eq/=. by rewrite bool_decide_eq_true_2 in Hps.
Qed.
Lemma digit_not_space c : c ∈ hex_chars ->
  forallb (other_head c) spaces = true /\ forallb (other_head c) (map (@rev _) spaces) = true.
Proof.
  intros Hc. assert (forallb (fun c => forallb (other_head c) spaces && forallb (other_head c) (map (@rev _) spaces))
    hex_chars = true) as H by (vm_compute; reflexivity).
  rewrite forallb_forall in H. apply list_elem_of_In in Hc. apply andb_true_iff. by apply H.
Qed.
Lemma TrimSpace_digits c l d : c ∈ hex_chars -> d ∈ hex_chars -> TrimSpace (c :: l ++ [d]) = c :: l ++ [d].
Proof.
  intros Hc Hd. unfold TrimSpace. cbv zeta.
  rewrite (trim_left_id _ spaces) by (by apply digit_not_space).
  assert (rev (c :: l ++ [d]) = d :: rev (c :: l)) as E.
  { change (c :: l ++ [d]) with ((c :: l) ++ [d]). by rewrite rev_app_distr. }
  rewrite E, (trim_left_id _ (map (@rev _) spaces)) by (by apply digit_not_space). rewrite <- E. apply rev_involutive.
Qed.

Lemma byte_text_digits b : exists c d, byte_text b = [c; d] /\ c ∈ hex_chars /\ d ∈ hex_chars.
Proof.
  eexists _, _. split; [reflexivity|].
  pose proof (Z_of_byte_range b) as Hb.
  assert (forall n, 0 <= n < 16 -> default Ascii.zero (hex_chars !! Z.to_nat n) ∈ hex_chars) as Hd.
  { intros n Hn. destruct (hex_chars !! Z.to_nat n) as [c|] eqn:E; [by eapply list_elem_of_lookup_2|].
    apply lookup_ge_None in E. assert (length hex_chars = 16%nat) by reflexivity. lia. }
  split; apply Hd; [split; [apply Z.div_pos; lia|apply Z.div_lt_upper_bound; lia]|apply Z.mod_pos_bound; lia].
Qed.
Lemma length_hex_text bs : length (hex_text bs) = (2 * length bs)%nat.
Proof.
  induction bs as [|b bs IH]; [done|].
  change (length (hex_text (b :: bs))) with (Datatypes.S (Datatypes.S (length (hex_text bs)))).
  rewrite IH. cbn [length]. lia.
Qed.
Lemma hex_text_app bs b : hex_text (bs ++ [b]) = hex_text bs ++ byte_text b.
Proof. unfold hex_text. rewrite fmap_app, concat_app. cbn [fmap list_fmap concat]. by rewrite app_nil_r. Qed.

Lemma text_0x_chars bs :
  String.list_ascii_of_string (text_0x bs) = String.list_ascii_of_string "0x" ++ hex_text bs.
Proof.
  unfold text_0x. rewrite <- (String.list_ascii_of_string_of_list_ascii (hex_text bs)) at 2. reflexivity.
Qed.

#[export] Instance hex_model_laws : HexTextLaws.
Proof.
  split.
  - intros a. simpl. rewrite FromHex_text. apply farr_of_bytes.
  - intros h. simpl. rewrite FromHex_text. apply farr_of_bytes.
  - intros b. apply FromHex_text.
  - done.
  - intros a. cbn [Address_String hex_model]. by rewrite text_0x_chars, length_app, length_hex_text, farr_length.
  - intros h. cbn [Hash_String hex_model]. by rewrite text_0x_chars, length_app, length_hex_text, farr_length.
  - intros h. cbn [Hash_String hex_model]. rewrite text_0x_chars.
    pose proof (farr_length h) as Hl. destruct (farr_bytes h) as [|b bs] using rev_ind; [done|]. clear IHbs Hl.
    rewrite hex_text_app. destruct (byte_text_digits b) as (c & d & -> & _ & Hd).
    set (zero := default Ascii.zero (hex_chars !! 0%nat)).
    replace (String.list_ascii_of_string "0x" ++ hex_text bs ++ [c; d]) with
      (zero :: (default Ascii.zero (String.list_ascii_of_string "x" !! 0%nat) :: hex_text bs ++ [c]) ++ [d])
      by (cbn [app]; by rewrite <- app_assoc).
    apply TrimSpace_digits; [by left|done].
Qed.

(** ** Staking

    Three active validators; a delegation is recorded and its event emitted.  Nobody has
    rewards. *)

Definition val_address (n : Z) : bytes := farr_bytes (farr_of 20 [byte_of_Z n]).
Definition val_names : list string := ["val1"; "val2"; "val3"]%string.
Definition val_list : list Validator :=
  [mkValidator "val1" 100 true 1; mkValidator "val2" 50 true 1; mkValidator "val3" 70 true 1].
(** Amounts up to twenty can be written. *)
Definition amount_text (z : Z) : string := pretty.pretty z +:+ "wei".
Definition parse_amount (s : string) : res Coins :=
  match list_find (fun n => amount_text (Z.of_nat n) = s) (seq 1 20) with
  | Some (_, n) => Ok [("wei", Z.of_nat n)]
  | None => Err ErrInvalidCoins
  end.
Definition model_delegate (m : MsgDelegate) : M sdk_state unit := fun s =>
  let '(denom, amount) := delegate_Amount m in
  let sk := ms_staking s in
  (Ok tt, mkSdkState (ms_accounts s) (ms_seq s) (ms_balances s) (ms_supply s)
     (mkStakingState ((delegate_Delegator m, delegate_Validator m, amount) :: sks_delegations sk)
        (sks_events sk ++ [(EventTypeDelegate,
           [(AttributeKeyValidator, delegate_Validator m); (AttributeKeyDelegator, delegate_Delegator m);
            (AttributeKeyAmount, amount_text amount); (AttributeKeyNewShares, amount_text amount)])]))).
#[export] Instance staking_model : StakingKeepers sdk_state := {|
  Events s := (fun e => mkSdkEvent e.1 e.2) <$> sks_events (ms_staking s);
  BondDenom _ := Ok "wei";
  GetAllDelegatorDelegations s a := Ok [];
  GetDelegation s d v := Err ErrNoDelegation;
  GetDelegatorBonded s d := Ok 0;
  GetValidator s v := match list_find (fun n => val_address (Z.of_nat n) = v) (seq 1 3) with
                      | Some (i, _) => match val_list !! i with Some x => Ok x | None => Err ErrUnknownAddress end
                      | None => Err ErrUnknownAddress
                      end;
  TokensFromShares v d := Ok d;
  IterateLastValidators s := (val_list, Ok tt);
  DelegationRewards d v := err ErrNoDelegation;
  DelegationTotalRewards d := mret ([], []);
  Delegate := model_delegate;
  Undelegate _ := err ErrNoDelegation;
  BeginRedelegate _ := err ErrNoDelegation;
  WithdrawDelegatorReward _ := err ErrNoDelegation;
  ValAddr_StringToBytes s := match list_find (eq s) val_names with
                             | Some (i, _) => Ok (val_address (Z.of_nat i + 1))
                             | None => Err ErrInvalidAddress
                             end;
  ValAddr_BytesToString v := match list_find (fun n => val_address (Z.of_nat n + 1) = v) (seq 0 3) with
                             | Some (i, _) => match val_names !! i with Some x => Ok x | None => Err ErrInvalidAddress end
                             | None => Err ErrInvalidAddress
                             end;
  ParseCoinsNormalized := parse_amount
|}.
#[export] Instance staking_model_laws : StakingLaws sdk_state.
Proof.
  split; intros * s; try (exists []; by rewrite app_nil_r).
  simpl. unfold model_delegate. destruct m as [d v [denom amount]]. simpl. rewrite fmap_app. by eexists.
Qed.

(** Every signature is Alice's; an address is written as its bytes. *)
#[export] Instance eip712_model : Eip712Lib := {|
  HashStruct _ _ _ := Ok [];
  Domain_Map _ := ∅;
  Ecrecover _ _ := Ok [x01];
  UnmarshalPubkey b := Ok b;
  PubkeyToAddress _ := alice;
  Address_Hex a := String.string_of_list_byte (farr_bytes a)
|}.
#[export] Instance eip712_model_laws : Eip712Laws.
Proof.
  split. intros a b H. apply farr_eq. cbn [Address_Hex eip712_model] in H.
  rewrite <- (String.list_byte_of_string_of_list_byte (farr_bytes a)), H.
  apply String.list_byte_of_string_of_list_byte.
Qed.

(** ** An EVM that only transfers the value of a call *)

#[export] Instance transfer_engine {S : Type} : EvmEngine S := {|
  evm_Call _ caller addr _ gas value :=
    Call (OSubBalance caller value) (fun _ => Call (OAddBalance addr value) (fun _ => Ret ([], gas, None)));
  evm_Create _ _ _ gas _ := Ret ([], 0, Some (Errorf "not supported"));
  CanTransfer a v := Call (OGetBalance a) (fun ans => Ret match ans with AZ b => v <=? b | _ => false end)
|}.

#[export] Instance transfer_engine_laws {S : Type} : @EvmEngineLaws S geth_model transfer_engine.
Proof.
  split.
  - intros evm a b data gas v Hg. simpl. intros _ _ _ _. unfold is_u64 in Hg. lia.
  - intros evm a code gas v Hg. simpl. unfold is_u64 in Hg. lia.
  - done.
  - intros data al cr h i g. simpl. set (gas := _ + _). destruct (Z.leb_spec gas MaxUint64); [|done].
    intros [= <-]. split; [|done]. unfold gas. destruct cr; lia.
  - intros data al cr h i e. simpl. by case_match.
Qed.

(** ** Signatures and the ante handler *)

#[export] Instance latest_signer : LatestSigner := {|
  Latest_Sender _ _ := Ok alice;
  Latest_AsMessage _ tx baseFee := Transaction_AsMessage (mkEthChainConfig None None None false None zero_hash
    None None None None None None None None None None None None None None) 0 tx baseFee
|}.
