(* ===== verification/Witnesses.v ===== *)
(** * The properties on concrete states

    Each lemma here applies one property to a concrete input of SdkModel.v and Models.v,
    with its hypotheses evaluated there. *)

From Stdlib Require Import Strings.Byte.
From stdpp Require Import base gmap list strings countable.
From S2P Require Import Prelude Sdk Geth SdkModel EvmTypes ChainId GasMeter EvmStore Genesis AccessList StateDB.
From S2P Require Import SnapshotStack Programs StateDBEffects FeeMarket Cpc CpcContracts Eip712 Staking Contracts TxTypes.
From S2P Require Import StateTransition TxExecution VAuth AnteTx Ante Models.

(** ** A small chain

    Alice, with nonce 5, has a million of the EVM coin and 500 of a token; Carol has a
    vesting account. *)

Abbreviation a_alice := (farr_bytes alice).
Abbreviation a_bob := (farr_bytes bob).
Abbreviation a_carol := (farr_bytes carol).

Definition acc_alice : Account := mkAccount a_alice 0 5 BaseAccount.
Definition acc_bob : Account := mkAccount a_bob 1 0 BaseAccount.
Definition acc_carol : Account := mkAccount a_carol 2 0 (OtherVestingAccount 100).

Definition bank0 : gmap bytes (gmap string positive) :=
  ms_add (ms_add ∅ a_alice "wei" 1000000) a_alice "token" 500.
Definition sdk0 : sdk_state :=
  mkSdkState (<[a_alice := acc_alice]> (<[a_bob := acc_bob]> (<[a_carol := acc_carol]> ∅))) 3 bank0
    (<["wei" := 1000000]> (<["token" := 500]> ∅)) (mkStakingState [] []).

(** Parameters, chain id 9000, base fee 1 and minimum gas price 1. *)
Definition evm0 : kv := <[KeyPrefixParams := [x01]]> (<[KeyEip155ChainId := Uint64ToBigEndian 9000]> ∅).
Definition fm0 : FmParams := mkFmParams (Some 1) (Some dec_precision).
Definition fmkv0 : kv :=
  match Marshal fm0 with Ok bz => <[FmParamsKey := bz]> ∅ | _ => ∅ end.
Definition cpc0 : kv := <[CpcKeyPrefixParams := [x01]]> ∅.
Definition world0 : World sdk_state := mkWorld sdk0 evm0 ∅ fmkv0 cpc0 ∅.
Definition live0 : Live sdk_state := mkLive world0 newRev.

#[export] Instance world_inhabited : Inhabited (World sdk_state) := populate world0.
Definition heap0 : heap (World sdk_state) := mkHeap 1 (<[0%nat := world0]> ∅) ∅.

Definition cfg0 : EthChainConfig :=
  mkEthChainConfig (Some 9000) (Some 0) (Some 0) true (Some 0) zero_hash (Some 0) (Some 0) (Some 0) (Some 0) (Some 0)
    (Some 0) (Some 0) (Some 0) (Some 0) (Some 0) (Some 0) (Some 0) (Some 0) (Some 0).
Definition env0 : SdbEnv := mkSdbEnv zero_address "wei" cfg0 10.
Definition ctx0 : Ctx := mkCtx 10 "evermint_9000-1" [x01] [] 1700000000 false false [] None (Some 40000000).

Lemma alice_unlocked d : LockedCoins sdk0 a_alice d <= GetBalance sdk0 a_alice d.
Proof. apply ms_balance_nonneg. Qed.

Lemma sdk0_supply d : GetSupply sdk0 d < 2 ^ 128.
Proof.
  simpl. destruct (decide (d = "wei")) as [->|H1]; [done|].
  destruct (decide (d = "token")) as [->|H2]; [done|]. by rewrite !lookup_insert_ne.
Qed.
Lemma supply_room b d : 0 <= b < 2 ^ 128 -> GetSupply sdk0 d + at_denom "wei" b d < 2 ^ 256.
Proof. intros Hb. pose proof (sdk0_supply d). unfold at_denom. case_decide; lia. Qed.

Lemma module_free0 m : module_address m <> a_alice -> module_address m <> a_bob -> module_address m <> a_carol ->
  module_free sdk0 m.
Proof.
  intros H1 H2 H3 acc. change (GetAccount sdk0 (GetModuleAddress m)) with (ms_get_account sdk0 (module_address m)).
  unfold ms_get_account. cbn [ms_accounts sdk0]. by rewrite !lookup_insert_ne, lookup_empty.
Qed.
Lemma evm_ready0 : evm_module_ready sdk0.
Proof. split; [done|done|]. by apply module_free0. Qed.

Lemma evm_store_wf0 : evm_store_wf evm0.
Proof.
  intros k Hk. unfold evm0. rewrite !lookup_insert_is_Some, lookup_empty. intros [<-|[_ [<-|[_ [? ?]]]]]; [| |done].
  all: by apply (prefix_cons_inv_1) in Hk.
Qed.

(** ** The StateDB *)

(** A transfer, a snapshot, a refund counter, and a revert to the snapshot. *)
Definition prog0 : Prog sdk_state Z :=
  Call (OSubBalance alice 7) (fun _ => Call OSnapshot (fun s => Call (OAddBalance bob 7) (fun _ =>
    Call (OAddRefund 4800) (fun _ => Call (ORevertToSnapshot match s with AZ i => i | _ => -1 end) (fun _ =>
      Call OGetRefund (fun a => Ret match a with AZ z => z | _ => -1 end)))))).

Lemma statedb_implements_spec_witness :
  let '(r, (d', h')) := sdb_run env0 prog0 (NewStateDB 0%nat heap0) in
  exists s', astate_run env0 prog0 (astate_new (view heap0 0%nat)) = (r, s') /\
    view h' (currentCtx d') = l_world (as_cur s') /\ db_rev d' = l_rev (as_cur s') /\
    view h' 0%nat = view heap0 0%nat /\
    forall now order deleteEmpty,
      let '(rc, (d2, h2)) := cStateDb_CommitMultiStore false now order deleteEmpty (d', h') in
      let '(rs, s2) := astate_commit now order deleteEmpty s' in
      rc = rs /\ view h2 0%nat = as_base s2.
Proof. exact (statedb_implements_spec env0 prog0 0%nat heap0 Nat.lt_0_1). Defined.

Lemma selfdestructed_are_touched_witness :
  let '(_, (d', _)) := sdb_run env0 prog0 (NewStateDB 0%nat heap0) in
  dom (selfDestructed (db_rev d')) ⊆ dom (touched (db_rev d')) /\ is_u64 (refund (db_rev d')).
Proof. exact (selfdestructed_are_touched env0 prog0 0%nat heap0 Nat.lt_0_1). Defined.

Definition db1 : cStateDb nat * heap (World sdk_state) :=
  snd (sdb_run env0 (Call (OSubBalance alice 7) (fun _ => Ret tt)) (NewStateDB 0%nat heap0)).
Definition db2 : cStateDb nat * heap (World sdk_state) := snd (cStateDb_Snapshot db1).
Definition db3 : cStateDb nat * heap (World sdk_state) :=
  snd (sdb_run env0 (Call (OAddBalance bob 7) (fun _ => Call (OAddRefund 4800) (fun _ => Ret tt))) db2).

Lemma ok_pair {A T} (x : res A * T) a : fst x = Ok a -> x = (Ok a, snd x).
Proof. destruct x as [r t]. simpl. by intros ->. Qed.

Lemma snapshot_revert_restores_witness :
  exists d4 h4, cStateDb_RevertToSnapshot 0 db3 = (Ok AUnit, (d4, h4)) /\
    view h4 (currentCtx d4) = view (snd db1) (currentCtx (fst db1)) /\ db_rev d4 = db_rev (fst db1).
Proof.
  pose proof (snapshot_revert_restores env0 0%nat heap0 (Call (OSubBalance alice 7) (fun _ => Ret tt))
    (Call (OAddBalance bob 7) (fun _ => Call (OAddRefund 4800) (fun _ => Ret tt))) tt tt
    (fst db1) (snd db1) 0 (fst db2) (snd db2) (fst db3) (snd db3)) as H.
  rewrite <- (surjective_pairing db1), <- (surjective_pairing db2), <- (surjective_pairing db3) in H. apply H; clear H.
  - vm_compute. lia.
  - apply (ok_pair (sdb_run env0 _ (NewStateDB 0%nat heap0)) tt). by vm_compute.
  - apply (ok_pair (cStateDb_Snapshot db1) (AZ 0)). by vm_compute.
  - apply (ok_pair (sdb_run env0 _ db2) tt). by vm_compute.
  - simpl. done.
Defined.

Lemma SubBalance_burns_witness :
  7 <= spendable sdk0 a_alice "wei" /\
  exists s', cStateDb_SubBalance env0 alice 7 live0 = (Ok tt, on_world (set_sdk s') (touched_live alice live0)) /\
    bank_delta sdk0 s' (at_account a_alice "wei" (- 7)) (at_denom "wei" (- 7)) /\ accounts_grow sdk0 s' [module_address "evm"].
Proof.
  assert (7 <= spendable sdk0 a_alice "wei") as Hs by (vm_compute; congruence). split; [done|].
  pose proof (SubBalance_burns env0 alice 7 live0 ltac:(lia) evm_ready0 alice_unlocked) as H.
  rewrite decide_True in H by exact Hs. exact H.
Defined.

Lemma AddBalance_mints_witness :
  exists s', cStateDb_AddBalance env0 bob 7 live0 = (Ok tt, on_world (set_sdk s') (touched_live bob live0)) /\
    bank_delta sdk0 s' (at_account a_bob "wei" 7) (at_denom "wei" 7) /\
    accounts_grow sdk0 s' [module_address "evm"; a_bob].
Proof.
  assert (BlockedAddr (S:=sdk_state) a_bob = false) as Hb by (by vm_compute).
  pose proof (AddBalance_mints env0 bob 7 live0 ltac:(lia) evm_ready0 (fun d => supply_room 7 d ltac:(lia))) as H.
  rewrite Hb in H. exact H.
Defined.

Lemma transfer_conserves_supply_witness :
  exists l', (cStateDb_SubBalance env0 alice 7 ;; cStateDb_AddBalance env0 bob 7) live0 = (Ok tt, l') /\
    forall d, GetSupply (w_sdk (l_world l')) d = GetSupply sdk0 d.
Proof.
  destruct (transfer_conserves_supply env0 alice bob 7 live0) as (l' & El & Hl).
  - lia.
  - apply evm_ready0.
  - apply alice_unlocked.
  - vm_compute. congruence.
  - intros d. pose proof (sdk0_supply d) as Hs. change (GetSupply sdk0 d < 2 ^ 256). lia.
  - done.
  - exists l'. split; [done|]. intros d. apply Hl.
Defined.

Lemma CreateAccount_carries_balance_witness :
  exists l', cStateDb_CreateAccount 0 alice live0 = (Ok tt, l') /\
    GetBalance (w_sdk (l_world l')) a_alice "wei" = 1000000 /\ cStateDb_GetCodeHash alice l' = EmptyCodeHash.
Proof.
  destruct (cStateDb_CreateAccount 0 alice live0) as [r l'] eqn:El.
  assert (r = Ok tt) as -> by (apply (f_equal fst) in El; cbn [fst] in El; rewrite <- El; by vm_compute).
  exists l'. split; [done|].
  destruct (CreateAccount_carries_balance 0 alice live0 l') as (_ & Hc & _ & _ & Hb & _).
  - apply evm_store_wf0.
  - done.
  - exact El.
  - split; [|exact Hc]. rewrite Hb. by vm_compute.
Defined.

(** Alice was touched and destroyed herself. *)
Definition live1 : Live sdk_state :=
  mkLive world0 (mkRev (<[alice := true]> ∅) 0 (<[alice := true]> ∅) newAccessList2 [] newTransientStorage).

(** The commit of [live1], by the clock [now]. *)
Definition order1 : list Address := elements (dom (touched (l_rev live1))).
Definition committed1 : Live sdk_state := snd (destroy_all 0 true order1 live1).
Lemma commit1_ok : destroy_all 0 true order1 live1 = (Ok tt, committed1).
Proof.
  unfold committed1. rewrite (surjective_pairing (destroy_all 0 true order1 live1)) at 1. f_equal; by vm_compute.
Qed.

Lemma commit_removes_exactly_witness :
  GetBalance (w_sdk (l_world committed1)) a_alice "wei" = 0 /\ GetSupply (w_sdk (l_world committed1)) "wei" = 0 /\
  GetAccount (w_sdk (l_world committed1)) a_alice = None.
Proof.
  destruct (commit_removes_exactly 0 true order1 live1 committed1) as (Hb & Ha & _ & _ & Hs & _).
  - apply evm_store_wf0.
  - done.
  - apply commit1_ok.
  - assert (alice ∈ dom (touched (l_rev live1)) /\ doomed true live1 alice = true) as Hg.
    { split; [|by vm_compute]. cbn [live1 l_rev touched]. set_solver. }
    split_and!; [by apply Hb|rewrite Hs; by vm_compute|by apply Ha].
Defined.

Lemma commit_keeps_protected_witness :
  GetAccount (w_sdk (l_world committed1)) a_carol = Some acc_carol /\
  forall d, GetBalance (w_sdk (l_world committed1)) a_carol d = GetBalance sdk0 a_carol d.
Proof.
  apply (commit_keeps_protected 0 true order1 live1 committed1 carol acc_carol).
  - apply evm_store_wf0.
  - done.
  - by vm_compute.
  - done.
  - apply commit1_ok.
Defined.

Lemma destroy_depends_on_local_clock_witness :
  cStateDb_DestroyAccount 99 carol live0 = (Panic ErrLogic, live0) /\
  exists l', cStateDb_DestroyAccount 100 carol live0 = (Ok tt, l').
Proof.
  apply (destroy_depends_on_local_clock carol acc_carol live0 100 99 100).
  - by vm_compute.
  - done.
  - lia.
  - intros d. change (of_pos (default ∅ (bank0 !! a_carol) !! d) = 0).
    assert (bank0 !! a_carol = None) as -> by (by vm_compute). done.
Defined.

(** ** Executing messages *)

Definition res_get {A} (d : A) (r : res A) : A := match r with Ok a => a | _ => d end.
Lemma res_get_ok {A} (d : A) r : is_ok r = true -> r = Ok (res_get d r).
Proof. by destruct r. Qed.

Definition evm1 : EVM sdk_state :=
  mkEVM cfg0 (fun _ => Ok zero_hash) zero_address 40000000 10 1700000000 1 alice 2 false [] [].
(** Alice sends 7 coins to Bob; with nonce 6 she is ahead of her account. *)
Definition msg1 (nonce : Z) : Message := mkMessage alice (Some bob) nonce 7 30000 2 3 1 [] [] false.
Definition run1 (nonce : Z) : res (res ExecutionResult * ST) * AState sdk_state :=
  astate_run env0 (ApplyMessage_core evm1 (msg1 nonce) 40000 (set_SenderPaidTheFee true)) (astate_new world0).
Definition st0 : ST := NewStateTransition (msg1 5) 0.
Definition out1 (nonce : Z) : res ExecutionResult * ST := res_get (Panic ErrLogic, st0) (fst (run1 nonce)).

Lemma refund_ok0 : astate_inv refund_ok (astate_new world0).
Proof. apply astate_new_inv. split; done. Qed.

Lemma transition_gas_accounting_witness :
  exists result, fst (out1 5) = Ok result /\ UsedGas result = 21000 /\ st_gp (snd (out1 5)) = 40000 - UsedGas result.
Proof.
  pose proof (transition_gas_accounting env0 evm1 (msg1 5) 40000 true (astate_new world0) (snd (run1 5))
    (fst (out1 5)) (snd (out1 5))) as H.
  rewrite <- (surjective_pairing (out1 5)) in H.
  assert (fst (run1 5) = Ok (out1 5)) as Hf by (apply res_get_ok; by vm_compute).
  assert (exists result, fst (out1 5) = Ok result /\ UsedGas result = 21000) as (result & Er & Hu)
    by (eexists; vm_compute; split; done).
  exists result. split; [done|]. split; [done|]. rewrite Er in H.
  destruct H as (i & _ & _ & _ & _ & Hp).
  - vm_compute. split; congruence.
  - vm_compute. split; congruence.
  - apply refund_ok0.
  - exact (ok_pair (run1 5) (out1 5) Hf).
  - exact Hp.
Defined.

Lemma rejected_message_changes_nothing_witness :
  fst (out1 6) = Err ErrNonceTooHigh /\ snd (run1 6) = astate_new world0.
Proof.
  assert (fst (out1 6) = Err ErrNonceTooHigh) as He by (by vm_compute). split; [done|].
  assert (fst (run1 6) = Ok (out1 6)) as Hf by (apply res_get_ok; by vm_compute).
  apply (rejected_message_changes_nothing env0 evm1 (msg1 6) 40000 true (astate_new world0) (snd (run1 6))
    ErrNonceTooHigh (snd (out1 6))).
  rewrite <- He, <- (surjective_pairing (out1 6)). exact (ok_pair (run1 6) (out1 6) Hf).
Defined.

(** 9000 gas are left of 30000, at a price of 2. *)
Definition st1 : ST := mkST 0 (msg1 5) 9000 2 3 1 30000 7 [] true.

Lemma refund_mints_supply_witness :
  exists st' s', astate_run env0 (refundGas 5 st1) (astate_new world0) = (Ok (Ok tt, st'), s') /\
    GetBalance (w_sdk (l_world (as_cur s'))) a_alice "wei" = 1000000 + 18000 /\
    GetSupply (w_sdk (l_world (as_cur s'))) "wei" = 1000000 + 18000.
Proof.
  assert (gas_back 5 st1 (astate_new world0) * st_gasPrice st1 = 18000) as Hg by (by vm_compute).
  destruct (refund_mints_supply env0 5 st1 (astate_new world0)) as (st' & s' & Er & _ & _ & [Hb Hs]).
  - lia.
  - vm_compute. split; congruence.
  - vm_compute. split; congruence.
  - vm_compute. congruence.
  - vm_compute. congruence.
  - apply refund_ok0.
  - done.
  - rewrite Hg. lia.
  - apply evm_ready0.
  - by vm_compute.
  - intros d. rewrite Hg. apply supply_room. lia.
  - exists st', s'. split; [done|]. rewrite Hb, Hs, Hg. by vm_compute.
Defined.

(** *** On the contexts *)

Definition info0 : CustomPrecompiledContractInfo := mkCpcInfo "none" (fun _ => None).
Definition order_of (t : AccountTracker) : list Address := elements (dom t).
Definition legacy0 (s : sdk_state) : FmParams := fm0.
Definition no_validator (s : sdk_state) (a : bytes) : res string := Err ErrUnknownAddress.
Definition no_operator (s : string) : res bytes := Err ErrUnknownAddress.

Definition cfg1 : EVMConfig :=
  res_get (mkEVMConfig DefaultParams cfg0 zero_address 0 false)
    (Keeper_EVMConfig legacy0 no_validator no_operator ctx0 (view heap0 0%nat) []).
Definition txc1 : TxConfig := NewTxConfig ctx0 (view heap0 0%nat) (Some sample_tx).

Lemma apply_message_implements_spec_witness :
  let '(r, h') := ApplyMessageWithConfig info0 info0 info0 0 order_of ctx0 0%nat (msg1 5) true cfg1 txc1 heap0 in
  let '(r2, w2) := spec_ApplyMessage info0 info0 info0 0 order_of ctx0 (msg1 5) true cfg1 txc1 (view heap0 0%nat) in
  r = r2 /\ view h' 0%nat = w2.
Proof.
  exact (apply_message_implements_spec info0 info0 info0 0 order_of ctx0 0%nat (msg1 5) true cfg1 txc1 heap0
    Nat.lt_0_1).
Defined.

Definition tx_msg1 : Message :=
  res_get (msg1 0) (Transaction_AsMessage (cfg_ChainConfig cfg1) 10 sample_tx (cfg_BaseFee cfg1)).
Definition applied1 : res MsgEthereumTxResponse * (heap (World sdk_state) * infiniteGasMeterWithLimit) :=
  ApplyTransaction legacy0 no_validator no_operator info0 info0 info0 0 order_of ctx0 0%nat sample_tx
    (heap0, mkGasMeter 777 30000).


(** ** Calls, fees and parameters *)

Definition args1 : TransactionArgs :=
  mkTransactionArgs (Some alice) (Some bob) (Some 90000000) None (Some 3) (Some 1) (Some 7) None None None None None.

Lemma ToMessage_bounds_witness :
  exists msg, TransactionArgs_ToMessage args1 25000000 (Some 1) = Ok msg /\ msg_Gas msg <= 25000000 /\
    msg_GasPrice msg <= msg_GasFeeCap msg.
Proof.
  eexists. split; [reflexivity|].
  match goal with |- msg_Gas ?m <= _ /\ _ => destruct (ToMessage_bounds args1 25000000 (Some 1) m eq_refl) as (Hg & _ & Hp & _) end.
  split; [by apply Hg|]. apply Hp. simpl. lia.
Defined.

Definition chain_config1 : EthChainConfig := res_get cfg0 (Keeper_GetChainConfig world0).

Lemma fm_params0 : Fm_GetParams legacy0 world0 = Ok fm0.
Proof. by vm_compute. Qed.

(** go-ethereum's function, with its constant for the blocks before London. *)
Definition calc_base_fee1 (cfg : EthChainConfig) (h : FeeHeader) : Z :=
  match eth_LondonBlock cfg with
  | Some london => if london <=? hdr_Number h then eip1559_next h else 1000000000
  | None => 1000000000
  end.
Lemma calc_base_fee1_law : eip1559_law calc_base_fee1.
Proof. intros cfg h london E Hl _ _ _. unfold calc_base_fee1. rewrite E. by destruct (Z.leb_spec london (hdr_Number h)); [|lia]. Qed.

(** A full block: the base fee goes from 1 to 2. *)
Lemma EndBlock_base_fee_witness :
  exists w' b', Fm_EndBlock calc_base_fee1 legacy0 ctx0 (Some 40000000) world0 = (Ok tt, w') /\
    Fm_GetBaseFee legacy0 w' = Ok (Some b') /\ b' = 2.
Proof.
  assert (Keeper_GetParams world0 = Ok (res_get zero_msg (Keeper_GetParams world0))) as Hp by (apply res_get_ok; by vm_compute).
  destruct (EndBlock_base_fee calc_base_fee1 legacy0 ctx0 world0 1 dec_precision 40000000 40000000
    chain_config1 (res_get zero_msg (Keeper_GetParams world0))) as (w' & b' & E1 & E2 & E3 & _).
  - apply calc_base_fee1_law.
  - intros b'. by eexists.
  - apply fm_params0.
  - vm_compute. split; congruence.
  - split; [exact Hp|by vm_compute].
  - apply res_get_ok. by vm_compute.
  - vm_compute. congruence.
  - vm_compute. split_and!; congruence.
  - vm_compute. split; congruence.
  - exists w', b'. split; [done|]. split; [done|]. rewrite E3. by vm_compute.
Defined.

(** ** Custom precompiled contracts *)

Lemma cpc_params_no_downgrade_witness :
  let '(r, w') := Cpc_UpdateParams "gov" "gov" cpc_params world0 in
  r = Ok tt /\ Cpc_GetParams w' = Ok cpc_params.
Proof.
  pose proof (cpc_params_no_downgrade "gov" "gov" cpc_params cpc_params world0) as H.
  destruct (Cpc_UpdateParams "gov" "gov" cpc_params world0) as [r w'].
  destruct H as (Hr & Hg & _).
  - by vm_compute.
  - exists [x01]. split; by vm_compute.
  - assert (r = Ok tt) as Hok by (apply Hr; split_and!; [done|by vm_compute|done]). split; [done|]. by apply Hg.
Defined.

Lemma no_erc20_0 d : GetErc20CustomPrecompiledContractAddressByMinDenom world0 d = None.
Proof.
  unfold GetErc20CustomPrecompiledContractAddressByMinDenom, kv_get.
  change (w_cpc world0) with cpc0. unfold cpc0.
  rewrite lookup_insert_ne by (intros E; discriminate E). by rewrite lookup_empty.
Qed.

Definition deployed1 : res Address * World sdk_state := DeployErc20CustomPrecompiledContract "Token" token_meta world0.
Definition token1 : Address := res_get zero_address (fst deployed1).

Lemma deploy_erc20_unique_witness :
  HasCustomPrecompiledContract world0 token1 = false /\
  GetErc20CustomPrecompiledContractAddressByMinDenom (snd deployed1) "token" = Some token1 /\
  DeployErc20CustomPrecompiledContract "Token" token_meta (snd deployed1) = (Err ErrConflict, snd deployed1).
Proof.
  assert (fst deployed1 = Ok token1) as Hf by (apply res_get_ok; by vm_compute).
  destruct (deploy_erc20_unique "Token" token_meta world0 token1 (snd deployed1)) as (Hv & _ & Hh & Hd & _ & _ & _ & Hc).
  - split; intros *; rewrite no_erc20_0; done.
  - exact (ok_pair deployed1 token1 Hf).
  - split; [done|]. split; [by rewrite Hd|]. apply (Hc "Token" token_meta 1); [done|done|]. by vm_compute.
Defined.

Lemma deploy_needs_whitelist_witness :
  DeployErc20Contract (mkMsgDeployErc20 "mallory" "Token" "TOK" 6 "token") world0 = (Err ErrInvalidSigner, world0) /\
  DeployStakingContract (mkMsgDeployStaking "mallory" "STK" 18) world0 = (Err ErrInvalidSigner, world0).
Proof.
  destruct (deploy_needs_whitelist (mkMsgDeployErc20 "mallory" "Token" "TOK" 6 "token")
    (mkMsgDeployStaking "mallory" "STK" 18) cpc_params world0) as (H1 & H2 & _); [by vm_compute|].
  split; [apply H1|apply H2]; simpl; set_solver.
Defined.

(** An ABI whose methods decode every input to fixed arguments. *)
Definition method_of (args : list AbiVal) : AbiMethod := mkAbiMethod [x01; x02; x03; x04] (fun _ => Ok args) (fun _ => Ok [x01]).
Definition info1 : CustomPrecompiledContractInfo := mkCpcInfo "erc20" (fun name =>
  if decide (name = "transferFrom") then Some (method_of [VAddress alice; VAddress bob; VBigInt 20])
  else if decide (name = "approve") then Some (method_of [VAddress carol; VBigInt 20])
  else if decide (name = "burn") then Some (method_of [VBigInt 20])
  else None).
Definition input1 : bytes := [x01; x02; x03; x04].
Definition exec_env0 : cpcExecutorEnv := mkExecutorEnv cfg0 1.
(** Carol may spend 50 of Alice's. *)
Definition live2 : Live sdk_state := mkLive (snd (SetErc20CpcAllowance alice carol 50 world0)) newRev.

Lemma farr_ne (a b : Address) : bool_decide (farr_bytes a = farr_bytes b) = false -> a <> b.
Proof. intros H ->. by rewrite bool_decide_eq_true_2 in H. Qed.
Lemma alice_not_zero : alice <> zero_address. Proof. by apply farr_ne. Qed.
Lemma bob_not_zero : bob <> zero_address. Proof. by apply farr_ne. Qed.
Lemma carol_not_zero : carol <> zero_address. Proof. by apply farr_ne. Qed.
Lemma alice_not_bob : alice <> bob. Proof. by apply farr_ne. Qed.

Lemma erc20_transferFrom_spec_witness :
  let '(r, l') := erc20_transferFrom info1 token_cpc_meta carol token_address input1 exec_env0 live2 in
  is_ok r = true /\ GetBalance (w_sdk (l_world l')) (farr_bytes bob) "token" = 20 /\ GetBalance (w_sdk (l_world l')) (farr_bytes alice) "token" = 480.
Proof.
  pose proof (erc20_transferFrom_spec info1 token_cpc_meta token_meta carol token_address alice bob 20 exec_env0 input1 live2) as H.
  destruct (erc20_transferFrom info1 token_cpc_meta carol token_address input1 exec_env0 live2) as [r l'].
  destruct H as [Hr Hok].
  - done.
  - by vm_compute.
  - lia.
  - vm_compute. done.
  - apply alice_unlocked.
  - assert (is_ok r = true) as Hr1.
    { apply Hr. split_and!; [apply alice_not_zero|apply bob_not_zero| |].
      - right. right. vm_compute. congruence.
      - split; [|right; right]; vm_compute; congruence. }
    split; [done|]. destruct (Hok Hr1) as [Hb _]. rewrite !Hb. split; by vm_compute.
Defined.

Lemma allowance_shared_between_tokens_witness :
  exists out' l',
    (erc20_approve info1 alice bob input1 exec_env0 ;; erc20_transferFrom info1 token_cpc_meta carol token_address input1 exec_env0) live0
      = (Ok out', l') /\ GetBalance (w_sdk (l_world l')) (farr_bytes bob) "token" = 20 /\ GetBalance (w_sdk (l_world l')) (farr_bytes alice) "token" = 480.
Proof.
  destruct (allowance_shared_between_tokens info1 token_cpc_meta token_meta alice carol bob bob token_address 20 exec_env0
    input1 input1 [x01] live0) as (out' & l' & El & Hb & Ha).
  - by vm_compute.
  - by vm_compute.
  - done.
  - by vm_compute.
  - lia.
  - split_and!; [apply alice_not_zero|apply carol_not_zero|apply bob_not_zero|apply alice_not_bob].
  - apply alice_unlocked.
  - vm_compute. congruence.
  - vm_compute. congruence.
  - exists out', l'. split; [done|]. change "token" with (erc20_MinDenom token_meta). rewrite Hb, Ha. split; by vm_compute.
Defined.

Lemma erc20_burn_spec_witness :
  let '(r, l') := erc20_burn info1 token_cpc_meta alice token_address input1 exec_env0 live0 in
  is_ok r = true /\ GetBalance (w_sdk (l_world l')) (farr_bytes alice) "token" = 480 /\ GetSupply (w_sdk (l_world l')) "token" = 480.
Proof.
  pose proof (erc20_burn_spec info1 token_cpc_meta token_meta alice token_address 20 exec_env0 input1 live0) as H.
  destruct (erc20_burn info1 token_cpc_meta alice token_address input1 exec_env0 live0) as [r l'].
  destruct H as [Hr Hok].
  - done.
  - by vm_compute.
  - apply alice_not_zero.
  - lia.
  - done.
  - by apply module_free0.
  - apply alice_unlocked.
  - assert (is_ok r = true) as Hr1 by (apply Hr; split; [|right; right]; vm_compute; congruence).
    split; [done|]. destruct (Hok Hr1) as (Hb & Hs & _). rewrite Hb, Hs. split; by vm_compute.
Defined.

(** ** Genesis *)

(** Bob is a contract with one slot. *)
Definition code1 : bytes := [x60; x01].
Definition slot1 : Hash := farr_of 32 [x07].
Definition evm_store1 : kv :=
  <[CodeHashKey bob := farr_bytes (Keccak256Hash code1)]>
  (<[KeyPrefixCode ++ farr_bytes (Keccak256Hash code1) := code1]>
   (<[StateKey bob (farr_bytes slot1) := farr_bytes (farr_of 32 [x2a])]> evm0)).
Definition contract_world : World sdk_state := mkWorld sdk0 evm_store1 ∅ fmkv0 cpc0 ∅.

Lemma contracts_wf1 : contracts_wf contract_world.
Proof.
  split.
  - intros k Hk. unfold contract_world, evm_store1, evm0. cbn [w_evm]. rewrite !lookup_insert_is_Some, lookup_empty.
    intros [<-|[_ [<-|[_ [<-|[_ [<-|[_ [<-|[_ [? ?]]]]]]]]]]]; [| | | | |done].
    + by apply not_prefix in Hk.
    + by apply not_prefix in Hk.
    + by exists bob, slot1.
    + by apply (not_prefix _ _ []) in Hk.
    + by apply (not_prefix _ _ []) in Hk.
  - intros k v Hk. unfold contract_world, evm_store1, evm0. cbn [w_evm]. rewrite !lookup_insert_Some, lookup_empty.
    intros [[<- <-]|[_ [[<- <-]|[_ [[<- <-]|[_ [[<- <-]|[_ [[<- <-]|[_ [=]]]]]]]]]]].
    + exists bob, (Keccak256Hash code1). split_and!; [done|done|by vm_compute|]. apply farr_eq. by vm_compute.
    + by apply not_prefix in Hk.
    + by apply not_prefix in Hk.
    + by apply (not_prefix _ _ []) in Hk.
    + by apply (not_prefix _ _ []) in Hk.
Qed.
Lemma contracts1_bob a h : (a, h) ∈ contracts contract_world -> a = bob.
Proof.
  rewrite contracts_spec by apply contracts_wf1. unfold contract_world, evm_store1, evm0. cbn [w_evm].
  rewrite !lookup_insert_Some, lookup_empty.
  intros [[E%app_inv_head%farr_eq _]|[_ [[E _]|[_ [[E _]|[_ [[E _]|[_ [[E _]|[_ [=]]]]]]]]]]]; [done|..];
    discriminate E.
Qed.

Definition any_denom (d : string) : res unit := Ok tt.
Definition genesis1 : GenesisState := res_get DefaultGenesisState (ExportGenesis contract_world).
Definition new_world : World sdk_state := mkWorld sdk0 ∅ ∅ fmkv0 cpc0 ∅.
Definition genesis_ctx : Ctx := mkCtx 0 "evermint_9000-1" [x01] [] 1700000000 false false [] None (Some 40000000).

Lemma bob_in_genesis : (bob, Keccak256Hash code1) ∈ contracts contract_world.
Proof. rewrite contracts_spec by apply contracts_wf1. by apply lookup_insert_eq. Qed.

Lemma genesis_round_trip_witness :
  exists w', InitGenesis any_denom genesis_ctx genesis1 new_world = (Ok tt, w') /\
    Keeper_GetCode w' (Keeper_GetCodeHash w' a_bob) = code1 /\ Keeper_GetState w' bob slot1 = farr_of 32 [x2a].
Proof.
  destruct (genesis_round_trip any_denom genesis_ctx contract_world new_world genesis1 9000 [x01])
    as (w' & Hrun & _ & _ & Hc & _).
  - apply contracts_wf1.
  - apply (res_get_ok DefaultGenesisState). by vm_compute.
  - done.
  - intros a h ->%contracts1_bob. exists acc_bob. by vm_compute.
  - by vm_compute.
  - by vm_compute.
  - by vm_compute.
  - exists w'. split; [exact Hrun|]. destruct (Hc bob (Keccak256Hash code1) bob_in_genesis) as (H1 & _ & H2 & H3).
    rewrite H1, H2, H3. split; [by vm_compute|]. apply farr_eq. by vm_compute.
Defined.

Lemma exported_genesis_valid_witness : GenesisState_Validate any_denom genesis1 = Ok tt.
Proof.
  apply (exported_genesis_valid any_denom contract_world genesis1).
  - apply contracts_wf1.
  - apply (res_get_ok DefaultGenesisState). by vm_compute.
  - by vm_compute.
Defined.

(** *** The staking contract *)

Definition info2 : CustomPrecompiledContractInfo := mkCpcInfo "staking" (fun name =>
  if decide (name = "delegate") then Some (method_of [VAddress (farr_of 20 [x02]); VBigInt 7])
  else if decide (name = "withdrawRewards") then Some (method_of []) else None).
Definition stk_meta : CustomPrecompiledContractMeta :=
  mkCpcMeta (farr_bytes CpcStakingFixedAddress) CpcTypeStaking "Staking" "{}" false.
Definition delegate_method : Executor sdk_state := stakingCustomPrecompiledContractRwDelegate info2.
Definition delegated0 : res bytes * Live sdk_state := Execute delegate_method alice bob input1 exec_env0 live0.
Lemma delegate_method_in : delegate_method ∈ GetMethodExecutors (NewStakingCustomPrecompiledContract info2 stk_meta).
Proof. cbn [GetMethodExecutors NewStakingCustomPrecompiledContract]. do 8 right. left. Qed.

Lemma staking_only_the_caller_witness :
  only_steps (delegator_step a_alice) (fun g => log_Address g = CpcStakingFixedAddress) live0 (snd delegated0).
Proof.
  exact (staking_only_the_caller info2 stk_meta delegate_method alice bob input1 exec_env0 live0 delegate_method_in).
Defined.

Lemma delegated0_ok : fst delegated0 = Ok [x01].
Proof. by vm_compute. Qed.
Lemma staking_logs_exact_witness :
  exists new bondDenom ls, Events (w_sdk (l_world (snd delegated0))) = Events (w_sdk (l_world live0)) ++ new /\
    getSdkEventsFromEventManager new <> [] /\ BondDenom (w_sdk (l_world (snd delegated0))) = Ok bondDenom /\
    Forall2 (fun event logs => event_logs bondDenom alice event = Ok logs) (getSdkEventsFromEventManager new) ls /\
    l_rev (snd delegated0) = add_logs (concat ls) (l_rev live0).
Proof.
  exact (staking_logs_exact info2 stk_meta delegate_method alice bob input1 [x01] exec_env0 live0 (snd delegated0)
    delegate_method_in eq_refl (ok_pair delegated0 [x01] delegated0_ok)).
Defined.

Lemma withdrawRewards_never_false_witness :
  staking_withdrawRewards info2 stk_meta alice bob input1 exec_env0 live0 = (Err ErrLogic, live0).
Proof.
  apply (withdrawRewards_never_false info2 stk_meta alice bob input1 exec_env0 live0 []); [done|done|done].
Defined.

Lemma selectValidator_spec_witness :
  exists r, selectValidator [] live0 = (Ok r, live0) /\ selection_ok [] val_list r.
Proof.
  destruct (selectValidator_spec [] val_list live0) as (r & Hr & Hs & _).
  - exact eq_refl.
  - repeat constructor.
  - constructor.
  - exists r. exact (conj Hr Hs).
Defined.
(** The middle one of the powers 50, 70 and 100. *)
Lemma selected0 : (Ok (Some (mkValidator "val3" 70 true 1)) : res _) = fst (selectValidator [] live0).
Proof. vm_compute. reflexivity. Qed.

Lemma typed_data_binds_witness :
  ToTypedData (mkStakingMessage "Delegate" alice "val1" (Some 5) "wei" "-") (Some 9000) <>
  ToTypedData (mkStakingMessage "Delegate" alice "val1" (Some 6) "wei" "-") (Some 9000).
Proof.
  intros H. destruct (proj1 (typed_data_binds (mkStakingMessage "Delegate" alice "val1" (Some 5) "wei" "-")
    (mkStakingMessage "Delegate" alice "val1" (Some 6) "wei" "-") (mkWithdrawRewardMessage alice "all")
    (mkWithdrawRewardMessage alice "all") (Some 9000) (Some 9000)) H) as [[=] _].
Defined.

Lemma staking_delegate_spec_witness :
  exists s', staking_delegate info2 alice bob input1 exec_env0 live0 =
    (Ok [x01], mkLive (set_sdk s' world0)
       (add_logs [staking_log delegate_topic alice (farr_of 20 [x02]) 7] newRev)).
Proof.
  eexists. apply (staking_delegate_spec info2 alice bob (farr_of 20 [x02]) 7 input1 [x01] exec_env0 live0
    (snd (model_delegate (mkMsgDelegate "alice" "val2" ("wei"%string, 7)) sdk0)) "wei" "val2" (amount_text 7)
    (amount_text 7) [] []).
  - done.
  - done.
  - lia.
  - done.
  - split; vm_compute; reflexivity.
  - by vm_compute.
  - by vm_compute.
  - vm_compute; reflexivity.
  - vm_compute; reflexivity.
  - done.
Defined.

(** ** Proofs of ownership *)

Definition sample_proof_msg : MsgSubmitProofExternalOwnedAccount := mkMsgSubmitProof "alice" "bob" "0x0b".
#[export] Instance proof_codec : Codec ProofExternalOwnedAccount :=
  list_codec [proof_of sample_proof_msg] (mkProof "" "" "").
#[export] Instance proof_codec_laws : CodecLaws ProofExternalOwnedAccount := list_codec_laws _ _.

(** Every signature is Bob's. *)
Definition recover_bob (hash signature : bytes) : res bytes := Ok (x04 :: replicate 30 x00 ++ [xbb]).

Definition rich_sdk : sdk_state :=
  mkSdkState (ms_accounts sdk0) 3 (ms_add ∅ a_alice "wei" (2 * 10 ^ 18)) (<["wei" := 2 * 10 ^ 18]> ∅) (mkStakingState [] []).
Definition rich_world : World sdk_state := mkWorld rich_sdk evm0 ∅ fmkv0 cpc0 ∅.

Lemma can_spend_one (s : sdk_state) a d z : z <= GetBalance s a d - LockedCoins s a d ->
  (forall d', LockedCoins s a d' <= GetBalance s a d') -> can_spend s a [(d, z)].
Proof. intros Hz Hl d'. rewrite AmountOf_single. case_decide; subst; [done|]. specialize (Hl d'). lia. Qed.

Lemma submit_proof_spec_witness :
  exists w', SubmitProofExternalOwnedAccount recover_bob sample_proof_msg rich_world = (Ok tt, w') /\
    GetProofExternalOwnedAccount w' a_bob = Ok (Some (proof_of sample_proof_msg)) /\
    GetBalance (w_sdk w') a_alice "wei" = 10 ^ 18.
Proof.
  pose proof (submit_proof_spec recover_bob sample_proof_msg rich_world DefaultParams a_alice a_bob [x01]) as H.
  rewrite decide_True in H by (by vm_compute).
  destruct H as (w' & Er & Eg & _ & _ & Hb & _).
  - by vm_compute.
  - done.
  - done.
  - by vm_compute.
  - by vm_compute.
  - split; [done|]. by apply module_free0.
  - apply can_spend_one; [vm_compute; congruence|]. intros d. apply ms_balance_nonneg.
  - apply farr_eq. by vm_compute.
  - by vm_compute.
  - done.
  - exists w'. split; [done|]. split; [done|]. rewrite Hb. by vm_compute.
Defined.

Lemma stored_proofs_valid_witness :
  proofs_valid recover_bob
    (foldl (fun w msg => snd (SubmitProofExternalOwnedAccount recover_bob msg w)) rich_world [sample_proof_msg; sample_proof_msg]).
Proof.
  apply (stored_proofs_valid recover_bob [sample_proof_msg; sample_proof_msg] rich_world).
  intros account bz Hl. cbn [rich_world w_vauth] in Hl. by rewrite lookup_empty in Hl.
Defined.

(** ** Transactions and the ante handler *)

Definition eth_msg1 : MsgEthereumTx := mkMsgEthereumTx [x01] "alice".
Definition eth_tx1 : Tx :=
  mkTx [EthMsg eth_msg1] true true true None [("wei", 90000)] 30000 "" "" 0 0 0 "" (Ok tt).
(** A transfer of coins, with a tip of 1 over the base fee. *)
Definition cosmos_tx1 : Tx :=
  mkTx [OtherMsg "/cosmos.bank.v1beta1.MsgSend"] true true true
    (Some ([mkExtOpt "/ethermint.types.v1.ExtensionOptionDynamicFeeTx" (Some (Some 1))], []))
    [("wei", 90000)] 30000 "" "" 1 1 0 "" (Ok tt).

Lemma EthereumTxFeeChecker_spec_witness :
  EthereumTxFeeChecker legacy0 ctx0 world0 eth_tx1 = Ok ([("wei", 60000)], 2) /\
  exists params fp baseFee, Keeper_GetParams world0 = Ok params /\ Fm_GetParams legacy0 world0 = Ok fp /\
    BaseFee fp = Some baseFee /\ baseFee <= EthTxEffectiveGasPrice sample_tx baseFee.
Proof.
  assert (EthereumTxFeeChecker legacy0 ctx0 world0 eth_tx1 = Ok ([("wei", 60000)], 2)) as E by (by vm_compute).
  split; [exact E|].
  destruct (EthereumTxFeeChecker_spec legacy0 ctx0 world0 eth_tx1 eth_msg1 sample_tx [("wei", 60000)] 2)
    as (params & fp & b & m & Hp & Hf & Hb & _ & _ & _ & Hle & _).
  - done.
  - done.
  - vm_compute. split; congruence.
  - exact E.
  - exists params, fp, b. exact (conj Hp (conj Hf (conj Hb Hle))).
Defined.

Lemma CosmosTxFeeChecker_spec_witness :
  CosmosTxFeeChecker legacy0 ctx0 world0 cosmos_tx1 = Ok ([("wei", 60000)], 2) /\ 60000 <= 90000.
Proof.
  assert (CosmosTxFeeChecker legacy0 ctx0 world0 cosmos_tx1 = Ok ([("wei", 60000)], 2)) as E by (by vm_compute).
  split; [exact E|].
  destruct (CosmosTxFeeChecker_spec legacy0 ctx0 world0 cosmos_tx1 "wei" 90000 [("wei", 60000)] 2)
    as (params & fp & b & m & f & _ & _ & _ & _ & _ & [= <-] & Hf & _).
  - done.
  - done.
  - done.
  - vm_compute. split; congruence.
  - exact E.
  - exact Hf.
Defined.

Lemma nonce_round_trip_witness :
  exists w1 w2, increaseSequence a_alice world0 = (Ok tt, w1) /\ restoreNonce a_alice 5 w1 = (Ok tt, w2) /\
    GetAccount (w_sdk w2) a_alice = Some acc_alice.
Proof.
  destruct (nonce_round_trip a_alice 5 acc_alice world0) as (w1 & w2 & E1 & _ & _ & E2 & Ha & _).
  - by vm_compute.
  - done.
  - vm_compute. split; congruence.
  - exists w1, w2. split; [done|]. split; [done|]. rewrite Ha. by vm_compute.
Defined.

Lemma simulation_changes_nothing_witness :
  view (snd (simulate_message info0 info0 info0 ctx0 0%nat a_alice (msg1 5) 1 heap0)) 0%nat = view heap0 0%nat.
Proof. exact (simulation_changes_nothing info0 info0 info0 ctx0 0%nat a_alice (msg1 5) 1 heap0 Nat.lt_0_1). Defined.

(** The SDK's decorators: all pass but the one that deducts the fee. *)
Definition payer (tx : Tx) : bytes :=
  match GetMsgs tx with
  | EthMsg m :: _ => res_get [] (AccAddressFromBech32 (msgtx_From m))
  | _ => a_alice
  end.
Definition deduct_fee (fee : Coins) (from : bytes) : M (World sdk_state) unit := fun w =>
  match GetAccount (w_sdk w) from with
  | None => (Err ErrUnknownAddress, w)
  | Some _ => match SendCoinsFromAccountToModule (w_sdk w) from FeeCollectorName fee with
              | Ok s => (Ok tt, set_sdk s w)
              | Err e => (Err e, w)
              | Panic e => (Panic e, w)
              end
  end.
Abbreviation heap_t := (heap (World sdk_state)).
Definition deduct_at (c : nat) : AnteDecorator heap_t := fun next tx simulate =>
  fee ← ante_read c (fun w => DualLaneFeeChecker legacy0 ctx0 w tx);
  in_heap (on_ctx c (deduct_fee (fst fee) (payer tx))) ;;
  next tx simulate.
Definition sdk_ante_at (c : nat) : SdkAnte heap_t :=
  mkSdkAnte _ pass pass pass pass pass pass (deduct_at c) pass pass pass pass pass pass.
Definition sdk_ante1 : SdkAnte heap_t := sdk_ante_at 0.

Lemma sdk_ante1_laws : SdkAnteLaws sdk_ante1.
Proof.
  split; try exact calls_next_pass. intros next tx sim st st' Hx.
  apply bind_ok_inv in Hx as (? & ? & _ & Hx). apply bind_ok_inv in Hx as (? & ? & _ & Hx). by eexists.
Qed.

Lemma deduct_law_at c : deduct_law legacy0 (sdk_ante_at c) ctx0 c payer.
Proof.
  intros next tx st st' w g z ev At Hx. cbn [sdk_ante_at sdk_DeductFee] in Hx. unfold deduct_at in Hx.
  apply bind_ok_inv in Hx as (fee & st1 & H1 & Hx). apply (at_read _ _ _ _ _ _ _ _ _ At) in H1 as [Hf ->].
  apply bind_ok_inv in Hx as ([] & st2 & H2 & Hx). apply (at_on_ctx _ _ _ _ _ _ _ _ _ At) in H2 as (w' & Hd & At').
  revert Hd. unfold deduct_fee. destruct (GetAccount (w_sdk w) (payer tx)) as [acc|] eqn:Ea; [|done].
  destruct (SendCoinsFromAccountToModule _ _ _ _) as [s|e|e] eqn:Es; [|done|done]. intros [= <-].
  apply send_to_module_ok in Es as (Hm & Hk & _ & Hs). destruct fee as [fee prio].
  exists st2, s, fee, prio. by split_and!.
Qed.

Definition ante1 : AnteHandler heap_t :=
  NewAnteHandler legacy0 info0 info0 info0 sdk_ante1 WithDefaultDisabledNestedMsgs ctx0 0%nat.
Definition ante_st0 : AnteState heap_t := mkAnteState heap0 SdkMeter false [].

Lemma lane_separation_witness :
  ante1 cosmos_tx1 false ante_st0 = (Ok tt, snd (ante1 cosmos_tx1 false ante_st0)) /\
  ((exists m, GetMsgs cosmos_tx1 = [EthMsg m] /\ IsEthereumTx cosmos_tx1 = true) \/
   cosmos_messages_ok WithDefaultDisabledNestedMsgs (view (an_heap (snd (ante1 cosmos_tx1 false ante_st0))) 0%nat)
     (GetMsgs cosmos_tx1)).
Proof.
  assert (ante1 cosmos_tx1 false ante_st0 = (Ok tt, snd (ante1 cosmos_tx1 false ante_st0))) as E
    by (apply ok_pair; by vm_compute).
  split; [exact E|].
  apply (lane_separation legacy0 info0 info0 info0 sdk_ante1 WithDefaultDisabledNestedMsgs ctx0 0%nat
    cosmos_tx1 false ante_st0).
  - apply sdk_ante1_laws.
  - unfold WithDefaultDisabledNestedMsgs. left.
  - exact E.
Defined.

Lemma ethereum_lane_spec_witness :
  exists st' w', ante1 eth_tx1 false ante_st0 = (Ok tt, st') /\
    at_state 0%nat st' w' (LimitMeter (NewInfiniteGasMeterWithLimit 30000)) true
      [(Transaction_Hash sample_tx, sub64 (GetTxCountTransient w') 1)] /\
    GetAccount (w_sdk w') a_alice = Some (with_sequence 6 acc_alice).
Proof.
  assert (ante1 eth_tx1 false ante_st0 = (Ok tt, snd (ante1 eth_tx1 false ante_st0))) as E
    by (apply ok_pair; by vm_compute).
  destruct (ethereum_lane_spec legacy0 info0 info0 info0 sdk_ante1 WithDefaultDisabledNestedMsgs ctx0 0%nat payer
    eth_tx1 ante_st0 (snd (ante1 eth_tx1 false ante_st0)) (view heap0 0%nat) SdkMeter false [])
    as (msg & ethTx & acc & w' & [Hm Ht _ _ _ _ Ha _] & [_ _ Hacc _ _ _ _ _ _] & Hst).
  - apply deduct_law_at.
  - split; [exact Nat.lt_0_1|exact eq_refl..].
  - exact eq_refl.
  - exact eq_refl.
  - exact eq_refl.
  - by intros msg [= <-].
  - exact E.
  - injection Hm as <-. injection Ht as <-. exists (snd (ante1 eth_tx1 false ante_st0)), w'.
    split; [exact E|]. split; [exact Hst|]. change (payer eth_tx1) with a_alice in *.
    assert (GetAccount (w_sdk (view heap0 0%nat)) a_alice = Some acc_alice) as Ha0 by (by vm_compute).
    rewrite Ha in Ha0. injection Ha0 as ->. exact Hacc.
Defined.
