(* ===== verification/BlockWitnesses.v ===== *)
(** * A block on a concrete state

    Two transactions pass the ante handler: the first is executed, the second is aborted. *)

From Stdlib Require Import Strings.Byte.
From stdpp Require Import base gmap list strings.
From S2P Require Import Prelude Sdk Geth SdkModel EvmTypes ChainId GasMeter EvmStore AccessList StateDB SnapshotStack.
From S2P Require Import Programs StateDBEffects FeeMarket Cpc CpcContracts Eip712 Staking Contracts TxTypes StateTransition.
From S2P Require Import TxExecution VAuth AnteTx Ante Blocks Models Witnesses.

#[export] Instance transfer_engine_calls {S : Type} : @EngineCalls S transfer_engine.
Proof. split; intros; cbn; auto. Qed.

Abbreviation ante0 := (NewAnteHandler legacy0 info0 info0 info0 (sdk_ante_at 0%nat) WithDefaultDisabledNestedMsgs ctx0 0%nat).

(** The first transaction. *)
Definition passed1 : AnteState heap_t := snd (ante0 eth_tx1 false ante_st0).
Definition meter1 : infiniteGasMeterWithLimit := NewInfiniteGasMeterWithLimit 30000.
Definition handled1 : res (MsgEthereumTxResponse * ReceiptEvent) * (heap_t * infiniteGasMeterWithLimit) :=
  EthereumTx legacy0 no_validator no_operator info0 info0 info0 0 order_of ctx0 0%nat eth_msg1 (an_heap passed1, meter1).
Definition answer1 : MsgEthereumTxResponse * ReceiptEvent :=
  match fst handled1 with
  | Ok x => x
  | _ => (mkMsgEthereumTxResponse 0 None [] zero_hash [], mkReceiptEvent zero_hash None 0 0 0 0 None None)
  end.
Definition heap1 : heap_t := fst (snd handled1).

(** The second one. *)
Definition eth_msg2 : MsgEthereumTx := mkMsgEthereumTx [x02] "alice".
Definition eth_tx2 : Tx := mkTx [EthMsg eth_msg2] true true true None [("wei", 90000)] 30000 "" "" 0 0 0 "" (Ok tt).
Definition ante_st1 : AnteState heap_t := mkAnteState heap1 SdkMeter false [].
Definition passed2 : AnteState heap_t := snd (ante0 eth_tx2 false ante_st1).

Definition two_txs : list BlockTx :=
  [mkBlockTx sample_tx 0 (Executed (fst answer1) (snd answer1)); mkBlockTx next_tx 1 Aborted].

Abbreviation run0 := (block_run legacy0 no_validator no_operator info0 info0 info0 0 order_of sdk_ante_at WithDefaultDisabledNestedMsgs ctx0 payer).
Lemma model_tx_gas msg tx : MsgEthereumTx_AsTransaction msg = Ok tx -> is_u64 (tx_Gas tx).
Proof. unfold MsgEthereumTx_AsTransaction. cbn. repeat case_match; intros [= <-]; by split. Qed.
Lemma model_message_gas cfg n tx b m : Transaction_AsMessage cfg n tx b = Ok m -> msg_Gas m = tx_Gas tx.
Proof. by intros [= <-]. Qed.
Lemma model_receipts r bz : Receipt_MarshalBinary r = Ok bz -> bz <> [] /\ exists rc, Receipt_UnmarshalBinary bz = Ok rc.
Proof. intros [= <-]. split; [done|]. cbn [Receipt_UnmarshalBinary geth_model]. repeat case_decide; eauto. Qed.
Lemma mapM_length {X Y} (f : X -> res Y) l l' : mapM f l = Ok l' -> length l' = length l.
Proof.
  revert l'. induction l as [|x l IH]; intros l'; cbn; [by intros [= <-]|]. destruct (f x); cbn; try done.
  destruct (mapM f l) eqn:E; cbn; try done. intros [= <-]. cbn. f_equal. by apply IH.
Qed.
Lemma executed1 : handled1 = (Ok answer1, (heap1, snd (snd handled1))).
Proof.
  assert (is_ok (fst handled1) = true) as H by (by vm_compute). unfold answer1, heap1.
  destruct handled1 as [[x| |] [h g]]; [done|done|done].
Qed.
Lemma pass1 : ante0 eth_tx1 false ante_st0 = (Ok tt, passed1).
Proof. unfold passed1. apply ok_pair. vm_compute. exact eq_refl. Qed.
Lemma pass2 : ante0 eth_tx2 false ante_st1 = (Ok tt, passed2).
Proof. unfold passed2. apply ok_pair. vm_compute. exact eq_refl. Qed.
Lemma first_run : run0 [mkBlockTx sample_tx 0 (Executed (fst answer1) (snd answer1))] (view heap1 0%nat).
Proof.
  apply (block_eth _ _ _ _ _ _ _ _ _ _ _ _ [] (view heap0 0%nat) 0%nat eth_tx1 eth_msg1 sample_tx ante_st0 passed1 SdkMeter false [] (zero_hash, 0)).
  - apply block_begin. exact eq_refl.
  - split; [exact Nat.lt_0_1|exact eq_refl..].
  - exact eq_refl.
  - exact eq_refl.
  - exact eq_refl.
  - exact pass1.
  - vm_compute. exact eq_refl.
  - apply message_executed with meter1 (snd (snd handled1)); [vm_compute; exact eq_refl|]. fold handled1.
    rewrite executed1 at 1. by destruct answer1.
Qed.
Lemma second_run : run0 two_txs (view (an_heap passed2) 0%nat).
Proof.
  apply (block_eth _ _ _ _ _ _ _ _ _ _ _ _ [_] (view heap1 0%nat) 0%nat eth_tx2 eth_msg2 next_tx ante_st1 passed2 SdkMeter false [] (Transaction_Hash next_tx, 1)).
  - exact first_run.
  - split; [|exact eq_refl..]. apply Nat.ltb_lt. vm_compute. exact eq_refl.
  - exact eq_refl.
  - exact eq_refl.
  - exact eq_refl.
  - exact pass2.
  - vm_compute. exact eq_refl.
  - constructor.
Qed.

Lemma block_records_exact_witness :
  GetRawTxCountTransient (view (an_heap passed2) 0%nat) = 2 /\
  exists receipts, Keeper_EndBlock (view (an_heap passed2) 0%nat) =
    (Ok (EmitBlockBloomEvent (CreateBloom receipts)), view (an_heap passed2) 0%nat) /\ length receipts = 2%nat.
Proof.
  destruct (block_records_exact legacy0 no_validator no_operator info0 info0 info0 0 order_of sdk_ante_at WithDefaultDisabledNestedMsgs ctx0 payer)
    with (l := two_txs) (w := view (an_heap passed2) 0%nat) as [Hc (rs & receipts & [Hl _] & _ & Hm & He)].
  - exact model_tx_gas.
  - exact model_message_gas.
  - exact model_receipts.
  - apply deduct_law_at.
  - exact eq_refl.
  - exact eq_refl.
  - exact second_run.
  - by vm_compute.
  - split; [exact Hc|]. exists receipts. split; [exact He|]. apply mapM_length in Hm. rewrite Hm. exact Hl.
Defined.
