(* ===== verification/IndexerWitnesses.v ===== *)
(** * The indexer on concrete blocks

    The properties of Indexer.v and IndexerService.v applied to a chain whose seventh
    block has an Ethereum transaction: the decoder knows one encoding, the codec of the
    stored results every record. *)

From Stdlib Require Import Strings.Byte.
From stdpp Require Import base gmap list strings countable sorting.
From S2P Require Import Prelude Sdk Geth SdkModel EvmTypes TxTypes EvmStore StateDB Staking AnteTx.
From S2P Require Import Indexer IndexerService Models Witnesses.

#[export] Instance TxResult_eq_dec : EqDecision TxResult.
Proof. solve_decision. Defined.
#[export] Instance TxResult_countable : Countable TxResult :=
  inj_countable' (fun r => (txr_Height r, txr_TxIndex r, txr_EthTxIndex r, txr_Failed r))
    (fun x => mkTxResult x.1.1.1 x.1.1.2 x.1.2 x.2) ltac:(by intros []).
#[export] Instance tx_result_codec : Codec TxResult := countable_codec (mkTxResult 0 0 0 false).
#[export] Instance tx_result_codec_laws : CodecLaws TxResult := countable_codec_laws _.

Definition decoder0 (tx : bytes) : res Tx :=
  if decide (tx = [x01]) then Ok eth_tx1 else Err (Errorf "tx parse error").

(** The transaction ran, and its receipt tells of an error of the contract. *)
Definition ran : ExecTxResult :=
  mkExecTxResult 0
    [mkSdkEvent EventTypeEthereumTx [(AttributeKeyTxIndex, "0")];
     mkSdkEvent EventTypeTxReceipt [(AttributeKeyReceiptTxIndex, "0"); (AttributeKeyReceiptVmError, "execution reverted")]].
(** It was dropped before the ante handler: the block's gas was used up. *)
Definition dropped : ExecTxResult := mkExecTxResult 11 [].

Definition block7 : Block := mkBlock 7 [[x02]; [x01]; [x01]].
Definition results7 : list ExecTxResult := [mkExecTxResult 0 []; ran; dropped].
Definition kvi7 : KVIndexer := snd (IndexBlock decoder0 block7 results7 (NewKVIndexer ∅)).
Definition hash7 : Hash := Transaction_Hash sample_tx.

Lemma items7 : zip_with (classify decoder0) (block_Txs block7) results7 = [None; Some (hash7, Some true); None].
Proof.
  unfold block7, results7, hash7. simpl zip_with. repeat f_equal. 
  all: by vm_compute.
Qed.

Lemma index_block_lookup_witness :
  GetByTxHash kvi7 hash7 = Ok (mkTxResult 7 1 0 true) /\ GetByBlockAndIndex kvi7 7 0 = Ok (mkTxResult 7 1 0 true).
Proof.
  apply (index_block_lookup decoder0 block7 results7 (NewKVIndexer ∅) kvi7 1 hash7 true).
  - exact eq_refl.
  - simpl. lia.
  - simpl. lia.
  - rewrite items7. intros i k h f g Hi Hk. destruct i as [|[|[|i]]], k as [|[|[|k]]]; done.
  - intros r bz [= <-] _. done.
  - by rewrite items7.
Defined.

Lemma indexed_range_witness :
  reachable decoder0 kvi7 /\ FirstIndexedBlock kvi7 = Ok 7 /\ LastIndexedBlock kvi7 = Ok 7 /\
  forall h, has_block (kvi_db kvi7) h -> h = 7.
Proof.
  assert (reachable decoder0 kvi7) as Hr.
  { apply (reachable_block decoder0 (NewKVIndexer ∅) block7 results7); [simpl; lia|simpl; lia|constructor]. }
  assert (FirstIndexedBlock kvi7 = Ok 7) as Ef by (by vm_compute).
  assert (LastIndexedBlock kvi7 = Ok 7) as El by (by vm_compute).
  split_and!; [done|done|done|].
  destruct (indexed_range decoder0 kvi7 Hr) as [(E & _)|(f & l & Ef' & El' & _ & _ & Hall)]; [congruence|].
  intros h Hh%Hall. assert (f = 7 /\ l = 7) as [-> ->] by (split; congruence). lia.
Defined.

(** ** The service

    The node is at block 9 when the service starts after block 7: block 8 cannot be
    fetched, block 9 can, and later block 10 arrives. *)

Definition empty_block (h : Z) : Block := mkBlock h [].
Definition service7 : Service := mkService Outer 7 9 false ∅ kvi7.
Definition catch_up : list Act :=
  concat (replicate 11 [ActOuter; ActFailed]) ++ [ActOuter; ActFetched (empty_block 9) []; ActLeave] ++ replicate 30 ActOuter.
Definition follow : list Act := [ActHead 10; ActOuter; ActFetched (empty_block 10) []; ActLeave; ActOuter].

Definition service9 : Service := mkService Outer 9 9 true (<[8 := 11%nat]> ∅)
  (mkKVIndexer (kvi_db kvi7) true 9).

Lemma started7 : OnStart 9 3 kvi7 = Ok service7.
Proof. by vm_compute. Qed.
Lemma caught_up : drive decoder0 catch_up [] service7 = Some ([9], service9).
Proof. by vm_compute. Qed.

Lemma service_becomes_ready_witness :
  exists s, drive decoder0 catch_up [] service7 = Some ([9], s) /\ svc_isIndexerMarkedReady s = true.
Proof.
  exists service9. split; [exact caught_up|].
  destruct (service_becomes_ready decoder0 9 3 9 kvi7 service7 service9 [9] 55 started7) as [H _].
  - exact (drive_run decoder0 catch_up [] 0 service7 service7 [9] service9 (run_nil _ _) caught_up).
  - done.
  - apply H. simpl. lia.
Defined.

Lemma service_no_gap_witness :
  exists s, drive decoder0 follow [] service9 = Some ([10], s) /\ svc_lastIndexedBlock s = 10 /\ covers service7 [9] service9.
Proof.
  assert (exists s, drive decoder0 follow [] service9 = Some ([10], s)) as [s E] by (eexists; by vm_compute).
  destruct (service_no_gap decoder0 9 3 kvi7 service7 service9 s [9] [10] 55 5 started7) as [Hc Hl].
  - exact (drive_run decoder0 catch_up [] 0 service7 service7 [9] service9 (run_nil _ _) caught_up).
  - exact (drive_run decoder0 follow [] 0 service9 service9 [10] s (run_nil _ _) E).
  - exists s. split; [done|]. split; [|done].
    specialize (Hl eq_refl). simpl in Hl.
    destruct (decide (svc_lastIndexedBlock s - 9 <= 0)) as [Hle|Hgt]; [by rewrite seqZ_nil in Hl by lia|].
    apply (f_equal length) in Hl. rewrite length_seqZ in Hl. simpl in Hl. lia.
Defined.
