(* ===== verification/QueryWitnesses.v ===== *)
(** * Queries on a concrete chain

    The properties of Query.v on the chain of Witnesses.v: Alice asks what it costs to
    send 7 coins with two bytes of data. *)

From Stdlib Require Import Strings.Byte.
From stdpp Require Import base gmap list strings pretty.
From S2P Require Import Prelude Sdk Geth SdkModel EvmTypes TxTypes EvmStore Cpc StateDB TxExecution Query Tracing Models Witnesses.

Definition call_args : TransactionArgs :=
  mkTransactionArgs (Some alice) (Some bob) (Some 21100) None None None (Some 7) None None (Some [xff; xff]) None None.
Definition read_args (bz : bytes) : res TransactionArgs := Ok call_args.
Definition no_reason (bz : bytes) : res string := Err (Errorf "no reason").
Definition call_req : EthCallRequest := mkEthCallRequest [] 25000000.
Definition estimated : res Z * heap (World sdk_state) :=
  EstimateGas legacy0 no_validator no_operator info0 info0 info0 0 order_of read_args no_reason ctx0 0%nat
    (Some call_req) heap0.
Definition call_msg : Message :=
  res_get (msg1 0) (TransactionArgs_ToMessage (with_nonce call_args (Keeper_GetNonce (view heap0 0%nat) alice))
    25000000 (Some (cfg_BaseFee cfg1))).

Lemma queries_change_nothing_witness :
  GetBalance (w_sdk (view (snd estimated) 0%nat)) a_alice "wei" = 1000000.
Proof.
  destruct (queries_change_nothing legacy0 no_validator no_operator info0 info0 info0 0 order_of read_args no_reason
    ctx0 0%nat (Some call_req) heap0) as [_ Hq].
  { exact Nat.lt_0_1. }
  fold estimated in Hq. rewrite Hq. by vm_compute.
Defined.

Lemma estimate_gas_sound_witness :
  exists gas, fst estimated = Ok gas /\ 21000 < gas <= 25000000 /\
    exists w, quiet (view heap0 0%nat) w /\
      call_fails info0 info0 info0 0 order_of ctx0 call_msg (with_no_base_fee cfg1) (gas - 1) w.
Proof.
  assert (exists gas, fst estimated = Ok gas /\ 21000 < gas) as (gas & Eg & Hgas) by (eexists; vm_compute; split; done).
  exists gas. split; [done|].
  destruct (estimate_gas_sound legacy0 no_validator no_operator info0 info0 info0 0 order_of read_args no_reason
    ctx0 0%nat call_req call_args cfg1 call_msg heap0 (snd estimated) gas) as (Hcap & _ & Hlow).
  - exact Nat.lt_0_1.
  - done.
  - done.
  - apply res_get_ok. by vm_compute.
  - apply res_get_ok. by vm_compute.
  - exact (ok_pair estimated gas Eg).
  - split; [split; [done|exact Hcap]|]. destruct Hlow as [Hlow|Hlow]; [unfold TxGas in Hlow; lia|exact Hlow].
Defined.

(** ** Traces

    A block with two transactions of Alice; a trace tells the nonce of the sender in the
    state the transaction ran in. *)
#[export] Instance TxTraceResult_eq_dec : EqDecision TxTraceResult.
Proof. solve_decision. Defined.
Definition two_traces : list TxTraceResult := [TraceResult "5"; TraceResult "6"].
#[export] Instance tracer_model : TracerLib sdk_state := {|
  tracers_New name _ _ := if decide (name = "callTracer"%string) then Ok tt else Err (Errorf "tracer not found");
  ParseDuration _ := Ok 5;
  json_RawMessage s := Some s;
  Tracer_GetResult _ _ w msg _ := Ok (pretty (Keeper_GetNonce w (msg_From msg)));
  Marshal_Trace s := Ok (string_bytes s);
  Marshal_Traces l := if decide (l = two_traces) then Ok [x56] else Err (Errorf "json")
|}.
Definition trace_req : QueryTraceBlockRequest :=
  mkTraceBlockRequest [eth_msg1; mkMsgEthereumTx [x02] "alice"] None 10 "" 0 [].
Definition traced : res bytes * heap (World sdk_state) :=
  TraceBlock legacy0 no_validator no_operator info0 info0 info0 0 order_of ctx0 0%nat (Some trace_req) heap0.
Definition trace_second : res bytes :=
  fst (TraceTx legacy0 no_validator no_operator info0 info0 info0 0 order_of ctx0 0%nat
    (Some (mkTraceTxRequest (mkMsgEthereumTx [x02] "alice") None [eth_msg1] 10 "" 0 [])) heap0).

Lemma trace_block_matches_trace_tx_witness : fst traced = Ok [x56] /\ trace_second = Ok (string_bytes "6").
Proof.
  assert (fst traced = Ok [x56]) as Et by (by vm_compute). split; [exact Et|].
  destruct (trace_block_matches_trace_tx legacy0 no_validator no_operator info0 info0 info0 0 order_of ctx0 0%nat heap0
    (snd traced) trace_req [x56]) as (results & Hm & _ & Hall).
  - exact Nat.lt_0_1.
  - exact I.
  - by vm_compute.
  - exact (ok_pair traced _ Et).
  - cbn in Hm. destruct (decide (results = two_traces)) as [->|]; [|discriminate Hm].
    refine (Hall 0%nat heap0 [eth_msg1] (mkMsgEthereumTx [x02] "alice") [] "6"%string Nat.lt_0_1 eq_refl eq_refl _ eq_refl).
    by repeat constructor.
Defined.
