(* ===== verification/RpcWitnesses.v ===== *)
(** * Receipts and logs on a concrete chain

    A chain of two blocks: the first has a transaction with one log. *)

From Stdlib Require Import Strings.Byte.
From stdpp Require Import base gmap list strings pretty.
From S2P Require Import Prelude Sdk Geth SdkModel EvmTypes Genesis EvmStore Staking TxExecution VAuth Indexer RpcLogs Models Witnesses.

(** A bloom with any bit is a hit. *)
#[export] Instance bloom_model : BloomLib := {| BloomLookup bloom _ := bool_decide (head bloom = Some xff) |}.
#[export] Instance bloom_model_laws : BloomLaws.
Proof.
  assert (forall rs r l, r ∈ rs -> l ∈ rcpt_Logs r -> head (CreateBloom rs) = Some xff) as Hb.
  { intros rs r l Hr Hl. simpl. destruct (forallb _ rs) eqn:E; [|done]. rewrite forallb_forall in E.
    apply list_elem_of_In, E, bool_decide_eq_true in Hr. rewrite Hr in Hl. by apply not_elem_of_nil in Hl. }
  split.
  - intros rs. cbn [CreateBloom geth_model]. by rewrite length_replicate.
  - intros rs r l Hr Hl. cbn [BloomLookup bloom_model]. by rewrite bool_decide_eq_true_2 by eauto.
  - intros rs r l t Hr Hl _. cbn [BloomLookup bloom_model]. by rewrite bool_decide_eq_true_2 by eauto.
Qed.

Definition error_text (e : gerr) : string := "error".
Definition event_data : ReceiptEvent := mkReceiptEvent zero_hash None 21000 3 1 0 (Some 0) None.
Definition receipt_event1 : SdkEvent :=
  res_get (mkSdkEvent "" []) (receipt_event_text error_text sample_receipt event_data None).

Lemma receipt_event_round_trip_witness :
  exists r, ParseTxReceiptFromEvent receipt_event1 = Ok r /\ ic_EffectiveGasPrice r = 3 /\
    er_GasUsed (ic_Receipt r) = 21000 /\ el_Index <$> er_Logs (ic_Receipt r) = [0].
Proof.
  eexists. split.
  - apply (receipt_event_round_trip error_text sample_receipt zero_hash zero_address 21000 3 1 0 None None event_data).
    + intros bz [= <-]. exact eq_refl.
    + vm_compute. split_and!; congruence.
    + vm_compute. congruence.
    + exact eq_refl.
    + exact eq_refl.
  - split_and!; exact eq_refl.
Defined.

Definition chain_results (h : Z) : res ResultBlockResults :=
  if decide (h = 1) then Ok (mkBlockResults 1 [mkExecTxResult 0 [receipt_event1]] [bloom_event (CreateBloom [sample_receipt])])
  else if decide (h = 2) then Ok (mkBlockResults 2 [] [bloom_event (CreateBloom [])])
  else Err (Errorf "height must be less than or equal to the current blockchain height").
Definition no_hash (h : Hash) : res Z := Err (Errorf "not found").
Definition chain_logs (h : Z) : list EthLog :=
  concat (res_get [] (blockRes ← chain_results h; GetLogsFromBlockResults blockRes)).
Definition the_log : EthLog := default (mkEthLog (mkLog alice [] []) 0 zero_hash 0 zero_hash 0) (head (chain_logs 1)).

Lemma chain_in_order h : 1 <= h <= 2 -> fetched_in_order chain_results chain_logs h.
Proof.
  intros Hh. assert (h = 1 \/ h = 2) as [->| ->] by lia.
  - eexists. split; [exact eq_refl|]. exists [sample_receipt], [], []. eexists.
    split_and!; [exact eq_refl|by apply Forall_nil|exact eq_refl|exact eq_refl|].
    intros l Hl. exists sample_receipt. split; [left|]. assert (chain_logs 1 = [the_log]) as E by exact eq_refl.
    rewrite E in Hl. apply list_elem_of_singleton in Hl as ->. left.
  - eexists. split; [exact eq_refl|]. exists [], [], []. eexists.
    split_and!; [exact eq_refl|by apply Forall_nil|exact eq_refl|exact eq_refl|]. by intros l ?%not_elem_of_nil.
Qed.

(** All logs of Alice with the topic, from the start to the head. *)
Definition crit1 (to : option Z) : FilterCriteria := mkFilterCriteria None (Some 0) to [alice; bob] [[farr_of 32 [x07]]].

Lemma get_logs_exact_witness :
  GetLogs chain_results no_hash (Ok (Some 2)) (crit1 None) 10 100 = Ok [the_log] /\ log_Data (el_Log the_log) = [x05].
Proof.
  split; [|exact eq_refl]. rewrite (get_logs_exact chain_results no_hash (Ok (Some 2)) chain_logs (crit1 None) 2 10 100).
  - exact eq_refl.
  - exact eq_refl.
  - exact eq_refl.
  - lia.
  - by vm_compute.
  - by vm_compute.
  - exact chain_in_order.
Defined.

Lemma get_logs_beyond_head_witness : GetLogs chain_results no_hash (Ok (Some 2)) (crit1 (Some 3)) 10 100 = Ok [].
Proof.
  apply (get_logs_beyond_head chain_results no_hash (Ok (Some 2)) chain_logs (crit1 (Some 3)) 2 10 100
    (Errorf "height must be less than or equal to the current blockchain height")).
  - exact eq_refl.
  - exact eq_refl.
  - by vm_compute.
  - by vm_compute.
  - by vm_compute.
  - exact chain_in_order.
  - exact eq_refl.
  - by vm_compute.
Defined.
