(* ===== verification/FilterWitnesses.v ===== *)
(** * Live filters on a concrete run

    A filter for blocks is installed, gets the hash of a block and is polled. *)

From Stdlib Require Import Strings.Byte.
From stdpp Require Import base gmap list strings.
From S2P Require Import Prelude Sdk Geth SdkModel EvmTypes TxTypes AnteTx Genesis Indexer RpcLogs Models Witnesses RpcWitnesses FilterSystem FilterSafety.

Definition no_response (data : bytes) : res MsgEthereumTxResponse := Err (Errorf "no response").
Definition no_tx (tx : bytes) : res Tx := Err (Errorf "no transaction").
Definition do_action (a : action) (api : PublicFilterAPI) : PublicFilterAPI := snd (perform 5 no_response no_tx a api).

Definition block_id : ID := "0xb".
Definition head_event : EventData := EventDataNewBlockHeader [x07].
Definition installed : PublicFilterAPI := do_action (ANewBlockFilter block_id undisturbed) NewPublicAPI.
Definition published : PublicFilterAPI := do_action (APublish headerEvents head_event {[block_id]}) installed.
Definition heard : PublicFilterAPI := do_action (AListen block_id) published.
Definition polled : PublicFilterAPI := do_action (APoll block_id) heard.
Definition block_hash : Hash := BytesToHash [x07].

Lemma do_action_step a o api tr api' : enabled a api -> fst (perform 5 no_response no_tx a api) = Ok o ->
  steps 5 no_response no_tx (do_action a api) tr api' -> steps 5 no_response no_tx api ((a, o) :: tr) api'.
Proof. intros He E Hs. eapply steps_ok; [exact He| |exact Hs]. rewrite <- E. apply surjective_pairing. Qed.

Lemma install_run : steps 5 no_response no_tx NewPublicAPI [(ANewBlockFilter block_id undisturbed, Nothing)] installed.
Proof.
  apply do_action_step; [|exact eq_refl|constructor]. split_and!; [exact eq_refl|exact eq_refl|set_solver|set_solver].
Qed.
Lemma hear_run : steps 5 no_response no_tx installed
  [(APublish headerEvents head_event {[block_id]}, Nothing); (AListen block_id, Delivered block_id [block_hash] []);
   (APoll block_id, Polled block_id (Hashes [block_hash]))] polled.
Proof.
  apply do_action_step; [exact I|exact eq_refl|]. apply do_action_step; [|vm_compute; reflexivity|].
  - eexists. split; [vm_compute; reflexivity|]. vm_compute. congruence.
  - apply do_action_step; [exact I|vm_compute; reflexivity|]. exact (steps_refl 5 no_response no_tx polled).
Qed.

Definition the_filter (api : PublicFilterAPI) (id : ID) : api_filter :=
  default (mkFilter LogsSubscription false [] no_criteria [] (logs_sub id)) (filters api !! id).

Lemma polls_are_exact_witness :
  filters installed !! block_id = Some (the_filter installed block_id) /\
  f_hashes (the_filter installed block_id) ++ [block_hash] = [block_hash] ++ f_hashes (the_filter polled block_id).
Proof.
  split; [exact eq_refl|].
  refine (proj1 (polls_are_exact 5 no_response no_tx installed polled _ block_id
    (the_filter installed block_id) (the_filter polled block_id) hear_run _ eq_refl eq_refl)).
  repeat constructor; vm_compute; congruence.
Defined.

Lemma filters_within_cap_witness : Z.of_nat (size (filters installed)) <= Z.max 0 5.
Proof. apply (filters_within_cap 5 no_response no_tx installed). eexists. exact install_run. Defined.

Definition uninstalled : PublicFilterAPI := do_action (AUninstall block_id) installed.
Definition block_sub : Subscription := mkSubscription block_id BlocksSubscription headerEvents.
Lemma no_channel_closed_twice_witness :
  fst (perform 5 no_response no_tx (AInternal (Loop block_sub)) uninstalled) <> Panic ErrCloseClosed.
Proof.
  apply (no_channel_closed_twice 5 no_response no_tx uninstalled (AInternal (Loop block_sub))); [|exact eq_refl].
  exists [(ANewBlockFilter block_id undisturbed, Nothing); (AUninstall block_id, Nothing)].
  apply do_action_step; [split_and!; [exact eq_refl|exact eq_refl|set_solver|set_solver]|exact eq_refl|].
  apply do_action_step; [exact I|exact eq_refl|constructor].
Defined.

Definition from_five : FilterCriteria := mkFilterCriteria None (Some 5) None [] [].
Definition five : PublicFilterAPI := do_action (ANewFilter from_five "0x5" undisturbed) NewPublicAPI.
Lemma five_run : steps 5 no_response no_tx NewPublicAPI [(ANewFilter from_five "0x5" undisturbed, Nothing)] five.
Proof.
  apply do_action_step; [|exact eq_refl|constructor]. split_and!; [exact eq_refl|exact eq_refl|set_solver|set_solver].
Qed.
Lemma from_block_filter_is_silent_witness :
  filters five !! "0x5"%string = Some (the_filter five "0x5") /\ f_logs (the_filter five "0x5") = [].
Proof.
  split; [exact eq_refl|].
  apply (from_block_filter_is_silent 5 no_response no_tx five "0x5" (the_filter five "0x5") 5).
  - eexists. exact five_run.
  - exact eq_refl.
  - exact eq_refl.
  - lia.
Defined.

Lemma second_filter_is_lost_witness :
  exists api api', dom (filters api) = {["0x1"%string; "0x2"%string]} /\ filters api' = ∅ /\
    steps 5 no_response no_tx api
      [(AUninstall "0x1", Nothing); (AInternal (Loop (logs_sub "0x1")), Nothing);
       (AInternal (PublisherEnd evmEvents 0%nat), Nothing); (AClosed "0x2", Nothing)] api'.
Proof.
  destruct (second_filter_is_lost 5 no_response no_tx "0x1" "0x2" [] [] [] []) as (api & api' & _ & H2 & H3 & H4);
    [lia|discriminate|]. exists api, api'. split_and!; [exact H2|exact H4|exact H3].
Defined.
