(* ===== verification/TypedWitnesses.v ===== *)
(** * Typed data and keys on concrete inputs

    A transaction with one bank message under a model of gjson, and a toy curve. *)

From Stdlib Require Import Strings.Byte Ascii.
From stdpp Require Import base gmap list strings pretty.
From S2P Require Import Prelude Sdk Geth SdkModel EvmTypes ChainId Cpc CpcContracts Eip712 TypedTx Keys Models.

(** ** gjson *)

Definition coin_json : JVal := JObject [("denom", JString "wei"); ("amount", JString "7")]%string.
Definition send_json : JVal :=
  JObject [("type", JString "cosmos-sdk/MsgSend"); ("value", JObject [("amount", JArray [coin_json]); ("to", JString "alice")])]%string.
Definition doc_members : Members :=
  [("account_number", JString "1"); ("chain_id", JString "evermint_80808-1"); ("msgs", JArray [send_json]); ("memo", JString "")]%string.

Definition upper (c : Ascii.ascii) : Ascii.ascii := if is_lower c then Ascii.ascii_of_N (code_of c - 32) else c.
Definition title (s : string) : string := match s with String c s' => String (upper c) s' | _ => s end.

#[export] Instance gjson_model : Gjson := {|
  ParseBytes data := if decide (data = [x01]) then Some (JObject doc_members) else None;
  Get v k := if decide (k = "@this"%string) then Some v else match v with JObject ms => first_member ms k | _ => None end;
  Value_map ms := list_to_map ms;
  SetRaw v k x := match v with JObject ms => Ok (JObject (ms ++ [(k, x)])) | _ => Err ErrInvalidType end;
  sjson_Delete v k := match v with JObject ms => Ok (JObject (filter (fun m => m.1 <> k) ms)) | _ => Err ErrInvalidType end;
  Title := title
|}.

Lemma upper_upper c : upper (upper c) = upper c.
Proof. by destruct c as [[] [] [] [] [] [] [] []]. Qed.
Lemma upper_separator c : ~ separator c -> ~ separator (upper c).
Proof. unfold separator. intros H. destruct c as [[] [] [] [] [] [] [] []]; vm_compute; intuition congruence. Qed.
Lemma upper_digit c : is_digit c = true -> upper c = c.
Proof. destruct c as [[] [] [] [] [] [] [] []]; by vm_compute. Qed.
Lemma title_digits s : Forall (fun c => is_digit c = true) (String.list_ascii_of_string s) -> title s = s.
Proof. destruct s as [|c s]; [done|]. intros H. apply Forall_cons in H as [H _]. simpl. by rewrite upper_digit. Qed.
Lemma title_titles ps (n : nat) : title (concat_strings (map title ps) ++ pretty n) = (concat_strings (map title ps) ++ pretty n)%string.
Proof.
  induction ps as [|p ps IH]; [apply title_digits, pretty_all_digits|].
  destruct p as [|c p]; [exact IH|]. cbn [map concat_strings foldr title]. 
  change (String (upper c) p ++ ?x)%string with (String (upper c) (p ++ x)).
  change (String (upper c) ?x ++ ?y)%string with (String (upper c) (x ++ y)). cbn [title]. by rewrite upper_upper.
Qed.
#[export] Instance gjson_model_laws : GjsonLaws.
Proof.
  split.
  - intros ms k [_ Hk]. cbn [Get gjson_model]. rewrite decide_False; [done|]. by intros ->.
  - done.
  - done.
  - intros ms k. cbn [Value_map gjson_model]. induction ms as [|[k' v] ms IH]; [apply lookup_empty|]. simpl. case_decide as H.
    + subst. apply lookup_insert_eq.
    + rewrite lookup_insert_ne by done. exact IH.
  - done.
  - exact title_titles.
  - intros [|c s]; [done|]. unfold without_separators. cbn. rewrite !Forall_cons. intros [H1 H2]. split; [by apply upper_separator|done].
Qed.

Lemma send_message_ok : message_ok 10 send_json.
Proof. eexists _, _. split; [exact eq_refl|]. split_and!; [by vm_compute|vm_compute; lia|exact eq_refl|done]. Qed.


Definition typed_doc : TypedTx := match WrapTxToTypedData 10 80808 [x01] with Ok td => td | _ => mkTypedTx ∅ "" (createEIP712Domain 0) ∅ end.

Lemma this_key_overflows_witness :
  addMsgTypesToRoot 1000 "msg0" (JObject [(msgTypeField, JString "bank/MsgSend"); ("@this"%string, JNull)]) baseTypes =
    (Panic StackOverflow, baseTypes).
Proof. apply (this_key_overflows 1000 "msg0" "bank/MsgSend" JNull baseTypes); [intros v; exact eq_refl|discriminate]. Defined.

(** ** Keys *)

(** A signature is the key and the digest with its first byte cleared, so its [s] is low. *)
Definition model_s (first : byte) (digest : bytes) : bytes := first :: drop 1 digest.
#[export] Instance curve_model : Curve := {|
  ECDSA := farr 32;
  Point := farr 32;
  Chain := farr 32;
  ToECDSA bz := if (length bz =? 32)%nat then Ok (farr_of 32 bz) else Err (Errorf "invalid length, need 256 bits");
  FromECDSA := farr_bytes;
  PublicKey key := key;
  CompressPubkey p := x02 :: farr_bytes p;
  DecompressPubkey bz := if (length bz =? 33)%nat then Ok (farr_of 32 (tail bz)) else Err (Errorf "invalid public key");
  Point_Address p := BytesToAddress (farr_bytes p);
  curve_Sign digest key := if (length digest =? 32)%nat then Ok (farr_bytes key ++ model_s x00 digest ++ [x00]) else Err (Errorf "hash is required to be exactly 32 bytes");
  curve_Verify pub digest sig := bool_decide (sig = tail pub ++ model_s x00 digest);
  ParseDerivationPath _ := Ok [44; 60; 0; 0; 0];
  NewSeedWithErrorChecking _ _ := Ok [x01; x02; x03];
  NewMaster seed := Ok (farr_of 32 seed);
  chain_Derive key _ := Ok key;
  ECPrivKey key := Ok key
|}.
#[export] Instance curve_model_laws : CurveLaws.
Proof.
  split.
  - intros digest key sig. cbn [curve_Sign curve_Verify curve_model PublicKey CompressPubkey tail].
    destruct (Nat.eqb_spec (length digest) 32) as [Hd|]; [|done]. intros Hs. assert (sig = farr_bytes key ++ model_s x00 digest ++ [x00]) as -> by congruence.
    assert (length (model_s x00 digest) = 32%nat) as Hm by (unfold model_s; cbn [length]; rewrite length_drop, Hd; done).
    pose proof (farr_length key) as Hk. split.
    + rewrite !length_app, Hk, Hm. done.
    + apply bool_decide_eq_true_2. rewrite app_assoc. apply take_app_length'. rewrite length_app, Hk, Hm. done.
  - intros digest key Hd. cbn [curve_Sign curve_model]. rewrite Hd. by eexists.
  - intros p. cbn [DecompressPubkey CompressPubkey curve_model tail]. cbn [length]. rewrite farr_length. cbn [Nat.eqb].
    f_equal. exact (farr_of_app [] p).
  - intros p. cbn [CompressPubkey curve_model length]. by rewrite farr_length.
  - intros key. cbn [ToECDSA FromECDSA curve_model]. rewrite farr_length. f_equal. exact (farr_of_app [] key).
  - intros key. apply farr_length.
Qed.

#[export] Instance codecs_model : SignCodecs unit := {|
  codecs_set := true;
  amino_SignDoc bz := if decide (bz = [x01]) then Ok (mkStdSignDoc "evermint_80808-1" [] [[x02]]) else Err (Errorf "amino");
  amino_Fee _ := Ok tt;
  amino_Msg _ := Ok tt;
  proto_SignDoc _ := Err (Errorf "proto");
  proto_AuthInfo _ := Err (Errorf "proto");
  proto_TxBody _ := Err (Errorf "proto");
  proto_UnpackAny _ := Err (Errorf "proto");
  GetMsgV1Signers _ := Ok [[x05]];
  StdSignBytes _ _ _ _ _ _ _ := [];
  TypedDataAndHash td := Ok (x19 :: x01 :: replicate 64 (byte_of_Z (Z.of_nat (size (tt_Message td)))))
|}.

Lemma derived_key_signs_witness :
  exists privKey pubKey sig signed,
    Derive "abandon abandon about" "" "m/44'/60'/0'/0/0" = Ok privKey /\ GetEIP712BytesForMsg 10 [x01] = Ok signed /\
    PrivKey_PubKey privKey = Some pubKey /\ PrivKey_Sign privKey signed = Ok sig /\
    PubKey_VerifySignature 10 pubKey [x01] sig = Ok true.
Proof.
  set (privKey := farr_bytes (farr_of 32 [x01; x02; x03])).
  set (signed := x19 :: x01 :: replicate 64 (byte_of_Z 4)).
  assert (GetEIP712BytesForMsg 10 [x01] = Ok signed) as He by (vm_compute; reflexivity).
  destruct (derived_key_signs 10 "abandon abandon about" "" "m/44'/60'/0'/0/0" privKey [x01] signed)
    as (pubKey & sig & H1 & H2 & _ & H3 & _).
  - exact eq_refl.
  - right. exact He.
  - vm_compute. congruence.
  - exists privKey, pubKey, sig, signed. split_and!; [exact eq_refl|exact He|exact H1|exact H2|exact H3].
Defined.
