(* ===== verification/RpcBackendWitnesses.v ===== *)
(** * The backend of the JSON-RPC server on a concrete chain

    A node with one block, the seventh: a transaction that does not decode and an Ethereum
    transaction with a receipt, indexed as the indexer does; another with a block, the
    eighth, that also has an aborted and a dropped transaction; and a server that submits
    transactions to the chain of Witnesses.v. *)

From Stdlib Require Import Strings.Byte SpecFloat.
From stdpp Require Import base gmap list strings countable sorting.
From S2P Require Import Prelude Sdk Geth SdkModel EvmTypes ChainId TxTypes EvmStore Genesis Staking FeeMarket TxExecution AnteTx Ante.
From S2P Require Import Indexer RpcLogs RpcBlocks RpcFees RpcSend Models Witnesses IndexerWitnesses RpcWitnesses.

(** ** The block *)

Definition executed : ExecTxResult := mkExecTxResult 0 [mkSdkEvent EventTypeEthereumTx [(AttributeKeyTxIndex, "0")]; receipt_event1].
Definition header7 : CometHeader := mkCometHeader 7 100 [x06] [xaa] [x0a] [x0d] [x77].
Definition node_block7 : ResultBlock := mkResultBlock [x77] header7 [[x02]; [x01]] 500.
Definition node_results7 : ResultBlockResults :=
  mkBlockResults 7 [mkExecTxResult 0 []; executed] [bloom_event (CreateBloom [sample_receipt])].
Definition kvi_rpc : KVIndexer :=
  snd (IndexBlock decoder0 (mkBlock 7 [[x02]; [x01]]) [mkExecTxResult 0 []; executed] (NewKVIndexer ∅)).

#[export] Instance node_model : Node := {|
  node_Block h := if decide (h = 7) then Ok (Some node_block7) else Err (Errorf "no such block");
  node_BlockByHash h := if decide (h = BytesToHash [x77]) then Ok (Some node_block7) else Ok None;
  node_BlockResults h := if decide (h = 7) then Ok node_results7 else Err (Errorf "no such block");
  node_BaseFee _ := Ok 2;
  node_MaxGas _ := Ok 40000000;
  node_ValidatorAccount _ _ := Ok "bob";
  node_UnconfirmedTxs := Ok [];
  node_TxDecoder := decoder0
|}.
#[export] Instance rpc_geth_model : RpcGeth := {|
  Sender_ForChain _ _ := Ok alice;
  RawSignatureValues _ := (1, 2, 3);
  DeriveSha_Transactions _ := farr_of 32 [x51];
  DeriveSha_Receipts _ := farr_of 32 [x52];
  EmptyRootHash := farr_of 32 [x50];
  EmptyUncleHash := farr_of 32 [x55]
|}.

Lemma stored7 : stored node_block7 node_results7.
Proof. split_and!; try exact eq_refl. by vm_compute. Qed.
Lemma eth_position p x m : zip (rb_Txs node_block7) (br_TxsResults node_results7) !! p = Some x -> eth_at x = Some m ->
  p = 1%nat /\ x = ([x01], executed) /\ m = eth_msg1.
Proof.
  destruct p as [|[|p]]; intros [= <-]; vm_compute; [done|]. by intros [= <-].
Qed.
Lemma indexed7 : indexed kvi_rpc node_block7 node_results7.
Proof. intros p x m t Hx Hm. destruct (eth_position _ _ _ Hx Hm) as (-> & -> & ->). intros [= <-]. exists false. by vm_compute. Qed.
Lemma consistent7 : index_consistent kvi_rpc node_block7 node_results7.
Proof. intros p x m t Hx Hm. destruct (eth_position _ _ _ Hx Hm) as (-> & -> & ->). intros [= <-]. by vm_compute. Qed.

Definition served7 : RPCBlock := res_get
  (mkRPCBlock 0 [] zero_hash [] [] zero_address 0 0 0 0 zero_hash zero_hash [] None)
  (RPCBlockFromCometBFTBlock kvi_rpc 9000 node_block7 node_results7 true).

Definition second_tx : Tx := mkTx [EthMsg (mkMsgEthereumTx [x02] "alice")] true true true None [("wei", 90000)] 30000 "" "" 0 0 0 "" (Ok tt).
Definition decoder2 (tx : bytes) : res Tx :=
  if decide (tx = [x01]) then Ok eth_tx1 else if decide (tx = [x03]) then Ok second_tx else Err (Errorf "tx parse error").
Definition next_hash : Hash := Transaction_Hash next_tx.

(** Another block: a transaction that does not decode, one with a receipt, one that was
    aborted, and one that was dropped. *)
Definition aborted : ExecTxResult := mkExecTxResult 11 [mkSdkEvent EventTypeEthereumTx [(AttributeKeyTxIndex, "1")]].
Definition results8 : list ExecTxResult := [mkExecTxResult 0 []; executed; aborted; dropped].
Definition header8 : CometHeader := mkCometHeader 8 101 [x06] [xaa] [x0a] [x0d] [x78].
Definition node_block8 : ResultBlock := mkResultBlock [x78] header8 [[x02]; [x01]; [x03]; [x01]] 500.
Definition node_results8 : ResultBlockResults := mkBlockResults 8 results8 [bloom_event (CreateBloom [sample_receipt])].
Definition kvi_block8 : KVIndexer := snd (IndexBlock decoder2 (mkBlock 8 [[x02]; [x01]; [x03]; [x01]]) results8 (NewKVIndexer ∅)).
Definition node8 : Node := {|
  node_Block h := if decide (h = 8) then Ok (Some node_block8) else Err (Errorf "no such block");
  node_BlockByHash h := if decide (h = BytesToHash [x78]) then Ok (Some node_block8) else Ok None;
  node_BlockResults h := if decide (h = 8) then Ok node_results8 else Err (Errorf "no such block");
  node_BaseFee _ := Ok 2;
  node_MaxGas _ := Ok 40000000;
  node_ValidatorAccount _ _ := Ok "bob";
  node_UnconfirmedTxs := Ok [];
  node_TxDecoder := decoder2
|}.
Definition served8 : RPCBlock := res_get
  (mkRPCBlock 0 [] zero_hash [] [] zero_address 0 0 0 0 zero_hash zero_hash [] None)
  (RPCBlockFromCometBFTBlock (N:=node8) kvi_block8 9000 node_block8 node_results8 true).

Lemma indexed8 : indexed (N:=node8) kvi_block8 node_block8 node_results8.
Proof.
  intros p x m t. destruct p as [|[|[|[|p]]]]; intros [= <-]; intros Hm; vm_compute in Hm; try done; injection Hm as <-;
    intros [= <-]; eexists; by vm_compute.
Qed.

(** The receipt of the aborted transaction is the second of the block, whose gas it has. *)
Lemma receipts_agree_witness :
  blk_gasUsed served8 = 51000 /\
  exists receipts r1 r2 price1 price2,
    blk_gasUsed served8 = (match last receipts with Some r => er_CumulativeGasUsed r | None => 0 end) /\
    receipts !! 0%nat = Some r1 /\ receipts !! 1%nat = Some r2 /\
    GetTransactionReceipt (N:=node8) kvi_block8 hash7 = Some <$> NewRPCReceiptFromReceipt eth_msg1 r1 price1 /\
    GetTransactionReceipt (N:=node8) kvi_block8 next_hash = Some <$> NewRPCReceiptFromReceipt (mkMsgEthereumTx [x02] "alice") r2 price2.
Proof.
  split; [by vm_compute|].
  destruct (receipts_agree (N:=node8) kvi_block8 9000 node_block8 node_results8 true served8) as (rs & _ & Hg & Hall).
  - intros b e. cbn. unfold decoder2. by repeat destruct (decide _).
  - split_and!; [by vm_compute|exact eq_refl..].
  - exact indexed8.
  - by vm_compute.
  - by vm_compute.
  - destruct (Hall 1%nat ([x01], executed) eth_msg1 eq_refl) as (t1 & r1 & price1 & [= <-] & Hr1 & Hget1 & _); [by vm_compute|].
    destruct (Hall 2%nat ([x03], aborted) (mkMsgEthereumTx [x02] "alice") eq_refl) as (t2 & r2 & price2 & [= <-] & Hr2 & Hget2 & _); [by vm_compute|].
    exists rs, r1, r2, price1, price2. split; [exact Hg|]. split; [exact Hr1|]. split; [exact Hr2|]. split.
    + apply Hget1. right. right. by vm_compute.
    + apply Hget2. right. left. intros x Hx. change (x ∈ [([x02], mkExecTxResult 0 []); ([x01], executed)]) in Hx.
      rewrite !elem_of_cons in Hx. destruct Hx as [->|[->|[]%elem_of_nil]]; intros _; by vm_compute.
Defined.

Lemma transactions_agree_witness :
  GetBlockTransactionCountByNumber kvi_rpc 7 = Ok (Some 1) /\
  exists rpcTx, blk_transactions served7 = [EntryFull rpcTx] /\ GetTransactionByHash kvi_rpc 9000 hash7 = Ok (Some rpcTx) /\
    GetTransactionByBlockNumberAndIndex kvi_rpc 9000 7 0 = Ok (Some rpcTx).
Proof.
  destruct (transactions_agree kvi_rpc 9000 node_block7 node_results7 served7) as [Hc Hall].
  - exact stored7.
  - exact indexed7.
  - exact consistent7.
  - exact eq_refl.
  - by vm_compute.
  - by vm_compute.
  - by vm_compute.
  - split; [exact Hc|]. destruct (Hall 1%nat ([x01], executed) eth_msg1 eq_refl) as (t & rpcTx & [= <-] & Ht & _ & H1 & H2); [by vm_compute|].
    exists rpcTx. split; [|split; [exact H1|exact H2]]. revert Ht. clear. intros Ht. vm_compute in Ht. injection Ht as <-. by vm_compute.
Defined.

(** ** Fees *)

#[export] Instance reward_le_dec : RelDecision reward_le.
Proof. intros a b. unfold reward_le. apply _. Defined.
#[export] Instance fee_node_model : FeeNode := {|
  node_ChainConfig := Ok cfg0;
  node_MinGasPrice := Ok 0;
  CalcBaseFee _ h := if decide (hdr_GasUsed h = hdr_GasLimit h / 2) then hdr_BaseFee h else hdr_BaseFee h + 1;
  EffectiveGasTipValue tx baseFee := Z.min (tx_GasTipCap tx) (tx_GasFeeCap tx - baseFee);
  FeeHistoryCap := 100;
  node_ResultsGasUsed _ := [0; 21000];
  sort_Sort := merge_sort reward_le;
  uint64_unspecified _ := 0
|}.
Lemma sorts_model : sorts.
Proof.
  intros l. split; [apply merge_sort_Permutation|]. apply Sorted_merge_sort. intros a b. unfold reward_le. lia.
Qed.

Definition percentiles : list float64 := [float64_of 50; float64_of 90].
Definition history7 : FeeHistoryResult :=
  default (mkFeeHistoryResult 0 None [] []) (res_get None (FeeHistory kvi_rpc 9000 1 7 percentiles)).

Lemma fee_history_exact_witness :
  fh_OldestBlock history7 = 7 /\ fh_Reward history7 = Some [[1; 1]] /\ length (fh_BaseFee history7) = 2%nat.
Proof.
  split; [by vm_compute|]. split; [by vm_compute|].
  destruct (fee_history_exact kvi_rpc 9000 1 7 percentiles history7) as (blocks & ones & Hb & _ & _ & _ & _ & Hl & _).
  - exact sorts_model.
  - by vm_compute.
  - split; [lia|by vm_compute].
  - split; [lia|by vm_compute].
  - by vm_compute.
  - rewrite Hl. assert (Z.of_nat blocks = 1) as H1 by (rewrite Hb; exact eq_refl). lia.
Defined.

Definition latest7 : EthHeader := res_get
  (mkEthHeader zero_hash zero_hash zero_address zero_hash zero_hash zero_hash [] 0 0 0 0 0 None) (HeaderByNumber kvi_rpc EthLatestBlockNumber).
Lemma fee_history_next_base_fee_witness : last (fh_BaseFee history7) = Some (Some 2).
Proof.
  apply (fee_history_next_base_fee kvi_rpc 9000 1 7 percentiles history7 latest7 2).
  - intros cfg h _ H. simpl. by rewrite decide_True.
  - by vm_compute.
  - split; [lia|by vm_compute].
  - split; [lia|by vm_compute].
  - by vm_compute.
  - by vm_compute.
  - by vm_compute.
Defined.
Lemma fee_history_huge_count_witness : exists e, FeeHistory kvi_rpc 9000 (2 ^ 63) 7 percentiles = Panic e.
Proof. apply (fee_history_huge_count kvi_rpc 9000 (2 ^ 63) 7 percentiles); [by vm_compute|split; [lia|by vm_compute]|split; by vm_compute]. Defined.

(** ** Submission

    The codec of transactions knows the sample transaction and the one that is built of the
    arguments below. *)

Definition bare_tx : Transaction := @ethtypes_NewTx geth_model (LegacyTx 4 (Some 2) 50000 (Some bob) (Some 0) []).
Definition geth_wallet : Geth := {|
  Keccak256Hash := @Keccak256Hash geth_model;
  ValidEip := @ValidEip geth_model;
  CheckConfigForkOrder := @CheckConfigForkOrder geth_model;
  chain_Rules := @chain_Rules geth_model;
  chain_IsLondon := @chain_IsLondon geth_model;
  ActivePrecompiles := @ActivePrecompiles geth_model;
  IntrinsicGas := @IntrinsicGas geth_model;
  CreateBloom := @CreateBloom geth_model;
  Receipt_MarshalBinary := @Receipt_MarshalBinary geth_model;
  Receipt_UnmarshalBinary := @Receipt_UnmarshalBinary geth_model;
  Transaction_MarshalBinary tx := if decide (tx = sample_tx) then Ok [x01] else if decide (tx = bare_tx) then Ok [x02]
                                  else Err (Errorf "unknown transaction");
  Transaction_UnmarshalBinary bz := if decide (bz = [x01]) then Ok sample_tx else if decide (bz = [x02]) then Ok bare_tx
                                    else Err (Errorf "unknown transaction");
  ethtypes_NewTx := @ethtypes_NewTx geth_model;
  Transaction_Hash _ := farr_of 32 [x99];
  Signer_Sender := @Signer_Sender geth_model;
  Transaction_AsMessage := @Transaction_AsMessage geth_model;
  CreateAddress := @CreateAddress geth_model;
  HexToHash := @HexToHash geth_model
|}.
Lemma wallet_roundtrip : @tx_roundtrip geth_wallet.
Proof.
  intros tx bz. cbn [Transaction_MarshalBinary Transaction_UnmarshalBinary geth_wallet].
  repeat case_decide; intros [= <-]; subst; done.
Qed.

#[export] Instance send_node_model : SendNode := {|
  node_Account _ a := Ok (if decide (a = alice) then Some 4 else None);
  node_EnsureExists _ := Ok tt;
  node_EstimateGas _ _ _ := Ok 50000;
  node_EvmDenom := Ok (EvmDenom DefaultParams);
  keyring_Has a := bool_decide (a = alice);
  keyring_Sign _ msg := Ok msg;
  node_TxEncoder _ _ := Ok [x2a];
  node_Broadcast _ := None;
  RPCGasCap := 25000000;
  AllowInsecureUnlock := true
|}.

(** A call of Bob with the call data in the old field, and a gas price. *)
Definition send_args : TransactionArgs :=
  mkTransactionArgs (Some alice) (Some bob) None (Some 9) None None None None (Some [x05]) None None None.
Definition filled_args : TransactionArgs := res_get send_args (SetTxDefaults (G:=geth_wallet) kvi_rpc 9000 send_args).
Lemma filled_ok : SetTxDefaults (G:=geth_wallet) kvi_rpc 9000 send_args = Ok filled_args.
Proof. by vm_compute. Qed.

Lemma tx_defaults_spec_witness :
  arg_GasPrice send_args = Some 9 /\ arg_GasPrice filled_args = Some 2 /\ arg_Gas filled_args = Some 50000 /\
  kept (arg_Nonce send_args) (arg_Nonce filled_args).
Proof.
  destruct (tx_defaults_spec (G:=geth_wallet) kvi_rpc 9000 send_args filled_args filled_ok)
    as (_ & _ & _ & _ & _ & _ & _ & Hn & _). split; [by vm_compute|]. split; [by vm_compute|]. split; [by vm_compute|exact Hn].
Defined.

Lemma sent_data_is_lost_witness :
  TransactionArgs_GetData filled_args = [x05] /\
  exists tx, MsgEthereumTx_AsTransaction (G:=geth_wallet) (mkMsgEthereumTx [x02] "alice") = Ok tx /\ tx_Data tx = [].
Proof.
  apply (sent_data_is_lost (G:=geth_wallet) kvi_rpc 9000 send_args filled_args [x05] (mkMsgEthereumTx [x02] "alice")).
  - exact wallet_roundtrip.
  - by intros [].
  - exact eq_refl.
  - exact eq_refl.
  - exact filled_ok.
  - by vm_compute.
Defined.

(** A node that encodes and decodes the transaction built of the sample transaction. *)
Definition wrapped : Tx :=
  mkTx [EthMsg eth_msg1] true true true (Some ([mkExtOpt EthermintExtensionOptionsEthereumTx None], [])) [("wei", 90000)] 30000 "" "" 0 0 0 ""
    (Err ErrNoSignatures).
Definition raw_node : Node := {|
  node_Block := @node_Block node_model;
  node_BlockByHash := @node_BlockByHash node_model;
  node_BlockResults := @node_BlockResults node_model;
  node_BaseFee := @node_BaseFee node_model;
  node_MaxGas := @node_MaxGas node_model;
  node_ValidatorAccount := @node_ValidatorAccount node_model;
  node_UnconfirmedTxs := Ok [];
  node_TxDecoder bz := if decide (bz = [x2a]) then Ok wrapped else Err (Errorf "tx parse error")
|}.
Definition raw_sends : SendNode := {|
  node_Account := @node_Account send_node_model;
  node_EnsureExists := @node_EnsureExists send_node_model;
  node_EstimateGas := @node_EstimateGas send_node_model;
  node_EvmDenom := @node_EvmDenom send_node_model;
  keyring_Has := @keyring_Has send_node_model;
  keyring_Sign := @keyring_Sign send_node_model;
  node_TxEncoder msg built :=
    if decide (msgtx_From msg = msgtx_From eth_msg1 /\ MarshalledTx msg = MarshalledTx eth_msg1 /\ built = ([("wei"%string, 90000)], 30000))
    then Ok [x2a] else Err (Errorf "no encoding");
  node_Broadcast _ := None;
  RPCGasCap := 25000000;
  AllowInsecureUnlock := true
|}.

Lemma deduct_pays_at c : deduct_pays_law legacy0 (sdk_ante_at c) ctx0 c payer.
Proof.
  intros next tx st w g z ev fee priority At Hfee [acc Hacc] Hv Hspend Hfree. cbn [sdk_ante_at sdk_DeductFee]. unfold deduct_at, mbind, M_bind.
  rewrite (read_run _ _ _ _ _ _ _ At), Hfee. cbn [fst].
  destruct (on_ctx_run c (deduct_fee fee (payer tx)) _ _ _ _ _ At) as (st1 & -> & At1). revert At1. unfold deduct_fee. rewrite Hacc.
  assert (exists s', SendCoinsFromAccountToModule (w_sdk w) (payer tx) FeeCollectorName fee = Ok s') as [s' Es].
  { cbn [SendCoinsFromAccountToModule sdk_model]. unfold ms_send_to_module. rewrite ms_module_progress by done. simpl.
    apply ms_send_progress; [done|]. rewrite ms_put_can_spend. by apply ms_can_spend_spec. }
  rewrite Es. cbn [fst snd]. intros At1. exists st1, s'. split; [done|]. split; [done|]. by apply send_to_module_ok in Es as (_ & ? & _).
Qed.
Lemma raw_laws : admission_laws (N:=raw_node) (SN:=raw_sends) 9000 legacy0 (sdk_ante_at 0) ctx0 0%nat payer.
Proof.
  split.
  - intros tx bz. cbn [Transaction_MarshalBinary Transaction_UnmarshalBinary geth_model]. repeat case_decide; intros [= <-]; subst; done.
  - intros [bz from] built out. cbn [node_TxEncoder raw_sends msgtx_From MarshalledTx]. case_decide as Hd; [|done].
    destruct Hd as (-> & -> & ->). intros [= <-]. exists wrapped. split; [done|]. split; try done. eexists. split; exact eq_refl.
  - intros tx sender baseFee _. eexists. exact eq_refl.
  - intros tx sender [= <-]. by vm_compute.
  - intros tx msg from Hm Hf. unfold payer. by rewrite Hm, Hf.
  - intros r. eexists. exact eq_refl.
  - apply deduct_pays_at.
Qed.

