(* ===== verification/RpcStateWitnesses.v ===== *)
(** * State and traces through the JSON-RPC server on a concrete chain

    The node answers with the queries of the chain of Witnesses.v, which has a block the
    index does not have yet, with another value in a slot of Alice's storage; its seventh
    block has two transactions of Alice. *)

From Stdlib Require Import Strings.Byte SpecFloat.
From stdpp Require Import base gmap list strings countable pretty.
From S2P Require Import Prelude Sdk Geth SdkModel EvmTypes ChainId TxTypes EvmStore Genesis Cpc Staking Eip712 StateDB FeeMarket TxExecution AnteTx Ante.
From S2P Require Import Query Tracing Indexer RpcLogs RpcBlocks RpcFees RpcSend RpcState.
From S2P Require Import Models Witnesses IndexerWitnesses QueryWitnesses RpcWitnesses RpcBackendWitnesses.

(** The state of block 7, and the one of block 8, which is the last. *)
Definition slot_seven : Hash := HexToHash "0x07".
Definition world8 : World sdk_state := Keeper_SetState world0 alice slot_seven (farr_bytes (farr_of 32 [x09])).
Definition chain_world (height : Z) : World sdk_state := if height =? 8 then world8 else world0.
#[export] Instance state_node_model : StateNode := {|
  node_Code h a := Query_Code (served chain_world 8 h) (Some a);
  node_Storage h a k := Query_Storage (served chain_world 8 h) (Some (a, k));
  node_Balance h a := Query_Balance (served chain_world 8 h) (Some a);
  node_EvmAccount h a := Query_Account (served chain_world 8 h) (Some a);
  node_EthCall _ _ _ := Err (Errorf "no calls");
  node_QueryABCI h store key := Ok (if decide (store = "evm"%string) then kv_get (w_evm (served chain_world 8 h)) key else [], None);
  node_TraceTx _ req := fst (TraceTx legacy0 no_validator no_operator info0 info0 info0 0 order_of ctx0 0%nat (Some req) heap0);
  node_TraceBlock _ req := fst (TraceBlock legacy0 no_validator no_operator info0 info0 info0 0 order_of ctx0 0%nat (Some req) heap0);
  Unmarshal_Trace bz := Ok (String.string_of_list_byte bz);
  Unmarshal_Traces bz := if decide (bz = [x56]) then Ok two_traces else Err (Errorf "json");
  node_ConsAddress := Err (Errorf "no validator");
  NewIntFromString := big_SetString;
  node_UnpackRevert _ := Err (Errorf "no reason");
  keyring_SignByAddress _ _ := Err (Errorf "no key");
  TypedDataAndHash _ := Err (Errorf "no hash");
  signer_Hash _ _ := zero_hash;
  signer_Sender _ _ := Ok alice;
  IsEIP155 _ _ := true;
  RPCTxFeeCap := float64_of 1;
  node_ChainID := String.list_ascii_of_string "evermint_9000-1"
|}.

Definition resend_args : TransactionArgs :=
  mkTransactionArgs (Some alice) (Some bob) None (Some 9) None None None (Some 4) None (Some []) None None.
Lemma resend_never_sends_witness :
  fst (Resend (G:=geth_wallet) kvi_rpc 9000 resend_args (Some 20) None []) = Err (Errorf "transaction not found") /\
  snd (Resend (G:=geth_wallet) kvi_rpc 9000 resend_args (Some 20) None []) = [].
Proof.
  split; [by vm_compute|]. set (r := Resend (G:=geth_wallet) kvi_rpc 9000 resend_args (Some 20) None []).
  refine (proj1 (resend_never_sends (G:=geth_wallet) kvi_rpc 9000 resend_args (Some 20) None [] (snd r) (fst r) _ (surjective_pairing r))).
  intros t. cbn. intros Heq%(f_equal farr_bytes). vm_compute in Heq. discriminate Heq.
Defined.

(** ** State *)

Lemma serves_model : serves chain_world 8.
Proof. split; try done. intros height key r [= <-]. done. Qed.
Lemma short_model height : short_slots (chain_world height).
Proof.
  assert (map_Forall (fun _ (v : bytes) => (length v <= 32)%nat) (filter (fun kv => KeyPrefixStorage `prefix_of` kv.1) (w_evm (chain_world height)))) as Hs.
  { unfold chain_world. destruct (height =? 8); apply (bool_decide_unpack _); vm_compute; exact I. }
  intros a key. unfold kv_get. destruct (w_evm (chain_world height) !! StateKey a (farr_bytes key)) as [v|] eqn:E; [|simpl; lia].
  apply (Hs (StateKey a (farr_bytes key))), map_lookup_filter_Some. split; [exact E|]. unfold StateKey, AddressStoragePrefix. rewrite <- app_assoc.
  apply prefix_app_r, reflexivity.
Qed.
Definition at_seven : BlockNumberOrHash := mkBlockNumberOrHash (Some 7) None.
Definition at_latest : BlockNumberOrHash := mkBlockNumberOrHash (Some EthLatestBlockNumber) None.

(** At height 7 the slot is empty everywhere; at the latest block it is set, but the proof is
    of block 7, the last of the index. *)
Lemma state_reads_agree_witness :
  (Rpc_GetBalance kvi_rpc alice at_seven = Ok 1000000 /\
   exists r, GetProof kvi_rpc alice ["0x07"%string] at_seven = Ok r /\ ar_Balance r = 1000000 /\ ar_Nonce r = 5) /\
  GetStorageAt alice "0x07" at_latest = Ok (farr_bytes (farr_of 32 [x09])) /\
  exists r, GetProof kvi_rpc alice ["0x07"%string] at_latest = Ok r /\ ar_Balance r = 1000000 /\ map sr_Value (ar_StorageProof r) = [0].
Proof.
  split.
  - destruct (state_reads_agree kvi_rpc chain_world 8 alice at_seven 7 (Some node_block7) 1000000) as (_ & Hb & _ & Hp).
    + exact serves_model.
    + intros z _. exact (big_SetString_pretty z).
    + exact eq_refl.
    + by vm_compute.
    + by vm_compute.
    + split; [lia|by vm_compute].
    + exact short_model.
    + split; [exact Hb|].
      assert (exists r, GetProof kvi_rpc alice ["0x07"%string] at_seven = Ok r) as [r Hr] by (eexists; vm_compute; reflexivity).
      exists r. destruct (Hp _ _ Hr) as (H1 & _ & H2 & _). split; [exact Hr|]. split; [exact H1|]. rewrite H2. by vm_compute.
  - destruct (state_reads_agree kvi_rpc chain_world 8 alice at_latest EthLatestBlockNumber (Some node_block7) 1000000) as (_ & _ & Hs & Hp).
    + exact serves_model.
    + intros z _. exact (big_SetString_pretty z).
    + exact eq_refl.
    + by vm_compute.
    + by vm_compute.
    + split; [lia|by vm_compute].
    + exact short_model.
    + split; [rewrite Hs; by vm_compute|].
      assert (exists r, GetProof kvi_rpc alice ["0x07"%string] at_latest = Ok r) as [r Hr] by (eexists; vm_compute; reflexivity).
      exists r. destruct (Hp _ _ Hr) as (H1 & _ & _ & height & Hh & Hv & _). split; [exact Hr|]. split; [exact H1|].
      assert (proof_height kvi_rpc (BlockNumber_Int64 EthLatestBlockNumber) = Ok 7) as Hh7 by (vm_compute; reflexivity).
      rewrite Hh7 in Hh. injection Hh as <-. inversion Hv as [|key x keys xs [_ Hx] Hv' Hk Hl]; subst. inversion Hv'; subst. cbn [map].
      rewrite Hx. by vm_compute.
Defined.

(** ** Traces *)

Definition trace_block7 : ResultBlock := mkResultBlock [x77] header7 [[x01]; [x03]] 500.
Definition trace_node : Node := {|
  node_Block h := if decide (h = 7) then Ok (Some trace_block7) else Err (Errorf "no such block");
  node_BlockByHash _ := Ok None;
  node_BlockResults _ := Ok node_results7;
  node_BaseFee _ := Ok 2;
  node_MaxGas _ := Ok 40000000;
  node_ValidatorAccount _ _ := Ok "bob";
  node_UnconfirmedTxs := Ok [];
  node_TxDecoder := decoder2
|}.
Definition kvi_trace : KVIndexer :=
  snd (IndexBlock decoder2 (mkBlock 7 [[x01]; [x03]]) [executed; executed] (NewKVIndexer ∅)).

Lemma traces_model : traces_served legacy0 no_validator no_operator info0 info0 info0 0 order_of
  (fun _ => ctx0) (fun _ => 0%nat) (fun _ => heap0).
Proof.
  split; try done.
  - intros height. exact Nat.lt_0_1.
  - intros result. eexists. split; [exact eq_refl|]. cbn. unfold string_bytes. by rewrite String.string_of_list_byte_of_string.
  - intros results bz. cbn. destruct (decide (results = two_traces)) as [->|]; [|done]. by intros [= <-].
Qed.

Lemma debug_traces_agree_witness : TraceTransaction (N:=trace_node) kvi_trace next_hash None = Ok "6"%string.
Proof.
  apply (debug_traces_agree (N:=trace_node) legacy0 no_validator no_operator info0 info0 info0 0 order_of kvi_trace
    (fun _ => ctx0) (fun _ => 0%nat) (fun _ => heap0) next_hash None trace_block7 (mkTxResult 7 1 1 false) [x03] second_tx
    (mkMsgEthereumTx [x02] "alice") [eth_msg1] two_traces "6").
  - exact traces_model.
  - exact I.
  - by vm_compute.
  - simpl. lia.
  - simpl. lia.
  - by vm_compute.
  - by vm_compute.
  - exact eq_refl.
  - exact eq_refl.
  - exact eq_refl.
  - intros b t Hb Ht. left. apply list_elem_of_lookup in Hb as [[|[|n]] [= <-]]; injection Ht as <-; eexists; exact eq_refl.
  - exact eq_refl.
  - by vm_compute.
  - by repeat constructor.
  - exact eq_refl.
Defined.
