(* ===== verification/RpcApiWitnesses.v ===== *)
(** * The namespaces, the key ring and the genesis on concrete states

    The chain of RpcBackendWitnesses.v, the toy curve of TypedWitnesses.v, a key ring that is
    a list of names and keys, and a genesis with one account. *)

From Stdlib Require Import Strings.Byte.
From stdpp Require Import base gmap list strings pretty.
From S2P Require Import Prelude Sdk Geth SdkModel EvmTypes Genesis NodeSetup Keys Indexer RpcLogs RpcBlocks RpcFees RpcSend RpcState RpcApi.
From S2P Require Import Models Witnesses IndexerWitnesses RpcWitnesses TypedWitnesses RpcBackendWitnesses RpcStateWitnesses.

Abbreviation ring := (list (string * bytes)).
Definition key_record (k : string * bytes) : KeyRecord :=
  mkKeyRecord k.1 match key_address k.2 with Some a => Ok a | None => Err (Errorf "no public key") end.
Definition ring_find (r : ring) (addr : bytes) : option (string * bytes) := head (filter (fun k => key_address k.2 = Some addr) r).

#[export] Instance ring_model : Keyring ring := {|
  ring_List r := Ok (key_record <$> r);
  ring_KeyByAddress r addr := match ring_find r addr with Some k => Ok (key_record k) | None => Err (Errorf "key not found") end;
  ring_ImportPrivKey name armor _ r := if decide (name ∈ r.*1) then (Err (Errorf "cannot overwrite key"), r)
    else (Ok tt, r ++ [(name, String.list_byte_of_string armor)]);
  ring_NewMnemonic name _ _ r := (Ok (key_record (name, [])), r ++ [(name, [])]);
  EncryptArmorPrivKey key _ := String.string_of_list_byte key;
  UnarmorDecryptPrivKey armor _ := Ok (String.list_byte_of_string armor)
|}.

Lemma ring_names (r : ring) : kr_Name <$> (key_record <$> r) = r.*1.
Proof. by rewrite <- list_fmap_compose. Qed.
Lemma record_address k addr : kr_Address (key_record k) = Ok addr <-> key_address k.2 = Some addr.
Proof. unfold key_record. cbn [kr_Address]. destruct (key_address k.2); naive_solver. Qed.

#[export] Instance ring_model_laws : KeyringLaws ring.
Proof.
  split; cbn [ring_List ring_KeyByAddress ring_ImportPrivKey EncryptArmorPrivKey UnarmorDecryptPrivKey ring_model].
  - intros r l addr [= <-]. unfold ring_find. split.
    + intros [k Hk]. destruct (head _) as [k'|] eqn:E; [|done]. exists (key_record k').
      assert (k' ∈ filter (fun k => key_address k.2 = Some addr) r) as Hin.
      { destruct (filter _ r) as [|x xs]; [done|]. injection E as ->. by left. }
      apply list_elem_of_filter in Hin as [Ha Hin]. split; [by apply list_elem_of_fmap_2|by apply record_address].
    + intros (k & Hin & Ha). apply list_elem_of_fmap in Hin as (k' & -> & Hin). apply record_address in Ha.
      assert (k' ∈ filter (fun k => key_address k.2 = Some addr) r) as Hf by (by apply list_elem_of_filter).
      destruct (filter _ r) as [|x xs]; [by apply not_elem_of_nil in Hf|]. cbn [head]. eauto.
  - intros r l name armor pass key addr [= <-]. rewrite ring_names. intros Hn [= <-] Ha. rewrite decide_False by done.
    eexists _, _. split_and!; [done|done|]. rewrite fmap_app. cbn. unfold key_record at 2. cbn [fst snd]. rewrite Ha.
    symmetry. apply Permutation_cons_append.
  - intros r l name armor pass [= <-]. rewrite ring_names. intros Hn. rewrite decide_True by done. eauto.
  - intros key pass. by rewrite String.list_byte_of_string_of_list_byte.
Qed.

#[export] Instance api_node_model : ApiNode := {|
  HexToECDSA _ s := ToECDSA (String.list_byte_of_string s);
  TextHash data := farr_of 32 data;
  SigToPub _ _ sig := DecompressPubkey (x02 :: take 32 (drop 32 sig));
  node_Status := Ok (false, 1, 9);
  MinGasPrices := [("wei"%string, 7 * 10 ^ 18)];
  ValidateDenom _ := true;
  node_SetMsgs := Some (fun _ _ => Ok tt);
  node_CalculateGas _ _ _ := Ok 90000;
  node_SignTx _ _ tx := Ok tx;
  node_EncodeTx tx := Ok [byte_of_Z (et_Gas tx)];
  node_GetConfig := Ok [];
  GetBaseDenom := Ok "wei"%string
|}.

(** The logs of the transaction of block 7. *)
Lemma transaction_logs_agree_witness :
  exists receipt, GetTransactionReceipt kvi_rpc hash7 = Ok (Some receipt) /\ GetTransactionLogs kvi_rpc hash7 = Ok (Some (rr_Logs receipt)).
Proof.
  assert (exists receipt, GetTransactionReceipt kvi_rpc hash7 = Ok (Some receipt)) as [receipt Hr] by (eexists; vm_compute; reflexivity).
  exists receipt. split; [exact Hr|]. refine (transaction_logs_agree kvi_rpc hash7 (mkTxResult 7 1 0 false) receipt _ eq_refl Hr). by vm_compute.
Defined.

(** Two keys, one of them twice, imported into an empty ring of an unlocked node. *)
Definition unlocked : SendNode := Build_SendNode node_Account node_EnsureExists node_EstimateGas node_EvmDenom keyring_Has keyring_Sign
  node_TxEncoder node_Broadcast RPCGasCap true.
Definition key_text (c : byte) : string := String.string_of_list_byte (replicate 32 c).
Lemma imports_are_listed_witness :
  exists r' l' addrs, import_all [(key_text x41, "a"%string); (key_text x42, "b"%string); (key_text x41, "c"%string)] ([] : ring) = (Ok tt, r') /\
    ring_List r' = Ok l' /\ length l' = 2%nat /\ Backend_Accounts (SN := unlocked) r' = Ok addrs /\ length addrs = 2%nat /\ BytesToAddress (replicate 32 x42) ∈ addrs.
Proof.
  destruct (imports_are_listed (SN := unlocked) (C := curve_model) [(key_text x41, "a"%string); (key_text x42, "b"%string); (key_text x41, "c"%string)]
    [farr_of 32 (replicate 32 x41); farr_of 32 (replicate 32 x42); farr_of 32 (replicate 32 x41)] ([] : ring) []) as (r' & l' & addrs & Hr & Hl & _ & _ & Ha & _ & Hin).
  - repeat constructor; by vm_compute.
  - done.
  - intros n _. by intros ?%not_elem_of_nil.
  - by intros k ?%not_elem_of_nil.
  - intros r addr e. cbn [ring_KeyByAddress ring_model]. by destruct (ring_find _ _).
  - done.
  - exists r', l', addrs. split_and!; try done.
    + vm_compute in Hr. injection Hr as <-. vm_compute in Hl. by injection Hl as <-.
    + vm_compute in Hr. injection Hr as <-. vm_compute in Ha. by injection Ha as <-.
    + apply (Hin (farr_of 32 (replicate 32 x42))). apply list_elem_of_In. right. by left.
Defined.

(** ** A vesting account *)

Definition bech32_evm : Bech32 := Build_Bech32 AccAddressFromBech32 AccAddressString ConvertAndEncode
  (fun s => if decide (s = "alice"%string) then Ok ("evm"%string, farr_bytes alice) else Err ErrInvalidAddress) sdk_config.
(** Every denomination of the two lists with the sum of its amounts. *)
Definition coins_add (a b : list (string * Z)) : list (string * Z) := (fun d => (d, AmountOf a d + AmountOf b d)) <$> a.*1 ++ b.*1.
Lemma amount_absent c d : d ∉ c.*1 -> AmountOf c d = 0.
Proof. induction c as [|[d' x] c IH]; cbn; [done|]. rewrite not_elem_of_cons. intros [Hd Hc]. rewrite decide_False by done. by apply IH. Qed.
Lemma amount_coins_add a b d : AmountOf (coins_add a b) d = AmountOf a d + AmountOf b d.
Proof.
  assert (forall ds, AmountOf ((fun d => (d, AmountOf a d + AmountOf b d)) <$> ds) d = if decide (d ∈ ds) then AmountOf a d + AmountOf b d else 0) as H.
  { induction ds as [|d' ds IH]; cbn [fmap list_fmap AmountOf]; [done|]. rewrite IH. destruct (decide (d' = d)) as [->|Hd].
    - by rewrite decide_True by left.
    - destruct (decide (d ∈ ds)); [by rewrite decide_True by by right|rewrite decide_False; [done|]]. by intros [->|?]%elem_of_cons. }
  unfold coins_add. rewrite H. case_decide as Hd; [done|]. rewrite elem_of_app in Hd. rewrite !amount_absent; naive_solver.
Qed.
#[export] Instance genesis_lib_model : GenesisLib := {|
  ParseCoinsNormalized s := if decide (s = "5wei"%string) then Ok [("wei"%string, 5)] else Err (Errorf "invalid coins");
  Coins_IsValid _ := true;
  Coins_Add := coins_add;
  vesting_Validate _ := Ok tt
|}.
Definition genesis_bob : AppGenesis :=
  mkAppGenesis [mkGenAccount (farr_bytes bob) 4 0 None] [("bob"%string, [("wei"%string, 7)])] [("wei"%string, 7)].
Definition locked : VestingFlags := mkVestingFlags false false true (Err (Errorf "none")) (Err (Errorf "none")).
Definition genesis2 : AppGenesis := res_get genesis_bob (AddVestingAccount (B := bech32_evm) "alice" " 5wei" locked genesis_bob).

(** The genesis of Bob with a locked account of Alice. *)
Lemma vesting_account_keeps_genesis_witness :
  genesis_ok genesis2 /\ AmountOf (ag_Supply genesis2) "wei" = 12 /\ ga_AccountNumber <$> ag_Accounts genesis2 = [4; 5].
Proof.
  split; [|split; by vm_compute].
  refine (proj1 (vesting_account_keeps_genesis (B := bech32_evm) "alice" " 5wei" locked genesis_bob genesis2 _ _ _ _)).
  - split; [done|]. intros a b _ _. split; [done|]. intros d. apply amount_coins_add.
  - split; cbn; try (apply NoDup_singleton); [split; [by repeat constructor|done]|].
    intros d. unfold total. cbn. destruct (decide _); lia.
  - intros a ->%list_elem_of_singleton. vm_compute. split; [discriminate|done].
  - by vm_compute.
Defined.
