(* ===== verification/WebsocketsWitnesses.v ===== *)
(** * The websocket server on a concrete run

    A client connects, subscribes to the logs of one address, gets the log of a
    transaction, and asks for something the HTTP server answers. *)

From Stdlib Require Import Strings.Byte Floats.SpecFloat.
From stdpp Require Import base gmap list strings.
From S2P Require Import Prelude Sdk Geth SdkModel EvmTypes TxTypes AnteTx Genesis Indexer RpcLogs FilterSystem RpcBlocks RpcFees Websockets WebsocketsSafety.
From S2P Require Import Models RpcBackendWitnesses.

Definition log_address : Address := farr_of 20 [xaa].
Definition subscribe_msg : GoMembers :=
  [("method"%string, GoString "eth_subscribe"); ("id"%string, GoFloat (float64_of 7));
   ("params"%string, GoSlice [GoString "logs"; write_criteria [log_address] [[]]])].
Definition other_msg : GoMembers := [("method"%string, GoString "eth_chainId"); ("id"%string, GoFloat (float64_of 8))].
#[export] Instance ws_lib_model : WsLib := {|
  Unmarshal_map mb := if decide (mb = [x01]) then Ok subscribe_msg
                      else if decide (mb = [x02]) then Ok other_msg else Err (Errorf "no JSON");
  Unmarshal_any body := if decide (body = [x09]) then Ok (GoString "0x1") else Err (Errorf "no JSON");
  ParseFloat _ := Err (Errorf "no number");
  http_Post _ := Ok [x09]
|}.
Definition receipt_response (data : bytes) : res MsgEthereumTxResponse :=
  Ok (mkMsgEthereumTxResponse 21000 None [] zero_hash (x01 :: Uint64ToBigEndian 21000)).

Definition session : list ws_action :=
  [WConnect 0; WMessage 0 [x01] "0xa" "0xe"; WProceed 0 None; WProceed 0 None; WProceed 0 None;
   WPublish evmEvents (WsEventTx [] []) {["0xa"%string]}; WListen "0xa"; WProceed 0 None; WMessage 0 [x02] "0xb" "0xf"].
Definition after_actions (l : list ws_action) : Server := foldl (fun s a => snd (ws_perform receipt_response a s)) NewServer l.
Definition session_end : Server := after_actions session.
Definition client : Conn := default NewConn (ws_conns session_end !! 0%nat).

Lemma after_step l a : ws_steps receipt_response NewServer l (after_actions l) -> ws_enabled a (after_actions l) ->
  fst (ws_perform receipt_response a (after_actions l)) = Ok tt ->
  ws_steps receipt_response NewServer (l ++ [a]) (after_actions (l ++ [a])).
Proof.
  intros Hs He E. eapply ws_step; [exact Hs|exact He|]. unfold after_actions at 2. rewrite foldl_snoc. rewrite <- E. apply surjective_pairing.
Qed.
Lemma fresh_when s id : ws_listeners s !! id = None ->
  map_Forall (fun _ cn => cn_subscriptions cn !! id = None /\ (p_subID <$> cn_pending cn) <> Some id) (ws_conns s) -> fresh_id id s.
Proof.
  intros H1 H2. split; [done|]. intros c cn Ec. destruct (H2 c cn Ec) as [? Hp]. split; [done|]. intros p Ep Hid. apply Hp. rewrite Ep. cbn. by rewrite Hid.
Qed.
Definition client_after (k : nat) : Conn := default NewConn (ws_conns (after_actions (take k session)) !! 0%nat).
(** The first requests of the session, one step after the other. *)
Lemma session_runs : ws_steps receipt_response NewServer session session_end.
Proof.
  apply (after_step (take 8 session) (WMessage 0 [x02] "0xb" "0xf"));
    [|split; [exists (client_after 8); split_and!; [vm_compute; reflexivity|vm_compute; reflexivity|vm_compute; reflexivity|vm_compute; discriminate]|]|vm_compute; reflexivity].
  2: { apply fresh_when; [vm_compute; reflexivity|].
       replace (ws_conns (after_actions (take 8 session))) with ({[0%nat := client_after 8]} : gmap nat Conn) by (vm_compute; reflexivity).
       intros c cn [<- <-]%lookup_singleton_Some. split; vm_compute; congruence. }
  apply (after_step (take 7 session) (WProceed 0 None)); [|eexists _, _; split; vm_compute; reflexivity|vm_compute; reflexivity].
  apply (after_step (take 6 session) (WListen "0xa")); [|eexists _, _; split; vm_compute; reflexivity|vm_compute; reflexivity].
  apply (after_step (take 5 session) (WPublish evmEvents (WsEventTx [] []) {["0xa"%string]})); [|exact I|vm_compute; reflexivity].
  apply (after_step (take 4 session) (WProceed 0 None)); [|eexists _, _; split; vm_compute; reflexivity|vm_compute; reflexivity].
  apply (after_step (take 3 session) (WProceed 0 None)); [|eexists _, _; split; vm_compute; reflexivity|vm_compute; reflexivity].
  apply (after_step (take 2 session) (WProceed 0 None)); [|eexists _, _; split; vm_compute; reflexivity|vm_compute; reflexivity].
  apply (after_step (take 1 session) (WMessage 0 [x01] "0xa" "0xe"));
    [|split; [exists (client_after 1); split_and!; [vm_compute; reflexivity|vm_compute; reflexivity|vm_compute; reflexivity|vm_compute; discriminate]|]|vm_compute; reflexivity].
  2: { apply fresh_when; [vm_compute; reflexivity|].
       replace (ws_conns (after_actions (take 1 session))) with ({[0%nat := client_after 1]} : gmap nat Conn) by (vm_compute; reflexivity).
       intros c cn [<- <-]%lookup_singleton_Some. split; vm_compute; congruence. }
  apply (after_step [] (WConnect 0)); [constructor|vm_compute; reflexivity|vm_compute; reflexivity].
Qed.


Definition log_sub_key : string * Z := (evmEvents, 1).
Lemma ws_subscribers_exact_witness :
  sub_at (ws_events session_end) evmEvents 1 = Some 1%nat /\
  exists c cn id l, ws_conns session_end !! c = Some cn /\ cn_subscriptions cn !! id = Some log_sub_key /\
    ws_listeners session_end !! id = Some l /\ wl_conn l = c /\ wl_ch l = 1%nat.
Proof.
  destruct (ws_subscribers_exact receipt_response session session_end session_runs) as (H & _); [vm_compute; discriminate|].
  assert (sub_at (ws_events session_end) evmEvents 1 = Some 1%nat) as E by (vm_compute; reflexivity). split; [exact E|].
  destruct (proj1 (H evmEvents 1 1%nat) E) as (c & cn & id & l & H1 & H2 & H3 & H4 & _ & _ & H5). exists c, cn, id, l. split_and!; assumption.
Defined.

Definition the_note : Frame := default (ErrorResponse (Errorf "no frame")) (head (cn_out client)).
Definition noted_log : EthLog := match the_note with Notification _ (NewLog l) => l | _ => mkEthLog (mkLog zero_address [] []) 0 zero_hash 0 zero_hash 0 end.
Lemma ws_notifications_fit_witness : exists l, ws_listeners session_end !! "0xa"%string = Some l /\ wl_conn l = 0%nat /\
  wl_typ l = LogsSubscription /\ matches (fc_Addresses (wl_crit l)) (fc_Topics (wl_crit l)) (el_Log noted_log).
Proof.
  destruct (ws_notifications_fit receipt_response session session_end 0 client "0xa" (NewLog noted_log) session_runs) as (l & H1 & H2 & H3);
    [vm_compute; discriminate|vm_compute; reflexivity|vm_compute; left|]. exists l. split_and!; [exact H1|exact H2|exact (proj1 H3)|exact (proj2 H3)].
Defined.

Lemma ws_criteria_round_trip_witness :
  criteria_of (write_criteria [log_address] [[]; [BytesToHash [x07]]]) = Ok (mkFilterCriteria None None None [log_address] [[]; [BytesToHash [x07]]]).
Proof. apply ws_criteria_round_trip. Defined.
