(* ===== verification/WalletWitnesses.v ===== *)
(** * A hardware wallet on a concrete device

    A scripted Ledger answers the derivation of an account, its version, the derivation
    again and the signature of a document; the hub finds it among other devices. *)

From Stdlib Require Import Strings.Byte.
From stdpp Require Import base gmap list strings sorting.
From S2P Require Import Prelude Sdk Geth SdkModel EvmTypes Eip712 TypedTx VAuth Keys Ledger Wallets Models TypedWitnesses.

#[export] Instance ledger_crypto_model : LedgerCrypto := {|
  DefaultBaseDerivationPath := [2 ^ 31 + 44; 2 ^ 31 + 60; 2 ^ 31; 0; 0];
  UnmarshalPubkey bz := if (length bz =? 65)%nat then Ok (farr_of 32 (take 32 (drop 1 bz))) else Err (Errorf "invalid public key")
|}.
#[export] Instance recover_model : RecoverLib (C := curve_model) := {|
  FromECDSAPub p := x04 :: farr_bytes p ++ replicate 32 x00;
  Ecrecover digest sig := if decide (take 32 (drop 32 sig) = model_s x00 digest \/ take 32 (drop 32 sig) = model_s xff digest)
                          then Ok (x04 :: farr_bytes (farr_of 32 (take 32 sig)) ++ replicate 32 x00)
                          else Err (Errorf "invalid signature")
|}.
Lemma model_s_low digest : length digest = 32%nat -> be_decode (model_s x00 digest) <= secp256k1_N / 2 /\ secp256k1_N / 2 < be_decode (model_s xff digest).
Proof.
  intros Hd. unfold model_s. rewrite !be_decode_cons. rewrite length_drop, Hd.
  pose proof (be_decode_range (drop 1 digest)) as Hb. rewrite length_drop, Hd in Hb.
  change (Z_of_byte x00) with 0. change (Z_of_byte xff) with 255.
  assert (secp256k1_N / 2 = 57896044618658097711785492504343953926418782139537452191302581570759080747168) as -> by (vm_compute; reflexivity).
  assert (256 ^ Z.of_nat (32 - 1) = 452312848583266388373324160190187140051835877600158453279131187530910662656) as Hp by (vm_compute; reflexivity). rewrite Hp in *. lia.
Qed.
#[export] Instance recover_model_laws : RecoverLaws.
Proof.
  split.
  - intros digest sig p Hd Hl. cbn [Ecrecover recover_model FromECDSAPub]. case_decide as Hs; [|done]. intros [= Hp] Hlow.
    apply app_inv_tail in Hp. cbn [curve_Verify curve_model CompressPubkey tail]. apply bool_decide_eq_true_2.
    destruct (model_s_low digest Hd) as [_ Hhigh]. unfold low_s in Hlow. destruct Hs as [Hs|Hs]; [|rewrite Hs in Hlow; lia].
    assert (length (take 32 sig) = 32%nat) as H32 by (rewrite length_take, Hl; done).
    rewrite <- Hp, farr_bytes_of, <- Hs by done. rewrite <- (take_drop 32 (take 64 sig)). f_equal; [by rewrite take_take|by rewrite take_drop_commute].
  - intros digest sig p Hd. cbn [curve_Verify curve_model CompressPubkey tail]. intros ->%bool_decide_eq_true.
    unfold low_s. rewrite drop_app_length' by (symmetry; apply farr_length). rewrite take_ge; [by apply model_s_low|].
    unfold model_s. cbn [length]. rewrite length_drop, Hd. done.
Qed.

Definition device_key : Point := farr_of 32 [x01; x02; x03].
Definition status_ok : bytes := [x90; x00].
Definition ascii_bytes (s : string) : bytes := String.list_byte_of_string s.
Definition derive_reply : bytes :=
  [x41] ++ FromECDSAPub device_key ++ [x28] ++ ascii_bytes (EncodeToString (farr_bytes (Point_Address device_key))) ++ status_ok.
Definition version_reply : bytes := [x01; x01; x09; x02] ++ status_ok.
(** What is signed: the typed data of the document [x01]. *)
Definition raw_doc : bytes := x19 :: x01 :: replicate 64 (byte_of_Z 4).
(** [first]: the first byte of [s]. *)
Definition sign_reply (first : byte) : bytes :=
  [x1b] ++ farr_bytes device_key ++ model_s first (farr_bytes (Keccak256Hash raw_doc)) ++ status_ok.
Definition device_script_of (first : byte) : Script :=
  mkScript [] (reply_stream derive_reply ++ reply_stream version_reply ++ reply_stream derive_reply ++ reply_stream (sign_reply first)).
Definition device_script : Script := device_script_of x00.
Definition ledger_wallet_of (first : byte) : wallet := new_wallet "usb/1" (device_script_of first, newLedgerDriver).
Definition ledger_wallet : wallet := ledger_wallet_of x00.
#[export] Instance ledger_200 : Driver (Script * ledgerDriver) := ledger_driver 200.
#[export] Instance ledger_200_laws : DriverLaws (Script * ledgerDriver) := ledger_driver_laws 200.
Definition hashes_ok (td : TypedTx) : res unit := Ok tt.
Definition hd_path : list Z := [44; 60; 0; 0; 0].
Definition signed_doc (first : byte) := SignSECP256K1 (J := gjson_model) 10 hashes_ok None hd_path [x01] 0 (Some (ledger_wallet_of first)).
Definition doc_sig (first : byte) : bytes := match fst (signed_doc first) with Ok (Some sig) => sig | _ => [] end.

(** The device signs with a low [s], or with a high one. *)
Lemma ledger_signature_accepted_witness :
  (exists w' account, snd (signed_doc x00) = Some w' /\ is_Some (pinned_at w' (acc_Address account)) /\
     PubKey_VerifySignature 10 (CompressPubkey (acc_PublicKey account)) [x01] (doc_sig x00) = Ok true) /\
  (exists w' account, snd (signed_doc xff) = Some w' /\ is_Some (pinned_at w' (acc_Address account)) /\
     PubKey_VerifySignature 10 (CompressPubkey (acc_PublicKey account)) [x01] (doc_sig xff) = Ok false).
Proof.
  split.
  - destruct (ledger_signature_accepted 10 hashes_ok None hd_path [x01] 0 ledger_wallet (snd (signed_doc x00)) (doc_sig x00))
      as (w' & account & path & raw & pinned & d1 & d2 & d3 & d4 & H1 & _ & _ & _ & H4 & _ & _ & _ & H5 & _).
    + vm_compute. reflexivity.
    + exists w', account. split_and!; [exact H1|by exists pinned|]. rewrite H5. vm_compute. reflexivity.
  - destruct (ledger_signature_accepted 10 hashes_ok None hd_path [x01] 0 (ledger_wallet_of xff) (snd (signed_doc xff)) (doc_sig xff))
      as (w' & account & path & raw & pinned & d1 & d2 & d3 & d4 & H1 & _ & _ & _ & H4 & _ & _ & _ & H5 & _).
    + vm_compute. reflexivity.
    + exists w', account. split_and!; [exact H1|by exists pinned|]. rewrite H5. vm_compute. reflexivity.
Defined.

(** Two Ledgers and a device of another product; the wallet of the first is known, and the
    one of a device that is gone has failed. *)
Definition nano (path : string) : DeviceInfo := mkDeviceInfo path 0x1011 0xffa0 1.
Definition mouse : DeviceInfo := mkDeviceInfo "usb/3" 0x0f0f 1 0.
Definition gone : wallet := new_wallet "usb/0" (device_script, mkLedgerDriver (x00, x00, x00) false (Some (Errorf "EOF"))).
Definition hub1 : Hub := mkHub [gone; ledger_wallet] 0 0.
Lemma hub_wallets_exact_witness :
  hub_wallets (refreshWallets true false (Some [nano "usb/1"; nano "usb/2"; mouse]) (device_script, newLedgerDriver) hub1) =
    [ledger_wallet; new_wallet "usb/2" (device_script, newLedgerDriver)].
Proof.
  rewrite (hub_wallets_exact true false (Some [nano "usb/1"; nano "usb/2"; mouse]) (device_script, newLedgerDriver) hub1).
  - vm_compute. reflexivity.
  - cbn. lia.
  - repeat constructor.
  - intros l [= <-]. split; [repeat constructor|]. constructor; [right; vm_compute; discriminate|].
    constructor; [left; vm_compute; left|constructor].
Defined.
